(* ===== verification/_CoqProject ===== *)
-Q . S2P
Prelude.v
Words.v
Params.v
CString.v
Spinlock.v
Proc.v
ProcStep.v
ProcInv.v
ProcProps.v
Trap.v
TrapStep.v
TrapProps.v
SleepProps.v
Kalloc.v
Pipe.v
Bio.v
Buf.v
Ide.v
IdeProps.v
BioProof.v
Log.v
LogProof.v
LogProps.v
Core.v
Fs.v
File.v
Mkfs.v
Syscall.v
RR.v
Sysfile.v
Frame.v
Sysproc.v
RRSpec.v
RRCodec.v
RRBuild.v
RRCalls.v
Session.v
MemBlk.v
Demo.v
SessionProps.v
Ulib.v
Console.v
ConsoleProps.v
Umalloc.v
UmallocProps.v
Filters.v
Grep.v
Shell.v
RunCmd.v
FsPath.v
FsAlloc.v
FsInode.v
FsData.v
FsDir.v
Vm.v
VmRep.v
VmSpace.v
VmProps.v
Exec.v
ExecMem.v
ExecProps.v
Mp.v
MpProps.v
Boot.v
BootProps.v
Apic.v
Startup.v
StartupProps.v
Tools.v
Seg.v
MemIde.v
