(* ===== verification/Prelude.v ===== *)
(** * xv6 with system-call record and replay: a verified model

    The program is the xv6 teaching kernel for x86 (src/v3), extended by a
    recorder that logs the system calls of a process with their inputs and
    outputs, writes the log to a file, and can run the process again with the
    logged results in place of the real calls.  src/v1 and src/v2 are earlier
    copies of the same program and are not modelled.

    ** How the program is put together

    A user program (sh.c, grep.c, ...) traps into the kernel; syscall.c fetches
    the arguments and calls a handler of sysfile.c or sysproc.c.  A handler that
    takes part in record and replay has three branches: replay the call from
    the log, record it, or run it plainly.  The recorder itself (rr.h and most
    of sysproc.c) builds, stores, compares, encodes and decodes records.  The
    file-system calls work on the file table (file.c), on pipes (pipe.c) and on
    inodes, directories and paths (fs.c), which sit on the write-ahead log
    (log.c), the buffer cache (bio.c) and the disk (ide.c, or memide.c).  Pages come from kalloc.c
    and are put into page tables by vm.c, for which exec.c builds the image of
    a new program; processes and the scheduler are proc.c, over the spin locks
    of spinlock.c.  Interrupts and exceptions enter through trap.c, which calls
    the drivers of the disk (ide.c), the keyboard (kbd.c), the serial port
    (uart.c) and the console (console.c), counts the clock, kills processes that
    fault and makes the others yield.

    ** Files of the development

    - Prelude: the monad of kernel routines ([M S A]: a value and a new state,
      panic, blocked, or undefined behaviour), its laws and tactics, generic
      lemmas.  Words: 8-, 16- and 32-bit integers and their byte layout.
      Params: the constants of the headers.
    - CString: string.c.  Kalloc: kalloc.c.  Pipe: the ring of pipe.c.
    - Spinlock: spinlock.c with mycpu and cpuid of proc.c, on several CPUs.
      Proc: proc.c, over the class [ProcEnv] of what it calls of vm.c and
      file.c.  ProcStep: the effect of each routine.  ProcInv: executions as a
      step relation between CPUs, and their invariant.  ProcProps: theorems.
    - Trap: trap.c, the dispatch of syscall.c and sys_sleep, over the class
      [TrapEnv] of the drivers and the system calls.  TrapStep: progress of the
      routines of proc.c.  TrapProps: what a trap does, against the laws
      [TrapLaws].  SleepProps: executions of the clock and of sys_sleep.
    - Ide: ide.c with its queue, the registers of the drive and the sleeping
      processes.  IdeProps: theorems, and that Bio has the same driver in one
      step.  Console: console.c, kbd.c and uart.c.  ConsoleProps: theorems.
    - Boot: bootmain.c, on the drive of Ide.  BootProps: theorem.  Mp: mp.c.
      MpProps: the search and the table against plain specifications.  Apic:
      lapic.c, ioapic.c and picirq.c.  Startup: startothers of main.c and the
      processors it starts.  StartupProps: theorem.  MemIde: memide.c, the same
      to bio.c as the disk driver.  Seg: seginit of vm.c.
    - Bio: bio.c and the transfer of ide.c.  Buf: the interface [BufOps] and
      its laws [BufLaws].  BioProof: bio.c implements it.  Log: log.c over
      [BufOps].  LogProof, LogProps: crash safety.
    - Core: the state of the system calls, over a block layer.  Fs: fs.c.
      File: file.c.  Mkfs: mkfs.c.  MemBlk: the block layer as a store, and
      Demo a booted machine; both serve the witnesses and the Fs proofs.
    - FsPath, FsAlloc, FsInode, FsData, FsDir: correctness of fs.c.
    - Syscall: syscall.c.  RR, Sysproc: the recorder, rr.h and sysproc.c.
      Sysfile: sysfile.c.  Frame: what kernel routines leave alone.
    - RRSpec: the abstract record and its file format.  RRCodec, RRBuild,
      RRCalls: the recorder's routines against it.  Session, SessionProps:
      whole sessions.
    - Vm: vm.c, page tables in the bytes of physical pages.  VmRep: address
      spaces as maps, and which pages they hold.  VmSpace: the routines on
      them.  VmProps: growing, copying and freeing user memory, copyout.
    - Exec: exec.c, loaduvm and switchuvm, and sys_exec, over Vm and the class
      [ExecFs] of what exec calls of fs.c and log.c.  ExecMem: the memory of a
      program image under construction.  ExecProps: theorem.
    - Ulib: ulib.c and printf.c.  Umalloc: umalloc.c.  UmallocProps: theorems.
      Grep: grep.c.  Filters: cat.c, wc.c and echo.c.  Tools: ls.c, ln.c, rm.c,
      mkdir.c, kill.c, init.c and stat of ulib.c over the class [Calls] of the
      system calls.  Shell: the parser of sh.c.  RunCmd: runcmd and main of sh.c.

    ** What the theorems show

    - Record and replay: a session recorded, written out and loaded again
      replays with the same results and the same memory, whatever the rest of
      the kernel does meanwhile; recording does not change what a call does;
      the codec round-trips; divergence is detected; and the cases in which
      the code does not do so (overflow of the buffer, running past the end of
      the log, chdir recorded as mkdir).
    - Crash safety: after a crash at any disk write of commit, recovery shows
      all of a transaction or none; the transaction discipline; bio.c keeps
      the contract the log relies on.
    - File system: allocation, the inode cache, inodes on disk, content (what
      writei writes readi reads, and nothing else changes), directories as
      maps, path elements.
    - Processes: an invariant of all interleavings of any number of CPUs, no
      lost wakeup between exit and wait, the fairness bound of the scheduler,
      mutual exclusion by spin locks.
    - Boot: a kernel with segments in increasing order is loaded where its
      headers say; mpinit leaves the processors of the table in cpus, and loops
      for ever at an entry it does not know; every other processor is started
      once, on a stack of its own.
    - Traps: in user mode the kernel survives every trap number, an exception
      ends its process and no other, and no killed process goes back to user
      mode; in the kernel interrupts are handled and anything else panics.
      Nobody sleeps on in sys_sleep when the time has come.
    - Devices: requests of the disk are carried out in order, none is lost, and
      a process alone sees each as one step; the keyboard tables are read in
      bounds, the line editor edits as specified, what is typed is read.
    - Memory and strings: fresh pages, the FIFO property of pipes with wrapping
      counters, memmove with overlap, strncpy and strncmp.
    - Virtual memory: fork's copy is exact, in fresh pages, or nothing at all;
      growing is all or nothing; freeing returns every page; copyout writes
      what it is given and nothing else.  exec is all or nothing too: it leaves
      the old image alone and loses no page, or it puts the new image, its stack
      and its arguments in place.
    - User code: the shell's parser is total and reads back what is printed;
      the programs of a line are started with the descriptors the line says,
      and no end of a pipe is left open; grep's matcher is equivalent to the
      language of the pattern; wc counts lines, words and bytes; printf's
      numbers read back with atoi; malloc hands out disjoint blocks and free
      puts all memory back together.

    ** Bounds and fuel

    Loops that the code bounds by a counter are structural or take that bound
    as fuel; loops over strings and lists are structural.  The recursive
    descent of the shell takes four times the length of the line plus four:
    every cycle of four calls consumes a character ([parsecmd_terminates]
    shows that the fuel never runs out).  readi and writei take as many rounds
    as there are bytes, since every round moves at least one.  malloc takes
    twice the number of free blocks and a few rounds, free one round a block:
    the searches go round the list at most twice.  The queue of the disk is
    walked at most once a buffer, idewait reads at most the statuses the drive
    will show, the line editor kills at most the ring.  readseg reads as many
    sectors as the segment reaches, and mpinit goes round its table at most once
    a byte: a round that goes on advances by eight.  exec takes argument strings
    that fit the stack page.  ls takes the entries its directory has when it is
    opened, and init as many rounds as it is given.  Fuel that runs
    out is [Undef], and the theorems prove that a result is reached.  Integers
    that can wrap are wrapped where the code wraps them ([u32], [s32], ...).

    ** What is not modelled

    Assembly, other than what an entered or left routine sees of it; the order
    of the calls in main.c; the clock of cmostime, which nothing calls; the
    registers of devices other than the disk and the interrupt controllers, of
    which the model has
    the bytes that wait and that were sent.  Routines other than proc.c,
    spinlock.c, sys_sleep and ide.c run one process at a time, so their short
    critical sections are not represented as interleavings; a trap, too, runs
    up to the point where its thread leaves the CPU.  For the file system a disk
    request is one step of the disk.  Memory allocation in the shell is taken to
    succeed.  For the system calls user memory is one flat range of [sz] bytes,
    which is what the page tables provide.  The tests (usertests.c, forktest.c,
    stressfs.c and the ts_ programs of the recorder) are long lists of system
    calls with fixed arguments: they promise nothing of their own.  The programs
    zombie.c, kshutdown.c and shutdown.c are one or two calls.  src/v1 and
    src/v2 hold the same routines before later changes.

    ** Plan

    The components above are complete.  What could follow: the interface
    [ExecFs] discharged by fs.c, the order of the calls in main.c as one boot
    theorem, and the critical sections of fs.c and log.c as interleavings. *)
From stdpp Require Export base list numbers strings option gmap.
From Stdlib Require Export ZArith Lia.

Set Default Goal Selector "!".
Open Scope Z_scope.

(** ** Outcomes and the state/outcome monad

    A kernel routine runs on a state [S] and either returns a value and a new
    state, panics (xv6's [panic] halts the machine), would have to sleep until
    another process acts, or executes undefined behaviour (an access outside
    an array or outside the process image). *)
Inductive result (S A : Type) : Type :=
| Ok (a : A) (s : S)
| Panic (msg : string)
| Blocked (s : S)
| Undef.
Arguments Ok {S A} _ _.
Arguments Panic {S A} _.
Arguments Blocked {S A} _.
Arguments Undef {S A}.

Definition M (S A : Type) : Type := S -> result S A.

Definition ret {S A} (a : A) : M S A := fun s => Ok a s.

Definition bind {S A B} (m : M S A) (k : A -> M S B) : M S B := fun s =>
  match m s with
  | Ok a s' => k a s'
  | Panic msg => Panic msg
  | Blocked s' => Blocked s'
  | Undef => Undef
  end.

Definition gets {S A} (f : S -> A) : M S A := fun s => Ok (f s) s.

Definition modify {S} (f : S -> S) : M S unit := fun s => Ok tt (f s).

Definition panic {S A} (msg : string) : M S A := fun _ => Panic msg.

Definition sleep_forever {S A} : M S A := fun s => Blocked s.

Definition undef {S A} : M S A := fun _ => Undef.

Declare Scope mon_scope.
Delimit Scope mon_scope with mon.

Notation "x <- c1 ;; c2" := (bind c1 (fun x => c2))
  (at level 100, c1 at next level, right associativity) : mon_scope.
Notation "'let*' pat ':=' c1 'in' c2" := (bind c1 (fun pat => c2))
  (at level 100, pat pattern, c1 at level 100, right associativity) : mon_scope.
Notation "c1 ;; c2" := (bind c1 (fun _ => c2))
  (at level 100, right associativity) : mon_scope.
Open Scope mon_scope.

(** A call that may return the null pointer or -1, with an early exit. *)
Definition bind_or {S A B} (m : M S (option A)) (d : M S B) (k : A -> M S B) : M S B :=
  bind m (fun o => match o with Some a => k a | None => d end).

Notation "'let?' pat ':=' c1 'or' d 'in' c2" := (bind_or c1 d (fun pat => c2))
  (at level 100, pat pattern, c1 at level 100, d at level 100, right associativity)
  : mon_scope.

Definition whenM {S} (b : bool) (m : M S unit) : M S unit :=
  if b then m else ret tt.

(** Run a routine of a component on the component's part of a larger state. *)
Definition zoom {S T A} (get : S -> T) (put : T -> S -> S) (m : M T A) : M S A :=
  fun s =>
  match m (get s) with
  | Ok a t => Ok a (put t s)
  | Panic msg => Panic msg
  | Blocked t => Blocked (put t s)
  | Undef => Undef
  end.

(** C arrays: an index outside the array is undefined behaviour. *)
Definition zget {A} (l : list A) (i : Z) : option A :=
  if i <? 0 then None else l !! Z.to_nat i.

Definition zset {A} (l : list A) (i : Z) (x : A) : list A :=
  <[Z.to_nat i := x]> l.

Definition zlen {A} (l : list A) : Z := Z.of_nat (length l).

Definition from_option_undef {S A} (o : option A) : M S A :=
  match o with Some x => ret x | None => undef end.

Definition aget {S A} (l : list A) (i : Z) : M S A := from_option_undef (zget l i).

(** [slice off n l] is [l[off .. off+n)]; [splice off new l] overwrites the
    bytes of [l] from [off] on with [new] (the effect of a copy into an
    array). *)
Definition slice {A} (off n : nat) (l : list A) : list A := take n (drop off l).

Definition splice {A} (off : nat) (new l : list A) : list A :=
  take off l ++ new ++ drop (off + length new) l.

(** ** Monad laws and inversion *)

Lemma bind_ret_l {S A B} (a : A) (k : A -> M S B) s : bind (ret a) k s = k a s.
Proof. reflexivity. Qed.

Lemma bind_assoc {S A B C} (m : M S A) (k : A -> M S B) (h : B -> M S C) s :
  bind (bind m k) h s = bind m (fun a => bind (k a) h) s.
Proof. unfold bind. by destruct (m s). Qed.

Lemma bind_ret_r {S A} (m : M S A) s : bind m ret s = m s.
Proof. unfold bind, ret. by destruct (m s). Qed.

Lemma bind_ext {S A B} (m : M S A) (k k' : A -> M S B) s :
  (forall a s', k a s' = k' a s') -> bind m k s = bind m k' s.
Proof. intros Hk. unfold bind. by destruct (m s). Qed.

Lemma bind_run {S A B} (m : M S A) (k : A -> M S B) s a s' :
  m s = Ok a s' -> bind m k s = k a s'.
Proof. intros H. unfold bind. by rewrite H. Qed.

Lemma gets_bind {S A B} (f : S -> A) (k : A -> M S B) s : bind (gets f) k s = k (f s) s.
Proof. reflexivity. Qed.

Lemma bind_or_run {S A A'} (m : M S (option A)) (d : M S A') k (s : S) a s' :
  m s = Ok (Some a) s' -> bind_or m d k s = k a s'.
Proof. intros H. unfold bind_or. by rewrite (bind_run _ _ _ _ _ H). Qed.

Lemma bind_bind_or {S A B C} (m : M S A) (f : A -> M S (option B)) (d : M S C) k (s : S) :
  bind m (fun a => bind_or (f a) d k) s = bind_or (bind m f) d k s.
Proof. unfold bind_or. by rewrite bind_assoc. Qed.

Lemma bind_Ok_inv {S A B} (m : M S A) (k : A -> M S B) s b s'' :
  bind m k s = Ok b s'' -> exists a s', m s = Ok a s' /\ k a s' = Ok b s''.
Proof. unfold bind. intros H. destruct (m s); simplify_eq; eauto. Qed.

Lemma zoom_Ok_inv {S T A} (get : S -> T) put (m : M T A) s a s' :
  zoom get put m s = Ok a s' -> exists t, m (get s) = Ok a t /\ s' = put t s.
Proof. unfold zoom. intros H. destruct (m (get s)); simplify_eq; eauto. Qed.

Lemma zoom_run {S T A} (get : S -> T) put (m : M T A) s a t :
  m (get s) = Ok a t -> zoom get put m s = Ok a (put t s).
Proof. intros H. unfold zoom. by rewrite H. Qed.

(** ** Concrete runs

    [returns v (m s)] tests the value of a run without comparing states. *)
Definition run_state {S A} (m : M S A) (s : S) : S :=
  match m s with Ok _ s' => s' | _ => s end.

Definition returns {S} (v : Z) (r : result S Z) : bool :=
  match r with Ok a _ => a =? v | _ => false end.

Lemma returns_run {S} (m : M S Z) v s : returns v (m s) = true -> m s = Ok v (run_state m s).
Proof.
  unfold returns, run_state. destruct (m s); try done. by intros ->%Z.eqb_eq.
Qed.

(** ** Weakest preconditions

    [wp m s Q]: the routine returns (no panic, no sleep, no undefined
    behaviour) and the result satisfies [Q].  [wlp m s Q]: if it returns, the
    result satisfies [Q]. *)
Definition wp {S A} (m : M S A) (s : S) (Q : A -> S -> Prop) : Prop :=
  match m s with Ok a s' => Q a s' | _ => False end.

Definition wlp {S A} (m : M S A) (s : S) (Q : A -> S -> Prop) : Prop :=
  match m s with Ok a s' => Q a s' | _ => True end.

Lemma wp_bind {S A B} (m : M S A) (k : A -> M S B) s Q :
  wp m s (fun a s' => wp (k a) s' Q) -> wp (bind m k) s Q.
Proof. unfold wp, bind. by destruct (m s). Qed.

Lemma wp_conseq {S A} (m : M S A) s (P Q : A -> S -> Prop) :
  wp m s P -> (forall a s', P a s' -> Q a s') -> wp m s Q.
Proof. unfold wp. destruct (m s); eauto. Qed.

Lemma wp_Ok {S A} (m : M S A) s Q :
  wp m s Q <-> exists a s', m s = Ok a s' /\ Q a s'.
Proof.
  unfold wp. split.
  - destruct (m s); try done; eauto.
  - intros (a & s' & -> & H). done.
Qed.

Lemma wlp_bind {S A B} (m : M S A) (k : A -> M S B) s Q :
  wlp m s (fun a s' => wlp (k a) s' Q) -> wlp (bind m k) s Q.
Proof. unfold wlp, bind. by destruct (m s). Qed.

Lemma wlp_conseq {S A} (m : M S A) s (P Q : A -> S -> Prop) :
  wlp m s P -> (forall a s', P a s' -> Q a s') -> wlp m s Q.
Proof. unfold wlp. destruct (m s); eauto. Qed.

Lemma wlp_Ok {S A} (m : M S A) s Q a s' :
  wlp m s Q -> m s = Ok a s' -> Q a s'.
Proof. unfold wlp. intros H E. by rewrite E in H. Qed.

(** ** Lengths *)

Create HintDb len.
Create Rewrite HintDb len.

Lemma length_slice {A} off n (l : list A) :
  length (slice off n l) = Nat.min n (length l - off).
Proof. unfold slice. by rewrite length_take, length_drop. Qed.

Lemma length_splice {A} off (new l : list A) :
  (off + length new <= length l)%nat -> length (splice off new l) = length l.
Proof.
  intros H. unfold splice.
  rewrite !length_app, length_take, length_drop. lia.
Qed.

Lemma length_zset {A} (l : list A) i x : length (zset l i x) = length l.
Proof. apply length_insert. Qed.

#[export] Hint Rewrite @length_app @length_take @length_drop @length_replicate
  @length_insert @length_slice @length_zset @length_fmap @length_reverse
  @length_nil : len.
#[export] Hint Rewrite @length_splice using (autorewrite with len; simpl; lia) : len.

Ltac len := autorewrite with len; simpl length; try lia.

(** ** Slices and splices *)

Lemma slice_app_l {A} off n (l1 l2 : list A) :
  (off + n <= length l1)%nat -> slice off n (l1 ++ l2) = slice off n l1.
Proof.
  intros H. unfold slice. rewrite drop_app_le by lia.
  apply take_app_le. rewrite length_drop. lia.
Qed.

Lemma slice_app_r {A} off n (l1 l2 : list A) :
  (length l1 <= off)%nat -> slice off n (l1 ++ l2) = slice (off - length l1) n l2.
Proof. intros H. unfold slice. by rewrite drop_app_ge. Qed.

Lemma slice_all {A} n (l : list A) : length l = n -> slice 0 n l = l.
Proof. intros <-. unfold slice. rewrite drop_0. apply firstn_all. Qed.

Lemma slice_shorter {A} off m n (l : list A) :
  (m <= n)%nat -> slice off m l = take m (slice off n l).
Proof. intros H. unfold slice. rewrite take_take. f_equal. lia. Qed.

Lemma slice_splice {A} off n (new l : list A) :
  (off + length new <= length l)%nat -> length new = n ->
  slice off n (splice off new l) = new.
Proof.
  intros H <-. unfold splice. rewrite slice_app_r by (rewrite length_take; lia).
  rewrite slice_app_l by (rewrite length_take; lia).
  rewrite length_take. replace (off - _)%nat with 0%nat by lia.
  by apply slice_all.
Qed.

Lemma slice_splice_before {A} o n off (new l : list A) :
  (o + n <= off)%nat -> (off <= length l)%nat ->
  slice o n (splice off new l) = slice o n l.
Proof.
  intros H Hl. unfold splice. rewrite slice_app_l by (rewrite length_take; lia).
  unfold slice. rewrite !take_drop_commute, take_take. do 2 f_equal. lia.
Qed.

Lemma slice_splice_after {A} o n off (new l : list A) :
  (off + length new <= o)%nat -> (off + length new <= length l)%nat ->
  slice o n (splice off new l) = slice o n l.
Proof.
  intros H Hl. unfold splice.
  rewrite slice_app_r by (rewrite length_take; lia).
  rewrite slice_app_r by (rewrite length_take; lia).
  unfold slice. rewrite length_take, drop_drop. do 2 f_equal. lia.
Qed.

Lemma splice_slice_id {A} off n (l : list A) :
  (off + n <= length l)%nat -> splice off (slice off n l) l = l.
Proof.
  intros H. unfold splice. rewrite length_slice.
  replace (off + Nat.min n (length l - off))%nat with (off + n)%nat by lia.
  unfold slice. rewrite <- drop_drop, take_drop. apply take_drop.
Qed.

Lemma splice_splice_app {A} off (l1 l2 l : list A) :
  (off + length l1 + length l2 <= length l)%nat ->
  splice (off + length l1) l2 (splice off l1 l) = splice off (l1 ++ l2) l.
Proof.
  intros H. unfold splice.
  assert (Hl : length (take off l ++ l1) = (off + length l1)%nat) by len.
  rewrite (app_assoc (take off l) l1 (drop _ l)).
  rewrite (take_app_length' (take off l ++ l1)) by lia.
  rewrite drop_app_ge by (rewrite Hl; lia).
  rewrite drop_drop, Hl, length_app, <- !app_assoc. do 4 f_equal. lia.
Qed.

Lemma zset_id {A} (l : list A) i x : zget l i = Some x -> zset l i x = l.
Proof.
  unfold zget, zset. destruct (i <? 0); [done|]. apply list_insert_id.
Qed.

Lemma splice_0_all {A} (new l : list A) :
  length new = length l -> splice 0 new l = new.
Proof.
  intros H. unfold splice. simpl. rewrite drop_ge by lia. apply app_nil_r.
Qed.

Lemma splice_app_r {A} (l1 new l2 : list A) :
  (length new <= length l2)%nat ->
  splice (length l1) new (l1 ++ l2) = l1 ++ new ++ drop (length new) l2.
Proof.
  intros H. unfold splice. rewrite take_app_length.
  rewrite drop_app_ge by lia. do 3 f_equal. lia.
Qed.

Lemma slice_succ {A} off n (l : list A) x :
  l !! off = Some x -> slice off (S n) l = x :: slice (S off) n l.
Proof.
  intros H. unfold slice. by rewrite (drop_S _ x) by done.
Qed.

Lemma slice_split {A} off n m (l : list A) :
  slice off (n + m) l = slice off n l ++ slice (off + n) m l.
Proof. unfold slice. rewrite <- drop_drop. symmetry. apply take_take_drop. Qed.

Lemma slice_slice {A} k n off m (l : list A) :
  (k + n <= m)%nat -> slice k n (slice off m l) = slice (off + k) n l.
Proof.
  intros H. unfold slice. rewrite skipn_firstn_comm, take_take, drop_drop. f_equal. lia.
Qed.

Lemma splice_reread {A} off n (new l : list A) :
  (length new <= n)%nat -> (off + n <= length l)%nat ->
  splice off (slice off n (splice off new l)) l = splice off new l.
Proof.
  intros Hn Hl. replace n with (length new + (n - length new))%nat by lia.
  rewrite slice_split, slice_splice by lia.
  rewrite <- splice_splice_app by (len; lia).
  apply splice_slice_id. rewrite length_splice; lia.
Qed.

(** ** Array access *)

Lemma zget_Some {A} (l : list A) i x :
  zget l i = Some x -> 0 <= i < zlen l.
Proof.
  unfold zget, zlen. destruct (Z.ltb_spec i 0); [done|].
  intros E. apply lookup_lt_Some in E. lia.
Qed.

Lemma zget_lt {A} (l : list A) i :
  0 <= i < zlen l -> exists x, zget l i = Some x.
Proof.
  unfold zget, zlen. intros H. destruct (Z.ltb_spec i 0); [lia|].
  apply lookup_lt_is_Some_2. lia.
Qed.

Lemma zget_zset_eq {A} (l : list A) i x :
  0 <= i < zlen l -> zget (zset l i x) i = Some x.
Proof.
  unfold zget, zset, zlen. intros H. destruct (Z.ltb_spec i 0); [lia|].
  apply list_lookup_insert_eq. lia.
Qed.

Lemma zget_zset_ne {A} (l : list A) i j x :
  0 <= i -> i <> j -> zget (zset l i x) j = zget l j.
Proof.
  unfold zget, zset. intros Hi H. destruct (Z.ltb_spec j 0); [done|].
  apply list_lookup_insert_ne. lia.
Qed.

Lemma zlen_zset {A} (l : list A) i x : zlen (zset l i x) = zlen l.
Proof. unfold zlen. by rewrite length_zset. Qed.

Lemma zlen_app {A} (l1 l2 : list A) : zlen (l1 ++ l2) = zlen l1 + zlen l2.
Proof. unfold zlen. rewrite length_app. lia. Qed.

Lemma zlen_cons {A} (x : A) l : zlen (x :: l) = 1 + zlen l.
Proof. unfold zlen. simpl. lia. Qed.

Lemma zlen_nonneg {A} (l : list A) : 0 <= zlen l.
Proof. unfold zlen. lia. Qed.

Lemma zget_nat {A} (l : list A) (i : nat) : zget l (Z.of_nat i) = l !! i.
Proof.
  unfold zget. rewrite (proj2 (Z.ltb_ge _ _)) by lia. by rewrite Nat2Z.id.
Qed.

Lemma aget_Ok_inv {S A} (l : list A) i (s s' : S) x :
  aget l i s = Ok x s' -> zget l i = Some x /\ s' = s.
Proof.
  unfold aget, from_option_undef, ret, undef.
  destruct (zget l i); intros; simplify_eq; eauto.
Qed.

Lemma aget_run {S A} (l : list A) i (s : S) x :
  zget l i = Some x -> aget l i s = Ok x s.
Proof. intros H. unfold aget. by rewrite H. Qed.

(** ** Automation

    [mrun] executes the head of a monadic program in the goal whose outcome is
    already known; [minv H] decomposes a successful run [H]. *)
Ltac minv H :=
  lazymatch type of H with
  | bind _ _ _ = Ok _ _ =>
      let a := fresh "a" in let s := fresh "s" in
      let H1 := fresh "Hm" in let H2 := fresh "Hk" in
      apply bind_Ok_inv in H as (a & s & H1 & H2)
  | ret _ _ = Ok _ _ => unfold ret in H; injection H as ? ?; subst
  | gets _ _ = Ok _ _ => unfold gets in H; injection H as ? ?; subst
  | modify _ _ = Ok _ _ => unfold modify in H; injection H as ? ?; subst
  | panic _ _ = Ok _ _ => discriminate H
  | undef _ = Ok _ _ => discriminate H
  | sleep_forever _ = Ok _ _ => discriminate H
  | aget _ _ _ = Ok _ _ => apply aget_Ok_inv in H as [H ->]
  | (if ?b then _ else _) _ = Ok _ _ => destruct b eqn:?
  end.

Ltac minvs := repeat match goal with H : _ = Ok _ _ |- _ => progress (minv H) end.

Ltac destruct_bool_hyps :=
  repeat match goal with
  | H : (_ <? _) = true |- _ => apply Z.ltb_lt in H
  | H : (_ <? _) = false |- _ => apply Z.ltb_ge in H
  | H : (_ <=? _) = true |- _ => apply Z.leb_le in H
  | H : (_ <=? _) = false |- _ => apply Z.leb_gt in H
  | H : (_ >=? _) = true |- _ => apply Z.geb_le in H
  | H : (_ >? _) = true |- _ => rewrite Z.gtb_ltb in H; apply Z.ltb_lt in H
  | H : (_ >? _) = false |- _ => rewrite Z.gtb_ltb in H; apply Z.ltb_ge in H
  | H : (_ =? _) = true |- _ => apply Z.eqb_eq in H
  | H : (_ =? _) = false |- _ => apply Z.eqb_neq in H
  | H : (_ && _)%bool = true |- _ => apply andb_true_iff in H as [? ?]
  | H : (_ || _)%bool = false |- _ => apply orb_false_iff in H as [? ?]
  | H : negb _ = true |- _ => apply negb_true_iff in H
  | H : negb _ = false |- _ => apply negb_false_iff in H
  end.
