(* ===== verification/Words.v ===== *)
(** * Machine integers and their little-endian layout

    The x86 data model of the sources: [char]/[uchar] are 8 bits wide, [short]
    16, [int]/[uint]/pointers 32.  Values are kept in [Z]; a conversion to a
    type of the C sources is one of the wrap functions below.  Memory is a list
    of bytes, each a [Z] in [0, 256). *)
From S2P Require Import Prelude.

Definition u8 (z : Z) : Z := z mod 2 ^ 8.
Definition u16 (z : Z) : Z := z mod 2 ^ 16.
Definition u32 (z : Z) : Z := z mod 2 ^ 32.

(** Two's complement reading of the low [w] bits. *)
Definition signed (w z : Z) : Z :=
  let u := z mod 2 ^ w in if u <? 2 ^ (w - 1) then u else u - 2 ^ w.

Definition s16 (z : Z) : Z := signed 16 z.
Definition s32 (z : Z) : Z := signed 32 z.

(** [n] bytes of [z], least significant first, and the number they denote. *)
Fixpoint le_bytes (n : nat) (z : Z) : list Z :=
  match n with
  | O => []
  | S n' => z mod 256 :: le_bytes n' (z / 256)
  end.

Fixpoint le_val (l : list Z) : Z :=
  match l with
  | [] => 0
  | b :: l' => b + 256 * le_val l'
  end.

Definition is_byte (b : Z) : Prop := 0 <= b < 256.
Definition bytes (l : list Z) : Prop := Forall is_byte l.

#[export] Instance is_byte_dec b : Decision (is_byte b).
Proof. unfold is_byte. apply _. Defined.

(** Linear arithmetic over wrap-around: make the moduli literals and give
    [lia] the division equations. *)
Ltac word_lia :=
  unfold u8, u16, u32 in *;
  change (2 ^ 8) with 256 in *; change (2 ^ 16) with 65536 in *;
  change (2 ^ 32) with 4294967296 in *; change (2 ^ 31) with 2147483648 in *;
  Z.to_euclidean_division_equations; lia.

(** ** Ranges *)

Lemma u8_range z : 0 <= u8 z < 2 ^ 8.
Proof. apply Z.mod_pos_bound. lia. Qed.

Lemma u32_range z : 0 <= u32 z < 2 ^ 32.
Proof. apply Z.mod_pos_bound. lia. Qed.

Lemma u32_small z : 0 <= z < 2 ^ 32 -> u32 z = z.
Proof. apply Z.mod_small. Qed.

Lemma signed_range w z : 0 < w -> - 2 ^ (w - 1) <= signed w z < 2 ^ (w - 1).
Proof.
  intros Hw. unfold signed.
  assert (2 ^ w = 2 * 2 ^ (w - 1)) as Hp
    by (rewrite <- Z.pow_succ_r by lia; f_equal; lia).
  assert (0 < 2 ^ (w - 1)) by (apply Z.pow_pos_nonneg; lia).
  pose proof (Z.mod_pos_bound z (2 ^ w) ltac:(lia)).
  destruct (Z.ltb_spec (z mod 2 ^ w) (2 ^ (w - 1))); lia.
Qed.

Lemma signed_id w z : 0 < w -> - 2 ^ (w - 1) <= z < 2 ^ (w - 1) -> signed w z = z.
Proof.
  intros Hw Hz. unfold signed.
  assert (2 ^ w = 2 * 2 ^ (w - 1)) as Hp
    by (rewrite <- Z.pow_succ_r by lia; f_equal; lia).
  destruct (Z.ltb_spec z 0).
  - rewrite <- (Z_mod_plus_full z 1 (2 ^ w)), Z.mod_small by lia.
    destruct (Z.ltb_spec (z + 1 * 2 ^ w) (2 ^ (w - 1))); lia.
  - rewrite Z.mod_small by lia.
    destruct (Z.ltb_spec z (2 ^ (w - 1))); lia.
Qed.

Lemma signed_mod w z : 0 < w -> signed w (z mod 2 ^ w) = signed w z.
Proof.
  intros Hw. unfold signed. rewrite Zmod_mod. reflexivity.
Qed.

Lemma signed_mod_eq w z : 0 < w -> (signed w z) mod 2 ^ w = z mod 2 ^ w.
Proof.
  intros Hw. unfold signed.
  assert (0 < 2 ^ w) by (apply Z.pow_pos_nonneg; lia).
  destruct (z mod 2 ^ w <? 2 ^ (w - 1)); [apply Zmod_mod|].
  rewrite <- (Z_mod_plus_full (z mod 2 ^ w - 2 ^ w) 1 (2 ^ w)).
  replace (z mod 2 ^ w - 2 ^ w + 1 * 2 ^ w) with (z mod 2 ^ w) by lia.
  apply Zmod_mod.
Qed.

Lemma s32_range z : - 2 ^ 31 <= s32 z < 2 ^ 31.
Proof. apply (signed_range 32). lia. Qed.

Lemma s32_id z : - 2 ^ 31 <= z < 2 ^ 31 -> s32 z = z.
Proof. apply (signed_id 32). lia. Qed.

Lemma s32_u32 z : s32 (u32 z) = s32 z.
Proof. apply (signed_mod 32). lia. Qed.

Lemma u32_s32 z : u32 (s32 z) = u32 z.
Proof. apply (signed_mod_eq 32). lia. Qed.

Lemma s16_id z : - 2 ^ 15 <= z < 2 ^ 15 -> s16 z = z.
Proof. apply (signed_id 16). lia. Qed.

Lemma s16_range z : - 2 ^ 15 <= s16 z < 2 ^ 15.
Proof. apply (signed_range 16). lia. Qed.

Lemma testbit_above x w i : 0 <= x < 2 ^ w -> w <= i -> Z.testbit x i = false.
Proof.
  intros Hx Hi. destruct (Z.eq_dec x 0) as [->|]; [apply Z.bits_0|].
  apply Z.bits_above_log2; [lia|].
  assert (0 <= w) by (apply Z.nlt_ge; intros ?; rewrite Z.pow_neg_r in Hx; lia).
  apply Z.lt_le_trans with w; [apply Z.log2_lt_pow2; lia|done].
Qed.

(** Or-ing a number below [2^k] into a number shifted by [k] adds it. *)
Lemma lor_shiftl a b k : 0 <= k -> 0 <= a < 2 ^ k -> Z.lor a (Z.shiftl b k) = a + 2 ^ k * b.
Proof.
  intros Hk Ha. rewrite <- Z.add_nocarry_lor; [rewrite Z.shiftl_mul_pow2 by lia; lia|].
  apply Z.bits_inj'. intros i Hi. rewrite Z.land_spec, Z.bits_0. destruct (Z.ltb_spec i k).
  - by rewrite (Z.shiftl_spec_low b k i), andb_false_r.
  - by rewrite (testbit_above a k i).
Qed.

(** Masking a uint with [~(2^k - 1)] rounds it down to a multiple of [2^k]. *)
Lemma land_mask_round x k :
  0 <= k <= 32 -> 0 <= x < 2 ^ 32 ->
  Z.land x (u32 (Z.lnot (2 ^ k - 1))) = x / 2 ^ k * 2 ^ k.
Proof.
  intros Hk Hx. rewrite <- Z.shiftr_div_pow2, <- Z.shiftl_mul_pow2 by lia.
  rewrite <- Z.ldiff_ones_r by lia.
  apply Z.bits_inj'. intros i Hi. rewrite Z.land_spec, Z.ldiff_spec.
  destruct (Z.ltb_spec i 32).
  - unfold u32. rewrite Z.mod_pow2_bits_low, Z.lnot_spec by lia.
    by rewrite Z.sub_1_r, <- Z.ones_equiv.
  - by rewrite (testbit_above x 32) by lia.
Qed.

(** ** Little-endian encoding *)

Lemma length_le_bytes n z : length (le_bytes n z) = n.
Proof. revert z. induction n as [|n IH]; intros z; simpl; [done|]. by rewrite IH. Qed.
#[export] Hint Rewrite length_le_bytes : len.

Lemma zlen_le_bytes n z : zlen (le_bytes n z) = Z.of_nat n.
Proof. unfold zlen. by rewrite length_le_bytes. Qed.

Lemma bytes_le_bytes n z : bytes (le_bytes n z).
Proof.
  revert z. induction n as [|n IH]; intros z; simpl; constructor.
  - apply Z.mod_pos_bound. lia.
  - apply IH.
Qed.

Lemma le_val_bytes n z : le_val (le_bytes n z) = z mod 2 ^ (8 * Z.of_nat n).
Proof.
  revert z. induction n as [|n IH]; intros z; cbn [le_bytes le_val].
  - by rewrite Z.mod_1_r.
  - rewrite IH. replace (8 * Z.of_nat (S n)) with (8 + 8 * Z.of_nat n) by lia.
    rewrite Z.pow_add_r by lia. change (2 ^ 8) with 256.
    rewrite Z.rem_mul_r by lia. lia.
Qed.

Lemma le_val_range l : bytes l -> 0 <= le_val l < 2 ^ (8 * zlen l).
Proof.
  unfold zlen. induction 1 as [|b l Hb _ IH]; [simpl; lia|].
  cbn [le_val length].
  replace (8 * Z.of_nat (S (length l))) with (8 + 8 * Z.of_nat (length l)) by lia.
  rewrite Z.pow_add_r by lia. unfold is_byte in Hb. change (2 ^ 8) with 256. lia.
Qed.

Lemma le_bytes_val l : bytes l -> le_bytes (length l) (le_val l) = l.
Proof.
  induction 1 as [|b l Hb _ IH]; [done|]. cbn [le_val length le_bytes].
  unfold is_byte in Hb.
  rewrite (Z.add_comm b), (Z.mul_comm 256).
  rewrite Z.add_comm at 1.
  rewrite Z_mod_plus_full, Z.mod_small by lia.
  rewrite Z.div_add_l, Z.div_small, Z.add_0_r by lia. by rewrite IH.
Qed.

Lemma le_bytes_mod n z : le_bytes n (z mod 2 ^ (8 * Z.of_nat n)) = le_bytes n z.
Proof.
  rewrite <- le_val_bytes.
  rewrite <- (length_le_bytes n z) at 1. apply le_bytes_val, bytes_le_bytes.
Qed.

(** The forms the components use: a 4-byte [int]/[uint] and a 2-byte [short]. *)
Lemma s32_le_val z : - 2 ^ 31 <= z < 2 ^ 31 -> s32 (le_val (le_bytes 4 z)) = z.
Proof.
  intros H. rewrite le_val_bytes. change (s32 (u32 z) = z).
  rewrite s32_u32. by apply s32_id.
Qed.

Lemma u32_le_val z : 0 <= z < 2 ^ 32 -> le_val (le_bytes 4 z) = z.
Proof. intros H. rewrite le_val_bytes. by apply Z.mod_small. Qed.

Lemma s16_le_val z : - 2 ^ 15 <= z < 2 ^ 15 -> s16 (le_val (le_bytes 2 z)) = z.
Proof.
  intros H. rewrite le_val_bytes. change (8 * Z.of_nat 2) with 16.
  unfold s16. rewrite (signed_mod 16) by lia. by apply s16_id.
Qed.

Lemma bytes_app l1 l2 : bytes (l1 ++ l2) <-> bytes l1 /\ bytes l2.
Proof. apply Forall_app. Qed.

Lemma bytes_slice off n l : bytes l -> bytes (slice off n l).
Proof. intros H. by apply Forall_take, Forall_drop. Qed.

Lemma bytes_splice off new l : bytes new -> bytes l -> bytes (splice off new l).
Proof.
  intros Hn Hl. unfold splice. apply Forall_app; split; [by apply Forall_take|].
  apply Forall_app; split; [done|by apply Forall_drop].
Qed.

Lemma bytes_replicate n b : is_byte b -> bytes (replicate n b).
Proof. intros H. by apply Forall_replicate. Qed.

Create HintDb bytes.
#[export] Hint Resolve bytes_le_bytes bytes_slice bytes_splice bytes_replicate : bytes.

Arguments le_bytes : simpl never.
Arguments le_val : simpl never.

(** An array of words laid out one after the other *)
Lemma slice_concat_words bl : forall i b,
  bl !! i = Some b -> slice (4 * i) 4 (concat (le_bytes 4 <$> bl)) = le_bytes 4 b.
Proof.
  induction bl as [|b bl IH]; intros i x Hi; [done|]. cbn [fmap list_fmap concat].
  destruct i as [|i].
  - injection Hi as <-. rewrite slice_app_l by len. apply slice_all, length_le_bytes.
  - rewrite slice_app_r by len. rewrite length_le_bytes.
    replace (4 * S i - 4)%nat with (4 * i)%nat by lia. by apply IH.
Qed.

Lemma length_concat_words bl : length (concat (le_bytes 4 <$> bl)) = (4 * length bl)%nat.
Proof.
  induction bl as [|b bl IH]; [done|]. cbn [fmap list_fmap concat length].
  rewrite length_app, length_le_bytes, IH. lia.
Qed.
