(* ===== verification/Params.v ===== *)
(** * Configuration constants

    The numeric parameters of param.h, fs.h, stat.h, fcntl.h, syscall.h,
    memlayout.h and rr.h that the components share. *)
From S2P Require Import Prelude.

(** param.h *)
Definition NPROC : Z := 64.
Definition NOFILE : Z := 16.
Definition NFILE : Z := 100.
Definition NINODE : Z := 50.
Definition NDEV : Z := 10.
Definition ROOTDEV : Z := 1.
Definition MAXARG : Z := 32.
Definition MAXOPBLOCKS : Z := 10.
Definition LOGSIZE : Z := MAXOPBLOCKS * 3.
Definition NBUF : Z := MAXOPBLOCKS * 3.
Definition FSSIZE : Z := 2000.

(** fs.h *)
Definition ROOTINO : Z := 1.
Definition BSIZE : Z := 512.
Definition NDIRECT : Z := 12.
Definition NINDIRECT : Z := BSIZE / 4.
Definition MAXFILE : Z := NDIRECT + NINDIRECT.
Definition sizeof_dinode : Z := 64.
Definition IPB : Z := BSIZE / sizeof_dinode.
Definition BPB : Z := BSIZE * 8.
Definition DIRSIZ : Z := 14.
Definition sizeof_dirent : Z := 16.

(** stat.h *)
Definition T_DIR : Z := 1.
Definition T_FILE : Z := 2.
Definition T_DEV : Z := 3.

(** file.h *)
Definition CONSOLE : Z := 1.

(** fcntl.h *)
Definition O_RDONLY : Z := 0.
Definition O_WRONLY : Z := 1.
Definition O_RDWR : Z := 2.
Definition O_CREATE : Z := 512.

(** memlayout.h, mmu.h *)
Definition PGSIZE : Z := 4096.
Definition KERNBASE : Z := 2147483648.
Definition EXTMEM : Z := 1048576.
Definition PHYSTOP : Z := 234881024.
Definition DEVSPACE : Z := 4261412864.

(** syscall.h *)
Definition SYS_fork : Z := 1.
Definition SYS_exit : Z := 2.
Definition SYS_wait : Z := 3.
Definition SYS_pipe : Z := 4.
Definition SYS_read : Z := 5.
Definition SYS_kill : Z := 6.
Definition SYS_exec : Z := 7.
Definition SYS_fstat : Z := 8.
Definition SYS_chdir : Z := 9.
Definition SYS_dup : Z := 10.
Definition SYS_getpid : Z := 11.
Definition SYS_sbrk : Z := 12.
Definition SYS_sleep : Z := 13.
Definition SYS_uptime : Z := 14.
Definition SYS_open : Z := 15.
Definition SYS_write : Z := 16.
Definition SYS_mknod : Z := 17.
Definition SYS_unlink : Z := 18.
Definition SYS_link : Z := 19.
Definition SYS_mkdir : Z := 20.
Definition SYS_close : Z := 21.
Definition SYS_yield : Z := 22.
Definition SYS_shutdown : Z := 23.
Definition SYS_record_start : Z := 24.
Definition SYS_record_stop : Z := 25.
Definition SYS_replay_start : Z := 26.
Definition SYS_replay_stop : Z := 27.

(** rr.h *)
Definition MAX_SCRS : Z := 1000.
Definition MAX_ARGC : Z := 4.
Definition MAX_RAW_SIZE : Z := 200.
Definition MAX_FILE_SIZE : Z := 60000.
Definition UNITIALIZED_SCR : Z := 0.
Definition NONE_TYPE : Z := 0.
Definition INT_TYPE : Z := 1.
Definition UINT_TYPE : Z := 2.
Definition BYTE_TYPE : Z := 3.
Definition RAW_TYPE : Z := 4.
Definition STAT_TYPE : Z := 5.
