(* ===== verification/CString.v ===== *)
(** * string.c: the kernel's byte and string routines

    A pointer into a character array is the list of the bytes from that
    address to the end of the array; reading past the end of the array is
    undefined behaviour ([None]).  [memmove], whose point is to be right when
    source and destination overlap, is modelled on one flat memory with both
    addresses.  The [stosl]/[stosb] string instructions of [memset] are byte
    stores of the repeated pattern. *)
From S2P Require Import Prelude Words.

Module CString.

(** string.c:memset.  When [dst] and [n] are word aligned the code stores
    [n/4] words, each made of four copies of the low byte of [c]; otherwise it
    stores [n] bytes. *)
Definition stosb (dst : Z) (c : Z) (n : nat) (mem : list Z) : list Z :=
  splice (Z.to_nat dst) (replicate n (u8 c)) mem.

Definition stosl (dst : Z) (w : Z) (n : nat) (mem : list Z) : list Z :=
  splice (Z.to_nat dst) (concat (replicate n (le_bytes 4 w))) mem.

Definition memset (dst c n : Z) (mem : list Z) : list Z :=
  if (dst mod 4 =? 0) && (n mod 4 =? 0) then
    let c := Z.land c 255 in
    let w := Z.lor (Z.lor (Z.lor (Z.shiftl c 24) (Z.shiftl c 16)) (Z.shiftl c 8)) c in
    stosl dst w (Z.to_nat (n / 4)) mem
  else stosb dst c (Z.to_nat n) mem.

(** string.c:memcmp *)
Fixpoint memcmp (s1 s2 : list Z) (n : nat) {struct n} : option Z :=
  match n with
  | O => Some 0
  | S n' =>
      match s1, s2 with
      | c1 :: s1', c2 :: s2' =>
          if c1 =? c2 then memcmp s1' s2' n' else Some (c1 - c2)
      | _, _ => None
      end
  end.

(** string.c:memmove: byte-by-byte copies on the flat memory, backwards when
    the destination starts inside the source. *)
Definition poke (mem : list Z) (a : nat) (b : Z) : option (list Z) :=
  if (a <? length mem)%nat then Some (<[a := b]> mem) else None.

Fixpoint copy_fwd (d s : nat) (n : nat) (mem : list Z) : option (list Z) :=
  match n with
  | O => Some mem
  | S n' => b ← mem !! s; mem' ← poke mem d b; copy_fwd (S d) (S s) n' mem'
  end.

Fixpoint copy_bwd (d s : nat) (n : nat) (mem : list Z) : option (list Z) :=
  match n with
  | O => Some mem
  | S n' =>
      b ← mem !! (s + n')%nat; mem' ← poke mem (d + n')%nat b;
      copy_bwd d s n' mem'
  end.

Definition memmove (dst src : nat) (n : nat) (mem : list Z) : option (list Z) :=
  if (src <? dst)%nat && (dst <? src + n)%nat then copy_bwd dst src n mem
  else copy_fwd dst src n mem.

(** string.c:strncmp *)
Fixpoint strncmp (p q : list Z) (n : nat) {struct n} : option Z :=
  match n with
  | O => Some 0
  | S n' =>
      match p, q with
      | c :: p', d :: q' =>
          if negb (c =? 0) && (c =? d) then strncmp p' q' n' else Some (c - d)
      | _, _ => None
      end
  end.

(** string.c:strncpy: the [n] bytes written to the destination. *)
Fixpoint strncpy (t : list Z) (n : nat) {struct n} : option (list Z) :=
  match n with
  | O => Some []
  | S n' =>
      match t with
      | [] => None
      | c :: t' =>
          if c =? 0 then Some (0 :: replicate n' 0)
          else l ← strncpy t' n'; Some (c :: l)
      end
  end.

(** string.c:safestrcpy: the bytes written to the destination ([n] counts the
    space; nothing is written when it is not positive). *)
Fixpoint safestrcpy_loop (t : list Z) (n : nat) {struct n} : option (list Z) :=
  match n with
  | O => Some [0]
  | S n' =>
      match t with
      | [] => None
      | c :: t' =>
          if c =? 0 then Some [0; 0]
          else l ← safestrcpy_loop t' n'; Some (c :: l)
      end
  end.

Definition safestrcpy (t : list Z) (n : Z) : option (list Z) :=
  if n <=? 0 then Some [] else safestrcpy_loop t (Z.to_nat (n - 1)).

(** string.c:strlen *)
Fixpoint strlen (s : list Z) : option Z :=
  match s with
  | [] => None
  | c :: s' => if c =? 0 then Some 0 else n ← strlen s'; Some (n + 1)
  end.

(** The C string held by an array of at most [n] characters: the bytes before
    the first NUL, at most [n] of them. *)
Fixpoint cstr (n : nat) (s : list Z) : list Z :=
  match n, s with
  | S n', c :: s' => if c =? 0 then [] else c :: cstr n' s'
  | _, _ => []
  end.

(** ** memmove *)

Lemma copy_fwd_lookup n : forall d s mem,
  (d + n <= length mem)%nat -> (s + n <= length mem)%nat ->
  (d <= s \/ s + n <= d)%nat ->
  exists mem', copy_fwd d s n mem = Some mem' /\ length mem' = length mem /\
    forall i, mem' !! i =
      if decide (d <= i < d + n)%nat then mem !! (s + (i - d))%nat else mem !! i.
Proof.
  induction n as [|n IH]; intros d s mem Hd Hs Hov; simpl.
  - exists mem. split; [done|]. split; [done|]. intros i. case_decide; [lia|done].
  - destruct (lookup_lt_is_Some_2 mem s) as [b Hb]; [lia|]. rewrite Hb. simpl.
    unfold poke. destruct (Nat.ltb_spec d (length mem)); [|lia]. simpl.
    destruct (IH (S d) (S s) (<[d:=b]> mem)) as (mem' & E & Hl & Hi); [len|len|lia|].
    exists mem'. split; [done|]. split; [revert Hl; len|]. intros i. rewrite Hi.
    destruct (decide (i = d)) as [->|Hne].
    + rewrite decide_False by lia. rewrite decide_True by lia.
      rewrite list_lookup_insert_eq by lia. by rewrite Nat.sub_diag, Nat.add_0_r.
    + repeat case_decide; try lia.
      * rewrite list_lookup_insert_ne by lia. f_equal. lia.
      * by rewrite list_lookup_insert_ne by lia.
Qed.

Lemma copy_bwd_lookup n : forall d s mem,
  (d + n <= length mem)%nat -> (s + n <= length mem)%nat -> (s < d)%nat ->
  exists mem', copy_bwd d s n mem = Some mem' /\ length mem' = length mem /\
    forall i, mem' !! i =
      if decide (d <= i < d + n)%nat then mem !! (s + (i - d))%nat else mem !! i.
Proof.
  induction n as [|n IH]; intros d s mem Hd Hs Hov; simpl.
  - exists mem. split; [done|]. split; [done|]. intros i. case_decide; [lia|done].
  - destruct (lookup_lt_is_Some_2 mem (s + n)%nat) as [b Hb]; [lia|].
    rewrite Hb. simpl. unfold poke.
    destruct (Nat.ltb_spec (d + n) (length mem)); [|lia]. simpl.
    destruct (IH d s (<[(d + n)%nat:=b]> mem)) as (mem' & E & Hl & Hi); [len|len|lia|].
    exists mem'. split; [done|]. split; [revert Hl; len|]. intros i. rewrite Hi.
    destruct (decide (i = (d + n)%nat)) as [->|Hne].
    + rewrite decide_False by lia. rewrite decide_True by lia.
      rewrite list_lookup_insert_eq by lia. rewrite <- Hb. f_equal. lia.
    + repeat case_decide; try lia; by rewrite list_lookup_insert_ne by lia.
Qed.

Lemma splice_lookup {A} off (new l : list A) i :
  (off + length new <= length l)%nat ->
  splice off new l !! i =
    if decide (off <= i < off + length new)%nat then new !! (i - off)%nat else l !! i.
Proof.
  intros H. unfold splice. case_decide.
  - rewrite lookup_app_r by (len). rewrite lookup_app_l by len. f_equal. len.
  - destruct (decide (i < off)%nat).
    + rewrite lookup_app_l by len. by rewrite lookup_take_lt.
    + rewrite lookup_app_r by len. rewrite lookup_app_r by len.
      rewrite lookup_drop. f_equal. len.
Qed.

Lemma slice_lookup {A} off n (l : list A) i :
  (i < n)%nat -> slice off n l !! i = l !! (off + i)%nat.
Proof. intros H. unfold slice. by rewrite lookup_take_lt, lookup_drop. Qed.

(** [memmove] copies the [n] source bytes, as they were before the call, to
    the destination, whatever the overlap, and changes nothing else. *)
Theorem memmove_correct dst src n mem :
  (src + n <= length mem)%nat -> (dst + n <= length mem)%nat ->
  memmove dst src n mem = Some (splice dst (slice src n mem) mem).
Proof.
  intros Hs Hd.
  assert (exists mem', memmove dst src n mem = Some mem' /\ length mem' = length mem /\
    forall i, mem' !! i = if decide (dst <= i < dst + n)%nat
      then mem !! (src + (i - dst))%nat else mem !! i) as (mem' & -> & Hl & Hi).
  { unfold memmove.
    destruct ((src <? dst)%nat && (dst <? src + n)%nat) eqn:E.
    - apply andb_true_iff in E as [E1 E2]. apply Nat.ltb_lt in E1.
      by apply copy_bwd_lookup.
    - apply copy_fwd_lookup; try lia.
      apply andb_false_iff in E as [E|E]; apply Nat.ltb_ge in E; lia. }
  f_equal. apply list_eq. intros i.
  rewrite Hi, splice_lookup by len.
  replace (length (slice src n mem)) with n by len.
  case_decide; [|done]. by rewrite slice_lookup by lia.
Qed.

(** ** Strings *)

Lemma strlen_cstr s n : strlen s = Some n -> cstr (length s) s = take (Z.to_nat n) s /\ 0 <= n < zlen s.
Proof.
  unfold zlen. revert n. induction s as [|c s IH]; intros n; simpl; [done|].
  destruct (c =? 0) eqn:E.
  - intros [= <-]. split; [done|lia].
  - destruct (strlen s) as [k|]; simpl; [|done]. intros [= <-].
    destruct (IH k eq_refl) as [H1 H2]. split; [|lia].
    replace (Z.to_nat (k + 1)) with (S (Z.to_nat k)) by lia. simpl. by rewrite H1.
Qed.

Lemma strncmp_cstr n p q :
  (n <= length p)%nat -> (n <= length q)%nat ->
  exists r, strncmp p q n = Some r /\ (r = 0 <-> cstr n p = cstr n q).
Proof.
  revert p q. induction n as [|n IH]; intros p q Hp Hq; simpl; [by exists 0|].
  destruct p as [|c p]; [simpl in Hp; lia|].
  destruct q as [|d q]; [simpl in Hq; lia|]. simpl in *.
  destruct (Z.eqb_spec c 0) as [->|Hc]; simpl.
  - exists (0 - d). split; [done|]. destruct (Z.eqb_spec d 0); [by subst|].
    split; [lia|done].
  - destruct (Z.eqb_spec c d) as [<-|Hcd].
    + destruct (IH p q) as (r & E & H); [lia|lia|]. exists r. split; [done|].
      destruct (Z.eqb_spec c 0); [lia|]. rewrite H. split; [by intros ->|congruence].
    + exists (c - d). split; [done|]. destruct (Z.eqb_spec d 0).
      * split; [lia|done].
      * split; [lia|congruence].
Qed.

Lemma strncpy_cstr n t l :
  strncpy t n = Some l -> length l = n /\ cstr n l = cstr n t.
Proof.
  revert t l. induction n as [|n IH]; intros t l; simpl.
  - by intros [= <-].
  - destruct t as [|c t]; [done|]. destruct (c =? 0) eqn:E.
    + intros [= <-]. simpl. split; [len|done].
    + destruct (strncpy t n) as [l'|] eqn:E'; simpl; [|done]. intros [= <-].
      destruct (IH t l' E') as [H1 H2]. simpl. rewrite E, H1, H2. done.
Qed.

(** A name stored by [strncpy] compares equal, by [strncmp], exactly to the
    names that have the same first [n] characters. *)
Theorem strncpy_strncmp n t l q :
  strncpy t n = Some l -> (n <= length q)%nat ->
  exists r, strncmp q l n = Some r /\ (r = 0 <-> cstr n q = cstr n t).
Proof.
  intros Hc Hq. destruct (strncpy_cstr n t l Hc) as [Hl Hs].
  destruct (strncmp_cstr n q l) as (r & E & H); [lia|lia|].
  exists r. by rewrite E, H, Hs.
Qed.

(** Overlapping regions, copied in either direction *)
Lemma memmove_correct_witness :
  memmove 1 0 3 [10; 11; 12; 13; 14] = Some [10; 10; 11; 12; 14] /\
  memmove 0 1 3 [10; 11; 12; 13; 14] = Some [11; 12; 13; 13; 14].
Proof.
  split.
  - apply (memmove_correct 1 0 3 [10; 11; 12; 13; 14]); simpl; lia.
  - apply (memmove_correct 0 1 3 [10; 11; 12; 13; 14]); simpl; lia.
Defined.

(** A two-character name in a four-byte field against a longer name *)
Lemma strncpy_strncmp_witness :
  exists r, strncmp [97; 98; 99; 0] [97; 98; 0; 0] 4 = Some r /\
    (r = 0 <-> cstr 4 [97; 98; 99; 0] = cstr 4 [97; 98; 0]).
Proof. apply (strncpy_strncmp 4 [97; 98; 0] [97; 98; 0; 0]); [reflexivity|simpl; lia]. Defined.

End CString.
