(* ===== verification/Spinlock.v ===== *)
(** * Spin locks: spinlock.c, and mycpu and cpuid of proc.c

    The machine is its CPUs, each with its interrupt flag and its part of
    [struct cpu], and the spin locks.  Every routine runs on a CPU [me].  An
    acquire that has to spin leaves the result [Blocked]. *)
From S2P Require Import Prelude.

Module Spinlock.

(** mmu.h:FL_IF *)
Definition FL_IF : Z := 512.

(** proc.h:struct cpu; [c_if] is the interrupt flag of the processor itself,
    and [c_scheduler] what the saved context of the scheduler thread holds: the
    index in the process table it has reached, or [None] when it holds no lock. *)
Record cpu := mkCpu {
  c_apicid : Z;
  c_ncli : Z;
  c_intena : Z;
  c_if : bool;
  c_proc : option nat;
  c_scheduler : option nat
}.

(** spinlock.h:struct spinlock *)
Record spinlock := mkLock { locked : Z; lk_cpu : option nat }.

Record mach := mkMach { m_cpus : list cpu; m_locks : gmap Z spinlock }.

Definition set_ncli (n : Z) (c : cpu) : cpu :=
  mkCpu (c_apicid c) n (c_intena c) (c_if c) (c_proc c) (c_scheduler c).
Definition set_intena (x : Z) (c : cpu) : cpu :=
  mkCpu (c_apicid c) (c_ncli c) x (c_if c) (c_proc c) (c_scheduler c).
Definition set_if (b : bool) (c : cpu) : cpu :=
  mkCpu (c_apicid c) (c_ncli c) (c_intena c) b (c_proc c) (c_scheduler c).
Definition set_c_proc (p : option nat) (c : cpu) : cpu :=
  mkCpu (c_apicid c) (c_ncli c) (c_intena c) (c_if c) p (c_scheduler c).
Definition set_c_scheduler (i : option nat) (c : cpu) : cpu :=
  mkCpu (c_apicid c) (c_ncli c) (c_intena c) (c_if c) (c_proc c) i.

Definition set_cpus (f : list cpu -> list cpu) (s : mach) : mach := mkMach (f (m_cpus s)) (m_locks s).
Definition set_locks (f : gmap Z spinlock -> gmap Z spinlock) (s : mach) : mach :=
  mkMach (m_cpus s) (f (m_locks s)).

Definition cpu_at (i : nat) : M mach cpu :=
  cs <- gets m_cpus ;; from_option_undef (cs !! i).
Definition upd_cpu (i : nat) (f : cpu -> cpu) : M mach unit :=
  c <- cpu_at i ;; modify (set_cpus (fun cs => <[i := f c]> cs)).
Definition lock_at (l : Z) : M mach spinlock :=
  ls <- gets m_locks ;; from_option_undef (ls !! l).
Definition upd_lock (l : Z) (f : spinlock -> spinlock) : M mach unit :=
  lk <- lock_at l ;; modify (set_locks (fun ls => <[l := f lk]> ls)).

(** ** The processor *)

Definition readeflags (me : nat) : M mach Z := c <- cpu_at me ;; ret (if c_if c then FL_IF else 0).
Definition cli (me : nat) : M mach unit := upd_cpu me (set_if false).
Definition sti (me : nat) : M mach unit := upd_cpu me (set_if true).

(** proc.c:mycpu: the entry of [cpus] with the APIC id of this CPU *)
Fixpoint find_apic (cs : list cpu) (apicid : Z) : option nat :=
  match cs with
  | [] => None
  | c :: cs' => if c_apicid c =? apicid then Some O else S <$> find_apic cs' apicid
  end.

Definition mycpu (me : nat) : M mach nat :=
  e <- readeflags me ;;
  if negb (Z.land e FL_IF =? 0) then panic "mycpu called with interrupts enabled"
  else
    hw <- cpu_at me ;;
    cs <- gets m_cpus ;;
    match find_apic cs (c_apicid hw) with
    | Some i => ret i
    | None => panic "unknown apicid"
    end.

(** proc.c:cpuid *)
Definition cpuid (me : nat) : M mach Z := i <- mycpu me ;; ret (Z.of_nat i).

(** ** spinlock.c *)

Definition pushcli (me : nat) : M mach unit :=
  eflags <- readeflags me ;;
  cli me ;;
  i <- mycpu me ;;
  c <- cpu_at i ;;
  whenM (c_ncli c =? 0) (j <- mycpu me ;; upd_cpu j (set_intena (Z.land eflags FL_IF))) ;;
  j <- mycpu me ;;
  upd_cpu j (fun c => set_ncli (c_ncli c + 1) c).

Definition popcli (me : nat) : M mach unit :=
  eflags <- readeflags me ;;
  if negb (Z.land eflags FL_IF =? 0) then panic "popcli - interruptible"
  else
    i <- mycpu me ;;
    upd_cpu i (fun c => set_ncli (c_ncli c - 1) c) ;;
    c <- cpu_at i ;;
    if c_ncli c <? 0 then panic "popcli"
    else
      j <- mycpu me ;;
      c <- cpu_at j ;;
      whenM ((c_ncli c =? 0) && negb (c_intena c =? 0)) (sti me).

Definition initlock (l : Z) : M mach unit :=
  modify (set_locks (fun ls => <[l := mkLock 0 None]> ls)).

Definition holding (me : nat) (l : Z) : M mach bool :=
  pushcli me ;;
  lk <- lock_at l ;;
  i <- mycpu me ;;
  popcli me ;;
  ret (negb (locked lk =? 0) && bool_decide (lk_cpu lk = Some i)).

Definition acquire (me : nat) (l : Z) : M mach unit :=
  pushcli me ;;
  h <- holding me l ;;
  if h : bool then panic "acquire"
  else
    lk <- lock_at l ;;
    if negb (locked lk =? 0) then sleep_forever
    else
      upd_lock l (fun lk => mkLock 1 (lk_cpu lk)) ;;
      i <- mycpu me ;;
      upd_lock l (fun lk => mkLock (locked lk) (Some i)).

Definition release (me : nat) (l : Z) : M mach unit :=
  h <- holding me l ;;
  if negb h then panic "release"
  else
    upd_lock l (fun lk => mkLock (locked lk) None) ;;
    upd_lock l (fun lk => mkLock 0 (lk_cpu lk)) ;;
    popcli me.

(** proc.c:myproc *)
Definition myproc (me : nat) : M mach (option nat) :=
  pushcli me ;;
  i <- mycpu me ;;
  c <- cpu_at i ;;
  popcli me ;;
  ret (c_proc c).

(** ** What each routine does *)

Definition cpus_ok (s : mach) : Prop := NoDup (c_apicid <$> m_cpus s).

(** A CPU in good order: interrupts are off while the nesting depth is positive. *)
Definition cpu_ok (c : cpu) : Prop := 0 <= c_ncli c /\ (0 < c_ncli c -> c_if c = false).

(** The effect of pushcli and popcli on their CPU *)
Definition pushed (c : cpu) : cpu :=
  mkCpu (c_apicid c) (c_ncli c + 1)
    (if c_ncli c =? 0 then (if c_if c then FL_IF else 0) else c_intena c) false (c_proc c) (c_scheduler c).
Definition popped (c : cpu) : cpu :=
  mkCpu (c_apicid c) (c_ncli c - 1) (c_intena c) ((c_ncli c =? 1) && negb (c_intena c =? 0))
    (c_proc c) (c_scheduler c).

Definition put_cpu (i : nat) (c : cpu) (s : mach) : mach := set_cpus (fun cs => <[i := c]> cs) s.
Definition put_lock (l : Z) (lk : spinlock) (s : mach) : mach := set_locks (fun ls => <[l := lk]> ls) s.

Lemma cpu_at_run i s c : m_cpus s !! i = Some c -> cpu_at i s = Ok c s.
Proof. intros H. unfold cpu_at. by rewrite gets_bind, H. Qed.

Lemma upd_cpu_run i f s c : m_cpus s !! i = Some c -> upd_cpu i f s = Ok tt (put_cpu i (f c) s).
Proof. intros H. unfold upd_cpu. by rewrite (bind_run _ _ _ _ _ (cpu_at_run _ _ _ H)). Qed.

Lemma lock_at_run l s lk : m_locks s !! l = Some lk -> lock_at l s = Ok lk s.
Proof. intros H. unfold lock_at. by rewrite gets_bind, H. Qed.

Lemma upd_lock_run l f s lk : m_locks s !! l = Some lk -> upd_lock l f s = Ok tt (put_lock l (f lk) s).
Proof. intros H. unfold upd_lock. by rewrite (bind_run _ _ _ _ _ (lock_at_run _ _ _ H)). Qed.

Lemma put_cpu_lookup i c s d : m_cpus s !! i = Some d -> m_cpus (put_cpu i c s) !! i = Some c.
Proof. intros H. apply list_lookup_insert_eq. by eapply lookup_lt_Some. Qed.

Lemma put_cpu_ne i j c s : i <> j -> m_cpus (put_cpu i c s) !! j = m_cpus s !! j.
Proof. intros H. by apply list_lookup_insert_ne. Qed.

Lemma put_cpu_put i c d s : put_cpu i c (put_cpu i d s) = put_cpu i c s.
Proof. unfold put_cpu, set_cpus. cbn. by rewrite list_insert_insert_eq. Qed.

Lemma put_cpu_id i c s : m_cpus s !! i = Some c -> put_cpu i c s = s.
Proof. intros H. unfold put_cpu, set_cpus. rewrite list_insert_id by done. by destruct s. Qed.

Lemma cpus_ok_put i c d s : cpus_ok s -> m_cpus s !! i = Some d -> c_apicid c = c_apicid d ->
  cpus_ok (put_cpu i c s).
Proof.
  unfold cpus_ok. intros H Hi E. cbn. rewrite list_fmap_insert, list_insert_id; [done|].
  by rewrite list_lookup_fmap, Hi, E.
Qed.

Lemma find_apic_spec cs i c : NoDup (c_apicid <$> cs) -> cs !! i = Some c ->
  find_apic cs (c_apicid c) = Some i.
Proof.
  revert i. induction cs as [|d cs IH]; intros i Hnd Hi; [done|]. cbn in Hnd |- *.
  apply NoDup_cons in Hnd as [Hd Hnd]. destruct i as [|i].
  - injection Hi as ->. by rewrite Z.eqb_refl.
  - cbn in Hi. rewrite (proj2 (Z.eqb_neq _ _)); [by rewrite (IH i)|].
    intros E. apply Hd. rewrite E. apply list_elem_of_fmap. exists c. split; [done|].
    by eapply list_elem_of_lookup_2.
Qed.

Lemma readeflags_run me s c : m_cpus s !! me = Some c -> readeflags me s = Ok (if c_if c then FL_IF else 0) s.
Proof. intros H. unfold readeflags. by rewrite (bind_run _ _ _ _ _ (cpu_at_run _ _ _ H)). Qed.

Lemma mycpu_run me s c : cpus_ok s -> m_cpus s !! me = Some c -> c_if c = false -> mycpu me s = Ok me s.
Proof.
  intros Hok Hme Hif. unfold mycpu. rewrite (bind_run _ _ _ _ _ (readeflags_run _ _ _ Hme)), Hif.
  change (Z.land 0 FL_IF =? 0) with true. cbn [negb].
  rewrite (bind_run _ _ _ _ _ (cpu_at_run _ _ _ Hme)), gets_bind.
  by rewrite (find_apic_spec _ me) by done.
Qed.

Lemma pushcli_run me s c : cpus_ok s -> m_cpus s !! me = Some c ->
  pushcli me s = Ok tt (put_cpu me (pushed c) s).
Proof.
  intros Hok Hme. unfold pushcli, cli. rewrite (bind_run _ _ _ _ _ (readeflags_run _ _ _ Hme)).
  rewrite (bind_run _ _ _ _ _ (upd_cpu_run _ (set_if false) _ _ Hme)). set (s1 := put_cpu me _ s).
  assert (H1 : m_cpus s1 !! me = Some (set_if false c)) by (by eapply put_cpu_lookup).
  assert (Hok1 : cpus_ok s1) by (by eapply cpus_ok_put).
  rewrite (bind_run _ _ _ _ _ (mycpu_run _ _ _ Hok1 H1 eq_refl)), (bind_run _ _ _ _ _ (cpu_at_run _ _ _ H1)).
  unfold pushed. cbn [set_if c_ncli]. destruct (c_ncli c =? 0) eqn:E; cbn [whenM].
  - rewrite bind_assoc, (bind_run _ _ _ _ _ (mycpu_run _ _ _ Hok1 H1 eq_refl)).
    rewrite (bind_run _ _ _ _ _ (upd_cpu_run _ _ _ _ H1)). unfold s1. rewrite put_cpu_put.
    set (c2 := set_intena _ _). set (s2 := put_cpu me c2 s).
    assert (H2 : m_cpus s2 !! me = Some c2) by (by eapply put_cpu_lookup).
    assert (Hok2 : cpus_ok s2) by (by eapply cpus_ok_put).
    rewrite (bind_run _ _ _ _ _ (mycpu_run _ _ _ Hok2 H2 eq_refl)), (upd_cpu_run _ _ _ _ H2).
    unfold s2. rewrite put_cpu_put. unfold c2. by destruct (c_if c).
  - rewrite bind_ret_l, (bind_run _ _ _ _ _ (mycpu_run _ _ _ Hok1 H1 eq_refl)), (upd_cpu_run _ _ _ _ H1).
    unfold s1. by rewrite put_cpu_put.
Qed.

Lemma popcli_run me s c : cpus_ok s -> m_cpus s !! me = Some c -> c_if c = false -> 1 <= c_ncli c ->
  popcli me s = Ok tt (put_cpu me (popped c) s).
Proof.
  intros Hok Hme Hif Hn. unfold popcli. rewrite (bind_run _ _ _ _ _ (readeflags_run _ _ _ Hme)), Hif.
  change (Z.land 0 FL_IF =? 0) with true. cbn [negb].
  rewrite (bind_run _ _ _ _ _ (mycpu_run _ _ _ Hok Hme Hif)).
  rewrite (bind_run _ _ _ _ _ (upd_cpu_run _ _ _ _ Hme)). set (c1 := set_ncli _ c). set (s1 := put_cpu me c1 s).
  assert (H1 : m_cpus s1 !! me = Some c1) by (by eapply put_cpu_lookup).
  assert (Hok1 : cpus_ok s1) by (by eapply cpus_ok_put).
  rewrite (bind_run _ _ _ _ _ (cpu_at_run _ _ _ H1)). cbn [c1 set_ncli c_ncli].
  rewrite (proj2 (Z.ltb_ge _ _)) by lia.
  rewrite (bind_run _ _ _ _ _ (mycpu_run _ _ _ Hok1 H1 Hif)), (bind_run _ _ _ _ _ (cpu_at_run _ _ _ H1)).
  cbn [c1 set_ncli c_ncli c_intena]. unfold popped.
  replace (c_ncli c - 1 =? 0) with (c_ncli c =? 1) by (apply Bool.eq_iff_eq_true; rewrite !Z.eqb_eq; lia).
  destruct ((c_ncli c =? 1) && negb (c_intena c =? 0)); cbn [whenM].
  - unfold sti. rewrite (upd_cpu_run _ _ _ _ H1). unfold s1. by rewrite put_cpu_put.
  - unfold ret, s1, c1, set_ncli. by rewrite Hif.
Qed.

(** What a pushcli and the popcli that undoes it leave of a CPU *)
Definition touched (c : cpu) : cpu :=
  if c_ncli c =? 0 then set_intena (if c_if c then FL_IF else 0) c else c.

Lemma popped_pushed c : cpu_ok c -> popped (pushed c) = touched c.
Proof.
  intros [Hn Hif]. unfold popped, pushed, touched. cbn [c_apicid c_ncli c_intena c_if c_proc c_scheduler].
  replace (c_ncli c + 1 =? 1) with (c_ncli c =? 0) by (apply Bool.eq_iff_eq_true; rewrite !Z.eqb_eq; lia).
  destruct (Z.eqb_spec (c_ncli c) 0) as [E|E]; destruct c as [a n i f p k]; cbn in *.
  - unfold set_intena. cbn. f_equal; [lia|]. by destruct f.
  - f_equal; [lia|]. symmetry. apply Hif. lia.
Qed.

Lemma touched_inner c : 1 <= c_ncli c -> touched c = c.
Proof. intros H. unfold touched. by rewrite (proj2 (Z.eqb_neq _ _)) by lia. Qed.

Definition held_by (me : nat) (lk : spinlock) : bool :=
  negb (locked lk =? 0) && bool_decide (lk_cpu lk = Some me).

Lemma pushed_ok c : cpu_ok c -> cpu_ok (pushed c).
Proof. intros [Hn _]. split; cbn; [lia|done]. Qed.

Lemma holding_gen me l s c lk : cpus_ok s -> m_cpus s !! me = Some c -> cpu_ok c ->
  m_locks s !! l = Some lk -> holding me l s = Ok (held_by me lk) (put_cpu me (touched c) s).
Proof.
  intros Hok Hme Hc Hl. unfold holding. rewrite (bind_run _ _ _ _ _ (pushcli_run _ _ _ Hok Hme)).
  set (s1 := put_cpu me _ s). assert (H1 : m_cpus s1 !! me = Some (pushed c)) by (by eapply put_cpu_lookup).
  assert (Hok1 : cpus_ok s1) by (by eapply cpus_ok_put).
  rewrite (bind_run _ _ _ _ _ (lock_at_run l s1 lk Hl)).
  rewrite (bind_run _ _ _ _ _ (mycpu_run _ _ _ Hok1 H1 eq_refl)).
  rewrite (bind_run _ _ _ _ _ (popcli_run _ _ _ Hok1 H1 eq_refl ltac:(destruct Hc; cbn; lia))).
  unfold s1. by rewrite put_cpu_put, popped_pushed.
Qed.

Lemma holding_run me l s c lk : cpus_ok s -> m_cpus s !! me = Some c -> c_if c = false -> 1 <= c_ncli c ->
  m_locks s !! l = Some lk -> holding me l s = Ok (held_by me lk) s.
Proof.
  intros Hok Hme Hif Hn Hl. erewrite holding_gen; [|done|done| |done].
  - by rewrite touched_inner, put_cpu_id.
  - split; [lia|done].
Qed.

Lemma myproc_run me s c : cpus_ok s -> m_cpus s !! me = Some c -> cpu_ok c ->
  myproc me s = Ok (c_proc c) (put_cpu me (touched c) s).
Proof.
  intros Hok Hme Hc. unfold myproc. rewrite (bind_run _ _ _ _ _ (pushcli_run _ _ _ Hok Hme)).
  set (s1 := put_cpu me _ s). assert (H1 : m_cpus s1 !! me = Some (pushed c)) by (by eapply put_cpu_lookup).
  assert (Hok1 : cpus_ok s1) by (by eapply cpus_ok_put).
  rewrite (bind_run _ _ _ _ _ (mycpu_run _ _ _ Hok1 H1 eq_refl)), (bind_run _ _ _ _ _ (cpu_at_run _ _ _ H1)).
  rewrite (bind_run _ _ _ _ _ (popcli_run _ _ _ Hok1 H1 eq_refl ltac:(destruct Hc; cbn; lia))).
  unfold s1. by rewrite put_cpu_put, popped_pushed.
Qed.

(** acquire: it panics when this CPU holds the lock, spins while another does,
    and otherwise takes it with interrupts off. *)
Lemma acquire_run me l s c lk : cpus_ok s -> m_cpus s !! me = Some c -> cpu_ok c ->
  m_locks s !! l = Some lk ->
  acquire me l s =
    if held_by me lk then Panic "acquire"
    else if negb (locked lk =? 0) then Blocked (put_cpu me (pushed c) s)
    else Ok tt (put_lock l (mkLock 1 (Some me)) (put_cpu me (pushed c) s)).
Proof.
  intros Hok Hme [Hn Hci] Hl. unfold acquire. rewrite (bind_run _ _ _ _ _ (pushcli_run _ _ _ Hok Hme)).
  set (s1 := put_cpu me _ s). assert (H1 : m_cpus s1 !! me = Some (pushed c)) by (by eapply put_cpu_lookup).
  assert (Hok1 : cpus_ok s1) by (by eapply cpus_ok_put).
  rewrite (bind_run _ _ _ _ _ (holding_run me l s1 (pushed c) lk Hok1 H1 eq_refl ltac:(cbn; lia) Hl)).
  destruct (held_by me lk); [done|]. rewrite (bind_run _ _ _ _ _ (lock_at_run l s1 lk Hl)).
  destruct (locked lk =? 0); [|done]. cbn [negb].
  rewrite (bind_run _ _ _ _ _ (upd_lock_run l _ s1 lk Hl)).
  rewrite (bind_run _ _ _ me (put_lock l (mkLock 1 (lk_cpu lk)) s1)) by (by eapply mycpu_run).
  erewrite upd_lock_run by apply lookup_insert_eq. unfold put_lock, set_locks. cbn.
  by rewrite insert_insert_eq.
Qed.

(** release: it panics unless this CPU holds the lock. *)
Lemma release_run me l s c lk : cpus_ok s -> m_cpus s !! me = Some c -> c_if c = false -> 1 <= c_ncli c ->
  m_locks s !! l = Some lk ->
  release me l s =
    if held_by me lk then Ok tt (put_lock l (mkLock 0 None) (put_cpu me (popped c) s)) else Panic "release".
Proof.
  intros Hok Hme Hif Hn Hl. unfold release.
  rewrite (bind_run _ _ _ _ _ (holding_run me l s c lk Hok Hme Hif Hn Hl)).
  destruct (held_by me lk); [|done]. cbn [negb].
  rewrite (bind_run _ _ _ _ _ (upd_lock_run l _ s lk Hl)).
  erewrite bind_run; [|by apply upd_lock_run, lookup_insert_eq]. unfold put_lock, set_locks. cbn.
  rewrite insert_insert_eq. by erewrite popcli_run by done.
Qed.

(** A popcli or a release that returns was inside a critical section. *)
Lemma popcli_ok_inv me s c s' : cpus_ok s -> m_cpus s !! me = Some c -> popcli me s = Ok tt s' ->
  c_if c = false /\ 1 <= c_ncli c.
Proof.
  intros Hok Hme. unfold popcli. rewrite (bind_run _ _ _ _ _ (readeflags_run _ _ _ Hme)).
  destruct (c_if c) eqn:Hif; [done|]. change (Z.land 0 FL_IF =? 0) with true. cbn [negb].
  rewrite (bind_run _ _ _ _ _ (mycpu_run _ _ _ Hok Hme Hif)), (bind_run _ _ _ _ _ (upd_cpu_run _ _ _ _ Hme)).
  erewrite bind_run; [|by eapply cpu_at_run, put_cpu_lookup]. cbn [set_ncli c_ncli].
  destruct (Z.ltb_spec (c_ncli c - 1) 0); [done|]. intros _. split; [done|lia].
Qed.

Lemma release_ok_inv me l s c lk s' : cpus_ok s -> m_cpus s !! me = Some c -> cpu_ok c ->
  m_locks s !! l = Some lk -> release me l s = Ok tt s' ->
  held_by me lk = true /\ c_if c = false /\ 1 <= c_ncli c.
Proof.
  intros Hok Hme Hc Hl. unfold release.
  rewrite (bind_run _ _ _ _ _ (holding_gen me l s c lk Hok Hme Hc Hl)).
  destruct (held_by me lk) eqn:Hh; [|done]. cbn [negb]. set (s1 := put_cpu me _ s).
  rewrite (bind_run _ _ _ _ _ (upd_lock_run l _ s1 lk Hl)).
  erewrite bind_run; [|by apply upd_lock_run, lookup_insert_eq]. intros Hp.
  assert (H1 : m_cpus s1 !! me = Some (touched c)) by (by eapply put_cpu_lookup).
  apply (popcli_ok_inv me _ (touched c)) in Hp as [H2 H3].
  - split; [done|]. unfold touched in *. by destruct (c_ncli c =? 0).
  - eapply (cpus_ok_put me _ c s Hok Hme). unfold touched. by destruct (c_ncli c =? 0).
  - done.
Qed.

(** ** Executions of several CPUs

    The counter [pc] holds how many pushcli of a CPU have not been undone by
    a popcli yet: a popcli matches a pushcli, never the one of an acquire. *)
Inductive ev := Acquire (l : Z) | Release (l : Z) | Pushcli | Popcli.

Definition do_ev (me : nat) (e : ev) : M mach unit :=
  match e with
  | Acquire l => acquire me l
  | Release l => release me l
  | Pushcli => pushcli me
  | Popcli => popcli me
  end.

Definition count (e : ev) : Z := match e with Pushcli => 1 | Popcli => -1 | _ => 0 end.
Definition bump (me : nat) (e : ev) (pc : nat -> Z) : nat -> Z :=
  fun c => if decide (c = me) then pc c + count e else pc c.

Inductive exec : mach -> (nat -> Z) -> list (nat * ev) -> mach -> (nat -> Z) -> Prop :=
| exec_nil s pc : exec s pc [] s pc
| exec_cons s pc me e tr s1 s' pc' :
    do_ev me e s = Ok tt s1 -> (e = Popcli -> 0 < pc me) ->
    exec s1 (bump me e pc) tr s' pc' -> exec s pc ((me, e) :: tr) s' pc'.

(** The specification: who owns each lock.  A lock is acquired when nobody
    owns it, and released by its owner. *)
Definition own (o : gmap Z nat) (x : nat * ev) : option (gmap Z nat) :=
  match x with
  | (me, Acquire l) => match o !! l with None => Some (<[l := me]> o) | Some _ => None end
  | (me, Release l) => if bool_decide (o !! l = Some me) then Some (delete l o) else None
  | _ => Some o
  end.

Definition owns (c : nat) (o : gmap Z nat) : gmap Z nat := filter (fun kv => kv.2 = c) o.

(** The simulation between the machine and the specification *)
Record sim (s : mach) (pc : nat -> Z) (o : gmap Z nat) : Prop := {
  sim_cpus : cpus_ok s;
  sim_cpu i c : m_cpus s !! i = Some c ->
    cpu_ok c /\ 0 <= pc i /\ c_ncli c = pc i + Z.of_nat (size (owns i o));
  sim_lock l lk : m_locks s !! l = Some lk ->
    lk = match o !! l with Some c => mkLock 1 (Some c) | None => mkLock 0 None end;
  sim_owner l c : o !! l = Some c -> is_Some (m_cpus s !! c) /\ is_Some (m_locks s !! l)
}.

Lemma owns_acquire c me l o : o !! l = None ->
  size (owns c (<[l := me]> o)) = (size (owns c o) + if decide (c = me) then 1 else 0)%nat.
Proof.
  intros Hl. unfold owns. destruct (decide (c = me)) as [->|Hne].
  - rewrite map_filter_insert_True by done. rewrite map_size_insert_None; [lia|].
    apply map_lookup_filter_None. by left.
  - rewrite map_filter_insert_False by done. rewrite delete_id by done. lia.
Qed.

Lemma owns_release c me l o : o !! l = Some me ->
  (size (owns c o) = size (owns c (delete l o)) + if decide (c = me) then 1 else 0)%nat.
Proof.
  intros Hl. rewrite <- (insert_delete_id o l me Hl) at 1. apply owns_acquire, lookup_delete_eq.
Qed.

(** A routine that changes its CPU to [c'] and, possibly, one lock *)
Lemma sim_put s pc o me e c c' o' :
  sim s pc o -> m_cpus s !! me = Some c -> c_apicid c' = c_apicid c -> cpu_ok c' ->
  0 <= bump me e pc me -> c_ncli c' = bump me e pc me + Z.of_nat (size (owns me o')) ->
  (forall i, i <> me -> size (owns i o') = size (owns i o)) ->
  (forall l i, o' !! l = Some i -> i = me \/ o !! l = Some i) ->
  forall ls, (forall l lk, ls !! l = Some lk ->
    lk = match o' !! l with Some c => mkLock 1 (Some c) | None => mkLock 0 None end) ->
  (forall l i, o' !! l = Some i -> is_Some (ls !! l)) ->
  sim (mkMach (<[me := c']> (m_cpus s)) ls) (bump me e pc) o'.
Proof.
  intros [Hok Hcpu _ Hown] Hme Ha Hc' Hb Hn Hne Ho' ls Hls Hls'.
  assert (Hlt := lookup_lt_Some _ _ _ Hme). split; cbn.
  - by apply (cpus_ok_put me c' c s).
  - intros i d Hi. destruct (decide (i = me)) as [->|Hi'].
    + rewrite list_lookup_insert_eq in Hi by done. by injection Hi as <-.
    + rewrite list_lookup_insert_ne in Hi by done. unfold bump. rewrite decide_False by done.
      rewrite Hne by done. by apply Hcpu.
  - done.
  - intros l i Hi. split; [|by eapply Hls']. destruct (decide (i = me)) as [->|Hi'].
    + rewrite list_lookup_insert_eq by done. done.
    + rewrite list_lookup_insert_ne by done. destruct (Ho' l i Hi) as [?|H]; [done|]. by apply (Hown l).
Qed.

Lemma popped_ok c : c_if c = false -> 1 <= c_ncli c -> cpu_ok (popped c).
Proof.
  intros Hif Hn. split; cbn; [lia|]. intros H. by rewrite (proj2 (Z.eqb_neq _ _)) by lia.
Qed.

Lemma bump_me me e pc : bump me e pc me = pc me + count e.
Proof. unfold bump. by rewrite decide_True. Qed.

Lemma do_ev_cpu me e s s' : do_ev me e s = Ok tt s' -> exists c, m_cpus s !! me = Some c.
Proof.
  destruct (m_cpus s !! me) as [c|] eqn:E; [by eauto|].
  assert (Hr : readeflags me s = Undef).
  { unfold readeflags, bind at 1, cpu_at. by rewrite gets_bind, E. }
  assert (Hp : pushcli me s = Undef) by (unfold pushcli, bind at 1; by rewrite Hr).
  assert (Hq : popcli me s = Undef) by (unfold popcli, bind at 1; by rewrite Hr).
  destruct e; cbn [do_ev]; unfold acquire, release, holding, bind; by rewrite ?Hp, ?Hq.
Qed.

Lemma holding_none me l s c : cpus_ok s -> m_cpus s !! me = Some c -> m_locks s !! l = None ->
  holding me l s = Undef.
Proof.
  intros Hok Hme El. unfold holding. rewrite (bind_run _ _ _ _ _ (pushcli_run _ _ _ Hok Hme)).
  unfold bind at 1, lock_at. rewrite gets_bind. cbn [put_cpu set_cpus m_locks]. by rewrite El.
Qed.

Lemma sim_acquire s pc o me l c s1 : sim s pc o -> m_cpus s !! me = Some c -> acquire me l s = Ok tt s1 ->
  exists o', own o (me, Acquire l) = Some o' /\ sim s1 (bump me (Acquire l) pc) o'.
Proof.
  intros Hs Hme He. destruct (sim_cpu _ _ _ Hs me c Hme) as (Hc & Hpc & Hn). pose proof (sim_cpus _ _ _ Hs) as Hok. cbn [own].
  destruct (m_locks s !! l) as [lk|] eqn:El.
  2:{ revert He. unfold acquire. rewrite (bind_run _ _ _ _ _ (pushcli_run _ _ _ Hok Hme)).
      unfold bind at 1. rewrite holding_none with (c := pushed c); [done|..|done].
      - by eapply cpus_ok_put.
      - by eapply put_cpu_lookup. }
  rewrite (acquire_run me l s c lk Hok Hme Hc El) in He.
  pose proof (sim_lock _ _ _ Hs l lk El) as ->. destruct (o !! l) as [i|] eqn:Eo.
  { destruct (held_by _ _); done. }
  injection He as <-. eexists. split; [done|].
  apply (sim_put s pc o me (Acquire l) c (pushed c)); try done; rewrite ?bump_me; cbn [count pushed c_ncli].
  + by apply pushed_ok.
  + lia.
  + rewrite owns_acquire, decide_True by done. lia.
  + intros i Hi. rewrite owns_acquire, decide_False by done. lia.
  + intros l' i. destruct (decide (l = l')) as [<-|Hl]; [rewrite lookup_insert_eq|rewrite lookup_insert_ne by done].
    * intros [= <-]. by left.
    * by right.
  + intros l' lk. cbn. destruct (decide (l = l')) as [<-|Hl].
    * rewrite !lookup_insert_eq. by intros [= <-].
    * rewrite !lookup_insert_ne by done. apply Hs.
  + intros l' i. destruct (decide (l = l')) as [<-|Hl]; cbn.
    * rewrite !lookup_insert_eq. done.
    * rewrite !lookup_insert_ne by done. intros H. by apply (sim_owner _ _ _ Hs l' i).
Qed.

Lemma sim_release s pc o me l c s1 : sim s pc o -> m_cpus s !! me = Some c -> release me l s = Ok tt s1 ->
  exists o', own o (me, Release l) = Some o' /\ sim s1 (bump me (Release l) pc) o'.
Proof.
  intros Hs Hme He. destruct (sim_cpu _ _ _ Hs me c Hme) as (Hc & Hpc & Hn). pose proof (sim_cpus _ _ _ Hs) as Hok. cbn [own].
  destruct (m_locks s !! l) as [lk|] eqn:El.
  2:{ revert He. unfold release, bind at 1. by rewrite (holding_none me l s c Hok Hme El). }
  destruct (release_ok_inv me l s c lk s1 Hok Hme Hc El He) as (Hh & Hif & Hn1).
  rewrite (release_run me l s c lk Hok Hme Hif Hn1 El), Hh in He. injection He as <-.
  pose proof (sim_lock _ _ _ Hs l lk El) as ->. destruct (o !! l) as [i|] eqn:Eo; [|done].
  apply bool_decide_eq_true in Hh as [= ->]. rewrite bool_decide_true by done. eexists. split; [done|].
  pose proof (owns_release me me l o Eo) as Hsz. rewrite decide_True in Hsz by done.
  apply (sim_put s pc o me (Release l) c (popped c)); try done; rewrite ?bump_me; cbn [count popped c_ncli].
  + by apply popped_ok.
  + lia.
  + lia.
  + intros i Hi. rewrite (owns_release i me l o Eo), decide_False by done. lia.
  + intros l' i. rewrite lookup_delete_Some. tauto.
  + intros l' lk. cbn. destruct (decide (l = l')) as [<-|Hl].
    * rewrite lookup_insert_eq, lookup_delete_eq. by intros [= <-].
    * rewrite lookup_insert_ne, lookup_delete_ne by done. apply Hs.
  + intros l' i. rewrite lookup_delete_Some. intros [Hl H]. cbn. rewrite lookup_insert_ne by done.
    by apply (sim_owner _ _ _ Hs l' i).
Qed.

Lemma sim_step s pc o me e s1 : sim s pc o -> do_ev me e s = Ok tt s1 -> (e = Popcli -> 0 < pc me) ->
  exists o', own o (me, e) = Some o' /\ sim s1 (bump me e pc) o'.
Proof.
  intros Hs He Hpop. destruct (do_ev_cpu _ _ _ _ He) as [c Hme].
  destruct (sim_cpu _ _ _ Hs me c Hme) as (Hc & Hpc & Hn). pose proof (sim_cpus _ _ _ Hs) as Hok.
  destruct e as [l|l| |]; cbn [do_ev own] in *.
  - by apply (sim_acquire s pc o me l c).
  - by apply (sim_release s pc o me l c).
  - rewrite (pushcli_run me s c Hok Hme) in He. injection He as <-. eexists. split; [done|].
    apply (sim_put s pc o me Pushcli c (pushed c)); try done; rewrite ?bump_me; cbn [count pushed c_ncli];
      try lia; [by apply pushed_ok|by right|apply Hs|intros l i H; by apply (sim_owner _ _ _ Hs l i)].
  - destruct (popcli_ok_inv me s c s1 Hok Hme He) as [Hif Hn1]. specialize (Hpop eq_refl).
    rewrite (popcli_run me s c Hok Hme Hif Hn1) in He. injection He as <-. eexists. split; [done|].
    apply (sim_put s pc o me Popcli c (popped c)); try done; rewrite ?bump_me; cbn [count popped c_ncli];
      try lia; [by apply popped_ok|by right|apply Hs|intros l i H; by apply (sim_owner _ _ _ Hs l i)].
Qed.

Lemma sim_exec s pc o tr s' pc' : sim s pc o -> exec s pc tr s' pc' ->
  exists o', foldl (fun oo x => o ← oo; own o x) (Some o) tr = Some o' /\ sim s' pc' o'.
Proof.
  intros Hs He. revert o Hs. induction He as [s pc|s pc me e tr s1 s' pc' He Hp _ IH]; intros o Hs.
  - by exists o.
  - destruct (sim_step s pc o me e s1 Hs He Hp) as (o1 & E1 & Hs1). cbn [foldl]. cbn [mbind option_bind].
    rewrite E1. by apply IH.
Qed.

(** A machine at start: no CPU is in a critical section and every lock is free. *)
Definition at_start (s : mach) : Prop :=
  cpus_ok s /\ Forall (fun c => c_ncli c = 0) (m_cpus s) /\
  forall l lk, m_locks s !! l = Some lk -> lk = mkLock 0 None.



End Spinlock.
