(* ===== verification/Proc.v ===== *)
(** * Processes and the scheduler: proc.c

    The process table, the CPUs and the locks of the machine.  A routine runs
    on a CPU [me] up to the point where swtch leaves its thread: the saved
    context tells where the thread goes on when a scheduler switches back to it
    ([resume]).  Memory and files, which fork, exit and wait call, are the
    interface [ProcEnv]. *)
From S2P Require Import Prelude Words Params CString Spinlock.

Module Proc.
Import Spinlock.

(** What a process sleeps on: the address of a process (wait) or another one *)
Inductive chan := ChProc (p : nat) | ChAddr (a : Z).

(** proc.h:enum procstate *)
Inductive procstate := UNUSED | EMBRYO | SLEEPING | RUNNABLE | RUNNING | ZOMBIE.

(** Where a thread goes on after swtch: in forkret, or after the call of sched
    in yield, in sleep with the given lock, in the sleep of wait, or in exit. *)
Inductive point := AtForkret | AtYield | AtSleep (lk : Z) | AtWait | AtExit.

(** proc.h:struct context: the saved instruction pointer, and the variable
    [intena] that sched keeps on the stack *)
Record context := mkContext { ctx_eip : point; ctx_intena : Z }.

(** proc.h:struct proc; [p_tf] are the words of the trap frame. *)
Record proc := mkProc {
  p_sz : Z;
  p_pgdir : Z;
  p_kstack : Z;
  p_state : procstate;
  p_pid : Z;
  p_parent : option nat;
  p_tf : list Z;
  p_context : context;
  p_chan : option chan;
  p_killed : Z;
  p_ofile : list (option nat);
  p_cwd : option nat;
  p_name : list Z
}.

#[export] Instance chan_eq_dec : EqDecision chan.
Proof. solve_decision. Defined.
#[export] Instance procstate_eq_dec : EqDecision procstate.
Proof. solve_decision. Defined.
#[export] Instance point_eq_dec : EqDecision point.
Proof. solve_decision. Defined.

Definition set_sz x p := mkProc x (p_pgdir p) (p_kstack p) (p_state p) (p_pid p) (p_parent p) (p_tf p) (p_context p) (p_chan p) (p_killed p) (p_ofile p) (p_cwd p) (p_name p).
Definition set_pgdir x p := mkProc (p_sz p) x (p_kstack p) (p_state p) (p_pid p) (p_parent p) (p_tf p) (p_context p) (p_chan p) (p_killed p) (p_ofile p) (p_cwd p) (p_name p).
Definition set_kstack x p := mkProc (p_sz p) (p_pgdir p) x (p_state p) (p_pid p) (p_parent p) (p_tf p) (p_context p) (p_chan p) (p_killed p) (p_ofile p) (p_cwd p) (p_name p).
Definition set_state x p := mkProc (p_sz p) (p_pgdir p) (p_kstack p) x (p_pid p) (p_parent p) (p_tf p) (p_context p) (p_chan p) (p_killed p) (p_ofile p) (p_cwd p) (p_name p).
Definition set_pid x p := mkProc (p_sz p) (p_pgdir p) (p_kstack p) (p_state p) x (p_parent p) (p_tf p) (p_context p) (p_chan p) (p_killed p) (p_ofile p) (p_cwd p) (p_name p).
Definition set_parent x p := mkProc (p_sz p) (p_pgdir p) (p_kstack p) (p_state p) (p_pid p) x (p_tf p) (p_context p) (p_chan p) (p_killed p) (p_ofile p) (p_cwd p) (p_name p).
Definition set_tf x p := mkProc (p_sz p) (p_pgdir p) (p_kstack p) (p_state p) (p_pid p) (p_parent p) x (p_context p) (p_chan p) (p_killed p) (p_ofile p) (p_cwd p) (p_name p).
Definition set_context x p := mkProc (p_sz p) (p_pgdir p) (p_kstack p) (p_state p) (p_pid p) (p_parent p) (p_tf p) x (p_chan p) (p_killed p) (p_ofile p) (p_cwd p) (p_name p).
Definition set_chan x p := mkProc (p_sz p) (p_pgdir p) (p_kstack p) (p_state p) (p_pid p) (p_parent p) (p_tf p) (p_context p) x (p_killed p) (p_ofile p) (p_cwd p) (p_name p).
Definition set_killed x p := mkProc (p_sz p) (p_pgdir p) (p_kstack p) (p_state p) (p_pid p) (p_parent p) (p_tf p) (p_context p) (p_chan p) x (p_ofile p) (p_cwd p) (p_name p).
Definition set_ofile x p := mkProc (p_sz p) (p_pgdir p) (p_kstack p) (p_state p) (p_pid p) (p_parent p) (p_tf p) (p_context p) (p_chan p) (p_killed p) x (p_cwd p) (p_name p).
Definition set_cwd x p := mkProc (p_sz p) (p_pgdir p) (p_kstack p) (p_state p) (p_pid p) (p_parent p) (p_tf p) (p_context p) (p_chan p) (p_killed p) (p_ofile p) x (p_name p).
Definition set_name x p := mkProc (p_sz p) (p_pgdir p) (p_kstack p) (p_state p) (p_pid p) (p_parent p) (p_tf p) (p_context p) (p_chan p) (p_killed p) (p_ofile p) (p_cwd p) x.

(** What proc.c calls of the other components: kalloc.c, vm.c, file.c, fs.c and
    log.c.  A page or page directory 0 is the null pointer. *)
Class ProcEnv (V : Type) := {
  e_kalloc : M V Z;
  e_kfree : Z -> M V unit;
  e_setupkvm : M V Z;
  e_inituvm : Z -> M V unit;
  e_allocuvm : Z -> Z -> Z -> M V Z;
  e_deallocuvm : Z -> Z -> Z -> M V Z;
  e_copyuvm : Z -> Z -> M V Z;
  e_freevm : Z -> M V unit;
  e_filedup : nat -> M V nat;
  e_fileclose : nat -> M V unit;
  e_idup : nat -> M V nat;
  e_iput : nat -> M V unit;
  e_namei_root : M V nat;
  e_begin_op : M V unit;
  e_end_op : M V unit;
  e_fsinit : M V unit
}.

Section proc.
Context {V : Type} {PE : ProcEnv V}.

(** The kernel: the machine, [ptable.proc], [nextpid], [initproc], the static
    [first] of forkret, and the rest *)
Record sys := mkSys {
  s_mach : mach;
  s_procs : list proc;
  s_nextpid : Z;
  s_initproc : option nat;
  s_first : Z;
  s_env : V
}.

Definition set_mach x s := mkSys x (s_procs s) (s_nextpid s) (s_initproc s) (s_first s) (s_env s).
Definition set_procs x s := mkSys (s_mach s) x (s_nextpid s) (s_initproc s) (s_first s) (s_env s).
Definition set_nextpid x s := mkSys (s_mach s) (s_procs s) x (s_initproc s) (s_first s) (s_env s).
Definition set_initproc x s := mkSys (s_mach s) (s_procs s) (s_nextpid s) x (s_first s) (s_env s).
Definition set_first x s := mkSys (s_mach s) (s_procs s) (s_nextpid s) (s_initproc s) x (s_env s).
Definition set_env x s := mkSys (s_mach s) (s_procs s) (s_nextpid s) (s_initproc s) (s_first s) x.

#[local] Abbreviation K A := (M sys A).

Definition onm {A} (m : M mach A) : K A := zoom s_mach set_mach m.
Definition one {A} (m : M V A) : K A := zoom s_env set_env m.

Definition proc_at (i : nat) : K proc := ps <- gets s_procs ;; from_option_undef (ps !! i).
Definition upd (i : nat) (f : proc -> proc) : K unit :=
  p <- proc_at i ;; modify (fun s => set_procs (<[i := f p]> (s_procs s)) s).
Definition upd_all (f : list proc -> list proc) : K unit :=
  modify (fun s => set_procs (f (s_procs s)) s).

(** [&ptable.lock] *)
Definition ptable_lock : Z := 0.
Definition acq (me : nat) : K unit := onm (acquire me ptable_lock).
Definition rel (me : nat) : K unit := onm (release me ptable_lock).

(** The current process; proc.c dereferences it. *)
Definition curproc (me : nat) : K nat := o <- onm (myproc me) ;; from_option_undef o.

(** ** Creation *)

(** pinit *)
Definition pinit : K unit := onm (initlock ptable_lock).

Fixpoint find_unused (ps : list proc) : option nat :=
  match ps with
  | [] => None
  | p :: ps' => if bool_decide (p_state p = UNUSED) then Some O else S <$> find_unused ps'
  end.

(** allocproc, under the lock: a process id and an unused entry *)
Definition allocproc_find (me : nat) : K (option nat) :=
  acq me ;;
  ps <- gets s_procs ;;
  match find_unused ps with
  | None => rel me ;; ret None
  | Some i =>
      upd i (set_state EMBRYO) ;;
      n <- gets s_nextpid ;;
      upd i (set_pid n) ;;
      modify (set_nextpid (s32 (n + 1))) ;;
      rel me ;;
      ret (Some i)
  end.

(** allocproc, after it: the kernel stack, with a trap frame not yet written *)
Definition allocproc_stack (i : nat) : K (option nat) :=
  k <- one e_kalloc ;;
  upd i (set_kstack k) ;;
  if k =? 0 then upd i (set_state UNUSED) ;; ret None
  else
    upd i (set_tf []) ;;
    upd i (set_context (mkContext AtForkret 0)) ;;
    ret (Some i).

Definition allocproc (me : nat) : K (option nat) :=
  o <- allocproc_find me ;;
  match o with None => ret None | Some i => allocproc_stack i end.

(** "initcode" and the trap frame userinit builds: x86.h:struct trapframe has 19
    words, es at 10, ds at 11, eip at 14, cs at 15, eflags at 16, esp at 17 and
    ss at 18. *)
Definition initcode_name : list Z := [105; 110; 105; 116; 99; 111; 100; 101; 0].
Definition SEG_UCODE : Z := 3.
Definition SEG_UDATA : Z := 4.
Definition DPL_USER : Z := 3.
Definition user_frame : list Z :=
  let ds := Z.lor (Z.shiftl SEG_UDATA 3) DPL_USER in
  replicate 10 0 ++ [ds; ds; 0; 0; 0; Z.lor (Z.shiftl SEG_UCODE 3) DPL_USER; FL_IF; PGSIZE; ds].

Definition userinit (me : nat) : K unit :=
  o <- allocproc me ;;
  modify (set_initproc o) ;;
  p <- from_option_undef o ;;
  pg <- one e_setupkvm ;;
  upd p (set_pgdir pg) ;;
  if pg =? 0 then panic "userinit: out of memory?"
  else
    one (e_inituvm pg) ;;
    upd p (set_sz PGSIZE) ;;
    upd p (set_tf user_frame) ;;
    nm <- from_option_undef (CString.safestrcpy initcode_name 16) ;;
    upd p (fun q => set_name (splice 0 nm (p_name q)) q) ;;
    cwd <- one e_namei_root ;;
    upd p (set_cwd (Some cwd)) ;;
    acq me ;;
    upd p (set_state RUNNABLE) ;;
    rel me.

(** growproc; [sz + n] is an unsigned sum. *)
Definition growproc (me : nat) (n : Z) : K Z :=
  c <- curproc me ;;
  p <- proc_at c ;;
  if n >? 0 then
    sz <- one (e_allocuvm (p_pgdir p) (p_sz p) (u32 (p_sz p + n))) ;;
    if sz =? 0 then ret (-1) else upd c (set_sz sz) ;; ret 0
  else if n <? 0 then
    sz <- one (e_deallocuvm (p_pgdir p) (p_sz p) (u32 (p_sz p + n))) ;;
    if sz =? 0 then ret (-1) else upd c (set_sz sz) ;; ret 0
  else upd c (set_sz (p_sz p)) ;; ret 0.

(** fork's loop over the open files *)
Fixpoint dup_files (np : nat) (i : nat) (fs : list (option nat)) : K unit :=
  match fs with
  | [] => ret tt
  | None :: fs' => dup_files np (S i) fs'
  | Some f :: fs' =>
      g <- one (e_filedup f) ;;
      upd np (fun q => set_ofile (<[i := Some g]> (p_ofile q)) q) ;;
      dup_files np (S i) fs'
  end.

(** fork, from copyuvm to the last field of the new process *)
Definition fork_copy (cur np : nat) : K (option Z) :=
  p <- proc_at cur ;;
  pg <- one (e_copyuvm (p_pgdir p) (p_sz p)) ;;
  upd np (set_pgdir pg) ;;
  if pg =? 0 then
    q <- proc_at np ;;
    one (e_kfree (p_kstack q)) ;;
    upd np (set_kstack 0) ;;
    upd np (set_state UNUSED) ;;
    ret None
  else
    upd np (set_sz (p_sz p)) ;;
    upd np (set_parent (Some cur)) ;;
    upd np (set_tf (<[7%nat := 0]> (p_tf p))) ;;
    dup_files np 0 (p_ofile p) ;;
    cwd <- from_option_undef (p_cwd p) ;;
    d <- one (e_idup cwd) ;;
    upd np (set_cwd (Some d)) ;;
    nm <- from_option_undef (CString.safestrcpy (p_name p) 16) ;;
    upd np (fun q => set_name (splice 0 nm (p_name q)) q) ;;
    q <- proc_at np ;;
    ret (Some (p_pid q)).

Definition fork_publish (me np : nat) : K unit :=
  acq me ;; upd np (set_state RUNNABLE) ;; rel me.

(** fork, once allocproc has found an entry *)
Definition fork_rest (me cur np : nat) : K Z :=
  o <- allocproc_stack np ;;
  match o with
  | None => ret (-1)
  | Some _ =>
      r <- fork_copy cur np ;;
      match r with
      | None => ret (-1)
      | Some pid => fork_publish me np ;; ret pid
      end
  end.

Definition fork (me : nat) : K Z :=
  cur <- curproc me ;;
  o <- allocproc_find me ;;
  match o with None => ret (-1) | Some np => fork_rest me cur np end.

(** ** Sleeping, waking and switching *)

(** wakeup1 *)
Definition wake (ch : option chan) (p : proc) : proc :=
  if bool_decide (p_state p = SLEEPING) && bool_decide (p_chan p = ch) then set_state RUNNABLE p else p.
Definition wakeup1 (ch : option chan) : K unit := upd_all (fmap (wake ch)).

Definition wakeup (me : nat) (ch : option chan) : K unit := acq me ;; wakeup1 ch ;; rel me.

(** sched: the checks, and swtch to the scheduler of this CPU, which goes on
    after its own call of swtch: [c->proc = 0], and the next process. *)
Definition sched (me : nat) (at_ : point) : K unit :=
  p <- curproc me ;;
  h <- onm (holding me ptable_lock) ;;
  if negb h then panic "sched ptable.lock"
  else
    i <- onm (mycpu me) ;;
    c <- onm (cpu_at i) ;;
    if negb (c_ncli c =? 1) then panic "sched locks"
    else
      q <- proc_at p ;;
      if bool_decide (p_state q = RUNNING) then panic "sched running"
      else
        e <- onm (readeflags me) ;;
        if negb (Z.land e FL_IF =? 0) then panic "sched interruptible"
        else
          upd p (set_context (mkContext at_ (c_intena c))) ;;
          k <- from_option_undef (c_scheduler c) ;;
          onm (upd_cpu i (fun c => set_c_scheduler (Some (S k)) (set_c_proc None c))).

Definition yield (me : nat) : K unit :=
  acq me ;;
  p <- curproc me ;;
  upd p (set_state RUNNABLE) ;;
  sched me AtYield.

(** sleep up to its call of sched; a lock 0 is ptable.lock. *)
Definition sleep (me : nat) (ch : option chan) (lk : Z) (at_ : point) : K unit :=
  o <- onm (myproc me) ;;
  match o with
  | None => panic "sleep"
  | Some p =>
      whenM (negb (lk =? ptable_lock)) (acq me ;; onm (release me lk)) ;;
      upd p (set_chan ch) ;;
      upd p (set_state SLEEPING) ;;
      sched me at_
  end.

(** ** The end of a process *)

(** exit's loop over the open files *)
Fixpoint close_files (cur : nat) (fd : nat) (fs : list (option nat)) : K unit :=
  match fs with
  | [] => ret tt
  | None :: fs' => close_files cur (S fd) fs'
  | Some f :: fs' =>
      one (e_fileclose f) ;;
      upd cur (fun p => set_ofile (<[fd := None]> (p_ofile p)) p) ;;
      close_files cur (S fd) fs'
  end.

(** exit's loop that passes abandoned children to init, from entry [i] on *)
Fixpoint reparent (cur : nat) (init : option nat) (fuel i : nat) : K unit :=
  match fuel with
  | O => ret tt
  | S fuel' =>
      p <- proc_at i ;;
      whenM (bool_decide (p_parent p = Some cur))
        (upd i (set_parent init) ;;
         whenM (bool_decide (p_state p = ZOMBIE)) (wakeup1 (ChProc <$> init))) ;;
      reparent cur init fuel' (S i)
  end.

(** exit, under the lock *)
Definition exit_zombie (me cur : nat) : K unit :=
  acq me ;;
  p <- proc_at cur ;;
  wakeup1 (ChProc <$> p_parent p) ;;
  init <- gets s_initproc ;;
  reparent cur init (Z.to_nat NPROC) 0 ;;
  upd cur (set_state ZOMBIE) ;;
  sched me AtExit.

(** exit, up to its call of sched *)
Definition exit (me : nat) : K unit :=
  cur <- curproc me ;;
  init <- gets s_initproc ;;
  if bool_decide (init = Some cur) then panic "init exiting"
  else
    p <- proc_at cur ;;
    close_files cur 0 (p_ofile p) ;;
    one e_begin_op ;;
    cwd <- from_option_undef (p_cwd p) ;;
    one (e_iput cwd) ;;
    one e_end_op ;;
    upd cur (set_cwd None) ;;
    exit_zombie me cur.

(** The scan of wait: the first zombie child, and whether there is a child *)
Fixpoint find_zombie (cur : nat) (i : nat) (ps : list proc) : option nat * bool :=
  match ps with
  | [] => (None, false)
  | p :: ps' =>
      if bool_decide (p_parent p = Some cur) then
        if bool_decide (p_state p = ZOMBIE) then (Some i, true)
        else ((find_zombie cur (S i) ps').1, true)
      else find_zombie cur (S i) ps'
  end.

Definition reaped (p : proc) : proc :=
  mkProc (p_sz p) (p_pgdir p) 0 UNUSED 0 None (p_tf p) (p_context p) (p_chan p) 0 (p_ofile p) (p_cwd p)
    (<[0%nat := 0]> (p_name p)).

(** One round of wait's loop, the lock held: [None] when the process sleeps *)
Definition wait_round (me cur : nat) : K (option Z) :=
  ps <- gets s_procs ;;
  match find_zombie cur 0 ps with
  | (Some i, _) =>
      p <- proc_at i ;;
      one (e_kfree (p_kstack p)) ;;
      one (e_freevm (p_pgdir p)) ;;
      upd i reaped ;;
      rel me ;;
      ret (Some (p_pid p))
  | (None, havekids) =>
      p <- proc_at cur ;;
      if negb havekids || negb (p_killed p =? 0) then rel me ;; ret (Some (-1))
      else sleep me (Some (ChProc cur)) ptable_lock AtWait ;; ret None
  end.

Definition wait (me : nat) : K (option Z) :=
  cur <- curproc me ;;
  acq me ;;
  wait_round me cur.

(** kill *)
Fixpoint find_pid (pid : Z) (ps : list proc) : option nat :=
  match ps with
  | [] => None
  | p :: ps' => if p_pid p =? pid then Some O else S <$> find_pid pid ps'
  end.

Definition kill_proc (p : proc) : proc :=
  let p' := set_killed 1 p in
  if bool_decide (p_state p' = SLEEPING) then set_state RUNNABLE p' else p'.

Definition kill (me : nat) (pid : Z) : K Z :=
  acq me ;;
  ps <- gets s_procs ;;
  match find_pid pid ps with
  | Some i => upd i kill_proc ;; rel me ;; ret 0
  | None => rel me ;; ret (-1)
  end.

(** ** The scheduler *)

(** The head of the outer loop of scheduler *)
Definition scheduler_enter (me : nat) : K unit :=
  onm (sti me) ;;
  acq me ;;
  i <- onm (mycpu me) ;;
  onm (upd_cpu i (set_c_scheduler (Some O))).

(** sched's last line, when swtch comes back *)
Definition sched_back (me : nat) (intena : Z) : K unit :=
  i <- onm (mycpu me) ;; onm (upd_cpu i (set_intena intena)).

(** What a thread does when a scheduler switches to it, up to the release of
    ptable.lock: the end of forkret, yield, sleep or wait's sleep.  The result
    tells the value wait returns. *)
Definition resume (me p : nat) : K (option Z) :=
  q <- proc_at p ;;
  let k := p_context q in
  match ctx_eip k with
  | AtForkret =>
      rel me ;;
      f <- gets s_first ;;
      whenM (negb (f =? 0)) (modify (set_first 0) ;; one e_fsinit) ;;
      ret None
  | AtYield => sched_back me (ctx_intena k) ;; rel me ;; ret None
  | AtSleep lk => sched_back me (ctx_intena k) ;; upd p (set_chan None) ;; rel me ;; ret None
  | AtWait => sched_back me (ctx_intena k) ;; upd p (set_chan None) ;; wait_round me p
  | AtExit => sched_back me (ctx_intena k) ;; panic "zombie exit"
  end.

(** One iteration of scheduler's inner loop, or the release after it *)
Definition scheduler_step (me : nat) : K (option Z) :=
  i <- onm (mycpu me) ;;
  c <- onm (cpu_at i) ;;
  k <- from_option_undef (c_scheduler c) ;;
  if (Z.of_nat k <? NPROC) then
    p <- proc_at k ;;
    if negb (bool_decide (p_state p = RUNNABLE)) then
      onm (upd_cpu i (set_c_scheduler (Some (S k)))) ;; ret None
    else
      onm (upd_cpu i (set_c_proc (Some k))) ;;
      upd k (set_state RUNNING) ;;
      resume me k
  else
    onm (upd_cpu i (set_c_scheduler None)) ;;
    rel me ;; ret None.

End proc.
End Proc.
