(* ===== verification/ProcStep.v ===== *)
(** * What the routines of proc.c do to the process table

    Each routine of Proc, run on a CPU in good order and returning, is a change
    of a few entries of the table together with a change of its CPU and of
    ptable.lock; these lemmas state which. *)
From S2P Require Import Prelude Words Params CString Spinlock Proc.

Module ProcStep.
Import Spinlock Proc.

Section run.
Context {V : Type} {PE : ProcEnv V}.
#[local] Abbreviation sys := (@sys V).

Lemma onm_run {A} (m : M mach A) (s : sys) a m' : m (s_mach s) = Ok a m' -> onm m s = Ok a (set_mach m' s).
Proof. intros H. unfold onm. by apply zoom_run. Qed.

Lemma onm_Ok {A} (m : M mach A) (s : sys) a s' : onm m s = Ok a s' ->
  exists m', m (s_mach s) = Ok a m' /\ s' = set_mach m' s.
Proof. apply zoom_Ok_inv. Qed.

Lemma one_Ok {A} (m : M V A) (s : sys) a s' : one m s = Ok a s' -> exists v, s' = set_env v s.
Proof. intros (v & _ & ->)%zoom_Ok_inv. by exists v. Qed.

Lemma proc_at_run i (s : sys) q : s_procs s !! i = Some q -> proc_at i s = Ok q s.
Proof. intros H. unfold proc_at. by rewrite gets_bind, H. Qed.

Lemma proc_at_Ok i (s : sys) q s' : proc_at i s = Ok q s' -> s_procs s !! i = Some q /\ s' = s.
Proof.
  unfold proc_at. rewrite gets_bind. destruct (s_procs s !! i); cbn; [|done]. by intros [= -> ->].
Qed.

Lemma upd_run i f (s : sys) q : s_procs s !! i = Some q ->
  upd i f s = Ok tt (set_procs (<[i := f q]> (s_procs s)) s).
Proof. intros H. unfold upd. by rewrite (bind_run _ _ _ _ _ (proc_at_run _ _ _ H)). Qed.

Lemma upd_Ok i f (s : sys) s' : upd i f s = Ok tt s' ->
  exists q, s_procs s !! i = Some q /\ s' = set_procs (<[i := f q]> (s_procs s)) s.
Proof.
  intros (q & s1 & [Hq ->]%proc_at_Ok & [= <-])%bind_Ok_inv. by exists q.
Qed.

Lemma set_mach_id (s : sys) : set_mach (s_mach s) s = s.
Proof. by destruct s. Qed.
Lemma set_procs_id (s : sys) : set_procs (s_procs s) s = s.
Proof. by destruct s. Qed.

(** ** The lock of the table *)

Definition lock_ok (m : mach) : Prop :=
  exists lk, m_locks m !! ptable_lock = Some lk /\
    (lk = mkLock 0 None \/ exists i, lk = mkLock 1 (Some i)).

(** A machine in good order *)
Definition mach_ok (m : mach) : Prop :=
  cpus_ok m /\ (forall i c, m_cpus m !! i = Some c -> cpu_ok c) /\ lock_ok m.

Definition free (m : mach) : Prop := m_locks m !! ptable_lock = Some (mkLock 0 None).
Definition owner (m : mach) (i : nat) : Prop := m_locks m !! ptable_lock = Some (mkLock 1 (Some i)).

Definition lock_it (me : nat) (c : cpu) (m : mach) : mach :=
  put_lock ptable_lock (mkLock 1 (Some me)) (put_cpu me c m).
Definition unlock_it (me : nat) (c : cpu) (m : mach) : mach :=
  put_lock ptable_lock (mkLock 0 None) (put_cpu me c m).

Lemma acq_Ok me (s : sys) c s' : mach_ok (s_mach s) -> m_cpus (s_mach s) !! me = Some c ->
  acq me s = Ok tt s' -> free (s_mach s) /\ s' = set_mach (lock_it me (pushed c) (s_mach s)) s.
Proof.
  intros (Hok & Hc & lk & Hl & Hlk) Hme (m' & Ha & ->)%onm_Ok.
  rewrite (acquire_run me ptable_lock _ c lk Hok Hme (Hc _ _ Hme) Hl) in Ha.
  destruct Hlk as [->|[i ->]].
  - injection Ha as <-. done.
  - destruct (held_by _ _); done.
Qed.

Lemma rel_Ok me (s : sys) c s' : mach_ok (s_mach s) -> m_cpus (s_mach s) !! me = Some c ->
  rel me s = Ok tt s' ->
  owner (s_mach s) me /\ c_if c = false /\ 1 <= c_ncli c /\ s' = set_mach (unlock_it me (popped c) (s_mach s)) s.
Proof.
  intros (Hok & Hc & lk & Hl & Hlk) Hme (m' & Ha & ->)%onm_Ok.
  destruct (release_ok_inv me ptable_lock _ c lk m' Hok Hme (Hc _ _ Hme) Hl Ha) as (Hh & Hif & Hn).
  rewrite (release_run me ptable_lock _ c lk Hok Hme Hif Hn Hl), Hh in Ha. injection Ha as <-.
  destruct Hlk as [->|[i ->]]; [done|]. apply bool_decide_eq_true in Hh as [= ->]. done.
Qed.

Lemma curproc_Ok me (s : sys) c p s' : mach_ok (s_mach s) -> m_cpus (s_mach s) !! me = Some c ->
  curproc me s = Ok p s' -> c_proc c = Some p /\ s' = set_mach (put_cpu me (touched c) (s_mach s)) s.
Proof.
  intros (Hok & Hc & _) Hme (o & s1 & (m' & Ha & ->)%onm_Ok & H)%bind_Ok_inv.
  rewrite (myproc_run me _ c Hok Hme (Hc _ _ Hme)) in Ha. injection Ha as <- <-.
  destruct (c_proc c); cbn in H; [|done]. by injection H as <- <-.
Qed.

(** ** Preservation of [mach_ok] *)

Lemma touched_ok c : cpu_ok c -> cpu_ok (touched c).
Proof. intros H. unfold touched. by destruct (c_ncli c =? 0). Qed.

Lemma touched_fields c : c_apicid (touched c) = c_apicid c /\ c_ncli (touched c) = c_ncli c /\
  c_if (touched c) = c_if c /\ c_proc (touched c) = c_proc c /\ c_scheduler (touched c) = c_scheduler c.
Proof. unfold touched. by destruct (c_ncli c =? 0). Qed.

Lemma mach_ok_cpu me m c c' : mach_ok m -> m_cpus m !! me = Some c -> c_apicid c' = c_apicid c -> cpu_ok c' ->
  mach_ok (put_cpu me c' m).
Proof.
  intros (Hok & Hc & Hl) Hme Ha Hc'. split; [by eapply cpus_ok_put|]. split; [|done].
  intros i d Hi. destruct (decide (i = me)) as [->|Hne].
  - erewrite put_cpu_lookup in Hi by done. by injection Hi as <-.
  - rewrite put_cpu_ne in Hi by done. by eapply Hc.
Qed.

Lemma mach_ok_lock l lk m : mach_ok m -> (lk = mkLock 0 None \/ exists i, lk = mkLock 1 (Some i)) ->
  mach_ok (put_lock l lk m).
Proof.
  intros (Hok & Hc & lk' & Hl & Hlk') Hlk. split; [done|]. split; [done|]. cbn.
  destruct (decide (l = ptable_lock)) as [->|Hne].
  - exists lk. cbn. rewrite lookup_insert_eq. done.
  - exists lk'. cbn. rewrite lookup_insert_ne by done. done.
Qed.

Lemma mach_ok_lock_it me m c c' : mach_ok m -> m_cpus m !! me = Some c -> c_apicid c' = c_apicid c ->
  cpu_ok c' -> mach_ok (lock_it me c' m).
Proof. intros Hm Hme Ha Hc. apply mach_ok_lock; [by eapply mach_ok_cpu|]. right. by eexists. Qed.

Lemma mach_ok_unlock_it me m c c' : mach_ok m -> m_cpus m !! me = Some c -> c_apicid c' = c_apicid c ->
  cpu_ok c' -> mach_ok (unlock_it me c' m).
Proof. intros Hm Hme Ha Hc. apply mach_ok_lock; [by eapply mach_ok_cpu|]. by left. Qed.

Lemma lock_it_cpu me c m d : m_cpus m !! me = Some d -> m_cpus (lock_it me c m) !! me = Some c.
Proof. apply put_cpu_lookup. Qed.

Lemma lock_it_put me c d m : put_cpu me c (lock_it me d m) = lock_it me c m.
Proof. unfold lock_it, put_lock, put_cpu, set_locks, set_cpus. cbn. by rewrite list_insert_insert_eq. Qed.

Lemma unlock_lock_it me c d m : unlock_it me c (lock_it me d m) = unlock_it me c m.
Proof.
  unfold unlock_it, lock_it, put_lock, put_cpu, set_locks, set_cpus. cbn.
  by rewrite list_insert_insert_eq, insert_insert_eq.
Qed.

(** ** Switching away *)

(** The CPU after swtch to its scheduler *)
Definition left_to (k : nat) (c : cpu) : cpu := set_c_scheduler (Some (S k)) (set_c_proc None c).

Lemma sched_Ok me at_ (s : sys) c s' : mach_ok (s_mach s) -> m_cpus (s_mach s) !! me = Some c ->
  c_if c = false -> 1 <= c_ncli c -> sched me at_ s = Ok tt s' ->
  owner (s_mach s) me /\ c_ncli c = 1 /\ exists p k q, c_proc c = Some p /\ c_scheduler c = Some k /\
    s_procs s !! p = Some q /\ p_state q <> RUNNING /\
    s' = set_mach (put_cpu me (left_to k c) (s_mach s))
           (set_procs (<[p := set_context (mkContext at_ (c_intena c)) q]> (s_procs s)) s).
Proof.
  intros Hm Hme Hif Hn H. unfold sched in H.
  apply bind_Ok_inv in H as (p & s1 & H1 & H). apply (curproc_Ok me s c) in H1 as [Hp ->]; [|done..].
  rewrite touched_inner, put_cpu_id, set_mach_id in H by done.
  destruct Hm as (Hok & Hcs & lk & Hl & Hlk).
  rewrite (bind_run _ _ _ _ _ (onm_run _ s _ _ (holding_run me ptable_lock _ c lk Hok Hme Hif Hn Hl))), set_mach_id in H.
  destruct (held_by me lk) eqn:Hh; [|done]. cbn [negb] in H.
  rewrite (bind_run _ _ _ _ _ (onm_run _ s _ _ (mycpu_run me _ c Hok Hme Hif))), set_mach_id in H.
  rewrite (bind_run _ _ _ _ _ (onm_run _ s _ _ (cpu_at_run me _ c Hme))), set_mach_id in H.
  destruct (Z.eqb_spec (c_ncli c) 1) as [Hn1|]; [|done]. cbn [negb] in H.
  apply bind_Ok_inv in H as (q & s1 & [Hq ->]%proc_at_Ok & H).
  case_bool_decide as Hst; [done|].
  rewrite (bind_run _ _ _ _ _ (onm_run _ s _ _ (readeflags_run me _ c Hme))), set_mach_id, Hif in H.
  change (Z.land 0 FL_IF =? 0) with true in H. cbn [negb] in H.
  rewrite (bind_run _ _ _ _ _ (upd_run p _ s q Hq)) in H.
  destruct (c_scheduler c) as [k|] eqn:Hk; [|done]. cbn [from_option_undef] in H. rewrite bind_ret_l in H.
  erewrite onm_run in H; [|exact (upd_cpu_run me _ _ c Hme)]. injection H as <-.
  assert (owner (s_mach s) me).
  { unfold owner. destruct Hlk as [->|[i ->]]; [done|]. by apply bool_decide_eq_true in Hh as [= ->]. }
  split; [done|]. split; [done|]. exists p, k, q. done.
Qed.

(** ** Summaries

    [sto me c' lk ps' s s']: from [s] to [s'] the CPU [me] becomes [c'],
    ptable.lock becomes [lk] and the table becomes [ps']. *)
Record sto (me : nat) (c' : cpu) (lk : spinlock) (ps' : list proc) (s s' : sys) : Prop := {
  sto_ok : mach_ok (s_mach s');
  sto_cpus : m_cpus (s_mach s') = <[me := c']> (m_cpus (s_mach s));
  sto_lock : m_locks (s_mach s') !! ptable_lock = Some lk;
  sto_procs : s_procs s' = ps';
  sto_init : s_initproc s' = s_initproc s
}.

(** The CPU runs its scheduler, at entry [k], with the lock held. *)
Definition in_loop (k : nat) (c : cpu) : Prop :=
  c_proc c = None /\ c_scheduler c = Some k /\ c_ncli c = 1 /\ c_if c = false.

(** The process [p] gives up the CPU, and the table becomes [ps']. *)
Definition gave_up (me p : nat) (ps' : list proc) (s s' : sys) : Prop :=
  exists c k c', m_cpus (s_mach s) !! me = Some c /\ c_proc c = Some p /\ c_scheduler c = Some k /\
    free (s_mach s) /\ s_nextpid s' = s_nextpid s /\
    in_loop (S k) c' /\ sto me c' (mkLock 1 (Some me)) ps' s s'.

(** A critical section that does not switch *)
Definition stayed (me : nat) (ps' : list proc) (s s' : sys) : Prop :=
  exists c c', m_cpus (s_mach s) !! me = Some c /\ c_proc c' = c_proc c /\ c_scheduler c' = c_scheduler c /\
    free (s_mach s) /\ sto me c' (mkLock 0 None) ps' s s'.

(** sched in a critical section: the state [s1] has the CPU [c1] inside the lock. *)
Lemma sched_sto me at_ (s s1 s' : sys) c c1 ps :
  m_cpus (s_mach s) !! me = Some c -> c_if c1 = false -> 1 <= c_ncli c1 ->
  sto me c1 (mkLock 1 (Some me)) ps s s1 -> sched me at_ s1 = Ok tt s' ->
  exists p k q i c', c_proc c1 = Some p /\ c_scheduler c1 = Some k /\ ps !! p = Some q /\
    in_loop (S k) c' /\ s_nextpid s' = s_nextpid s1 /\
    sto me c' (mkLock 1 (Some me)) (<[p := set_context (mkContext at_ i) q]> ps) s s'.
Proof.
  intros Hme Hif Hn [Hok Hcs Hl <- Hi] H.
  assert (H1 : m_cpus (s_mach s1) !! me = Some c1).
  { rewrite Hcs. apply list_lookup_insert_eq. by eapply lookup_lt_Some. }
  apply (sched_Ok me at_ s1 c1) in H as (_ & Hn1 & p & k & q & Hp & Hk & Hq & Hst & ->); [|done..].
  assert (Hc1 : cpu_ok c1) by (by split; [lia|]).
  exists p, k, q, (c_intena c1), (left_to k c1). repeat (split; [done|]).
  split; cbn; [by eapply mach_ok_cpu| |done|done|done]. rewrite Hcs. by rewrite list_insert_insert_eq.
Qed.

(** The state after [acq] *)
Lemma acq_sto me (s : sys) c s' : mach_ok (s_mach s) -> m_cpus (s_mach s) !! me = Some c ->
  acq me s = Ok tt s' -> free (s_mach s) /\ s' = set_mach (lock_it me (pushed c) (s_mach s)) s /\
  sto me (pushed c) (mkLock 1 (Some me)) (s_procs s) s s'.
Proof.
  intros Hm Hme H. apply (acq_Ok me s c) in H as [Hf ->]; [|done..]. split; [done|]. split; [done|].
  split; cbn; try done; [|by rewrite lookup_insert_eq].
  eapply mach_ok_lock_it; [done|done|done|]. by apply pushed_ok, (proj1 (proj2 Hm) me).
Qed.

(** Changing the table inside a critical section *)
Lemma sto_set_procs me c lk ps ps' (s s1 : sys) : sto me c lk ps s s1 -> sto me c lk ps' s (set_procs ps' s1).
Proof. intros [? ? ? ? ?]. by split. Qed.

Lemma sto_set_env me c lk ps v (s s1 : sys) : sto me c lk ps s s1 -> sto me c lk ps s (set_env v s1).
Proof. intros [? ? ? ? ?]. by split. Qed.

Lemma sto_cpu me c lk ps (s s1 : sys) d : m_cpus (s_mach s) !! me = Some d -> sto me c lk ps s s1 ->
  m_cpus (s_mach s1) !! me = Some c.
Proof. intros Hme H. rewrite (sto_cpus _ _ _ _ _ _ H). apply list_lookup_insert_eq. by eapply lookup_lt_Some. Qed.

(** Leaving it *)
Lemma rel_sto me (s s1 s' : sys) c d lk ps : m_cpus (s_mach s) !! me = Some d -> sto me c lk ps s s1 ->
  rel me s1 = Ok tt s' -> c_if c = false /\ 1 <= c_ncli c /\ lk = mkLock 1 (Some me) /\
  s_nextpid s' = s_nextpid s1 /\ sto me (popped c) (mkLock 0 None) ps s s'.
Proof.
  intros Hme Hs H. assert (H1 := sto_cpu _ _ _ _ _ _ _ Hme Hs). destruct Hs as [Hok Hcs Hl Hps Hi].
  apply (rel_Ok me s1 c) in H as (Ho & Hif & Hn & ->); [|done..].
  split; [done|]. split; [done|]. split; [unfold owner in Ho; congruence|]. split; [done|].
  split; cbn; try done; [|by rewrite Hcs, list_insert_insert_eq|by rewrite lookup_insert_eq].
  eapply mach_ok_unlock_it; [done|done|done|by apply popped_ok].
Qed.

(** myproc inside a critical section *)
Lemma curproc_inside me (s1 s2 : sys) c p : mach_ok (s_mach s1) -> m_cpus (s_mach s1) !! me = Some c ->
  1 <= c_ncli c -> curproc me s1 = Ok p s2 -> c_proc c = Some p /\ s2 = s1.
Proof.
  intros Hm Hme Hn H. apply (curproc_Ok me s1 c) in H as [Hp ->]; [|done..].
  by rewrite touched_inner, put_cpu_id, set_mach_id.
Qed.

Lemma pushed_inside c : cpu_ok c -> 1 <= c_ncli (pushed c).
Proof. intros [H _]. cbn. lia. Qed.

Lemma yield_Ok me (s : sys) c s' : mach_ok (s_mach s) -> m_cpus (s_mach s) !! me = Some c ->
  yield me s = Ok tt s' -> exists p q i, c_proc c = Some p /\ s_procs s !! p = Some q /\
    gave_up me p (<[p := set_context (mkContext AtYield i) (set_state RUNNABLE q)]> (s_procs s)) s s'.
Proof.
  intros Hm Hme H. assert (Hc : cpu_ok c) by (by eapply Hm). pose proof (pushed_inside c Hc) as Hn.
  apply bind_Ok_inv in H as ([] & s1 & Ha & H).
  apply (acq_sto me s c) in Ha as (Hfree & -> & Hs); [|done..].
  apply bind_Ok_inv in H as (p & s2 & H2 & H).
  apply (curproc_inside me _ _ (pushed c)) in H2 as [Hp ->]; [|apply Hs|by eapply sto_cpu|done].
  apply bind_Ok_inv in H as ([] & s3 & (q & Hq & ->)%upd_Ok & H). cbn [set_mach s_procs] in *.
  eapply (sched_sto me _ s _ s' c (pushed c)) in H; [|done|done|done|by eapply sto_set_procs].
  destruct H as (p' & k & q' & i & c' & Hp' & Hk & Hq' & Hin & Hnp & Hs').
  replace p' with p in * by congruence.
  rewrite list_lookup_insert_eq in Hq' by (by eapply lookup_lt_Some). injection Hq' as <-.
  exists p, q, i. rewrite list_insert_insert_eq in Hs'. split; [done|]. split; [done|]. by exists c, k, c'.
Qed.

(** ** Other locks *)

Lemma release_other me l (s s1 s2 : sys) c d lk ps : l <> ptable_lock ->
  m_cpus (s_mach s) !! me = Some d -> sto me c lk ps s s1 -> onm (release me l) s1 = Ok tt s2 ->
  c_if c = false /\ 1 <= c_ncli c /\ s_nextpid s2 = s_nextpid s1 /\ s_procs s2 = s_procs s1 /\
  sto me (popped c) lk ps s s2.
Proof.
  intros Hl Hme Hs (m & Hr & ->)%onm_Ok. assert (H1 := sto_cpu _ _ _ _ _ _ _ Hme Hs).
  destruct Hs as [(Hok & Hcs & Hlk) Hcpus Hl0 Hps Hi].
  destruct (m_locks (s_mach s1) !! l) as [lk'|] eqn:El.
  2:{ revert Hr. unfold release, bind at 1. by rewrite (holding_none me l _ c Hok H1 El). }
  destruct (release_ok_inv me l _ c lk' m Hok H1 (Hcs _ _ H1) El Hr) as (Hh & Hif & Hn).
  rewrite (release_run me l _ c lk' Hok H1 Hif Hn El), Hh in Hr. injection Hr as <-.
  repeat (split; [done|]). split; cbn; try done.
  - apply mach_ok_lock; [|by left]. eapply mach_ok_cpu; [done|done|done|by apply popped_ok].
  - by rewrite Hcpus, list_insert_insert_eq.
  - by rewrite lookup_insert_ne.
Qed.

Lemma acquire_other me l (s s2 : sys) c lk0 : l <> ptable_lock -> mach_ok (s_mach s) ->
  m_cpus (s_mach s) !! me = Some c -> m_locks (s_mach s) !! ptable_lock = Some lk0 ->
  onm (acquire me l) s = Ok tt s2 ->
  s_nextpid s2 = s_nextpid s /\ sto me (pushed c) lk0 (s_procs s) s s2.
Proof.
  intros Hl (Hok & Hcs & Hlk) Hme Hl0 (m & Ha & ->)%onm_Ok. assert (Hc := Hcs _ _ Hme).
  destruct (m_locks (s_mach s) !! l) as [lk'|] eqn:El.
  2:{ revert Ha. unfold acquire. rewrite (bind_run _ _ _ _ _ (pushcli_run _ _ _ Hok Hme)).
      unfold bind at 1. rewrite holding_none with (c := pushed c); [done|..|done].
      - by eapply cpus_ok_put.
      - by eapply put_cpu_lookup. }
  rewrite (acquire_run me l _ c lk' Hok Hme Hc El) in Ha. destruct (held_by _ _); [done|].
  destruct (negb _); [done|]. injection Ha as <-. split; [done|]. split; cbn; try done.
  - apply mach_ok_lock; [|right; by eexists]. eapply mach_ok_cpu; [done|done|done|by apply pushed_ok].
  - by rewrite lookup_insert_ne.
Qed.

(** ** sleep, wakeup, kill *)

(** A summary from an earlier state *)
Lemma sto_base me c lk ps (s s1 s2 : sys) d : m_cpus (s_mach s1) = <[me := d]> (m_cpus (s_mach s)) ->
  s_initproc s1 = s_initproc s -> sto me c lk ps s1 s2 -> sto me c lk ps s s2.
Proof.
  intros Hcs Hi [? Hcs' ? ? Hi']. split; try done; [|congruence]. by rewrite Hcs', Hcs, list_insert_insert_eq.
Qed.

Lemma myproc_inside me (s1 s2 : sys) c o : mach_ok (s_mach s1) -> m_cpus (s_mach s1) !! me = Some c ->
  1 <= c_ncli c -> onm (myproc me) s1 = Ok o s2 -> o = c_proc c /\ s2 = s1.
Proof.
  intros (Hok & Hcs & _) Hme Hn (m & H & ->)%onm_Ok. rewrite (myproc_run me _ c Hok Hme (Hcs _ _ Hme)) in H.
  injection H as <- <-. by rewrite touched_inner, put_cpu_id, set_mach_id.
Qed.

(** The end of sleep: the channel and the state are set, and sched is called. *)
Definition asleep (at_ : point) (ch : option chan) (i : Z) (q : proc) : proc :=
  set_context (mkContext at_ i) (set_state SLEEPING (set_chan ch q)).

Lemma sleep_tail me ch at_ (s s1 s' : sys) c c1 p ps :
  m_cpus (s_mach s) !! me = Some c -> c_if c1 = false -> 1 <= c_ncli c1 ->
  sto me c1 (mkLock 1 (Some me)) ps s s1 -> c_proc c1 = Some p ->
  (upd p (set_chan ch) ;; upd p (set_state SLEEPING) ;; sched me at_) s1 = Ok tt s' ->
  exists k q i c', c_scheduler c1 = Some k /\ ps !! p = Some q /\ in_loop (S k) c' /\
    s_nextpid s' = s_nextpid s1 /\ sto me c' (mkLock 1 (Some me)) (<[p := asleep at_ ch i q]> ps) s s'.
Proof.
  intros Hme Hif Hn Hs Hp H. pose proof (sto_procs _ _ _ _ _ _ Hs) as <-.
  apply bind_Ok_inv in H as ([] & s2 & (q & Hq & ->)%upd_Ok & H).
  apply bind_Ok_inv in H as ([] & s3 & (q' & Hq' & ->)%upd_Ok & H).
  cbn [set_procs s_procs] in Hq', H. assert (Hlt := lookup_lt_Some _ _ _ Hq).
  rewrite list_lookup_insert_eq in Hq' by done. injection Hq' as <-.
  rewrite list_insert_insert_eq in H.
  change (set_procs ?x (set_procs ?y s1)) with (set_procs x s1) in H.
  eapply (sched_sto me at_ s _ s' c c1) in H; [|done|done|done|by eapply sto_set_procs].
  destruct H as (p' & k & q' & i & c' & Hp' & Hk & Hq' & Hin & Hnp & Hs').
  replace p' with p in * by congruence.
  rewrite list_lookup_insert_eq in Hq' by done. injection Hq' as <-.
  rewrite list_insert_insert_eq in Hs'. by exists k, q, i, c'.
Qed.

Lemma sleep_inside me ch at_ (s s1 s' : sys) c c1 ps :
  m_cpus (s_mach s) !! me = Some c -> c_if c1 = false -> 1 <= c_ncli c1 ->
  sto me c1 (mkLock 1 (Some me)) ps s s1 -> sleep me ch ptable_lock at_ s1 = Ok tt s' ->
  exists p k q i c', c_proc c1 = Some p /\ c_scheduler c1 = Some k /\ ps !! p = Some q /\ in_loop (S k) c' /\
    s_nextpid s' = s_nextpid s1 /\ sto me c' (mkLock 1 (Some me)) (<[p := asleep at_ ch i q]> ps) s s'.
Proof.
  intros Hme Hif Hn Hs H. unfold sleep in H.
  apply bind_Ok_inv in H as (o & s2 & Ho & H).
  apply (myproc_inside me _ _ c1) in Ho as [-> ->]; [|apply Hs|by eapply sto_cpu|done].
  destruct (c_proc c1) as [p|] eqn:Ep; [|done]. change (negb (ptable_lock =? ptable_lock)) with false in H.
  cbn [whenM] in H. rewrite bind_ret_l in H.
  eapply (sleep_tail me ch at_ s s1 s' c c1 p) in H as (k & q & i & c' & Hk); try done.
  exists p, k, q, i, c'. done.
Qed.

Lemma sleep_Ok me ch lk (s : sys) c s' : lk <> ptable_lock -> mach_ok (s_mach s) ->
  m_cpus (s_mach s) !! me = Some c -> 1 <= c_ncli c -> sleep me ch lk (AtSleep lk) s = Ok tt s' ->
  exists p q i, c_proc c = Some p /\ s_procs s !! p = Some q /\
    gave_up me p (<[p := asleep (AtSleep lk) ch i q]> (s_procs s)) s s'.
Proof.
  intros Hlk Hm Hme Hn H. unfold sleep in H. apply bind_Ok_inv in H as (o & s2 & Ho & H).
  apply (myproc_inside me _ _ c) in Ho as [-> ->]; [|done..].
  destruct (c_proc c) as [p|] eqn:Ep; [|done]. rewrite (proj2 (Z.eqb_neq _ _) Hlk) in H. cbn [negb whenM] in H.
  apply bind_Ok_inv in H as ([] & s3 & H3 & H). apply bind_Ok_inv in H3 as ([] & s1 & Ha & Hr).
  apply (acq_sto me s c) in Ha as (Hfree & -> & Hs); [|done..].
  apply (release_other me lk s _ s3 (pushed c) c (mkLock 1 (Some me)) (s_procs s)) in Hr
    as (_ & _ & Hnp & _ & Hs3); [|done..].
  eapply (sleep_tail me ch _ s s3 s' c (popped (pushed c)) p) in H
    as (k & q & i & c' & Hk & Hq & Hin & Hnp' & Hs'); try done.
  - cbn in Hnp. exists p, q, i. split; [done|]. split; [done|]. exists c, k, c'. repeat (split; [done || congruence|]). done.
  - cbn. by rewrite (proj2 (Z.eqb_neq _ _)) by lia.
  - cbn. lia.
Qed.

Lemma wakeup_Ok me ch (s : sys) c s' : mach_ok (s_mach s) -> m_cpus (s_mach s) !! me = Some c ->
  wakeup me ch s = Ok tt s' ->
  stayed me (wake ch <$> s_procs s) s s' /\ s_nextpid s' = s_nextpid s.
Proof.
  intros Hm Hme H. apply bind_Ok_inv in H as ([] & s1 & Ha & H).
  apply (acq_sto me s c) in Ha as (Hfree & -> & Hs); [|done..].
  apply bind_Ok_inv in H as ([] & s2 & [= <-] & H).
  eapply rel_sto in H as (_ & _ & _ & Hnp & Hs2); [|done|by eapply sto_set_procs].
  split; [|done]. by exists c, (popped (pushed c)).
Qed.

Lemma kill_Ok me pid (s : sys) c s' r : mach_ok (s_mach s) -> m_cpus (s_mach s) !! me = Some c ->
  kill me pid s = Ok r s' -> s_nextpid s' = s_nextpid s /\
  match find_pid pid (s_procs s) with
  | Some i => exists q, r = 0 /\ s_procs s !! i = Some q /\ stayed me (<[i := kill_proc q]> (s_procs s)) s s'
  | None => r = -1 /\ stayed me (s_procs s) s s'
  end.
Proof.
  intros Hm Hme H. apply bind_Ok_inv in H as ([] & s1 & Ha & H).
  apply (acq_sto me s c) in Ha as (Hfree & -> & Hs); [|done..]. rewrite gets_bind in H.
  change (s_procs (set_mach _ s)) with (s_procs s) in H. destruct (find_pid pid (s_procs s)) as [i|].
  - apply bind_Ok_inv in H as ([] & s2 & (q & Hq & ->)%upd_Ok & H).
    apply bind_Ok_inv in H as ([] & s3 & H & [= <- <-]).
    eapply rel_sto in H as (_ & _ & _ & Hnp & Hs2); [|done|by eapply sto_set_procs].
    split; [done|]. exists q. split; [done|]. split; [done|]. by exists c, (popped (pushed c)).
  - apply bind_Ok_inv in H as ([] & s3 & H & [= <- <-]).
    eapply rel_sto in H as (_ & _ & _ & Hnp & Hs2); [|done|done].
    split; [done|]. split; [done|]. by exists c, (popped (pushed c)).
Qed.

(** ** fork *)

Lemma allocproc_find_Ok me (s : sys) c s' r : mach_ok (s_mach s) -> m_cpus (s_mach s) !! me = Some c ->
  allocproc_find me s = Ok r s' -> r = find_unused (s_procs s) /\
  match r with
  | Some i => exists q, s_procs s !! i = Some q /\ s_nextpid s' = s32 (s_nextpid s + 1) /\
      stayed me (<[i := set_pid (s_nextpid s) (set_state EMBRYO q)]> (s_procs s)) s s'
  | None => s_nextpid s' = s_nextpid s /\ stayed me (s_procs s) s s'
  end.
Proof.
  intros Hm Hme H. apply bind_Ok_inv in H as ([] & s1 & Ha & H).
  apply (acq_sto me s c) in Ha as (Hfree & -> & Hs); [|done..]. rewrite gets_bind in H.
  change (s_procs (set_mach _ s)) with (s_procs s) in H. destruct (find_unused (s_procs s)) as [i|].
  - apply bind_Ok_inv in H as ([] & s2 & (q & Hq & ->)%upd_Ok & H). rewrite gets_bind in H.
    apply bind_Ok_inv in H as ([] & s3 & (q' & Hq' & ->)%upd_Ok & H).
    apply bind_Ok_inv in H as ([] & s4 & [= <-] & H). apply bind_Ok_inv in H as ([] & s5 & H & [= <- <-]).
    cbn in Hq, Hq'. rewrite list_lookup_insert_eq in Hq' by (by eapply lookup_lt_Some). injection Hq' as <-.
    split; [done|]. exists q. split; [done|].
    eapply (rel_sto me s) in H as (_ & _ & _ & Hnp & Hs2); [|done|].
    2:{ destruct Hs. by split; [..|cbn; reflexivity|]. }
    split; [done|]. cbn in Hs2. rewrite list_insert_insert_eq in Hs2. by exists c, (popped (pushed c)).
  - apply bind_Ok_inv in H as ([] & s3 & H & [= <- <-]).
    eapply rel_sto in H as (_ & _ & _ & Hnp & Hs2); [|done|done].
    split; [done|]. split; [done|]. by exists c, (popped (pushed c)).
Qed.

(** Only the entry [np] changes, from [q] to [q'] (and memory and files). *)
Definition edit (np : nat) (q q' : proc) (s s' : sys) : Prop :=
  s_procs s !! np = Some q /\ exists v, s' = set_env v (set_procs (<[np := q']> (s_procs s)) s).

Lemma upd_edit np f (s s' : sys) : upd np f s = Ok tt s' -> exists q, edit np q (f q) s s'.
Proof. intros (q & Hq & ->)%upd_Ok. exists q. split; [done|]. exists (s_env s). by destruct s. Qed.

Lemma one_edit {A} np q (m : M V A) (s s' : sys) a : s_procs s !! np = Some q -> one m s = Ok a s' -> edit np q q s s'.
Proof.
  intros Hq (v & ->)%one_Ok. split; [done|]. exists v. rewrite list_insert_id by done. by destruct s.
Qed.

Lemma edit_refl np q (s : sys) : s_procs s !! np = Some q -> edit np q q s s.
Proof. intros Hq. split; [done|]. exists (s_env s). rewrite list_insert_id by done. by destruct s. Qed.

Lemma edit_lookup np q q' (s s' : sys) : edit np q q' s s' -> s_procs s' !! np = Some q'.
Proof. intros [Hq (v & ->)]. cbn. apply list_lookup_insert_eq. by eapply lookup_lt_Some. Qed.

Lemma edit_ne np q q' (s s' : sys) j : edit np q q' s s' -> j <> np -> s_procs s' !! j = s_procs s !! j.
Proof. intros [Hq (v & ->)] Hj. cbn. by apply list_lookup_insert_ne. Qed.

Lemma edit_trans np q q1 q1' q2 (s s1 s2 : sys) :
  edit np q q1 s s1 -> edit np q1' q2 s1 s2 -> q1' = q1 /\ edit np q q2 s s2.
Proof.
  intros H1 [Hq1 (v & ->)]. rewrite (edit_lookup _ _ _ _ _ H1) in Hq1. injection Hq1 as ->.
  split; [done|]. destruct H1 as [Hq (v1 & ->)]. split; [done|]. exists v. cbn.
  by rewrite list_insert_insert_eq.
Qed.

Lemma edit_upd np f q q1 (s s1 s2 : sys) : edit np q q1 s s1 -> upd np f s1 = Ok tt s2 -> edit np q (f q1) s s2.
Proof. intros H1 (q' & H2)%upd_edit. by destruct (edit_trans _ _ _ _ _ _ _ _ H1 H2) as [-> ?]. Qed.

Lemma edit_one {A} np q q1 (m : M V A) a (s s1 s2 : sys) :
  edit np q q1 s s1 -> one m s1 = Ok a s2 -> edit np q q1 s s2.
Proof.
  intros H1 H2. apply (one_edit np q1) in H2; [|by eapply edit_lookup].
  by destruct (edit_trans _ _ _ _ _ _ _ _ H1 H2).
Qed.

(** The fields of a process that fork does not write while it builds one *)
Definition same_id (q q' : proc) : Prop :=
  p_pid q' = p_pid q /\ p_chan q' = p_chan q /\ p_killed q' = p_killed q.

Lemma dup_files_Ok np fs : forall i q q1 (s s1 s2 : sys), edit np q q1 s s1 ->
  dup_files np i fs s1 = Ok tt s2 -> exists l, edit np q (set_ofile l q1) s s2.
Proof.
  induction fs as [|[f|] fs IH]; intros i q q1 s s1 s2 He H; cbn [dup_files] in H.
  - injection H as <-. exists (p_ofile q1). by destruct q1.
  - apply bind_Ok_inv in H as (g & s3 & H3 & H). apply bind_Ok_inv in H as ([] & s4 & H4 & H).
    eapply edit_one in H3; [|done]. eapply edit_upd in H4; [|done]. eapply IH in H4 as [l Hl]; [|done]. by exists l.
  - by eapply IH.
Qed.

(** What fork leaves in the new entry when it fails and when it succeeds *)
Definition fork_failed (q q' : proc) : Prop :=
  p_state q' = UNUSED /\ p_kstack q' = 0 /\ p_parent q' = p_parent q /\ same_id q q'.
Definition fork_built (cur : nat) (p q q' : proc) : Prop :=
  p_kstack q' <> 0 /\ p_pgdir q' <> 0 /\ p_sz q' = p_sz p /\ p_parent q' = Some cur /\
  p_tf q' = <[7%nat := 0]> (p_tf p) /\ ctx_eip (p_context q') = AtForkret /\ p_state q' = p_state q /\ same_id q q'.

Lemma allocproc_stack_Ok np (s s' : sys) r : allocproc_stack np s = Ok r s' ->
  exists q q', edit np q q' s s' /\
    match r with
    | None => fork_failed q q'
    | Some i => i = np /\ p_kstack q' <> 0 /\ ctx_eip (p_context q') = AtForkret /\ p_state q' = p_state q /\
        p_parent q' = p_parent q /\ same_id q q'
    end.
Proof.
  intros H. apply bind_Ok_inv in H as (k & s1 & H1 & H). apply bind_Ok_inv in H as ([] & s2 & H2 & H).
  apply upd_edit in H2 as (q & H2). assert (Hq : s_procs s !! np = Some q).
  { apply one_Ok in H1 as (v & ->). apply H2. }
  apply (one_edit np q) in H1; [|done]. destruct (edit_trans _ _ _ _ _ _ _ _ H1 H2) as [_ H2'].
  destruct (Z.eqb_spec k 0) as [->|Hk]; apply bind_Ok_inv in H as ([] & s3 & H3 & H);
    eapply edit_upd in H3; [|done| |done].
  - injection H as <- <-. exists q, (set_state UNUSED (set_kstack 0 q)). done.
  - apply bind_Ok_inv in H as ([] & s4 & H4 & [= <- <-]). eapply edit_upd in H4; [|done].
    eexists q, _. split; [done|]. done.
Qed.

Lemma fork_copy_Ok cur np p q0 q (s0 s s' : sys) r : cur <> np -> s_procs s !! cur = Some p ->
  edit np q0 q s0 s -> p_kstack q <> 0 -> ctx_eip (p_context q) = AtForkret -> fork_copy cur np s = Ok r s' ->
  exists q', edit np q0 q' s0 s' /\
    match r with
    | None => fork_failed q q'
    | Some pid => pid = p_pid q /\ fork_built cur p q q'
    end.
Proof.
  intros Hne Hp He Hks Hctx H. unfold fork_copy in H. rewrite (bind_run _ _ _ _ _ (proc_at_run _ _ _ Hp)) in H.
  apply bind_Ok_inv in H as (pg & s1 & H1 & H). eapply edit_one in H1; [|exact He].
  apply bind_Ok_inv in H as ([] & s2 & H2 & H). eapply edit_upd in H2; [|exact H1].
  destruct (Z.eqb_spec pg 0) as [->|Hpg].
  - apply bind_Ok_inv in H as (q1 & s3 & [H3 ->]%proc_at_Ok & H).
    apply bind_Ok_inv in H as ([] & s4 & H4 & H). eapply edit_one in H4; [|exact H2].
    apply bind_Ok_inv in H as ([] & s5 & H5 & H). eapply edit_upd in H5; [|exact H4].
    apply bind_Ok_inv in H as ([] & s6 & H6 & [= <- <-]). eapply edit_upd in H6; [|exact H5].
    eexists. split; [exact H6|]. done.
  - apply bind_Ok_inv in H as ([] & s3 & H3 & H). eapply edit_upd in H3; [|exact H2].
    apply bind_Ok_inv in H as ([] & s4 & H4 & H). eapply edit_upd in H4; [|exact H3].
    apply bind_Ok_inv in H as ([] & s5 & H5 & H). eapply edit_upd in H5; [|exact H4].
    apply bind_Ok_inv in H as ([] & s6 & H6 & H). eapply dup_files_Ok in H6 as [l H6]; [|exact H5].
    apply bind_Ok_inv in H as (cwd & s7 & H7 & H). destruct (p_cwd p); [|done]. injection H7 as <- <-.
    apply bind_Ok_inv in H as (d & s8 & H8 & H). eapply edit_one in H8; [|exact H6].
    apply bind_Ok_inv in H as ([] & s9 & H9 & H). eapply edit_upd in H9; [|exact H8].
    apply bind_Ok_inv in H as (nm & s10 & H10 & H). destruct (CString.safestrcpy _ _); [|done].
    injection H10 as <- <-. apply bind_Ok_inv in H as ([] & s11 & H11 & H). eapply edit_upd in H11; [|exact H9].
    apply bind_Ok_inv in H as (q2 & s12 & [H12 ->]%proc_at_Ok & [= <- <-]).
    rewrite (edit_lookup _ _ _ _ _ H11) in H12. injection H12 as <-.
    eexists. split; [exact H11|]. done.
Qed.

(** fork after allocproc_find: the entry goes back to UNUSED, or it becomes a
    RUNNABLE child of [cur]. *)
Lemma fork_rest_Ok me cur np p q (s s' : sys) c r : mach_ok (s_mach s) -> m_cpus (s_mach s) !! me = Some c ->
  cur <> np -> s_procs s !! cur = Some p -> s_procs s !! np = Some q -> fork_rest me cur np s = Ok r s' ->
  s_nextpid s' = s_nextpid s /\
  ((exists q', r = -1 /\ edit np q q' s s' /\ fork_failed q q') \/
   (exists q', r = p_pid q /\ fork_built cur p q q' /\
     stayed me (<[np := set_state RUNNABLE q']> (s_procs s)) s s')).
Proof.
  intros Hm Hme Hne Hp Hq H. apply bind_Ok_inv in H as (o & s1 & H1 & H).
  apply allocproc_stack_Ok in H1 as (qx & q1 & H1 & Ho). assert (qx = q) as -> by (destruct H1; congruence).
  destruct o as [i|].
  2:{ injection H as <- <-. split; [by destruct H1 as [_ (v & ->)]|]. left. by exists q1. }
  destruct Ho as (-> & Hks & Hctx & Hst & Hpar & Hid). apply bind_Ok_inv in H as (o & s2 & H2 & H).
  assert (Hp1 : s_procs s1 !! cur = Some p) by (by rewrite (edit_ne _ _ _ _ _ _ H1)).
  apply (fork_copy_Ok cur np p q q1 s) in H2 as (q2 & H2 & Ho); [|done..].
  assert (Hid2 : forall q', same_id q1 q' -> same_id q q') by (unfold same_id in *; intuition congruence).
  destruct o as [pid|].
  - destruct Ho as (-> & Hb). apply bind_Ok_inv in H as ([] & s3 & H3 & [= <- <-]).
    apply bind_Ok_inv in H3 as ([] & s4 & H4 & H3). destruct H2 as [_ (v & ->)].
    eapply (acq_sto me _ c) in H4 as (Hfree & -> & Hs); [|done..].
    apply bind_Ok_inv in H3 as ([] & s5 & (q3 & Hq3 & ->)%upd_Ok & H3). cbn in Hq3.
    rewrite list_lookup_insert_eq in Hq3 by (by eapply lookup_lt_Some). injection Hq3 as <-. cbn in H3.
    rewrite list_insert_insert_eq in H3.
    eapply (rel_sto me s) in H3 as (_ & _ & _ & Hnp & Hs2); [|done|].
    2:{ destruct Hs. by split; [..|cbn; reflexivity|]. }
    split; [done|]. right. exists q2. split; [apply Hid|]. split; [|by exists c, (popped (pushed c))].
    unfold fork_built in *. rewrite <- Hst. intuition.
  - injection H as <- <-. split; [by destruct H2 as [_ (v & ->)]|]. left. exists q2.
    split; [done|]. split; [done|]. unfold fork_failed in *. rewrite <- Hpar. intuition.
Qed.

(** ** exit *)

(** exit's loop over the table, as a function *)
Fixpoint reparent_list (cur : nat) (init : option nat) (fuel i : nat) (ps : list proc) : list proc :=
  match fuel with
  | O => ps
  | S fuel' =>
      match ps !! i with
      | None => ps
      | Some p =>
          reparent_list cur init fuel' (S i)
            (if bool_decide (p_parent p = Some cur) then
               let ps1 := <[i := set_parent init p]> ps in
               if bool_decide (p_state p = ZOMBIE) then wake (ChProc <$> init) <$> ps1 else ps1
             else ps)
      end
  end.

Lemma reparent_Ok cur init fuel : forall i (s s' : sys), reparent cur init fuel i s = Ok tt s' ->
  s' = set_procs (reparent_list cur init fuel i (s_procs s)) s.
Proof.
  induction fuel as [|fuel IH]; intros i s s' H; cbn [reparent reparent_list] in *.
  { injection H as <-. by rewrite set_procs_id. }
  apply bind_Ok_inv in H as (p & s1 & [Hp ->]%proc_at_Ok & H). rewrite Hp.
  apply bind_Ok_inv in H as ([] & s2 & H2 & H). apply IH in H as ->.
  destruct (bool_decide (p_parent p = Some cur)); cbn [whenM] in H2.
  - apply bind_Ok_inv in H2 as ([] & s3 & (q & Hq & ->)%upd_Ok & H2).
    assert (q = p) as -> by congruence.
    destruct (bool_decide (p_state p = ZOMBIE)); cbn [whenM] in H2; by injection H2 as <-.
  - by injection H2 as <-.
Qed.

(** A process that may have been woken from [ch] *)
Definition maybe_woken (ch : option chan) (q q' : proc) : Prop := q' = q \/ q' = wake ch q.

Lemma wake_idem ch q : wake ch (wake ch q) = wake ch q.
Proof.
  unfold wake. destruct (bool_decide (p_state q = SLEEPING) && bool_decide (p_chan q = ch)) eqn:E; [|by rewrite E].
  cbn. done.
Qed.

Lemma wake_parent ch q init : wake ch (set_parent init q) = set_parent init (wake ch q).
Proof. unfold wake. cbn [set_parent p_state p_chan]. by destruct (_ && _). Qed.

Lemma wake_fields ch q : p_parent (wake ch q) = p_parent q /\ p_chan (wake ch q) = p_chan q /\
  p_pid (wake ch q) = p_pid q /\ p_kstack (wake ch q) = p_kstack q /\ p_context (wake ch q) = p_context q /\
  (p_state (wake ch q) = p_state q \/ (p_state q = SLEEPING /\ p_chan q = ch /\ p_state (wake ch q) = RUNNABLE)).
Proof.
  unfold wake. destruct (bool_decide (p_state q = SLEEPING)) eqn:E1, (bool_decide (p_chan q = ch)) eqn:E2;
    cbn; repeat (split; [done|]); auto.
  apply bool_decide_eq_true in E1, E2. by right.
Qed.

Lemma wake_awake ch q : ~ (p_state (wake ch q) = SLEEPING /\ p_chan (wake ch q) = ch).
Proof.
  unfold wake. destruct (bool_decide (p_state q = SLEEPING)) eqn:E1, (bool_decide (p_chan q = ch)) eqn:E2; cbn;
    intros [H1 H2]; try done; apply bool_decide_eq_false in E1 || apply bool_decide_eq_false in E2; done.
Qed.

(** One round: the entry at [i] *)
Lemma reparent_one cur init i p ps ps1 : ps !! i = Some p ->
  ps1 = (if bool_decide (p_parent p = Some cur) then
      let ps1 := <[i := set_parent init p]> ps in
      if bool_decide (p_state p = ZOMBIE) then wake (ChProc <$> init) <$> ps1 else ps1
    else ps) ->
  length ps1 = length ps /\
  forall j q1, ps1 !! j = Some q1 -> exists q, ps !! j = Some q /\
    maybe_woken (ChProc <$> init)
      (if decide (j = i) then (if bool_decide (p_parent q = Some cur) then set_parent init q else q) else q) q1.
Proof.
  intros Hp ->. assert (Hi : (i < length ps)%nat) by (by eapply lookup_lt_Some). split.
  { destruct (bool_decide _); [|done]. cbn zeta.
    destruct (bool_decide (p_state p = ZOMBIE)); by rewrite ?length_fmap, ?length_insert. }
  intros j q1. destruct (bool_decide (p_parent p = Some cur)) eqn:Ep; cbn zeta.
  - destruct (bool_decide (p_state p = ZOMBIE)); rewrite ?list_lookup_fmap;
      (destruct (decide (j = i)) as [->|Hj];
        [rewrite list_lookup_insert_eq by lia; intros [= <-]; exists p; rewrite Ep; split; [done|]
        |rewrite list_lookup_insert_ne by done]).
    + by right.
    + destruct (ps !! j) as [q|] eqn:E; [|done]. intros [= <-]. exists q. split; [done|]. by right.
    + by left.
    + intros E. exists q1. split; [done|]. by left.
  - intros E. exists q1. split; [done|]. left. destruct (decide (j = i)) as [->|]; [|done].
    assert (q1 = p) as -> by congruence. by rewrite Ep.
Qed.

(** What the loop does to each entry, and whom it wakes *)
Lemma reparent_list_spec cur init fuel : forall i ps, (i + fuel <= length ps)%nat ->
  length (reparent_list cur init fuel i ps) = length ps /\
  (forall j q', reparent_list cur init fuel i ps !! j = Some q' -> exists q, ps !! j = Some q /\
     maybe_woken (ChProc <$> init)
       (if decide (i <= j < i + fuel)%nat then
          (if bool_decide (p_parent q = Some cur) then set_parent init q else q) else q) q') /\
  ((exists z q, (i <= z < i + fuel)%nat /\ ps !! z = Some q /\ p_parent q = Some cur /\ p_state q = ZOMBIE) ->
   forall j q', reparent_list cur init fuel i ps !! j = Some q' ->
     ~ (p_state q' = SLEEPING /\ p_chan q' = ChProc <$> init)).
Proof.
  induction fuel as [|fuel IH]; intros i ps Hlen; cbn [reparent_list].
  { split; [done|]. split.
    - intros j q' Hq. exists q'. split; [done|]. rewrite decide_False by lia. by left.
    - intros (z & q & Hz & _). lia. }
  destruct (lookup_lt_is_Some_2 ps i ltac:(lia)) as [p Hp]. rewrite Hp.
  set (ps1 := if bool_decide (p_parent p = Some cur) then _ else ps).
  destruct (reparent_one cur init i p ps ps1 Hp eq_refl) as [Hl1 Hps1].
  destruct (IH (S i) ps1) as (IH1 & IH2 & IH3); [rewrite Hl1; lia|]. split; [congruence|].
  split.
  - intros j q' Hq'. destruct (IH2 j q' Hq') as (q1 & Hq1 & Hw). destruct (Hps1 j q1 Hq1) as (q & Hq & Hw1).
    exists q. split; [done|].
    assert (Hpp : p_parent q1 = p_parent (if decide (j = i) then
        (if bool_decide (p_parent q = Some cur) then set_parent init q else q) else q)).
    { destruct Hw1 as [->| ->]; [done|]. apply wake_fields. }
    destruct (decide (j = i)) as [->|Hj].
    + rewrite decide_False in Hw by lia. rewrite decide_True by lia.
      destruct Hw as [->| ->]; [done|]. right. destruct Hw1 as [->| ->]; [done|]. by rewrite wake_idem.
    + destruct (decide (S i <= j < S i + fuel)%nat).
      * rewrite decide_True by lia. rewrite Hpp in Hw.
        destruct (bool_decide (p_parent q = Some cur)), Hw as [->| ->], Hw1 as [->| ->];
          unfold maybe_woken; rewrite ?wake_parent, ?wake_idem; auto.
      * rewrite decide_False by lia. destruct Hw as [->| ->]; [done|]. right.
        destruct Hw1 as [->| ->]; [done|]. by rewrite wake_idem.
  - intros (z & q & Hz & Hq & Hpar & Hst) j q' Hq'.
    destruct (decide (z = i)) as [->|Hzi].
    + assert (q = p) as -> by congruence. destruct (IH2 j q' Hq') as (q1 & Hq1 & Hw).
      assert (Haw : ~ (p_state q1 = SLEEPING /\ p_chan q1 = ChProc <$> init)).
      { revert Hq1. unfold ps1. rewrite (bool_decide_true (p_parent p = _)), (bool_decide_true (p_state p = _)) by done.
        cbn zeta. rewrite list_lookup_fmap. destruct (<[i:=_]> ps !! j) as [x|]; [|done]. intros [= <-]. apply wake_awake. }
      destruct Hw as [->| ->]; [|apply wake_awake]. destruct (decide _); [|done].
      by destruct (bool_decide (p_parent q1 = Some cur)).
    + refine (IH3 _ j q' Hq'). destruct (lookup_lt_is_Some_2 ps1 z) as [q1 Hq1].
      { rewrite Hl1. by eapply lookup_lt_Some. }
      destruct (Hps1 z q1 Hq1) as (q2 & Hq2 & Hw). rewrite decide_False in Hw by done.
      assert (q2 = q) as -> by congruence. exists z, q1. split; [lia|]. split; [done|].
      destruct Hw as [->| ->]; [done|]. destruct (wake_fields (ChProc <$> init) q) as (-> & _ & _ & _ & _ & Hw).
      split; [done|]. destruct Hw as [->|(Hsl & _)]; congruence.
Qed.

(** The fields that closing the files of a process leaves alone *)
Definition same_sched (q q' : proc) : Prop :=
  p_state q' = p_state q /\ p_parent q' = p_parent q /\ p_kstack q' = p_kstack q /\ same_id q q'.

Lemma close_files_Ok cur fs : forall i q q1 (s s1 s2 : sys), edit cur q q1 s s1 ->
  close_files cur i fs s1 = Ok tt s2 -> exists l, edit cur q (set_ofile l q1) s s2.
Proof.
  induction fs as [|[f|] fs IH]; intros i q q1 s s1 s2 He H; cbn [close_files] in H.
  - injection H as <-. exists (p_ofile q1). by destruct q1.
  - apply bind_Ok_inv in H as (g & s3 & H3 & H). apply bind_Ok_inv in H as ([] & s4 & H4 & H).
    eapply edit_one in H3; [|done]. eapply edit_upd in H4; [|done]. eapply IH in H4 as [l Hl]; [|done]. by exists l.
  - by eapply IH.
Qed.

(** The table that exit leaves to sched: the parent has been woken, the
    children are init's, and the process is a zombie. *)
Definition exit_table (n p : nat) (init : option nat) (ps : list proc) (q1 : proc) : list proc :=
  reparent_list p init n 0 (wake (ChProc <$> p_parent q1) <$> <[p := q1]> ps).

Lemma exit_Ok me (s : sys) c s' : mach_ok (s_mach s) -> m_cpus (s_mach s) !! me = Some c ->
  exit me s = Ok tt s' ->
  exists p q q1 q2 i, c_proc c = Some p /\ s_initproc s <> Some p /\ s_procs s !! p = Some q /\ same_sched q q1 /\
    exit_table (Z.to_nat NPROC) p (s_initproc s) (s_procs s) q1 !! p = Some q2 /\
    gave_up me p (<[p := set_context (mkContext AtExit i) (set_state ZOMBIE q2)]>
                    (exit_table (Z.to_nat NPROC) p (s_initproc s) (s_procs s) q1)) s s'.
Proof.
  intros Hm Hme H. assert (Hc : cpu_ok c) by (by eapply Hm). unfold exit, exit_zombie in H. unfold exit_table.
  generalize dependent (Z.to_nat NPROC). intros n H.
  apply bind_Ok_inv in H as (p & s1 & H1 & H). apply (curproc_Ok me s c) in H1 as [Hp ->]; [|done..].
  rewrite gets_bind in H. cbn [set_mach s_initproc] in H. case_bool_decide as Hinit; [done|].
  set (s1 := set_mach _ s) in *. apply bind_Ok_inv in H as (q & s2 & [Hq ->]%proc_at_Ok & H).
  apply bind_Ok_inv in H as ([] & s3 & H3 & H).
  eapply (close_files_Ok p _ 0 q q s1 s1) in H3 as [l H3]; [|by apply edit_refl].
  apply bind_Ok_inv in H as ([] & s4 & H4 & H). eapply edit_one in H4; [|exact H3].
  apply bind_Ok_inv in H as (d & s5 & H5 & H). destruct (p_cwd q); [|done]. injection H5 as <- <-.
  apply bind_Ok_inv in H as ([] & s6 & H6 & H). eapply edit_one in H6; [|exact H4].
  apply bind_Ok_inv in H as ([] & s7 & H7 & H). eapply edit_one in H7; [|exact H6].
  apply bind_Ok_inv in H as ([] & s8 & H8 & H). eapply edit_upd in H8; [|exact H7].
  set (q1 := set_cwd None _) in H8. destruct H8 as [_ (v & ->)].
  set (s9 := set_env v _) in H. apply bind_Ok_inv in H as ([] & s10 & H10 & H).
  assert (Hm9 : mach_ok (s_mach s9)).
  { eapply mach_ok_cpu; [done|done|apply touched_fields|by apply touched_ok]. }
  assert (Hme9 : m_cpus (s_mach s9) !! me = Some (touched c)) by (by eapply put_cpu_lookup).
  apply (acq_sto me s9 (touched c)) in H10 as (Hfree & -> & Hs); [|done..].
  apply (sto_base me _ _ _ s s9 _ (touched c)) in Hs; [|done..].
  apply bind_Ok_inv in H as (qx & s11 & [Hqx ->]%proc_at_Ok & H).
  assert (qx = q1) as ->.
  { cbn in Hqx. rewrite list_lookup_insert_eq in Hqx by (by eapply lookup_lt_Some). by injection Hqx. }
  apply bind_Ok_inv in H as ([] & s12 & [= <-] & H). rewrite gets_bind in H.
  apply bind_Ok_inv in H as ([] & s13 & ->%reparent_Ok & H).
  apply bind_Ok_inv in H as ([] & s14 & (q2 & Hq2 & ->)%upd_Ok & H).
  eapply (sched_sto me AtExit s _ s' c (pushed (touched c))) in H;
    [|done|done|by apply pushed_inside, touched_ok|by do 3 eapply sto_set_procs].
  destruct H as (p' & k & q' & i & c' & Hp' & Hk & Hq' & Hin & Hnp & Hs').
  destruct (touched_fields c) as (_ & _ & _ & Etp & Etk). cbn in Hp', Hk. rewrite Etp in Hp'. rewrite Etk in Hk.
  replace p' with p in * by congruence. clear p' Hp'.
  assert (Hlt := lookup_lt_Some _ _ _ Hq2).
  cbn [set_procs s_procs set_mach s_initproc set_env s9 s1] in Hq', Hs', Hq2, Hlt.
  rewrite list_lookup_insert_eq in Hq' by done. injection Hq' as <-. rewrite list_insert_insert_eq in Hs'.
  exists p, q, q1, q2, i. do 5 (split; [done|]). exists c, k, c'. do 3 (split; [done|]). split; [exact Hfree|].
  done.
Qed.

(** ** wait *)

(** The outcomes of a round of wait: a child is reaped, there is nothing to
    wait for, or the process sleeps. *)
Definition waited (me cur : nat) (c1 : cpu) (ps : list proc) (s s' : sys) (r : option Z) : Prop :=
  match find_zombie cur 0 ps with
  | (Some i, _) => exists z, ps !! i = Some z /\ r = Some (p_pid z) /\
      sto me (popped c1) (mkLock 0 None) (<[i := reaped z]> ps) s s'
  | (None, havekids) => exists q, ps !! cur = Some q /\
      if negb havekids || negb (p_killed q =? 0)
      then r = Some (-1) /\ sto me (popped c1) (mkLock 0 None) ps s s'
      else r = None /\ exists p k q i c', c_proc c1 = Some p /\ c_scheduler c1 = Some k /\ ps !! p = Some q /\
             in_loop (S k) c' /\
             sto me c' (mkLock 1 (Some me)) (<[p := asleep AtWait (Some (ChProc cur)) i q]> ps) s s'
  end.

Lemma wait_round_sto me cur (s s1 s' : sys) c c1 ps r :
  m_cpus (s_mach s) !! me = Some c -> c_if c1 = false -> 1 <= c_ncli c1 ->
  sto me c1 (mkLock 1 (Some me)) ps s s1 -> wait_round me cur s1 = Ok r s' ->
  s_nextpid s' = s_nextpid s1 /\ waited me cur c1 ps s s' r.
Proof.
  intros Hme Hif Hn Hs H. unfold wait_round in H. rewrite gets_bind, (sto_procs _ _ _ _ _ _ Hs) in H. unfold waited.
  pose proof (sto_procs _ _ _ _ _ _ Hs) as Hps. destruct (find_zombie cur 0 ps) as [[i|] hk].
  - apply bind_Ok_inv in H as (z & s2 & [Hz ->]%proc_at_Ok & H).
    apply bind_Ok_inv in H as ([] & s2 & [v2 ->]%one_Ok & H).
    apply bind_Ok_inv in H as ([] & s3 & [v3 ->]%one_Ok & H).
    apply bind_Ok_inv in H as ([] & s4 & (z' & Hz' & ->)%upd_Ok & H).
    apply bind_Ok_inv in H as ([] & s5 & H & [= <- <-]). cbn [set_env s_procs] in *. rewrite Hps in *.
    assert (z' = z) as -> by congruence.
    eapply rel_sto in H as (_ & _ & _ & Hnp & Hs2); [|done|by eapply sto_set_procs, sto_set_env, sto_set_env].
    split; [done|]. exists z. done.
  - apply bind_Ok_inv in H as (q & s2 & [Hq ->]%proc_at_Ok & H). rewrite Hps in Hq.
    destruct (negb hk || negb (p_killed q =? 0)) eqn:E.
    + apply bind_Ok_inv in H as ([] & s2 & H & [= <- <-]).
      eapply rel_sto in H as (_ & _ & _ & Hnp & Hs2); [|done|done]. split; [done|].
      exists q. by rewrite E.
    + apply bind_Ok_inv in H as ([] & s2 & H & [= <- <-]).
      eapply (sleep_inside me _ _ s s1 s2 c c1 ps) in H
        as (p & k & q' & i & c' & Hp & Hk & Hq' & Hin & Hnp & Hs'); [|done..].
      split; [done|]. exists q. split; [done|]. rewrite E. split; [done|]. by exists p, k, q', i, c'.
Qed.

Lemma wait_Ok me (s : sys) c s' r : mach_ok (s_mach s) -> m_cpus (s_mach s) !! me = Some c ->
  wait me s = Ok r s' -> s_nextpid s' = s_nextpid s /\ free (s_mach s) /\
  exists cur, c_proc c = Some cur /\ waited me cur (pushed (touched c)) (s_procs s) s s' r.
Proof.
  intros Hm Hme H. assert (Hc : cpu_ok c) by (by eapply Hm).
  apply bind_Ok_inv in H as (p & s1 & H1 & H). apply (curproc_Ok me s c) in H1 as [Hp ->]; [|done..].
  set (s1 := set_mach _ s) in *. apply bind_Ok_inv in H as ([] & s2 & H2 & H).
  assert (Hm1 : mach_ok (s_mach s1)).
  { eapply mach_ok_cpu; [done|done|apply touched_fields|by apply touched_ok]. }
  assert (Hme1 : m_cpus (s_mach s1) !! me = Some (touched c)) by (by eapply put_cpu_lookup).
  apply (acq_sto me s1 (touched c)) in H2 as (Hfree & -> & Hs); [|done..].
  apply (sto_base me _ _ _ s s1 _ (touched c)) in Hs; [|done..].
  eapply (wait_round_sto me p s _ s' c (pushed (touched c))) in H as [Hnp Hw];
    [|done|done|by apply pushed_inside, touched_ok|done].
  split; [done|]. split; [done|]. by exists p.
Qed.

(** ** The scheduler *)

Lemma sched_back_sto me i (s s1 s2 : sys) c c1 lk ps : m_cpus (s_mach s) !! me = Some c ->
  c_if c1 = false -> sto me c1 lk ps s s1 -> sched_back me i s1 = Ok tt s2 ->
  s_nextpid s2 = s_nextpid s1 /\ s_first s2 = s_first s1 /\ sto me (set_intena i c1) lk ps s s2.
Proof.
  intros Hme Hif Hs H. assert (H1 := sto_cpu _ _ _ _ _ _ _ Hme Hs). destruct Hs as [Hok Hcs Hl Hps Hi].
  unfold sched_back in H. rewrite (bind_run _ _ _ _ _ (onm_run _ s1 _ _ (mycpu_run me _ c1 (proj1 Hok) H1 Hif))) in H.
  rewrite set_mach_id, (onm_run _ s1 _ _ (upd_cpu_run me _ _ c1 H1)) in H. injection H as <-.
  split; [done|]. split; [done|]. split; cbn; try done.
  - eapply mach_ok_cpu; [done|done|done|]. by apply (proj1 (proj2 Hok) me c1).
  - by rewrite Hcs, list_insert_insert_eq.
Qed.

(** The process [k], switched to by the scheduler of [me], goes on running, or
    sleeps again. *)
Definition goes_on (me k : nat) (ps : list proc) (s s' : sys) : Prop :=
  exists c', c_proc c' = Some k /\ c_scheduler c' = Some k /\ sto me c' (mkLock 0 None) ps s s'.
Definition sleeps_again (me k : nat) (ps : list proc) (s s' : sys) : Prop :=
  exists c', in_loop (S k) c' /\ sto me c' (mkLock 1 (Some me)) ps s s'.

Definition woke_in_wait (me k : nat) (ps : list proc) (s s' : sys) (r : option Z) : Prop :=
  match find_zombie k 0 ps with
  | (Some i, _) => exists z, ps !! i = Some z /\ r = Some (p_pid z) /\ goes_on me k (<[i := reaped z]> ps) s s'
  | (None, havekids) => exists q, ps !! k = Some q /\
      if negb havekids || negb (p_killed q =? 0) then r = Some (-1) /\ goes_on me k ps s s'
      else r = None /\ exists i, sleeps_again me k (<[k := asleep AtWait (Some (ChProc k)) i q]> ps) s s'
  end.

Lemma goes_on_intro me k ps (s s' : sys) c' : sto me c' (mkLock 0 None) ps s s' -> c_proc c' = Some k ->
  c_scheduler c' = Some k -> goes_on me k ps s s'.
Proof. intros. by exists c'. Qed.

Lemma resume_Ok me k (s s1 s' : sys) c c1 q ps r : m_cpus (s_mach s) !! me = Some c ->
  c_if c1 = false -> 1 <= c_ncli c1 -> c_proc c1 = Some k -> c_scheduler c1 = Some k ->
  sto me c1 (mkLock 1 (Some me)) ps s s1 -> ps !! k = Some q -> resume me k s1 = Ok r s' ->
  s_nextpid s' = s_nextpid s1 /\
  match ctx_eip (p_context q) with
  | AtForkret | AtYield => goes_on me k ps s s'
  | AtSleep _ => goes_on me k (<[k := set_chan None q]> ps) s s'
  | AtWait => woke_in_wait me k (<[k := set_chan None q]> ps) s s' r
  | AtExit => False
  end.
Proof.
  intros Hme Hif Hn Hpk Hsk Hs Hq H. pose proof (sto_procs _ _ _ _ _ _ Hs) as Hps. unfold resume in H.
  rewrite <- Hps in Hq. rewrite (bind_run _ _ _ _ _ (proc_at_run _ _ _ Hq)) in H. cbn zeta in H.
  destruct (ctx_eip (p_context q)).
  - apply bind_Ok_inv in H as ([] & s2 & H2 & H).
    eapply rel_sto in H2 as (_ & _ & _ & Hnp & Hs2); [|done|done]. rewrite gets_bind in H.
    apply bind_Ok_inv in H as ([] & s3 & H3 & [= <- <-]).
    assert (Hx : s_nextpid s3 = s_nextpid s2 /\ sto me (popped c1) (mkLock 0 None) ps s s3).
    { destruct (negb _); cbn [whenM] in H3; [|by injection H3 as <-].
      apply bind_Ok_inv in H3 as ([] & s4 & [= <-] & [v ->]%one_Ok). destruct Hs2. done. }
    destruct Hx as [Hx1 Hx2]. split; [congruence|]. by exists (popped c1).
  - apply bind_Ok_inv in H as ([] & s2 & H2 & H). eapply sched_back_sto in H2 as (Hnp2 & _ & Hs2); [|done..].
    apply bind_Ok_inv in H as ([] & s3 & H3 & [= <- <-]).
    eapply rel_sto in H3 as (_ & _ & _ & Hnp & Hs3); [|done|done]. split; [congruence|]. by eapply goes_on_intro.
  - apply bind_Ok_inv in H as ([] & s2 & H2 & H). eapply sched_back_sto in H2 as (Hnp2 & _ & Hs2); [|done..].
    apply bind_Ok_inv in H as ([] & s3 & (q' & Hq' & ->)%upd_Ok & H).
    rewrite (sto_procs _ _ _ _ _ _ Hs2) in Hq'. assert (q' = q) as -> by congruence.
    apply bind_Ok_inv in H as ([] & s4 & H4 & [= <- <-]).
    eapply rel_sto in H4 as (_ & _ & _ & Hnp & Hs3); [|done|by eapply sto_set_procs].
    rewrite (sto_procs _ _ _ _ _ _ Hs2) in Hs3. cbn in Hnp. split; [congruence|]. by eapply goes_on_intro.
  - apply bind_Ok_inv in H as ([] & s2 & H2 & H). eapply sched_back_sto in H2 as (Hnp2 & _ & Hs2); [|done..].
    apply bind_Ok_inv in H as ([] & s3 & (q' & Hq' & ->)%upd_Ok & H).
    rewrite (sto_procs _ _ _ _ _ _ Hs2) in Hq', H. assert (q' = q) as -> by congruence.
    eapply (wait_round_sto me k s _ s' c (set_intena (ctx_intena (p_context q)) c1)) in H as [Hnp Hw];
      [|done|done|done|by eapply sto_set_procs].
    cbn in Hnp. split; [congruence|]. unfold waited, woke_in_wait in *.
    destruct (find_zombie k 0 (<[k:=set_chan None q]> ps)) as [[i|] hk].
    + destruct Hw as (z & Hz & Hr & Hsz). exists z. split; [done|]. split; [done|]. by eapply goes_on_intro.
    + destruct Hw as (qk & Hqk & Hw). exists qk. split; [done|]. destruct (_ || _).
      * destruct Hw as [Hr Hw]. split; [done|]. by eapply goes_on_intro.
      * destruct Hw as (Hr & p & k' & qp & i & c' & Hp & Hk' & Hqp & Hin & Hs'). split; [done|].
        cbn in Hp, Hk'. assert (p = k) as -> by congruence. assert (k' = k) as -> by congruence.
        assert (qp = qk) as -> by congruence. exists i. by exists c'.
  - by apply bind_Ok_inv in H as ([] & s2 & H2 & H).
Qed.

Lemma scheduler_step_Ok me k (s s' : sys) c r : mach_ok (s_mach s) -> m_cpus (s_mach s) !! me = Some c ->
  in_loop k c -> owner (s_mach s) me -> scheduler_step me s = Ok r s' ->
  s_nextpid s' = s_nextpid s /\
  if (Z.of_nat k <? NPROC) then exists q, s_procs s !! k = Some q /\
    if bool_decide (p_state q = RUNNABLE) then
      let q' := set_state RUNNING q in
      match ctx_eip (p_context q) with
      | AtForkret | AtYield => goes_on me k (<[k := q']> (s_procs s)) s s'
      | AtSleep _ => goes_on me k (<[k := set_chan None q']> (s_procs s)) s s'
      | AtWait => woke_in_wait me k (<[k := set_chan None q']> (s_procs s)) s s' r
      | AtExit => False
      end
    else exists c', in_loop (S k) c' /\ sto me c' (mkLock 1 (Some me)) (s_procs s) s s'
  else exists c', c_proc c' = None /\ c_scheduler c' = None /\ sto me c' (mkLock 0 None) (s_procs s) s s'.
Proof.
  intros Hm Hme (Hp & Hk & Hn & Hif) Ho H. assert (Hc : cpu_ok c) by (by eapply Hm).
  assert (Hbase : forall c', c_apicid c' = c_apicid c -> cpu_ok c' ->
    sto me c' (mkLock 1 (Some me)) (s_procs s) s (set_mach (put_cpu me c' (s_mach s)) s)).
  { intros c' Ha Hc'. split; cbn; try done. by eapply mach_ok_cpu. }
  unfold scheduler_step in H.
  rewrite (bind_run _ _ _ _ _ (onm_run _ s _ _ (mycpu_run me _ c (proj1 Hm) Hme Hif))), set_mach_id in H.
  rewrite (bind_run _ _ _ _ _ (onm_run _ s _ _ (cpu_at_run me _ c Hme))), set_mach_id, Hk in H.
  cbn [from_option_undef] in H. rewrite bind_ret_l in H. destruct (Z.of_nat k <? NPROC).
  - apply bind_Ok_inv in H as (q & s1 & [Hq ->]%proc_at_Ok & H).
    case_bool_decide as Hst; cbn [negb] in H.
    + rewrite (bind_run _ _ _ _ _ (onm_run _ s _ _ (upd_cpu_run me _ _ c Hme))) in H.
      apply bind_Ok_inv in H as ([] & s2 & (q' & Hq' & ->)%upd_Ok & H). cbn in Hq'.
      assert (q' = q) as -> by congruence.
      eapply (resume_Ok me k s _ s' c (set_c_proc (Some k) c) (set_state RUNNING q)) in H as [Hnp Hr];
        [|done|done|cbn; lia|done|done|eapply sto_set_procs, Hbase; done|].
      * split; [done|]. exists q. split; [done|]. rewrite bool_decide_true by done.
        cbn [set_state p_context s_procs set_mach] in Hr. rewrite !list_insert_insert_eq in Hr. exact Hr.
      * apply list_lookup_insert_eq. by eapply lookup_lt_Some.
    + rewrite (bind_run _ _ _ _ _ (onm_run _ s _ _ (upd_cpu_run me _ _ c Hme))) in H. injection H as <- <-.
      split; [done|]. exists q. split; [done|]. rewrite bool_decide_false by done.
      eexists. split; [|by apply Hbase]. done.
  - rewrite (bind_run _ _ _ _ _ (onm_run _ s _ _ (upd_cpu_run me _ _ c Hme))) in H.
    apply bind_Ok_inv in H as ([] & s2 & H2 & [= <- <-]).
    eapply rel_sto in H2 as (_ & _ & _ & Hnp & Hs2); [|done|by apply Hbase]. split; [done|].
    eexists. split; [|split; [|exact Hs2]]; done.
Qed.

Lemma scheduler_enter_Ok me (s s' : sys) c : mach_ok (s_mach s) -> m_cpus (s_mach s) !! me = Some c ->
  c_proc c = None -> c_ncli c = 0 -> scheduler_enter me s = Ok tt s' ->
  s_nextpid s' = s_nextpid s /\ free (s_mach s) /\
  exists c', in_loop 0 c' /\ sto me c' (mkLock 1 (Some me)) (s_procs s) s s'.
Proof.
  intros Hm Hme Hp Hn H. assert (Hc : cpu_ok c) by (by eapply Hm). unfold scheduler_enter, sti in H.
  rewrite (bind_run _ _ _ _ _ (onm_run _ s _ _ (upd_cpu_run me _ _ c Hme))) in H.
  set (c1 := set_if true c) in H. set (s1 := set_mach _ s) in H.
  assert (Hc1 : cpu_ok c1) by (split; cbn; lia).
  assert (Hm1 : mach_ok (s_mach s1)) by (by eapply mach_ok_cpu).
  assert (Hme1 : m_cpus (s_mach s1) !! me = Some c1) by (by eapply put_cpu_lookup).
  apply bind_Ok_inv in H as ([] & s2 & H2 & H).
  apply (acq_sto me s1 c1) in H2 as (Hfree & -> & Hs); [|done..].
  apply (sto_base me _ _ _ s s1 _ c1) in Hs; [|done..].
  assert (Hme2 := sto_cpu _ _ _ _ _ _ _ Hme Hs).
  rewrite (bind_run _ _ _ _ _ (onm_run _ _ _ _ (mycpu_run me _ (pushed c1) (proj1 (sto_ok _ _ _ _ _ _ Hs)) Hme2 eq_refl))), set_mach_id in H.
  rewrite (onm_run _ _ _ _ (upd_cpu_run me _ _ _ Hme2)) in H. injection H as <-.
  split; [done|]. split; [done|]. eexists. split; [|split; cbn; [|by rewrite !list_insert_insert_eq|..]].
  - repeat split; [done|]. change (c_ncli c + 1 = 1). lia.
  - destruct Hs as [Hok _ _ _ _]. eapply mach_ok_cpu; [exact Hok|exact Hme2|done|]. by apply (pushed_ok c1).
  - by rewrite lookup_insert_eq.
  - done.
  - done.
Qed.

End run.
End ProcStep.
