(* ===== verification/ProcInv.v ===== *)
(** * Executions of the kernel and their invariant

    A step is one routine of proc.c run by one CPU, from one point where
    another CPU may act to the next; fork is two steps, since another CPU can
    act while it copies the process.  The invariant relates the table, the
    CPUs and ptable.lock, and every step preserves it. *)
From S2P Require Import Prelude Words Params CString Spinlock Proc ProcStep.

Module ProcInv.
Import Spinlock Proc ProcStep.

Section inv.
Context {V : Type} {PE : ProcEnv V}.
#[local] Abbreviation sys := (@sys V).

(** A configuration: the kernel, and the forks that are under way (the parent
    and the entry of its child) *)
Record conf := mkConf { sy : sys; pend : gmap nat nat }.

Definition cpu_is (s : sys) (me : nat) (c : cpu) : Prop := m_cpus (s_mach s) !! me = Some c.

(** Steps; the number counts the process ids handed out. *)
Inductive step : conf -> Z -> conf -> Prop :=
| st_enter me c s s' pd :
    cpu_is s me c -> c_proc c = None -> c_scheduler c = None -> c_ncli c = 0 ->
    scheduler_enter me s = Ok tt s' -> step (mkConf s pd) 0 (mkConf s' pd)
| st_scan me c k r s s' pd :
    cpu_is s me c -> c_proc c = None -> c_scheduler c = Some k ->
    scheduler_step me s = Ok r s' -> step (mkConf s pd) 0 (mkConf s' pd)
| st_yield me c p s s' pd :
    cpu_is s me c -> c_proc c = Some p -> c_ncli c = 0 ->
    yield me s = Ok tt s' -> step (mkConf s pd) 0 (mkConf s' pd)
| st_sleep me c p a lk s s' pd :
    cpu_is s me c -> c_proc c = Some p -> c_ncli c = 1 -> lk <> ptable_lock ->
    sleep me (Some (ChAddr a)) lk (AtSleep lk) s = Ok tt s' -> step (mkConf s pd) 0 (mkConf s' pd)
| st_wait me c p r s s' pd :
    cpu_is s me c -> c_proc c = Some p -> c_ncli c = 0 -> pd !! p = None ->
    wait me s = Ok r s' -> step (mkConf s pd) 0 (mkConf s' pd)
| st_exit me c p s s' pd :
    cpu_is s me c -> c_proc c = Some p -> c_ncli c = 0 -> pd !! p = None ->
    exit me s = Ok tt s' -> step (mkConf s pd) 0 (mkConf s' pd)
| st_fork_none me c p s s' pd :
    cpu_is s me c -> c_proc c = Some p -> c_ncli c = 0 -> pd !! p = None ->
    allocproc_find me s = Ok None s' -> step (mkConf s pd) 0 (mkConf s' pd)
| st_fork_find me c p np s s' pd :
    cpu_is s me c -> c_proc c = Some p -> c_ncli c = 0 -> pd !! p = None ->
    allocproc_find me s = Ok (Some np) s' -> step (mkConf s pd) 1 (mkConf s' (<[p := np]> pd))
| st_fork_rest me c p np r s s' pd :
    cpu_is s me c -> c_proc c = Some p -> c_ncli c = 0 -> pd !! p = Some np ->
    fork_rest me p np s = Ok r s' -> step (mkConf s pd) 0 (mkConf s' (delete p pd))
| st_wakeup me c a s s' pd :
    cpu_is s me c -> (c_proc c = None -> c_scheduler c = None) ->
    wakeup me (Some (ChAddr a)) s = Ok tt s' -> step (mkConf s pd) 0 (mkConf s' pd)
| st_kill me c p pid r s s' pd :
    cpu_is s me c -> c_proc c = Some p -> c_ncli c = 0 ->
    kill me pid s = Ok r s' -> step (mkConf s pd) 0 (mkConf s' pd)
| st_acquire me c l s s' pd :
    cpu_is s me c -> (c_proc c = None -> c_scheduler c = None) -> l <> ptable_lock ->
    onm (acquire me l) s = Ok tt s' -> step (mkConf s pd) 0 (mkConf s' pd)
| st_release me c l s s' pd :
    cpu_is s me c -> (c_proc c = None -> c_scheduler c = None) -> l <> ptable_lock ->
    onm (release me l) s = Ok tt s' -> step (mkConf s pd) 0 (mkConf s' pd).

(** ** The invariant of the table *)

Definition live (q : proc) : Prop := p_state q = SLEEPING \/ p_state q = RUNNABLE \/ p_state q = RUNNING.

(** The channel agrees with the state and with where the thread was saved. *)
Definition chan_ok (i : nat) (q : proc) : Prop :=
  match p_state q with
  | SLEEPING =>
      match ctx_eip (p_context q) with
      | AtWait => p_chan q = Some (ChProc i)
      | AtSleep _ => exists a, p_chan q = Some (ChAddr a)
      | _ => False
      end
  | RUNNABLE =>
      match ctx_eip (p_context q) with
      | AtWait => p_chan q = Some (ChProc i)
      | AtSleep _ => exists a, p_chan q = Some (ChAddr a)
      | AtForkret | AtYield => p_chan q = None
      | AtExit => False
      end
  | _ => p_chan q = None
  end.

(** Asleep in wait *)
Definition waiting (q : proc) : Prop := p_state q = SLEEPING /\ ctx_eip (p_context q) = AtWait.

Definition zombie_child (ps : list proc) (i : nat) : Prop :=
  exists j z, ps !! j = Some z /\ p_parent z = Some i /\ p_state z = ZOMBIE.

Record tinv (ps : list proc) (ini : option nat) (pd : gmap nat nat) (next : Z) : Prop := {
  t_len : length ps = Z.to_nat NPROC;
  t_pid i q : ps !! i = Some q -> 0 <= p_pid q < next /\ (p_state q <> UNUSED -> 1 <= p_pid q);
  t_pid_inj i j qi qj : ps !! i = Some qi -> ps !! j = Some qj -> p_pid qi = p_pid qj -> p_pid qi <> 0 -> i = j;
  t_init : exists z q, ini = Some z /\ ps !! z = Some q /\ live q /\ p_parent q = None;
  t_parent i q r : ps !! i = Some q -> p_parent q = Some r ->
    r <> i /\ (live q \/ p_state q = ZOMBIE) /\ exists qr, ps !! r = Some qr /\ live qr;
  t_orphan i q : ps !! i = Some q -> p_parent q = None ->
    ini = Some i \/ p_state q = UNUSED \/ p_state q = EMBRYO;
  t_wait i q : ps !! i = Some q -> waiting q -> ~ zombie_child ps i;
  t_chan i q : ps !! i = Some q -> chan_ok i q;
  t_stack i q : ps !! i = Some q -> p_kstack q = 0 <-> p_state q = UNUSED \/ p_state q = EMBRYO;
  t_pend p np : pd !! p = Some np -> exists q qn, ps !! p = Some q /\ live q /\
    ps !! np = Some qn /\ p_state qn = EMBRYO;
  t_embryo i q : ps !! i = Some q -> p_state q = EMBRYO -> exists p, pd !! p = Some i;
  t_pend_inj p p' np : pd !! p = Some np -> pd !! p' = Some np -> p = p'
}.

(** Two versions of an entry that differ at most in being asleep, runnable or
    running, and in a parent replaced by init *)
Definition akin (ini : option nat) (q q' : proc) : Prop :=
  p_pid q' = p_pid q /\ p_kstack q' = p_kstack q /\
  (p_state q' = p_state q \/ (live q /\ live q')) /\
  (p_parent q' = p_parent q \/ (p_parent q <> None /\ p_parent q' = ini)).

Definition fixed (st : procstate) : Prop := match st with UNUSED | EMBRYO | ZOMBIE => True | _ => False end.

Lemma akin_live ini q q' : akin ini q q' -> live q -> live q'.
Proof. unfold akin, live. intros (_ & _ & [E|[H1 H2]] & _); [by rewrite E|tauto]. Qed.

Lemma akin_to ini q q' st : akin ini q q' -> fixed st -> p_state q = st -> p_state q' = st.
Proof.
  intros (_ & _ & [E|[H1 H2]] & _) Hf Hst; [congruence|]. exfalso. subst st. unfold live in H1.
  destruct H1 as [E|[E|E]]; by rewrite E in Hf.
Qed.

Lemma akin_from ini q q' st : akin ini q q' -> fixed st -> p_state q' = st -> p_state q = st.
Proof.
  intros (_ & _ & [E|[H1 H2]] & _) Hf Hst; [congruence|]. exfalso. subst st. unfold live in H2.
  destruct H2 as [E|[E|E]]; by rewrite E in Hf.
Qed.

Lemma tinv_akin ps ps' ini pd next : tinv ps ini pd next -> length ps' = length ps ->
  (forall i q', ps' !! i = Some q' -> exists q, ps !! i = Some q /\ akin ini q q' /\ chan_ok i q' /\
    (waiting q' -> ~ zombie_child ps' i)) ->
  tinv ps' ini pd next.
Proof.
  intros Hi Hlen Hps.
  assert (Hfw : forall i q, ps !! i = Some q -> exists q', ps' !! i = Some q' /\ akin ini q q').
  { intros i q Hq. destruct (lookup_lt_is_Some_2 ps' i) as [q' Hq']; [rewrite Hlen; by eapply lookup_lt_Some|].
    exists q'. split; [done|]. destruct (Hps i q' Hq') as (q0 & Hq0 & Ha & _). congruence. }
  destruct (t_init _ _ _ _ Hi) as (z & qz & Hini & Hz & Hlz & Hpz). destruct (Hfw z qz Hz) as (qz' & Hz' & Haz).
  split.
  - rewrite Hlen. apply Hi.
  - intros i q' (q & Hq & Ha & _)%Hps. destruct (t_pid _ _ _ _ Hi i q Hq) as [H1 H2].
    pose proof Ha as (-> & _). split; [done|]. intros Hu. apply H2. intros E. apply Hu. by eapply akin_to.
  - intros i j qi' qj' (qi & Hqi & (Ei & _) & _)%Hps (qj & Hqj & (Ej & _) & _)%Hps. rewrite Ei, Ej.
    by eapply Hi.
  - exists z, qz'. split; [done|]. split; [done|]. split; [by eapply akin_live|].
    destruct Haz as (_ & _ & _ & [->|[? _]]); done.
  - intros i q' r (q & Hq & Ha & _)%Hps Hr.
    assert (Hl : live q \/ p_state q = ZOMBIE -> live q' \/ p_state q' = ZOMBIE).
    { intros [Hl|Hl]; [left; by eapply akin_live|right; by eapply akin_to]. }
    pose proof Ha as (_ & _ & _ & [Ep|[Hp Ep]]).
    + rewrite Ep in Hr. destruct (t_parent _ _ _ _ Hi i q r Hq Hr) as (Hne & Hlq & qr & Hqr & Hlr).
      split; [done|]. split; [auto|]. destruct (Hfw r qr Hqr) as (qr' & Hqr' & Har). exists qr'.
      split; [done|]. by eapply akin_live.
    + destruct (p_parent q) as [r0|] eqn:E0; [|done].
      destruct (t_parent _ _ _ _ Hi i q r0 Hq E0) as (_ & Hlq & _). assert (r = z) as -> by congruence.
      split; [intros ->; congruence|]. split; [auto|]. exists qz'. split; [done|]. by eapply akin_live.
  - intros i q' (q & Hq & Ha & _)%Hps Hp. pose proof Ha as (_ & _ & _ & [Ep|[_ Ep]]); [|congruence].
    rewrite Ep in Hp.
    destruct (t_orphan _ _ _ _ Hi i q Hq Hp) as [H|[H|H]]; [by left|right; left|right; right]; by eapply akin_to.
  - intros i q' (q & Hq & Ha & _ & Hw)%Hps. done.
  - intros i q' (q & Hq & Ha & Hc & _)%Hps. done.
  - intros i q' (q & Hq & Ha & _)%Hps. pose proof Ha as (_ & -> & _).
    rewrite (t_stack _ _ _ _ Hi i q Hq). split; (intros [H|H]; [left|right]);
      first [by eapply akin_to|by eapply akin_from].
  - intros p np Hp. destruct (t_pend _ _ _ _ Hi p np Hp) as (q & qn & Hq & Hl & Hqn & Hs).
    destruct (Hfw p q Hq) as (q' & Hq' & Ha). destruct (Hfw np qn Hqn) as (qn' & Hqn' & Han).
    exists q', qn'. split; [done|]. split; [by eapply akin_live|]. split; [done|]. by eapply akin_to.
  - intros i q' (q & Hq & Ha & _)%Hps Hs. eapply (t_embryo _ _ _ _ Hi i q); [done|]. by eapply akin_from.
  - apply Hi.
Qed.

(** The same with the parents kept *)
Definition alike (q q' : proc) : Prop :=
  p_pid q' = p_pid q /\ p_parent q' = p_parent q /\ p_kstack q' = p_kstack q /\
  (p_state q' = p_state q \/ (live q /\ live q')).

Lemma alike_akin ini q q' : alike q q' -> akin ini q q'.
Proof. unfold alike, akin. intuition. Qed.

Lemma akin_alike ini q q1 q2 : akin ini q q1 -> alike q1 q2 -> akin ini q q2.
Proof.
  unfold akin, alike, live. intros (E1 & E2 & E3 & E4) (F1 & F2 & F3 & F4).
  split; [congruence|]. split; [congruence|]. split; [|rewrite F2; done].
  destruct E3 as [E3|E3], F4 as [F4|F4]; rewrite ?E3, ?F4 in *; intuition congruence.
Qed.

Lemma tinv_alike ps ps' ini pd next : tinv ps ini pd next -> length ps' = length ps ->
  (forall i q', ps' !! i = Some q' -> exists q, ps !! i = Some q /\ alike q q' /\ chan_ok i q' /\
    (waiting q' -> waiting q \/ ~ zombie_child ps i)) ->
  tinv ps' ini pd next.
Proof.
  intros Hi Hlen Hps. apply (tinv_akin ps); [done|done|]. intros i q' Hq'.
  destruct (Hps i q' Hq') as (q & Hq & Ha & Hc & Hw). exists q. split; [done|].
  split; [by apply alike_akin|]. split; [done|]. intros Hwait (j & z & Hz & Hp & Hs).
  destruct (Hps j z Hz) as (qz & Hqz & Haz & _).
  assert (Hzc : zombie_child ps i).
  { exists j, qz. split; [done|]. split; [destruct Haz as (_ & <- & _); done|].
    by eapply (akin_from ini qz z), Hs; [apply alike_akin|]. }
  destruct (Hw Hwait) as [H|H]; [by eapply (t_wait _ _ _ _ Hi i q)|done].
Qed.

(** One entry *)
Lemma tinv_update ps ini pd next i q q' : tinv ps ini pd next -> ps !! i = Some q -> alike q q' ->
  chan_ok i q' -> (waiting q' -> waiting q \/ ~ zombie_child ps i) -> tinv (<[i := q']> ps) ini pd next.
Proof.
  intros Hi Hq Ha Hc Hw. apply (tinv_alike ps); [done|by rewrite length_insert|].
  intros j qj. destruct (decide (i = j)) as [<-|Hne].
  - rewrite list_lookup_insert_eq by (by eapply lookup_lt_Some). intros [= <-]. eauto.
  - rewrite list_lookup_insert_ne by done. intros Hj. exists qj. split; [done|].
    split; [by repeat split; left|]. split; [by eapply Hi|]. by left.
Qed.

(** ** The changes of the table *)

(** Waking and killing *)
Lemma wake_alike i ch q : chan_ok i q ->
  alike q (wake ch q) /\ chan_ok i (wake ch q) /\ (waiting (wake ch q) -> waiting q).
Proof.
  intros Hc. destruct (wake_fields ch q) as (E1 & E2 & E3 & E4 & E5 & [E|(Es & Ec & Ew)]).
  - split; [by repeat split; auto|]. unfold chan_ok, waiting in *. rewrite E, E2, E5. done.
  - split; [|unfold chan_ok, waiting in *; rewrite Ew, E2, E5, Es in *].
    + repeat split; try done. right. unfold live. rewrite Es, Ew. auto.
    + split; [by destruct (ctx_eip (p_context q))|]. by intros [? _].
Qed.

Lemma tinv_wake ps ini pd next ch : tinv ps ini pd next -> tinv (wake ch <$> ps) ini pd next.
Proof.
  intros Hi. apply (tinv_alike ps); [done|by rewrite length_fmap|]. intros i q'. rewrite list_lookup_fmap.
  destruct (ps !! i) as [q|] eqn:Hq; [|done]. intros [= <-]. exists q. split; [done|].
  destruct (wake_alike i ch q) as (Ha & Hc & Hw); [by eapply Hi|]. auto.
Qed.

Lemma kill_alike i q : chan_ok i q -> alike q (kill_proc q) /\ chan_ok i (kill_proc q) /\ (waiting (kill_proc q) -> waiting q).
Proof.
  intros Hc. unfold kill_proc. cbn zeta. case_bool_decide as Es; cbn in Es; unfold chan_ok, waiting, alike, live in *; cbn.
  - rewrite Es in *. split; [by auto 10|]. split; [by destruct (ctx_eip (p_context q))|]. by intros [? _].
  - split; [by auto 10|]. split; [exact Hc|done].
Qed.

Lemma tinv_kill ps ini pd next i q : tinv ps ini pd next -> ps !! i = Some q ->
  tinv (<[i := kill_proc q]> ps) ini pd next.
Proof.
  intros Hi Hq. destruct (kill_alike i q) as (Ha & Hc & Hw); [by eapply Hi|]. eapply tinv_update; eauto.
Qed.

(** Lookup in an updated table *)
Lemma insert_cases (ps : list proc) i x j q : <[i := x]> ps !! j = Some q ->
  (j = i /\ q = x) \/ (j <> i /\ ps !! j = Some q).
Proof.
  destruct (decide (i = j)) as [<-|Hne].
  - destruct (decide (i < length ps)%nat).
    + rewrite list_lookup_insert_eq by done. intros [= <-]. by left.
    + rewrite list_insert_ge by lia. intros H. apply lookup_lt_Some in H. lia.
  - rewrite list_lookup_insert_ne by done. by right.
Qed.

Lemma insert_other (ps : list proc) i x j q : ps !! j = Some q -> j <> i -> <[i := x]> ps !! j = Some q.
Proof. intros H Hne. by rewrite list_lookup_insert_ne. Qed.

Lemma insert_at (ps : list proc) i x q : ps !! i = Some q -> <[i := x]> ps !! i = Some x.
Proof. intros H. apply list_lookup_insert_eq. by eapply lookup_lt_Some. Qed.

Lemma live_not q st : live q -> fixed st -> p_state q <> st.
Proof. unfold live. intros [E|[E|E]] Hf <-; by rewrite E in Hf. Qed.

Lemma find_unused_Some ps i : find_unused ps = Some i -> exists q, ps !! i = Some q /\ p_state q = UNUSED.
Proof.
  revert i. induction ps as [|p ps IH]; intros i; [done|]. cbn [find_unused]. case_bool_decide as E.
  - intros [= <-]. by exists p.
  - destruct (find_unused ps) as [j|]; [|done]. intros [= <-]. by apply IH.
Qed.

(** A new entry *)
Lemma tinv_alloc ps ini pd next p qp i q : tinv ps ini pd next -> 1 <= next -> ps !! p = Some qp -> live qp ->
  pd !! p = None -> ps !! i = Some q -> p_state q = UNUSED ->
  tinv (<[i := set_pid next (set_state EMBRYO q)]> ps) ini (<[p := i]> pd) (next + 1).
Proof.
  intros Hi Hn Hp Hl Hpd Hq Hu.
  assert (Hpi : p <> i) by (intros ->; assert (qp = q) as -> by congruence; by eapply live_not in Hu).
  assert (Hpar : p_parent q = None).
  { destruct (p_parent q) as [r|] eqn:E; [|done].
    destruct (t_parent _ _ _ _ Hi i q r Hq E) as (_ & [H|H] & _); [by eapply live_not in Hu|congruence]. }
  assert (Hlv : forall j qj, ps !! j = Some qj -> live qj ->
    <[i := set_pid next (set_state EMBRYO q)]> ps !! j = Some qj).
  { intros j qj Hj Hlj. apply insert_other; [done|]. intros ->. assert (qj = q) as -> by congruence.
    by eapply live_not in Hu. }
  split.
  - rewrite length_insert. apply Hi.
  - intros j qj [[-> ->]|[Hj Hqj]]%insert_cases; [cbn; lia|].
    destruct (t_pid _ _ _ _ Hi j qj Hqj). split; [lia|done].
  - intros j k qj qk [[-> ->]|[Hj Hqj]]%insert_cases [[-> ->]|[Hk Hqk]]%insert_cases; cbn; try done.
    + intros E. destruct (t_pid _ _ _ _ Hi k qk Hqk). lia.
    + intros E. destruct (t_pid _ _ _ _ Hi j qj Hqj). lia.
    + by eapply Hi.
  - destruct (t_init _ _ _ _ Hi) as (z & qz & Hini & Hz & Hlz & Hpz). exists z, qz. auto.
  - intros j qj r [[-> ->]|[Hj Hqj]]%insert_cases; cbn; [congruence|]. intros Hr.
    destruct (t_parent _ _ _ _ Hi j qj r Hqj Hr) as (H1 & H2 & qr & Hqr & Hlr). eauto 10.
  - intros j qj [[-> ->]|[Hj Hqj]]%insert_cases; cbn; [auto|]. by eapply Hi.
  - intros j qj [[-> ->]|[Hj Hqj]]%insert_cases Hw (k & z & [[-> ->]|[Hk Hqk]]%insert_cases & Hz1 & Hz2); cbn in *;
      try (by destruct Hw); try done.
    eapply (t_wait _ _ _ _ Hi j qj Hqj Hw). by exists k, z.
  - intros j qj [[-> ->]|[Hj Hqj]]%insert_cases; [|by eapply Hi].
    pose proof (t_chan _ _ _ _ Hi i q Hq) as Hc. unfold chan_ok in *. by rewrite Hu in Hc.
  - intros j qj [[-> ->]|[Hj Hqj]]%insert_cases; [|by eapply Hi]. cbn.
    rewrite (t_stack _ _ _ _ Hi i q Hq). naive_solver.
  - intros p' np'. destruct (decide (p = p')) as [<-|Hne].
    + rewrite lookup_insert_eq. intros [= <-]. exists qp. eexists. split; [by apply Hlv|].
      split; [done|]. split; [by eapply insert_at|done].
    + rewrite lookup_insert_ne by done. intros (q1 & q2 & H1 & H2 & H3 & H4)%(t_pend _ _ _ _ Hi).
      exists q1, q2. split; [by apply Hlv|]. split; [done|]. split; [|done]. apply insert_other; [done|].
      intros ->. congruence.
  - intros j qj [[-> ->]|[Hj Hqj]]%insert_cases Hs.
    + exists p. by rewrite lookup_insert_eq.
    + destruct (t_embryo _ _ _ _ Hi j qj Hqj Hs) as [p' Hp']. exists p'. rewrite lookup_insert_ne; congruence.
  - intros p1 p2 np [[<- <-]|[Hn1 H1]]%lookup_insert_Some [[<- E2]|[Hn2 H2]]%lookup_insert_Some; try done.
    + destruct (t_pend _ _ _ _ Hi _ _ H2) as (? & ? & _ & _ & ? & ?). congruence.
    + destruct (t_pend _ _ _ _ Hi _ _ H1) as (? & ? & _ & _ & ? & ?). congruence.
    + by eapply (t_pend_inj _ _ _ _ Hi).
Qed.

(** The end of a fork: the entry [np], an embryo, becomes [q']. *)
Lemma tinv_fork ps ini pd next p np q q' : tinv ps ini pd next -> pd !! p = Some np -> ps !! np = Some q ->
  same_id q q' ->
  (p_state q' = UNUSED /\ p_kstack q' = 0 /\ p_parent q' = p_parent q \/
   p_state q' = RUNNABLE /\ p_kstack q' <> 0 /\ p_parent q' = Some p /\ ctx_eip (p_context q') = AtForkret) ->
  tinv (<[np := q']> ps) ini (delete p pd) next.
Proof.
  intros Hi Hpd Hq (Eid & Ech & _) Hq'.
  destruct (t_pend _ _ _ _ Hi p np Hpd) as (qp & qn & Hqp & Hlp & Hqn & Hemb).
  assert (qn = q) as -> by congruence.
  assert (Hpn : p <> np) by (intros ->; assert (qp = q) as -> by congruence; by eapply live_not in Hemb).
  assert (Hpar : p_parent q = None).
  { destruct (p_parent q) as [r|] eqn:E; [|done].
    destruct (t_parent _ _ _ _ Hi np q r Hq E) as (_ & [H|H] & _); [by eapply live_not in Hemb|congruence]. }
  assert (Hchq : p_chan q = None).
  { pose proof (t_chan _ _ _ _ Hi np q Hq) as Hc. unfold chan_ok in Hc. by rewrite Hemb in Hc. }
  assert (Hlv : forall j qj, ps !! j = Some qj -> live qj -> <[np := q']> ps !! j = Some qj).
  { intros j qj Hj Hlj. apply insert_other; [done|]. intros ->. assert (qj = q) as -> by congruence.
    by eapply live_not in Hemb. }
  assert (Hnz : p_state q' <> ZOMBIE /\ ~ waiting q').
  { unfold waiting. intuition congruence. }
  split.
  - rewrite length_insert. apply Hi.
  - intros j qj [[-> ->]|[Hj Hqj]]%insert_cases; [|by eapply Hi].
    destruct (t_pid _ _ _ _ Hi np q Hq) as [H1 H2]. rewrite Eid. split; [done|]. intros _. apply H2. congruence.
  - intros j k qj qk [[-> ->]|[Hj Hqj]]%insert_cases [[-> ->]|[Hk Hqk]]%insert_cases; rewrite ?Eid; try done;
      by eapply Hi.
  - destruct (t_init _ _ _ _ Hi) as (z & qz & Hini & Hz & Hlz & Hpz). exists z, qz. auto.
  - intros j qj r [[-> ->]|[Hj Hqj]]%insert_cases Hr.
    + destruct Hq' as [(_ & _ & E)|(E & _ & E' & _)]; [congruence|]. assert (r = p) as -> by congruence.
      split; [done|]. split; [left; unfold live; auto|]. exists qp. auto.
    + destruct (t_parent _ _ _ _ Hi j qj r Hqj Hr) as (H1 & H2 & qr & Hqr & Hlr). eauto 10.
  - intros j qj [[-> ->]|[Hj Hqj]]%insert_cases Hp; [|by eapply Hi].
    destruct Hq' as [(E & _)|(_ & _ & E & _)]; [auto|congruence].
  - intros j qj [[-> ->]|[Hj Hqj]]%insert_cases Hw (k & z & [[-> ->]|[Hk Hqk]]%insert_cases & Hz1 & Hz2); try naive_solver.
    eapply (t_wait _ _ _ _ Hi j qj Hqj Hw). by exists k, z.
  - intros j qj [[-> ->]|[Hj Hqj]]%insert_cases; [|by eapply Hi]. unfold chan_ok.
    destruct Hq' as [(-> & _)|(-> & _ & _ & ->)]; congruence.
  - intros j qj [[-> ->]|[Hj Hqj]]%insert_cases; [|by eapply Hi]. intuition congruence.
  - intros p' np' [Hne Hp']%lookup_delete_Some.
    destruct (t_pend _ _ _ _ Hi p' np' Hp') as (q1 & q2 & H1 & H2 & H3 & H4).
    exists q1, q2. split; [by apply Hlv|]. split; [done|]. split; [|done]. apply insert_other; [done|].
    intros ->. by assert (p = p') by (by eapply (t_pend_inj _ _ _ _ Hi)).
  - intros j qj [[-> ->]|[Hj Hqj]]%insert_cases Hs; [intuition congruence|].
    destruct (t_embryo _ _ _ _ Hi j qj Hqj Hs) as [p' Hp']. exists p'. apply lookup_delete_Some.
    split; [|done]. congruence.
  - intros p1 p2 n [_ H1]%lookup_delete_Some [_ H2]%lookup_delete_Some. by eapply (t_pend_inj _ _ _ _ Hi).
Qed.

(** A reaped zombie *)
Lemma tinv_reap ps ini pd next i z : tinv ps ini pd next -> ps !! i = Some z -> p_state z = ZOMBIE ->
  tinv (<[i := reaped z]> ps) ini pd next.
Proof.
  intros Hi Hz Hs.
  assert (Hlv : forall j qj, ps !! j = Some qj -> live qj -> <[i := reaped z]> ps !! j = Some qj).
  { intros j qj Hj Hlj. apply insert_other; [done|]. intros ->. assert (qj = z) as -> by congruence.
    by eapply live_not in Hs. }
  split.
  - rewrite length_insert. apply Hi.
  - intros j qj [[-> ->]|[Hj Hqj]]%insert_cases; [|by eapply Hi]. cbn.
    destruct (t_pid _ _ _ _ Hi i z Hz). split; [lia|done].
  - intros j k qj qk [[-> ->]|[Hj Hqj]]%insert_cases [[-> ->]|[Hk Hqk]]%insert_cases; cbn; try congruence.
    by eapply Hi.
  - destruct (t_init _ _ _ _ Hi) as (y & qy & Hini & Hy & Hly & Hpy). exists y, qy. auto.
  - intros j qj r [[-> ->]|[Hj Hqj]]%insert_cases Hr; [done|].
    destruct (t_parent _ _ _ _ Hi j qj r Hqj Hr) as (H1 & H2 & qr & Hqr & Hlr). eauto 10.
  - intros j qj [[-> ->]|[Hj Hqj]]%insert_cases Hp; [by cbn; auto|by eapply Hi].
  - intros j qj [[-> ->]|[Hj Hqj]]%insert_cases Hw (k & y & [[-> ->]|[Hk Hqk]]%insert_cases & Hz1 & Hz2); try done.
    + by destruct Hw.
    + eapply (t_wait _ _ _ _ Hi j qj Hqj Hw). by exists k, y.
  - intros j qj [[-> ->]|[Hj Hqj]]%insert_cases; [|by eapply Hi].
    pose proof (t_chan _ _ _ _ Hi i z Hz) as Hc. unfold chan_ok in *. by rewrite Hs in Hc.
  - intros j qj [[-> ->]|[Hj Hqj]]%insert_cases; [|by eapply Hi]. cbn. naive_solver.
  - intros p np (q1 & q2 & H1 & H2 & H3 & H4)%(t_pend _ _ _ _ Hi).
    exists q1, q2. split; [by apply Hlv|]. split; [done|]. split; [|done]. apply insert_other; [done|].
    intros ->. congruence.
  - intros j qj [[-> ->]|[Hj Hqj]]%insert_cases Hs'; [done|by eapply Hi].
  - apply Hi.
Qed.

(** A live process without children, other than init, becomes a zombie; its
    parent is not asleep in wait. *)
Lemma tinv_zombie ps ini pd next p q z : tinv ps ini pd next -> ps !! p = Some q -> live q -> p_chan q = None ->
  ini <> Some p -> pd !! p = None -> (forall j qj, ps !! j = Some qj -> p_parent qj <> Some p) ->
  (forall r qr, p_parent q = Some r -> ps !! r = Some qr -> ~ waiting qr) ->
  p_state z = ZOMBIE -> p_pid z = p_pid q -> p_parent z = p_parent q -> p_kstack z = p_kstack q -> p_chan z = None ->
  tinv (<[p := z]> ps) ini pd next.
Proof.
  intros Hi Hq Hl Hch Hini Hpd Hkids Hpar Zs Zi Zp Zk Zc.
  assert (Hlv : forall j qj, ps !! j = Some qj -> j <> p -> <[p := z]> ps !! j = Some qj) by (intros; by apply insert_other).
  split.
  - rewrite length_insert. apply Hi.
  - intros j qj [[-> ->]|[Hj Hqj]]%insert_cases; [|by eapply Hi]. rewrite Zi.
    destruct (t_pid _ _ _ _ Hi p q Hq) as [H1 H2]. split; [done|]. intros _. by apply H2, live_not.
  - intros j k qj qk [[-> ->]|[Hj Hqj]]%insert_cases [[-> ->]|[Hk Hqk]]%insert_cases; rewrite ?Zi; try done; by eapply Hi.
  - destruct (t_init _ _ _ _ Hi) as (y & qy & Ey & Hy & Hly & Hpy). exists y, qy. split; [done|].
    split; [apply Hlv; [done|congruence]|done].
  - intros j qj r Hqj Hr. assert (Hjr : exists q0, ps !! j = Some q0 /\ p_parent q0 = Some r).
    { apply insert_cases in Hqj as [[-> ->]|[_ Hqj]]; [exists q; split; [done|congruence]|by exists qj]. }
    destruct Hjr as (q0 & Hq0 & Hr0). destruct (t_parent _ _ _ _ Hi j q0 r Hq0 Hr0) as (H1 & H2 & qr & Hqr & Hlr).
    split; [done|]. split.
    + apply insert_cases in Hqj as [[-> ->]|[_ Hqj]]; [by right|]. by assert (qj = q0) as -> by congruence.
    + exists qr. split; [|done]. apply Hlv; [done|]. intros ->. by eapply (Hkids j q0).
  - intros j qj [[-> ->]|[Hj Hqj]]%insert_cases Hp; [|by eapply Hi]. rewrite Zp in Hp.
    destruct (t_orphan _ _ _ _ Hi p q Hq Hp) as [H|[H|H]]; [done|by eapply live_not in H..].
  - intros j qj [[-> ->]|[Hj Hqj]]%insert_cases Hw (k & y & [[-> ->]|[Hk Hqk]]%insert_cases & Hz1 & Hz2).
    + by destruct Hw; congruence.
    + by destruct Hw; congruence.
    + eapply (Hpar j qj); [congruence|done|done].
    + eapply (t_wait _ _ _ _ Hi j qj Hqj Hw). by exists k, y.
  - intros j qj [[-> ->]|[Hj Hqj]]%insert_cases; [|by eapply Hi]. unfold chan_ok. by rewrite Zs.
  - intros j qj [[-> ->]|[Hj Hqj]]%insert_cases; [|by eapply Hi]. rewrite Zk, (t_stack _ _ _ _ Hi p q Hq), Zs.
    split; intros [H|H]; try done; by eapply live_not in H.
  - intros p' np Hp'. destruct (t_pend _ _ _ _ Hi p' np Hp') as (q1 & q2 & H1 & H2 & H3 & H4).
    exists q1, q2. split; [apply Hlv; [done|congruence]|]. split; [done|]. split; [|done]. apply Hlv; [done|].
    intros ->. assert (q2 = q) as -> by congruence. by eapply live_not in H4.
  - intros j qj [[-> ->]|[Hj Hqj]]%insert_cases Hs'; [congruence|by eapply Hi].
  - apply Hi.
Qed.

(** Passing the children of [p] to init keeps the table in order, as init has
    been woken when there is a zombie among them. *)
Lemma tinv_reparent ps1 ps2 ini pd next p : tinv ps1 ini pd next -> length ps2 = length ps1 ->
  (forall j q', ps2 !! j = Some q' -> exists q0, ps1 !! j = Some q0 /\
     maybe_woken (ChProc <$> ini) (if bool_decide (p_parent q0 = Some p) then set_parent ini q0 else q0) q') ->
  ((exists k z, ps1 !! k = Some z /\ p_parent z = Some p /\ p_state z = ZOMBIE) ->
     forall j q', ps2 !! j = Some q' -> ~ (p_state q' = SLEEPING /\ p_chan q' = ChProc <$> ini)) ->
  tinv ps2 ini pd next.
Proof.
  intros H1 Hl2 Hr Hz2.
  apply (tinv_akin ps1); [done|done|]. intros j q' Hj. destruct (Hr j q' Hj) as (q0 & Hq0 & Hw).
  exists q0. split; [done|]. pose proof (t_chan _ _ _ _ H1 j q0 Hq0) as Hc0.
  set (q0' := if bool_decide (p_parent q0 = Some p) then set_parent ini q0 else q0) in Hw.
  assert (Ha0 : akin ini q0 q0' /\ chan_ok j q0' /\ (waiting q0' -> waiting q0)).
  { unfold q0'. case_bool_decide as E; [|split; [by apply alike_akin; repeat split; left|done]].
    split; [|done]. repeat split; [by left|]. right. split; [congruence|done]. }
  destruct Ha0 as (Ha0 & Hc0' & Hw0).
  destruct (wake_alike j (ChProc <$> ini) q0' Hc0') as (Ha' & Hc' & Hw').
  assert (Ha : akin ini q0 q' /\ chan_ok j q' /\ (waiting q' -> waiting q0)).
  { destruct Hw as [->| ->]; [done|]. split; [|auto]. by eapply akin_alike. }
  destruct Ha as (Ha & Hc & Hwq). split; [done|]. split; [done|]. intros Hwait (k & z & Hz & Hzp & Hzs).
  destruct (Hr k z Hz) as (z0 & Hz0 & Hwz).
  assert (Hz0s : p_state z0 = ZOMBIE /\ p_parent z = if bool_decide (p_parent z0 = Some p) then ini else p_parent z0).
  { destruct (wake_fields (ChProc <$> ini) (if bool_decide (p_parent z0 = Some p) then set_parent ini z0 else z0))
      as (Ewp & _ & _ & _ & _ & Ews).
    destruct Hwz as [->| ->]; rewrite ?Ewp in *.
    - case_bool_decide; done.
    - split; [|by case_bool_decide]. destruct Ews as [E|(_ & _ & E)]; [|congruence].
      rewrite E in Hzs. by case_bool_decide. }
  destruct Hz0s as [Hz0s Hz0p]. rewrite Hzp in Hz0p. case_bool_decide as E.
  - apply (Hz2 ltac:(by exists k, z0) j q' Hj).
    destruct Hwait as [Hw1 Hw2]. split; [done|]. unfold chan_ok in Hc. by rewrite Hw1, Hw2, <- Hz0p in *.
  - eapply (t_wait _ _ _ _ H1 j q0 Hq0 (Hwq Hwait)). by exists k, z0.
Qed.

(** exit's table *)
Lemma tinv_exit n ps ini pd next p q q1 q2 i : n = length ps -> tinv ps ini pd next -> ps !! p = Some q -> p_state q = RUNNING ->
  ini <> Some p -> pd !! p = None -> same_sched q q1 -> exit_table n p ini ps q1 !! p = Some q2 ->
  tinv (<[p := set_context (mkContext AtExit i) (set_state ZOMBIE q2)]> (exit_table n p ini ps q1)) ini pd next.
Proof.
  intros Hn Hi Hq Hrun Hini Hpd (Es & Ep & Ek & Eid & Ec & _) Hq2.
  assert (Hlq : live q) by (unfold live; auto).
  assert (Hchq : p_chan q = None) by (pose proof (t_chan _ _ _ _ Hi p q Hq) as H; unfold chan_ok in H; by rewrite Hrun in H).
  set (ps1 := wake (ChProc <$> p_parent q1) <$> <[p := q1]> ps).
  assert (H1 : tinv ps1 ini pd next).
  { apply tinv_wake. eapply tinv_update; [done|done| | |].
    - repeat split; try done. by left.
    - unfold chan_ok. rewrite Es, Hrun. congruence.
    - intros [Hw _]. congruence. }
  assert (Hlen1 : length ps1 = n) by (unfold ps1; by rewrite length_fmap, length_insert).
  assert (Hp1 : ps1 !! p = Some q1).
  { unfold ps1. rewrite list_lookup_fmap, (insert_at _ _ _ _ Hq). cbn. unfold wake.
    by rewrite bool_decide_false by congruence. }
  destruct (reparent_list_spec p ini n 0 ps1) as (Hl2 & Hr2 & Hz2); [lia|].
  unfold exit_table in *. fold ps1 in Hq2 |- *.
  generalize dependent (reparent_list p ini n 0 ps1). intros ps2 Hq2 Hl2 Hr2 Hz2.
  assert (Hr : forall j q', ps2 !! j = Some q' -> exists q0, ps1 !! j = Some q0 /\
    maybe_woken (ChProc <$> ini) (if bool_decide (p_parent q0 = Some p) then set_parent ini q0 else q0) q').
  { intros j q' Hj. destruct (Hr2 j q' Hj) as (q0 & Hq0 & Hw). exists q0. split; [done|].
    rewrite decide_True in Hw; [done|]. apply lookup_lt_Some in Hq0. lia. }
  clear Hr2. assert (Hq1p : p_parent q1 <> Some p) by (rewrite Ep; intros E; by eapply (t_parent _ _ _ _ Hi p q p) in E as [? _]).
  assert (H2 : tinv ps2 ini pd next).
  { eapply (tinv_reparent ps1); [done|done|exact Hr|]. intros (k & z & Hz & Hpz). apply Hz2.
    exists k, z. split; [apply lookup_lt_Some in Hz; lia|done]. }
  destruct (Hr p q2 Hq2) as (q0 & Hq0 & Hw). assert (q0 = q1) as -> by congruence.
  rewrite bool_decide_false in Hw by done.
  assert (q2 = q1) as ->.
  { destruct Hw as [->| ->]; [done|]. unfold wake. by rewrite bool_decide_false by congruence. }
  assert (Hnw : forall r qr, p_parent q1 = Some r -> ps2 !! r = Some qr -> ~ waiting qr).
  { intros r qr Hpr Hqr [Hw1 Hw2]. destruct (Hr r qr Hqr) as (q0 & Hr0 & Hwr).
    assert (E0 : p_state q0 = SLEEPING /\ p_chan q0 = Some (ChProc r)).
    { pose proof (t_chan _ _ _ _ H2 r qr Hqr) as Hc. unfold chan_ok in Hc. rewrite Hw1, Hw2 in Hc.
      destruct (wake_fields (ChProc <$> ini) (if bool_decide (p_parent q0 = Some p) then set_parent ini q0 else q0))
        as (_ & Ewc & _ & _ & _ & Ews).
      destruct Hwr as [->| ->]; rewrite ?Ewc in *.
      - by case_bool_decide.
      - destruct Ews as [E|(_ & _ & E)]; [rewrite E in Hw1|congruence]. by case_bool_decide. }
    revert Hr0. unfold ps1. rewrite list_lookup_fmap. destruct (<[p:=q1]> ps !! r) as [x|]; [|done].
    intros [= <-]. apply (wake_awake (ChProc <$> p_parent q1) x). destruct E0 as [-> ->]. by rewrite Hpr. }
  eapply (tinv_zombie ps2 ini pd next p q1); try done.
  - unfold live. rewrite Es, Hrun. auto.
  - congruence.
  - intros j qj Hj Hpj. destruct (Hr j qj Hj) as (q0 & Hj0 & Hwj).
    destruct (wake_fields (ChProc <$> ini) (if bool_decide (p_parent q0 = Some p) then set_parent ini q0 else q0))
      as (Ewp & _).
    assert (E : p_parent (if bool_decide (p_parent q0 = Some p) then set_parent ini q0 else q0) = Some p)
      by (destruct Hwj as [->| ->]; congruence).
    case_bool_decide; [|done]. by cbn in E.
  - cbn. congruence.
Qed.

(** ** The CPUs and the table *)

Definition run_at (ps : list proc) (j : nat) : Prop := exists q, ps !! j = Some q /\ p_state q = RUNNING.

(** Each CPU is outside the scheduler loop, in it with the lock, or running
    the process its scheduler had reached; each running process is on
    exactly one CPU. *)
Record rinv (m : mach) (ps : list proc) : Prop := {
  r_mach : mach_ok m;
  r_cpu i c : m_cpus m !! i = Some c ->
    match c_proc c, c_scheduler c with
    | None, None => True
    | None, Some k => in_loop k c /\ owner m i
    | Some p, Some k => k = p /\ run_at ps p
    | Some _, None => False
    end;
  r_run p : run_at ps p -> exists i c, m_cpus m !! i = Some c /\ c_proc c = Some p;
  r_uniq i j ci cj p : m_cpus m !! i = Some ci -> m_cpus m !! j = Some cj ->
    c_proc ci = Some p -> c_proc cj = Some p -> i = j;
  r_owner i : owner m i -> exists c k, m_cpus m !! i = Some c /\ in_loop k c
}.

(** What a CPU and the lock must be after a step *)
Definition cpu_next (me : nat) (c' : cpu) (lk : spinlock) (ps' : list proc) : Prop :=
  match c_proc c', c_scheduler c' with
  | None, None => lk <> mkLock 1 (Some me)
  | None, Some k => in_loop k c' /\ lk = mkLock 1 (Some me)
  | Some p, Some k => k = p /\ run_at ps' p /\ lk <> mkLock 1 (Some me)
  | Some _, None => False
  end.

Lemma rinv_sto me c c' lk ps' (s s' : sys) : rinv (s_mach s) (s_procs s) -> cpu_is s me c ->
  sto me c' lk ps' s s' -> cpu_next me c' lk ps' ->
  ((free (s_mach s) \/ owner (s_mach s) me) /\ (lk = mkLock 0 None \/ lk = mkLock 1 (Some me)) \/
   m_locks (s_mach s) !! ptable_lock = Some lk) ->
  (forall j, run_at ps' j <-> c_proc c' = Some j \/ (run_at (s_procs s) j /\ c_proc c <> Some j)) ->
  (forall j, c_proc c' = Some j -> c_proc c = Some j \/ ~ run_at (s_procs s) j) ->
  rinv (s_mach s') (s_procs s').
Proof.
  intros Hr Hme [Hok Hcs Hl -> _] Hnext Hlk Hrun Hnew. unfold cpu_is in Hme.
  assert (Hlt := lookup_lt_Some _ _ _ Hme).
  assert (Hother : forall i, i <> me -> m_cpus (s_mach s') !! i = m_cpus (s_mach s) !! i).
  { intros i Hi. rewrite Hcs. by apply list_lookup_insert_ne. }
  assert (Hmine : m_cpus (s_mach s') !! me = Some c') by (rewrite Hcs; by apply list_lookup_insert_eq).
  assert (Hrunj : forall i ci p, i <> me -> m_cpus (s_mach s) !! i = Some ci -> c_proc ci = Some p ->
    run_at (s_procs s) p /\ c_proc c <> Some p).
  { intros i ci p Hi Hci Hp. pose proof (r_cpu _ _ Hr i ci Hci) as H. rewrite Hp in H.
    destruct (c_scheduler ci); [|done]. destruct H as [_ H]. split; [done|]. intros Hc.
    by apply Hi, (r_uniq _ _ Hr i me ci c p). }
  split.
  - done.
  - intros i ci Hci. destruct (decide (i = me)) as [->|Hi].
    + assert (ci = c') as -> by congruence. unfold cpu_next in Hnext.
      destruct (c_proc c'), (c_scheduler c'); try done.
      * destruct Hnext as (-> & Hra & _). done.
      * destruct Hnext as [? ->]. done.
    + rewrite Hother in Hci by done. pose proof (r_cpu _ _ Hr i ci Hci) as H.
      destruct (c_proc ci) as [p|] eqn:Ep, (c_scheduler ci); try done.
      * destruct H as [-> H]. split; [done|]. apply Hrun. right. by eapply Hrunj.
      * destruct H as [Hin Ho]. split; [done|]. unfold owner, free in *.
        destruct Hlk as [[[Hf|Hf] _]|Hf]; congruence.
  - intros p [Hp|[Hp Hne]]%Hrun; [by exists me, c'|].
    destruct (r_run _ _ Hr p Hp) as (i & ci & Hci & Hpi). exists i, ci. split; [|done].
    rewrite Hother; [done|]. congruence.
  - intros i j ci cj p Hci Hcj Hpi Hpj. destruct (decide (i = me)) as [->|Hi], (decide (j = me)) as [->|Hj]; try done.
    + rewrite Hother in Hcj by done. assert (ci = c') as -> by congruence. exfalso.
      destruct (Hrunj j cj p Hj Hcj Hpj). destruct (Hnew p Hpi); done.
    + rewrite Hother in Hci by done. assert (cj = c') as -> by congruence. exfalso.
      destruct (Hrunj i ci p Hi Hci Hpi). destruct (Hnew p Hpj); done.
    + rewrite Hother in Hci, Hcj by done. by eapply Hr.
  - intros i Ho. unfold owner in Ho. assert (lk = mkLock 1 (Some i)) as -> by congruence.
    destruct (decide (i = me)) as [->|Hi].
    + unfold cpu_next in Hnext. destruct (c_proc c'), (c_scheduler c'); try done.
      * by destruct Hnext as (_ & _ & ?).
      * destruct Hnext as [Hin _]. by exists c', n.
    + destruct Hlk as [[_ [?|?]]|Hlk]; [congruence..|]. destruct (r_owner _ _ Hr i Hlk) as (ci & k & Hci & Hin).
      exists ci, k. by rewrite Hother.
Qed.

(** Which processes run, after the changes of the table *)
Lemma run_at_insert ps i q q' j : ps !! i = Some q ->
  run_at (<[i := q']> ps) j <-> (j = i /\ p_state q' = RUNNING) \/ (j <> i /\ run_at ps j).
Proof.
  intros Hi. split.
  - intros (x & [[-> ->]|[Hj Hx]]%insert_cases & Hs); [by left|right]. split; [done|]. by exists x.
  - intros [[-> Hs]|[Hj (x & Hx & Hs)]].
    + exists q'. split; [by eapply insert_at|done].
    + exists x. split; [by apply insert_other|done].
Qed.

Lemma run_at_same ps i q q' j : ps !! i = Some q -> (p_state q' = RUNNING <-> p_state q = RUNNING) ->
  run_at (<[i := q']> ps) j <-> run_at ps j.
Proof.
  intros Hi E. rewrite (run_at_insert ps i q q' j Hi), E. split.
  - intros [[-> ?]|[_ ?]]; [by exists q|done].
  - intros (x & Hx & Hs). destruct (decide (j = i)) as [->|]; [left|right; split; [done|by exists x]].
    split; [done|congruence].
Qed.

Lemma wake_running ch q : p_state (wake ch q) = RUNNING <-> p_state q = RUNNING.
Proof. destruct (wake_fields ch q) as (_ & _ & _ & _ & _ & [->|(E1 & _ & E2)]); [done|]. rewrite E1, E2. done. Qed.

Lemma run_at_wake ch ps j : run_at (wake ch <$> ps) j <-> run_at ps j.
Proof.
  unfold run_at. rewrite list_lookup_fmap. split.
  - intros (q & Hq & Hs). destruct (ps !! j) as [x|]; [|done]. injection Hq as <-. exists x.
    split; [done|]. by apply (wake_running ch).
  - intros (q & -> & Hs). exists (wake ch q). split; [done|]. by apply wake_running.
Qed.

Lemma exit_run n p ini ps q q1 j : n = length ps -> ps !! p = Some q -> same_sched q q1 ->
  run_at (exit_table n p ini ps q1) j <-> run_at ps j.
Proof.
  intros Hn Hq (Es & _). rewrite <- (run_at_same ps p q q1 j Hq) by (by rewrite Es).
  rewrite <- (run_at_wake (ChProc <$> p_parent q1) (<[p := q1]> ps)). unfold exit_table.
  set (ps1 := wake _ <$> _). assert (Hlen1 : length ps1 = n) by (unfold ps1; by rewrite length_fmap, length_insert).
  destruct (reparent_list_spec p ini n 0 ps1) as (Hl2 & Hr2 & _); [lia|].
  assert (Hst : forall x q', maybe_woken (ChProc <$> ini)
      (if decide (0 <= j < 0 + n)%nat then if bool_decide (p_parent x = Some p) then set_parent ini x else x else x) q' ->
    p_state q' = RUNNING <-> p_state x = RUNNING).
  { intros x q' [->| ->]; [|rewrite wake_running]; (destruct (decide _); [|done]; by destruct (bool_decide _)). }
  unfold run_at. split.
  - intros (x & Hx & Hs). destruct (Hr2 j x Hx) as (q0 & Hq0 & Hw). exists q0. split; [done|]. by apply (Hst q0 x Hw).
  - intros (x & Hx & Hs). destruct (lookup_lt_is_Some_2 (reparent_list p ini n 0 ps1) j) as [x' Hx'].
    { rewrite Hl2. by eapply lookup_lt_Some. }
    destruct (Hr2 j x' Hx') as (q0 & Hq0 & Hw). assert (q0 = x) as -> by congruence. exists x'.
    split; [done|]. by apply (Hst x x' Hw).
Qed.

(** The CPU part of the invariant under each kind of step *)
Lemma rinv_gave_up me p ps' (s s' : sys) : rinv (s_mach s) (s_procs s) -> gave_up me p ps' s s' ->
  ~ run_at ps' p -> (forall j, j <> p -> run_at ps' j <-> run_at (s_procs s) j) -> rinv (s_mach s') (s_procs s').
Proof.
  intros Hr (c & k & c' & Hme & Hp & Hk & Hf & _ & Hin & Hs) Hn Hj. pose proof Hin as (Hp' & Hk' & _).
  eapply (rinv_sto me c c'); [done|done|done| | | |].
  - unfold cpu_next. by rewrite Hp', Hk'.
  - left. auto.
  - intros j. rewrite Hp', Hp. destruct (decide (j = p)) as [->|Hne]; [naive_solver|].
    rewrite Hj by done. naive_solver.
  - intros j. by rewrite Hp'.
Qed.

Lemma rinv_stayed me ps' (s s' : sys) : rinv (s_mach s) (s_procs s) -> stayed me ps' s s' ->
  (forall j, run_at ps' j <-> run_at (s_procs s) j) -> rinv (s_mach s') (s_procs s').
Proof.
  intros Hr (c & c' & Hme & Hp & Hk & Hf & Hs) Hj. pose proof (r_cpu _ _ Hr me c Hme) as Hc.
  eapply (rinv_sto me c c'); [done|done|done| | | |].
  - unfold cpu_next. rewrite Hp, Hk. destruct (c_proc c), (c_scheduler c); try done.
    + destruct Hc as [-> Hc]. split; [done|]. split; [by apply Hj|done].
    + destruct Hc as [_ Hc]. unfold free, owner in *. congruence.
  - left. auto.
  - intros j. rewrite Hj, Hp. split; [|intros [E|[? _]]; [|done]].
    + intros H. destruct (decide (c_proc c = Some j)); auto.
    + rewrite E in Hc. destruct (c_scheduler c); [|done]. by destruct Hc.
  - intros j. rewrite Hp. auto.
Qed.

Lemma rinv_goes_on me k c ps' (s s' : sys) : rinv (s_mach s) (s_procs s) -> cpu_is s me c -> c_proc c = None ->
  owner (s_mach s) me -> goes_on me k ps' s s' -> ~ run_at (s_procs s) k ->
  (forall j, run_at ps' j <-> j = k \/ run_at (s_procs s) j) -> rinv (s_mach s') (s_procs s').
Proof.
  intros Hr Hme Hp Ho (c' & Hp' & Hk' & Hs) Hn Hj. eapply (rinv_sto me c c'); [done|done|done| | | |].
  - unfold cpu_next. rewrite Hp', Hk'. split; [done|]. split; [|done]. apply Hj. by left.
  - left. auto.
  - intros j. rewrite Hj, Hp', Hp. naive_solver.
  - intros j. rewrite Hp'. intros [= <-]. by right.
Qed.

(** The CPU enters or leaves the loop of its scheduler, or goes on in it. *)
Lemma rinv_scheduler me c c' lk ps' (s s' : sys) : rinv (s_mach s) (s_procs s) -> cpu_is s me c -> c_proc c = None ->
  free (s_mach s) \/ owner (s_mach s) me -> sto me c' lk ps' s s' ->
  (exists k, in_loop k c' /\ lk = mkLock 1 (Some me)) \/ (c_proc c' = None /\ c_scheduler c' = None /\ lk = mkLock 0 None) ->
  (forall j, run_at ps' j <-> run_at (s_procs s) j) -> rinv (s_mach s') (s_procs s').
Proof.
  intros Hr Hme Hp Ho Hs Hc' Hj.
  assert (Hp' : c_proc c' = None) by (by destruct Hc' as [(k & (? & _) & _)|(? & _)]).
  eapply (rinv_sto me c c'); [done|done|done| | | |].
  - unfold cpu_next. rewrite Hp'. destruct Hc' as [(k & Hin & ->)|(_ & -> & ->)]; [|done].
    pose proof Hin as (_ & -> & _). done.
  - left. split; [done|]. destruct Hc' as [(k & _ & ->)|(_ & _ & ->)]; auto.
  - intros j. rewrite Hj, Hp', Hp. naive_solver.
  - intros j. by rewrite Hp'.
Qed.

(** wait's scan finds a zombie child exactly when there is one. *)
Lemma find_zombie_spec cur ps : forall i,
  match find_zombie cur i ps with
  | (Some j, _) => exists z, (i <= j)%nat /\ ps !! (j - i)%nat = Some z /\ p_parent z = Some cur /\ p_state z = ZOMBIE
  | (None, havekids) => ~ zombie_child ps cur /\
      (havekids = true <-> exists j q, ps !! j = Some q /\ p_parent q = Some cur)
  end.
Proof.
  induction ps as [|p ps IH]; intros i; cbn [find_zombie].
  { split; [by intros (j & z & ? & _)|]. split; [done|]. by intros (j & q & ? & _). }
  specialize (IH (S i)). case_bool_decide as Ep; [case_bool_decide as Es|].
  - exists p. rewrite Nat.sub_diag. split; [lia|]. done.
  - destruct (find_zombie cur (S i) ps) as [[j|] hk]; cbn [fst].
    + destruct IH as (z & Hj & Hz & H). exists z. split; [lia|].
      replace (j - i)%nat with (S (j - S i)) by lia. done.
    + destruct IH as [Hn _]. split.
      * intros ([|j] & z & Hz & Hp & Hs); [cbn in Hz; congruence|]. apply Hn. by exists j, z.
      * split; [intros _; by exists O, p|done].
  - destruct (find_zombie cur (S i) ps) as [[j|] hk].
    + destruct IH as (z & Hj & Hz & H). exists z. split; [lia|].
      replace (j - i)%nat with (S (j - S i)) by lia. done.
    + destruct IH as [Hn Hk]. split.
      * intros ([|j] & z & Hz & Hp & Hs); [cbn in Hz; congruence|]. apply Hn. by exists j, z.
      * rewrite Hk. split.
        -- intros (j & q & Hq & Hp). by exists (S j), q.
        -- intros ([|j] & q & Hq & Hp); [cbn in Hq; congruence|by exists j, q].
Qed.

(** ** The invariant *)

Definition inv (cf : conf) : Prop :=
  rinv (s_mach (sy cf)) (s_procs (sy cf)) /\
  tinv (s_procs (sy cf)) (s_initproc (sy cf)) (pend cf) (s_nextpid (sy cf)) /\ 1 <= s_nextpid (sy cf).

Lemma sto_init_eq me c lk ps (s s' : sys) : sto me c lk ps s s' -> s_procs s' = ps /\ s_initproc s' = s_initproc s.
Proof. by intros [_ _ _ ? ?]. Qed.

(** The process a CPU runs *)
Lemma inv_cur s pd me c p : inv (mkConf s pd) -> cpu_is s me c -> c_proc c = Some p ->
  exists q, s_procs s !! p = Some q /\ p_state q = RUNNING /\ p_chan q = None.
Proof.
  intros (Hr & Ht & _) Hme Hp. pose proof (r_cpu _ _ Hr me c Hme) as H. rewrite Hp in H.
  destruct (c_scheduler c); [|done]. destruct H as [_ (q & Hq & Hs)]. exists q. split; [done|]. split; [done|].
  pose proof (t_chan _ _ _ _ Ht p q Hq) as Hc. unfold chan_ok in Hc. cbn in Hq. by rewrite Hs in Hc.
Qed.

(** A process gives up the CPU for a state [q'] that is not RUNNING. *)
Lemma inv_gave_up s s' pd me p q q' : inv (mkConf s pd) -> s_procs s !! p = Some q -> p_state q = RUNNING ->
  gave_up me p (<[p := q']> (s_procs s)) s s' -> alike q q' -> p_state q' <> RUNNING -> chan_ok p q' ->
  (waiting q' -> ~ zombie_child (s_procs s) p) -> inv (mkConf s' pd).
Proof.
  intros (Hr & Ht & Hn) Hq Hs Hg Ha Hs' Hc Hw. pose proof Hg as (c & k & c' & _ & _ & _ & _ & Hnp & _ & Hsto).
  apply sto_init_eq in Hsto as [Ep Ei]. split; [|cbn in *; rewrite Ep, Ei, Hnp; split; [|done]].
  - eapply rinv_gave_up; [done|done|..].
    + rewrite (run_at_insert _ p q) by done. naive_solver.
    + intros j Hj. rewrite (run_at_insert _ p q) by done. naive_solver.
  - eapply tinv_update; eauto.
Qed.

Lemma inv_stayed s s' pd pd' me ps' : inv (mkConf s pd) -> stayed me ps' s s' ->
  (forall j, run_at ps' j <-> run_at (s_procs s) j) -> 1 <= s_nextpid s' ->
  tinv ps' (s_initproc s) pd' (s_nextpid s') -> inv (mkConf s' pd').
Proof.
  intros (Hr & _ & _) Hst Hj Hn Ht. pose proof Hst as (c & c' & _ & _ & _ & _ & Hsto).
  apply sto_init_eq in Hsto as [Ep Ei]. split; [by eapply rinv_stayed|]. cbn. by rewrite Ep, Ei.
Qed.

Lemma asleep_alike at_ ch i q : live q -> alike q (asleep at_ ch i q).
Proof. intros H. repeat split. right. split; [done|]. unfold live. auto. Qed.

(** yield, sleep and exit *)
Lemma inv_switch s s' pd me c p : inv (mkConf s pd) -> cpu_is s me c -> c_proc c = Some p ->
  (yield me s = Ok tt s' \/
   (exists a lk, 1 <= c_ncli c /\ lk <> ptable_lock /\ sleep me (Some (ChAddr a)) lk (AtSleep lk) s = Ok tt s') \/
   (pd !! p = None /\ exit me s = Ok tt s')) -> inv (mkConf s' pd).
Proof.
  intros Hi Hme Hp Hop.
  pose proof (proj1 (proj2 Hi)) as Ht. assert (Hm : mach_ok (s_mach s)) by apply Hi.
  destruct (inv_cur s pd me c p Hi Hme Hp) as (q & Hq & Hs & Hch).
  assert (Hlq : live q) by (unfold live; auto).
  destruct Hop as [H|[(a & lk & Hn & Hlk & H)|[Hpd H]]].
  - apply (yield_Ok me s c) in H as (p' & q' & i & Hp' & Hq' & Hg); [|done..].
    assert (p' = p) as -> by congruence. assert (q' = q) as -> by congruence.
    eapply inv_gave_up; [done|done|done|exact Hg|..]; try done.
    + repeat split. right. split; [done|]. unfold live. auto.
    + by intros [? _].
  - apply (sleep_Ok me _ lk s c) in H as (p' & q' & i & Hp' & Hq' & Hg); [|done..].
    assert (p' = p) as -> by congruence. assert (q' = q) as -> by congruence.
    eapply inv_gave_up; [done|done|done|exact Hg|..]; try done.
    + by apply asleep_alike.
    + by exists a.
    + by intros [_ ?].
  - apply (exit_Ok me s c) in H as (p' & q' & q1 & q2 & i & Hp' & Hini & Hq' & Hsame & Hq2 & Hg); [|done..].
    assert (p' = p) as -> by congruence. assert (q' = q) as -> by congruence.
    assert (Hlen : Z.to_nat NPROC = length (s_procs s)) by (symmetry; apply Ht).
    pose proof Hg as (c0 & k & c' & _ & _ & _ & _ & Hnp & _ & Hsto). apply sto_init_eq in Hsto as [Ep Ei].
    revert Hq2 Hg Ep Hlen. generalize (Z.to_nat NPROC). intros n Hq2 Hg Ep Hlen.
    split; [|cbn; rewrite Ep, Ei, Hnp; split; [|apply Hi]].
    + eapply rinv_gave_up; [apply Hi|exact Hg|..].
      * rewrite (run_at_insert _ p q2) by done. naive_solver.
      * intros j Hj. rewrite (run_at_insert _ p q2), (exit_run n p _ _ q) by done. naive_solver.
    + by eapply tinv_exit.
Qed.

(** A reaped child does not run. *)
Lemma run_at_reaped ps i z j : ps !! i = Some z -> p_state z = ZOMBIE ->
  run_at (<[i := reaped z]> ps) j <-> run_at ps j.
Proof. intros Hz Hs. apply (run_at_same _ _ z); [done|]. cbn. rewrite Hs. done. Qed.

Lemma inv_wait s s' pd me c p r : inv (mkConf s pd) -> cpu_is s me c -> c_proc c = Some p ->
  wait me s = Ok r s' -> inv (mkConf s' pd).
Proof.
  intros Hi Hme Hp H. pose proof Hi as (Hr & Ht & Hn). cbn in Hr, Ht, Hn.
  destruct (inv_cur s pd me c p Hi Hme Hp) as (q & Hq & Hs & Hch).
  apply (wait_Ok me s c) in H as (Hnp & Hf & cur & Hcur & Hw); [|apply Hr|done].
  assert (cur = p) as -> by congruence. unfold waited in Hw.
  destruct (touched_fields c) as (_ & _ & _ & Etp & Etk).
  pose proof (find_zombie_spec p (s_procs s) 0) as Hz. destruct (find_zombie p 0 (s_procs s)) as [[i|] hk].
  - destruct Hz as (z & _ & Hz & Hzp & Hzs). rewrite Nat.sub_0_r in Hz. destruct Hw as (z' & Hz' & -> & Hsto).
    assert (z' = z) as -> by congruence. eapply (inv_stayed s); [done| |by intros; apply run_at_reaped|lia|].
    + exists c. eexists. split; [done|]. split; [|split; [|split; [done|exact Hsto]]]; done.
    + rewrite Hnp. by apply tinv_reap.
  - destruct Hz as [Hz _]. destruct Hw as (q' & Hq' & Hw). assert (q' = q) as -> by congruence.
    destruct (_ || _).
    + destruct Hw as [-> Hsto]. eapply (inv_stayed s); [done| |done|lia|by rewrite Hnp].
      exists c. eexists. split; [done|]. split; [|split; [|split; [done|exact Hsto]]]; done.
    + destruct Hw as (-> & p' & k & q' & i & c' & Hp' & Hk & Hq'' & Hin & Hsto). cbn in Hp', Hk.
      rewrite Etp in Hp'. rewrite Etk in Hk. assert (p' = p) as -> by congruence.
      assert (q' = q) as -> by congruence.
      eapply (inv_gave_up s s' pd me p q); [done|done|done|exists c, k, c'; done|..]; try done.
      apply asleep_alike. unfold live. auto.
Qed.

(** The scheduler's step from entry [k] *)
Lemma inv_picked s s' pd me c k q q' : inv (mkConf s pd) -> cpu_is s me c -> c_proc c = None ->
  owner (s_mach s) me -> s_procs s !! k = Some q -> p_state q = RUNNABLE -> p_state q' = RUNNING ->
  p_chan q' = None -> alike q q' -> s_nextpid s' = s_nextpid s -> goes_on me k (<[k := q']> (s_procs s)) s s' ->
  inv (mkConf s' pd).
Proof.
  intros Hi Hme Hp Ho Hq Hs Hs' Hch Ha Hnp Hg. pose proof Hi as (Hr & Ht & Hn). cbn in Hr, Ht, Hn.
  pose proof Hg as (c' & _ & _ & Hsto). apply sto_init_eq in Hsto as [Ep Ei].
  split; [|cbn; rewrite Ep, Ei, Hnp; split; [|done]].
  - eapply rinv_goes_on; [done|done|done|done|exact Hg|..].
    + intros (x & Hx & Hsx). congruence.
    + intros j. rewrite (run_at_insert _ k q) by done. split; [naive_solver|].
      intros [->|Hj]; [by left|]. destruct (decide (j = k)); [by left|by right].
  - eapply tinv_update; [done|done|done| |].
    + unfold chan_ok. by rewrite Hs'.
    + intros [? _]. congruence.
Qed.

Lemma runnable_running q : p_state q = RUNNABLE -> alike q (set_state RUNNING q).
Proof. intros Hs. repeat split. right. unfold live. rewrite Hs. auto. Qed.

Lemma runnable_running' q : p_state q = RUNNABLE -> alike q (set_chan None (set_state RUNNING q)).
Proof. intros Hs. repeat split. right. unfold live. rewrite Hs. auto. Qed.

Lemma inv_scan s s' pd me c k r : inv (mkConf s pd) -> cpu_is s me c -> c_proc c = None ->
  c_scheduler c = Some k -> scheduler_step me s = Ok r s' -> inv (mkConf s' pd).
Proof.
  intros Hi Hme Hp Hk H. pose proof Hi as (Hr & Ht & Hn). cbn in Hr, Ht, Hn.
  pose proof (r_cpu _ _ Hr me c Hme) as Hc. rewrite Hp, Hk in Hc. destruct Hc as [Hin Ho].
  apply (scheduler_step_Ok me k s s' c) in H as [Hnp H]; [|apply Hr|done..].
  assert (Hloop : forall c' lk, sto me c' lk (s_procs s) s s' ->
    (exists k, in_loop k c' /\ lk = mkLock 1 (Some me)) \/ (c_proc c' = None /\ c_scheduler c' = None /\ lk = mkLock 0 None) ->
    inv (mkConf s' pd)).
  { intros c' lk Hsto Hc'. pose proof (sto_init_eq _ _ _ _ _ _ Hsto) as [Ep Ei].
    split; [|cbn; by rewrite Ep, Ei, Hnp]. eapply rinv_scheduler; eauto. }
  destruct (Z.of_nat k <? NPROC).
  2:{ destruct H as (c' & H1 & H2 & Hsto). eapply Hloop; [done|]. auto. }
  destruct H as (q & Hq & H). case_bool_decide as Hs.
  2:{ destruct H as (c' & H1 & Hsto). eapply Hloop; [done|]. eauto. }
  pose proof (t_chan _ _ _ _ Ht k q Hq) as Hch. unfold chan_ok in Hch. rewrite Hs in Hch.
  cbn zeta in H. destruct (ctx_eip (p_context q)) eqn:Ectx.
  - eapply inv_picked; [done|done|done|done|exact Hq|done|..|exact H]; try done. by apply runnable_running.
  - eapply inv_picked; [done|done|done|done|exact Hq|done|..|exact H]; try done. by apply runnable_running.
  - eapply inv_picked; [done|done|done|done|exact Hq|done|..|exact H]; try done. by apply runnable_running'.
  - set (q' := set_chan None (set_state RUNNING q)) in H. unfold woke_in_wait in H.
    set (ps := <[k := q']> (s_procs s)) in H.
    assert (Ht1 : tinv ps (s_initproc s) pd (s_nextpid s)).
    { eapply tinv_update; [done|done|by apply runnable_running'|done|]. by intros [? _]. }
    assert (Hrun : forall j, run_at ps j <-> j = k \/ run_at (s_procs s) j).
    { intros j. unfold ps. rewrite (run_at_insert _ k q) by done. split; [naive_solver|].
      intros [->|Hj]; [by left|]. destruct (decide (j = k)); [by left|by right]. }
    assert (Hnr : ~ run_at (s_procs s) k) by (intros (x & Hx & Hsx); congruence).
    pose proof (find_zombie_spec k ps 0) as Hz. destruct (find_zombie k 0 ps) as [[i|] hk].
    + destruct Hz as (z & _ & Hz & _ & Hzs). rewrite Nat.sub_0_r in Hz. destruct H as (z' & Hz' & _ & Hg).
      assert (z' = z) as -> by congruence. pose proof Hg as (c' & _ & _ & Hsto). apply sto_init_eq in Hsto as [Ep Ei].
      split; [|cbn; rewrite Ep, Ei, Hnp; split; [by apply tinv_reap|done]].
      eapply rinv_goes_on; [done|done|done|done|exact Hg|done|]. intros j. by rewrite run_at_reaped.
    + destruct Hz as [Hz _]. destruct H as (q0 & Hq0 & H).
      assert (q0 = q') as -> by (unfold ps in Hq0; rewrite (insert_at _ _ _ _ Hq) in Hq0; congruence).
      destruct (_ || _).
      * destruct H as [_ H]. eapply inv_picked; [done|done|done|done|exact Hq|done|..|exact H]; try done.
        by apply runnable_running'.
      * destruct H as (_ & i & c' & Hin' & Hsto). pose proof (sto_init_eq _ _ _ _ _ _ Hsto) as [Ep Ei].
        split; [|cbn; rewrite Ep, Ei, Hnp; split; [|done]].
        -- eapply rinv_scheduler; [done|done|done|by right|exact Hsto|by left; eauto|].
           intros j. unfold ps. rewrite list_insert_insert_eq. apply (run_at_same _ _ q); [done|]. rewrite Hs. done.
        -- eapply tinv_update; [exact Ht1|exact Hq0|by apply asleep_alike; unfold live; auto|done|by right].
  - done.
Qed.

(** A failed fork changes one entry, outside the lock. *)
Lemma inv_edit s s' pd pd' np q q' : inv (mkConf s pd) -> edit np q q' s s' ->
  p_state q <> RUNNING -> p_state q' <> RUNNING ->
  tinv (<[np := q']> (s_procs s)) (s_initproc s) pd' (s_nextpid s) -> inv (mkConf s' pd').
Proof.
  intros (Hr & _ & Hn) [Hq (v & ->)] Hs Hs' Ht. split; [|by split]. cbn.
  assert (Hj : forall j, run_at (<[np := q']> (s_procs s)) j <-> run_at (s_procs s) j).
  { intros j. apply (run_at_same _ _ q); tauto. }
  destruct Hr as [H1 H2 H3 H4 H5]. split; [done| |..]; try done.
  - intros i c Hc. specialize (H2 i c Hc). destruct (c_proc c), (c_scheduler c); try done.
    destruct H2 as [-> H2]. split; [done|]. by apply Hj.
  - intros p Hp%Hj. by apply H3.
Qed.

Lemma inv_fork_rest s s' pd me c p np r : inv (mkConf s pd) -> cpu_is s me c -> c_proc c = Some p ->
  pd !! p = Some np -> fork_rest me p np s = Ok r s' -> inv (mkConf s' (delete p pd)).
Proof.
  intros Hi Hme Hp Hpd H. pose proof Hi as (Hr & Ht & Hn). cbn in Hr, Ht, Hn.
  destruct (t_pend _ _ _ _ Ht p np Hpd) as (qp & q & Hqp & Hlp & Hq & Hs).
  assert (Hne : p <> np) by (intros ->; assert (qp = q) as -> by congruence; by eapply live_not in Hs).
  apply (fork_rest_Ok me p np qp q s s' c) in H as [Hnp [(q' & _ & He & Hf)|(q' & _ & Hb & Hst)]]; [| |apply Hr|done..].
  - destruct Hf as (Hs' & Hk & Hpar & Hid). eapply inv_edit; [done|done|congruence|congruence|].
    eapply tinv_fork; try done. by left.
  - destruct Hb as (Hk & _ & _ & Hpar & _ & Hctx & Hs' & Hid).
    eapply inv_stayed; [done|exact Hst| |lia|].
    + intros j. apply (run_at_same _ _ q); [done|]. cbn. rewrite Hs. done.
    + rewrite Hnp. eapply tinv_fork; [done|done|done|done|]. right. done.
Qed.

Lemma inv_fork_find s s' pd me c p np : inv (mkConf s pd) -> cpu_is s me c -> c_proc c = Some p ->
  pd !! p = None -> allocproc_find me s = Ok (Some np) s' -> s_nextpid s + 1 < 2 ^ 31 ->
  inv (mkConf s' (<[p := np]> pd)) /\ s_nextpid s' = s_nextpid s + 1.
Proof.
  intros Hi Hme Hp Hpd H Hb. pose proof Hi as (Hr & Ht & Hn). cbn in Hr, Ht, Hn.
  destruct (inv_cur s pd me c p Hi Hme Hp) as (qp & Hqp & Hs & _).
  apply (allocproc_find_Ok me s c) in H as [Hu (q & Hq & Hnp & Hst)]; [|apply Hr|done].
  symmetry in Hu. apply find_unused_Some in Hu as (q' & Hq' & Hu). assert (q' = q) as -> by congruence.
  rewrite s32_id in Hnp by lia. split; [|done]. eapply inv_stayed; [done|exact Hst| |lia|].
  - intros j. apply (run_at_same _ _ q); [done|]. cbn. rewrite Hu. done.
  - rewrite Hnp. eapply tinv_alloc; try done. unfold live. auto.
Qed.

(** Acquiring or releasing another lock *)
Lemma inv_other s s' pd me c c' lk : inv (mkConf s pd) -> cpu_is s me c -> (c_proc c = None -> c_scheduler c = None) ->
  m_locks (s_mach s) !! ptable_lock = Some lk -> sto me c' lk (s_procs s) s s' ->
  c_proc c' = c_proc c -> c_scheduler c' = c_scheduler c -> s_nextpid s' = s_nextpid s -> inv (mkConf s' pd).
Proof.
  intros Hi Hme Hout Hl Hsto Ep Es Hnp. pose proof Hi as (Hr & Ht & Hn). cbn in Hr, Ht, Hn.
  pose proof (sto_init_eq _ _ _ _ _ _ Hsto) as [Eps Ei]. split; [|cbn; by rewrite Eps, Ei, Hnp].
  pose proof (r_cpu _ _ Hr me c Hme) as Hc.
  assert (Hno : lk <> mkLock 1 (Some me)).
  { intros ->. destruct (r_owner _ _ Hr me Hl) as (d & k & Hd & Hp & Hk & _). unfold cpu_is in Hme.
    assert (d = c) as -> by congruence. rewrite Hout in Hk; done. }
  eapply (rinv_sto me c c'); [done|done|exact Hsto| |by right| |].
  - unfold cpu_next. rewrite Ep, Es. destruct (c_proc c), (c_scheduler c); try done.
    + by destruct Hc.
    + by specialize (Hout eq_refl).
  - intros j. rewrite Ep. split; [|intros [E|[? _]]; [|done]].
    + intros H. destruct (decide (c_proc c = Some j)); auto.
    + rewrite E in Hc. destruct (c_scheduler c); [|done]. by destruct Hc.
  - intros j. rewrite Ep. auto.
Qed.

(** Every step preserves the invariant, as long as [nextpid] does not overflow. *)
Lemma inv_step cf n cf' : inv cf -> step cf n cf' -> s_nextpid (sy cf) + n < 2 ^ 31 ->
  inv cf' /\ s_nextpid (sy cf') = s_nextpid (sy cf) + n.
Proof.
  intros Hi Hst Hb. assert (Hm : mach_ok (s_mach (sy cf))) by apply Hi.
  destruct Hst as [me c s s' pd Hme Hp Hk Hn H|me c k r s s' pd Hme Hp Hk H|me c p s s' pd Hme Hp Hn H
    |me c p a lk s s' pd Hme Hp Hn Hlk H|me c p r s s' pd Hme Hp Hn Hpd H|me c p s s' pd Hme Hp Hn Hpd H
    |me c p s s' pd Hme Hp Hn Hpd H|me c p np s s' pd Hme Hp Hn Hpd H|me c p np r s s' pd Hme Hp Hn Hpd H
    |me c a s s' pd Hme Hout H|me c p pid r s s' pd Hme Hp Hn H|me c l s s' pd Hme Hout Hl H
    |me c l s s' pd Hme Hout Hl H]; cbn [sy] in *; rewrite ?Z.add_0_r in *.
  - apply (scheduler_enter_Ok me s s' c) in H as (Hnp & Hf & c' & Hin & Hsto); [|done..].
    pose proof (sto_init_eq _ _ _ _ _ _ Hsto) as [Ep Ei]. split; [|done].
    split; [|cbn; rewrite Ep, Ei, Hnp; apply Hi].
    eapply rinv_scheduler; [apply Hi|done|done|by left|exact Hsto|left; eauto|done].
  - assert (Hnp : s_nextpid s' = s_nextpid s).
    { pose proof (r_cpu _ _ (proj1 Hi) me c Hme) as Hc. rewrite Hp, Hk in Hc. destruct Hc as [Hin Ho].
      by apply (scheduler_step_Ok me k s s' c) in H as [Hnp _]. }
    split; [by eapply inv_scan|done].
  - split; [eapply inv_switch; eauto|]. apply (yield_Ok me s c) in H as (? & ? & ? & _ & _ & Hg); [|done..].
    by destruct Hg as (? & ? & ? & _ & _ & _ & _ & Hnp & _).
  - split; [eapply inv_switch; [done|done|done|]; right; left; exists a, lk; split; [lia|done]|].
    apply (sleep_Ok me _ lk s c) in H as (? & ? & ? & _ & _ & Hg); [|done|done|done|lia].
    by destruct Hg as (? & ? & ? & _ & _ & _ & _ & Hnp & _).
  - split; [by eapply inv_wait|]. by apply (wait_Ok me s c) in H as (Hnp & _).
  - split; [eapply inv_switch; eauto|].
    apply (exit_Ok me s c) in H as (? & ? & ? & ? & ? & _ & _ & _ & _ & _ & Hg); [|done..].
    by destruct Hg as (? & ? & ? & _ & _ & _ & _ & Hnp & _).
  - apply (allocproc_find_Ok me s c) in H as (_ & Hnp & Hst); [|done..]. split; [|done].
    eapply inv_stayed; [done|exact Hst|done|rewrite Hnp; apply Hi|rewrite Hnp; apply Hi].
  - by eapply inv_fork_find.
  - split; [by eapply inv_fork_rest|]. destruct (t_pend _ _ _ _ (proj1 (proj2 Hi)) p np Hpd) as (qp & q & Hqp & Hlp & Hq & Hs).
    assert (Hne : p <> np) by (intros ->; assert (qp = q) as -> by congruence; by eapply live_not in Hs).
    by apply (fork_rest_Ok me p np qp q s s' c) in H as [Hnp _].
  - apply (wakeup_Ok me _ s c) in H as [Hst Hnp]; [|done..]. split; [|done].
    eapply inv_stayed; [done|exact Hst|intros; apply run_at_wake|rewrite Hnp; apply Hi|].
    rewrite Hnp. apply tinv_wake, Hi.
  - apply (kill_Ok me pid s c) in H as [Hnp H]; [|done..]. split; [|done].
    destruct (find_pid pid (s_procs s)) as [i|].
    + destruct H as (q & _ & Hq & Hst). eapply inv_stayed; [done|exact Hst| |rewrite Hnp; apply Hi|].
      * intros j. apply (run_at_same _ _ q); [done|]. unfold kill_proc. cbn zeta. cbn.
        case_bool_decide as E; cbn; rewrite ?E; done.
      * rewrite Hnp. apply tinv_kill; [apply Hi|done].
    + destruct H as [_ Hst]. eapply inv_stayed; [done|exact Hst|done|rewrite Hnp; apply Hi|rewrite Hnp; apply Hi].
  - pose proof Hm as (H1 & H2 & lk & Hl0 & Hlk). destruct (acquire_other me l s s' c lk) as [Hnp Hsto]; try done.
    split; [|done]. by eapply (inv_other s s' pd me c (pushed c) lk).
  - pose proof Hm as (H1 & H2 & lk & Hl0 & Hlk).
    destruct (release_other me l s s s' c c lk (s_procs s)) as (_ & _ & Hnp & _ & Hsto); try done.
    { split; try done. by rewrite list_insert_id. }
    split; [|done]. by eapply (inv_other s s' pd me c (popped c) lk).
Qed.

End inv.
End ProcInv.
