(* ===== verification/ProcProps.v ===== *)
(** * Properties of processes and of the scheduler *)
From S2P Require Import Prelude Words Params CString Spinlock Proc ProcStep ProcInv.

Module ProcProps.
Import Spinlock Proc ProcStep ProcInv.

Section props.
Context {V : Type} {PE : ProcEnv V}.
#[local] Abbreviation sys := (@sys V).

(** ** From the boot of the machine *)

(** An entry of ptable.proc before any use (static memory is zero) *)
Definition zero_proc : proc :=
  mkProc 0 0 0 UNUSED 0 None [] (mkContext AtForkret 0) None 0 (replicate (Z.to_nat NOFILE) None) None (replicate 16 0).

(** The state in which main calls userinit *)
Definition at_boot (s : sys) : Prop :=
  cpus_ok (s_mach s) /\
  (forall i c, m_cpus (s_mach s) !! i = Some c -> c_ncli c = 0 /\ c_proc c = None /\ c_scheduler c = None) /\
  free (s_mach s) /\ s_procs s = replicate (Z.to_nat NPROC) zero_proc /\ s_nextpid s = 1.

Definition boots (s : sys) : Prop := exists me s0, at_boot s0 /\ userinit me s0 = Ok tt s.

(** Reachable configurations; [n] counts the process ids handed out by fork. *)
Inductive reach : conf -> Z -> Prop :=
| reach_boot s : boots s -> reach (mkConf s ∅) 0
| reach_step cf n cf' k : reach cf n -> step cf k cf' -> reach cf' (n + k).

(** userinit leaves one process, RUNNABLE, in entry 0. *)
Lemma userinit_Ok me (s0 s' : sys) : at_boot s0 -> userinit me s0 = Ok tt s' ->
  exists c c' q, m_cpus (s_mach s0) !! me = Some c /\ m_cpus (s_mach s') = <[me := c']> (m_cpus (s_mach s0)) /\
    c_proc c' = None /\ c_scheduler c' = None /\ mach_ok (s_mach s') /\ free (s_mach s') /\
    s_procs s' = <[0%nat := q]> (s_procs s0) /\ s_initproc s' = Some 0%nat /\ s_nextpid s' = 2 /\
    p_state q = RUNNABLE /\ p_pid q = 1 /\ p_kstack q <> 0 /\ p_parent q = None /\ p_chan q = None /\
    ctx_eip (p_context q) = AtForkret.
Proof.
  intros (Hok & Hcs & Hf & Hps & Hn) H.
  assert (Hc0 : forall i c, m_cpus (s_mach s0) !! i = Some c -> cpu_ok c).
  { intros i c Hi. destruct (Hcs i c Hi) as [E _]. split; lia. }
  assert (Hm : mach_ok (s_mach s0)) by (split; [done|]; split; [done|]; eexists; split; [exact Hf|by left]).
  assert (exists c, m_cpus (s_mach s0) !! me = Some c) as [c Hme].
  { apply bind_Ok_inv in H as (o & s1 & H1 & _). apply bind_Ok_inv in H1 as (o1 & s2 & H1 & _).
    apply bind_Ok_inv in H1 as ([] & s3 & H1 & _). apply onm_Ok in H1 as (m' & H1 & _).
    by eapply (do_ev_cpu me (Acquire ptable_lock)). }
  destruct (Hcs me c Hme) as (Hnc & Hp0 & Hk0).
  apply bind_Ok_inv in H as (o & s1 & H1 & H). apply bind_Ok_inv in H1 as (o1 & s2 & H1 & H2).
  apply (allocproc_find_Ok me s0 c) in H1 as [Eo H1]; [|done..]. rewrite Hps in Eo.
  change (find_unused (replicate (Z.to_nat NPROC) zero_proc)) with (Some 0%nat) in Eo. subst o1.
  destruct H1 as (q0 & Hq0 & Hn1 & c1 & c1' & Hme1 & Hp1 & Hk1 & _ & Hs1).
  assert (c1 = c) as -> by congruence. rewrite Hn in Hn1, Hs1. change (s32 (1 + 1)) with 2 in Hn1.
  assert (Hz : q0 = zero_proc).
  { rewrite Hps in Hq0. change (replicate (Z.to_nat NPROC) zero_proc !! 0%nat) with (Some zero_proc) in Hq0. congruence. }
  apply allocproc_stack_Ok in H2 as (q1 & q2 & He & Ho).
  assert (Hq1 : q1 = set_pid 1 (set_state EMBRYO q0)).
  { destruct He as [He _]. rewrite (sto_procs _ _ _ _ _ _ Hs1), list_lookup_insert_eq in He; [congruence|].
    by eapply lookup_lt_Some. }
  apply bind_Ok_inv in H as ([] & s3 & [= <-] & H). destruct o as [i|]; [|done].
  destruct Ho as (-> & Hks & Hctx & Hst & Hpar & Hpid & Hch & Hkl). cbn [from_option_undef] in H.
  rewrite bind_ret_l in H. set (s3 := set_initproc (Some 0%nat) s1) in H.
  assert (He3 : edit 0 q2 q2 s3 s3) by (apply edit_refl; exact (edit_lookup _ _ _ _ _ He)).
  apply bind_Ok_inv in H as (pg & s4 & H4 & H). eapply edit_one in H4; [|exact He3].
  apply bind_Ok_inv in H as ([] & s5 & H5 & H). eapply edit_upd in H5; [|exact H4].
  destruct (pg =? 0); [done|].
  apply bind_Ok_inv in H as ([] & s6 & H6 & H). eapply edit_one in H6; [|exact H5].
  apply bind_Ok_inv in H as ([] & s7 & H7 & H). eapply edit_upd in H7; [|exact H6].
  apply bind_Ok_inv in H as ([] & s8 & H8 & H). eapply edit_upd in H8; [|exact H7].
  apply bind_Ok_inv in H as (nm & s9 & H9 & H). destruct (CString.safestrcpy _ _) as [nm'|]; [|done].
  injection H9 as -> <-.
  apply bind_Ok_inv in H as ([] & s10 & H10 & H). eapply edit_upd in H10; [|exact H8].
  apply bind_Ok_inv in H as (cwd & s11 & H11 & H). eapply edit_one in H11; [|exact H10].
  apply bind_Ok_inv in H as ([] & s12 & H12 & H). eapply edit_upd in H12; [|exact H11].
  match type of H12 with edit _ _ ?x _ _ => set (q3 := x) in H12 end.
  destruct He as [_ (v1 & ->)], H12 as [_ (v2 & ->)]. pose proof Hs1 as [Hm2 Hcs2 Hl2 Hps2 _].
  set (s12 := set_env v2 _) in H.
  assert (H12me : m_cpus (s_mach s12) !! me = Some c1').
  { change (m_cpus (s_mach s2) !! me = Some c1'). rewrite Hcs2. apply list_lookup_insert_eq. by eapply lookup_lt_Some. }
  apply bind_Ok_inv in H as ([] & s13 & Ha & H).
  apply (acq_sto me s12 c1') in Ha as (_ & -> & Hs13); [|exact Hm2|done].
  apply bind_Ok_inv in H as ([] & s14 & (q4 & Hq4 & ->)%upd_Ok & H).
  assert (Hlen : (0 < length (s_procs s0))%nat) by (by eapply lookup_lt_Some).
  assert (Eps : s_procs s12 = <[0%nat := q3]> (s_procs s0)).
  { change (<[0%nat := q3]> (<[0%nat := q2]> (s_procs s2)) = <[0%nat := q3]> (s_procs s0)).
    by rewrite Hps2, !list_insert_insert_eq. }
  assert (q4 = q3) as ->.
  { change (s_procs s12 !! 0%nat = Some q4) in Hq4. rewrite Eps, list_lookup_insert_eq in Hq4 by done. congruence. }
  eapply (rel_sto me s12) in H as (_ & _ & _ & Hn' & Hs'); [|done|by eapply sto_set_procs].
  destruct Hs' as [Hm' Hcs' Hl' Hps' Hi'].
  exists c, (popped (pushed c1')), (set_state RUNNABLE q3).
  split; [done|]. split; [rewrite Hcs'; change (m_cpus (s_mach s12)) with (m_cpus (s_mach s2)); by rewrite Hcs2, list_insert_insert_eq|].
  split; [by cbn; rewrite Hp1|]. split; [by cbn; rewrite Hk1|]. split; [done|]. split; [done|].
  split. { rewrite Hps'. change (s_procs (set_mach _ s12)) with (s_procs s12). by rewrite Eps, list_insert_insert_eq. }
  split; [done|]. split; [rewrite Hn'; exact Hn1|].
  cbn. rewrite Hpid, Hpar, Hch, Hq1, Hz. done.
Qed.

Lemma boot_table (q : proc) j x : <[0%nat := q]> (replicate (Z.to_nat NPROC) zero_proc) !! j = Some x ->
  (j = 0%nat /\ x = q) \/ x = zero_proc.
Proof.
  intros [[-> ->]|[Hj Hx]]%insert_cases; [by left|right]. by apply lookup_replicate in Hx as [-> _].
Qed.

Lemma boot_inv s : boots s -> inv (mkConf s ∅) /\ s_nextpid s = 2.
Proof.
  intros (me & s0 & Hb & H). destruct (userinit_Ok me s0 s Hb H)
    as (c & c' & q & Hme & Hcs & Hp & Hk & Hm & Hf & Hps & Hi & Hn & Qs & Qi & Qk & Qp & Qc & Qx).
  destruct Hb as (_ & Hcs0 & _ & Hps0 & _). rewrite Hps0 in Hps. split; [|done].
  assert (Hz : s_procs s !! 0%nat = Some q) by (rewrite Hps; apply list_lookup_insert_eq; rewrite length_replicate; unfold NPROC; lia).
  assert (Hcpu : forall i d, m_cpus (s_mach s) !! i = Some d -> c_proc d = None /\ c_scheduler d = None).
  { intros i d Hd. rewrite Hcs in Hd. destruct (decide (i = me)) as [->|Hne].
    - rewrite list_lookup_insert_eq in Hd by (by eapply lookup_lt_Some). by injection Hd as <-.
    - rewrite list_lookup_insert_ne in Hd by done. by destruct (Hcs0 i d Hd). }
  assert (Hnr : forall j, ~ run_at (s_procs s) j).
  { intros j (x & Hx & Hs). rewrite Hps in Hx. apply boot_table in Hx as [[-> ->]| ->]; [congruence|done]. }
  split; [|split; [|cbn; lia]]; cbn.
  - split; [done|..].
    + intros i d Hd. by destruct (Hcpu i d Hd) as [-> ->].
    + intros p Hr. by destruct (Hnr p).
    + intros i j ci cj p Hci _ Hpi. destruct (Hcpu i ci Hci). congruence.
    + intros i Ho. unfold owner, free in *. congruence.
  - rewrite Hps, Hn, Hi. rewrite Hps in Hz. split.
    + by rewrite length_insert, length_replicate.
    + intros i x [[-> ->]| ->]%boot_table; [lia|]. cbn. split; [lia|done].
    + intros i j x y [[-> ->]| ->]%boot_table [[-> ->]| ->]%boot_table; cbn; done || congruence.
    + exists 0%nat, q. split; [done|]. split; [done|]. split; [|done]. unfold live. auto.
    + intros i x r [[-> ->]| ->]%boot_table; [congruence|done].
    + intros i x [[-> ->]| ->]%boot_table; auto.
    + intros i x [[-> ->]| ->]%boot_table; intros [Hw _]; [congruence|done].
    + intros i x [[-> ->]| ->]%boot_table; unfold chan_ok; [by rewrite Qs, Qx|done].
    + intros i x [[-> ->]| ->]%boot_table; [|cbn; naive_solver]. rewrite Qs. naive_solver.
    + done.
    + intros i x [[-> ->]| ->]%boot_table; [congruence|done].
    + done.
Qed.

Lemma step_count cf k cf' : step cf k cf' -> 0 <= k.
Proof. by inversion 1. Qed.

Lemma reach_count cf n : reach cf n -> 0 <= n.
Proof. induction 1 as [|? ? ? ? _ ? ?%step_count]; lia. Qed.

Lemma reach_inv cf n : reach cf n -> n < 2 ^ 31 - 3 -> inv cf /\ s_nextpid (sy cf) = 2 + n.
Proof.
  induction 1 as [s Hb|cf n cf' k Hr IH Hs]; intros Hn.
  - by destruct (boot_inv s Hb).
  - pose proof (step_count _ _ _ Hs). destruct IH as [Hi Hp]; [lia|].
    destruct (inv_step cf k cf' Hi Hs) as [Hi' Hp']; [lia|]. split; [done|lia].
Qed.

(** ** Safety *)


(** C13: no exit is missed.  In every reachable state, whatever the interleaving
    of exits, waits, kills and reparenting, a process asleep in wait has no
    zombie child, and every zombie has a living parent that is not asleep in
    wait: it can still reap it. *)
Theorem wait_no_lost_wakeup cf n : reach cf n -> n < 2 ^ 31 - 3 ->
  (forall i q, s_procs (sy cf) !! i = Some q -> waiting q -> ~ zombie_child (s_procs (sy cf)) i) /\
  (forall j z, s_procs (sy cf) !! j = Some z -> p_state z = ZOMBIE ->
     exists r qr, p_parent z = Some r /\ s_procs (sy cf) !! r = Some qr /\ live qr /\ ~ waiting qr).
Proof.
  intros Hr Hn. destruct (reach_inv cf n Hr Hn) as [(_ & Ht & _) _]. split; [apply Ht|].
  intros j z Hz Hs. destruct (p_parent z) as [r|] eqn:Ep.
  - destruct (t_parent _ _ _ _ Ht j z r Hz Ep) as (_ & _ & qr & Hqr & Hl). exists r, qr.
    split; [done|]. split; [done|]. split; [done|]. intros Hw.
    apply (t_wait _ _ _ _ Ht r qr Hqr Hw). by exists j, z.
  - destruct (t_orphan _ _ _ _ Ht j z Hz Ep) as [Hini|[?|?]]; [|congruence..].
    destruct (t_init _ _ _ _ Ht) as (y & qy & Hy & Hqy & Hl & _). assert (y = j) as -> by congruence.
    assert (qy = z) as -> by congruence. by eapply live_not in Hs.
Qed.

(** ** Fairness *)

(** How a step moves a CPU: not at all; from its process to the next entry of
    its scheduler; past an entry that is not RUNNABLE; to a RUNNABLE process
    (which may go back to sleep at once); or out of and into the loop. *)
Inductive moves (s s' : sys) (c c' : cpu) : Prop :=
| mv_same : c_proc c' = c_proc c -> c_scheduler c' = c_scheduler c -> moves s s' c c'
| mv_leave k : c_proc c = Some k -> c_scheduler c = Some k ->
    c_proc c' = None -> c_scheduler c' = Some (S k) -> moves s s' c c'
| mv_next k q : c_proc c = None -> c_scheduler c = Some k -> Z.of_nat k < NPROC ->
    s_procs s !! k = Some q -> p_state q <> RUNNABLE ->
    c_proc c' = None -> c_scheduler c' = Some (S k) -> moves s s' c c'
| mv_pick k q q' : c_proc c = None -> c_scheduler c = Some k -> Z.of_nat k < NPROC ->
    s_procs s !! k = Some q -> p_state q = RUNNABLE -> s_procs s' !! k = Some q' -> p_state q' <> RUNNABLE ->
    (c_proc c' = Some k /\ c_scheduler c' = Some k) \/ (c_proc c' = None /\ c_scheduler c' = Some (S k)) ->
    moves s s' c c'
| mv_end k : c_proc c = None -> c_scheduler c = Some k -> NPROC <= Z.of_nat k ->
    c_proc c' = None -> c_scheduler c' = None -> moves s s' c c'
| mv_enter : c_proc c = None -> c_scheduler c = None ->
    c_proc c' = None -> c_scheduler c' = Some 0%nat -> moves s s' c c'.

Lemma sto_moves a ca ca' lk ps (s s' : sys) me c : sto a ca' lk ps s s' -> cpu_is s a ca -> moves s s' ca ca' ->
  cpu_is s me c -> exists c', cpu_is s' me c' /\ moves s s' c c'.
Proof.
  unfold cpu_is. intros [_ Hcs _ _ _] Ha Hmv Hc. rewrite Hcs. destruct (decide (a = me)) as [->|Hne].
  - assert (ca = c) as -> by congruence. exists ca'. split; [|done].
    apply list_lookup_insert_eq. by eapply lookup_lt_Some.
  - exists c. rewrite list_lookup_insert_ne by done. split; [done|]. by apply mv_same.
Qed.

Lemma gave_up_moves me p ps (s s' : sys) i c : rinv (s_mach s) (s_procs s) -> gave_up me p ps s s' ->
  cpu_is s i c -> exists c', cpu_is s' i c' /\ moves s s' c c'.
Proof.
  intros Hr (d & k & d' & Hd & Hp & Hk & _ & _ & (Hp' & Hk' & _) & Hs) Hi.
  eapply sto_moves; [exact Hs|exact Hd| |done]. pose proof (r_cpu _ _ Hr me d Hd) as H. rewrite Hp, Hk in H.
  destruct H as [-> _]. by eapply mv_leave.
Qed.

Lemma stayed_moves me ps (s s' : sys) i c : stayed me ps s s' -> cpu_is s i c ->
  exists c', cpu_is s' i c' /\ moves s s' c c'.
Proof.
  intros (d & d' & Hd & Hp & Hk & _ & Hs) Hi. eapply sto_moves; [exact Hs|exact Hd| |done]. by apply mv_same.
Qed.

Lemma scan_moves me k (s s' : sys) pd c r : inv (mkConf s pd) -> cpu_is s me c -> c_proc c = None ->
  c_scheduler c = Some k -> scheduler_step me s = Ok r s' ->
  exists c' lk ps, sto me c' lk ps s s' /\ moves s s' c c'.
Proof.
  intros Hi Hme Hp Hk H. pose proof Hi as (Hr & Ht & _). cbn in Hr, Ht.
  pose proof (r_cpu _ _ Hr me c Hme) as Hc. rewrite Hp, Hk in Hc. destruct Hc as [Hin Ho].
  apply (scheduler_step_Ok me k s s' c) in H as [_ H]; [|apply Hr|done..].
  destruct (Z.ltb_spec (Z.of_nat k) NPROC) as [Hlt|Hge].
  2:{ destruct H as (c' & H1 & H2 & Hs). exists c', (mkLock 0 None), (s_procs s). split; [done|]. by eapply mv_end. }
  destruct H as (q & Hq & H). case_bool_decide as Hst.
  2:{ destruct H as (c' & (H1 & H2 & _) & Hs). eexists c', _, _. split; [exact Hs|]. by eapply mv_next. }
  cbn zeta in H.
  assert (Hgo : forall x ps, p_state x = RUNNING -> ps !! k = Some x -> goes_on me k ps s s' ->
    exists c' lk ps, sto me c' lk ps s s' /\ moves s s' c c').
  { intros x ps Hx Hpk (c' & H1 & H2 & Hs). eexists c', _, _. split; [exact Hs|].
    eapply (mv_pick s s' c c' k q x); try done; [by rewrite (sto_procs _ _ _ _ _ _ Hs)|congruence|by left]. }
  assert (Hins : forall x, <[k := x]> (s_procs s) !! k = Some x) by (intros; by eapply insert_at).
  destruct (ctx_eip (p_context q)); try (eapply Hgo; [..|exact H]; [|by apply Hins]; done); [|done].
  set (q' := set_chan None (set_state RUNNING q)) in H. unfold woke_in_wait in H.
  set (ps := <[k := q']> (s_procs s)) in H.
  pose proof (find_zombie_spec k ps 0) as Hz. destruct (find_zombie k 0 ps) as [[i|] hk].
  - destruct Hz as (z & _ & Hz & _ & Hzs). rewrite Nat.sub_0_r in Hz. destruct H as (z' & Hz' & _ & Hg).
    assert (z' = z) as -> by congruence. eapply (Hgo q'); [done| |exact Hg]. apply insert_other; [apply Hins|].
    intros ->. unfold ps in Hz. rewrite Hins in Hz. injection Hz as <-. done.
  - destruct H as (q0 & Hq0 & H). destruct (_ || _).
    + destruct H as [_ Hg]. eapply (Hgo q'); [done|apply Hins|exact Hg].
    + destruct H as (_ & i & c' & (H1 & H2 & _) & Hs). eexists c', _, _. split; [exact Hs|].
      eapply (mv_pick s s' c c' k q (asleep AtWait (Some (ChProc k)) i q0)); try done.
      * rewrite (sto_procs _ _ _ _ _ _ Hs). by eapply insert_at.
      * by right.
Qed.

Lemma step_moves cf n cf' me c : inv cf -> step cf n cf' -> cpu_is (sy cf) me c ->
  exists c', cpu_is (sy cf') me c' /\ moves (sy cf) (sy cf') c c'.
Proof.
  intros Hi Hst Hc. pose proof (proj1 Hi) as Hr. assert (Hm : mach_ok (s_mach (sy cf))) by apply Hr.
  destruct Hst as [a d s s' pd Ha Hp Hk Hn H|a d k r s s' pd Ha Hp Hk H|a d p s s' pd Ha Hp Hn H
    |a d p x lk s s' pd Ha Hp Hn Hlk H|a d p r s s' pd Ha Hp Hn Hpd H|a d p s s' pd Ha Hp Hn Hpd H
    |a d p s s' pd Ha Hp Hn Hpd H|a d p np s s' pd Ha Hp Hn Hpd H|a d p np r s s' pd Ha Hp Hn Hpd H
    |a d x s s' pd Ha Hout H|a d p pid r s s' pd Ha Hp Hn H|a d l s s' pd Ha Hout Hl H
    |a d l s s' pd Ha Hout Hl H]; cbn [sy] in *.
  - apply (scheduler_enter_Ok a s s' d) in H as (_ & _ & d' & (H1 & H2 & _) & Hs); [|done..].
    eapply sto_moves; [exact Hs|exact Ha| |done]. by apply mv_enter.
  - destruct (scan_moves a k s s' pd d r Hi Ha Hp Hk H) as (d' & lk & ps & Hs & Hmv). by eapply sto_moves.
  - apply (yield_Ok a s d) in H as (? & ? & ? & _ & _ & Hg); [|done..]. by eapply gave_up_moves.
  - apply (sleep_Ok a _ lk s d) in H as (? & ? & ? & _ & _ & Hg); [|done|done|done|lia]. by eapply gave_up_moves.
  - apply (wait_Ok a s d) in H as (_ & Hf & cur & Hcur & Hw); [|done..]. unfold waited in Hw.
    destruct (touched_fields d) as (_ & _ & _ & Etp & Etk).
    assert (Hsame : forall lk ps, sto a (popped (pushed (touched d))) lk ps s s' ->
      exists c', cpu_is s' me c' /\ moves s s' c c').
    { intros lk ps Hs. eapply sto_moves; [exact Hs|exact Ha| |done]. by apply mv_same. }
    destruct (find_zombie cur 0 (s_procs s)) as [[i|] hk].
    + destruct Hw as (z & _ & _ & Hs). by eapply Hsame.
    + destruct Hw as (q & _ & Hw). destruct (_ || _); [destruct Hw as [_ Hs]; by eapply Hsame|].
      destruct Hw as (_ & p' & k & q' & i & d' & Hp' & Hk & _ & (H1 & H2 & _) & Hs). cbn in Hp', Hk.
      rewrite Etp in Hp'. rewrite Etk in Hk. eapply sto_moves; [exact Hs|exact Ha| |done].
      pose proof (r_cpu _ _ Hr a d Ha) as H. rewrite Hp', Hk in H. destruct H as [-> _]. by eapply mv_leave.
  - apply (exit_Ok a s d) in H as (? & ? & ? & ? & ? & _ & _ & _ & _ & _ & Hg); [|done..]. by eapply gave_up_moves.
  - apply (allocproc_find_Ok a s d) in H as (_ & _ & Hst); [|done..]. by eapply stayed_moves.
  - apply (allocproc_find_Ok a s d) in H as (_ & q & _ & _ & Hst); [|done..]. by eapply stayed_moves.
  - destruct (t_pend _ _ _ _ (proj1 (proj2 Hi)) p np Hpd) as (qp & q & Hqp & Hlp & Hq & Hs).
    assert (Hne : p <> np) by (intros ->; assert (qp = q) as -> by congruence; by eapply live_not in Hs).
    apply (fork_rest_Ok a p np qp q s s' d) in H as [_ [(q' & _ & [_ (v & ->)] & _)|(q' & _ & _ & Hst)]]; [| |done..].
    + exists c. split; [done|]. by apply mv_same.
    + by eapply stayed_moves.
  - apply (wakeup_Ok a _ s d) in H as [Hst _]; [|done..]. by eapply stayed_moves.
  - apply (kill_Ok a pid s d) in H as [_ H]; [|done..]. destruct (find_pid pid (s_procs s)).
    + destruct H as (q & _ & _ & Hst). by eapply stayed_moves.
    + destruct H as [_ Hst]. by eapply stayed_moves.
  - pose proof Hm as (_ & _ & lk & Hl0 & _). destruct (acquire_other a l s s' d lk) as [_ Hs]; try done.
    eapply sto_moves; [exact Hs|exact Ha| |done]. by apply mv_same.
  - pose proof Hm as (_ & _ & lk & Hl0 & _).
    destruct (release_other a l s s s' d d lk (s_procs s)) as (_ & _ & _ & _ & Hs); try done.
    { split; try done. by rewrite list_insert_id. }
    eapply sto_moves; [exact Hs|exact Ha| |done]. by apply mv_same.
Qed.

(** Whether a step of [s], which takes a CPU from [c] to [c'], is one in which
    its scheduler switches to a process: 1 or 0 *)
Definition picks (s : sys) (c c' : cpu) : nat :=
  match c_proc c, c_scheduler c with
  | None, Some k =>
      match s_procs s !! k with
      | Some q => if bool_decide (p_state q = RUNNABLE) && negb (bool_decide (c_proc c' = None /\ c_scheduler c' = Some k))
                  then 1%nat else 0%nat
      | None => 0%nat
      end
  | _, _ => 0%nat
  end.

Definition runnable (s : sys) (p : nat) : Prop := exists q, s_procs s !! p = Some q /\ p_state q = RUNNABLE.

(** Executions during which the process [p] stays RUNNABLE: [n] counts the
    processes the scheduler of CPU [me] switches to, [k] the process ids. *)
Inductive passed_over (me p : nat) : conf -> nat -> Z -> conf -> Prop :=
| po_nil cf : passed_over me p cf 0 0 cf
| po_cons cf j cf1 n k cf' c c1 :
    step cf j cf1 -> cpu_is (sy cf) me c -> cpu_is (sy cf1) me c1 -> runnable (sy cf1) p ->
    passed_over me p cf1 n k cf' -> passed_over me p cf (picks (sy cf) c c1 + n) (j + k) cf'.

(** How many entries the scheduler of a CPU visits before it comes to [p] *)
Definition distance (p : nat) (c : cpu) : nat :=
  (match c_scheduler c with
   | Some k => if decide (k <= p)%nat then p - k else Z.to_nat NPROC - k + p + 1
   | None => p
   end + match c_proc c with None => 1 | Some _ => 0 end)%nat.

Lemma moves_distance (s s' : sys) p c c' : runnable s p -> runnable s' p -> (p < Z.to_nat NPROC)%nat ->
  (forall k, c_proc c = Some k -> c_scheduler c = Some k -> k <> p /\ (k < Z.to_nat NPROC)%nat) ->
  moves s s' c c' -> (distance p c' + picks s c c' <= distance p c)%nat.
Proof.
  intros (qp & Hqp & Hsp) (qp' & Hqp' & Hsp') Hp Hcur Hmv. unfold distance, picks.
  assert (HN : Z.of_nat (Z.to_nat NPROC) = NPROC) by done.
  destruct Hmv as [E1 E2|k Hc Hk Hc' Hk'|k q Hc Hk Hlt Hq Hs Hc' Hk'|k q q' Hc Hk Hlt Hq Hs Hq' Hs' Hor
    |k Hc Hk Hge Hc' Hk'|Hc Hk Hc' Hk'].
  - rewrite E1, E2. destruct (c_proc c) as [i|], (c_scheduler c) as [k|]; rewrite ?Nat.add_0_r; try done.
    destruct (s_procs s !! k); [|by rewrite Nat.add_0_r].
    by rewrite (bool_decide_true (None = None /\ _)), andb_false_r, Nat.add_0_r.
  - destruct (Hcur k Hc Hk) as [Hne Hk1]. rewrite Hc, Hk, Hc', Hk'.
    destruct (decide (k <= p)%nat), (decide (S k <= p)%nat); lia.
  - assert (k <> p) by congruence. rewrite Hc, Hk, Hc', Hk', Hq, bool_decide_false by done. cbn [andb].
    destruct (decide (k <= p)%nat), (decide (S k <= p)%nat); lia.
  - assert (k <> p) by congruence. rewrite Hc, Hk, Hq. destruct (_ && _); destruct Hor as [[-> ->]|[-> ->]];
      destruct (decide (k <= p)%nat); try destruct (decide (S k <= p)%nat); lia.
  - rewrite Hc, Hk, Hc', Hk'. destruct (s_procs s !! k) as [q|] eqn:Hq.
    + destruct (decide (k <= p)%nat); [lia|].
      destruct (_ && _); lia.
    + destruct (decide (k <= p)%nat); lia.
  - rewrite Hc, Hk, Hc', Hk'. destruct (decide (0 <= p)%nat); lia.
Qed.

Lemma passed_over_distance me p cf n k cf' c : passed_over me p cf n k cf' -> inv cf ->
  s_nextpid (sy cf) + k < 2 ^ 31 -> runnable (sy cf) p -> cpu_is (sy cf) me c ->
  exists c', cpu_is (sy cf') me c' /\ inv cf' /\ runnable (sy cf') p /\ (distance p c' + n <= distance p c)%nat.
Proof.
  intros H. revert c. induction H as [cf|cf j cf1 n k cf' c0 c1 Hst Hc0 Hc1 Hr1 Hpo IH]; intros c Hi Hb Hr Hc.
  { exists c. split; [done|]. split; [done|]. split; [done|lia]. }
  assert (c0 = c) as -> by (unfold cpu_is in *; congruence).
  assert (0 <= k) by (clear -Hpo; induction Hpo as [|? ? ? ? ? ? ? ? ?%step_count]; lia).
  destruct (inv_step cf j cf1 Hi Hst) as [Hi1 Hn1]; [lia|].
  destruct (IH c1 Hi1 ltac:(lia) Hr1 Hc1) as (c' & Hc' & Hi' & Hr' & Hd). exists c'.
  split; [done|]. split; [done|]. split; [done|].
  destruct (step_moves cf j cf1 me c Hi Hst Hc) as (c1' & Hc1' & Hmv).
  assert (c1' = c1) as -> by (unfold cpu_is in *; congruence).
  pose proof Hi as (Hri & Ht & _).
  assert (HpN : (p < Z.to_nat NPROC)%nat).
  { rewrite <- (t_len _ _ _ _ Ht). destruct Hr as (q & Hq & _). by eapply lookup_lt_Some. }
  assert (Hd1 : (distance p c1 + picks (sy cf) c c1 <= distance p c)%nat); [|lia].
  apply (moves_distance (sy cf) (sy cf1)); try done. intros i Hp Hk.
  pose proof (r_cpu _ _ Hri me c Hc) as Hcc. rewrite Hp, Hk in Hcc. destruct Hcc as [_ (q & Hq & Hs)]. split.
  - intros ->. destruct Hr as (q' & Hq' & Hs'). congruence.
  - rewrite <- (t_len _ _ _ _ Ht). by eapply lookup_lt_Some.
Qed.

(** C14: the scheduler starves nobody.  From any reachable state, in any
    execution of all the CPUs during which a process stays RUNNABLE, the
    scheduler of each CPU switches to other processes at most NPROC times: it
    goes round the table, and comes to that process before it comes to
    another one twice. *)
Theorem scheduler_fair cf m me p n k cf' :
  reach cf m -> runnable (sy cf) p -> passed_over me p cf n k cf' -> m + k < 2 ^ 31 - 3 ->
  Z.of_nat n <= NPROC.
Proof.
  intros Hr Hp Hpo Hb.
  assert (0 <= k) by (clear -Hpo; induction Hpo as [|? ? ? ? ? ? ? ? ?%step_count]; lia).
  destruct (reach_inv cf m Hr ltac:(lia)) as [Hi Hn].
  destruct (m_cpus (s_mach (sy cf)) !! me) as [c|] eqn:Hc.
  2:{ destruct Hpo as [|? ? ? ? ? ? c c1 _ Hc0 _ _ _]; [unfold NPROC; lia|]. unfold cpu_is in Hc0. congruence. }
  destruct (passed_over_distance me p cf n k cf' c Hpo Hi ltac:(lia) Hp Hc) as (c' & Hc' & Hi' & Hr' & Hd).
  assert (HpN : (p < Z.to_nat NPROC)%nat).
  { rewrite <- (t_len _ _ _ _ (proj1 (proj2 Hi))). destruct Hp as (q & Hq & _). by eapply lookup_lt_Some. }
  assert (HN : Z.of_nat (Z.to_nat NPROC) = NPROC) by done.
  assert (Hge : (1 <= distance p c')%nat).
  { unfold distance. destruct (c_proc c') as [i|] eqn:Ep; [|lia].
    pose proof (r_cpu _ _ (proj1 Hi') me c' Hc') as Hcc. rewrite Ep in Hcc.
    destruct (c_scheduler c') as [i'|]; [|done]. destruct Hcc as [-> (q & Hq & Hs)].
    assert (i <> p) by (intros ->; destruct Hr' as (q' & Hq' & Hs'); congruence).
    destruct (decide (i <= p)%nat); lia. }
  assert (Hle : (distance p c <= Z.to_nat NPROC + 1)%nat); [|lia].
  unfold distance. destruct (c_scheduler c) as [i|]; [destruct (decide (i <= p)%nat)|]; destruct (c_proc c); lia.
Qed.

(** ** A process killed before it exists *)

Lemma find_unused_insert ps : forall i q, find_unused ps = Some i -> p_state q = UNUSED ->
  find_unused (<[i := q]> ps) = Some i.
Proof.
  induction ps as [|p ps IH]; intros i q; [done|]. cbn [find_unused]. case_bool_decide as E.
  - intros [= <-] Hq. cbn. by rewrite bool_decide_true.
  - destruct (find_unused ps) as [j|] eqn:Ej; [|done]. intros [= <-] Hq.
    change (<[S j := q]> (p :: ps)) with (p :: <[j := q]> ps). cbn [find_unused]. rewrite bool_decide_false by done. by rewrite (IH j q eq_refl Hq).
Qed.

(** kill(0) kills the next process.  No process has process id 0, yet kill
    finds the entries of the table that are not in use, whose id is 0: it
    returns 0 and marks the entry, allocproc does not clear the mark, and the
    child of the next fork starts as a killed process. *)
Theorem kill_zero_marks_child cf n me c p i s1 r s2 np s3 pid :
  reach cf n -> n < 2 ^ 31 - 4 -> cpu_is (sy cf) me c -> c_proc c = Some p ->
  find_pid 0 (s_procs (sy cf)) = Some i -> find_unused (s_procs (sy cf)) = Some i ->
  kill me 0 (sy cf) = Ok r s1 -> allocproc_find me s1 = Ok (Some np) s2 ->
  fork_rest me p np s2 = Ok pid s3 -> pid <> -1 ->
  r = 0 /\ exists q, s_procs s3 !! np = Some q /\ p_pid q = pid /\ p_state q = RUNNABLE /\ p_killed q = 1.
Proof.
  intros Hr Hn Hme Hp Hpid Hun Hk Ha Hf Hne. destruct (reach_inv cf n Hr ltac:(lia)) as [Hi Hnp].
  destruct cf as [s pd]. cbn [sy] in *. pose proof Hi as (Hri & Ht & _). cbn in Hri, Ht.
  assert (Hcur := inv_cur s pd me c p Hi Hme Hp). destruct Hcur as (qp & Hqp & Hsp & _).
  apply find_unused_Some in Hun as Hu. destruct Hu as (q & Hq & Hs).
  assert (Hpi : p <> i) by congruence.
  apply (kill_Ok me 0 s c) in Hk as [Hn1 Hk]; [|apply Hri|done]. rewrite Hpid in Hk.
  destruct Hk as (q' & -> & Hq' & c0 & c1 & Hc0 & Hp1 & _ & _ & Hs1). assert (q' = q) as -> by congruence.
  split; [done|]. assert (c0 = c) as -> by (unfold cpu_is in *; congruence).
  assert (Hm1 : mach_ok (s_mach s1)) by apply Hs1.
  assert (Hme1 := sto_cpu _ _ _ _ _ _ _ Hme Hs1). pose proof (sto_procs _ _ _ _ _ _ Hs1) as Hps1.
  apply (allocproc_find_Ok me s1 c1) in Ha as [Enp Ha]; [|done..].
  rewrite Hps1, find_unused_insert in Enp; [|done|unfold kill_proc; cbn; by rewrite Hs].
  injection Enp as ->. destruct Ha as (q1 & Hq1 & _ & c2 & c3 & Hc2 & _ & _ & _ & Hs2).
  rewrite Hps1 in Hq1, Hs2. rewrite (insert_at _ _ _ _ Hq) in Hq1. injection Hq1 as <-.
  rewrite list_insert_insert_eq in Hs2. pose proof (sto_procs _ _ _ _ _ _ Hs2) as Hps2.
  assert (Hme2 := sto_cpu _ _ _ _ _ _ _ Hme1 Hs2).
  apply (fork_rest_Ok me p i qp (set_pid (s_nextpid s1) (set_state EMBRYO (kill_proc q))) s2 s3 c3) in Hf
    as [_ [(q' & -> & _)|(q' & Epid & Hb & c4 & c5 & _ & _ & _ & _ & Hs3)]]; [done| |apply Hs2|done|done| |].
  - destruct Hb as (_ & _ & _ & _ & _ & _ & _ & Hid & _ & Hkl). exists (set_state RUNNABLE q').
    rewrite (sto_procs _ _ _ _ _ _ Hs3), Hps2, list_insert_insert_eq. split; [by eapply insert_at|].
    split; [by rewrite Epid; cbn|]. split; [done|]. cbn. rewrite Hkl. unfold kill_proc. cbn. by rewrite Hs.
  - rewrite Hps2. by apply insert_other.
  - rewrite Hps2. by eapply insert_at.
Qed.

End props.
(** ** Witnesses: one CPU, and an environment that counts pages *)

#[local] Instance count_env : ProcEnv Z := {|
  e_kalloc := fun v => Ok (v + 4096) (v + 4096);
  e_kfree := fun _ => ret tt;
  e_setupkvm := fun v => Ok (v + 4096) (v + 4096);
  e_inituvm := fun _ => ret tt;
  e_allocuvm := fun _ _ n => ret n;
  e_deallocuvm := fun _ _ n => ret n;
  e_copyuvm := fun _ _ v => Ok (v + 4096) (v + 4096);
  e_freevm := fun _ => ret tt;
  e_filedup := fun f => ret f;
  e_fileclose := fun _ => ret tt;
  e_idup := fun i => ret i;
  e_iput := fun _ => ret tt;
  e_namei_root := ret 0%nat;
  e_begin_op := ret tt;
  e_end_op := ret tt;
  e_fsinit := ret tt
|}.

Definition after {A} (m : M (@sys Z) A) (s : @sys Z) : @sys Z := match m s with Ok _ s' => s' | _ => s end.

Definition w0 : @sys Z :=
  mkSys (mkMach [mkCpu 5 0 0 false None None] {[ptable_lock := mkLock 0 None]})
    (replicate (Z.to_nat NPROC) zero_proc) 1 None 1 0.
Definition w1 := Eval vm_compute in after (userinit 0) w0.
Definition w2 := Eval vm_compute in after (scheduler_enter 0) w1.
Definition w3 := Eval vm_compute in after (scheduler_step 0) w2.
Definition w4 := Eval vm_compute in after (allocproc_find 0) w3.
Definition w5 := Eval vm_compute in after (fork_rest 0 0 1) w4.
Definition w6 := Eval vm_compute in after (yield 0) w5.
Definition w7 := Eval vm_compute in after (scheduler_step 0) w6.
Definition w8 := Eval vm_compute in after (exit 0) w7.

Definition wcpu (s : @sys Z) : cpu := default (mkCpu 0 0 0 false None None) (m_cpus (s_mach s) !! 0%nat).

Lemma w_boots : boots w1.
Proof.
  exists 0%nat, w0. split; [|vm_compute; reflexivity].
  split; [apply (bool_decide_unpack _); reflexivity|]. split; [|done].
  intros i c Hi. apply list_lookup_singleton_Some in Hi as [_ <-]. done.
Qed.

Lemma w_reach3 : reach (mkConf w3 ∅) (0 + 0 + 0).
Proof.
  eapply reach_step; [eapply reach_step; [exact (reach_boot _ w_boots)|]|].
  - eapply (st_enter 0 _ w1 w2); vm_compute; reflexivity.
  - eapply (st_scan 0 _ 0 None w2 w3); vm_compute; reflexivity.
Qed.

Lemma w_reach6 : reach (mkConf w6 (delete 0%nat (<[0%nat := 1%nat]> ∅))) (0 + 0 + 0 + 1 + 0 + 0).
Proof.
  eapply reach_step; [eapply reach_step; [eapply reach_step; [exact w_reach3|]|]|].
  - eapply (st_fork_find 0 _ 0 1 w3 w4 ∅); vm_compute; reflexivity.
  - eapply (st_fork_rest 0 _ 0 1 2 w4 w5); vm_compute; reflexivity.
  - eapply (st_yield 0 _ 0 w5 w6); vm_compute; reflexivity.
Qed.

Lemma w_step7 : step (mkConf w6 (delete 0%nat (<[0%nat := 1%nat]> ∅))) 0 (mkConf w7 (delete 0%nat (<[0%nat := 1%nat]> ∅))).
Proof. eapply (st_scan 0 _ 1 None w6 w7); vm_compute; reflexivity. Qed.


(** A child has exited and its parent has not waited for it yet. *)
Lemma wait_no_lost_wakeup_witness :
  (exists z, s_procs w8 !! 1%nat = Some z /\ p_state z = ZOMBIE) /\
  forall j z, s_procs w8 !! j = Some z -> p_state z = ZOMBIE ->
    exists r qr, p_parent z = Some r /\ s_procs w8 !! r = Some qr /\ live qr /\ ~ waiting qr.
Proof.
  split; [eexists; split; vm_compute; reflexivity|].
  apply (wait_no_lost_wakeup (mkConf w8 (delete 0%nat (<[0%nat := 1%nat]> ∅))) (0 + 0 + 0 + 1 + 0 + 0 + 0 + 0)); [|reflexivity].
  eapply reach_step; [eapply reach_step; [exact w_reach6|exact w_step7]|].
  eapply (st_exit 0 _ 1 w7 w8); vm_compute; reflexivity.
Defined.

(** init is RUNNABLE while the scheduler switches to its child. *)
Lemma scheduler_fair_witness : exists n, n = 1%nat /\ Z.of_nat n <= NPROC.
Proof.
  exists 1%nat. split; [reflexivity|].
  apply (scheduler_fair (mkConf w6 (delete 0%nat (<[0%nat := 1%nat]> ∅))) (0 + 0 + 0 + 1 + 0 + 0) 0 0 1 (0 + 0)
    (mkConf w7 (delete 0%nat (<[0%nat := 1%nat]> ∅)))); [exact w_reach6| | |reflexivity].
  - eexists. split; vm_compute; reflexivity.
  - apply (po_cons 0 0 _ 0 _ 0 0 _ (wcpu w6) (wcpu w7) w_step7); [vm_compute; reflexivity|vm_compute; reflexivity| |].
    + eexists. split; vm_compute; reflexivity.
    + apply po_nil.
Defined.

Lemma kill_zero_marks_child_witness : exists s3 : @sys Z, (0 = 0 /\
  exists q, s_procs s3 !! 1%nat = Some q /\ p_pid q = 2 /\ p_state q = RUNNABLE /\ p_killed q = 1).
Proof.
  eexists. eapply (kill_zero_marks_child (mkConf w3 ∅) _ 0 _ 0 1 _ _ _ _ _ _ w_reach3);
    try (vm_compute; reflexivity). vm_compute. discriminate.
Defined.

End ProcProps.
