(* ===== verification/Trap.v ===== *)
(** * Traps and the clock: trap.c, syscall.c:syscall and sysproc.c:sys_sleep

    A trap runs on the processes of [Proc].  trap comes in the pieces between
    which its thread can leave the CPU: before the call of a system call and
    after it, and before and after the yield of a clock tick.  The handlers of
    the devices and the system calls are the interface [TrapEnv]. *)
From S2P Require Import Prelude Words Params Spinlock Proc.

Module Trap.
Import Spinlock Proc.

(** ** traps.h *)

Definition T_SYSCALL : Z := 64.
Definition T_IRQ0 : Z := 32.
Definition IRQ_TIMER : Z := 0.
Definition IRQ_KBD : Z := 1.
Definition IRQ_COM1 : Z := 4.
Definition IRQ_IDE : Z := 14.
Definition IRQ_SPURIOUS : Z := 31.

(** ** The interrupt descriptor table *)

(** mmu.h:struct gatedesc *)
Record gatedesc := mkGate {
  off_15_0 : Z; gd_cs : Z; gd_args : Z; gd_rsv1 : Z; gd_type : Z; gd_s : Z; gd_dpl : Z; gd_p : Z; off_31_16 : Z }.

Definition STS_IG32 : Z := 14.
Definition STS_TG32 : Z := 15.
Definition SEG_KCODE : Z := 1.

(** mmu.h:SETGATE *)
Definition SETGATE (istrap sel off d : Z) : gatedesc :=
  mkGate (Z.land off 65535) sel 0 0 (if istrap =? 0 then STS_IG32 else STS_TG32) 0 d 1 (Z.shiftr off 16).

(** The loop of tvinit, from gate [i] on *)
Fixpoint tvinit_loop (vectors : list Z) (fuel : nat) (i : Z) (idt : list gatedesc) : option (list gatedesc) :=
  match fuel with
  | O => Some idt
  | S fuel' =>
      v ← zget vectors i;
      if decide (0 <= i < zlen idt) then
        tvinit_loop vectors fuel' (i + 1) (zset idt i (SETGATE 0 (Z.shiftl SEG_KCODE 3) v 0))
      else None
  end.

(** tvinit up to the initlock of tickslock; [vectors] is the array of entry
    points that the build generates. *)
Definition tvinit (vectors : list Z) (idt : list gatedesc) : option (list gatedesc) :=
  idt ← tvinit_loop vectors 256 0 idt;
  v ← zget vectors T_SYSCALL;
  Some (zset idt T_SYSCALL (SETGATE 1 (Z.shiftl SEG_KCODE 3) v DPL_USER)).

(** ** State *)

(** The lock of [ticks], and its address as a channel *)
Definition tickslock : Z := 1.
Definition ticks_chan : option chan := Some (ChAddr 1).

(** What traps call: the interrupt handlers of ide.c, kbd.c and uart.c, and the
    system calls by number.  A call that leaves the CPU has no result yet. *)
Class TrapEnv (V : Type) := {
  e_ideintr : nat -> M (@sys V) unit;
  e_kbdintr : nat -> M (@sys V) unit;
  e_uartintr : nat -> M (@sys V) unit;
  e_syscall : Z -> nat -> M (@sys V) (option Z)
}.

Section trap.
Context {V : Type} {PE : ProcEnv V} {TE : TrapEnv V}.

(** The kernel, [ticks], the IDT, the CPUs that sent an end-of-interrupt to
    their local APIC, and what cprintf was called with *)
Record kern := mkKern {
  k_sys : @sys V; k_ticks : Z; k_idt : list gatedesc; k_eoi : list nat; k_log : list (string * list Z) }.

Definition set_sys (x : @sys V) (k : kern) : kern := mkKern x (k_ticks k) (k_idt k) (k_eoi k) (k_log k).
Definition set_ticks (x : Z) (k : kern) : kern := mkKern (k_sys k) x (k_idt k) (k_eoi k) (k_log k).
Definition set_eoi (x : list nat) (k : kern) : kern := mkKern (k_sys k) (k_ticks k) (k_idt k) x (k_log k).
Definition set_log (x : list (string * list Z)) (k : kern) : kern :=
  mkKern (k_sys k) (k_ticks k) (k_idt k) (k_eoi k) x.

#[local] Abbreviation K A := (M kern A).

Definition ons {A} (m : M (@sys V) A) : K A := zoom k_sys set_sys m.

Definition lapiceoi (me : nat) : K unit := modify (fun k => set_eoi (me :: k_eoi k) k).
Definition cprintf (fmt : string) (args : list Z) : K unit := modify (fun k => set_log ((fmt, args) :: k_log k) k).

(** A word of the trap frame: eax is word 7, trapno 12, err 13, eip 14, cs 15 *)
Definition tf_word (tf : list Z) (i : nat) : K Z := from_option_undef (tf !! i).

(** ** syscall.c:syscall *)

(** The array [syscalls]: the numbers that have an entry *)
Definition syscalls : list Z :=
  [ SYS_fork; SYS_exit; SYS_wait; SYS_pipe; SYS_read; SYS_kill; SYS_exec; SYS_fstat; SYS_chdir; SYS_dup; SYS_getpid;
    SYS_sbrk; SYS_sleep; SYS_uptime; SYS_open; SYS_write; SYS_mknod; SYS_unlink; SYS_link; SYS_mkdir; SYS_close;
    SYS_yield; SYS_shutdown; SYS_record_start; SYS_record_stop; SYS_replay_start; SYS_replay_stop ].
Definition NELEM_syscalls : Z := foldr Z.max 0 syscalls + 1.
Definition is_call (num : Z) : bool :=
  (0 <? num) && (num <? NELEM_syscalls) && bool_decide (num ∈ syscalls).

(** The assignment of the result to [curproc->tf->eax] *)
Definition syscall_ret (cur : nat) (r : Z) : K unit :=
  q <- ons (proc_at cur) ;;
  if decide (7 < length (p_tf q))%nat then ons (upd cur (set_tf (<[7%nat := u32 r]> (p_tf q)))) else undef.

(** syscall; the result is the process, when the call has not left the CPU. *)
Definition syscall (me : nat) : K bool :=
  cur <- ons (curproc me) ;;
  q <- ons (proc_at cur) ;;
  num <- tf_word (p_tf q) 7 ;;
  let num := s32 num in
  if is_call num then
    r <- ons (e_syscall num me) ;;
    match r with
    | Some r => syscall_ret cur r ;; ret true
    | None => ret false
    end
  else
    cprintf "%d %s: unknown sys call %d" [p_pid q; num] ;;
    syscall_ret cur (-1) ;; ret true.

(** ** trap.c:trap *)

(** How a piece of trap ends: trap returns; the process has exited; the thread
    has left the CPU and goes on later. *)
Inductive flow := Back | Gone | Away.

(** [myproc()->killed], where there must be a process *)
Definition is_killed (me : nat) : K bool :=
  cur <- ons (curproc me) ;; q <- ons (proc_at cur) ;; ret (negb (p_killed q =? 0)).

(** trap for a system call, after the call *)
Definition trap_syscall_end (me : nat) : K flow :=
  b <- is_killed me ;;
  if b : bool then ons (exit me) ;; ret Gone else ret Back.

Definition trap_syscall (me : nat) (tf : list Z) : K flow :=
  b <- is_killed me ;;
  if b : bool then ons (exit me) ;; ret Gone
  else
    cur <- ons (curproc me) ;;
    ons (upd cur (set_tf tf)) ;;
    done <- syscall me ;;
    if done : bool then trap_syscall_end me else ret Away.

(** The clock interrupt on CPU 0 *)
Definition clock_tick (me : nat) : K unit :=
  ons (onm (acquire me tickslock)) ;;
  modify (fun k => set_ticks (u32 (k_ticks k + 1)) k) ;;
  ons (wakeup me ticks_chan) ;;
  ons (onm (release me tickslock)).

(** Was the trap taken in user mode? *)
Definition from_user (cs : Z) : bool := Z.land cs 3 =? DPL_USER.

(** The default case of the switch *)
Definition trap_fault (me : nat) (tf : list Z) : K unit :=
  n <- tf_word tf 12 ;;
  err <- tf_word tf 13 ;;
  eip <- tf_word tf 14 ;;
  cs <- tf_word tf 15 ;;
  o <- ons (onm (myproc me)) ;;
  if bool_decide (o = None) || (Z.land cs 3 =? 0) then
    i <- ons (onm (cpuid me)) ;;
    cprintf "unexpected trap %d from cpu %d eip %x" [n; i; eip] ;;
    panic "trap"
  else
    cur <- ons (curproc me) ;;
    q <- ons (proc_at cur) ;;
    cur' <- ons (curproc me) ;;
    i <- ons (onm (cpuid me)) ;;
    cprintf "pid %d %s: trap %d err %d on cpu %d eip 0x%x--kill proc" [p_pid q; n; err; i; eip] ;;
    cur <- ons (curproc me) ;;
    ons (upd cur (set_killed 1)).

(** The switch on the trap number *)
Definition trap_switch (me : nat) (tf : list Z) : K unit :=
  n <- tf_word tf 12 ;;
  eip <- tf_word tf 14 ;;
  cs <- tf_word tf 15 ;;
  if n =? T_IRQ0 + IRQ_TIMER then
    i <- ons (onm (cpuid me)) ;;
    whenM (i =? 0) (clock_tick me) ;;
    lapiceoi me
  else if n =? T_IRQ0 + IRQ_IDE then ons (e_ideintr me) ;; lapiceoi me
  else if n =? T_IRQ0 + IRQ_IDE + 1 then ret tt
  else if n =? T_IRQ0 + IRQ_KBD then ons (e_kbdintr me) ;; lapiceoi me
  else if n =? T_IRQ0 + IRQ_COM1 then ons (e_uartintr me) ;; lapiceoi me
  else if (n =? T_IRQ0 + 7) || (n =? T_IRQ0 + IRQ_SPURIOUS) then
    i <- ons (onm (cpuid me)) ;;
    cprintf "cpu%d: spurious interrupt at %x:%x" [i; cs; eip] ;;
    lapiceoi me
  else trap_fault me tf.

(** [myproc() && myproc()->killed && (tf->cs&3) == DPL_USER] *)
Definition must_exit (me : nat) (tf : list Z) : K bool :=
  o <- ons (onm (myproc me)) ;;
  match o with
  | None => ret false
  | Some _ =>
      b <- is_killed me ;;
      if b : bool then cs <- tf_word tf 15 ;; ret (from_user cs) else ret false
  end.

(** trap, when the process is not RUNNING or after yield *)
Definition trap_end (me : nat) (tf : list Z) : K flow :=
  b <- must_exit me tf ;;
  if b : bool then ons (exit me) ;; ret Gone else ret Back.

(** [myproc() && myproc()->state == RUNNING && tf->trapno == T_IRQ0+IRQ_TIMER] *)
Definition must_yield (me : nat) (tf : list Z) : K bool :=
  o <- ons (onm (myproc me)) ;;
  match o with
  | None => ret false
  | Some _ =>
      cur <- ons (curproc me) ;;
      q <- ons (proc_at cur) ;;
      n <- tf_word tf 12 ;;
      ret (bool_decide (p_state q = RUNNING) && (n =? T_IRQ0 + IRQ_TIMER))
  end.

(** trap, after the switch *)
Definition trap_rest (me : nat) (tf : list Z) : K flow :=
  b <- must_exit me tf ;;
  if b : bool then ons (exit me) ;; ret Gone
  else
    b <- must_yield me tf ;;
    if b : bool then ons (yield me) ;; ret Away else trap_end me tf.

(** trap up to its return or to the point where its thread leaves the CPU; it
    goes on with [trap_syscall_end] or [trap_end]. *)
Definition trap (me : nat) (tf : list Z) : K flow :=
  n <- tf_word tf 12 ;;
  if n =? T_SYSCALL then trap_syscall me tf
  else trap_switch me tf ;; trap_rest me tf.

(** The processor takes a trap: an interrupt gate turns interrupts off, a trap
    gate leaves them as they are. *)
Definition take_trap (me : nat) (tf : list Z) : K flow :=
  n <- tf_word tf 12 ;;
  idt <- gets k_idt ;;
  g <- aget idt n ;;
  whenM (gd_type g =? STS_IG32) (ons (onm (cli me))) ;;
  trap me tf.

(** ** sysproc.c:sys_sleep *)

(** One round of the loop, with tickslock held: [None] when the process sleeps.
    [ticks - ticks0 < n] compares unsigned numbers. *)
Definition sleep_round (me : nat) (ticks0 n : Z) : K (option Z) :=
  ticks <- gets k_ticks ;;
  if u32 (ticks - ticks0) <? u32 n then
    b <- is_killed me ;;
    if b : bool then ons (onm (release me tickslock)) ;; ret (Some (-1))
    else ons (sleep me ticks_chan tickslock (AtSleep tickslock)) ;; ret None
  else ons (onm (release me tickslock)) ;; ret (Some 0).

(** sys_sleep after argint, up to the loop: the result is [ticks0]. *)
Definition sleep_enter (me : nat) : K Z :=
  ons (onm (acquire me tickslock)) ;; gets k_ticks.

Definition sys_sleep (me : nat) (n : Z) : K (option Z) :=
  ticks0 <- sleep_enter me ;; sleep_round me ticks0 n.

(** A thread that sleep has woken takes tickslock again, and the loop goes on. *)
Definition sleep_again (me : nat) (ticks0 n : Z) : K (option Z) :=
  ons (onm (acquire me tickslock)) ;; sleep_round me ticks0 n.

End trap.
End Trap.
