(* ===== verification/TrapStep.v ===== *)
(** * Progress of the routines that traps call

    [safe m s Q]: the routine returns with [Q], or has to wait for another
    CPU or process; it neither panics nor runs into undefined behaviour.  The
    partial facts of [ProcStep] tell what the routines do when they return. *)
From S2P Require Import Prelude Words Params Spinlock Proc ProcStep ProcInv Trap.

Module TrapStep.
Import Spinlock Proc ProcStep ProcInv Trap.

Definition safe {S A} (m : M S A) (s : S) (Q : A -> S -> Prop) : Prop :=
  match m s with Ok a s' => Q a s' | Blocked _ => True | _ => False end.

Lemma safe_bind {S A B} (m : M S A) (k : A -> M S B) s Q :
  safe m s (fun a s' => safe (k a) s' Q) -> safe (bind m k) s Q.
Proof. unfold safe, bind. by destruct (m s). Qed.

Lemma safe_run {S A} (m : M S A) s a s' (Q : A -> S -> Prop) : m s = Ok a s' -> Q a s' -> safe m s Q.
Proof. unfold safe. by intros ->. Qed.

Lemma safe_seq {S A B} (m : M S A) (k : A -> M S B) s a s' Q :
  m s = Ok a s' -> safe (k a) s' Q -> safe (bind m k) s Q.
Proof. intros H1 H2. eapply safe_bind, safe_run; done. Qed.

Lemma safe_mono {S A} (m : M S A) s (Q Q' : A -> S -> Prop) :
  safe m s Q -> (forall a s', m s = Ok a s' -> Q a s' -> Q' a s') -> safe m s Q'.
Proof. unfold safe. destruct (m s); auto. Qed.

(** Bind, with what the first routine is known to do *)
Lemma safe_step {S A B} (m : M S A) (k : A -> M S B) s (P : A -> S -> Prop) Q :
  safe m s P -> (forall a s', m s = Ok a s' -> P a s' -> safe (k a) s' Q) -> safe (bind m k) s Q.
Proof. intros H1 H2. by eapply safe_bind, safe_mono. Qed.

Lemma safe_eq {S A} (m m' : M S A) s s' Q : m s = m' s' -> safe m' s' Q -> safe m s Q.
Proof. unfold safe. by intros ->. Qed.

Lemma safe_ret {S A} (a : A) (s : S) (Q : A -> S -> Prop) : Q a s -> safe (ret a) s Q.
Proof. done. Qed.

Lemma safe_zoom {S T A} (get : S -> T) put (m : M T A) s (Q : A -> S -> Prop) :
  safe m (get s) (fun a t => Q a (put t s)) -> safe (zoom get put m) s Q.
Proof. unfold safe, zoom. by destruct (m (get s)). Qed.

Section run.
Context {V : Type} {PE : ProcEnv V}.
#[local] Abbreviation sys := (@sys V).

(** The CPU [me] is [c], the locks are [ls] and the table is [ps]. *)
Definition on (me : nat) (c : cpu) (ls : gmap Z spinlock) (ps : list proc) (s : sys) : Prop :=
  cpus_ok (s_mach s) /\ m_cpus (s_mach s) !! me = Some c /\ m_locks (s_mach s) = ls /\ s_procs s = ps.

Lemma on_put me c c' ls ps (s : sys) : on me c ls ps s -> c_apicid c' = c_apicid c ->
  on me c' ls ps (set_mach (put_cpu me c' (s_mach s)) s).
Proof. intros (Hok & Hme & Hl & Hp) E. split; [by eapply cpus_ok_put|]. split; [by eapply put_cpu_lookup|]. done. Qed.

Lemma on_set_procs me c ls ps ps' (s : sys) : on me c ls ps s -> on me c ls ps' (set_procs ps' s).
Proof. by intros (? & ? & ? & ?). Qed.

Lemma on_set_env me c ls ps v (s : sys) : on me c ls ps s -> on me c ls ps (set_env v s).
Proof. by intros (? & ? & ? & ?). Qed.

Lemma on_acquire me l c ls ps lk (s : sys) : on me c ls ps s -> cpu_ok c -> ls !! l = Some lk ->
  held_by me lk = false ->
  safe (onm (acquire me l)) s (fun _ s' => on me (pushed c) (<[l := mkLock 1 (Some me)]> ls) ps s').
Proof.
  intros Hon Hc Hl Hh. pose proof Hon as (Hok & Hme & <- & <-). unfold safe, onm, zoom.
  rewrite (acquire_run me l _ c lk Hok Hme Hc Hl), Hh. destruct (negb _); [done|].
  destruct (on_put me c (pushed c) _ _ s Hon eq_refl) as (? & ? & _). done.
Qed.

Lemma on_release me l c ls ps (s : sys) : on me c ls ps s -> c_if c = false -> 1 <= c_ncli c ->
  ls !! l = Some (mkLock 1 (Some me)) ->
  exists s', onm (release me l) s = Ok tt s' /\ on me (popped c) (<[l := mkLock 0 None]> ls) ps s'.
Proof.
  intros Hon Hif Hn Hl. pose proof Hon as (Hok & Hme & <- & <-).
  pose proof (release_run me l _ c _ Hok Hme Hif Hn Hl) as Hr. unfold held_by in Hr. cbn in Hr.
  rewrite bool_decide_true in Hr by done. eexists. split; [by apply onm_run|].
  destruct (on_put me c (popped c) _ _ s Hon eq_refl) as (? & ? & _). done.
Qed.

Lemma on_myproc me c ls ps (s : sys) : on me c ls ps s -> cpu_ok c ->
  exists s', onm (myproc me) s = Ok (c_proc c) s' /\ on me (touched c) ls ps s'.
Proof.
  intros Hon Hc. pose proof Hon as (Hok & Hme & _). eexists.
  split; [by apply onm_run, myproc_run|]. apply (on_put me c); [done|apply touched_fields].
Qed.

Lemma on_curproc me c ls ps p (s : sys) : on me c ls ps s -> cpu_ok c -> c_proc c = Some p ->
  exists s', curproc me s = Ok p s' /\ on me (touched c) ls ps s'.
Proof.
  intros Hon Hc Hp. destruct (on_myproc me c ls ps s Hon Hc) as (s' & H & Hon'). exists s'. split; [|done].
  unfold curproc. by rewrite (bind_run _ _ _ _ _ H), Hp.
Qed.

Lemma on_upd me c ls ps i f q (s : sys) : on me c ls ps s -> ps !! i = Some q ->
  exists s', upd i f s = Ok tt s' /\ on me c ls (<[i := f q]> ps) s'.
Proof.
  intros Hon Hq. pose proof Hon as (_ & _ & _ & <-). eexists. split; [by apply upd_run|]. by eapply on_set_procs.
Qed.

(** sched in a critical section on ptable.lock alone *)
Lemma on_sched me at_ c ls ps p k q (s : sys) : on me c ls ps s -> c_if c = false -> c_ncli c = 1 ->
  ls !! ptable_lock = Some (mkLock 1 (Some me)) -> c_proc c = Some p -> c_scheduler c = Some k ->
  ps !! p = Some q -> p_state q <> RUNNING -> exists s', sched me at_ s = Ok tt s'.
Proof.
  intros Hon Hif Hn Hl Hp Hk Hq Hs. assert (Hc : cpu_ok c) by (split; [lia|done]). unfold sched.
  destruct (on_curproc me c ls ps p s Hon Hc Hp) as (s1 & H1 & Hon1). rewrite (bind_run _ _ _ _ _ H1).
  rewrite touched_inner in Hon1 by lia. clear s Hon H1. pose proof Hon1 as (Hok & Hme & <- & <-).
  rewrite (bind_run _ _ _ _ _ (onm_run _ s1 _ _ (holding_run me ptable_lock _ c _ Hok Hme Hif ltac:(lia) Hl))), set_mach_id.
  unfold held_by. cbn [locked lk_cpu]. rewrite bool_decide_true by done.
  change (negb (negb (1 =? 0) && true)) with false. cbv iota.
  rewrite (bind_run _ _ _ _ _ (onm_run _ s1 _ _ (mycpu_run me _ c Hok Hme Hif))), set_mach_id.
  rewrite (bind_run _ _ _ _ _ (onm_run _ s1 _ _ (cpu_at_run me _ c Hme))), set_mach_id, Hn.
  change (negb (1 =? 1)) with false. cbv iota.
  rewrite (bind_run _ _ _ _ _ (proc_at_run p s1 q Hq)), bool_decide_false by done.
  rewrite (bind_run _ _ _ _ _ (onm_run _ s1 _ _ (readeflags_run me _ c Hme))), set_mach_id, Hif.
  change (negb (Z.land 0 FL_IF =? 0)) with false. cbv iota.
  rewrite (bind_run _ _ _ _ _ (upd_run p _ s1 q Hq)), Hk. cbn [from_option_undef]. rewrite bind_ret_l.
  eexists. eapply onm_run, upd_cpu_run. exact Hme.
Qed.

(** ** A CPU that takes a trap

    It runs the process [o], or nothing, outside every critical section; [b]
    tells whether interrupts are on. *)
Record ready (s : sys) (pd : gmap nat nat) (me : nat) (o : option nat) (b : bool) : Prop := {
  rd_inv : inv (mkConf s pd);
  rd_cpu : exists c, cpu_is s me c /\ c_proc c = o /\ c_ncli c = 0 /\ c_if c = b /\ (o = None -> c_scheduler c = None);
  rd_locks l lk : m_locks (s_mach s) !! l = Some lk -> held_by me lk = false;
  rd_tick : is_Some (m_locks (s_mach s) !! tickslock);
  rd_pid : s_nextpid s < 2 ^ 31
}.

Lemma ready_on s pd me o b : ready s pd me o b -> exists c lk, on me c (m_locks (s_mach s)) (s_procs s) s /\
  cpu_is s me c /\ cpu_ok c /\ c_proc c = o /\ c_ncli c = 0 /\ c_if c = b /\ (o = None -> c_scheduler c = None) /\
  m_locks (s_mach s) !! ptable_lock = Some lk /\ held_by me lk = false /\
  (forall p, o = Some p -> c_scheduler c = Some p).
Proof.
  intros [Hi (c & Hc & Ho & Hn & Hb & Hs) Hl _ _]. assert (Hm : mach_ok (s_mach s)) by apply Hi.
  destruct Hm as (Hok & Hcs & lk & Hl0 & _). exists c, lk. split; [done|]. split; [done|]. split; [by eapply Hcs|].
  do 5 (split; [done|]). split; [by eapply Hl|]. intros p ->.
  pose proof (r_cpu _ _ (proj1 Hi) me c Hc) as Hr. rewrite Ho in Hr. destruct (c_scheduler c); [|done].
  by destruct Hr as [-> _].
Qed.

Lemma ready_cur s pd me p b : ready s pd me (Some p) b ->
  exists q, s_procs s !! p = Some q /\ p_state q = RUNNING /\ p_chan q = None.
Proof. intros [Hi (c & Hc & Ho & _) _ _ _]. by eapply inv_cur. Qed.

(** wakeup *)
Lemma on_wakeup me ch c ls ps lk (s : sys) : on me c ls ps s -> cpu_ok c -> ls !! ptable_lock = Some lk ->
  held_by me lk = false ->
  safe (wakeup me ch) s (fun _ s' => on me (touched c) (<[ptable_lock := mkLock 0 None]> ls) (wake ch <$> ps) s').
Proof.
  intros Hon Hc Hl Hh. unfold wakeup. eapply safe_step; [by eapply on_acquire|]. intros [] s1 _ H1.
  pose proof H1 as (_ & _ & _ & Hps).
  eapply safe_seq; [reflexivity|]. eapply (on_set_procs _ _ _ _ (wake ch <$> s_procs s1)), on_release in H1 as (s2 & H2 & Hon2).
  - eapply safe_run; [exact H2|]. by rewrite popped_pushed, insert_insert_eq, Hps in Hon2.
  - done.
  - by apply pushed_inside.
  - by rewrite lookup_insert_eq.
Qed.

(** ** Routines that leave the CPU ready

    What they keep: init, the next process id, and the entry of the process
    that runs *)
Definition kept (o : option nat) (s s' : sys) : Prop :=
  (s_initproc s' = s_initproc s /\ s_nextpid s' = s_nextpid s) /\
  forall p, o = Some p -> s_procs s' !! p = s_procs s !! p.

Lemma kept_refl o s : kept o s s.
Proof. done. Qed.

Lemma kept_trans o s1 s2 s3 : kept o s1 s2 -> kept o s2 s3 -> kept o s1 s3.
Proof.
  intros [[E1 N1] H1] [[E2 N2] H2]. split; [split; congruence|]. intros p Hp. by rewrite (H2 p Hp), (H1 p Hp).
Qed.

(** A change of the interrupt flag or of [intena] *)
Lemma ready_cpu s pd me o b c c' : ready s pd me o b -> cpu_is s me c -> cpu_ok c' ->
  c_apicid c' = c_apicid c -> c_ncli c' = c_ncli c -> c_proc c' = c_proc c -> c_scheduler c' = c_scheduler c ->
  ready (set_mach (put_cpu me c' (s_mach s)) s) pd me o (c_if c').
Proof.
  intros Hr Hme Hc' Ea En Ep Es. destruct (ready_on _ _ _ _ _ Hr) as (d & lk & Hon & Hd & Hc & Ho & Hn & Hb & Hs & Hl & Hh & _).
  assert (d = c) as -> by (unfold cpu_is in *; congruence).
  split; [|exists c'; split; [by eapply put_cpu_lookup|]|apply Hr..].
  - eapply (inv_other s _ pd me c c' lk); [apply Hr|done| |done|split; cbn; try done|done..].
    + intros E. apply Hs. congruence.
    + eapply mach_ok_cpu; [apply Hr|done|done|done].
  - split; [congruence|]. split; [congruence|]. split; [done|]. intros E. rewrite Es. by apply Hs.
Qed.

Lemma ready_myproc s pd me o b : ready s pd me o b ->
  exists s', onm (myproc me) s = Ok o s' /\ ready s' pd me o b /\ kept o s s'.
Proof.
  intros Hr. destruct (ready_on _ _ _ _ _ Hr) as (c & lk & (Hok & Hme & _) & Hc & Hcok & Ho & Hn & Hb & _).
  eexists. split; [rewrite <- Ho; by apply onm_run, myproc_run|]. split; [|done].
  destruct (touched_fields c) as (E1 & E2 & E3 & E4 & E5). rewrite <- Hb.
  replace (c_if c) with (c_if (touched c)) by (unfold touched; by destruct (c_ncli c =? 0)).
  eapply ready_cpu; [done|done|by apply touched_ok|done..].
Qed.

Lemma ready_curproc s pd me p b : ready s pd me (Some p) b ->
  exists s', curproc me s = Ok p s' /\ ready s' pd me (Some p) b /\ kept (Some p) s s'.
Proof.
  intros (s' & H & Hr)%ready_myproc. exists s'. split; [|done]. unfold curproc. by rewrite (bind_run _ _ _ _ _ H).
Qed.

Lemma ready_cpuid s pd me o : ready s pd me o false -> onm (cpuid me) s = Ok (Z.of_nat me) s.
Proof.
  intros Hr. destruct (ready_on _ _ _ _ _ Hr) as (c & lk & (Hok & Hme & _) & Hc & Hcok & Ho & Hn & Hb & _).
  erewrite onm_run; [by rewrite set_mach_id|]. unfold cpuid. by rewrite (bind_run _ _ _ _ _ (mycpu_run _ _ _ Hok Hme Hb)).
Qed.

Lemma ready_cli s pd me o b : ready s pd me o b ->
  exists s', onm (cli me) s = Ok tt s' /\ ready s' pd me o false /\ kept o s s'.
Proof.
  intros Hr. destruct (ready_on _ _ _ _ _ Hr) as (c & lk & (Hok & Hme & _) & Hc & Hcok & Ho & Hn & _).
  eexists. split; [by apply onm_run, upd_cpu_run|]. split; [|done].
  eapply (ready_cpu _ _ _ _ _ c (set_if false c)); [done|done|by split; [destruct Hcok|]|done..].
Qed.

(** A new trap frame or the mark of a killed process *)
Lemma ready_upd s pd me p b q q' : ready s pd me (Some p) b -> s_procs s !! p = Some q -> alike q q' ->
  p_state q' = p_state q -> p_chan q' = p_chan q ->
  ready (set_procs (<[p := q']> (s_procs s)) s) pd me (Some p) b.
Proof.
  intros Hr Hq Ha Es Ec. destruct (ready_cur _ _ _ _ _ Hr) as (q0 & Hq0 & Hs & Hch).
  assert (q0 = q) as -> by congruence. split; [|apply Hr..].
  destruct (rd_inv _ _ _ _ _ Hr) as ([H1 H2 H3 H4 H5] & Ht & Hn).
  assert (Hj : forall j, run_at (<[p := q']> (s_procs s)) j <-> run_at (s_procs s) j).
  { intros j. apply (run_at_same _ _ q); [done|]. by rewrite Es. }
  split; [|split; [|done]]; cbn in *.
  - split; [done| |..]; try done.
    + intros i c Hc. specialize (H2 i c Hc). destruct (c_proc c), (c_scheduler c); try done.
      destruct H2 as [-> H2]. split; [done|]. by apply Hj.
    + intros x Hx%Hj. by apply H3.
  - eapply tinv_update; [done|done|done| |].
    + unfold chan_ok. rewrite Es, Hs. congruence.
    + intros [Hw _]. congruence.
Qed.

(** wakeup of anything but a process *)
Lemma ready_wakeup s pd me o b a : ready s pd me o b ->
  safe (wakeup me (Some (ChAddr a))) s (fun _ s' => ready s' pd me o b /\ kept o s s').
Proof.
  intros Hr. destruct (ready_on _ _ _ _ _ Hr) as (c & lk & Hon & Hme & Hc & Ho & Hn & Hb & Hs & Hl & Hh & _).
  pose proof Hr as [Hi _ Hls [lt Hlt] Hnp]. eapply safe_mono; [by eapply on_wakeup|].
  intros [] s' E (_ & Hme' & Hl' & Hps'). assert (Hout : c_proc c = None -> c_scheduler c = None) by (rewrite Ho; done).
  destruct (inv_step _ _ _ Hi (st_wakeup me c a _ s' pd Hme Hout E)) as [Hi' Hn']; [cbn; lia|]. cbn in Hn'.
  destruct (touched_fields c) as (_ & Et1 & _ & Et2 & Et3). split; [split; [done| | | |lia]|split; [split; [|lia]|]].
  - exists (touched c). split; [exact Hme'|]. split; [congruence|]. split; [congruence|]. split; [|by rewrite Et3].
    unfold touched. by destruct (c_ncli c =? 0).
  - rewrite Hl'. intros l lk' H. apply lookup_insert_Some in H as [[_ <-]|[_ H]]; [done|by eapply Hls].
  - rewrite Hl', lookup_insert_ne by done. by exists lt.
  - apply (wakeup_Ok me _ _ c s') in E as [(_ & _ & _ & _ & _ & _ & Hw%sto_init_eq) _]; [apply Hw|apply Hi|done].
  - intros p ->. destruct (ready_cur _ _ _ _ _ Hr) as (q & Hq & Hsq & _).
    rewrite Hps', list_lookup_fmap, Hq. cbn. unfold wake. by rewrite Hsq.
Qed.

(** ** Routines that give up the CPU *)

Lemma yield_safe s pd me p b : ready s pd me (Some p) b -> safe (yield me) s (fun _ _ => True).
Proof.
  intros Hr. destruct (ready_cur _ _ _ _ _ Hr) as (q & Hq & _).
  destruct (ready_on _ _ _ _ _ Hr) as (c & lk & Hon & Hme & Hc & Ho & Hn & Hb & _ & Hl & Hh & Hk).
  unfold yield. eapply safe_step; [by eapply on_acquire|]. intros [] s1 _ H1.
  assert (Hpc : cpu_ok (pushed c)) by by apply pushed_ok.
  destruct (on_curproc _ _ _ _ p _ H1 Hpc) as (s2 & E2 & H2); [done|].
  eapply safe_seq; [exact E2|]. rewrite touched_inner in H2 by (cbn; lia).
  destruct (on_upd _ _ _ _ p (set_state RUNNABLE) q _ H2 Hq) as (s3 & E3 & H3). eapply safe_seq; [exact E3|].
  destruct (on_sched me AtYield (pushed c) (<[ptable_lock:=mkLock 1 (Some me)]> (m_locks (s_mach s)))
    (<[p:=set_state RUNNABLE q]> (s_procs s)) p p (set_state RUNNABLE q) s3) as (s4 & E4); try done.
  - cbn. lia.
  - by rewrite lookup_insert_eq.
  - by apply Hk.
  - apply list_lookup_insert_eq. by eapply lookup_lt_Some.
  - by eapply safe_run.
Qed.

(** exit *)

(** What exit calls of the file system returns, or waits. *)
Class ExitEnv : Prop := {
  fileclose_safe f v : safe (e_fileclose f) v (fun _ _ => True);
  begin_op_safe v : safe e_begin_op v (fun _ _ => True);
  iput_safe i v : safe (e_iput i) v (fun _ _ => True);
  end_op_safe v : safe e_end_op v (fun _ _ => True)
}.
Context {EE : ExitEnv}.

Lemma one_safe {A} (m : M V A) me c ls ps (s : sys) : on me c ls ps s ->
  safe m (s_env s) (fun _ _ => True) -> safe (one m) s (fun _ s' => on me c ls ps s').
Proof. intros Hon H. apply safe_zoom. eapply safe_mono; [exact H|]. intros a v _ _. by apply on_set_env. Qed.

Lemma close_files_safe me c ls cur fs : forall i ps q (s : sys), on me c ls ps s -> ps !! cur = Some q ->
  safe (close_files cur i fs) s (fun _ s' => exists l, on me c ls (<[cur := set_ofile l q]> ps) s').
Proof.
  induction fs as [|[f|] fs IH]; intros i ps q s Hon Hq; cbn [close_files].
  - apply safe_ret. exists (p_ofile q). rewrite list_insert_id; [done|]. by destruct q.
  - eapply safe_step; [by eapply one_safe, fileclose_safe|]. intros ? s1 _ H1.
    destruct (on_upd _ _ _ _ cur (fun p => set_ofile (<[i := None]> (p_ofile p)) p) q _ H1 Hq) as (s2 & E2 & H2).
    eapply safe_seq; [exact E2|]. eapply safe_mono.
    + eapply IH; [exact H2|]. apply list_lookup_insert_eq. by eapply lookup_lt_Some.
    + intros [] s3 _ [l Hl]. exists l. by rewrite list_insert_insert_eq in Hl.
  - by apply IH.
Qed.

Lemma reparent_safe me c ls cur init fuel : forall i ps (s : sys), on me c ls ps s -> (i + fuel <= length ps)%nat ->
  safe (reparent cur init fuel i) s (fun _ s' => exists ps', length ps' = length ps /\ on me c ls ps' s').
Proof.
  induction fuel as [|fuel IH]; intros i ps s Hon Hlen; cbn [reparent]; [by apply safe_ret; exists ps|].
  destruct (lookup_lt_is_Some_2 ps i) as [q Hq]; [lia|]. pose proof Hon as (_ & _ & _ & Hps).
  eapply safe_seq; [apply proc_at_run; by rewrite Hps|].
  apply (safe_step _ _ _ (fun _ s' => exists ps', length ps' = length ps /\ on me c ls ps' s')).
  - destruct (bool_decide _); cbn [whenM]; [|by apply safe_ret; exists ps].
    destruct (on_upd _ _ _ _ i (set_parent init) q _ Hon Hq) as (s2 & E2 & H2). eapply safe_seq; [exact E2|].
    pose proof H2 as (_ & _ & _ & Hps2).
    destruct (bool_decide _); cbn [whenM]; eapply safe_run; try reflexivity; eexists; (split; [|first [exact H2 | by eapply on_set_procs]]).
    + by rewrite length_fmap, Hps2, length_insert.
    + by rewrite length_insert.
  - intros [] s1 _ (ps1 & Hl1 & H1). eapply safe_mono; [eapply IH; [exact H1|lia]|].
    intros [] s2 _ (ps2 & Hl2 & H2). exists ps2. split; [congruence|done].
Qed.

Lemma exit_zombie_safe me cur c ls ps lk q k (s : sys) : on me c ls ps s -> cpu_ok c -> c_ncli c = 0 ->
  c_proc c = Some cur -> c_scheduler c = Some k -> ls !! ptable_lock = Some lk -> held_by me lk = false ->
  ps !! cur = Some q -> length ps = Z.to_nat NPROC -> safe (exit_zombie me cur) s (fun _ _ => True).
Proof.
  intros Hon Hc Hn Hp Hk Hl Hh Hq Hlen. unfold exit_zombie. generalize dependent (Z.to_nat NPROC). intros n Hlen.
  eapply safe_step; [by eapply on_acquire|]. intros [] s1 _ H1.
  pose proof H1 as (_ & _ & _ & Hps). eapply safe_seq; [apply proc_at_run; by rewrite Hps|].
  eapply safe_seq; [reflexivity|]. eapply safe_seq; [reflexivity|].
  eapply (on_set_procs _ _ _ _ (wake (ChProc <$> p_parent q) <$> s_procs s1)) in H1.
  eapply safe_step; [eapply reparent_safe; [exact H1|rewrite length_fmap, Hps; lia]|].
  intros [] s2 _ (ps2 & Hl2 & H2). rewrite length_fmap, Hps in Hl2.
  assert (Hlt : (cur < length ps2)%nat) by (rewrite Hl2; by eapply lookup_lt_Some).
  destruct (lookup_lt_is_Some_2 ps2 cur Hlt) as [q2 Hq2].
  destruct (on_upd _ _ _ _ cur (set_state ZOMBIE) q2 _ H2 Hq2) as (s3 & E3 & H3). eapply safe_seq; [exact E3|].
  destruct (on_sched me AtExit (pushed c) (<[ptable_lock:=mkLock 1 (Some me)]> ls)
    (<[cur:=set_state ZOMBIE q2]> ps2) cur k (set_state ZOMBIE q2) s3) as (s4 & E4); try done.
  - cbn. lia.
  - by rewrite lookup_insert_eq.
  - by apply list_lookup_insert_eq.
  - by eapply safe_run.
Qed.

(** exit of a process other than init, whose working directory is open *)
Lemma exit_safe s pd me p b q d : ready s pd me (Some p) b -> s_initproc s <> Some p ->
  s_procs s !! p = Some q -> p_cwd q = Some d -> safe (exit me) s (fun _ _ => True).
Proof.
  intros Hr Hini Hq Hd.
  destruct (ready_on _ _ _ _ _ Hr) as (c & lk & Hon & Hme & Hc & Ho & Hn & Hb & _ & Hl & Hh & Hk).
  unfold exit. destruct (on_curproc _ _ _ _ p _ Hon Hc Ho) as (s1 & E1 & H1).
  pose proof E1 as E1'. apply (curproc_Ok me s c) in E1' as [_ Es1]; [|apply Hr|done].
  eapply safe_seq; [exact E1|]. eapply safe_seq; [reflexivity|].
  rewrite bool_decide_false by (by rewrite Es1). pose proof H1 as (_ & _ & _ & Hps1).
  eapply safe_seq; [apply proc_at_run; by rewrite Hps1|].
  eapply safe_step; [by eapply close_files_safe|]. intros [] s2 _ [l H2].
  eapply safe_step; [by eapply one_safe, begin_op_safe|]. intros [] s3 _ H3. rewrite Hd.
  eapply safe_seq; [reflexivity|]. eapply safe_step; [by eapply one_safe, iput_safe|]. intros [] s4 _ H4.
  eapply safe_step; [by eapply one_safe, end_op_safe|]. intros [] s5 _ H5.
  assert (Hlt : (p < length (s_procs s))%nat) by by eapply lookup_lt_Some.
  destruct (on_upd _ _ _ _ p (set_cwd None) (set_ofile l q) _ H5) as (s6 & E6 & H6); [by apply list_lookup_insert_eq|].
  eapply safe_seq; [exact E6|]. destruct (touched_fields c) as (_ & Et1 & _ & Et2 & Et3).
  eapply exit_zombie_safe; [exact H6|by apply touched_ok|congruence|congruence|rewrite Et3; by apply Hk|exact Hl|exact Hh| |].
  - apply list_lookup_insert_eq. by rewrite length_insert.
  - rewrite !length_insert. by apply (t_len _ _ _ _ (proj1 (proj2 (rd_inv _ _ _ _ _ Hr)))).
Qed.

End run.
End TrapStep.
