(* ===== verification/TrapProps.v ===== *)
(** * Properties of traps

    What a trap does to the process it interrupts, in user mode and in the
    kernel, and that nobody oversleeps. *)
From S2P Require Import Prelude Words Params Spinlock Proc ProcStep ProcInv ProcProps Trap TrapStep.

Module TrapProps.
Import Spinlock Proc ProcStep ProcInv ProcProps Trap TrapStep.

(** ** The descriptor table *)

Definition gate_of (v n : Z) : gatedesc :=
  if n =? T_SYSCALL then SETGATE 1 (Z.shiftl SEG_KCODE 3) v DPL_USER else SETGATE 0 (Z.shiftl SEG_KCODE 3) v 0.

Lemma tvinit_loop_spec vs fuel : forall i idt idt', tvinit_loop vs fuel i idt = Some idt' -> 0 <= i ->
  length idt' = length idt /\ forall n, 0 <= n ->
    if decide (i <= n < i + Z.of_nat fuel) then
      exists v, zget vs n = Some v /\ zget idt' n = Some (SETGATE 0 (Z.shiftl SEG_KCODE 3) v 0)
    else zget idt' n = zget idt n.
Proof.
  induction fuel as [|fuel IH]; intros i idt idt' H Hi; cbn [tvinit_loop] in H.
  { injection H as <-. split; [done|]. intros n Hn. by rewrite decide_False by lia. }
  destruct (zget vs i) as [v|] eqn:Ev; [|done]. cbn [mbind option_bind] in H.
  destruct (decide (0 <= i < zlen idt)) as [Hlt|]; [|done].
  apply IH in H as [Hl H]; [|lia]. split; [rewrite Hl; apply length_insert|]. intros n Hn. specialize (H n Hn).
  destruct (decide (i = n)) as [<-|Hne].
  - rewrite decide_False in H by lia. rewrite decide_True by lia. exists v. split; [done|]. rewrite H.
    unfold zget, zset. rewrite (proj2 (Z.ltb_ge _ _)) by lia. apply list_lookup_insert_eq. unfold zlen in Hlt. lia.
  - assert (E : zget (zset idt i (SETGATE 0 (Z.shiftl SEG_KCODE 3) v 0)) n = zget idt n).
    { unfold zget, zset. rewrite (proj2 (Z.ltb_ge n 0)) by lia. apply list_lookup_insert_ne. lia. }
    destruct (decide (i + 1 <= n < i + 1 + Z.of_nat fuel)).
    + by rewrite decide_True by lia.
    + rewrite decide_False by lia. congruence.
Qed.

(** Every vector gets a gate; only the one for system calls is a trap gate,
    and only this one can be entered by an int instruction of a program. *)
Lemma tvinit_gates vs idt0 idt n : tvinit vs idt0 = Some idt -> 0 <= n < 256 ->
  exists v, zget vs n = Some v /\ zget idt n = Some (gate_of v n).
Proof.
  unfold tvinit. intros H Hn. destruct (tvinit_loop vs 256 0 idt0) as [idt1|] eqn:E1; [|done].
  apply tvinit_loop_spec in E1 as [_ E1]; [|lia]. change (Z.of_nat 256) with 256 in E1.
  cbn [mbind option_bind] in H. destruct (zget vs T_SYSCALL) as [v|] eqn:Ev; [|done]. injection H as <-.
  assert (Hg := E1 n ltac:(lia)). rewrite decide_True in Hg by lia. destruct Hg as (w & Hw & Hg).
  exists w. split; [done|]. unfold gate_of. destruct (Z.eqb_spec n T_SYSCALL) as [->|Hne].
  - replace w with v by congruence. unfold zget, zset in *. rewrite (proj2 (Z.ltb_ge T_SYSCALL 0)) in * by done.
    apply list_lookup_insert_eq. by eapply lookup_lt_Some.
  - rewrite <- Hg. unfold zget, zset. rewrite (proj2 (Z.ltb_ge n 0)) by lia. apply list_lookup_insert_ne.
    unfold T_SYSCALL in *. lia.
Qed.

Section props.
Context {V : Type} {PE : ProcEnv V} {TE : TrapEnv V} {EE : ExitEnv}.
#[local] Abbreviation sys := (@sys V).
#[local] Abbreviation kern := (@kern V).

(** ** What the handlers and the system calls promise

    An interrupt handler leaves the process it interrupts as it is.  A system
    call keeps the invariant; when it comes back, on the CPU it was made on,
    its process still runs there. *)
Class TrapLaws : Prop := {
  ide_law s pd me o : ready s pd me o false ->
    safe (e_ideintr me) s (fun _ s' => ready s' pd me o false /\ kept o s s');
  kbd_law s pd me o : ready s pd me o false ->
    safe (e_kbdintr me) s (fun _ s' => ready s' pd me o false /\ kept o s s');
  uart_law s pd me o : ready s pd me o false ->
    safe (e_uartintr me) s (fun _ s' => ready s' pd me o false /\ kept o s s');
  syscall_law num s pd me p b q : ready s pd me (Some p) b -> pd !! p = None -> s_initproc s <> Some p ->
    s_procs s !! p = Some q -> p_cwd q <> None -> s_nextpid s < 2 ^ 31 - 1 -> is_call num = true ->
    safe (e_syscall num me) s (fun r s' => exists pd', inv (mkConf s' pd') /\
      (r <> None -> exists q', ready s' pd' me (Some p) b /\ pd' !! p = None /\ s_initproc s' = s_initproc s /\
         s_procs s' !! p = Some q' /\ p_cwd q' <> None /\ length (p_tf q') = length (p_tf q)))
}.
Context {TL : TrapLaws}.

(** ** The pieces of trap *)

(** Lifting the routines of the process table *)
Lemma ons_safe {A} (m : M sys A) (k : kern) (Q : A -> kern -> Prop) :
  safe m (k_sys k) (fun a s' => Q a (set_sys s' k)) -> safe (ons m) k Q.
Proof. apply safe_zoom. Qed.

Lemma ons_run {A} (m : M sys A) (k : kern) a s' : m (k_sys k) = Ok a s' -> ons m k = Ok a (set_sys s' k).
Proof. apply zoom_run. Qed.

Lemma ons_step {A B} (m : M sys A) (f : A -> M kern B) (k : kern) (P : A -> sys -> Prop) Q :
  safe m (k_sys k) P -> (forall a s', m (k_sys k) = Ok a s' -> P a s' -> safe (f a) (set_sys s' k) Q) ->
  safe (bind (ons m) f) k Q.
Proof. intros H1 H2. apply safe_bind, ons_safe. eapply safe_mono; [exact H1|]. auto. Qed.

Lemma tf_word_run tf i w (k : kern) : tf !! i = Some w -> tf_word tf i k = Ok w k.
Proof. intros H. unfold tf_word. by rewrite H. Qed.

(** The CPU stays ready and nothing but [m_*] below changed. *)
Definition rdy (k : kern) := ready (k_sys k).
Definition same_dev (k k' : kern) : Prop := k_ticks k' = k_ticks k /\ k_eoi k' = k_eoi k /\ k_idt k' = k_idt k.

Lemma myproc_rdy k pd me o b : rdy k pd me o b -> exists k', ons (onm (myproc me)) k = Ok o k' /\
  rdy k' pd me o b /\ kept o (k_sys k) (k_sys k') /\ same_dev k k'.
Proof. intros (s' & H & Hr & Hk)%ready_myproc. exists (set_sys s' k). split; [by apply ons_run|]. done. Qed.

Lemma curproc_rdy k pd me p b : rdy k pd me (Some p) b -> exists k', ons (curproc me) k = Ok p k' /\
  rdy k' pd me (Some p) b /\ kept (Some p) (k_sys k) (k_sys k') /\ same_dev k k'.
Proof. intros (s' & H & Hr & Hk)%ready_curproc. exists (set_sys s' k). split; [by apply ons_run|]. done. Qed.

Lemma cpuid_rdy k pd me o : rdy k pd me o false -> ons (onm (cpuid me)) k = Ok (Z.of_nat me) k.
Proof. intros Hr%ready_cpuid. erewrite ons_run by exact Hr. by destruct k. Qed.

Lemma proc_at_ons i q (k : kern) : s_procs (k_sys k) !! i = Some q -> ons (proc_at i) k = Ok q k.
Proof. intros H. erewrite ons_run by (by apply proc_at_run). by destruct k. Qed.

Lemma is_killed_rdy k pd me p b q : rdy k pd me (Some p) b -> s_procs (k_sys k) !! p = Some q ->
  exists k', is_killed me k = Ok (negb (p_killed q =? 0)) k' /\ rdy k' pd me (Some p) b /\
    kept (Some p) (k_sys k) (k_sys k') /\ same_dev k k'.
Proof.
  intros Hr Hq. destruct (curproc_rdy _ _ _ _ _ Hr) as (k' & H & Hr' & Hk & Hd). exists k'. split; [|done].
  unfold is_killed. rewrite (bind_run _ _ _ _ _ H). by rewrite (bind_run _ _ _ _ _ (proc_at_ons p q k' ltac:(rewrite (proj2 Hk); done))).
Qed.

(** A clock interrupt wakes sleepers under tickslock and leaves the CPU ready. *)
Lemma clock_tick_rdy k pd me o : rdy k pd me o false ->
  safe (clock_tick me) k (fun _ k' => rdy k' pd me o false /\ kept o (k_sys k) (k_sys k') /\
    k_ticks k' = u32 (k_ticks k + 1) /\ k_eoi k' = k_eoi k).
Proof.
  intros Hr. destruct (ready_on _ _ _ _ _ Hr) as (c & lk & Hon & Hme & Hc & Ho & Hn & Hb & Hs & Hl & Hh & _).
  pose proof Hr as [Hi _ Hls [lt Hlt] Hnp]. unfold clock_tick.
  assert (Hout : c_proc c = None -> c_scheduler c = None) by (rewrite Ho; done).
  eapply ons_step; [by eapply (on_acquire me tickslock c _ _ lt); [exact Hon| | |eapply Hls]|].
  intros [] s1 E1 H1.
  destruct (inv_step _ _ _ Hi (st_acquire me c tickslock _ s1 pd Hme Hout ltac:(done) E1)) as [Hi1 Hn1]; [cbn; lia|].
  eapply safe_seq; [reflexivity|]. eapply ons_step.
  { eapply (on_wakeup me ticks_chan (pushed c) _ _ lk); [exact H1|by apply pushed_ok| |done]. by rewrite lookup_insert_ne. }
  intros [] s2 E2 H2. cbn [k_sys set_sys set_ticks] in E2.
  destruct (inv_step _ _ _ Hi1 (st_wakeup me (pushed c) 1 _ s2 pd (proj1 (proj2 H1)) Hout E2)) as [Hi2 Hn2]; [cbn in *; lia|].
  rewrite (touched_inner (pushed c)) in H2 by (cbn; lia).
  destruct (on_release me tickslock _ _ _ _ H2) as (s3 & E3 & H3); [done|cbn; lia| |].
  { rewrite lookup_insert_ne by done. by rewrite lookup_insert_eq. }
  destruct (inv_step _ _ _ Hi2 (st_release me (pushed c) tickslock _ s3 pd (proj1 (proj2 H2)) Hout ltac:(done) E3)) as [Hi3 Hn3]; [cbn in *; lia|].
  eapply safe_run; [by apply ons_run|]. cbn. rewrite popped_pushed in H3 by done.
  destruct H3 as (Hok3 & Hme3 & Hl3 & Hp3). destruct (touched_fields c) as (_ & Et1 & _ & Et2 & Et3).
  split; [|split; [|done]].
  - split; [exact Hi3| | | |cbn in *; lia].
    + exists (touched c). split; [exact Hme3|]. split; [congruence|]. split; [congruence|]. split; [|by rewrite Et3].
      unfold touched. by destruct (c_ncli c =? 0).
    + cbn. rewrite Hl3. intros l lk' H. apply lookup_insert_Some in H as [[_ <-]|[Hn1' H]]; [done|].
      apply lookup_insert_Some in H as [[_ <-]|[_ H]]; [done|]. rewrite lookup_insert_ne in H by done. by eapply Hls.
    + cbn. rewrite Hl3, lookup_insert_eq. by eexists.
  - apply onm_Ok in E1 as (m1 & _ & ->). apply onm_Ok in E3 as (m3 & _ & ->).
    apply (wakeup_Ok me ticks_chan _ (pushed c) s2) in E2 as [(_ & _ & _ & _ & _ & _ & Hw%sto_init_eq) _]; [|apply Hi1|apply H1].
    cbn in *. split; [split; [apply Hw|cbn; lia]|]. intros p ->. destruct (ready_cur _ _ _ _ _ Hr) as (q & Hq & Hsq & _).
    change (s_procs (set_mach m3 s2)) with (s_procs s2). rewrite (proj1 Hw), list_lookup_fmap, Hq. cbn. unfold wake.
    by rewrite Hsq.
Qed.

(** ** The switch *)

(** The trap numbers of the switch, and whether the interrupt is acknowledged *)
Definition irq (n : Z) : Prop :=
  n = T_IRQ0 + IRQ_TIMER \/ n = T_IRQ0 + IRQ_IDE \/ n = T_IRQ0 + IRQ_IDE + 1 \/ n = T_IRQ0 + IRQ_KBD \/
  n = T_IRQ0 + IRQ_COM1 \/ n = T_IRQ0 + 7 \/ n = T_IRQ0 + IRQ_SPURIOUS.
#[local] Instance irq_dec n : Decision (irq n).
Proof. unfold irq. apply _. Defined.

Definition timer (n : Z) : Prop := n = T_IRQ0 + IRQ_TIMER.

(** The clock after a trap, and the acknowledgements *)
Definition ticks_after (me : nat) (n : Z) (t : Z) : Z :=
  if decide (timer n /\ me = 0%nat) then u32 (t + 1) else t.
Definition eoi_after (me : nat) (n : Z) (l : list nat) : list nat :=
  if decide (irq n /\ n <> T_IRQ0 + IRQ_IDE + 1) then me :: l else l.

Definition frame (tf : list Z) (n cs : Z) : Prop :=
  length tf = 19%nat /\ tf !! 12%nat = Some n /\ tf !! 15%nat = Some cs.

Lemma frame_word tf n cs i : frame tf n cs -> (i < 19)%nat -> exists w, tf !! i = Some w.
Proof. intros (Hl & _) Hi. apply lookup_lt_is_Some_2. lia. Qed.

Lemma trap_switch_irq k pd me o tf n cs : rdy k pd me o false -> frame tf n cs -> irq n ->
  safe (trap_switch me tf) k (fun _ k' => rdy k' pd me o false /\ kept o (k_sys k) (k_sys k') /\
    k_ticks k' = ticks_after me n (k_ticks k) /\ k_eoi k' = eoi_after me n (k_eoi k)).
Proof.
  intros Hr Hf Hn. unfold trap_switch. destruct (frame_word tf n cs 14 Hf ltac:(lia)) as [eip Heip].
  eapply safe_seq; [by apply tf_word_run, Hf|]. eapply safe_seq; [by apply tf_word_run|].
  eapply safe_seq; [by apply tf_word_run, Hf|].
  assert (Hdev : forall h : M sys unit, (forall s, ready s pd me o false ->
      safe h s (fun _ s' => ready s' pd me o false /\ kept o s s')) -> ~ timer n -> n <> T_IRQ0 + IRQ_IDE + 1 ->
    safe (ons h ;; lapiceoi me) k (fun _ k' => rdy k' pd me o false /\ kept o (k_sys k) (k_sys k') /\
      k_ticks k' = ticks_after me n (k_ticks k) /\ k_eoi k' = eoi_after me n (k_eoi k))).
  { intros h Hh Ht Hne. eapply ons_step; [by apply Hh|]. intros [] s1 _ [H1 H2]. eapply safe_run; [reflexivity|].
    split; [done|]. split; [done|]. unfold ticks_after, eoi_after.
    rewrite decide_False by tauto. by rewrite decide_True by done. }
  destruct Hn as [->|[->|[->|[->|[->|Hn]]]]].
  - change (T_IRQ0 + IRQ_TIMER =? T_IRQ0 + IRQ_TIMER) with true. cbv iota.
    eapply safe_seq; [by eapply cpuid_rdy|]. eapply safe_step with (P := fun _ k' => rdy k' pd me o false /\
      kept o (k_sys k) (k_sys k') /\ k_ticks k' = ticks_after me (T_IRQ0 + IRQ_TIMER) (k_ticks k) /\ k_eoi k' = k_eoi k).
    + unfold ticks_after. destruct (Z.eqb_spec (Z.of_nat me) 0) as [E|E]; cbn [whenM].
      * rewrite decide_True by (split; [done|lia]). by apply clock_tick_rdy.
      * rewrite decide_False by lia. by apply safe_ret.
    + intros [] k1 _ (H1 & H2 & H3 & H4). eapply safe_run; [reflexivity|]. cbn. rewrite H4. done.
  - apply Hdev; [by intros; apply ide_law|done|done].
  - apply safe_ret. done.
  - apply Hdev; [by intros; apply kbd_law|done|done].
  - apply Hdev; [by intros; apply uart_law|done|done].
  - replace ((n =? T_IRQ0 + 7) || (n =? T_IRQ0 + IRQ_SPURIOUS)) with true by (destruct Hn as [->| ->]; done).
    assert (Hsp : ~ timer n /\ n <> T_IRQ0 + IRQ_IDE + 1) by (destruct Hn as [->| ->]; done).
    assert (Hlog : safe (i <- ons (onm (cpuid me)) ;; cprintf "cpu%d: spurious interrupt at %x:%x" [i; cs; eip] ;; lapiceoi me) k
      (fun _ k' => rdy k' pd me o false /\ kept o (k_sys k) (k_sys k') /\
      k_ticks k' = ticks_after me n (k_ticks k) /\ k_eoi k' = eoi_after me n (k_eoi k))).
    { eapply safe_seq; [by eapply cpuid_rdy|]. eapply safe_run; [reflexivity|]. split; [done|]. split; [done|].
      unfold ticks_after, eoi_after. rewrite decide_False by tauto. rewrite decide_True; [done|].
      split; [|tauto]. unfold irq. tauto. }
    destruct Hn as [->| ->]; exact Hlog.
Qed.

(** A trap number with no case of its own *)
Lemma trap_switch_other tf n cs me k : frame tf n cs -> ~ irq n -> trap_switch me tf k = trap_fault me tf k.
Proof.
  intros Hf Hn. unfold trap_switch. destruct (frame_word tf n cs 14 Hf ltac:(lia)) as [eip Heip].
  rewrite (bind_run _ _ _ _ _ (tf_word_run _ _ _ k (proj1 (proj2 Hf)))), (bind_run _ _ _ _ _ (tf_word_run _ _ _ k Heip)).
  rewrite (bind_run _ _ _ _ _ (tf_word_run _ _ _ k (proj2 (proj2 Hf)))).
  assert (Hne : forall m, irq m -> (n =? m) = false) by (intros m Hm; apply Z.eqb_neq; intros ->; done).
  rewrite !Hne by (unfold irq; tauto). done.
Qed.

(** In user mode a fault marks the process as killed. *)
Lemma trap_fault_user k pd me p tf n cs q : rdy k pd me (Some p) false -> frame tf n cs ->
  s_procs (k_sys k) !! p = Some q -> Z.land cs 3 <> 0 ->
  safe (trap_fault me tf) k (fun _ k' => rdy k' pd me (Some p) false /\ s_initproc (k_sys k') = s_initproc (k_sys k) /\
    s_procs (k_sys k') !! p = Some (set_killed 1 q) /\ same_dev k k').
Proof.
  intros Hr Hf Hq Hcs. unfold trap_fault. destruct (frame_word tf n cs 14 Hf ltac:(lia)) as [eip Heip].
  destruct (frame_word tf n cs 13 Hf ltac:(lia)) as [err Herr].
  do 3 (eapply safe_seq; [by apply tf_word_run; first [apply Hf|done]|]). eapply safe_seq; [by apply tf_word_run, Hf|].
  destruct (myproc_rdy _ _ _ _ _ Hr) as (k1 & E1 & H1 & Hk1 & Hd1). eapply safe_seq; [exact E1|].
  rewrite bool_decide_false by done. rewrite (proj2 (Z.eqb_neq _ _) Hcs). cbn [orb].
  destruct (curproc_rdy _ _ _ _ _ H1) as (k2 & E2 & H2 & Hk2 & Hd2). eapply safe_seq; [exact E2|].
  assert (K2 : kept (Some p) (k_sys k) (k_sys k2)) by by eapply kept_trans.
  eapply safe_seq; [apply proc_at_ons; by rewrite (proj2 K2)|].
  destruct (curproc_rdy _ _ _ _ _ H2) as (k3 & E3 & H3 & Hk3 & Hd3). eapply safe_seq; [exact E3|].
  eapply safe_seq; [by eapply cpuid_rdy|]. eapply safe_seq; [reflexivity|].
  set (k4 := set_log _ k3). destruct (curproc_rdy k4 pd me p false H3) as (k5 & E5 & H5 & Hk5 & Hd5).
  eapply safe_seq; [exact E5|].
  assert (K5 : kept (Some p) (k_sys k) (k_sys k5)) by (eapply kept_trans, kept_trans; [exact K2|exact Hk3|exact Hk5]).
  assert (Hq5 : s_procs (k_sys k5) !! p = Some q) by (rewrite (proj2 K5); done).
  eapply safe_run; [by apply ons_run, upd_run|]. cbn. split.
  - eapply ready_upd; [exact H5|done|by repeat split; left|done|done].
  - split; [apply K5|]. split; [apply list_lookup_insert_eq; by eapply lookup_lt_Some|].
    destruct Hd1 as (? & ? & ?), Hd2 as (? & ? & ?), Hd3 as (? & ? & ?), Hd5 as (? & ? & ?). cbn in *.
    unfold same_dev. cbn. split_and!; congruence.
Qed.

(** In the kernel, or with no process, it panics. *)
Lemma trap_fault_kernel k pd me o tf n cs : rdy k pd me o false -> frame tf n cs -> o = None \/ Z.land cs 3 = 0 ->
  trap_fault me tf k = Panic "trap".
Proof.
  intros Hr Hf Ho. unfold trap_fault. destruct (frame_word tf n cs 14 Hf ltac:(lia)) as [eip Heip].
  destruct (frame_word tf n cs 13 Hf ltac:(lia)) as [err Herr].
  rewrite (bind_run _ _ _ _ _ (tf_word_run _ _ _ k (proj1 (proj2 Hf)))), (bind_run _ _ _ _ _ (tf_word_run _ _ _ k Herr)).
  rewrite (bind_run _ _ _ _ _ (tf_word_run _ _ _ k Heip)), (bind_run _ _ _ _ _ (tf_word_run _ _ _ k (proj2 (proj2 Hf)))).
  destruct (myproc_rdy _ _ _ _ _ Hr) as (k1 & E1 & H1 & _). rewrite (bind_run _ _ _ _ _ E1).
  replace (bool_decide (o = None) || (Z.land cs 3 =? 0)) with true.
  2:{ symmetry. apply orb_true_iff. destruct Ho as [->|Ho]; [by left|right; by apply Z.eqb_eq]. }
  by rewrite (bind_run _ _ _ _ _ (cpuid_rdy _ _ _ _ H1)).
Qed.

(** ** After the switch *)

Lemma must_exit_rdy k pd me p b tf n cs q : rdy k pd me (Some p) b -> frame tf n cs ->
  s_procs (k_sys k) !! p = Some q ->
  exists k', must_exit me tf k = Ok (negb (p_killed q =? 0) && from_user cs) k' /\ rdy k' pd me (Some p) b /\
    kept (Some p) (k_sys k) (k_sys k') /\ same_dev k k'.
Proof.
  intros Hr Hf Hq. destruct (myproc_rdy _ _ _ _ _ Hr) as (k1 & E1 & H1 & Hk1 & Hd1).
  destruct (is_killed_rdy k1 pd me p b q H1) as (k2 & E2 & H2 & Hk2 & Hd2); [by rewrite (proj2 Hk1)|].
  exists k2. unfold must_exit. rewrite (bind_run _ _ _ _ _ E1), (bind_run _ _ _ _ _ E2).
  split; [|split; [done|]; split; [by eapply kept_trans|destruct Hd1 as (? & ? & ?), Hd2 as (? & ? & ?); split; [|split]; congruence]].
  destruct (negb _); [|done]. by rewrite (bind_run _ _ _ _ _ (tf_word_run _ _ _ k2 (proj2 (proj2 Hf)))).
Qed.

Lemma must_exit_idle k pd me b tf : rdy k pd me None b -> exists k', must_exit me tf k = Ok false k' /\
  rdy k' pd me None b /\ kept None (k_sys k) (k_sys k') /\ same_dev k k'.
Proof.
  intros (k1 & E1 & H1)%myproc_rdy. exists k1. split; [|done]. unfold must_exit. by rewrite (bind_run _ _ _ _ _ E1).
Qed.

Lemma must_yield_rdy k pd me p b tf n cs : rdy k pd me (Some p) b -> frame tf n cs ->
  exists k', must_yield me tf k = Ok (n =? T_IRQ0 + IRQ_TIMER) k' /\ rdy k' pd me (Some p) b /\
    kept (Some p) (k_sys k) (k_sys k') /\ same_dev k k'.
Proof.
  intros Hr Hf. destruct (ready_cur _ _ _ _ _ Hr) as (q & Hq & Hs & _).
  destruct (myproc_rdy _ _ _ _ _ Hr) as (k1 & E1 & H1 & Hk1 & Hd1).
  destruct (curproc_rdy _ _ _ _ _ H1) as (k2 & E2 & H2 & Hk2 & Hd2).
  assert (K2 : kept (Some p) (k_sys k) (k_sys k2)) by by eapply kept_trans.
  exists k2. unfold must_yield. rewrite (bind_run _ _ _ _ _ E1), (bind_run _ _ _ _ _ E2).
  rewrite (bind_run _ _ _ _ _ (proc_at_ons p q k2 ltac:(rewrite (proj2 K2); done))).
  rewrite (bind_run _ _ _ _ _ (tf_word_run _ _ _ k2 (proj1 (proj2 Hf)))), bool_decide_true by done.
  split; [done|]. split; [done|]. split; [done|].
  destruct Hd1 as (? & ? & ?), Hd2 as (? & ? & ?); split; [|split]; congruence.
Qed.

(** The process is gone: a zombie that no CPU runs. *)
Definition exited (k : kern) (pd : gmap nat nat) (p : nat) : Prop :=
  inv (mkConf (k_sys k) pd) /\ exists z, s_procs (k_sys k) !! p = Some z /\ p_state z = ZOMBIE.

Lemma exit_rdy k pd me p b q : rdy k pd me (Some p) b -> pd !! p = None -> s_initproc (k_sys k) <> Some p ->
  s_procs (k_sys k) !! p = Some q -> p_cwd q <> None ->
  safe (ons (exit me)) k (fun _ k' => exited k' pd p /\ same_dev k k').
Proof.
  intros Hr Hpd Hini Hq Hd. destruct (p_cwd q) as [d|] eqn:Ed; [|done].
  apply ons_safe. eapply safe_mono; [by eapply exit_safe|]. intros [] s' E _. split; [|done]. cbn.
  destruct (rd_cpu _ _ _ _ _ Hr) as (c & Hc & Ho & Hn & _).
  destruct (inv_step _ _ _ (rd_inv _ _ _ _ _ Hr) (st_exit me c p _ s' pd Hc Ho Hn Hpd E)) as [Hi _]; [cbn; pose proof (rd_pid _ _ _ _ _ Hr); lia|].
  split; [done|]. destruct (exit_Ok me _ c _ ltac:(apply Hr) Hc E) as (p' & q0 & q1 & q2 & i & Hp' & _ & _ & _ & Hq2 & Hg).
  assert (p' = p) as -> by congruence. destruct Hg as (? & ? & ? & _ & _ & _ & _ & _ & _ & [Ep _]%sto_init_eq).
  eexists. cbn. rewrite Ep. split; [apply list_lookup_insert_eq; by eapply lookup_lt_Some|done].
Qed.

(** The process has given up the CPU and can run again. *)
Definition yielded (k : kern) (pd : gmap nat nat) (p : nat) : Prop :=
  inv (mkConf (k_sys k) pd) /\ exists y, s_procs (k_sys k) !! p = Some y /\ p_state y = RUNNABLE /\
    ctx_eip (p_context y) = AtYield.

Lemma yield_rdy k pd me p b : rdy k pd me (Some p) b ->
  safe (ons (yield me)) k (fun _ k' => yielded k' pd p /\ same_dev k k').
Proof.
  intros Hr. apply ons_safe. eapply safe_mono; [by eapply yield_safe|]. intros [] s' E _. split; [|done]. cbn.
  destruct (rd_cpu _ _ _ _ _ Hr) as (c & Hc & Ho & Hn & _).
  destruct (inv_step _ _ _ (rd_inv _ _ _ _ _ Hr) (st_yield me c p _ s' pd Hc Ho Hn E)) as [Hi _]; [cbn; pose proof (rd_pid _ _ _ _ _ Hr); lia|].
  split; [done|]. destruct (yield_Ok me _ c _ ltac:(apply Hr) Hc E) as (p' & q & i & Hp' & Hq & Hg).
  assert (p' = p) as -> by congruence. destruct Hg as (? & ? & ? & _ & _ & _ & _ & _ & _ & [Ep _]%sto_init_eq).
  eexists. cbn. rewrite Ep. split; [apply list_lookup_insert_eq; by eapply lookup_lt_Some|done].
Qed.

Lemma same_dev_trans k1 k2 k3 : same_dev k1 k2 -> same_dev k2 k3 -> same_dev k1 k3.
Proof. unfold same_dev. intros (? & ? & ?) (? & ? & ?). split_and!; congruence. Qed.

(** A process in user mode: it is not in the middle of a fork, it has a working
    directory, and it is not init, which must not exit. *)
Record user_proc (k : kern) (pd : gmap nat nat) (me p : nat) (q : proc) (b : bool) : Prop := {
  up_rdy : rdy k pd me (Some p) b;
  up_pend : pd !! p = None;
  up_init : s_initproc (k_sys k) <> Some p;
  up_proc : s_procs (k_sys k) !! p = Some q;
  up_cwd : p_cwd q <> None
}.

Lemma user_proc_kept k k' pd me p q b b' : user_proc k pd me p q b -> rdy k' pd me (Some p) b' ->
  kept (Some p) (k_sys k) (k_sys k') -> user_proc k' pd me p q b'.
Proof. intros [H1 H2 H3 H4 H5] Hr [[Ei _] Hk]. split; [done|done|congruence|by rewrite Hk|done]. Qed.

(** What follows the switch: a killed process exits, a clock tick makes the
    process yield, and otherwise trap returns. *)
Definition rest_outcome (k' : kern) (pd : gmap nat nat) (me p : nat) (q : proc) (b tick : bool) (fl : flow) : Prop :=
  match fl with
  | Gone => p_killed q <> 0 /\ exited k' pd p
  | Away => p_killed q = 0 /\ tick = true /\ yielded k' pd p
  | Back => p_killed q = 0 /\ tick = false /\ user_proc k' pd me p q b
  end.

Lemma trap_end_user k pd me p q b tf n cs : user_proc k pd me p q b -> frame tf n cs -> from_user cs = true ->
  safe (trap_end me tf) k (fun fl k' => same_dev k k' /\ rest_outcome k' pd me p q b false fl).
Proof.
  intros Hu Hf Hcs. unfold trap_end.
  destruct (must_exit_rdy k pd me p b tf n cs q) as (k1 & E1 & H1 & Hk1 & Hd1); [apply Hu|done|apply Hu|].
  assert (Hu1 : user_proc k1 pd me p q b) by by eapply user_proc_kept.
  eapply safe_seq; [exact E1|]. rewrite Hcs, andb_true_r. destruct (Z.eqb_spec (p_killed q) 0) as [E|E]; cbn [negb].
  - by apply safe_ret.
  - eapply safe_step; [eapply exit_rdy; apply Hu1|]. intros [] k2 _ [H2 Hd2]. apply safe_ret.
    split; [by eapply same_dev_trans|done].
Qed.

Lemma trap_rest_user k pd me p q b tf n cs : user_proc k pd me p q b -> frame tf n cs -> from_user cs = true ->
  safe (trap_rest me tf) k (fun fl k' => same_dev k k' /\ rest_outcome k' pd me p q b (n =? T_IRQ0 + IRQ_TIMER) fl).
Proof.
  intros Hu Hf Hcs. unfold trap_rest.
  destruct (must_exit_rdy k pd me p b tf n cs q) as (k1 & E1 & H1 & Hk1 & Hd1); [apply Hu|done|apply Hu|].
  assert (Hu1 : user_proc k1 pd me p q b) by by eapply user_proc_kept.
  eapply safe_seq; [exact E1|]. rewrite Hcs, andb_true_r. destruct (Z.eqb_spec (p_killed q) 0) as [E|E]; cbn [negb].
  - destruct (must_yield_rdy k1 pd me p b tf n cs H1 Hf) as (k2 & E2 & H2 & Hk2 & Hd2).
    assert (Hu2 : user_proc k2 pd me p q b) by by eapply user_proc_kept. eapply safe_seq; [exact E2|].
    assert (Hd : same_dev k k2) by by eapply same_dev_trans. destruct (n =? T_IRQ0 + IRQ_TIMER).
    + eapply safe_step; [by eapply yield_rdy|]. intros [] k3 _ [H3 Hd3]. apply safe_ret.
      split; [by eapply same_dev_trans|done].
    + eapply safe_mono; [by eapply trap_end_user|]. intros fl k3 _ [Hd3 H3]. split; [by eapply same_dev_trans|done].
  - eapply safe_step; [eapply exit_rdy; apply Hu1|]. intros [] k2 _ [H2 Hd2]. apply safe_ret.
    split; [by eapply same_dev_trans|done].
Qed.

(** ** System calls *)

(** The process after a number that is no system call: -1 in eax *)
Definition no_call (tf : list Z) (q : proc) : proc := set_tf (<[7%nat := u32 (-1)]> tf) q.

Definition syscall_outcome (k' : kern) (me p : nat) (q : proc) (b : bool) (tf : list Z) (fl : flow) : Prop :=
  match fl with
  | Gone => exists pd', exited k' pd' p
  | Away => exists pd', inv (mkConf (k_sys k') pd')
  | Back => exists pd' q', user_proc k' pd' me p q' b /\ p_killed q' = 0 /\
      forall num, tf !! 7%nat = Some num -> is_call (s32 num) = false -> q' = no_call tf q
  end.

Lemma user_proc_upd k pd me p q b q' s' : user_proc k pd me p q b -> alike q q' -> p_state q' = p_state q ->
  p_chan q' = p_chan q -> p_cwd q' = p_cwd q -> s' = set_procs (<[p := q']> (s_procs (k_sys k))) (k_sys k) ->
  user_proc (set_sys s' k) pd me p q' b.
Proof.
  intros [H1 H2 H3 H4 H5] Ha Es Ec Ed ->. split; [by eapply ready_upd|done|done| |congruence].
  apply list_lookup_insert_eq. by eapply lookup_lt_Some.
Qed.

Lemma syscall_end_user k pd me p q b : user_proc k pd me p q b ->
  safe (trap_syscall_end me) k (fun fl k' => match fl with
    | Gone => exited k' pd p | Away => False | Back => user_proc k' pd me p q b /\ p_killed q = 0 end).
Proof.
  intros Hu. unfold trap_syscall_end.
  destruct (is_killed_rdy k pd me p b q) as (k1 & E1 & H1 & Hk1 & Hd1); [apply Hu..|].
  assert (Hu1 : user_proc k1 pd me p q b) by by eapply user_proc_kept. eapply safe_seq; [exact E1|].
  destruct (Z.eqb_spec (p_killed q) 0) as [E|E]; cbn [negb]; [by apply safe_ret|].
  eapply safe_step; [eapply exit_rdy; apply Hu1|]. intros [] k2 _ [H2 _]. by apply safe_ret.
Qed.

(** The result in eax *)
Lemma syscall_ret_user k pd me p q b r : user_proc k pd me p q b -> (7 < length (p_tf q))%nat ->
  exists k', syscall_ret p r k = Ok tt k' /\ user_proc k' pd me p (set_tf (<[7%nat := u32 r]> (p_tf q)) q) b.
Proof.
  intros Hu Hl. unfold syscall_ret. rewrite (bind_run _ _ _ _ _ (proc_at_ons p q k (up_proc _ _ _ _ _ _ Hu))).
  rewrite decide_True by done. eexists. split; [apply ons_run, upd_run; apply Hu|].
  eapply user_proc_upd; [done|by repeat split; left|done..].
Qed.

Lemma syscall_user k pd me p b q : user_proc k pd me p q b -> length (p_tf q) = 19%nat ->
  s_nextpid (k_sys k) < 2 ^ 31 - 1 ->
  safe (syscall me) k (fun d k' => exists pd', inv (mkConf (k_sys k') pd') /\ (d = true -> exists q',
    user_proc k' pd' me p q' b /\
    forall num, p_tf q !! 7%nat = Some num -> is_call (s32 num) = false -> q' = no_call (p_tf q) q)).
Proof.
  intros Hu Hl Hnp. unfold syscall.
  destruct (curproc_rdy k pd me p b) as (k1 & E1 & H1 & Hk1 & Hd1); [apply Hu|].
  assert (Hu1 : user_proc k1 pd me p q b) by by eapply user_proc_kept. eapply safe_seq; [exact E1|].
  eapply safe_seq; [apply proc_at_ons, Hu1|]. destruct (lookup_lt_is_Some_2 (p_tf q) 7) as [num Hnum]; [lia|].
  eapply safe_seq; [by apply tf_word_run|]. destruct (is_call (s32 num)) eqn:Ec.
  - eapply ons_step; [eapply syscall_law; [apply Hu1..|rewrite (proj2 (proj1 Hk1)); done|done]|].
    intros r s2 _ (pd' & Hi & Hr). destruct r as [r|]; [|by apply safe_ret; exists pd'; split].
    destruct Hr as (q' & H2 & Hpd & Hini & Hq & Hcwd & Hl'); [done|].
    assert (Hu2 : user_proc (set_sys s2 k1) pd' me p q' b).
    { split; try done. intros E. apply (up_init _ _ _ _ _ _ Hu1). cbn in E. congruence. }
    destruct (syscall_ret_user _ _ _ _ _ _ r Hu2) as (k3 & E3 & Hu3); [lia|]. eapply safe_seq; [exact E3|]. apply safe_ret.
    exists pd'. split; [apply (up_rdy _ _ _ _ _ _ Hu3)|]. intros _. eexists. split; [exact Hu3|]. congruence.
  - eapply safe_seq; [reflexivity|].
    destruct (syscall_ret_user (set_log (("%d %s: unknown sys call %d"%string, [p_pid q; s32 num]) :: k_log k1) k1) pd me p q b (-1))
      as (k3 & E3 & Hu3); [by destruct Hu1|lia|].
    eapply safe_seq; [exact E3|]. apply safe_ret. exists pd. split; [apply (up_rdy _ _ _ _ _ _ Hu3)|].
    intros _. eexists. split; [exact Hu3|]. done.
Qed.

Lemma trap_syscall_user k pd me p b q tf : user_proc k pd me p q b -> length tf = 19%nat ->
  s_nextpid (k_sys k) < 2 ^ 31 - 1 ->
  safe (trap_syscall me tf) k (fun fl k' => syscall_outcome k' me p q b tf fl /\ (p_killed q <> 0 -> fl = Gone)).
Proof.
  intros Hu Hl Hnp. unfold trap_syscall.
  destruct (is_killed_rdy k pd me p b q) as (k1 & E1 & H1 & Hk1 & _); [apply Hu..|].
  assert (Hu1 : user_proc k1 pd me p q b) by by eapply user_proc_kept. eapply safe_seq; [exact E1|].
  destruct (Z.eqb_spec (p_killed q) 0) as [E|E]; cbn [negb].
  2:{ eapply safe_step; [eapply exit_rdy; apply Hu1|]. intros [] k2 _ [H2 _]. apply safe_ret. split; [by exists pd|done]. }
  destruct (curproc_rdy k1 pd me p b H1) as (k2 & E2 & H2 & Hk2 & _).
  assert (Hu2 : user_proc k2 pd me p q b) by by eapply user_proc_kept. eapply safe_seq; [exact E2|].
  eapply safe_seq; [apply ons_run, upd_run; apply Hu2|]. set (k3 := set_sys _ k2).
  assert (Hu3 : user_proc k3 pd me p (set_tf tf q) b) by (eapply user_proc_upd; [done|by repeat split; left|done..]).
  eapply safe_step; [eapply syscall_user; [exact Hu3|exact Hl|]|].
  { cbn. rewrite (proj2 (proj1 Hk2)), (proj2 (proj1 Hk1)). done. }
  intros d k4 _ (pd' & Hi & Hd). destruct d; [|by apply safe_ret; split; [exists pd'|]].
  destruct Hd as (q' & Hu4 & Hno); [done|]. eapply safe_mono; [by apply syscall_end_user|].
  intros fl k5 _ Hfl. split; [|done]. destruct fl as [| |]; [|by exists pd'|done].
  destruct Hfl as [Hu5 Hk5]. exists pd', q'. done.
Qed.

(** ** The processor enters trap *)

(** The gates of tvinit turn interrupts off, except for system calls. *)
Lemma take_trap_run vs idt0 k pd me o b tf n cs : rdy k pd me o b -> tvinit vs idt0 = Some (k_idt k) ->
  frame tf n cs -> 0 <= n < 256 ->
  exists k', take_trap me tf k = (if n =? T_SYSCALL then trap_syscall me tf else trap_switch me tf ;; trap_rest me tf) k' /\
    rdy k' pd me o (b && (n =? T_SYSCALL)) /\ kept o (k_sys k) (k_sys k') /\ same_dev k k'.
Proof.
  intros Hr Hv Hf Hn. destruct (tvinit_gates vs idt0 _ n Hv Hn) as (v & _ & Hg).
  assert (Hw : forall k' : kern, tf_word tf 12 k' = Ok n k') by (intros; apply tf_word_run, Hf).
  unfold take_trap, trap, aget. rewrite (bind_run _ _ _ _ _ (Hw k)), gets_bind, Hg.
  cbn [from_option_undef]. rewrite bind_ret_l. unfold gate_of. destruct (n =? T_SYSCALL) eqn:En.
  - exists k. change (gd_type _ =? STS_IG32) with false. cbn [whenM]. rewrite bind_ret_l, (bind_run _ _ _ _ _ (Hw k)), En.
    by rewrite andb_true_r.
  - change (gd_type _ =? STS_IG32) with true. cbn [whenM]. destruct (ready_cli _ _ _ _ _ Hr) as (s' & E & Hr' & Hk).
    exists (set_sys s' k). rewrite (bind_run _ _ _ _ _ (ons_run _ _ _ _ E)), (bind_run _ _ _ _ _ (Hw _)), En.
    by rewrite andb_false_r.
Qed.


(** C16: a trap taken in the kernel, outside critical sections, or on an idle
    CPU.  An interrupt is handled, and the interrupted thread goes on - after a
    yield when the clock ticks; it exits in no case, even when its process is
    killed.  Any other trap is a mistake of the kernel: it panics. *)
Theorem trap_kernel_mode vs idt0 k pd me o b tf n cs :
  rdy k pd me o b -> tvinit vs idt0 = Some (k_idt k) -> frame tf n cs -> 0 <= n < 256 ->
  Z.land cs 3 = 0 -> n <> T_SYSCALL ->
  (irq n -> safe (take_trap me tf) k (fun fl k' =>
     k_ticks k' = ticks_after me n (k_ticks k) /\ k_eoi k' = eoi_after me n (k_eoi k) /\
     match fl with
     | Gone => False
     | Away => timer n /\ exists p, o = Some p /\ yielded k' pd p
     | Back => (timer n -> o = None) /\ rdy k' pd me o false /\ kept o (k_sys k) (k_sys k')
     end)) /\
  (~ irq n -> take_trap me tf k = Panic "trap").
Proof.
  intros Hr Hv Hf Hn Hcs Hne.
  destruct (take_trap_run vs idt0 k pd me o b tf n cs) as (k1 & E1 & H1 & Hk1 & Et & Ee & _); [done..|].
  rewrite (proj2 (Z.eqb_neq _ _) Hne), andb_false_r in *.
  split; intros Hi; [eapply safe_eq; [exact E1|]|rewrite E1]; clear E1.
  2:{ unfold bind at 1. rewrite (trap_switch_other _ _ _ _ _ Hf Hi). by erewrite trap_fault_kernel by eauto. }
  apply (safe_step _ _ _ _ _ (trap_switch_irq _ _ _ _ _ _ _ H1 Hf Hi)). intros [] k2 _ (H2 & Hk2 & Ht2 & He2).
  assert (K2 : kept o (k_sys k) (k_sys k2)) by by eapply kept_trans. rewrite <- Et, <- Ee, <- Ht2, <- He2.
  assert (Hfu : from_user cs = false) by (unfold from_user; rewrite Hcs; done).
  unfold trap_rest, trap_end. destruct o as [p|].
  - destruct (ready_cur _ _ _ _ _ H2) as (q & Hq & _).
    destruct (must_exit_rdy _ _ _ _ _ _ _ _ _ H2 Hf Hq) as (k3 & E3 & H3 & Hk3 & Hd3). eapply safe_seq; [exact E3|].
    rewrite Hfu, andb_false_r.
    destruct (must_yield_rdy _ _ _ _ _ _ _ _ H3 Hf) as (k4 & E4 & H4 & Hk4 & Hd4). eapply safe_seq; [exact E4|].
    destruct (same_dev_trans _ _ _ Hd3 Hd4) as (Et4 & Ee4 & _).
    assert (K4 : kept (Some p) (k_sys k) (k_sys k4)) by (eapply kept_trans, kept_trans; done).
    destruct (Z.eqb_spec n (T_IRQ0 + IRQ_TIMER)) as [E|E].
    + eapply safe_step; [by eapply yield_rdy|]. intros [] k5 _ (H5 & Et5 & Ee5 & _). apply safe_ret.
      split; [congruence|]. split; [congruence|]. split; [done|]. by exists p.
    + assert (Hq4 : s_procs (k_sys k4) !! p = Some q).
      { rewrite (proj2 Hk4), (proj2 Hk3); done. }
      destruct (must_exit_rdy _ _ _ _ _ _ _ _ _ H4 Hf Hq4) as (k5 & E5 & H5 & Hk5 & Et5 & Ee5 & _). eapply safe_seq; [exact E5|].
      rewrite Hfu, andb_false_r. apply safe_ret. split; [congruence|]. split; [congruence|].
      split; [done|]. split; [done|by eapply kept_trans].
  - destruct (must_exit_idle _ _ _ _ tf H2) as (k3 & E3 & H3 & Hk3 & Hd3). eapply safe_seq; [exact E3|].
    destruct (myproc_rdy _ _ _ _ _ H3) as (k4 & E4 & H4 & Hk4 & Hd4).
    eapply safe_seq; [unfold must_yield; rewrite (bind_run _ _ _ _ _ E4); reflexivity|].
    destruct (must_exit_idle _ _ _ _ tf H4) as (k5 & E5 & H5 & Hk5 & Hd5). eapply safe_seq; [exact E5|].
    destruct (same_dev_trans _ _ _ (same_dev_trans _ _ _ Hd3 Hd4) Hd5) as (Et5 & Ee5 & _).
    apply safe_ret. split; [congruence|]. split; [congruence|]. split; [done|]. split; [done|].
    eapply kept_trans, kept_trans, kept_trans; done.
Qed.

End props.
(** ** Witnesses: one CPU, init and its child, and devices that wake sleepers *)

#[local] Existing Instance count_env.

#[export] Instance count_exit : ExitEnv.
Proof. by split. Qed.

#[local] Instance wake_trap : TrapEnv Z := {|
  e_ideintr := fun me => wakeup me (Some (ChAddr 7));
  e_kbdintr := fun me => wakeup me (Some (ChAddr 8));
  e_uartintr := fun me => wakeup me (Some (ChAddr 8));
  e_syscall := fun num me =>
    if num =? SYS_getpid then cur <- curproc me ;; q <- proc_at cur ;; ret (Some (p_pid q))
    else if num =? SYS_yield then yield me ;; ret None
    else ret (Some (-1))
|}.

#[local] Instance wake_laws : TrapLaws.
Proof.
  split; try (intros; by apply ready_wakeup).
  intros num s pd me p b q Hr Hpd Hini Hq Hd Hnp _. cbn. destruct (num =? SYS_getpid).
  - destruct (ready_curproc _ _ _ _ _ Hr) as (s1 & E1 & H1 & [Ei _] & Hk1). eapply safe_seq; [exact E1|].
    specialize (Hk1 p eq_refl). eapply safe_seq; [apply proc_at_run; by rewrite Hk1|]. apply safe_ret.
    exists pd. split; [apply H1|]. intros _. exists q. rewrite Hk1. done.
  - destruct (num =? SYS_yield).
    + eapply safe_step; [by eapply yield_safe|]. intros [] s1 E _. apply safe_ret. exists pd. split; [|done].
      destruct (rd_cpu _ _ _ _ _ Hr) as (c & Hc & Ho & Hn & _).
      by destruct (inv_step _ _ _ (rd_inv _ _ _ _ _ Hr) (st_yield me c p _ s1 pd Hc Ho Hn E)) as [Hi _]; [cbn; lia|].
    + apply safe_ret. exists pd. split; [apply Hr|]. intros _. by exists q.
Qed.

(** The machine of [ProcProps], with tickslock *)
Definition v0 : @sys Z :=
  mkSys (mkMach [mkCpu 5 0 0 false None None] {[ptable_lock := mkLock 0 None; tickslock := mkLock 0 None]})
    (replicate (Z.to_nat NPROC) zero_proc) 1 None 1 0.
Definition v1 := Eval vm_compute in after (userinit 0) v0.
Definition v2 := Eval vm_compute in after (scheduler_enter 0) v1.
Definition v3 := Eval vm_compute in after (scheduler_step 0) v2.
Definition v4 := Eval vm_compute in after (allocproc_find 0) v3.
Definition v5 := Eval vm_compute in after (fork_rest 0 0 1) v4.
Definition v6 := Eval vm_compute in after (yield 0) v5.
Definition v7 := Eval vm_compute in after (scheduler_step 0) v6.

Lemma v_boots : boots v1.
Proof.
  exists 0%nat, v0. split; [|vm_compute; reflexivity].
  split; [apply (bool_decide_unpack _); reflexivity|]. split; [|done].
  intros i c Hi. apply list_lookup_singleton_Some in Hi as [_ <-]. done.
Qed.

Definition v_pend : gmap nat nat := delete 0%nat (<[0%nat := 1%nat]> ∅).

Lemma v_reach7 : reach (mkConf v7 v_pend) (0 + 0 + 0 + 1 + 0 + 0 + 0).
Proof.
  eapply reach_step; [eapply reach_step; [eapply reach_step; [eapply reach_step; [eapply reach_step; [eapply reach_step; [exact (reach_boot _ v_boots)|]|]|]|]|]|].
  - eapply (st_enter 0 _ v1 v2); vm_compute; reflexivity.
  - eapply (st_scan 0 _ 0 None v2 v3); vm_compute; reflexivity.
  - eapply (st_fork_find 0 _ 0 1 v3 v4 ∅); vm_compute; reflexivity.
  - eapply (st_fork_rest 0 _ 0 1 2 v4 v5); vm_compute; reflexivity.
  - eapply (st_yield 0 _ 0 v5 v6); vm_compute; reflexivity.
  - eapply (st_scan 0 _ 1 None v6 v7); vm_compute; reflexivity.
Qed.

Definition v_vectors : list Z := seqZ 1048576 256.
Definition v_idt : list gatedesc :=
  Eval vm_compute in default [] (tvinit v_vectors (replicate 256 (mkGate 0 0 0 0 0 0 0 0 0))).
Definition v_kern : @kern Z := mkKern v7 9 v_idt [] [].
Definition v_child : proc := default zero_proc (s_procs v7 !! 1%nat).
Definition v_cpu : cpu := default (mkCpu 0 0 0 false None None) (m_cpus (s_mach v7) !! 0%nat).

(** The child runs on the CPU. *)
Lemma v_ready : rdy v_kern v_pend 0 (Some 1%nat) (c_if v_cpu).
Proof.
  destruct (reach_inv _ _ v_reach7 ltac:(done)) as [Hi Hn]. split; [exact Hi| | | |vm_compute; reflexivity].
  - exists v_cpu. split; [vm_compute; reflexivity|]. split; [vm_compute; reflexivity|].
    split; [vm_compute; reflexivity|]. split; [reflexivity|done].
  - assert (E : map_Forall (fun _ lk => held_by 0 lk = false) (m_locks (s_mach v7))).
    { apply (bool_decide_unpack _). vm_compute. exact I. }
    exact E.
  - vm_compute. by eexists.
Qed.

Lemma v_user : user_proc v_kern v_pend 0 1 v_child (c_if v_cpu).
Proof. split; [exact v_ready|vm_compute; reflexivity|vm_compute; discriminate|vm_compute; reflexivity|vm_compute; discriminate]. Qed.

(** The frame of a page fault in user mode, and of a clock tick in the kernel *)
Definition fault_frame : list Z := replicate 12 0 ++ [14; 4; 4096; 27; 512; 4096; 35].
Definition tick_frame : list Z := replicate 12 0 ++ [32; 0; 1048576; 8; 512; 0; 0].


Lemma trap_kernel_mode_witness : Z.land 8 3 = 0 /\
  (irq 32 -> safe (take_trap 0 tick_frame) v_kern (fun fl k' =>
     k_ticks k' = ticks_after 0 32 (k_ticks v_kern) /\ k_eoi k' = eoi_after 0 32 (k_eoi v_kern) /\
     match fl with
     | Gone => False
     | Away => timer 32 /\ exists p, Some 1%nat = Some p /\ yielded k' v_pend p
     | Back => (timer 32 -> Some 1%nat = None) /\ rdy k' v_pend 0 (Some 1%nat) false /\
         kept (Some 1%nat) (k_sys v_kern) (k_sys k')
     end)) /\
  (~ irq 32 -> take_trap 0 tick_frame v_kern = Panic "trap").
Proof.
  split; [reflexivity|].
  apply (trap_kernel_mode v_vectors (replicate 256 (mkGate 0 0 0 0 0 0 0 0 0)) v_kern v_pend 0 (Some 1%nat) (c_if v_cpu)
    tick_frame 32 8 v_ready); [vm_compute; reflexivity|by repeat split|lia|reflexivity|discriminate].
Defined.

(** What these runs do *)
Example fault_exits : match take_trap 0 fault_frame v_kern with
  Ok Gone k' => (p_state <$> s_procs (k_sys k') !! 1%nat) = Some ZOMBIE | _ => False end.
Proof. vm_compute. reflexivity. Qed.

Example tick_yields : match take_trap 0 tick_frame v_kern with
  Ok Away k' => k_ticks k' = 10 /\ k_eoi k' = [0%nat] | _ => False end.
Proof. vm_compute. split; reflexivity. Qed.

End TrapProps.
