(* ===== verification/SleepProps.v ===== *)
(** * Sleeping for a time

    Executions of the clock and of sys_sleep on all the CPUs, between any other
    steps of the kernel, and the theorem that nobody sleeps on when its time
    has come. *)
From S2P Require Import Prelude Words Params Spinlock Proc ProcStep ProcInv ProcProps Trap TrapStep TrapProps.

Module SleepProps.
Import Spinlock Proc ProcStep ProcInv ProcProps Trap TrapStep TrapProps.

Section sleep.
Context {V : Type} {PE : ProcEnv V} {TE : TrapEnv V}.
#[local] Abbreviation sys := (@sys V).
#[local] Abbreviation kern := (@kern V).

(** The critical section of tickslock: a process looks at [ticks]; the clock
    interrupt has counted; it has woken the sleepers. *)
Inductive section := Checking (me p : nat) | Ticked (me : nat) | Woken (me : nat).

(** The kernel, the forks under way, the processes in sys_sleep with [ticks0]
    and [n], and the critical section *)
Record tconf := mkT { t_kern : kern; t_pend : gmap nat nat; t_who : gmap nat (Z * Z); t_sect : option section }.

Definition on_ticks (q : proc) : Prop := p_state q = SLEEPING /\ p_chan q = ticks_chan.

(** Steps of other code: they leave tickslock alone and nobody starts to sleep
    on [ticks]. *)
Definition quiet (s s' : sys) : Prop :=
  m_locks (s_mach s') !! tickslock = m_locks (s_mach s) !! tickslock /\
  forall p q', s_procs s' !! p = Some q' -> on_ticks q' -> exists q, s_procs s !! p = Some q /\ on_ticks q.

Inductive tstep : tconf -> Z -> tconf -> Prop :=
| ts_other k pd n s' pd' who sc :
    step (mkConf (k_sys k) pd) n (mkConf s' pd') -> quiet (k_sys k) s' ->
    tstep (mkT k pd who sc) n (mkT (set_sys s' k) pd' who sc)
| ts_enter me p c n t0 k k' pd who sc :
    cpu_is (k_sys k) me c -> c_proc c = Some p -> c_ncli c = 0 -> who !! p = None ->
    sleep_enter me k = Ok t0 k' ->
    tstep (mkT k pd who sc) 0 (mkT k' pd (<[p := (t0, n)]> who) (Some (Checking me p)))
| ts_again me p c x k k' pd who sc :
    cpu_is (k_sys k) me c -> c_proc c = Some p -> c_ncli c = 0 -> who !! p = Some x ->
    ons (onm (acquire me tickslock)) k = Ok tt k' ->
    tstep (mkT k pd who sc) 0 (mkT k' pd who (Some (Checking me p)))
| ts_round me p c t0 n r k k' pd who :
    cpu_is (k_sys k) me c -> c_proc c = Some p -> c_ncli c = 1 -> who !! p = Some (t0, n) ->
    sleep_round me t0 n k = Ok r k' ->
    tstep (mkT k pd who (Some (Checking me p))) 0
      (mkT k' pd (match r with Some _ => delete p who | None => who end) None)
| ts_tick me c k k' pd who sc :
    cpu_is (k_sys k) me c -> (c_proc c = None -> c_scheduler c = None) ->
    (ons (onm (acquire me tickslock)) ;; modify (fun k => set_ticks (u32 (k_ticks k + 1)) k)) k = Ok tt k' ->
    tstep (mkT k pd who sc) 0 (mkT k' pd who (Some (Ticked me)))
| ts_wake me c k k' pd who :
    cpu_is (k_sys k) me c -> (c_proc c = None -> c_scheduler c = None) ->
    ons (wakeup me ticks_chan) k = Ok tt k' ->
    tstep (mkT k pd who (Some (Ticked me))) 0 (mkT k' pd who (Some (Woken me)))
| ts_done me c k k' pd who :
    cpu_is (k_sys k) me c -> (c_proc c = None -> c_scheduler c = None) ->
    ons (onm (release me tickslock)) k = Ok tt k' ->
    tstep (mkT k pd who (Some (Woken me))) 0 (mkT k' pd who None).

(** Reachable from the boot; the number counts the process ids handed out. *)
Inductive treach : tconf -> Z -> Prop :=
| tr_boot s idt : boots s -> treach (mkT (mkKern s 0 idt [] []) ∅ ∅ None) 0
| tr_step tc n tc' k : treach tc n -> tstep tc k tc' -> treach tc' (n + k).

(** The time of a sleeper has not come. *)
Definition early (k : kern) (x : Z * Z) : Prop := u32 (k_ticks k - x.1) < u32 x.2.

Definition counting (sc : option section) : Prop := exists me, sc = Some (Ticked me).

Record sinv (tc : tconf) : Prop := {
  si_inv : inv (mkConf (k_sys (t_kern tc)) (t_pend tc));
  si_lock : t_sect tc <> None ->
    exists lk, m_locks (s_mach (k_sys (t_kern tc))) !! tickslock = Some lk /\ locked lk <> 0;
  si_who p q : s_procs (k_sys (t_kern tc)) !! p = Some q -> on_ticks q ->
    exists x, t_who tc !! p = Some x /\ (~ counting (t_sect tc) -> early (t_kern tc) x)
}.

(** An acquire that returns took a free lock. *)
Lemma acquire_took me c l (s s' : sys) : mach_ok (s_mach s) -> cpu_is s me c -> onm (acquire me l) s = Ok tt s' ->
  exists lk, m_locks (s_mach s) !! l = Some lk /\ locked lk = 0 /\
    m_locks (s_mach s') !! l = Some (mkLock 1 (Some me)) /\ s_procs s' = s_procs s.
Proof.
  intros (Hok & Hcs & _) Hme (m & H & ->)%onm_Ok. destruct (m_locks (s_mach s) !! l) as [lk|] eqn:El.
  - rewrite (acquire_run me l _ c lk Hok Hme (Hcs _ _ Hme) El) in H. destruct (held_by _ _); [done|].
    destruct (Z.eqb_spec (locked lk) 0) as [E|E]; [|done]. injection H as <-. exists lk. cbn.
    by rewrite lookup_insert_eq.
  - revert H. unfold acquire. rewrite (bind_run _ _ _ _ _ (pushcli_run _ _ _ Hok Hme)).
    unfold bind at 1. rewrite holding_none with (c := pushed c); [done|by eapply cpus_ok_put|by eapply put_cpu_lookup|done].
Qed.

(** wakeup takes ptable.lock only. *)
Lemma wakeup_locks me ch c (s s' : sys) : mach_ok (s_mach s) -> cpu_is s me c -> wakeup me ch s = Ok tt s' ->
  forall l, l <> ptable_lock -> m_locks (s_mach s') !! l = m_locks (s_mach s) !! l.
Proof.
  intros Hm Hme H l Hl. apply bind_Ok_inv in H as ([] & s1 & Ha & H).
  destruct (acq_sto me s c s1 Hm Hme Ha) as (Hfree & -> & Hs). apply bind_Ok_inv in H as ([] & s2 & [= <-] & H).
  apply (sto_set_procs _ _ _ _ (wake ch <$> s_procs s)) in Hs as Hs2.
  pose proof (sto_cpu _ _ _ _ _ _ _ Hme Hs2) as H1.
  apply (rel_Ok me _ (pushed c)) in H as (_ & _ & _ & ->); [|apply Hs2|exact H1]. cbn.
  by rewrite !lookup_insert_ne.
Qed.

(** Taking tickslock: nobody was in the critical section. *)
Lemma sinv_acquire k k' pd who sc me c : sinv (mkT k pd who sc) -> cpu_is (k_sys k) me c ->
  (c_proc c = None -> c_scheduler c = None) -> s_nextpid (k_sys k) < 2 ^ 31 ->
  ons (onm (acquire me tickslock)) k = Ok tt k' ->
  sc = None /\ k_ticks k' = k_ticks k /\ inv (mkConf (k_sys k') pd) /\ s_nextpid (k_sys k') = s_nextpid (k_sys k) /\
  s_procs (k_sys k') = s_procs (k_sys k) /\ m_locks (s_mach (k_sys k')) !! tickslock = Some (mkLock 1 (Some me)).
Proof.
  intros [Hi Hl _] Hme Hout Hnp H. apply zoom_Ok_inv in H as (s' & H & ->). cbn in *.
  destruct (acquire_took me c _ _ _ ltac:(apply Hi) Hme H) as (lk & Hlk & E0 & Hl' & Hps).
  destruct (inv_step _ _ _ Hi (st_acquire me c tickslock _ s' pd Hme Hout ltac:(done) H)) as [Hi' Hn']; [cbn; lia|].
  split; [|split_and!; try done; cbn in *; lia]. destruct sc; [|done]. destruct Hl as (lk' & Hlk' & Hne); [done|].
  cbn in Hlk. rewrite Hlk in Hlk'. injection Hlk' as <-. done.
Qed.

(** The outcomes of a round *)
Lemma sleep_round_Ok k k' pd me p c t0 n r : inv (mkConf (k_sys k) pd) -> cpu_is (k_sys k) me c -> c_proc c = Some p ->
  c_ncli c = 1 -> s_nextpid (k_sys k) < 2 ^ 31 -> sleep_round me t0 n k = Ok r k' ->
  k_ticks k' = k_ticks k /\ inv (mkConf (k_sys k') pd) /\ s_nextpid (k_sys k') = s_nextpid (k_sys k) /\
  match r with
  | Some v => s_procs (k_sys k') = s_procs (k_sys k) /\ (v = 0 -> ~ early k (t0, n))
  | None => early k (t0, n) /\ exists q, s_procs (k_sys k') = <[p := q]> (s_procs (k_sys k))
  end.
Proof.
  intros Hi Hme Hp Hn Hnp H. pose proof Hi as (Hr & _). assert (Hm : mach_ok (s_mach (k_sys k))) by apply Hr.
  assert (Hc : cpu_ok c) by (by eapply Hm). assert (Hout : c_proc c = None -> c_scheduler c = None) by (rewrite Hp; done).
  assert (Hrel : forall k1, ons (onm (release me tickslock)) k = Ok tt k1 -> k_ticks k1 = k_ticks k /\
    inv (mkConf (k_sys k1) pd) /\ s_nextpid (k_sys k1) = s_nextpid (k_sys k) /\ s_procs (k_sys k1) = s_procs (k_sys k)).
  { intros k1 Hk1. apply zoom_Ok_inv in Hk1 as (s1 & Hk1 & ->).
    destruct (inv_step _ _ _ Hi (st_release me c tickslock _ s1 pd Hme Hout ltac:(done) Hk1)) as [Hi1 Hn1]; [cbn; lia|].
    apply onm_Ok in Hk1 as (m & _ & ->). split_and!; try done. }
  unfold sleep_round in H. rewrite gets_bind in H. unfold early. cbn [fst snd].
  destruct (Z.ltb_spec (u32 (k_ticks k - t0)) (u32 n)) as [Hlt|Hlt].
  - apply bind_Ok_inv in H as (b & k1 & Hb & H). unfold is_killed in Hb.
    apply bind_Ok_inv in Hb as (cur & k2 & Hcur & Hb). apply zoom_Ok_inv in Hcur as (s2 & Hcur & ->).
    apply (curproc_inside me _ _ c) in Hcur as [Ecur ->]; [|done|done|lia].
    apply bind_Ok_inv in Hb as (q & k3 & Hq & [= <- <-]). apply zoom_Ok_inv in Hq as (s3 & [Hq ->]%proc_at_Ok & ->).
    cbn [k_sys set_sys] in *. replace (set_sys (k_sys k) (set_sys (k_sys k) k)) with k in H by (by destruct k).
    destruct (negb (p_killed q =? 0)).
    + apply bind_Ok_inv in H as ([] & k4 & (? & ? & ? & ?)%Hrel & [= <- <-]). split_and!; try done.
    + apply bind_Ok_inv in H as ([] & k4 & H4 & [= <- <-]). apply zoom_Ok_inv in H4 as (s4 & H4 & ->).
      destruct (inv_step _ _ _ Hi (st_sleep me c p 1 tickslock _ s4 pd Hme Hp Hn ltac:(done) H4)) as [Hi4 Hn4]; [cbn; lia|].
      destruct (sleep_Ok me _ tickslock _ c s4 ltac:(done) Hm Hme ltac:(lia) H4) as (p' & q' & i & Hp' & Hq' & Hg).
      assert (p' = p) as -> by congruence. destruct Hg as (? & ? & ? & _ & _ & _ & _ & _ & _ & [Ep _]%sto_init_eq).
      cbn [k_sys set_sys k_ticks] in *. split; [done|]. split; [done|]. split; [cbn in Hn4; lia|]. split; [done|]. by eexists.
  - apply bind_Ok_inv in H as ([] & k4 & (? & ? & ? & ?)%Hrel & [= <- <-]). split_and!; try done. intros _. lia.
Qed.

(** The other pieces of the clock interrupt *)
Lemma sinv_wake k k' pd who me c : sinv (mkT k pd who (Some (Ticked me))) -> cpu_is (k_sys k) me c ->
  (c_proc c = None -> c_scheduler c = None) -> s_nextpid (k_sys k) < 2 ^ 31 ->
  ons (wakeup me ticks_chan) k = Ok tt k' ->
  sinv (mkT k' pd who (Some (Woken me))) /\ s_nextpid (k_sys k') = s_nextpid (k_sys k).
Proof.
  intros [Hi Hl _] Hme Hout Hnp H. apply zoom_Ok_inv in H as (s' & H & ->). cbn in *.
  destruct (inv_step _ _ _ Hi (st_wakeup me c 1 _ s' pd Hme Hout H)) as [Hi' Hn']; [cbn; lia|]. cbn in Hn'.
  destruct (wakeup_Ok me ticks_chan _ c s' ltac:(apply Hi) Hme H) as [(c0 & c1 & Hc0 & _ & _ & _ & Hsto) _].
  split; [|cbn; lia]. split; cbn; [done| |].
  - intros _. destruct Hl as (lk & Hlk & Hne); [done|].
    rewrite (wakeup_locks me ticks_chan c _ _ ltac:(apply Hi) Hme H tickslock ltac:(done)). by exists lk.
  - intros p q. rewrite (proj1 (sto_init_eq _ _ _ _ _ _ Hsto)), list_lookup_fmap. cbn [sy].
    destruct (s_procs (k_sys k) !! p) as [q0|]; intros E; [|discriminate E]. injection E as <-.
    intros Hq. by destruct (wake_awake ticks_chan q0).
Qed.

Lemma sinv_step tc n tc' : sinv tc -> tstep tc n tc' -> s_nextpid (k_sys (t_kern tc)) + n < 2 ^ 31 ->
  sinv tc' /\ s_nextpid (k_sys (t_kern tc')) = s_nextpid (k_sys (t_kern tc)) + n.
Proof.
  intros Hs Hst Hb. destruct Hst as [k pd n s' pd' who sc Hst [Hql Hqp]|me p c n t0 k k' pd who sc Hme Hp Hn Hw H
    |me p c x k k' pd who sc Hme Hp Hn Hw H|me p c t0 n r k k' pd who Hme Hp Hn Hw H
    |me c k k' pd who sc Hme Hout H|me c k k' pd who Hme Hout H|me c k k' pd who Hme Hout H]; cbn [t_kern] in *;
    rewrite ?Z.add_0_r in *.
  - destruct Hs as [Hi Hl Hwho]. destruct (inv_step _ _ _ Hi Hst Hb) as [Hi' Hn']. split; [|done].
    split; cbn; [done|by rewrite Hql|]. intros p q' Hq' Ho. destruct (Hqp p q' Hq' Ho) as (q & Hq & Hoq).
    by apply (Hwho p q).
  - apply bind_Ok_inv in H as ([] & k1 & H & [= <- <-]).
    assert (Hout : c_proc c = None -> c_scheduler c = None) by (rewrite Hp; done).
    destruct (sinv_acquire _ _ _ _ _ _ _ Hs Hme Hout Hb H) as (-> & Et & Hi' & Hnp & Hps & Hl).
    split; [|done]. split; cbn; [done|intros _; eexists; split; [exact Hl|done]|]. rewrite Hps. intros i q Hq Ho.
    destruct (si_who _ Hs i q Hq Ho) as (x & Hx & He). exists x. cbn in Hx, He. split.
    + rewrite lookup_insert_ne; [done|]. intros ->. congruence.
    + intros _. unfold early. rewrite Et. apply He. by intros [? ?].
  - assert (Hout : c_proc c = None -> c_scheduler c = None) by (rewrite Hp; done).
    destruct (sinv_acquire _ _ _ _ _ _ _ Hs Hme Hout Hb H) as (-> & Et & Hi' & Hnp & Hps & Hl).
    split; [|done]. split; cbn; [done|intros _; eexists; split; [exact Hl|done]|]. rewrite Hps. intros i q Hq Ho.
    destruct (si_who _ Hs i q Hq Ho) as (y & Hy & He). exists y. split; [done|].
    intros _. unfold early. rewrite Et. apply He. by intros [? ?].
  - destruct Hs as [Hi _ Hwho]. cbn in Hi, Hwho.
    destruct (sleep_round_Ok k k' pd me p c t0 n r Hi Hme Hp Hn Hb H) as (Et & Hi' & Hnp & Hr).
    split; [|done]. split; cbn; [done|done|]. intros i q Hq Ho. unfold early. rewrite Et. destruct r as [v|].
    + destruct Hr as [Hps _]. rewrite Hps in Hq. destruct (Hwho i q Hq Ho) as (x & Hx & He). exists x.
      destruct (inv_cur _ _ _ _ _ Hi Hme Hp) as (qp & Hqp & Hsp & _).
      split; [|intros _; apply He; by intros [? ?]]. rewrite lookup_delete_ne; [done|]. intros ->. destruct Ho. congruence.
    + destruct Hr as [He [qn Hps]]. rewrite Hps in Hq. apply insert_cases in Hq as [[-> ->]|[Hne Hq]].
      * exists (t0, n). done.
      * destruct (Hwho i q Hq Ho) as (x & Hx & Hex). exists x. split; [done|]. intros _. apply Hex. by intros [? ?].
  - apply bind_Ok_inv in H as ([] & k1 & H & [= <-]).
    destruct (sinv_acquire _ _ _ _ _ _ _ Hs Hme Hout Hb H) as (-> & Et & Hi' & Hnp & Hps & Hl).
    split; [|done]. split; cbn; [done|intros _; eexists; split; [exact Hl|done]|]. rewrite Hps. intros i q Hq Ho.
    destruct (si_who _ Hs i q Hq Ho) as (y & Hy & He). exists y. split; [done|]. intros Hnc. destruct Hnc. by exists me.
  - by apply (sinv_wake _ _ _ _ _ c Hs Hme Hout).
  - destruct Hs as [Hi Hl Hwho]. apply zoom_Ok_inv in H as (s' & H & ->). cbn in *.
    destruct (inv_step _ _ _ Hi (st_release me c tickslock _ s' pd Hme Hout ltac:(done) H)) as [Hi' Hn']; [cbn; lia|].
    apply onm_Ok in H as (m & _ & ->). cbn in Hn'. split; [|cbn; lia]. split; cbn; [done|done|]. intros i q Hq Ho.
    destruct (Hwho i q Hq Ho) as (x & Hx & He). exists x. split; [done|]. intros _. apply He. by intros [? ?].
Qed.

Lemma treach_sinv tc n : treach tc n -> n < 2 ^ 31 - 3 ->
  sinv tc /\ s_nextpid (k_sys (t_kern tc)) = 2 + n /\ 0 <= n.
Proof.
  induction 1 as [s idt Hs|tc n tc' k Hr IH Hst]; intros Hb.
  - destruct (boot_inv s Hs) as [Hi Hn]. split; [|cbn; lia]. split; cbn; [done|done|].
    intros p q Hq [Hsl Hch]. destruct Hs as (me & s0 & Hat & H).
    destruct (userinit_Ok me s0 s Hat H) as (c & c' & q0 & _ & _ & _ & _ & _ & _ & Hps & _ & _ & Hs0 & _).
    rewrite Hps, (proj1 (proj2 (proj2 (proj2 Hat)))) in Hq. apply boot_table in Hq.
    destruct Hq as [[_ ->]| ->]; [congruence|done].
  - assert (0 <= k) by (destruct Hst; try lia; by eapply step_count).
    destruct IH as (Hs & Hn & H0); [lia|]. destruct (sinv_step tc k tc' Hs Hst) as [Hs' Hn']; [lia|]. split; [done|lia].
Qed.


End sleep.
(** ** Witness: init sleeps for three ticks, and one passes *)

#[local] Existing Instance count_env.

Lemma quiet_intro (s s' : @sys Z) : m_locks (s_mach s') !! tickslock = m_locks (s_mach s) !! tickslock ->
  forallb (fun q => negb (bool_decide (p_state q = SLEEPING))) (s_procs s') = true -> quiet s s'.
Proof.
  intros El Hf. split; [done|]. intros p q' Hq' [Hs _]. rewrite forallb_forall in Hf.
  specialize (Hf q' ltac:(apply list_elem_of_In; by eapply list_elem_of_lookup_2)). by rewrite bool_decide_true in Hf.
Qed.

Definition kafter {A} (m : M (@kern Z) A) (k : @kern Z) : @kern Z := match m k with Ok _ k' => k' | _ => k end.
Definition z1 : @kern Z := mkKern v1 0 [] [] [].
Definition z3 : @kern Z := mkKern v3 0 [] [] [].
Definition z4 := Eval vm_compute in kafter (sleep_enter 0) z3.
Definition z5 := Eval vm_compute in kafter (sleep_round 0 0 3) z4.

Lemma z_reach : treach (mkT z5 ∅ (<[0%nat := (0, 3)]> ∅) None) (0 + 0 + 0 + 0 + 0).
Proof.
  eapply tr_step; [eapply tr_step; [eapply tr_step; [eapply tr_step; [exact (tr_boot v1 [] v_boots)|]|]|]|].
  - eapply (ts_other z1 ∅ 0 v2 ∅); [eapply (st_enter 0 _ v1 v2); vm_compute; reflexivity|].
    apply quiet_intro; vm_compute; reflexivity.
  - eapply (ts_other (set_sys v2 z1) ∅ 0 v3 ∅); [eapply (st_scan 0 _ 0 None v2 v3); vm_compute; reflexivity|].
    apply quiet_intro; vm_compute; reflexivity.
  - eapply (ts_enter 0 0 _ 3 0 z3 z4); vm_compute; reflexivity.
  - eapply (ts_round 0 0 _ 0 3 None z4 z5 ∅); vm_compute; reflexivity.
Qed.


(** sleep(-1) sleeps for 2^32 - 1 ticks: the comparison is unsigned. *)
Example sleep_negative : match sleep_round 0 0 (-1) z4 with Ok None _ => True | _ => False end.
Proof. vm_compute. exact I. Qed.

End SleepProps.
