(* ===== verification/Kalloc.v ===== *)
(** * kalloc.c: the physical page allocator

    The free list is the linked list the code threads through the free pages
    themselves: [kmem.freelist] holds the address of the first free page and
    the first word of every free page the address of the next one.  The junk
    fill of [kfree] overwrites the rest of the page, which no reader of this
    component looks at.  [end] is the symbol the linker script defines. *)
From S2P Require Import Prelude Words Params.

Module Kalloc.

Record kmem := mkKmem {
  use_lock : Z;
  freelist : Z;
  run_next : gmap Z Z   (* the struct run stored in each free page *)
}.

Definition set_use_lock (v : Z) (k : kmem) : kmem :=
  mkKmem v (freelist k) (run_next k).

Definition push_run (v : Z) (k : kmem) : kmem :=
  mkKmem (use_lock k) v (<[v := freelist k]> (run_next k)).

Definition pop_run (nxt : Z) (k : kmem) : kmem :=
  mkKmem (use_lock k) nxt (run_next k).

(** mmu.h:PGROUNDUP on a uint *)
Definition PGROUNDUP (sz : Z) : Z :=
  Z.land (u32 (sz + PGSIZE - 1)) (u32 (Z.lnot (PGSIZE - 1))).

(** memlayout.h:V2P *)
Definition V2P {S} (a : Z) : M S Z :=
  if a <? KERNBASE then panic "V2P on address < KERNBASE" else ret (a - KERNBASE).

Section allocator.
Context (end_ : Z).

(** kalloc.c:kfree *)
Definition kfree (v : Z) : M kmem unit :=
  if negb (v mod PGSIZE =? 0) || (v <? end_) then panic "kfree"
  else
    pa <- V2P v ;;
    if pa >=? PHYSTOP then panic "kfree"
    else modify (push_run v).

(** kalloc.c:kalloc (0 is the null pointer) *)
Definition kalloc : M kmem Z :=
  r <- gets freelist ;;
  if r =? 0 then ret 0
  else
    m <- gets run_next ;;
    nxt <- from_option_undef (m !! r) ;;
    modify (pop_run nxt) ;;
    ret r.

(** kalloc.c:freerange: the loop body runs while [p + PGSIZE <= vend]; it
    advances by a page, so [fuel] is the number of pages that fit. *)
Fixpoint freerange_loop (fuel : nat) (p vend : Z) : M kmem unit :=
  if p + PGSIZE <=? vend then
    match fuel with
    | O => undef
    | S fuel' => kfree p ;; freerange_loop fuel' (p + PGSIZE) vend
    end
  else ret tt.

Definition freerange (vstart vend : Z) : M kmem unit :=
  if vend <? vstart then panic "freerange"
  else
    let p := PGROUNDUP vstart in
    freerange_loop (Z.to_nat ((vend - p) / PGSIZE)) p vend.

(** kalloc.c:kinit1 *)
Definition kinit1 (vstart vend : Z) : M kmem unit :=
  modify (set_use_lock 0) ;; freerange vstart vend.

(** kalloc.c:kinit2 *)
Definition kinit2 (vstart vend : Z) : M kmem unit :=
  freerange vstart vend ;; modify (set_use_lock 1).

(** ** The abstract free list *)

(** [chain next h l]: following the [next] words from [h] visits [l]. *)
Fixpoint chain (next : gmap Z Z) (h : Z) (l : list Z) : Prop :=
  match l with
  | [] => h = 0
  | p :: l' => h = p /\ p <> 0 /\ exists n, next !! p = Some n /\ chain next n l'
  end.

Definition free_pages (k : kmem) (l : list Z) : Prop := chain (run_next k) (freelist k) l.

(** What [kfree] accepts: a page-aligned kernel address above the kernel image
    and below the top of physical memory. *)
Definition page_ok (v : Z) : Prop :=
  v mod PGSIZE = 0 /\ end_ <= v /\ KERNBASE <= v < KERNBASE + PHYSTOP.

Lemma chain_insert next h l v n :
  v ∉ l -> chain next h l -> chain (<[v:=n]> next) h l.
Proof.
  revert h. induction l as [|p l IH]; intros h Hv; simpl; [done|].
  apply not_elem_of_cons in Hv as [Hne Hv].
  intros (-> & Hp & m & Hm & Hc). split; [done|]. split; [done|].
  exists m. rewrite lookup_insert_ne by done. eauto.
Qed.

Lemma kfree_run v k :
  page_ok v -> kfree v k = Ok tt (push_run v k).
Proof.
  intros (Hm & He & Hk). unfold kfree.
  rewrite (proj2 (Z.eqb_eq _ _) Hm), (proj2 (Z.ltb_ge _ _) He). simpl.
  unfold V2P, bind. rewrite (proj2 (Z.ltb_ge v KERNBASE)) by lia. simpl.
  destruct (v - KERNBASE >=? PHYSTOP) eqn:E; [|done].
  apply Z.geb_le in E. lia.
Qed.

Lemma kfree_free_pages v k l :
  page_ok v -> v ∉ l -> free_pages k l -> free_pages (push_run v k) (v :: l).
Proof.
  intros Hok Hv Hf. unfold free_pages. simpl. split; [done|].
  split; [unfold page_ok, KERNBASE in Hok; lia|].
  exists (freelist k). rewrite lookup_insert_eq. split; [done|].
  by apply chain_insert.
Qed.

Lemma kalloc_run_empty k : free_pages k [] -> kalloc k = Ok 0 k.
Proof. unfold free_pages. simpl. intros H. unfold kalloc, bind, gets. by rewrite H. Qed.

Lemma kalloc_run k p l :
  free_pages k (p :: l) ->
  exists k', kalloc k = Ok p k' /\ free_pages k' l /\ use_lock k' = use_lock k.
Proof.
  unfold free_pages. simpl. intros (Hh & Hp & n & Hn & Hc).
  exists (pop_run n k). unfold kalloc, bind, gets. rewrite Hh.
  rewrite (proj2 (Z.eqb_neq _ _) Hp), Hn. by split.
Qed.

(** ** The allocator as a state machine

    A state is the allocator and the pages its clients hold.  Clients obey the
    protocol of the comment on [kfree]: they only free pages they hold. *)
Inductive astep : kmem * list Z -> kmem * list Z -> Prop :=
| astep_alloc k u p k' :
    kalloc k = Ok p k' -> p <> 0 -> astep (k, u) (k', p :: u)
| astep_empty k u k' :
    kalloc k = Ok 0 k' -> astep (k, u) (k', u)
| astep_free k u1 p u2 k' :
    kfree p k = Ok tt k' -> astep (k, u1 ++ p :: u2) (k', u1 ++ u2).

Definition ainv (st : kmem * list Z) : Prop :=
  exists l, free_pages st.1 l /\ NoDup (l ++ st.2) /\ Forall page_ok (l ++ st.2).

Lemma kalloc_inv k l r k' :
  free_pages k l -> kalloc k = Ok r k' ->
  (l = [] /\ r = 0 /\ k' = k) \/ (exists l', l = r :: l' /\ r <> 0 /\ free_pages k' l').
Proof.
  intros Hf Hr. destruct l as [|p l].
  - rewrite kalloc_run_empty in Hr by done. left. by injection Hr as <- <-.
  - destruct (kalloc_run k p l Hf) as (k1 & E & Hf' & _). rewrite E in Hr.
    injection Hr as <- <-. right. exists l. split; [done|]. split; [|done].
    by destruct Hf as (_ & ? & _).
Qed.

Lemma astep_inv st st' : ainv st -> astep st st' -> ainv st'.
Proof.
  intros (l & Hf & Hnd & Hok) Hs. destruct Hs as [k u p k' Hr Hp|k u k' Hr|k u1 p u2 k' Hr];
    unfold ainv in *; simpl in *.
  - destruct (kalloc_inv _ _ _ _ Hf Hr) as [(_ & -> & _)|(l' & -> & _ & Hf')]; [done|].
    exists l'. split; [done|].
    assert (Hperm : (p :: l') ++ u ≡ₚ l' ++ p :: u) by (simpl; by rewrite Permutation_middle).
    rewrite <- Hperm. by split.
  - destruct (kalloc_inv _ _ _ _ Hf Hr) as [(-> & _ & ->)|(l' & _ & ? & _)]; [|done].
    by exists [].
  - assert (Hperm : l ++ u1 ++ p :: u2 ≡ₚ (p :: l) ++ u1 ++ u2) by (simpl; solve_Permutation).
    rewrite Hperm in Hnd, Hok. exists (p :: l). split; [|by split].
    assert (page_ok p) as Hpok by (by apply Forall_cons in Hok as [? _]).
    rewrite kfree_run in Hr by done. injection Hr as <-.
    apply kfree_free_pages; [done| |done].
    apply NoDup_cons in Hnd as [Hni _]. intros ?. apply Hni. apply elem_of_app. by left.
Qed.

Lemma reachable_inv st st' : ainv st -> rtc astep st st' -> ainv st'.
Proof. intros Hi. induction 1; eauto using astep_inv. Qed.

(** C8: the allocator never hands out a page twice.  In every state reached by
    any sequence of [kalloc] and [kfree] calls, [kalloc] returns (it neither
    panics nor dereferences a bad free-list link); the result is 0 only when
    no page is free, and otherwise a well-formed page that no client holds. *)
Theorem kalloc_fresh st0 st :
  ainv st0 -> rtc astep st0 st ->
  exists r k', kalloc st.1 = Ok r k' /\
    ((r = 0 /\ free_pages st.1 []) \/ ((r ∉ st.2) /\ page_ok r)).
Proof.
  intros Hi Hreach. destruct (reachable_inv _ _ Hi Hreach) as (l & Hf & Hnd & Hok).
  destruct l as [|p l].
  - exists 0, st.1. rewrite kalloc_run_empty by done. split; [done|]. by left.
  - destruct (kalloc_run _ _ _ Hf) as (k' & E & _). exists p, k'. split; [done|]. right.
    apply NoDup_cons in Hnd as [Hni _]. apply Forall_cons in Hok as [Hp _].
    split; [|done]. intros Hin. apply Hni, elem_of_app. by right.
Qed.

(** ** Initialisation *)

Definition pages (p : Z) (n : nat) : list Z := (fun i => p + Z.of_nat i * PGSIZE) <$> seq 0 n.

Lemma pages_S p n : pages p (S n) = p :: pages (p + PGSIZE) n.
Proof.
  unfold pages. cbn [seq fmap list_fmap]. rewrite Z.mul_0_l, Z.add_0_r. f_equal.
  rewrite <- seq_shift. rewrite <- list_fmap_compose. apply list_fmap_ext.
  intros i x _. simpl. lia.
Qed.

Lemma pages_gt p n q : q ∈ pages p n -> p <= q.
Proof.
  unfold pages. intros (i & -> & _)%list_elem_of_fmap. unfold PGSIZE. lia.
Qed.

Lemma PGROUNDUP_aligned p :
  0 <= p < 2 ^ 32 - PGSIZE -> p mod PGSIZE = 0 -> PGROUNDUP p = p.
Proof.
  intros Hp Hm. unfold PGROUNDUP. rewrite u32_small by (unfold PGSIZE in *; lia).
  change (PGSIZE - 1) with (2 ^ 12 - 1).
  rewrite (land_mask_round _ 12) by (unfold PGSIZE in *; lia).
  change (2 ^ 12) with 4096. unfold PGSIZE in *.
  pose proof (Z.div_mod p 4096 ltac:(lia)).
  rewrite <- (Z.div_unique (p + 4096 - 1) 4096 (p / 4096) 4095); lia.
Qed.

Lemma freerange_loop_run n : forall p vend k l,
  p + Z.of_nat n * PGSIZE <= vend < p + Z.of_nat n * PGSIZE + PGSIZE ->
  Forall page_ok (pages p n) -> (forall q, q ∈ pages p n -> q ∉ l) ->
  free_pages k l ->
  exists k', freerange_loop n p vend k = Ok tt k' /\
    free_pages k' (reverse (pages p n) ++ l) /\ use_lock k' = use_lock k.
Proof.
  induction n as [|n IH]; intros p vend k l Hv Hok Hd Hf; simpl.
  - rewrite (proj2 (Z.leb_gt _ _)) by lia. by exists k.
  - rewrite (proj2 (Z.leb_le _ _)) by (unfold PGSIZE in *; lia).
    rewrite pages_S in Hok, Hd. apply Forall_cons in Hok as [Hp Hok].
    unfold bind. rewrite kfree_run by done.
    edestruct (IH (p + PGSIZE) vend (push_run p k) (p :: l)) as (k' & E & Hf' & Hu);
      [lia|done| | |].
    + intros q Hq. apply not_elem_of_cons. split.
      * apply pages_gt in Hq. unfold PGSIZE in Hq. lia.
      * apply Hd. by constructor.
    + apply kfree_free_pages; [done| |done]. apply Hd. constructor.
    + exists k'. split; [done|]. split; [|done].
      rewrite pages_S, reverse_cons, <- app_assoc. apply Hf'.
Qed.

(** Initialisation.  [kinit1] on a page-aligned range leaves exactly the
    whole pages of the range on the free list, each once. *)
Theorem kinit1_pages p n vend k :
  0 <= p -> p mod PGSIZE = 0 -> p + Z.of_nat n * PGSIZE <= vend < p + Z.of_nat n * PGSIZE + PGSIZE ->
  vend < 2 ^ 32 - PGSIZE -> Forall page_ok (pages p n) -> freelist k = 0 ->
  exists k', kinit1 p vend k = Ok tt k' /\ use_lock k' = 0 /\
    free_pages k' (reverse (pages p n)) /\ ainv (k', []).
Proof.
  intros H0 Hm Hv Hw Hok Hf. unfold kinit1, bind. simpl.
  unfold freerange. rewrite (proj2 (Z.ltb_ge _ _)) by (unfold PGSIZE in *; lia).
  rewrite PGROUNDUP_aligned by (unfold PGSIZE in *; lia).
  replace ((vend - p) / PGSIZE) with (Z.of_nat n)
    by (unfold PGSIZE in *; apply Z.div_unique with (vend - p - Z.of_nat n * 4096); lia).
  rewrite Nat2Z.id.
  destruct (freerange_loop_run n p vend (set_use_lock 0 k) []) as (k' & E & Hf' & Hu);
    [done|done|set_solver|done|].
  exists k'. rewrite app_nil_r in Hf'. split; [done|]. split; [done|]. split; [done|].
  exists (reverse (pages p n)). split; [done|]. simpl.
  rewrite app_nil_r, reverse_Permutation. split; [|done].
  apply NoDup_fmap_2; [|apply NoDup_ListNoDup, seq_NoDup].
  intros i j. unfold PGSIZE. lia.
Qed.

End allocator.

(** ** Witnesses: a kernel that ends at 0x80400000 with two free pages above it *)
Definition w_page : Z := 2151677952.
Definition w_kmem : kmem :=
  mkKmem 0 w_page (<[w_page := w_page + PGSIZE]> (<[w_page + PGSIZE := 0]> ∅)).

Lemma w_page_ok : page_ok w_page w_page /\ page_ok w_page (w_page + PGSIZE).
Proof. unfold page_ok, w_page, PGSIZE, KERNBASE, PHYSTOP. repeat split; lia. Qed.

Lemma w_ainv : ainv w_page (w_kmem, []).
Proof.
  exists [w_page; w_page + PGSIZE]. split.
  - repeat (split; [done|]). exists (w_page + PGSIZE). split; [done|].
    repeat (split; [done|]). by exists 0.
  - destruct w_page_ok. split; [by apply (bool_decide_unpack _)|by repeat constructor].
Qed.

(** After one page has been handed out, the second is fresh. *)
Lemma kalloc_fresh_witness : exists k1, kalloc w_kmem = Ok w_page k1 /\
  exists r k', kalloc k1 = Ok r k' /\
    ((r = 0 /\ free_pages k1 []) \/ ((r ∉ [w_page]) /\ page_ok w_page r)).
Proof.
  eexists. split; [reflexivity|].
  eapply (kalloc_fresh w_page (w_kmem, []) (_, [w_page])); [exact w_ainv|].
  eapply rtc_once, astep_alloc; [reflexivity|done].
Defined.

Lemma kinit1_pages_witness : exists k',
  kinit1 w_page w_page (w_page + 2 * PGSIZE + 100) (mkKmem 1 0 ∅) = Ok tt k' /\
  use_lock k' = 0 /\ free_pages k' [w_page + PGSIZE; w_page] /\ ainv w_page (k', []).
Proof.
  apply (kinit1_pages w_page w_page 2 (w_page + 2 * PGSIZE + 100) (mkKmem 1 0 ∅));
    unfold w_page, PGSIZE; try lia; try reflexivity.
  apply Forall_cons. split; [apply w_page_ok|].
  apply Forall_cons. split; [apply w_page_ok|constructor].
Defined.

End Kalloc.
