(* ===== verification/Pipe.v ===== *)
(** * pipe.c: the bounded byte queue between two file descriptors

    [nread] and [nwrite] are free-running 32-bit counters; the slot of a byte
    is its counter modulo [PIPESIZE].  A process that has to sleep leaves the
    routine with [PW_sleep]/[PR_sleep]; when it is woken it runs the loop again
    with the bytes it still has to write, which is exactly what the [while]
    around [sleep] does.  The spin lock makes each run atomic. *)
From S2P Require Import Prelude Words Params.

Module Pipe.

Definition PIPESIZE : Z := 512.

Record pipe := mkPipe {
  data : list Z;
  nread : Z;      (* number of bytes read *)
  nwrite : Z;     (* number of bytes written *)
  readopen : Z;   (* read fd is still open *)
  writeopen : Z   (* write fd is still open *)
}.

(** The part of pipe.c:pipealloc that initialises the pipe; the page comes
    from kalloc with arbitrary contents, [junk]. *)
Definition pipe_init (junk : list Z) : pipe := mkPipe junk 0 0 1 1.

(** [p->data[p->nwrite++ % PIPESIZE] = b] *)
Definition put_byte (b : Z) (p : pipe) : pipe :=
  mkPipe (zset (data p) (nwrite p mod PIPESIZE) b) (nread p) (u32 (nwrite p + 1))
    (readopen p) (writeopen p).

(** [p->nread++] *)
Definition take_byte (p : pipe) : pipe :=
  mkPipe (data p) (u32 (nread p + 1)) (nwrite p) (readopen p) (writeopen p).

Definition full (p : pipe) : bool := nwrite p =? u32 (nread p + PIPESIZE).
Definition empty (p : pipe) : bool := nread p =? nwrite p.

Inductive pw_result := PW_done | PW_fail | PW_sleep (rest : list Z).
Inductive pr_result := PR_done (bs : list Z) | PR_fail | PR_sleep.

(** pipe.c:pipewrite, from one wakeup to the next; [src] are the bytes still to
    be written and [killed] is [myproc()->killed]. *)
Fixpoint pipewrite (killed : bool) (src : list Z) (p : pipe) : pw_result * pipe :=
  match src with
  | [] => (PW_done, p)
  | b :: rest =>
      if full p then
        if (readopen p =? 0) || killed then (PW_fail, p) else (PW_sleep src, p)
      else pipewrite killed rest (put_byte b p)
  end.

(** pipe.c:piperead's copy loop: at most [n] bytes, until the pipe is empty. *)
Fixpoint piperead_copy (n : nat) (p : pipe) : list Z * pipe :=
  match n with
  | O => ([], p)
  | S n' =>
      if empty p then ([], p)
      else
        let b := nth (Z.to_nat (nread p mod PIPESIZE)) (data p) 0 in
        let '(bs, p') := piperead_copy n' (take_byte p) in (b :: bs, p')
  end.

(** pipe.c:piperead *)
Definition piperead (killed : bool) (n : Z) (p : pipe) : pr_result * pipe :=
  if empty p && negb (writeopen p =? 0) then
    if killed then (PR_fail, p) else (PR_sleep, p)
  else let '(bs, p') := piperead_copy (Z.to_nat n) p in (PR_done bs, p').

(** pipe.c:pipeclose; the boolean says whether the page is freed. *)
Definition pipeclose (writable : bool) (p : pipe) : pipe * bool :=
  let p' :=
    if writable then mkPipe (data p) (nread p) (nwrite p) (readopen p) 0
    else mkPipe (data p) (nread p) (nwrite p) 0 (writeopen p) in
  (p', (readopen p' =? 0) && (writeopen p' =? 0)).

(** ** The abstract queue *)

Definition count (p : pipe) : Z := u32 (nwrite p - nread p).

Definition slot (p : pipe) (i : Z) : Z :=
  nth (Z.to_nat ((nread p + i) mod PIPESIZE)) (data p) 0.

Definition contents (p : pipe) : list Z :=
  (fun i => slot p (Z.of_nat i)) <$> seq 0 (Z.to_nat (count p)).

Definition pipe_wf (p : pipe) : Prop :=
  zlen (data p) = PIPESIZE /\ 0 <= nread p < 2 ^ 32 /\ 0 <= nwrite p < 2 ^ 32 /\
  count p <= PIPESIZE.

Lemma length_contents p : zlen (contents p) = count p.
Proof.
  unfold contents, zlen. rewrite length_fmap, length_seq.
  pose proof (u32_range (nwrite p - nread p)). unfold count. lia.
Qed.

Lemma full_count p : pipe_wf p -> full p = (count p =? PIPESIZE).
Proof.
  intros (_ & Hr & Hw & _). unfold full, count, PIPESIZE in *.
  destruct (Z.eqb_spec (nwrite p) (u32 (nread p + 512)));
    destruct (Z.eqb_spec (u32 (nwrite p - nread p)) 512); try done; exfalso; word_lia.
Qed.

Lemma empty_count p : pipe_wf p -> empty p = (count p =? 0).
Proof.
  intros (_ & Hr & Hw & _). unfold empty, count in *.
  destruct (Z.eqb_spec (nread p) (nwrite p));
    destruct (Z.eqb_spec (u32 (nwrite p - nread p)) 0); try done; exfalso; word_lia.
Qed.

Lemma put_byte_wf b p : pipe_wf p -> full p = false -> pipe_wf (put_byte b p).
Proof.
  intros Hwf. rewrite full_count by done. intros Hf. destruct_bool_hyps.
  destruct Hwf as (Hd & Hr & Hw & Hc). unfold pipe_wf. simpl.
  rewrite zlen_zset. split; [done|]. split; [done|].
  split; [apply u32_range|]. unfold count, PIPESIZE in *. simpl. word_lia.
Qed.

Lemma take_byte_wf p : pipe_wf p -> empty p = false -> pipe_wf (take_byte p).
Proof.
  intros Hwf. rewrite empty_count by done. intros Hf. destruct_bool_hyps.
  destruct Hwf as (Hd & Hr & Hw & Hc). unfold pipe_wf. simpl.
  split; [done|]. split; [apply u32_range|]. split; [done|].
  unfold count, PIPESIZE in *. simpl. word_lia.
Qed.

Lemma put_byte_contents b p :
  pipe_wf p -> full p = false -> contents (put_byte b p) = contents p ++ [b].
Proof.
  intros Hwf. rewrite full_count by done. intros Hf. destruct_bool_hyps.
  destruct Hwf as (Hd & Hr & Hw & Hc).
  assert (Hcnt : count (put_byte b p) = count p + 1)
    by (unfold count, PIPESIZE in *; simpl; word_lia).
  unfold contents. rewrite Hcnt.
  assert (0 <= count p) by apply u32_range.
  replace (Z.to_nat (count p + 1)) with (S (Z.to_nat (count p))) by lia.
  rewrite seq_S, fmap_app. cbn [fmap list_fmap]. rewrite Nat.add_0_l, Z2Nat.id by lia.
  unfold PIPESIZE in *. f_equal.
  - apply list_fmap_ext. intros k i Hi. apply lookup_seq in Hi as [-> Hi].
    unfold slot. simpl. unfold zset. rewrite !nth_lookup, list_lookup_insert_ne; [done|].
    unfold PIPESIZE, count in *. word_lia.
  - f_equal. unfold slot. simpl. unfold zset, zlen in *. rewrite nth_lookup.
    replace ((nread p + count p) mod PIPESIZE) with (nwrite p mod PIPESIZE)
      by (unfold PIPESIZE, count; word_lia).
    rewrite list_lookup_insert_eq; [done|]. unfold PIPESIZE in *. word_lia.
Qed.

Lemma take_byte_contents p :
  pipe_wf p -> empty p = false ->
  contents p = nth (Z.to_nat (nread p mod PIPESIZE)) (data p) 0 :: contents (take_byte p).
Proof.
  intros Hwf. rewrite empty_count by done. intros Hf. destruct_bool_hyps.
  destruct Hwf as (Hd & Hr & Hw & Hc).
  assert (Hcnt : count p = count (take_byte p) + 1)
    by (unfold count, PIPESIZE in *; simpl; word_lia).
  unfold contents. rewrite Hcnt.
  assert (0 <= count (take_byte p)) by apply u32_range.
  replace (Z.to_nat (count (take_byte p) + 1)) with (S (Z.to_nat (count (take_byte p)))) by lia.
  cbn [seq fmap list_fmap]. f_equal.
  - unfold slot. by rewrite Z.add_0_r.
  - rewrite <- seq_shift, <- list_fmap_compose. apply list_fmap_ext. intros k i _.
    unfold slot, compose. simpl. f_equal. f_equal. unfold PIPESIZE. word_lia.
Qed.

(** ** Functional behaviour of the two routines *)

Lemma put_byte_ends b p :
  readopen (put_byte b p) = readopen p /\ writeopen (put_byte b p) = writeopen p.
Proof. done. Qed.

Lemma pipewrite_run killed src : forall p r p',
  pipe_wf p -> pipewrite killed src p = (r, p') ->
  pipe_wf p' /\ readopen p' = readopen p /\ writeopen p' = writeopen p /\
  exists sent rest, src = sent ++ rest /\ contents p' = contents p ++ sent /\
    match r with
    | PW_done => rest = []
    | PW_fail => rest <> [] /\ full p' = true /\ (readopen p = 0 \/ killed = true)
    | PW_sleep l => l = rest /\ rest <> [] /\ full p' = true
    end.
Proof.
  induction src as [|b src IH]; intros p r p' Hwf; simpl.
  - intros [= <- <-]. split; [done|]. split; [done|]. split; [done|].
    exists [], []. split; [done|]. split; [by rewrite app_nil_r|done].
  - destruct (full p) eqn:Hf.
    + destruct ((readopen p =? 0) || killed) eqn:Ho; intros [= <- <-];
        (split; [done|]; split; [done|]; split; [done|];
         exists [], (b :: src); rewrite app_nil_r; split; [done|]; split; [done|]).
      * split; [done|]. split; [done|].
        apply orb_true_iff in Ho as [Ho|Ho]; [left; by apply Z.eqb_eq|by right].
      * done.
    + intros E. apply IH in E as (Hwf' & Hro & Hwo & sent & rest & -> & Hc & Hr);
        [|by apply put_byte_wf].
      split; [done|]. split; [done|]. split; [done|].
      exists (b :: sent), rest. split; [done|]. split; [|done].
      rewrite Hc, put_byte_contents by done. by rewrite <- app_assoc.
Qed.

Lemma pipewrite_nread killed src : forall p r p',
  pipewrite killed src p = (r, p') -> nread p' = nread p.
Proof.
  induction src as [|b src IH]; intros p r p'; simpl; [by intros [= <- <-]|].
  destruct (full p); [destruct ((readopen p =? 0) || killed); by intros [= <- <-]|].
  intros H. apply IH in H. done.
Qed.

Lemma piperead_copy_run n : forall p bs p',
  pipe_wf p -> piperead_copy n p = (bs, p') ->
  pipe_wf p' /\ readopen p' = readopen p /\ writeopen p' = writeopen p /\
  contents p = bs ++ contents p' /\ zlen bs = Z.min (Z.of_nat n) (count p).
Proof.
  induction n as [|n IH]; intros p bs p' Hwf; simpl.
  - intros [= <- <-]. repeat split; try apply Hwf; try done.
    assert (0 <= count p) by apply u32_range. change (0 = Z.min 0 (count p)). lia.
  - destruct (empty p) eqn:He.
    + intros [= <- <-]. repeat split; try apply Hwf; try done.
      rewrite empty_count in He by done. destruct_bool_hyps.
      change (0 = Z.min (Z.of_nat (S n)) (count p)). lia.
    + destruct (piperead_copy n (take_byte p)) as [bs1 p1] eqn:E. intros [= <- <-].
      apply IH in E as (Hwf' & Hro & Hwo & Hc & Hl); [|by apply take_byte_wf].
      repeat split; try apply Hwf'; try done.
      * rewrite take_byte_contents by done. by rewrite Hc.
      * rewrite <- length_contents in *. rewrite (take_byte_contents p) by done.
        unfold zlen in *. simpl. lia.
Qed.

(** ** The pipe under any interleaving of readers and writers

    A state records the pipe, every byte a writer has put into it (as many as
    [nwrite] has advanced) and every byte a reader has received, in order. *)
Record psys := mkPsys { ps_pipe : pipe; ps_in : list Z; ps_out : list Z }.

Inductive pstep : psys -> psys -> Prop :=
| pstep_write killed src p i o r p' :
    pipewrite killed src p = (r, p') ->
    pstep (mkPsys p i o)
      (mkPsys p' (i ++ take (Z.to_nat (u32 (nwrite p' - nwrite p))) src) o)
| pstep_read killed n p i o bs p' :
    piperead killed n p = (PR_done bs, p') ->
    pstep (mkPsys p i o) (mkPsys p' i (o ++ bs))
| pstep_wait killed n p i o r p' :
    piperead killed n p = (r, p') -> r = PR_fail \/ r = PR_sleep ->
    pstep (mkPsys p i o) (mkPsys p' i o)
| pstep_close writable p i o p' freed :
    pipeclose writable p = (p', freed) -> pstep (mkPsys p i o) (mkPsys p' i o).

Definition psys_inv (s : psys) : Prop :=
  pipe_wf (ps_pipe s) /\ ps_in s = ps_out s ++ contents (ps_pipe s).

Lemma piperead_run killed n p r p' :
  pipe_wf p -> piperead killed n p = (r, p') ->
  pipe_wf p' /\
  match r with
  | PR_done bs => contents p = bs ++ contents p' /\
                  zlen bs = Z.min (Z.max 0 n) (count p) /\
                  (count p = 0 -> writeopen p = 0)
  | PR_fail => p' = p /\ contents p = [] /\ writeopen p <> 0 /\ killed = true
  | PR_sleep => p' = p /\ contents p = [] /\ writeopen p <> 0 /\ killed = false
  end.
Proof.
  intros Hwf. unfold piperead. rewrite empty_count by done.
  assert (Hnil : count p = 0 -> contents p = []).
  { intros H0. unfold contents. by rewrite H0. }
  destruct ((count p =? 0) && negb (writeopen p =? 0)) eqn:E.
  - apply andb_true_iff in E as [E1 E2]. destruct_bool_hyps.
    destruct killed; intros [= <- <-]; (split; [done|]); auto.
  - destruct (piperead_copy (Z.to_nat n) p) as [bs p1] eqn:Ec. intros [= <- <-].
    apply piperead_copy_run in Ec as (Hwf' & _ & _ & Hc & Hl); [|done].
    split; [done|]. split; [done|]. split; [lia|]. intros H0.
    apply andb_false_iff in E as [E|E]; destruct_bool_hyps; [lia|done].
Qed.

Lemma pipeclose_contents w p p' f :
  pipe_wf p -> pipeclose w p = (p', f) -> pipe_wf p' /\ contents p' = contents p.
Proof. intros Hwf. unfold pipeclose. destruct w; intros [= <- <-]; by split. Qed.

Lemma pstep_inv s s' : psys_inv s -> pstep s s' -> psys_inv s'.
Proof.
  intros [Hwf Hio] Hs. destruct Hs as
    [killed src p i o r p' Hr|killed n p i o bs p' Hr
    |killed n p i o r p' Hr Hres|w p i o p' f Hr]; unfold psys_inv in *; simpl in *.
  - pose proof (pipewrite_nread _ _ _ _ _ Hr) as Hnr.
    apply pipewrite_run in Hr as (Hwf' & _ & _ & sent & rest & -> & Hc & _); [|done].
    split; [done|].
    assert (Hl : u32 (nwrite p' - nwrite p) = zlen sent).
    { pose proof (length_contents p') as H1. pose proof (length_contents p) as H2.
      rewrite Hc in H1. unfold zlen in *. rewrite length_app in H1.
      destruct Hwf as (_ & ? & ? & ?), Hwf' as (_ & ? & ? & ?).
      unfold count, PIPESIZE in *. rewrite Hnr in *. word_lia. }
    rewrite Hl. unfold zlen. rewrite Nat2Z.id, take_app_length.
    by rewrite Hc, Hio, <- app_assoc.
  - apply piperead_run in Hr as (Hwf' & Hc & _); [|done]. split; [done|].
    by rewrite Hio, Hc, <- app_assoc.
  - apply piperead_run in Hr as (Hwf' & Hres'); [|done].
    destruct Hres as [-> | ->]; destruct Hres' as (-> & _); by split.
  - apply pipeclose_contents in Hr as [Hwf' Hc]; [|done]. split; [done|]. by rewrite Hc.
Qed.

Lemma pipe_init_inv junk :
  zlen junk = PIPESIZE -> psys_inv (mkPsys (pipe_init junk) [] []).
Proof. intros H. split; [|done]. unfold pipe_wf. simpl. unfold count, PIPESIZE. simpl. repeat split; try lia; done. Qed.

(** C9: a pipe is a FIFO byte stream of bounded size.  Whatever the order in
    which writers and readers run, sleep, are killed and close their ends, the
    bytes readers have received followed by the bytes still in the pipe are
    exactly the bytes writers have put in, in order, at most [PIPESIZE] of
    them are in flight, and the 32-bit counters may wrap. *)
Theorem pipe_fifo junk s :
  zlen junk = PIPESIZE -> rtc pstep (mkPsys (pipe_init junk) [] []) s ->
  ps_in s = ps_out s ++ contents (ps_pipe s) /\ zlen (contents (ps_pipe s)) <= PIPESIZE.
Proof.
  intros Hj Hr. assert (Hinv : psys_inv s).
  { apply pipe_init_inv in Hj. induction Hr; eauto using pstep_inv. }
  destruct Hinv as [Hwf Hio]. split; [done|]. rewrite length_contents. apply Hwf.
Qed.

(** [pipewrite] on every branch.  It puts a prefix of the bytes into the
    pipe; it succeeds only with all of them written, fails only on a full pipe
    whose reader is gone or whose writer is killed, and otherwise sleeps on a
    full pipe with exactly the unsent bytes left. *)
Theorem pipewrite_correct killed src p r p' :
  pipe_wf p -> pipewrite killed src p = (r, p') ->
  pipe_wf p' /\
  exists sent rest, src = sent ++ rest /\ contents p' = contents p ++ sent /\
    match r with
    | PW_done => rest = []
    | PW_fail => rest <> [] /\ full p' = true /\ (readopen p = 0 \/ killed = true)
    | PW_sleep l => l = rest /\ rest <> [] /\ full p' = true
    end.
Proof. intros Hwf Hr. apply pipewrite_run in Hr as (? & _ & _ & ?); auto. Qed.

(** ** Witnesses: two bytes written, one read back *)
Definition w_pipe : pipe := pipe_init (replicate 512 0).

Lemma pipe_fifo_witness : exists p,
  let s := mkPsys p [7; 8] [7] in
  ps_in s = ps_out s ++ contents (ps_pipe s) /\ zlen (contents (ps_pipe s)) <= PIPESIZE.
Proof.
  eexists. apply (pipe_fifo (replicate 512 0)); [reflexivity|].
  apply (rtc_l _ _ (mkPsys (pipewrite false [7; 8] w_pipe).2 [7; 8] [])).
  - apply (pstep_write false [7; 8] w_pipe [] [] PW_done). reflexivity.
  - apply rtc_once, (pstep_read false 1 _ [7; 8] [] [7]). reflexivity.
Defined.

Lemma pipewrite_correct_witness : exists p',
  pipe_wf p' /\ exists sent rest, [7; 8] = sent ++ rest /\
    contents p' = contents w_pipe ++ sent /\ rest = [].
Proof.
  eexists. eapply (pipewrite_correct false [7; 8] w_pipe PW_done);
    [by apply pipe_init_inv|reflexivity].
Defined.

End Pipe.
