(* ===== verification/Bio.v ===== *)
(** * bio.c and ide.c: the buffer cache

    The cache is the array [bcache.buf] and the LRU list through it, kept as
    the list of buffer indices from [head.next] (most recently used) to
    [head.prev].  A disk request is carried out at once: [iderw] queues the
    buffer, [idestart] starts the transfer and [ideintr] completes it before
    [iderw] returns.  [disk] is the content of the device and [trace] the
    writes made to it, oldest first, which is what a crash can cut short. *)
From S2P Require Import Prelude Words Params.

(** A disk block's address and the content of the device *)
Definition key : Type := Z * Z.
Definition block : Type := list Z.

Definition zeroes : block := replicate (Z.to_nat BSIZE) 0.

Definition disk_at (d : gmap key block) (k : key) : block := default zeroes (d !! k).

(** buf.h *)
Definition B_VALID : Z := 2.
Definition B_DIRTY : Z := 4.

Record buf := mkBuf {
  b_flags : Z; b_dev : Z; b_blockno : Z;
  b_locked : bool; b_lkpid : Z;
  b_refcnt : Z; b_data : block
}.

Definition b_key (b : buf) : key := (b_dev b, b_blockno b).
Definition has_flag (b : buf) (f : Z) : bool := negb (Z.land (b_flags b) f =? 0).

Definition set_b_flags (v : Z) (b : buf) : buf :=
  mkBuf v (b_dev b) (b_blockno b) (b_locked b) (b_lkpid b) (b_refcnt b) (b_data b).
Definition set_b_lock (l : bool) (pid : Z) (b : buf) : buf :=
  mkBuf (b_flags b) (b_dev b) (b_blockno b) l pid (b_refcnt b) (b_data b).
Definition set_b_refcnt (v : Z) (b : buf) : buf :=
  mkBuf (b_flags b) (b_dev b) (b_blockno b) (b_locked b) (b_lkpid b) v (b_data b).
Definition set_b_data (v : block) (b : buf) : buf :=
  mkBuf (b_flags b) (b_dev b) (b_blockno b) (b_locked b) (b_lkpid b) (b_refcnt b) v.

Record bio := mkBio {
  bufs : list buf;
  lru : list nat;
  disk : gmap key block;
  trace : list (key * block)
}.

Definition set_bufs (v : list buf) (s : bio) : bio := mkBio v (lru s) (disk s) (trace s).
Definition set_lru (v : list nat) (s : bio) : bio := mkBio (bufs s) v (disk s) (trace s).
Definition set_disk (v : gmap key block) (t : list (key * block)) (s : bio) : bio :=
  mkBio (bufs s) (lru s) v t.

Module Bio.

Section bio.
(** The pid of the running process and ide.c's [havedisk1]. *)
Context (pid : Z) (havedisk1 : bool).

#[local] Abbreviation D := (M bio).

Definition buf_at (i : nat) : D buf := l <- gets bufs ;; from_option_undef (l !! i).

Definition upd_buf (i : nat) (f : buf -> buf) : D unit :=
  b <- buf_at i ;; modify (fun s => set_bufs (<[i := f b]> (bufs s)) s).

(** bio.c:binit: the buffers are inserted at the head one after the other. *)
Definition binit : D unit :=
  modify (fun s => set_bufs (set_b_lock false 0 <$> bufs s)
                     (set_lru (reverse (seq 0 (length (bufs s)))) s)).

(** sleeplock.c on a buffer's lock *)
Definition acquiresleep (i : nat) : D unit :=
  b <- buf_at i ;;
  if b_locked b then sleep_forever else upd_buf i (set_b_lock true pid).

Definition releasesleep (i : nat) : D unit := upd_buf i (set_b_lock false 0).

Definition holdingsleep (i : nat) : D bool :=
  b <- buf_at i ;; ret (b_locked b && (b_lkpid b =? pid)).

(** The two scans of bget *)
Fixpoint find_cached (l : list nat) (dev blockno : Z) : D (option nat) :=
  match l with
  | [] => ret None
  | i :: l' =>
      b <- buf_at i ;;
      if (b_dev b =? dev) && (b_blockno b =? blockno) then ret (Some i)
      else find_cached l' dev blockno
  end.

Fixpoint find_unused (l : list nat) : D (option nat) :=
  match l with
  | [] => ret None
  | i :: l' =>
      b <- buf_at i ;;
      if (b_refcnt b =? 0) && negb (has_flag b B_DIRTY) then ret (Some i)
      else find_unused l'
  end.

(** bio.c:bget *)
Definition bget (dev blockno : Z) : D nat :=
  l <- gets lru ;;
  o <- find_cached l dev blockno ;;
  match o with
  | Some i =>
      upd_buf i (fun b => set_b_refcnt (b_refcnt b + 1) b) ;;
      acquiresleep i ;;
      ret i
  | None =>
      o <- find_unused (reverse l) ;;
      match o with
      | Some i =>
          upd_buf i (fun b => mkBuf 0 dev blockno (b_locked b) (b_lkpid b) 1 (b_data b)) ;;
          acquiresleep i ;;
          ret i
      | None => panic "bget: no buffers"
      end
  end.

(** ide.c:idestart and ideintr for the only request in the queue: a dirty
    buffer is written, another one is read. *)
Definition idestart_check (b : buf) : D unit :=
  if b_blockno b >=? FSSIZE then panic "incorrect blockno" else ret tt.

Definition ideintr (i : nat) : D unit :=
  b <- buf_at i ;;
  (if has_flag b B_DIRTY then
     modify (fun s => set_disk (<[b_key b := b_data b]> (disk s)) (trace s ++ [(b_key b, b_data b)]) s)
   else
     d <- gets disk ;; upd_buf i (set_b_data (disk_at d (b_key b)))) ;;
  upd_buf i (fun b => set_b_flags (Z.land (Z.lor (b_flags b) B_VALID) (Z.lnot B_DIRTY)) b).

(** ide.c:iderw *)
Definition iderw (i : nat) : D unit :=
  h <- holdingsleep i ;;
  b <- buf_at i ;;
  if negb h then panic "iderw: buf not locked"
  else if Z.land (b_flags b) (Z.lor B_VALID B_DIRTY) =? B_VALID then panic "iderw: nothing to do"
  else if negb (b_dev b =? 0) && negb havedisk1 then panic "iderw: ide disk 1 not present"
  else idestart_check b ;; ideintr i.

(** bio.c:bread *)
Definition bread (dev blockno : Z) : D nat :=
  i <- bget dev blockno ;;
  b <- buf_at i ;;
  whenM (negb (has_flag b B_VALID)) (iderw i) ;;
  ret i.

(** bio.c:bwrite *)
Definition bwrite (i : nat) : D unit :=
  h <- holdingsleep i ;;
  if negb h then panic "bwrite"
  else
    upd_buf i (fun b => set_b_flags (Z.lor (b_flags b) B_DIRTY) b) ;;
    iderw i.

(** bio.c:brelse: unlock, and move to the head of the list when unused. *)
Definition brelse (i : nat) : D unit :=
  h <- holdingsleep i ;;
  if negb h then panic "brelse"
  else
    releasesleep i ;;
    upd_buf i (fun b => set_b_refcnt (u32 (b_refcnt b - 1)) b) ;;
    b <- buf_at i ;;
    whenM (b_refcnt b =? 0)
      (modify (fun s => set_lru (i :: filter (fun j => j <> i) (lru s)) s)).

End bio.
End Bio.
