(* ===== verification/Buf.v ===== *)
(** * The interface of the buffer cache

    [BufOps] are the operations log.c uses; a buffer pointer is a handle.
    [BufLaws] states what they promise to one process, on an abstract view:
    the content of every block as the cache shows it, the content of the disk,
    the writes made to the disk so far, the buffers held (locked) and the
    blocks pinned in the cache by [B_DIRTY].  The log is verified against these
    laws; bio.c discharges them. *)
From stdpp Require Import functions.
From S2P Require Import Prelude Words Params Bio.

(** The device the file system lives on *)
Definition fsdev : Z := 1.

Class BufOps (S : Type) := {
  op_bread : Z -> Z -> M S nat;
  op_data : nat -> M S block;            (* b->data *)
  op_set : nat -> block -> M S unit;     (* memmove(b->data, d, BSIZE) *)
  op_blockno : nat -> M S Z;             (* b->blockno *)
  op_dirty : nat -> M S unit;            (* b->flags |= B_DIRTY *)
  op_bwrite : nat -> M S unit;
  op_brelse : nat -> M S unit
}.

Record bview := mkView {
  v_mem : key -> block;
  v_disk : key -> block;
  v_trace : list (key * block);
  v_held : gmap nat key;
  v_dirty : gset key
}.

Definition pinned (v : bview) : gset key := v_dirty v ∪ map_img (v_held v).

(** The effect of each operation on the view *)
Definition hold (h : nat) (k : key) (v : bview) : bview :=
  mkView (v_mem v) (v_disk v) (v_trace v) (<[h := k]> (v_held v)) (v_dirty v).
Definition unhold (h : nat) (v : bview) : bview :=
  mkView (v_mem v) (v_disk v) (v_trace v) (delete h (v_held v)) (v_dirty v).
Definition store_mem (k : key) (d : block) (v : bview) : bview :=
  mkView (<[k := d]> (v_mem v)) (v_disk v) (v_trace v) (v_held v) (v_dirty v).
Definition pin (k : key) (v : bview) : bview :=
  mkView (v_mem v) (v_disk v) (v_trace v) (v_held v) ({[k]} ∪ v_dirty v).
Definition flush (k : key) (v : bview) : bview :=
  mkView (v_mem v) (<[k := v_mem v k]> (v_disk v)) (v_trace v ++ [(k, v_mem v k)]) (v_held v)
    (v_dirty v ∖ {[k]}).

Class BufLaws (S : Type) `{BufOps S} := {
  bl_rep : S -> bview -> Prop;
  law_bread s v b : bl_rep s v -> 0 <= b < FSSIZE ->
    (forall h, v_held v !! h <> Some (fsdev, b)) ->
    (fsdev, b) ∈ v_dirty v \/ Z.of_nat (size (pinned v)) < NBUF ->
    exists h s', op_bread fsdev b s = Ok h s' /\ v_held v !! h = None /\
      bl_rep s' (hold h (fsdev, b) v);
  law_data s v h k : bl_rep s v -> v_held v !! h = Some k -> op_data h s = Ok (v_mem v k) s;
  law_set s v h k d : bl_rep s v -> v_held v !! h = Some k ->
    exists s', op_set h d s = Ok tt s' /\ bl_rep s' (store_mem k d v);
  law_blockno s v h k : bl_rep s v -> v_held v !! h = Some k -> op_blockno h s = Ok k.2 s;
  law_dirty s v h k : bl_rep s v -> v_held v !! h = Some k ->
    exists s', op_dirty h s = Ok tt s' /\ bl_rep s' (pin k v);
  law_bwrite s v h k : bl_rep s v -> v_held v !! h = Some k ->
    exists s', op_bwrite h s = Ok tt s' /\ bl_rep s' (flush k v);
  law_brelse s v h k : bl_rep s v -> v_held v !! h = Some k ->
    k ∈ v_dirty v \/ v_mem v k = v_disk v k ->
    exists s', op_brelse h s = Ok tt s' /\ bl_rep s' (unhold h v)
}.
