(* ===== verification/Ide.v ===== *)
(** * ide.c: the disk driver with its queue of requests

    Bio has iderw as one step.  Here many processes call it: a request is put at
    the end of the queue, the drive works on the first one, and each interrupt
    finishes that and starts the next.  The drive is its registers, the command
    it works on and the sectors; [complete] is what it does between a command
    and its interrupt. *)
From S2P Require Import Prelude Words Params Bio.

Module Ide.

Definition SECTOR_SIZE : Z := 512.
Definition IDE_BSY : Z := 128.
Definition IDE_DRDY : Z := 64.
Definition IDE_DF : Z := 32.
Definition IDE_ERR : Z := 1.
Definition IDE_CMD_READ : Z := 32.
Definition IDE_CMD_WRITE : Z := 48.
Definition IDE_CMD_RDMUL : Z := 196.
Definition IDE_CMD_WRMUL : Z := 197.

(** ** State *)

(** The fields of struct buf that ide.c uses; [q_owner] is the process that has
    the sleep lock, [q_next] is [qnext]. *)
Record ibuf := mkIbuf { q_flags : Z; q_dev : Z; q_blockno : Z; q_owner : option Z; q_next : option nat; q_data : block }.

Definition set_q_flags (v : Z) (b : ibuf) : ibuf := mkIbuf v (q_dev b) (q_blockno b) (q_owner b) (q_next b) (q_data b).
Definition set_q_next (v : option nat) (b : ibuf) : ibuf := mkIbuf (q_flags b) (q_dev b) (q_blockno b) (q_owner b) v (q_data b).
Definition set_q_data (v : block) (b : ibuf) : ibuf := mkIbuf (q_flags b) (q_dev b) (q_blockno b) (q_owner b) (q_next b) v.

(** The drive: the registers by port, the command in progress, the data written
    to it and the data to be read from it, what the next reads of the status
    register return ([IDE_DRDY] after these), and the sectors *)
Record drive := mkDrive { d_regs : gmap Z Z; d_cmd : option Z; d_out : block; d_in : block; d_status : list Z; d_disk : gmap key block }.

(** [i_thr] are the processes in the wait loop of iderw: whether they are asleep,
    and the buffer. *)
Record ide := mkIde { i_bufs : list ibuf; i_queue : option nat; i_disk1 : bool; i_drv : drive; i_thr : gmap Z (bool * nat) }.

Definition set_bufs (v : list ibuf) (s : ide) : ide := mkIde v (i_queue s) (i_disk1 s) (i_drv s) (i_thr s).
Definition set_queue (v : option nat) (s : ide) : ide := mkIde (i_bufs s) v (i_disk1 s) (i_drv s) (i_thr s).
Definition set_disk1 (v : bool) (s : ide) : ide := mkIde (i_bufs s) (i_queue s) v (i_drv s) (i_thr s).
Definition set_drv (v : drive) (s : ide) : ide := mkIde (i_bufs s) (i_queue s) (i_disk1 s) v (i_thr s).
Definition set_thr (v : gmap Z (bool * nat)) (s : ide) : ide := mkIde (i_bufs s) (i_queue s) (i_disk1 s) (i_drv s) v.

(** ** The drive *)

Definition reg (d : drive) (port : Z) : Z := default 0 (d_regs d !! port).

(** The drive and the sector the registers select *)
Definition target (d : drive) : key :=
  (Z.land (Z.shiftr (reg d 502) 4) 1,
   Z.lor (reg d 499) (Z.lor (Z.shiftl (reg d 500) 8) (Z.lor (Z.shiftl (reg d 501) 16) (Z.shiftl (Z.land (reg d 502) 15) 24)))).

(** A register takes a byte.  A command is written to port 0x1f7; what happens
    when the drive is at work is not defined. *)
Definition outb (port v : Z) : M ide unit :=
  d <- gets i_drv ;;
  if port =? 503 then
    match d_cmd d with
    | Some _ => undef
    | None => modify (set_drv (mkDrive (d_regs d) (Some (u8 v)) (d_out d) (d_in d) (d_status d) (d_disk d)))
    end
  else modify (set_drv (mkDrive (<[port := u8 v]> (d_regs d)) (d_cmd d) (d_out d) (d_in d) (d_status d) (d_disk d))).

(** Reading the status register *)
Definition inb_status : M ide Z :=
  d <- gets i_drv ;;
  modify (set_drv (mkDrive (d_regs d) (d_cmd d) (d_out d) (d_in d) (tail (d_status d)) (d_disk d))) ;;
  ret (default IDE_DRDY (head (d_status d))).

Definition outsl (bs : block) : M ide unit :=
  d <- gets i_drv ;; modify (set_drv (mkDrive (d_regs d) (d_cmd d) bs (d_in d) (d_status d) (d_disk d))).

Definition insl : M ide block := gets (fun s => d_in (i_drv s)).

(** The drive carries out its command. *)
Definition complete (d : drive) : drive :=
  match d_cmd d with
  | None => d
  | Some c =>
      if c =? IDE_CMD_WRITE then mkDrive (d_regs d) None (d_out d) (d_in d) (d_status d) (<[target d := d_out d]> (d_disk d))
      else mkDrive (d_regs d) None (d_out d) (disk_at (d_disk d) (target d)) (d_status d) (d_disk d)
  end.

(** ** ide.c *)

(** The loop of idewait; after the listed values the drive is ready. *)
Fixpoint idewait_loop (fuel : nat) : M ide Z :=
  r <- inb_status ;;
  if Z.land r (Z.lor IDE_BSY IDE_DRDY) =? IDE_DRDY then ret r
  else match fuel with O => undef | S fuel' => idewait_loop fuel' end.

Definition idewait (checkerr : bool) : M ide Z :=
  fuel <- gets (fun s => length (d_status (i_drv s))) ;;
  r <- idewait_loop fuel ;;
  if checkerr && negb (Z.land r (Z.lor IDE_DF IDE_ERR) =? 0) then ret (-1) else ret 0.

(** The loop of ideinit that looks for disk 1 *)
Fixpoint probe_loop (n : nat) : M ide unit :=
  match n with
  | O => ret tt
  | S n' => r <- inb_status ;; if negb (r =? 0) then modify (set_disk1 true) else probe_loop n'
  end.

Definition ideinit : M ide unit :=
  idewait false ;;
  outb 502 (Z.lor 224 (Z.shiftl 1 4)) ;;
  probe_loop 1000 ;;
  outb 502 (Z.lor 224 (Z.shiftl 0 4)).

Definition buf_at (i : nat) : M ide ibuf := l <- gets i_bufs ;; from_option_undef (l !! i).
Definition upd_buf (i : nat) (f : ibuf -> ibuf) : M ide unit := modify (fun s => set_bufs (alter f i (i_bufs s)) s).

Definition has (b : ibuf) (f : Z) : bool := negb (Z.land (q_flags b) f =? 0).

Definition idestart (ob : option nat) : M ide unit :=
  match ob with
  | None => panic "idestart"
  | Some i =>
      b <- buf_at i ;;
      if q_blockno b >=? FSSIZE then panic "incorrect blockno"
      else
        let sector_per_block := BSIZE / SECTOR_SIZE in
        let sector := s32 (u32 (q_blockno b * sector_per_block)) in
        let read_cmd := if sector_per_block =? 1 then IDE_CMD_READ else IDE_CMD_RDMUL in
        let write_cmd := if sector_per_block =? 1 then IDE_CMD_WRITE else IDE_CMD_WRMUL in
        if sector_per_block >? 7 then panic "idestart"
        else
          idewait false ;;
          outb 1014 0 ;;
          outb 498 sector_per_block ;;
          outb 499 (Z.land sector 255) ;;
          outb 500 (Z.land (Z.shiftr sector 8) 255) ;;
          outb 501 (Z.land (Z.shiftr sector 16) 255) ;;
          outb 502 (Z.lor (Z.lor 224 (Z.shiftl (Z.land (q_dev b) 1) 4)) (Z.land (Z.shiftr sector 24) 15)) ;;
          if has b B_DIRTY then outb 503 write_cmd ;; outsl (q_data b)
          else outb 503 read_cmd
  end.

(** wakeup on the buffer *)
Definition wakeup (i : nat) : M ide unit :=
  modify (fun s => set_thr ((fun w : bool * nat => if decide (w.2 = i) then (false, i) else w) <$> i_thr s) s).

Definition ideintr : M ide unit :=
  ob <- gets i_queue ;;
  match ob with
  | None => ret tt
  | Some i =>
      b <- buf_at i ;;
      modify (set_queue (q_next b)) ;;
      (if negb (has b B_DIRTY) then
         r <- idewait true ;;
         if r >=? 0 then d <- insl ;; upd_buf i (set_q_data d) else ret tt
       else ret tt) ;;
      upd_buf i (fun b => set_q_flags (Z.lor (q_flags b) B_VALID) b) ;;
      upd_buf i (fun b => set_q_flags (Z.land (q_flags b) (Z.lnot B_DIRTY)) b) ;;
      wakeup i ;;
      q <- gets i_queue ;;
      match q with None => ret tt | Some _ => idestart q end
  end.

(** The loop of iderw to the end of the queue: [pp] is [idequeue] for [None] and
    the field [qnext] of a buffer otherwise. *)
Fixpoint last_loop (fuel : nat) (pp : option nat) : M ide (option nat) :=
  nx <- (match pp with None => gets i_queue | Some i => b <- buf_at i ;; ret (q_next b) end) ;;
  match nx with
  | None => ret pp
  | Some j => match fuel with O => undef | S fuel' => last_loop fuel' (Some j) end
  end.

Definition append (i : nat) : M ide unit :=
  upd_buf i (set_q_next None) ;;
  fuel <- gets (fun s => length (i_bufs s)) ;;
  pp <- last_loop fuel None ;;
  match pp with
  | None => modify (set_queue (Some i))
  | Some j => upd_buf j (set_q_next (Some i))
  end.

(** The wait loop of iderw, up to the next sleep or to the return *)
Definition iderw_wait (pid : Z) (i : nat) : M ide unit :=
  b <- buf_at i ;;
  if Z.land (q_flags b) (Z.lor B_VALID B_DIRTY) =? B_VALID then modify (fun s => set_thr (delete pid (i_thr s)) s)
  else modify (fun s => set_thr (<[pid := (true, i)]> (i_thr s)) s).

Definition iderw (pid : Z) (i : nat) : M ide unit :=
  b <- buf_at i ;;
  if negb (bool_decide (q_owner b = Some pid)) then panic "iderw: buf not locked"
  else if Z.land (q_flags b) (Z.lor B_VALID B_DIRTY) =? B_VALID then panic "iderw: nothing to do"
  else
    d1 <- gets i_disk1 ;;
    if negb (q_dev b =? 0) && negb d1 then panic "iderw: ide disk 1 not present"
    else
      append i ;;
      q <- gets i_queue ;;
      (if bool_decide (q = Some i) then idestart (Some i) else ret tt) ;;
      iderw_wait pid i.

(** An interrupt: the drive has finished. *)
Definition interrupt : M ide unit := modify (fun s => set_drv (complete (i_drv s)) s) ;; ideintr.

End Ide.
