(* ===== verification/IdeProps.v ===== *)
(** * The disk driver serves its queue in order

    [irep s q]: the queue of the driver is [q], the drive works on its first
    request, and a process that sleeps in iderw has its request in the queue. *)
From S2P Require Import Prelude Words Params Bio Ide.

Module IdeProps.
Import Ide.

Set Default Proof Using "Type".

(** ** What the driver promises *)

Definition finished (b : ibuf) : Prop := Z.land (q_flags b) (Z.lor B_VALID B_DIRTY) = B_VALID.
Definition block_ok (b : ibuf) : Prop := 0 <= q_blockno b < FSSIZE.
Definition dkey (b : ibuf) : key := (Z.land (q_dev b) 1, q_blockno b).

(** One request on the disk and the buffers *)
Definition serve (x : gmap key block * list ibuf) (i : nat) : gmap key block * list ibuf :=
  match x.2 !! i with
  | None => x
  | Some b =>
      let fl := Z.land (Z.lor (q_flags b) B_VALID) (Z.lnot B_DIRTY) in
      if has b B_DIRTY then (<[dkey b := q_data b]> x.1, <[i := set_q_flags fl b]> x.2)
      else (x.1, <[i := set_q_flags fl (set_q_data (disk_at x.1 (dkey b)) b)]> x.2)
  end.

(** ** The invariant *)

Fixpoint qchain (bufs : list ibuf) (q : list nat) : Prop :=
  match q with
  | [] => True
  | i :: q' => (exists b, bufs !! i = Some b /\ q_next b = head q') /\ qchain bufs q'
  end.

(** The drive works on the request of [b]. *)
Definition working (b : ibuf) (d : drive) : Prop :=
  d_cmd d = Some (if has b B_DIRTY then IDE_CMD_WRITE else IDE_CMD_READ) /\ target d = dkey b /\ (has b B_DIRTY = true -> d_out d = q_data b).

(** The drive reports no error. *)
Definition healthy (st : list Z) : Prop := Forall (fun r => Z.land r (Z.lor IDE_DF IDE_ERR) = 0) st.

Record irep (s : ide) (q : list nat) : Prop := mkIrep {
  v_head : i_queue s = head q;
  v_chain : qchain (i_bufs s) q;
  v_nodup : NoDup q;
  v_pending : forall i b, i ∈ q -> i_bufs s !! i = Some b -> ~ finished b /\ block_ok b;
  v_drive : match q with [] => d_cmd (i_drv s) = None | i :: _ => exists b, i_bufs s !! i = Some b /\ working b (i_drv s) end;
  v_waited : forall i, i ∈ q -> exists t a, i_thr s !! t = Some (a, i);
  v_thr : forall t a i, i_thr s !! t = Some (a, i) -> exists b, i_bufs s !! i = Some b /\ q_owner b = Some t /\ (i ∈ q \/ a = false /\ finished b);
  v_healthy : healthy (d_status (i_drv s))
}.

(** ** Registers *)

(** The registers select the sector of every block. *)
Definition lba_ok (sector dev : Z) : bool :=
  bool_decide (Z.land (Z.shiftr (u8 (Z.lor (Z.lor 224 (Z.shiftl dev 4)) (Z.land (Z.shiftr sector 24) 15))) 4) 1 = dev) &&
  bool_decide (Z.lor (u8 (Z.land sector 255)) (Z.lor (Z.shiftl (u8 (Z.land (Z.shiftr sector 8) 255)) 8)
    (Z.lor (Z.shiftl (u8 (Z.land (Z.shiftr sector 16) 255)) 16)
      (Z.shiftl (Z.land (u8 (Z.lor (Z.lor 224 (Z.shiftl dev 4)) (Z.land (Z.shiftr sector 24) 15))) 15) 24))) = sector).

Lemma lba_all : forallb (fun k => lba_ok k 0 && lba_ok k 1) (seqZ 0 FSSIZE) = true.
Proof. by vm_compute. Qed.

Lemma lba_spec sector dev : 0 <= sector < FSSIZE -> dev = 0 \/ dev = 1 -> lba_ok sector dev = true.
Proof.
  intros Hs Hd. pose proof lba_all as H. rewrite forallb_forall in H.
  specialize (H sector). rewrite <- list_elem_of_In, elem_of_seqZ in H. specialize (H ltac:(lia)). apply andb_true_iff in H as [H0 H1]. by destruct Hd as [->| ->].
Qed.

Lemma land_1 x : Z.land x 1 = 0 \/ Z.land x 1 = 1.
Proof. pose proof (Z.land_ones x 1 ltac:(done)) as E. change (Z.ones 1) with 1 in E. change (2 ^ 1) with 2 in E. pose proof (Z.mod_pos_bound x 2 ltac:(done)). lia. Qed.

(** ** Runs of the routines *)

Definition set_status (st : list Z) (d : drive) : drive := mkDrive (d_regs d) (d_cmd d) (d_out d) (d_in d) st (d_disk d).

Lemma idewait_loop_run fuel : forall s, (length (d_status (i_drv s)) <= fuel)%nat -> healthy (d_status (i_drv s)) ->
  exists r st, idewait_loop fuel s = Ok r (set_drv (set_status st (i_drv s)) s) /\ healthy st /\ Z.land r (Z.lor IDE_DF IDE_ERR) = 0.
Proof.
  induction fuel as [|fuel IH]; intros s Hl Hh; cbn [idewait_loop]; unfold bind, inb_status, gets, modify, ret; cbn.
  - destruct (d_status (i_drv s)); [|cbn in Hl; lia]. cbn. by exists IDE_DRDY, [].
  - destruct (d_status (i_drv s)) as [|r st] eqn:E; cbn; [by exists IDE_DRDY, []|]. apply Forall_cons in Hh as [Hr Hh].
    destruct (_ =? IDE_DRDY); [by exists r, st|]. destruct (IH (set_drv (set_status st (i_drv s)) s)) as (r' & st' & E' & H1 & H2); [cbn in *; lia|done|].
    exists r', st'. split; [exact E'|done].
Qed.

Lemma idewait_run c s : healthy (d_status (i_drv s)) ->
  exists st, idewait c s = Ok 0 (set_drv (set_status st (i_drv s)) s) /\ healthy st.
Proof.
  intros Hh. unfold idewait. rewrite gets_bind. destruct (idewait_loop_run (length (d_status (i_drv s))) s ltac:(lia) Hh) as (r & st & E & H1 & H2).
  rewrite (bind_run _ _ _ _ _ E), H2. exists st. split; [by rewrite andb_false_r|done].
Qed.

Lemma idestart_run s i b : i_bufs s !! i = Some b -> block_ok b -> d_cmd (i_drv s) = None -> healthy (d_status (i_drv s)) ->
  exists d, idestart (Some i) s = Ok tt (set_drv d s) /\ working b d /\ d_disk d = d_disk (i_drv s) /\ healthy (d_status d).
Proof.
  intros Hb Hok Hc Hh. unfold idestart, buf_at. rewrite bind_assoc, gets_bind, Hb. cbn [from_option_undef]. rewrite bind_ret_l.
  destruct Hok as [H0 H1]. destruct (Z.geb_spec (q_blockno b) FSSIZE); [lia|]. cbn zeta. change (BSIZE / SECTOR_SIZE) with 1. rewrite Z.mul_1_r. change (1 >? 7) with false. change (1 =? 1) with true. cbv iota.
  rewrite (u32_small (q_blockno b)), (s32_id (q_blockno b)) by (unfold FSSIZE in *; lia). destruct (idewait_run false s Hh) as (st & E & Hst). rewrite (bind_run _ _ _ _ _ E).
  pose proof (lba_spec (q_blockno b) (Z.land (q_dev b) 1) ltac:(lia) (land_1 _)) as Hl. unfold lba_ok in Hl. apply andb_true_iff in Hl as [Hl1 Hl2]. apply bool_decide_eq_true in Hl1, Hl2.
  set (r6 := Z.lor (Z.lor 224 _) _) in *. cbn. unfold bind, outb, gets, modify, outsl, bind. cbn. unfold ret. rewrite Hc.
  destruct (has b B_DIRTY) eqn:Hd; eexists; (split; [reflexivity|]); (split; [split; [by cbn; rewrite Hd|split; [|intros ?; first [reflexivity|congruence]]]|split; [reflexivity|exact Hst]]);
    unfold target, reg, dkey; cbn; simpl_map; cbn; by rewrite Hl1, Hl2.
Qed.

(** ** Lists of buffers *)

Lemma alter_at {A} (f : A -> A) (i : nat) (l : list A) b : l !! i = Some b -> alter f i l = <[i := f b]> l.
Proof.
  intros H. apply list_eq. intros j. destruct (decide (i = j)) as [<-|Hne].
  - rewrite list_lookup_alter_eq, list_lookup_insert_eq, H by (by eapply lookup_lt_Some). done.
  - by rewrite list_lookup_alter_ne, list_lookup_insert_ne.
Qed.

Lemma alter_insert {A} (f : A -> A) (i : nat) (l : list A) b : (i < length l)%nat -> alter f i (<[i := b]> l) = <[i := f b]> l.
Proof. intros H. rewrite (alter_at f i _ b) by (by rewrite list_lookup_insert_eq). by rewrite list_insert_insert_eq. Qed.

Lemma qchain_insert bufs q i b : i ∉ q -> qchain (<[i := b]> bufs) q <-> qchain bufs q.
Proof.
  induction q as [|j q IH]; cbn; [done|]. intros Hi. apply not_elem_of_cons in Hi as [Hne Hi]. by rewrite list_lookup_insert_ne, IH.
Qed.

Lemma land_or_2 f : Z.land (Z.land (Z.lor f B_VALID) (Z.lnot B_DIRTY)) (Z.lor B_VALID B_DIRTY) = B_VALID.
Proof.
  rewrite <- Z.land_assoc. change (Z.land (Z.lnot B_DIRTY) (Z.lor B_VALID B_DIRTY)) with B_VALID. apply Z.bits_inj'. intros k Hk.
  rewrite Z.land_spec, Z.lor_spec. destruct (Z.testbit B_VALID k); [by rewrite orb_true_r|by rewrite andb_false_r].
Qed.

(** ** The interrupt *)

Definition wake (i : nat) (w : bool * nat) : bool * nat := if decide (w.2 = i) then (false, i) else w.

(** The buffer after its request *)
Definition done_buf (d : gmap key block) (b : ibuf) : ibuf :=
  set_q_flags (Z.land (Z.lor (q_flags b) B_VALID) (Z.lnot B_DIRTY)) (if has b B_DIRTY then b else set_q_data (disk_at d (dkey b)) b).

Lemma serve_eq d bufs i b : bufs !! i = Some b ->
  serve (d, bufs) i = (if has b B_DIRTY then <[dkey b := q_data b]> d else d, <[i := done_buf d b]> bufs).
Proof. intros H. unfold serve, done_buf. cbn. rewrite H. by destruct (has b B_DIRTY). Qed.

(** ideintr up to the next request *)
Lemma ideintr_run s i b (d := i_drv s) : i_queue s = Some i -> i_bufs s !! i = Some b -> healthy (d_status d) -> d_cmd d = None ->
  exists st, healthy st /\ ideintr s =
    (q <- gets i_queue ;; match q with None => ret tt | Some _ => idestart q end)
      (mkIde (<[i := set_q_flags (Z.land (Z.lor (q_flags b) B_VALID) (Z.lnot B_DIRTY)) (if has b B_DIRTY then b else set_q_data (d_in d) b)]> (i_bufs s))
        (q_next b) (i_disk1 s) (set_status st d) (wake i <$> i_thr s)).
Proof.
  intros Hq Hb Hh Hc. unfold ideintr. rewrite gets_bind, Hq. unfold buf_at. rewrite bind_assoc, gets_bind, Hb. cbn [from_option_undef]. rewrite bind_ret_l.
  assert (Hstep : forall b1 st, (upd_buf i (fun b => set_q_flags (Z.lor (q_flags b) B_VALID) b) ;;
      upd_buf i (fun b => set_q_flags (Z.land (q_flags b) (Z.lnot B_DIRTY)) b) ;; wakeup i ;;
      q <- gets i_queue ;; match q with None => ret tt | Some _ => idestart q end) (mkIde (<[i := b1]> (i_bufs s)) (q_next b) (i_disk1 s) (set_status st d) (i_thr s)) =
    (q <- gets i_queue ;; match q with None => ret tt | Some _ => idestart q end)
      (mkIde (<[i := set_q_flags (Z.land (Z.lor (q_flags b1) B_VALID) (Z.lnot B_DIRTY)) b1]> (i_bufs s)) (q_next b) (i_disk1 s) (set_status st d) (wake i <$> i_thr s))).
  { intros b1 st. assert (Hl : (i < length (i_bufs s))%nat) by (by eapply lookup_lt_Some).
    unfold bind at 1 2 3, upd_buf, wakeup, modify. cbn. unfold set_bufs. cbn.
    by rewrite !alter_insert by done. }
  assert (E0 : modify (set_queue (q_next b)) s = Ok tt (set_queue (q_next b) s)) by done. rewrite (bind_run _ _ _ _ _ E0).
  destruct (has b B_DIRTY) eqn:Hd; cbn [negb].
  - rewrite bind_ret_l. exists (d_status d). split; [done|]. rewrite <- Hstep. f_equal.
    unfold set_queue. rewrite list_insert_id by done. unfold d, set_status. by destruct (i_drv s).
  - destruct (idewait_run true (set_queue (q_next b) s) Hh) as (st & E & Hst). rewrite bind_assoc, (bind_run _ _ _ _ _ E). cbn [Z.geb Z.compare].
    exists st. split; [done|]. etransitivity; [|exact (Hstep (set_q_data (d_in d) b) st)].
    unfold bind at 1 2, insl, gets at 1, upd_buf at 1, modify. cbn. unfold set_drv, set_queue, set_bufs. cbn. by rewrite (alter_at (set_q_data (d_in (i_drv s))) i (i_bufs s) b Hb).
Qed.

Lemma complete_working d b : working b d ->
  complete d = mkDrive (d_regs d) None (d_out d) (if has b B_DIRTY then d_in d else disk_at (d_disk d) (dkey b)) (d_status d)
    (if has b B_DIRTY then <[dkey b := q_data b]> (d_disk d) else d_disk d).
Proof.
  intros (Hc & Ht & Ho). unfold complete. rewrite Hc, Ht. destruct (has b B_DIRTY); cbn; [by rewrite Ho|done].
Qed.

Lemma qchain_in bufs q i : qchain bufs q -> i ∈ q -> is_Some (bufs !! i).
Proof.
  induction q as [|j q IH]; [intros _ H; by apply not_elem_of_nil in H|]. intros ((b & Hb & _) & Hq) Hi. apply elem_of_cons in Hi as [->|Hi]; [by exists b|by apply IH].
Qed.

(** An interrupt carries out the first request and starts the next. *)
Lemma interrupt_spec s i q : irep s (i :: q) ->
  exists s', interrupt s = Ok tt s' /\ irep s' q /\ (d_disk (i_drv s'), i_bufs s') = serve (d_disk (i_drv s), i_bufs s) i /\
    i_thr s' = wake i <$> i_thr s /\ i_disk1 s' = i_disk1 s.
Proof.
  intros [Hh Hc Hn Hp (b & Hb & Hw) Hwt Ht Hhe]. cbn in Hh, Hc. destruct Hc as ((b' & Hb' & Hnx) & Hc). rewrite Hb in Hb'. injection Hb' as <-. apply NoDup_cons in Hn as [Hi Hn].
  unfold interrupt. unfold bind at 1, modify. rewrite (complete_working _ _ Hw).
  set (d0 := mkDrive _ _ _ _ _ _). destruct (ideintr_run (set_drv d0 s) i b Hh Hb Hhe eq_refl) as (st & Hst & E). rewrite E. clear E. cbn [i_drv set_drv i_bufs i_thr i_disk1 d_in d0].
  set (b1 := set_q_flags _ _). assert (Hb1 : b1 = done_buf (d_disk (i_drv s)) b) by (unfold b1, done_buf, d0; cbn; by destruct (has b B_DIRTY)).
  set (s1 := mkIde _ _ _ _ _). rewrite gets_bind. cbn [i_queue s1]. rewrite Hnx. assert (Hi0 : (i < length (i_bufs s))%nat) by (by eapply lookup_lt_Some).
  assert (Hoth : forall j, j ∈ q -> i_bufs s1 !! j = i_bufs s !! j) by (intros j Hj; cbn; rewrite list_lookup_insert_ne; [done|by intros ->]).
  assert (Hrep : forall d, (match q with [] => d_cmd d = None | j :: _ => exists b, i_bufs s1 !! j = Some b /\ working b d end) -> healthy (d_status d) -> irep (set_drv d s1) q).
  { intros d Hd Hhd. split; [done|by apply qchain_insert|done| |done| | |done].
    - intros j bj Hj. cbn [set_drv i_bufs]. rewrite Hoth by done. apply Hp. by right.
    - intros j Hj. destruct (Hwt j ltac:(by right)) as (t & a & Hta). cbn. exists t, (wake i (a, j)).1. rewrite lookup_fmap, Hta. cbn. f_equal. unfold wake. cbn.
      destruct (decide (j = i)) as [->|]; done.
    - intros t a j. cbn. rewrite lookup_fmap. destruct (i_thr s !! t) as [[a0 j0]|] eqn:Hta; [|done]. cbn. unfold wake. cbn. destruct (Ht t a0 j0 Hta) as (bj & Hbj & Hown & Hor).
      destruct (decide (j0 = i)) as [->|Hne]; intros [= <- <-].
      + exists b1. rewrite list_lookup_insert_eq by done. split; [done|]. rewrite Hb in Hbj. injection Hbj as <-. split; [unfold b1; by destruct (has b B_DIRTY)|].
        right. split; [done|]. unfold finished, b1. apply land_or_2.
      + exists bj. rewrite list_lookup_insert_ne by done. split; [done|]. split; [done|]. destruct Hor as [Hin|?]; [left; set_solver|by right]. }
  assert (Hsv : forall d, d_disk d = (if has b B_DIRTY then <[dkey b := q_data b]> (d_disk (i_drv s)) else d_disk (i_drv s)) ->
    (d_disk d, i_bufs s1) = serve (d_disk (i_drv s), i_bufs s) i) by (intros d ->; rewrite (serve_eq _ _ _ b Hb), <- Hb1; done).
  destruct q as [|j q]; cbn [head].
  - exists (set_drv (i_drv s1) s1). split; [done|]. split; [by apply Hrep|]. split; [by apply (Hsv (i_drv s1))|done].
  - assert (exists bj, i_bufs s1 !! j = Some bj) as [bj Hbj] by (rewrite Hoth by (by left); by eapply qchain_in; [apply Hc|left]).
    destruct (Hp j bj ltac:(set_solver)) as [_ Hbok]; [by rewrite <- Hoth by (by left)|].
    destruct (idestart_run s1 j bj Hbj Hbok eq_refl Hst) as (d & E & Hwd & Hdd & Hhd). exists (set_drv d s1). split; [done|]. split; [apply Hrep; [by exists bj|done]|].
    split; [by apply Hsv|done].
Qed.

(** ** A new request *)

(** The walk finds the end of the queue. *)
Lemma last_loop_run s q : forall pp fuel, qchain (i_bufs s) q -> (length q <= fuel)%nat ->
  (match pp with None => i_queue s = head q | Some i => exists b, i_bufs s !! i = Some b /\ q_next b = head q end) ->
  last_loop fuel pp s = Ok (match last q with Some j => Some j | None => pp end) s.
Proof.
  induction q as [|j q IH]; intros pp fuel Hc Hf Hpp.
  - assert (E : match pp with None => gets i_queue | Some i => b <- buf_at i ;; ret (q_next b) end s = Ok None s).
    { destruct pp as [i|]; [destruct Hpp as (b & Hb & Hn); unfold buf_at; rewrite bind_assoc, gets_bind, Hb; cbn; by unfold ret; rewrite Hn|cbn in *; unfold gets; by rewrite Hpp]. }
    destruct fuel; cbn [last_loop]; by rewrite (bind_run _ _ _ _ _ E).
  - assert (E : match pp with None => gets i_queue | Some i => b <- buf_at i ;; ret (q_next b) end s = Ok (Some j) s).
    { destruct pp as [i|]; [destruct Hpp as (b & Hb & Hn); unfold buf_at; rewrite bind_assoc, gets_bind, Hb; cbn; by unfold ret; rewrite Hn|cbn in *; unfold gets; by rewrite Hpp]. }
    destruct fuel as [|fuel]; [cbn in Hf; lia|]. cbn [last_loop]. rewrite (bind_run _ _ _ _ _ E). destruct Hc as (Hj & Hc).
    rewrite (IH (Some j) fuel Hc ltac:(cbn in Hf; lia) Hj). rewrite last_cons. by destruct (last q).
Qed.

(** A list of distinct numbers below [n] is not longer than [n]. *)
Lemma queue_length (bufs : list ibuf) q : NoDup q -> (forall i, i ∈ q -> is_Some (bufs !! i)) -> (length q <= length bufs)%nat.
Proof.
  intros Hn Hq. transitivity (length (seq 0 (length bufs))); [|by rewrite length_seq]. apply submseteq_length, NoDup_submseteq; [done|]. intros i Hi.
  destruct (Hq i Hi) as [b Hb]. apply lookup_lt_Some in Hb. apply elem_of_seq. lia.
Qed.

Lemma next_same (o : option ibuf) : exists v, o = set_q_next v <$> o.
Proof. destruct o as [b|]; [exists (q_next b); by destruct b|by exists None]. Qed.

Lemma next_length (l k : list ibuf) : (forall j, exists v, l !! j = set_q_next v <$> k !! j) -> length l = length k.
Proof.
  intros H. apply Nat.le_antisymm; apply lookup_ge_None.
  - destruct (H (length k)) as [v ->]. by rewrite (proj2 (lookup_ge_None k (length k))).
  - destruct (H (length l)) as [v Hv]. rewrite (proj2 (lookup_ge_None l (length l))) in Hv by done. by destruct (k !! length l).
Qed.

Lemma qchain_snoc bufs q k i bk b : qchain bufs (q ++ [k]) -> NoDup (q ++ [k]) -> i ∉ q ++ [k] -> bufs !! k = Some bk -> bufs !! i = Some b -> q_next b = None ->
  qchain (<[k := set_q_next (Some i) bk]> bufs) ((q ++ [k]) ++ [i]).
Proof.
  intros Hc Hn Hi Hk Hb Hnx. assert (Hl : (k < length bufs)%nat) by (by eapply lookup_lt_Some). induction q as [|j q IH]; cbn in *.
  - split; [eexists; by rewrite list_lookup_insert_eq|]. split; [|done]. exists b. rewrite list_lookup_insert_ne; [done|]. intros ->. set_solver.
  - destruct Hc as ((bj & Hbj & Hnj) & Hc). apply NoDup_cons in Hn as [Hj Hn]. split; [|apply IH; [done|done|set_solver]].
    exists bj. rewrite list_lookup_insert_ne by (intros ->; set_solver). split; [done|]. by destruct q.
Qed.

Lemma append_run s q i b : qchain (i_bufs s) q -> NoDup q -> i_queue s = head q -> i_bufs s !! i = Some b -> i ∉ q ->
  exists bufs, append i s = Ok tt (set_bufs bufs (set_queue (head (q ++ [i])) s)) /\ qchain bufs (q ++ [i]) /\
    (forall j, exists v, bufs !! j = set_q_next v <$> i_bufs s !! j) /\ length bufs = length (i_bufs s).
Proof.
  intros Hc Hn Hh Hb Hi. unfold append. set (b0 := set_q_next None b). assert (Hl : (i < length (i_bufs s))%nat) by (by eapply lookup_lt_Some).
  assert (E0 : upd_buf i (set_q_next None) s = Ok tt (set_bufs (<[i := b0]> (i_bufs s)) s)) by (unfold upd_buf, modify; by rewrite (alter_at _ i _ b Hb)).
  rewrite (bind_run _ _ _ _ _ E0). set (s0 := set_bufs _ s). rewrite gets_bind. assert (Hc0 : qchain (i_bufs s0) q) by (by apply qchain_insert).
  assert (Hlen : (length q <= length (i_bufs s0))%nat) by (apply queue_length; [done|intros j Hj; by eapply qchain_in]).
  rewrite (bind_run _ _ _ _ _ (last_loop_run s0 q None (length (i_bufs s0)) Hc0 Hlen Hh)). destruct q as [|k q' _] using rev_ind.
  - cbn [last]. exists (<[i := b0]> (i_bufs s)). split; [done|]. split; [split; [exists b0; by rewrite list_lookup_insert_eq|done]|].
    split; [|by rewrite length_insert]. intros j. destruct (decide (i = j)) as [<-|Hne]; [exists None; by rewrite list_lookup_insert_eq, Hb|].
    rewrite list_lookup_insert_ne by done. apply next_same.
  - rewrite last_snoc. assert (Hk : k ∈ q' ++ [k]) by set_solver. destruct (qchain_in _ _ _ Hc0 Hk) as [bk Hbk]. assert (Hik : i <> k) by (intros ->; done).
    unfold upd_buf, modify. rewrite (alter_at _ k _ bk Hbk). exists (<[k := set_q_next (Some i) bk]> (i_bufs s0)). split; [unfold set_bufs, set_queue; cbn; rewrite Hh; by destruct q'|].
    split; [apply (qchain_snoc _ _ _ _ _ b0); [done|done|done|done|cbn; by rewrite list_lookup_insert_eq|done]|]. split; [|cbn; by rewrite !length_insert].
    assert (Hlk : (k < length (i_bufs s0))%nat) by (by eapply lookup_lt_Some). cbn in Hbk. rewrite list_lookup_insert_ne in Hbk by done.
    intros j. destruct (decide (k = j)) as [<-|Hne]; [exists (Some i); by rewrite list_lookup_insert_eq, Hbk|]. rewrite list_lookup_insert_ne by done. cbn.
    destruct (decide (i = j)) as [<-|Hne']; [exists None; by rewrite list_lookup_insert_eq, Hb|]. rewrite list_lookup_insert_ne by done. apply next_same.
Qed.

(** The holder of a buffer that does not wait has no request for it. *)
Lemma not_queued s q pid i b : irep s q -> i_thr s !! pid = None -> i_bufs s !! i = Some b -> q_owner b = Some pid -> i ∉ q.
Proof.
  intros Hr Hp Hb Ho Hi. destruct (v_waited _ _ Hr i Hi) as (t & a & Hta). destruct (v_thr _ _ Hr t a i Hta) as (b' & Hb' & Ho' & _). naive_solver.
Qed.

(** The state after a request has been queued, with the drive [d] *)
Lemma irep_snoc s q pid i b bufs d (s' := mkIde bufs (head (q ++ [i])) (i_disk1 s) d (<[pid := (true, i)]> (i_thr s))) :
  irep s q -> i_thr s !! pid = None -> i_bufs s !! i = Some b -> q_owner b = Some pid -> ~ finished b -> block_ok b ->
  qchain bufs (q ++ [i]) -> (forall j, exists v, bufs !! j = set_q_next v <$> i_bufs s !! j) -> healthy (d_status d) ->
  (match q with [] => working b d | _ => d = i_drv s end) -> irep s' (q ++ [i]).
Proof.
  intros Hr Hp Hb Ho Hnf Hok Hc Hbufs Hhe Hd. pose proof (not_queued _ _ _ _ _ Hr Hp Hb Ho) as Hi.
  assert (Hbi : exists v, bufs !! i = Some (set_q_next v b)) by (destruct (Hbufs i) as [v Hv]; exists v; by rewrite Hv, Hb).
  split; [done|done| | | | | |done]; cbn [i_bufs i_drv i_thr s'].
  - apply NoDup_app. split; [apply Hr|]. split; [|by apply NoDup_singleton]. intros j Hj ?. assert (j = i) as -> by set_solver. done.
  - intros j bj Hj Hbj. destruct (Hbufs j) as [v Hv]. rewrite Hv in Hbj. destruct (i_bufs s !! j) as [b0|] eqn:Hb0; [|done]. injection Hbj as <-.
    apply elem_of_app in Hj as [Hj|Hj]; [exact (v_pending _ _ Hr j b0 Hj Hb0)|]. assert (j = i) as -> by set_solver. rewrite Hb in Hb0. by injection Hb0 as <-.
  - destruct q as [|j q]; cbn; [destruct Hbi as [v Hv]; by exists (set_q_next v b)|]. subst d. destruct (v_drive _ _ Hr) as (bj & Hbj & Hw). destruct (Hbufs j) as [v Hv].
    exists (set_q_next v bj). by rewrite Hv, Hbj.
  - intros j Hj. apply elem_of_app in Hj as [Hj|Hj]; [|assert (j = i) as -> by set_solver; exists pid, true; by rewrite lookup_insert_eq].
    destruct (v_waited _ _ Hr j Hj) as (t & a & Hta). exists t, a. rewrite lookup_insert_ne by (intros ->; by rewrite Hp in Hta). done.
  - intros t a j Ht. destruct (decide (pid = t)) as [<-|Hne].
    + rewrite lookup_insert_eq in Ht. injection Ht as <- <-. destruct Hbi as [v Hv]. exists (set_q_next v b). split; [done|]. split; [done|]. left. set_solver.
    + rewrite lookup_insert_ne in Ht by done. destruct (v_thr _ _ Hr t a j Ht) as (bj & Hbj & Hoj & Hor). destruct (Hbufs j) as [v Hv]. exists (set_q_next v bj).
      rewrite Hv, Hbj. split; [done|]. split; [done|]. destruct Hor as [Hj|Hj]; [left; set_solver|by right].
Qed.

Lemma iderw_spec s q pid i b : irep s q -> i_thr s !! pid = None -> i_bufs s !! i = Some b -> q_owner b = Some pid -> ~ finished b -> block_ok b ->
  (q_dev b = 0 \/ i_disk1 s = true) ->
  exists s', iderw pid i s = Ok tt s' /\ irep s' (q ++ [i]) /\ d_disk (i_drv s') = d_disk (i_drv s) /\ i_disk1 s' = i_disk1 s /\
    i_thr s' = <[pid := (true, i)]> (i_thr s) /\ (forall j, exists v, i_bufs s' !! j = set_q_next v <$> i_bufs s !! j).
Proof.
  intros Hr Hp Hb Ho Hnf Hok Hdev. pose proof (not_queued _ _ _ _ _ Hr Hp Hb Ho) as Hi.
  unfold iderw, buf_at. rewrite bind_assoc, gets_bind, Hb. cbn [from_option_undef]. rewrite bind_ret_l, bool_decide_true by done. cbn [negb].
  rewrite (proj2 (Z.eqb_neq _ _)) by exact Hnf. rewrite gets_bind.
  assert (negb (q_dev b =? 0) && negb (i_disk1 s) = false) as -> by (destruct Hdev as [->| ->]; [done|by rewrite andb_false_r]).
  destruct (append_run s q i b (v_chain _ _ Hr) (v_nodup _ _ Hr) (v_head _ _ Hr) Hb Hi) as (bufs & E & Hc & Hbufs & _). rewrite (bind_run _ _ _ _ _ E), gets_bind.
  set (s1 := set_bufs _ _). assert (exists v, i_bufs s1 !! i = Some (set_q_next v b)) as [v Hv] by (destruct (Hbufs i) as [v Hv]; exists v; cbn; by rewrite Hv, Hb).
  assert (Hwait : forall d, iderw_wait pid i (set_drv d s1) = Ok tt (mkIde bufs (head (q ++ [i])) (i_disk1 s) d (<[pid := (true, i)]> (i_thr s)))).
  { intros d. unfold iderw_wait, buf_at. rewrite bind_assoc, gets_bind. cbn [set_drv i_bufs] in *. rewrite Hv. cbn [from_option_undef]. rewrite bind_ret_l.
    rewrite (proj2 (Z.eqb_neq _ _)) by exact Hnf. done. }
  destruct q as [|j q].
  - cbn [app head i_queue s1 set_bufs set_queue]. rewrite bool_decide_true by done.
    destruct (idestart_run s1 i _ Hv Hok (v_drive _ _ Hr) (v_healthy _ _ Hr)) as (d & Ed & Hw & Hdd & Hhd). rewrite (bind_run _ _ _ _ _ Ed), Hwait.
    eexists. split; [reflexivity|]. split; [by apply (irep_snoc s [] pid i b bufs d)|]. done.
  - cbn [app head i_queue s1 set_bufs set_queue]. rewrite bool_decide_false by (intros [= ->]; set_solver). rewrite bind_ret_l.
    pose proof (Hwait (i_drv s)) as Hw. replace (set_drv (i_drv s) s1) with s1 in Hw by done. rewrite Hw. eexists. split; [reflexivity|].
    split; [apply (irep_snoc s (j :: q) pid i b bufs (i_drv s)); try done; apply Hr|]. done.
Qed.

(** The process runs again: it returns, or sleeps on. *)
Lemma wait_spec s q pid i a : irep s q -> i_thr s !! pid = Some (a, i) ->
  exists s' b, iderw_wait pid i s = Ok tt s' /\ irep s' q /\ i_bufs s !! i = Some b /\
    (finished b /\ i_thr s' = delete pid (i_thr s) \/ i ∈ q /\ i_thr s' = <[pid := (true, i)]> (i_thr s)) /\
    i_bufs s' = i_bufs s /\ i_drv s' = i_drv s.
Proof.
  intros Hr Ht. destruct (v_thr _ _ Hr pid a i Ht) as (b & Hb & Ho & Hor). unfold iderw_wait, buf_at. rewrite bind_assoc, gets_bind, Hb. cbn [from_option_undef]. rewrite bind_ret_l.
  destruct (Z.eqb_spec (Z.land (q_flags b) (Z.lor B_VALID B_DIRTY)) B_VALID) as [Hf|Hf]; eexists _, b; (split; [reflexivity|]).
  - assert (Hi : i ∉ q) by (intros Hi; by destruct (v_pending _ _ Hr i b Hi Hb)). split; [|split; [done|split; [by left|done]]]. destruct Hr as [H1 H2 H3 H4 H5 H6 H7 H8]. split; try done.
    + intros j Hj. destruct (H6 j Hj) as (t & a' & Hta). exists t, a'. cbn. rewrite lookup_delete_ne; [done|]. intros ->. naive_solver.
    + intros t a' j. cbn. rewrite lookup_delete_Some. intros [_ Hta]. by eapply H7.
  - destruct Hor as [Hi|[_ Hf']]; [|done]. split; [|split; [done|split; [by right|done]]]. destruct Hr as [H1 H2 H3 H4 H5 H6 H7 H8]. split; try done; cbn.
    + intros j Hj. destruct (H6 j Hj) as (t & a' & Hta). destruct (decide (pid = t)) as [<-|Hne]; [exists pid, true; rewrite lookup_insert_eq; naive_solver|].
      exists t, a'. by rewrite lookup_insert_ne.
    + intros t a' j Hta. destruct (decide (pid = t)) as [<-|Hne]; [rewrite lookup_insert_eq in Hta; injection Hta as <- <-; exists b; auto|].
      rewrite lookup_insert_ne in Hta by done. by eapply H7.
Qed.

(** A buffer nobody waits for changes: it is locked, filled, marked dirty, unlocked. *)
Lemma own_spec s q i b b' : irep s q -> i_bufs s !! i = Some b -> (forall t a, i_thr s !! t <> Some (a, i)) -> irep (set_bufs (<[i := b']> (i_bufs s)) s) q.
Proof.
  intros Hr Hb Hfree. assert (Hi : i ∉ q) by (intros Hi; destruct (v_waited _ _ Hr i Hi) as (t & a & Hta); by apply (Hfree t a)).
  assert (Hoth : forall j, j <> i -> <[i := b']> (i_bufs s) !! j = i_bufs s !! j) by (intros j Hj; by apply list_lookup_insert_ne).
  destruct Hr as [H1 H2 H3 H4 H5 H6 H7 H8]. split; try done; cbn.
  - by apply qchain_insert.
  - intros j bj Hj. rewrite Hoth by (intros ->; done). by apply H4.
  - destruct q as [|j q]; [done|]. destruct H5 as (bj & Hbj & Hw). exists bj. by rewrite Hoth by (intros ->; set_solver).
  - intros t a j Hta. rewrite Hoth by (intros ->; by eapply Hfree). by eapply H7.
Qed.

(** ** Everything that can happen *)

Inductive istep (s : ide) : ide -> Prop :=
| I_rw pid i b s' : i_thr s !! pid = None -> i_bufs s !! i = Some b -> q_owner b = Some pid -> ~ finished b -> block_ok b ->
    q_dev b = 0 \/ i_disk1 s = true -> iderw pid i s = Ok tt s' -> istep s s'
| I_intr s' : interrupt s = Ok tt s' -> istep s s'
| I_run pid i s' : i_thr s !! pid = Some (false, i) -> iderw_wait pid i s = Ok tt s' -> istep s s'
| I_own i b b' : i_bufs s !! i = Some b -> (forall t a, i_thr s !! t <> Some (a, i)) -> istep s (set_bufs (<[i := b']> (i_bufs s)) s).

Lemma interrupt_idle s : irep s [] -> interrupt s = Ok tt s.
Proof.
  intros Hr. pose proof (v_drive _ _ Hr) as Hc. cbn in Hc. unfold interrupt, bind at 1, modify. replace (complete (i_drv s)) with (i_drv s) by (unfold complete; by rewrite Hc).
  unfold ideintr. rewrite gets_bind. cbn. rewrite (v_head _ _ Hr). cbn. by destruct s.
Qed.

Lemma istep_rep s s' q : istep s s' -> irep s q -> exists q', irep s' q'.
Proof.
  intros Hs Hr. destruct Hs as [pid i b s' H1 H2 H3 H4 H5 H6 E|s' E|pid i s' H1 E|i b b' H1 H2].
  - destruct (iderw_spec s q pid i b Hr H1 H2 H3 H4 H5 H6) as (s1 & E1 & Hr1 & _). rewrite E in E1. injection E1 as <-. by eexists.
  - destruct q as [|i q].
    + rewrite (interrupt_idle s Hr) in E. injection E as <-. by exists [].
    + destruct (interrupt_spec s i q Hr) as (s1 & E1 & Hr1 & _). rewrite E in E1. injection E1 as <-. by eexists.
  - destruct (wait_spec s q pid i false Hr H1) as (s1 & b & E1 & Hr1 & _). rewrite E in E1. injection E1 as <-. by eexists.
  - exists q. by eapply own_spec.
Qed.

(** The driver before the first request *)
Definition idle (s : ide) : Prop := i_queue s = None /\ i_thr s = ∅ /\ d_cmd (i_drv s) = None /\ healthy (d_status (i_drv s)).

Lemma idle_rep s : idle s -> irep s [].
Proof. intros (H1 & H2 & H3 & H4). split; try done; [apply NoDup_nil_2|intros i b Hi; by apply not_elem_of_nil in Hi|intros i Hi; by apply not_elem_of_nil in Hi|intros t a i; by rewrite H2]. Qed.

Lemma reach_rep s0 s : idle s0 -> rtc istep s0 s -> exists q, irep s q.
Proof.
  intros H0 Hs. assert (H : exists q, irep s0 q) by (exists []; by apply idle_rep). clear H0. induction Hs as [|s1 s2 s3 H12 _ IH]; [done|].
  destruct H as [q Hq]. apply IH. by eapply istep_rep.
Qed.

(** ** Many interrupts *)

Fixpoint interrupts (n : nat) : M ide unit := match n with O => ret tt | S n' => interrupt ;; interrupts n' end.

Lemma interrupts_spec n : forall s q, irep s q -> (n <= length q)%nat ->
  exists s', interrupts n s = Ok tt s' /\ irep s' (drop n q) /\ (d_disk (i_drv s'), i_bufs s') = foldl serve (d_disk (i_drv s), i_bufs s) (take n q) /\
    i_disk1 s' = i_disk1 s /\ (forall t a i, i_thr s !! t = Some (a, i) -> exists a', i_thr s' !! t = Some (a', i)).
Proof.
  induction n as [|n IH]; intros s q Hr Hn; [exists s; rewrite drop_0; do 4 (split; [done|]); by eauto|]. destruct q as [|i q]; [cbn in Hn; lia|].
  destruct (interrupt_spec s i q Hr) as (s1 & E1 & Hr1 & Hs1 & Ht1 & Hd1). destruct (IH s1 q Hr1 ltac:(cbn in Hn; lia)) as (s2 & E2 & Hr2 & Hs2 & Hd2 & Ht2).
  exists s2. cbn [interrupts]. rewrite (bind_run _ _ _ _ _ E1). split; [done|]. split; [done|]. split; [cbn; by rewrite <- Hs1|]. split; [congruence|].
  intros t a j Ht. apply (Ht2 t (wake i (a, j)).1 j). rewrite Ht1, lookup_fmap, Ht. cbn. f_equal. unfold wake. cbn. by destruct (decide (j = i)) as [->|].
Qed.

Lemma served s q pid i : irep s q -> i_thr s !! pid = Some (true, i) -> exists n s1 s2, interrupts n s = Ok tt s1 /\ iderw_wait pid i s1 = Ok tt s2 /\
  i_thr s2 !! pid = None /\ exists b, i_bufs s2 !! i = Some b /\ finished b.
Proof.
  intros Hr Ht. destruct (v_thr _ _ Hr pid true i Ht) as (_ & _ & _ & [Hi|[? _]]); [|done]. apply list_elem_of_lookup in Hi as [k Hk].
  pose proof (lookup_lt_Some _ _ _ Hk) as Hl. destruct (interrupts_spec (S k) s q Hr ltac:(lia)) as (s1 & E1 & Hr1 & _ & _ & Ht1).
  destruct (Ht1 pid true i Ht) as [a Ha]. assert (Hni : i ∉ drop (S k) q).
  { intros Hin. apply list_elem_of_lookup in Hin as [j Hj]. rewrite lookup_drop in Hj. pose proof (NoDup_lookup q _ _ _ (v_nodup _ _ Hr) Hj Hk). lia. }
  destruct (wait_spec s1 _ pid i a Hr1 Ha) as (s2 & b & E2 & _ & Hb & Hor & Hb2 & _). exists (S k), s1, s2. split; [done|]. split; [done|].
  destruct Hor as [[Hf ->]|[? _]]; [|done]. split; [apply lookup_delete_eq|]. exists b. by rewrite Hb2.
Qed.

(** ** One request at a time *)

(** A buffer of the block cache and its request *)
Definition same_buf (b : buf) (c : ibuf) : Prop :=
  b_flags b = q_flags c /\ b_dev b = q_dev c /\ b_blockno b = q_blockno c /\ b_data b = q_data c /\ q_owner c = if b_locked b then Some (b_lkpid b) else None.

Definition matches (x : bio) (s : ide) : Prop := disk x = d_disk (i_drv s) /\ Forall2 same_buf (bufs x) (i_bufs s).

Lemma same_has b c f : same_buf b c -> has_flag b f = has c f.
Proof. intros (H & _). unfold has_flag, has. by rewrite H. Qed.

(** The effect of the one-step iderw *)
Lemma bio_iderw_inv pid d1 i x u x' : Bio.iderw pid d1 i x = Ok u x' -> exists b, bufs x !! i = Some b /\
  b_locked b = true /\ b_lkpid b = pid /\ Z.land (b_flags b) (Z.lor B_VALID B_DIRTY) <> B_VALID /\ (b_dev b = 0 \/ d1 = true) /\ b_blockno b < FSSIZE /\
  disk x' = (if has_flag b B_DIRTY then <[b_key b := b_data b]> (disk x) else disk x) /\
  bufs x' = <[i := set_b_flags (Z.land (Z.lor (b_flags b) B_VALID) (Z.lnot B_DIRTY)) (if has_flag b B_DIRTY then b else set_b_data (disk_at (disk x) (b_key b)) b)]> (bufs x).
Proof.
  unfold Bio.iderw, Bio.holdingsleep, Bio.buf_at, Bio.idestart_check, Bio.ideintr, Bio.upd_buf, Bio.buf_at, bind, gets, modify, ret. destruct (bufs x !! i) as [b|] eqn:Hb; [|done]. cbn. rewrite Hb. cbn.
  destruct (b_locked b && (b_lkpid b =? pid)) eqn:Hl; [|done]. apply andb_true_iff in Hl as [Hl Hp]. apply Z.eqb_eq in Hp. cbn.
  destruct (Z.eqb_spec (Z.land (b_flags b) (Z.lor B_VALID B_DIRTY)) B_VALID) as [|Hf]; [done|]. destruct (negb (b_dev b =? 0) && negb d1) eqn:Hd; [done|].
  destruct (Z.geb_spec (b_blockno b) FSSIZE) as [|Hk]; [done|]. cbn. rewrite Hb. cbn. assert (Hi : (i < length (bufs x))%nat) by (by eapply lookup_lt_Some).
  assert (Hdev : b_dev b = 0 \/ d1 = true) by (destruct (Z.eqb_spec (b_dev b) 0); [by left|right; by destruct d1]).
  destruct (has_flag b B_DIRTY) eqn:Hdt; cbn; rewrite ?Hb; cbn; rewrite ?list_lookup_insert_eq by done; cbn; intros E; injection E as _ <-; exists b; cbn; rewrite ?Hdt; rewrite ?list_insert_insert_eq; by repeat (split; [done|]).
Qed.

Lemma iderw_alone s x pid i u x' : irep s [] -> i_thr s !! pid = None -> matches x s ->
  (forall b, bufs x !! i = Some b -> 0 <= b_dev b <= 1 /\ 0 <= b_blockno b) -> Bio.iderw pid (i_disk1 s) i x = Ok u x' ->
  exists s', (iderw pid i ;; interrupt ;; iderw_wait pid i) s = Ok tt s' /\ irep s' [] /\ matches x' s' /\ i_thr s' = i_thr s.
Proof.
  intros Hr Hp [Hdk Hbf] Hrng E. destruct (bio_iderw_inv _ _ _ _ _ _ E) as (b & Hb & Hl & Hpid & Hf & Hdev & Hk & Hd' & Hb').
  destruct (Forall2_lookup_l _ _ _ _ _ Hbf Hb) as (c & Hc & Hs). pose proof Hs as (S1 & S2 & S3 & S4 & S5). destruct (Hrng b Hb) as [Hrd Hrb].
  destruct (iderw_spec s [] pid i c Hr Hp Hc) as (s1 & E1 & Hr1 & D1 & _ & T1 & B1).
  { by rewrite S5, Hl, Hpid. } { unfold finished. by rewrite <- S1. } { unfold block_ok. lia. } { by rewrite <- S2. }
  destruct (B1 i) as [v Hv]. rewrite Hc in Hv. cbn in Hv.
  destruct (interrupt_spec s1 i [] Hr1) as (s2 & E2 & Hr2 & Hsv & T2 & _). rewrite (serve_eq _ _ _ _ Hv) in Hsv. injection Hsv as D2 B2.
  assert (Ht2 : i_thr s2 !! pid = Some (false, i)) by (rewrite T2, T1, lookup_fmap, lookup_insert_eq; cbn; unfold wake; cbn; by rewrite decide_True).
  destruct (wait_spec s2 [] pid i false Hr2 Ht2) as (s3 & b3 & E3 & Hr3 & _ & Hor & B3 & D3). destruct Hor as [[_ T3]|[Hx _]]; [|by apply not_elem_of_nil in Hx].
  exists s3. rewrite (bind_run _ _ _ _ _ E1), (bind_run _ _ _ _ _ E2). split; [done|]. split; [done|].
  assert (Hk2 : dkey c = b_key b). { unfold dkey, b_key. rewrite S2, S3. f_equal. rewrite <- S2. assert (b_dev b = 0 \/ b_dev b = 1) as [->| ->] by lia; done. }
  split; [split|].
  - rewrite D3, D2, D1, Hd', <- Hdk. change (has (set_q_next v c) B_DIRTY) with (has c B_DIRTY). rewrite (same_has b c _ Hs).
    change (dkey (set_q_next v c)) with (dkey c). rewrite Hk2, S4. done.
  - rewrite B3, B2, Hb'. assert (H12 : Forall2 same_buf (bufs x) (i_bufs s1)).
    { apply Forall2_same_length_lookup. split.
      - rewrite (Forall2_length _ _ _ Hbf). symmetry. by apply next_length.
      - intros j bj cj Hbj Hcj. destruct (B1 j) as [w Hw]. rewrite Hw in Hcj. destruct (i_bufs s !! j) as [c0|] eqn:Hc0; [|done]. injection Hcj as <-.
        by apply (Forall2_lookup_lr _ _ _ j _ _ Hbf Hbj Hc0). }
    apply Forall2_insert; [done|]. unfold done_buf. change (has (set_q_next v c) B_DIRTY) with (has c B_DIRTY). rewrite (same_has b c _ Hs).
    change (dkey (set_q_next v c)) with (dkey c). rewrite Hk2, D1, <- Hdk. unfold same_buf. destruct (has c B_DIRTY); cbn; rewrite S1; done.
  - rewrite T3, T2, T1. apply map_eq. intros t. destruct (decide (t = pid)) as [->|Hne]; [by rewrite lookup_delete_eq|].
    rewrite lookup_delete_ne, lookup_fmap, lookup_insert_ne by done. destruct (i_thr s !! t) as [[a j]|] eqn:Hta; [|done]. cbn. unfold wake. cbn.
    destruct (v_thr _ _ Hr t a j Hta) as (_ & _ & _ & [Hx|[-> _]]); [by apply not_elem_of_nil in Hx|]. by destruct (decide (j = i)) as [->|].
Qed.

(** ** The theorems *)


(** C30: the requests are carried out one at a time in the order in which they
    were made: [n] interrupts have on the disk and on the buffers the effect of
    the first [n] requests of the queue, each as one step. *)
Theorem ide_fifo s q n : irep s q -> (n <= length q)%nat ->
  exists s', interrupts n s = Ok tt s' /\ irep s' (drop n q) /\ (d_disk (i_drv s'), i_bufs s') = foldl serve (d_disk (i_drv s), i_bufs s) (take n q).
Proof. intros Hr Hn. destruct (interrupts_spec n s q Hr Hn) as (s' & E & H1 & H2 & _). by exists s'. Qed.

(** C31: for one process at a time the driver does what Bio takes it to do in one
    step: the request, the interrupt and the return leave the buffer and the
    disk as Bio.iderw does, and the queue empty. *)
Theorem ide_sequential s x pid i x' : irep s [] -> i_thr s !! pid = None -> matches x s ->
  (forall b, bufs x !! i = Some b -> 0 <= b_dev b <= 1 /\ 0 <= b_blockno b) -> Bio.iderw pid (i_disk1 s) i x = Ok tt x' ->
  exists s', (iderw pid i ;; interrupt ;; iderw_wait pid i) s = Ok tt s' /\ irep s' [] /\ matches x' s' /\ i_thr s' = i_thr s.
Proof. apply iderw_alone. Qed.

(** ** A machine with two requests *)

Definition w_blk (v : Z) : block := replicate (Z.to_nat BSIZE) v.
Definition w_ide : ide :=
  mkIde [mkIbuf 0 1 5 (Some 7) None (w_blk 0); mkIbuf 6 1 1999 (Some 8) None (w_blk 1)] None true
    (mkDrive ∅ None [] [] [128; 192; 64] {[(1, 5) := w_blk 2]}) ∅.

Lemma w_idle : idle w_ide.
Proof. by repeat constructor. Qed.

(** Process 7 reads block 5 and process 8 writes block 1999. *)
Lemma w_two : exists s, rtc istep w_ide s /\ irep s [0%nat; 1%nat] /\ i_thr s !! 7 = Some (true, 0%nat).
Proof.
  destruct (iderw_spec w_ide [] 7 0 _ (idle_rep _ w_idle) eq_refl eq_refl eq_refl) as (s1 & E1 & Hr1 & _ & D1 & T1 & B1); [by vm_compute|by split|by right|].
  destruct (B1 1%nat) as [v Hv]. assert (Ht : i_thr s1 !! 8 = None) by (by rewrite T1).
  destruct (iderw_spec s1 [0%nat] 8 1 _ Hr1 Ht Hv eq_refl) as (s2 & E2 & Hr2 & _ & _ & T2 & _); [by vm_compute|by split|right; by rewrite D1|].
  exists s2. split; [|split; [done|by rewrite T2, T1]]. eapply rtc_l; [|eapply rtc_l; [|done]].
  - eapply (I_rw w_ide 7 0); [done|done|done|by vm_compute|by split|by right|exact E1].
  - eapply (I_rw s1 8 1); [exact Ht|exact Hv|done|by vm_compute|by split|right; by rewrite D1|exact E2].
Qed.


Lemma ide_fifo_witness : exists s, irep s [0%nat; 1%nat] /\ exists s', interrupts 2 s = Ok tt s' /\ irep s' (drop 2 [0%nat; 1%nat]) /\
  (d_disk (i_drv s'), i_bufs s') = foldl serve (d_disk (i_drv s), i_bufs s) (take 2 [0%nat; 1%nat]).
Proof. destruct w_two as (s & _ & Hr & _). exists s. split; [exact Hr|]. apply (ide_fifo s [0%nat; 1%nat] 2 Hr). cbn. lia. Defined.

Definition w_bio : bio := mkBio [mkBuf 0 1 5 true 7 1 (w_blk 0); mkBuf 6 1 1999 true 8 1 (w_blk 1)] [] {[(1, 5) := w_blk 2]} [].
Definition w_bio' : bio := run_state (Bio.iderw 7 true 0) w_bio.

Lemma ok_run {S} (m : M S unit) s : match m s with Ok _ _ => true | _ => false end = true -> m s = Ok tt (run_state m s).
Proof. unfold run_state. by destruct (m s) as [[]| | |]. Qed.

Lemma ide_sequential_witness : irep w_ide [] /\ Bio.iderw 7 true 0 w_bio = Ok tt w_bio' /\
  exists s', (iderw 7 0 ;; interrupt ;; iderw_wait 7 0) w_ide = Ok tt s' /\ irep s' [] /\ matches w_bio' s' /\ i_thr s' = i_thr w_ide.
Proof.
  assert (E : Bio.iderw 7 true 0 w_bio = Ok tt w_bio').
  { apply ok_run. by vm_compute. }
  split; [exact (idle_rep _ w_idle)|]. split; [exact E|]. apply (ide_sequential w_ide w_bio 7 0 w_bio' (idle_rep _ w_idle) eq_refl); [| |exact E].
  - split; [done|]. by repeat constructor.
  - intros b [= <-]. cbn. lia.
Defined.

(** When the drive reports an error the buffer is marked valid all the same, and
    keeps what it had. *)
Definition w_err : ide := set_drv (mkDrive ∅ None [] [] [64; 65] {[(1, 5) := w_blk 2]}) w_ide.
Example ide_error_valid :
  match (iderw 7 0 ;; interrupt) w_err with
  | Ok _ s => match i_bufs s !! 0%nat with Some b => q_flags b = B_VALID /\ q_data b = w_blk 0 | None => False end
  | _ => False
  end.
Proof. by vm_compute. Qed.

End IdeProps.
