(* ===== verification/BioProof.v ===== *)
(** * bio.c implements the buffer-cache interface

    The representation relation [bio_rep] between the cache and the abstract
    view, and the laws of [BufLaws] for it: no two buffers hold the same block,
    a buffer that is neither held nor dirty agrees with the disk, and a buffer
    is recycled only when it is clean and unused. *)
From stdpp Require Import functions.
From S2P Require Import Prelude Words Params Bio Buf.

Module BioProof.
Import Bio.

#[local] Arguments b_key : simpl never.

Section bioproof.
Context (pid : Z).

#[local] Abbreviation D := (M bio).

#[global] Instance bio_ops : BufOps bio := {
  op_bread := Bio.bread pid true;
  op_data h := b <- buf_at h ;; ret (b_data b);
  op_set h d := upd_buf h (set_b_data d);
  op_blockno h := b <- buf_at h ;; ret (b_blockno b);
  op_dirty h := upd_buf h (fun b => set_b_flags (Z.lor (b_flags b) B_DIRTY) b);
  op_bwrite := Bio.bwrite pid true;
  op_brelse := Bio.brelse pid
}.

(** What the view says about buffer [i]. *)
Definition buf_rep (v : bview) (i : nat) (b : buf) : Prop :=
  (b_dev b = 0 /\ b_flags b = 0 /\ v_held v !! i = None \/
   b_dev b = fsdev /\ 0 <= b_blockno b < FSSIZE /\
     (b_flags b = 2 /\ b_key b ∉ v_dirty v \/ b_flags b = 6 /\ b_key b ∈ v_dirty v) /\
     v_mem v (b_key b) = b_data b /\
     (v_held v !! i = None -> b_flags b = 2 -> b_data b = v_disk v (b_key b))) /\
  match v_held v !! i with
  | Some k => b_locked b = true /\ b_lkpid b = pid /\ b_refcnt b = 1 /\ b_key b = k
  | None => b_locked b = false /\ b_refcnt b = 0
  end.

Record bio_rep (s : bio) (v : bview) : Prop := {
  br_len : length (bufs s) = Z.to_nat NBUF;
  br_lru : lru s ≡ₚ seq 0 (Z.to_nat NBUF);
  br_buf i b : bufs s !! i = Some b -> buf_rep v i b;
  br_uniq i j b b' : bufs s !! i = Some b -> bufs s !! j = Some b' ->
    b_dev b = fsdev -> b_key b = b_key b' -> i = j;
  br_held i k : v_held v !! i = Some k -> is_Some (bufs s !! i);
  br_dirty k : k ∈ v_dirty v -> exists i b, bufs s !! i = Some b /\ b_dev b = fsdev /\ b_key b = k;
  br_uncached k : (forall i b, bufs s !! i = Some b -> b_dev b = fsdev -> b_key b <> k) ->
    v_mem v k = v_disk v k;
  br_disk k : v_disk v k = disk_at (disk s) k;
  br_trace : v_trace v = trace s
}.

(** ** Running the primitives *)

Lemma buf_at_run i b s : bufs s !! i = Some b -> buf_at i s = Ok b s.
Proof. intros Hi. unfold buf_at, bind, gets. by rewrite Hi. Qed.

Lemma upd_buf_run i b f s : bufs s !! i = Some b ->
  upd_buf i f s = Ok tt (set_bufs (<[i := f b]> (bufs s)) s).
Proof. intros Hi. unfold upd_buf. by rewrite (bind_run _ _ _ _ _ (buf_at_run i b s Hi)). Qed.

Lemma held_buf s v h k : bio_rep s v -> v_held v !! h = Some k ->
  exists b, bufs s !! h = Some b /\ b_dev b = fsdev /\ b_key b = k /\ b_locked b = true /\
    b_lkpid b = pid /\ b_refcnt b = 1 /\ (b_flags b = 2 \/ b_flags b = 6) /\
    v_mem v k = b_data b /\ 0 <= b_blockno b < FSSIZE.
Proof.
  intros Hr Hh. destruct (br_held s v Hr h k Hh) as [b Hb]. exists b.
  destruct (br_buf s v Hr h b Hb) as [Hc Hlk]. rewrite Hh in Hlk, Hc.
  destruct Hlk as (? & ? & ? & Hk). destruct Hc as [(_ & _ & [=])|(? & ? & Hf & Hm & _)].
  rewrite Hk in Hm. split_and!; try done; try lia; tauto.
Qed.

Lemma law_data_bio s v h k : bio_rep s v -> v_held v !! h = Some k -> op_data h s = Ok (v_mem v k) s.
Proof.
  intros Hr Hh. destruct (held_buf s v h k Hr Hh) as (b & Hb & _ & _ & _ & _ & _ & _ & -> & _).
  simpl. by rewrite (bind_run _ _ _ _ _ (buf_at_run h b s Hb)).
Qed.

Lemma law_blockno_bio s v h k : bio_rep s v -> v_held v !! h = Some k -> op_blockno h s = Ok k.2 s.
Proof.
  intros Hr Hh. destruct (held_buf s v h k Hr Hh) as (b & Hb & _ & <- & _).
  simpl. by rewrite (bind_run _ _ _ _ _ (buf_at_run h b s Hb)).
Qed.

(** An update of one buffer that keeps its block. *)
Lemma rep_update s v h b b' s' v' :
  bio_rep s v -> bufs s !! h = Some b -> b_dev b = fsdev -> b_key b' = b_key b ->
  bufs s' = <[h := b']> (bufs s) -> lru s' ≡ₚ lru s ->
  (forall k, k <> b_key b -> v_mem v' k = v_mem v k /\ v_disk v' k = v_disk v k /\
     (k ∈ v_dirty v' <-> k ∈ v_dirty v)) ->
  (forall i, i <> h -> v_held v' !! i = v_held v !! i) ->
  buf_rep v' h b' ->
  (forall k, v_disk v' k = disk_at (disk s') k) -> v_trace v' = trace s' ->
  bio_rep s' v'.
Proof.
  intros Hr Hb Hdev Hkey Hbufs Hlru Hk Hheld Hrep Hdisk Htr.
  assert (Hh : bufs s' !! h = Some b').
  { rewrite Hbufs. apply list_lookup_insert_eq. by eapply lookup_lt_Some. }
  assert (Hdev' : b_dev b' = fsdev) by (unfold b_key in Hkey; congruence).
  assert (Hlk : forall i c, bufs s' !! i = Some c -> i = h /\ c = b' \/ i <> h /\ bufs s !! i = Some c).
  { intros i c Hc. rewrite Hbufs in Hc. apply list_lookup_insert_Some in Hc as [(-> & <- & _)|[? ?]]; auto. }
  assert (Hlk' : forall i c, i <> h -> bufs s !! i = Some c -> bufs s' !! i = Some c).
  { intros i c Hne Hi. rewrite Hbufs. by rewrite list_lookup_insert_ne. }
  split.
  - rewrite Hbufs, length_insert. apply Hr.
  - rewrite Hlru. apply Hr.
  - intros i c Hc. destruct (Hlk i c Hc) as [[-> ->]|[Hne Hc']]; [done|].
    destruct (br_buf s v Hr i c Hc') as [Hc1 Hc2]. unfold buf_rep. rewrite Hheld by done.
    split; [|done]. destruct Hc1 as [?|(Hd & Hfs & Hfl & Hm & Hcl)]; [by left|right].
    destruct (Hk (b_key c)) as (-> & -> & Hdirty).
    { intros Heq. apply Hne. by eapply (br_uniq s v Hr i h c b). }
    rewrite Hdirty. done.
  - intros i j c c' Hi Hj Hd He.
    destruct (Hlk i c Hi) as [[-> ->]|[Hni Hi']], (Hlk j c' Hj) as [[-> ->]|[Hnj Hj']]; try done.
    + eapply (br_uniq s v Hr); try done. by rewrite <- Hkey.
    + eapply (br_uniq s v Hr); try done. by rewrite <- Hkey.
    + by eapply (br_uniq s v Hr).
  - intros i k Hi. destruct (decide (i = h)) as [->|Hne]; [by rewrite Hh|].
    rewrite Hheld in Hi by done. destruct (br_held s v Hr i k Hi) as [c Hc].
    by rewrite (Hlk' i c).
  - intros k Hkd. destruct (decide (k = b_key b)) as [->|Hne]; [by exists h, b'|].
    apply Hk in Hkd; [|done]. destruct (br_dirty s v Hr k Hkd) as (i & c & Hi & Hd & <-).
    exists i, c. split; [|done]. apply Hlk'; [|done]. intros ->. by simplify_eq.
  - intros k Hkc. assert (Hne : k <> b_key b).
    { intros ->. by apply (Hkc h b'). }
    destruct (Hk k Hne) as (-> & -> & _). apply (br_uncached s v Hr). intros i c Hi Hd He.
    destruct (decide (i = h)) as [->|]; [by simplify_eq|]. by apply (Hkc i c); [apply Hlk'| |].
  - done.
  - done.
Qed.

Lemma law_set_bio s v h k d : bio_rep s v -> v_held v !! h = Some k ->
  exists s', op_set h d s = Ok tt s' /\ bio_rep s' (store_mem k d v).
Proof.
  intros Hr Hh. destruct (held_buf s v h k Hr Hh) as (b & Hb & Hdev & Hk & Hl1 & Hl2 & Hl3 & _ & _ & Hbn).
  eexists. split; [by apply upd_buf_run|].
  destruct (br_buf s v Hr h b Hb) as [[(_ & _ & Hn)|(_ & _ & Hf & _)] _]; [congruence|].
  eapply (rep_update s v h b (set_b_data d b)); try done; [| |apply Hr|apply Hr].
  - intros k' Hne. simpl. rewrite fn_lookup_insert_ne by congruence. done.
  - unfold buf_rep. simpl. rewrite Hh. split; [right|done]. split_and!; try done; try lia.
    rewrite <- Hk. apply fn_lookup_insert.
Qed.

Lemma law_dirty_bio s v h k : bio_rep s v -> v_held v !! h = Some k ->
  exists s', op_dirty h s = Ok tt s' /\ bio_rep s' (pin k v).
Proof.
  intros Hr Hh. destruct (held_buf s v h k Hr Hh) as (b & Hb & Hdev & Hk & Hl1 & Hl2 & Hl3 & Hfl & Hm & Hbn).
  eexists. split; [by apply upd_buf_run|].
  eapply (rep_update s v h b (set_b_flags (Z.lor (b_flags b) B_DIRTY) b)); try done;
    [| |apply Hr|apply Hr].
  - intros k' Hne. simpl. split_and!; try done; try lia. rewrite elem_of_union, elem_of_singleton. naive_solver.
  - unfold buf_rep. simpl. rewrite Hh. split; [right|done]. split_and!; try done; try lia.
    + right. split; [by destruct Hfl as [-> | ->]|]. apply elem_of_union_l, elem_of_singleton. done.
    + by rewrite <- Hm, <- Hk.
Qed.

Lemma holdingsleep_run i b s : bufs s !! i = Some b -> b_locked b = true -> b_lkpid b = pid ->
  holdingsleep pid i s = Ok true s.
Proof.
  intros Hb H1 H2. unfold holdingsleep. rewrite (bind_run _ _ _ _ _ (buf_at_run i b s Hb)).
  unfold ret. by rewrite H1, H2, Z.eqb_refl.
Qed.

(** iderw writes a dirty buffer. *)
Lemma iderw_write i b s :
  bufs s !! i = Some b -> b_locked b = true -> b_lkpid b = pid -> b_flags b = 6 ->
  0 <= b_blockno b < FSSIZE ->
  iderw pid true i s = Ok tt (mkBio (<[i := set_b_flags 2 b]> (bufs s)) (lru s)
    (<[b_key b := b_data b]> (disk s)) (trace s ++ [(b_key b, b_data b)])).
Proof.
  intros Hb H1 H2 H3 H4. unfold iderw.
  rewrite (bind_run _ _ _ _ _ (holdingsleep_run i b s Hb H1 H2)).
  rewrite (bind_run _ _ _ _ _ (buf_at_run i b s Hb)), H3. cbn [negb].
  change (Z.land 6 (Z.lor B_VALID B_DIRTY) =? B_VALID) with false. cbv iota.
  rewrite andb_false_r. unfold idestart_check.
  rewrite Z.geb_leb, (proj2 (Z.leb_gt _ _)) by lia. rewrite bind_ret_l.
  unfold ideintr. rewrite (bind_run _ _ _ _ _ (buf_at_run i b s Hb)).
  unfold has_flag at 1. rewrite H3. change (negb (Z.land 6 B_DIRTY =? 0)) with true. cbv iota.
  set (s1 := set_disk (<[b_key b := b_data b]> (disk s)) (trace s ++ [(b_key b, b_data b)]) s).
  rewrite (bind_run (modify _) _ s tt s1) by done.
  rewrite (upd_buf_run i b) by done. rewrite H3. done.
Qed.

(** iderw reads an invalid buffer. *)
Lemma iderw_read i b s :
  bufs s !! i = Some b -> b_locked b = true -> b_lkpid b = pid -> b_flags b = 0 ->
  0 <= b_blockno b < FSSIZE ->
  iderw pid true i s = Ok tt (set_bufs
    (<[i := set_b_flags 2 (set_b_data (disk_at (disk s) (b_key b)) b)]> (bufs s)) s).
Proof.
  intros Hb H1 H2 H3 H4. unfold iderw.
  rewrite (bind_run _ _ _ _ _ (holdingsleep_run i b s Hb H1 H2)).
  rewrite (bind_run _ _ _ _ _ (buf_at_run i b s Hb)), H3. cbn [negb].
  change (Z.land 0 (Z.lor B_VALID B_DIRTY) =? B_VALID) with false. cbv iota.
  rewrite andb_false_r. unfold idestart_check.
  rewrite Z.geb_leb, (proj2 (Z.leb_gt _ _)) by lia. rewrite bind_ret_l.
  unfold ideintr. rewrite (bind_run _ _ _ _ _ (buf_at_run i b s Hb)).
  unfold has_flag at 1. rewrite H3. change (negb (Z.land 0 B_DIRTY =? 0)) with false. cbv iota.
  rewrite bind_assoc, (bind_run (gets disk) _ s (disk s) s) by done.
  rewrite (bind_run _ _ _ _ _ (upd_buf_run i b _ s Hb)).
  set (b1 := set_b_data (disk_at (disk s) (b_key b)) b).
  set (s1 := set_bufs (<[i := b1]> (bufs s)) s).
  rewrite (upd_buf_run i b1 _ s1) by (apply list_lookup_insert_eq; by eapply lookup_lt_Some).
  unfold s1, set_bufs. simpl. rewrite list_insert_insert_eq, H3. done.
Qed.

Lemma law_bwrite_bio s v h k : bio_rep s v -> v_held v !! h = Some k ->
  exists s', op_bwrite h s = Ok tt s' /\ bio_rep s' (flush k v).
Proof.
  intros Hr Hh. destruct (held_buf s v h k Hr Hh) as (b & Hb & Hdev & Hk & Hl1 & Hl2 & Hl3 & Hfl & Hm & Hbn).
  set (b1 := set_b_flags 6 b). set (s1 := set_bufs (<[h := b1]> (bufs s)) s).
  assert (Hb1 : bufs s1 !! h = Some b1) by (apply list_lookup_insert_eq; by eapply lookup_lt_Some).
  eexists. split.
  { simpl. unfold Bio.bwrite. rewrite (bind_run _ _ _ _ _ (holdingsleep_run h b s Hb Hl1 Hl2)).
    cbn [negb]. rewrite (bind_run _ _ _ tt s1).
    - apply (iderw_write h b1 s1 Hb1); done.
    - rewrite (upd_buf_run h b) by done. by destruct Hfl as [-> | ->]. }
  eapply (rep_update s v h b (set_b_flags 2 b)); try done.
  - unfold s1. simpl. by rewrite list_insert_insert_eq.
  - intros k' Hne. simpl. rewrite fn_lookup_insert_ne by congruence. split_and!; try done; try lia.
    rewrite elem_of_difference, elem_of_singleton. naive_solver.
  - unfold buf_rep. simpl. rewrite Hh. split; [right|done].
    change (b_key (set_b_flags 2 b)) with (b_key b). split_and!; try done; try lia.
    + left. split; [done|]. rewrite Hk. set_solver.
    + by rewrite <- Hm, Hk.
  - intros k'. simpl. change (b_key b1) with (b_key b). change (b_data b1) with (b_data b).
    rewrite Hk, <- Hm. unfold disk_at. destruct (decide (k' = k)) as [->|Hne].
    + by rewrite fn_lookup_insert, lookup_insert_eq.
    + rewrite fn_lookup_insert_ne, lookup_insert_ne by done. apply Hr.
  - simpl. change (b_key b1) with (b_key b). change (b_data b1) with (b_data b).
    by rewrite Hk, Hm, (br_trace s v Hr).
Qed.

Lemma move_front (i : nat) l : NoDup l -> i ∈ l -> i :: filter (fun j => j <> i) l ≡ₚ l.
Proof.
  intros Hnd Hin. apply NoDup_Permutation.
  - apply NoDup_cons. split; [|by apply NoDup_filter]. rewrite list_elem_of_filter. tauto.
  - done.
  - intros j. rewrite elem_of_cons, list_elem_of_filter. destruct (decide (j = i)) as [->|]; tauto.
Qed.

Lemma lru_index s v i b : bio_rep s v -> bufs s !! i = Some b -> i ∈ lru s.
Proof.
  intros Hr Hb. rewrite (br_lru s v Hr). apply elem_of_seq. apply lookup_lt_Some in Hb.
  rewrite (br_len s v Hr) in Hb. lia.
Qed.

Lemma law_brelse_bio s v h k : bio_rep s v -> v_held v !! h = Some k ->
  k ∈ v_dirty v \/ v_mem v k = v_disk v k ->
  exists s', op_brelse h s = Ok tt s' /\ bio_rep s' (unhold h v).
Proof.
  intros Hr Hh Hc.
  destruct (held_buf s v h k Hr Hh) as (b & Hb & Hdev & Hk & Hl1 & Hl2 & Hl3 & Hfl & Hm & Hbn).
  set (b1 := set_b_lock false 0 b). set (s1 := set_bufs (<[h := b1]> (bufs s)) s).
  set (b2 := set_b_refcnt 0 b1). set (s2 := set_bufs (<[h := b2]> (bufs s)) s).
  assert (Hlt : (h < length (bufs s))%nat) by (by eapply lookup_lt_Some).
  eexists. split.
  { simpl. unfold Bio.brelse. rewrite (bind_run _ _ _ _ _ (holdingsleep_run h b s Hb Hl1 Hl2)).
    cbn [negb]. unfold releasesleep. rewrite (bind_run _ _ _ _ _ (upd_buf_run h b _ s Hb)).
    fold b1. fold s1. rewrite (bind_run _ _ _ tt s2).
    - rewrite (bind_run _ _ _ b2 s2) by (by apply buf_at_run, list_lookup_insert_eq).
      simpl. reflexivity.
    - rewrite (upd_buf_run h b1) by (by apply list_lookup_insert_eq).
      unfold s1, s2, set_bufs. simpl. rewrite list_insert_insert_eq, Hl3. done. }
  eapply (rep_update s v h b b2); try done.
  - simpl. apply move_front; [|by eapply lru_index].
    rewrite (br_lru s v Hr). apply NoDup_seq.
  - intros i Hne. simpl. by rewrite lookup_delete_ne.
  - destruct (br_buf s v Hr h b Hb) as [[(_ & _ & Hn)|(_ & _ & Hf & _)] _]; [congruence|].
    unfold buf_rep. simpl. rewrite lookup_delete_eq. split; [right|done].
    change (b_key b2) with (b_key b). split_and!; try done; try lia.
    + by rewrite Hk.
    + intros _ H2. rewrite Hk, <- Hm. destruct Hc as [Hc|Hc]; [|done].
      destruct Hf as [[_ Hf]|[Hf _]]; [|lia]. by rewrite Hk in Hf.
  - apply Hr.
  - apply Hr.
Qed.

(** ** bget's scans *)

Lemma find_cached_spec s dev bno l : (forall i, i ∈ l -> is_Some (bufs s !! i)) ->
  exists o, find_cached l dev bno s = Ok o s /\
    match o with
    | Some i => i ∈ l /\ exists b, bufs s !! i = Some b /\ b_key b = (dev, bno)
    | None => forall i b, i ∈ l -> bufs s !! i = Some b -> b_key b <> (dev, bno)
    end.
Proof.
  induction l as [|i l IH]; intros Hl.
  - exists None. split; [done|]. intros i b Hi. by apply not_elem_of_nil in Hi.
  - destruct (Hl i) as [b Hb]; [by left|]. cbn [find_cached].
    rewrite (bind_run _ _ _ _ _ (buf_at_run i b s Hb)).
    destruct ((b_dev b =? dev) && (b_blockno b =? bno)) eqn:E.
    + destruct_bool_hyps. exists (Some i). split; [done|]. split; [by left|].
      exists b. split; [done|]. unfold b_key. congruence.
    + destruct IH as (o & Ho & Hspec); [intros j Hj; apply Hl; by right|].
      exists o. split; [done|]. destruct o as [j|].
      * destruct Hspec as [? ?]. split; [by right|done].
      * intros j c Hj Hc. apply elem_of_cons in Hj as [->|Hj]; [|by eapply Hspec].
        simplify_eq. intros [= <- <-]. rewrite !Z.eqb_refl in E. done.
Qed.

Lemma find_unused_spec s l : (forall i, i ∈ l -> is_Some (bufs s !! i)) ->
  exists o, find_unused l s = Ok o s /\
    match o with
    | Some i => i ∈ l /\ exists b, bufs s !! i = Some b /\ b_refcnt b = 0 /\ has_flag b B_DIRTY = false
    | None => forall i b, i ∈ l -> bufs s !! i = Some b -> b_refcnt b <> 0 \/ has_flag b B_DIRTY = true
    end.
Proof.
  induction l as [|i l IH]; intros Hl.
  - exists None. split; [done|]. intros i b Hi. by apply not_elem_of_nil in Hi.
  - destruct (Hl i) as [b Hb]; [by left|]. cbn [find_unused].
    rewrite (bind_run _ _ _ _ _ (buf_at_run i b s Hb)).
    destruct ((b_refcnt b =? 0) && negb (has_flag b B_DIRTY)) eqn:E.
    + destruct_bool_hyps. exists (Some i). split; [done|]. split; [by left|]. by exists b.
    + destruct IH as (o & Ho & Hspec); [intros j Hj; apply Hl; by right|].
      exists o. split; [done|]. destruct o as [j|].
      * destruct Hspec as [? ?]. split; [by right|done].
      * intros j c Hj Hc. apply elem_of_cons in Hj as [->|Hj]; [|by eapply Hspec].
        simplify_eq. apply andb_false_iff in E as [E|E]; destruct_bool_hyps; auto.
Qed.

(** With fewer blocks pinned than there are buffers, one can be recycled. *)
Lemma unused_exists s v : bio_rep s v -> Z.of_nat (size (pinned v)) < NBUF ->
  ~ (forall i b, i ∈ lru s -> bufs s !! i = Some b -> b_refcnt b <> 0 \/ has_flag b B_DIRTY = true).
Proof.
  intros Hr Hsz Hall.
  assert (Hused : forall i b, bufs s !! i = Some b -> b_dev b = fsdev /\ b_key b ∈ pinned v).
  { intros i b Hb. pose proof (Hall i b (lru_index s v i b Hr Hb) Hb) as Hu.
    destruct (br_buf s v Hr i b Hb) as [Hc Hlk]. unfold pinned.
    destruct (v_held v !! i) as [k|] eqn:Hh.
    - destruct Hlk as (_ & _ & _ & <-). destruct Hc as [(_ & _ & [=])|(? & _)]. split; [done|].
      apply elem_of_union_r, elem_of_map_img. eauto.
    - destruct Hlk as [_ Hrc]. destruct Hu as [?|Hu]; [done|].
      destruct Hc as [(_ & Hf & _)|(? & _ & Hf & _)]; [unfold has_flag in Hu; by rewrite Hf in Hu|].
      split; [done|]. apply elem_of_union_l. destruct Hf as [[Hf _]|[_ Hf]]; [|done].
      unfold has_flag in Hu. by rewrite Hf in Hu. }
  assert (Hnd : NoDup (b_key <$> bufs s)).
  { apply NoDup_alt. intros i j k Hi Hj. rewrite list_lookup_fmap in Hi, Hj.
    destruct (bufs s !! i) as [b|] eqn:Hb; [|done]. destruct (bufs s !! j) as [b'|] eqn:Hb'; [|done].
    simpl in *. eapply (br_uniq s v Hr i j b b'); [done|done|by eapply Hused|congruence]. }
  assert (Hsub : list_to_set (b_key <$> bufs s) ⊆ pinned v).
  { intros k. rewrite elem_of_list_to_set. intros (b & -> & Hb)%list_elem_of_fmap.
    apply list_elem_of_lookup in Hb as [i Hb]. by eapply Hused. }
  apply subseteq_size in Hsub. rewrite size_list_to_set, length_fmap, (br_len s v Hr) in Hsub by done.
  unfold NBUF, MAXOPBLOCKS in *. lia.
Qed.

(** A clean unused buffer is given to a block that is not cached. *)
Lemma rep_recycle s v i b bno s' :
  bio_rep s v -> bufs s !! i = Some b -> b_refcnt b = 0 -> has_flag b B_DIRTY = false ->
  0 <= bno < FSSIZE ->
  (forall j c, bufs s !! j = Some c -> b_key c <> (fsdev, bno)) ->
  s' = set_bufs (<[i := mkBuf 2 fsdev bno true pid 1 (disk_at (disk s) (fsdev, bno))]> (bufs s)) s ->
  bio_rep s' (hold i (fsdev, bno) v) /\ v_held v !! i = None.
Proof.
  intros Hr Hb Hrc Hfl Hbno Hun ->. set (b' := mkBuf _ _ _ _ _ _ _). set (k := (fsdev, bno)) in *.
  destruct (br_buf s v Hr i b Hb) as [Hc Hlk].
  assert (Hnh : v_held v !! i = None).
  { destruct (v_held v !! i); [|done]. destruct Hlk as (_ & _ & Hx & _). lia. }
  split; [|done]. rewrite Hnh in *.
  assert (Hi : bufs (set_bufs (<[i := b']> (bufs s)) s) !! i = Some b').
  { apply list_lookup_insert_eq. by eapply lookup_lt_Some. }
  assert (Hlook : forall j c, <[i := b']> (bufs s) !! j = Some c -> j = i /\ c = b' \/ j <> i /\ bufs s !! j = Some c).
  { intros j c Hj. apply list_lookup_insert_Some in Hj as [(-> & <- & _)|[? ?]]; auto. }
  assert (Hkd : k ∉ v_dirty v).
  { intros Hin. destruct (br_dirty s v Hr k Hin) as (j & c & Hj & _ & He). by eapply Hun. }
  assert (Hkm : v_mem v k = v_disk v k).
  { apply (br_uncached s v Hr). intros j c Hj _. by eapply Hun. }
  split; simpl.
  - rewrite length_insert. apply Hr.
  - apply Hr.
  - intros j c Hj. destruct (Hlook j c Hj) as [[-> ->]|[Hne Hj']].
    + unfold buf_rep. simpl. rewrite lookup_insert_eq. split; [right|done]. change (b_key b') with k.
      split_and!; try done; try lia; [by left|]. rewrite Hkm. apply Hr.
    + unfold buf_rep. simpl. rewrite lookup_insert_ne by done. by apply (br_buf s v Hr).
  - intros j j' c c' Hj Hj' Hd He.
    destruct (Hlook j c Hj) as [[-> ->]|[Hn1 H1]], (Hlook j' c' Hj') as [[-> ->]|[Hn2 H2]]; try done.
    + by destruct (Hun j' c' H2).
    + by destruct (Hun j c H1).
    + by eapply (br_uniq s v Hr).
  - intros j k' Hj. destruct (decide (j = i)) as [->|Hne]; [exists b'; exact Hi|].
    rewrite lookup_insert_ne in Hj by done. rewrite list_lookup_insert_ne by done.
    by eapply (br_held s v Hr).
  - intros k' Hk'. destruct (br_dirty s v Hr k' Hk') as (j & c & Hj & Hd & He).
    exists j, c. split; [|done]. rewrite list_lookup_insert_ne; [done|]. intros ->. simplify_eq.
    destruct Hc as [(Hd0 & _)|(_ & _ & [[_ Hf]|[Hf _]] & _)]; [by rewrite Hd0 in Hd|done|].
    unfold has_flag in Hfl. by rewrite Hf in Hfl.
  - intros k' Hk'. destruct (decide (b_dev b = fsdev /\ b_key b = k')) as [[Hd <-]|Hno].
    + destruct Hc as [(Hd0 & _)|(_ & _ & Hf & Hm & Hcl)]; [by rewrite Hd0 in Hd|].
      destruct Hf as [[Hf _]|[Hf _]]; [by rewrite Hm, Hcl|]. unfold has_flag in Hfl. by rewrite Hf in Hfl.
    + apply (br_uncached s v Hr). intros j c Hj Hd He. destruct (decide (j = i)) as [->|Hne].
      * simplify_eq. by apply Hno.
      * by apply (Hk' j c); [rewrite list_lookup_insert_ne| |].
  - apply Hr.
  - apply Hr.
Qed.

Lemma acquiresleep_run i b s : bufs s !! i = Some b -> b_locked b = false ->
  acquiresleep pid i s = Ok tt (set_bufs (<[i := set_b_lock true pid b]> (bufs s)) s).
Proof.
  intros Hb Hl. unfold acquiresleep. rewrite (bind_run _ _ _ _ _ (buf_at_run i b s Hb)), Hl.
  by apply upd_buf_run.
Qed.

Lemma upd_acquire i b f s : bufs s !! i = Some b -> b_locked (f b) = false ->
  (upd_buf i f ;; acquiresleep pid i ;; ret i) s =
  Ok i (set_bufs (<[i := set_b_lock true pid (f b)]> (bufs s)) s).
Proof.
  intros Hb Hl. rewrite (bind_run _ _ _ _ _ (upd_buf_run i b f s Hb)).
  set (s1 := set_bufs _ s).
  rewrite (bind_run _ _ _ _ _ (acquiresleep_run i (f b) s1
    (list_lookup_insert_eq _ _ _ (lookup_lt_Some _ _ _ Hb)) Hl)).
  unfold ret, s1, set_bufs. simpl. by rewrite list_insert_insert_eq.
Qed.

Lemma law_bread_bio s v b : bio_rep s v -> 0 <= b < FSSIZE ->
  (forall h, v_held v !! h <> Some (fsdev, b)) ->
  (fsdev, b) ∈ v_dirty v \/ Z.of_nat (size (pinned v)) < NBUF ->
  exists h s', op_bread fsdev b s = Ok h s' /\ v_held v !! h = None /\
    bio_rep s' (hold h (fsdev, b) v).
Proof.
  intros Hr Hb Hnh Hcap. simpl.
  assert (Hidx : forall i, i ∈ lru s -> is_Some (bufs s !! i)).
  { intros i Hi. rewrite (br_lru s v Hr) in Hi. apply elem_of_seq in Hi.
    apply lookup_lt_is_Some_2. rewrite (br_len s v Hr). lia. }
  destruct (find_cached_spec s fsdev b (lru s) Hidx) as (o & Ho & Hspec).
  unfold Bio.bread, bget. rewrite bind_assoc, (bind_run (gets lru) _ s (lru s) s) by done.
  rewrite bind_assoc, (bind_run _ _ _ _ _ Ho). destruct o as [i|].
  - (* cached *)
    destruct Hspec as (_ & c & Hc & Hk).
    assert (Hdev : b_dev c = fsdev) by (unfold b_key in Hk; congruence).
    destruct (br_buf s v Hr i c Hc) as [Hc1 Hlk].
    assert (Hh : v_held v !! i = None).
    { destruct (v_held v !! i) as [k'|] eqn:E; [|done]. destruct Hlk as (_ & _ & _ & <-).
      by rewrite <- Hk in Hnh; destruct (Hnh i). }
    rewrite Hh in Hlk, Hc1. destruct Hlk as [Hl Hrc].
    destruct Hc1 as [(Hd0 & _)|(_ & _ & Hf & Hm & _)]; [by rewrite Hd0 in Hdev|].
    set (c' := set_b_lock true pid (set_b_refcnt (b_refcnt c + 1) c)).
    set (s' := set_bufs (<[i := c']> (bufs s)) s).
    exists i, s'. split; [|split; [done|]].
    + rewrite (bind_run _ _ _ i s' (upd_acquire i c (fun b => set_b_refcnt (b_refcnt b + 1) b) s Hc Hl)).
      rewrite (bind_run _ _ _ c' s')
        by (apply buf_at_run, list_lookup_insert_eq; by eapply lookup_lt_Some).
      unfold has_flag. change (b_flags c') with (b_flags c).
      by destruct Hf as [[-> _]|[-> _]].
    + eapply (rep_update s v i c c'); try done; [| |apply Hr|apply Hr].
      * intros j Hne. simpl. by rewrite lookup_insert_ne.
      * unfold buf_rep. simpl. rewrite lookup_insert_eq. change (b_key c') with (b_key c).
        split; [right|by rewrite Hrc]. split_and!; try done; try lia;
          unfold b_key in Hk; injection Hk as _ Hk; lia.
  - (* recycled *)
    destruct Hcap as [Hin|Hcap].
    { destruct (br_dirty s v Hr _ Hin) as (i & c & Hi & _ & Hk).
      by destruct (Hspec i c (lru_index s v i c Hr Hi) Hi). }
    destruct (find_unused_spec s (reverse (lru s))) as (o & Ho' & Hsp).
    { intros i Hi. apply Hidx. by rewrite elem_of_reverse in Hi. }
    rewrite bind_assoc, (bind_run _ _ _ _ _ Ho'). destruct o as [i|].
    2:{ destruct (unused_exists s v Hr Hcap). intros i c Hi. apply Hsp. by rewrite elem_of_reverse. }
    destruct Hsp as (_ & c & Hc & Hrc & Hfl).
    edestruct (rep_recycle s v i c b) as [Hrep Hh]; [done|done|done|done|done| |reflexivity|].
    { intros j c' Hj. eapply Hspec; [by eapply lru_index|exact Hj]. }
    destruct (br_buf s v Hr i c Hc) as [_ Hlk]. rewrite Hh in Hlk. destruct Hlk as [Hl _].
    set (c1 := mkBuf 0 fsdev b true pid 1 (b_data c)). set (s1 := set_bufs (<[i := c1]> (bufs s)) s).
    assert (Hc1 : bufs s1 !! i = Some c1) by (apply list_lookup_insert_eq; by eapply lookup_lt_Some).
    eexists i, _. split; [|split; [done|exact Hrep]].
    rewrite (bind_run _ _ _ i s1 (upd_acquire i c
      (fun c => mkBuf 0 fsdev b (b_locked c) (b_lkpid c) 1 (b_data c)) s Hc Hl)).
    rewrite (bind_run _ _ _ c1 s1) by (by apply buf_at_run).
    change (negb (has_flag c1 B_VALID)) with true. unfold whenM.
    rewrite (bind_run _ _ _ _ _ (iderw_read i c1 s1 Hc1 eq_refl eq_refl eq_refl Hb)).
    unfold ret, s1, set_bufs. simpl. by rewrite list_insert_insert_eq.
Qed.

#[global] Instance bio_laws : BufLaws bio := {
  bl_rep := bio_rep;
  law_bread := law_bread_bio;
  law_data := law_data_bio;
  law_set := law_set_bio;
  law_blockno := law_blockno_bio;
  law_dirty := law_dirty_bio;
  law_bwrite := law_bwrite_bio;
  law_brelse := law_brelse_bio
}.

End bioproof.
End BioProof.
