(* ===== verification/LogProof.v ===== *)
(** * Correctness of the log

    [wpl] is a weakest precondition for log routines over the abstract view of
    the cache.  Copying a block through the cache is [copy]; write_log and
    install_trans are sequences of copies, commit is described by the exact
    list of disk writes it makes, and recovery of any prefix of that list
    gives the old or the new content of the whole transaction. *)
From stdpp Require Import functions.
From S2P Require Import Prelude Words Params Bio Buf Log.

Module LogProof.
Import Log.

(** ** Writes *)

Definition apply_writes (f : key -> block) (ws : list (key * block)) : key -> block :=
  foldl (fun f '(k, d) => <[k := d]> f) f ws.

Lemma apply_writes_app f ws1 ws2 :
  apply_writes f (ws1 ++ ws2) = apply_writes (apply_writes f ws1) ws2.
Proof. apply foldl_app. Qed.

Lemma apply_writes_notin ws : forall f k, k ∉ ws.*1 -> apply_writes f ws k = f k.
Proof.
  induction ws as [|[k' d] ws IH]; intros f k Hk; [done|]. simpl in *.
  apply not_elem_of_cons in Hk as [Hne Hk]. rewrite IH by done. by apply fn_lookup_insert_ne.
Qed.

Lemma apply_writes_in ws : forall f k d, NoDup ws.*1 -> (k, d) ∈ ws -> apply_writes f ws k = d.
Proof.
  induction ws as [|[k' d'] ws IH]; intros f k d Hnd Hin; [by apply not_elem_of_nil in Hin|].
  simpl in *. apply NoDup_cons in Hnd as [Hk Hnd].
  apply elem_of_cons in Hin as [[= -> ->]|Hin]; [|by apply IH].
  rewrite apply_writes_notin by done. apply fn_lookup_insert.
Qed.

(** ** The header block *)

(** The blocks of a transaction fit the header and can be stored in ints. *)
Definition block_ok (b : Z) : Prop := 0 <= b < FSSIZE.

Lemma length_head_bytes bl n :
  n = zlen bl -> length (head_bytes n bl) = (4 + 4 * length bl)%nat.
Proof.
  intros ->. unfold head_bytes, zlen. rewrite Nat2Z.id, firstn_all, length_app, length_le_bytes.
  f_equal. induction bl as [|b bl IH]; [done|]. cbn [fmap list_fmap concat].
  rewrite length_app, length_le_bytes, IH. simpl. lia.
Qed.

Lemma head_written bl d :
  length d = Z.to_nat BSIZE -> (length bl <= 30)%nat -> Forall block_ok bl ->
  let h := splice 0 (head_bytes (zlen bl) bl) d in
  head_n h = zlen bl /\ (forall i b, bl !! i = Some b -> head_block h i = b) /\
  length h = Z.to_nat BSIZE.
Proof.
  intros Hd Hl Hok h. change (Z.to_nat BSIZE) with 512%nat in *.
  pose proof (length_head_bytes bl _ eq_refl) as Hhb.
  assert (Hh : forall off n, (off + n <= length (head_bytes (zlen bl) bl))%nat ->
    slice off n h = slice off n (head_bytes (zlen bl) bl)).
  { intros off n Ho. unfold h, splice. rewrite take_0, app_nil_l. by apply slice_app_l. }
  split_and!.
  - unfold head_n. rewrite Hh by lia. unfold head_bytes. rewrite slice_app_l by len.
    rewrite slice_all by len. apply s32_le_val. unfold zlen. lia.
  - intros i b Hi. pose proof (lookup_lt_Some _ _ _ Hi). unfold head_block. rewrite Hh by lia.
    unfold head_bytes. rewrite slice_app_r by len. rewrite length_le_bytes.
    unfold zlen. rewrite Nat2Z.id, firstn_all.
    replace (4 + 4 * i - 4)%nat with (4 * i)%nat by lia. rewrite (slice_concat_words _ _ b) by done.
    apply s32_le_val. pose proof (Forall_lookup_1 _ _ _ _ Hok Hi) as Hb.
    unfold block_ok, FSSIZE in Hb. lia.
  - unfold h. rewrite length_splice; lia.
Qed.

Section logproof.
Context {T : Type} `{BL : BufLaws T}.

(** ** Weakest preconditions over the view *)

Definition wpl {A} (m : M (log * T) A) (l : log) (v : bview) (Q : A -> log -> bview -> Prop) : Prop :=
  forall t, bl_rep t v -> exists a l' t' v', m (l, t) = Ok a (l', t') /\ bl_rep t' v' /\ Q a l' v'.

Lemma wpl_bind {A A'} (m : M (log * T) A) (k : A -> M (log * T) A') l v Q :
  wpl m l v (fun a l' v' => wpl (k a) l' v' Q) -> wpl (bind m k) l v Q.
Proof.
  intros Hm t Ht. destruct (Hm t Ht) as (a & l1 & t1 & v1 & H1 & Hr1 & Hk).
  destruct (Hk t1 Hr1) as (b & l2 & t2 & v2 & H2 & Hr2 & HQ).
  exists b, l2, t2, v2. by rewrite (bind_run _ _ _ _ _ H1).
Qed.

Lemma wpl_mono {A} (m : M (log * T) A) l v (Q Q' : A -> log -> bview -> Prop) :
  wpl m l v Q -> (forall a l' v', Q a l' v' -> Q' a l' v') -> wpl m l v Q'.
Proof.
  intros Hm HQ t Ht. destruct (Hm t Ht) as (a & l' & t' & v' & H1 & H2 & H3).
  exists a, l', t', v'. auto.
Qed.

Lemma wpl_ret {A} (a : A) l v (Q : A -> log -> bview -> Prop) : Q a l v -> wpl (ret a) l v Q.
Proof. intros HQ t Ht. by exists a, l, t, v. Qed.

Lemma wpl_lg l v (Q : log -> log -> bview -> Prop) : Q l l v -> wpl lg l v Q.
Proof. intros HQ t Ht. by exists l, l, t, v. Qed.

Lemma wpl_upd f l v (Q : unit -> log -> bview -> Prop) : Q tt (f l) v -> wpl (upd_lg f) l v Q.
Proof. intros HQ t Ht. by exists tt, (f l), t, v. Qed.

Lemma wpl_aget {A} (xs : list A) i x l v (Q : A -> log -> bview -> Prop) :
  zget xs i = Some x -> Q x l v -> wpl (aget xs i) l v Q.
Proof. intros Hx HQ t Ht. exists x, l, t, v. by rewrite (aget_run _ _ _ _ Hx). Qed.

Lemma wpl_on_ex {A} (m : M T A) l v (Q : A -> log -> bview -> Prop) :
  (forall t, bl_rep t v -> exists a t' v', m t = Ok a t' /\ bl_rep t' v' /\ Q a l v') ->
  wpl (on m) l v Q.
Proof.
  intros Hm t Ht. destruct (Hm t Ht) as (a & t' & v' & H1 & H2 & H3).
  exists a, l, t', v'. split; [|done]. unfold on, zoom. simpl. by rewrite H1.
Qed.

Lemma wpl_bread b l v (Q : nat -> log -> bview -> Prop) :
  block_ok b -> (forall h, v_held v !! h <> Some (fsdev, b)) ->
  (fsdev, b) ∈ v_dirty v \/ Z.of_nat (size (pinned v)) < NBUF ->
  (forall h, v_held v !! h = None -> Q h l (hold h (fsdev, b) v)) ->
  wpl (on (op_bread fsdev (u32 b))) l v Q.
Proof.
  intros Hb Hh Hc HQ. rewrite u32_small by (unfold block_ok, FSSIZE in Hb; lia).
  apply wpl_on_ex. intros t Ht.
  destruct (law_bread t v b Ht Hb Hh Hc) as (h & t' & H1 & H2 & H3). eauto 10.
Qed.

Lemma wpl_data h k l v (Q : block -> log -> bview -> Prop) :
  v_held v !! h = Some k -> Q (v_mem v k) l v -> wpl (on (op_data h)) l v Q.
Proof.
  intros Hh HQ. apply wpl_on_ex. intros t Ht. pose proof (law_data t v h k Ht Hh). eauto 10.
Qed.

Lemma wpl_set h k d l v (Q : unit -> log -> bview -> Prop) :
  v_held v !! h = Some k -> Q tt l (store_mem k d v) -> wpl (on (op_set h d)) l v Q.
Proof.
  intros Hh HQ. apply wpl_on_ex. intros t Ht.
  destruct (law_set t v h k d Ht Hh) as (t' & ? & ?). eauto 10.
Qed.

Lemma wpl_bwrite h k l v (Q : unit -> log -> bview -> Prop) :
  v_held v !! h = Some k -> Q tt l (flush k v) -> wpl (on (op_bwrite h)) l v Q.
Proof.
  intros Hh HQ. apply wpl_on_ex. intros t Ht.
  destruct (law_bwrite t v h k Ht Hh) as (t' & ? & ?). eauto 10.
Qed.

Lemma wpl_brelse h k l v (Q : unit -> log -> bview -> Prop) :
  v_held v !! h = Some k -> k ∈ v_dirty v \/ v_mem v k = v_disk v k ->
  Q tt l (unhold h v) -> wpl (on (op_brelse h)) l v Q.
Proof.
  intros Hh Hk HQ. apply wpl_on_ex. intros t Ht.
  destruct (law_brelse t v h k Ht Hh Hk) as (t' & ? & ?). eauto 10.
Qed.

Lemma size_add (X : gset key) k : (size (X ∪ {[k]}) <= Datatypes.S (size X))%nat.
Proof.
  rewrite size_union_alt. assert (Hs : {[k]} ∖ X ⊆ ({[k]} : gset key)) by (intros x; by rewrite elem_of_difference; intros []).
  apply subseteq_size in Hs. rewrite size_singleton in Hs. lia.
Qed.

(** ** Copying a block *)

(** Block [ks] is copied to [kd] in the cache and written to the disk. *)
Definition copy (v : bview) (ks kd : key) : bview :=
  mkView (<[kd := v_mem v ks]> (v_mem v)) (<[kd := v_mem v ks]> (v_disk v))
    (v_trace v ++ [(kd, v_mem v ks)]) (v_held v) (v_dirty v ∖ {[kd]}).

Lemma store_flush k d v :
  flush k (store_mem k d v) =
  mkView (<[k := d]> (v_mem v)) (<[k := d]> (v_disk v)) (v_trace v ++ [(k, d)]) (v_held v)
    (v_dirty v ∖ {[k]}).
Proof. unfold flush, store_mem. simpl. by rewrite fn_lookup_insert. Qed.

(** The body of the copy loops, for the two orders in which they pick up the
    source and the destination. *)
Lemma copy_body_dst_first bd bs l v (Q : unit -> log -> bview -> Prop) (k : M (log * T) unit) b tail :
  block_ok bd -> block_ok bs -> bd <> bs -> v_held v = ∅ ->
  zget (l_block l) tail = Some b -> u32 b = bs ->
  (fsdev, bs) ∈ v_dirty v -> (fsdev, bd) ∉ v_dirty v -> Z.of_nat (size (v_dirty v)) < NBUF ->
  wpl k l (copy v (fsdev, bs) (fsdev, bd)) Q ->
  wpl (to <- on (op_bread fsdev (u32 bd)) ;;
       b <- aget (l_block l) tail ;;
       from <- on (op_bread fsdev (u32 b)) ;;
       d <- on (op_data from) ;;
       on (op_set to d) ;;
       on (op_bwrite to) ;;
       on (op_brelse from) ;;
       on (op_brelse to) ;; k) l v Q.
Proof.
  intros Hd Hs Hne Hheld Hb Hub Hds Hdd Hcap Hk. set (kd := (fsdev, bd)) in *. set (ks := (fsdev, bs)) in *.
  assert (Hkne : kd <> ks) by (intros [= ?]; done).
  apply wpl_bind, wpl_bread; [done|by rewrite Hheld| |].
  { right. unfold pinned. rewrite Hheld, map_img_empty_L, union_empty_r_L. done. }
  intros h1 Hh1. apply wpl_bind, (wpl_aget _ _ b); [done|].
  apply wpl_bind. rewrite <- (u32_small bs) in Hub by (unfold block_ok, FSSIZE in Hs; lia).
  rewrite Hub. apply wpl_bread; [done| |by left|].
  { intros h. simpl. rewrite Hheld. destruct (decide (h = h1)) as [->|Hne1].
    - rewrite lookup_insert_eq. by intros [= ?].
    - by rewrite lookup_insert_ne. }
  intros h2 Hh2. simpl in Hh2.
  assert (Hhne : h1 <> h2) by (intros ->; by rewrite lookup_insert_eq in Hh2).
  apply wpl_bind, (wpl_data h2 ks); [apply lookup_insert_eq|].
  apply wpl_bind, (wpl_set h1 kd).
  { simpl. rewrite lookup_insert_ne by done. apply lookup_insert_eq. }
  apply wpl_bind, (wpl_bwrite h1 kd).
  { simpl. rewrite lookup_insert_ne by done. apply lookup_insert_eq. }
  rewrite store_flush. simpl.
  apply wpl_bind, (wpl_brelse h2 ks); [apply lookup_insert_eq|left; set_solver|].
  apply wpl_bind, (wpl_brelse h1 kd).
  { simpl. rewrite lookup_delete_ne by done. rewrite lookup_insert_ne by done. apply lookup_insert_eq. }
  { right. simpl. by rewrite !fn_lookup_insert. }
  unfold unhold. simpl. unfold copy in Hk. rewrite Hheld in *.
  rewrite (delete_insert_id (<[h1:=kd]> ∅)) by (by rewrite lookup_insert_ne).
  rewrite delete_insert_id by done. exact Hk.
Qed.

Lemma copy_body_src_first bd bs l v (Q : unit -> log -> bview -> Prop) (k : M (log * T) unit) b tail :
  block_ok bd -> block_ok bs -> bd <> bs -> v_held v = ∅ ->
  zget (l_block l) tail = Some b -> u32 b = bd ->
  v_mem v (fsdev, bs) = v_disk v (fsdev, bs) ->
  Z.of_nat (size (v_dirty v)) < NBUF ->
  (fsdev, bd) ∈ v_dirty v \/ Z.of_nat (size (v_dirty v)) + 1 < NBUF ->
  wpl k l (copy v (fsdev, bs) (fsdev, bd)) Q ->
  wpl (lbuf <- on (op_bread fsdev (u32 bs)) ;;
       b <- aget (l_block l) tail ;;
       dbuf <- on (op_bread fsdev (u32 b)) ;;
       d <- on (op_data lbuf) ;;
       on (op_set dbuf d) ;;
       on (op_bwrite dbuf) ;;
       on (op_brelse lbuf) ;;
       on (op_brelse dbuf) ;; k) l v Q.
Proof.
  intros Hd Hs Hne Hheld Hb Hub Hclean Hcap Hcap2 Hk.
  set (kd := (fsdev, bd)) in *. set (ks := (fsdev, bs)) in *.
  assert (Hkne : kd <> ks) by (intros [= ?]; done).
  apply wpl_bind, wpl_bread; [done|by rewrite Hheld| |].
  { right. unfold pinned. rewrite Hheld, map_img_empty_L, union_empty_r_L. done. }
  intros h1 Hh1. apply wpl_bind, (wpl_aget _ _ b); [done|].
  apply wpl_bind. rewrite <- (u32_small bd) in Hub by (unfold block_ok, FSSIZE in Hd; lia).
  rewrite Hub. apply wpl_bread; [done| | |].
  { intros h. simpl. rewrite Hheld. destruct (decide (h = h1)) as [->|Hne1].
    - rewrite lookup_insert_eq. by intros [= ?].
    - by rewrite lookup_insert_ne. }
  { destruct Hcap2 as [?|Hlt]; [by left|right]. unfold pinned. simpl.
    rewrite Hheld, map_img_insert_notin_L, map_img_empty_L, union_empty_r_L by done.
    pose proof (size_add (v_dirty v) (fsdev, bs)). lia. }
  intros h2 Hh2. simpl in Hh2.
  assert (Hhne : h1 <> h2) by (intros ->; by rewrite lookup_insert_eq in Hh2).
  assert (Hh1' : <[h2:=kd]> (<[h1:=ks]> (v_held v)) !! h1 = Some ks).
  { rewrite lookup_insert_ne by done. apply lookup_insert_eq. }
  apply wpl_bind, (wpl_data h1 ks); [done|].
  apply wpl_bind, (wpl_set h2 kd); [apply lookup_insert_eq|].
  apply wpl_bind, (wpl_bwrite h2 kd); [apply lookup_insert_eq|].
  rewrite store_flush. simpl.
  apply wpl_bind, (wpl_brelse h1 ks); [done| |].
  { right. simpl. by rewrite !fn_lookup_insert_ne. }
  apply wpl_bind, (wpl_brelse h2 kd).
  { simpl. rewrite lookup_delete_ne by done. apply lookup_insert_eq. }
  { right. simpl. by rewrite !fn_lookup_insert. }
  unfold unhold. simpl. unfold copy in Hk. rewrite Hheld in *.
  rewrite delete_delete, (delete_insert_id (<[h1:=ks]> ∅)) by (by rewrite lookup_insert_ne).
  rewrite delete_insert_id by done. exact Hk.
Qed.

(** ** Sequences of copies *)

Definition copies (v : bview) (ps : list (key * key)) : bview :=
  foldl (fun v '(ks, kd) => copy v ks kd) v ps.

Definition writes_of (f : key -> block) (ps : list (key * key)) : list (key * block) :=
  (fun '(ks, kd) => (kd, f ks)) <$> ps.

Lemma writes_of_fst f ps : (writes_of f ps).*1 = ps.*2.
Proof. unfold writes_of. rewrite <- list_fmap_compose. apply list_fmap_ext. by intros ? []. Qed.

Lemma writes_of_ext f g ps : (forall k, k ∈ ps.*1 -> f k = g k) -> writes_of f ps = writes_of g ps.
Proof.
  intros Hfg. apply list_fmap_ext. intros i [ks kd] Hi. rewrite Hfg; [done|].
  apply list_elem_of_fmap. exists (ks, kd). split; [done|]. by eapply list_elem_of_lookup_2.
Qed.

(** When no source is a destination, the copies write the old contents. *)
Lemma copies_facts ps : forall v,
  (forall k, k ∈ ps.*1 -> k ∉ ps.*2) ->
  let w := writes_of (v_mem v) ps in
  v_mem (copies v ps) = apply_writes (v_mem v) w /\
  v_disk (copies v ps) = apply_writes (v_disk v) w /\
  v_trace (copies v ps) = v_trace v ++ w /\ v_held (copies v ps) = v_held v /\
  v_dirty (copies v ps) = v_dirty v ∖ list_to_set ps.*2.
Proof.
  induction ps as [|[ks kd] ps IH]; intros v Hdis.
  - simpl. rewrite app_nil_r, difference_empty_L. done.
  - cbn [copies foldl fmap list_fmap writes_of fst snd] in *.
    destruct (IH (copy v ks kd)) as (H1 & H2 & H3 & H4 & H5).
    { intros k Hk. specialize (Hdis k). set_solver. }
    assert (Hw : writes_of (v_mem (copy v ks kd)) ps = writes_of (v_mem v) ps).
    { apply writes_of_ext. intros k Hk. simpl. apply fn_lookup_insert_ne.
      intros ->. apply (Hdis k); [by right|by left]. }
    rewrite Hw in *. unfold copies in *. rewrite H1, H2, H3, H4, H5. simpl.
    split_and!; try done; [by rewrite <- app_assoc|]. set_solver.
Qed.

(** ** The transaction *)

Definition dkey (b : Z) : key := (fsdev, b).
Definition lkey (l : log) (i : nat) : key := (fsdev, l_start l + Z.of_nat i + 1).
Definition hkey (l : log) : key := (fsdev, l_start l).

(** The log area lies on the disk and a transaction block outside of it. *)
Definition geom_ok (l : log) : Prop :=
  l_dev l = fsdev /\ 0 <= l_start l /\ l_start l + l_size l <= FSSIZE /\ l_size l <= LOGSIZE.

Definition outside (l : log) (b : Z) : Prop := b < l_start l \/ l_start l + l_size l <= b.

(** The header in memory lists the blocks [bl]. *)
Definition lists (l : log) (bl : list Z) : Prop :=
  geom_ok l /\ l_n l = zlen bl /\ zlen bl < l_size l /\ (exists tl, l_block l = bl ++ tl) /\
  Forall block_ok bl /\ Forall (outside l) bl /\ NoDup bl.

(** Copies from home to log, and from log to home. *)
Fixpoint to_log (l : log) (bl : list Z) (i : nat) : list (key * key) :=
  match bl with [] => [] | b :: bl' => (dkey b, lkey l i) :: to_log l bl' (S i) end.
Fixpoint from_log (l : log) (bl : list Z) (i : nat) : list (key * key) :=
  match bl with [] => [] | b :: bl' => (lkey l i, dkey b) :: from_log l bl' (S i) end.

Lemma to_log_keys l bl : forall i,
  (to_log l bl i).*1 = dkey <$> bl /\ (to_log l bl i).*2 = lkey l <$> seq i (length bl).
Proof.
  induction bl as [|b bl IH]; intros i; [done|].
  destruct (IH (Datatypes.S i)) as [H1 H2].
  split; cbn [to_log from_log length seq]; rewrite !fmap_cons; f_equal; done.
Qed.

Lemma from_log_keys l bl : forall i,
  (from_log l bl i).*1 = lkey l <$> seq i (length bl) /\ (from_log l bl i).*2 = dkey <$> bl.
Proof.
  induction bl as [|b bl IH]; intros i; [done|].
  destruct (IH (Datatypes.S i)) as [H1 H2].
  split; cbn [to_log from_log length seq]; rewrite !fmap_cons; f_equal; done.
Qed.

Lemma lists_lookup l bl i b : lists l bl -> bl !! i = Some b ->
  zget (l_block l) (Z.of_nat i) = Some b /\ block_ok b /\ outside l b /\ u32 b = b /\
  Z.of_nat i < l_n l /\ block_ok (l_start l + Z.of_nat i + 1) /\
  outside l b /\ ~ outside l (l_start l + Z.of_nat i + 1).
Proof.
  intros ((_ & H0 & H1 & _) & Hn & Hlt & (tl & ->) & Hok & Hout & _) Hi.
  pose proof (Forall_lookup_1 _ _ _ _ Hok Hi) as Hb. pose proof (Forall_lookup_1 _ _ _ _ Hout Hi).
  pose proof (lookup_lt_Some _ _ _ Hi). rewrite zget_nat. unfold zlen, block_ok, outside, FSSIZE in *.
  split_and!; try done; try lia; [by apply lookup_app_l_Some|]. apply u32_small. lia.
Qed.

Lemma write_log_loop_spec bl : forall pre l v (Q : unit -> log -> bview -> Prop),
  lists l (pre ++ bl) -> v_held v = ∅ -> Z.of_nat (size (v_dirty v)) < NBUF ->
  (forall b, b ∈ bl -> dkey b ∈ v_dirty v) ->
  (forall b, dkey b ∈ v_dirty v -> outside l b) ->
  Q tt l (copies v (to_log l bl (length pre))) ->
  wpl (write_log_loop (length bl) (Z.of_nat (length pre))) l v Q.
Proof.
  induction bl as [|b bl IH]; intros pre l v Q Hl Hheld Hcap Hd Ho HQ; cbn [write_log_loop length];
    apply wpl_bind, wpl_lg; pose proof Hl as ((Hdev & _) & Hn & _).
  - rewrite app_nil_r in Hn. unfold zlen in Hn. rewrite Hn, Z.ltb_irrefl. by apply wpl_ret.
  - destruct (lists_lookup l (pre ++ b :: bl) (length pre) b Hl) as
      (Hz & Hb & Hob & Hu & Hlt & Hlb & _ & Hnl); [by apply list_lookup_middle|].
    rewrite (proj2 (Z.ltb_lt _ _) Hlt), Hdev.
    eapply (copy_body_dst_first _ b); try done.
    + intros <-. done.
    + apply Hd. by left.
    + intros Hin. by apply Ho in Hin.
    + replace (Z.of_nat (length pre) + 1) with (Z.of_nat (length (pre ++ [b]))) by len.
      apply IH; simpl.
      * by rewrite <- app_assoc.
      * done.
      * eapply Z.le_lt_trans; [|exact Hcap]. apply inj_le, subseteq_size. set_solver.
      * intros x Hx. apply elem_of_difference. split; [apply Hd; by right|].
        intros Heq%elem_of_singleton. injection Heq as ->.
        apply Hnl, Ho, Hd. by right.
      * intros x Hx. apply Ho. set_solver.
      * rewrite length_app, Nat.add_1_r. exact HQ.
Qed.

Lemma install_loop_spec bl : forall pre l v (Q : unit -> log -> bview -> Prop),
  lists l (pre ++ bl) -> v_held v = ∅ -> Z.of_nat (size (v_dirty v)) < NBUF ->
  (forall b, b ∈ bl -> dkey b ∈ v_dirty v) \/ v_dirty v = ∅ ->
  (forall i, (i < length (pre ++ bl))%nat -> v_mem v (lkey l i) = v_disk v (lkey l i)) ->
  Q tt l (copies v (from_log l bl (length pre))) ->
  wpl (install_trans_loop (length bl) (Z.of_nat (length pre))) l v Q.
Proof.
  induction bl as [|b bl IH]; intros pre l v Q Hl Hheld Hcap Hd Hclean HQ;
    cbn [install_trans_loop length];
    apply wpl_bind, wpl_lg; pose proof Hl as ((Hdev & _) & Hn & _).
  - rewrite app_nil_r in Hn. unfold zlen in Hn. rewrite Hn, Z.ltb_irrefl. by apply wpl_ret.
  - destruct (lists_lookup l (pre ++ b :: bl) (length pre) b Hl) as
      (Hz & Hb & Hob & Hu & Hlt & Hlb & _ & Hnl); [by apply list_lookup_middle|].
    rewrite (proj2 (Z.ltb_lt _ _) Hlt), Hdev.
    eapply (copy_body_src_first b); try done.
    + intros ->. done.
    + apply Hclean. len.
    + destruct Hd as [Hd|Hd]; [left; apply Hd; by left|right]. rewrite Hd, size_empty. done.
    + replace (Z.of_nat (length pre) + 1) with (Z.of_nat (length (pre ++ [b]))) by len.
      apply IH; simpl.
      * by rewrite <- app_assoc.
      * done.
      * eapply Z.le_lt_trans; [|exact Hcap]. apply inj_le, subseteq_size. set_solver.
      * destruct Hd as [Hd|Hd]; [left|right; set_solver]. intros x Hx.
        apply elem_of_difference. split; [apply Hd; by right|].
        intros Heq%elem_of_singleton. injection Heq as ->.
        destruct Hl as (_ & _ & _ & _ & _ & _ & Hnd). apply NoDup_app in Hnd as (_ & _ & Hnd).
        by apply NoDup_cons in Hnd as [? _].
      * intros i Hi. destruct (decide (lkey l i = (fsdev, b))) as [Heq|Hne];
          [by rewrite Heq, !fn_lookup_insert|rewrite !fn_lookup_insert_ne by done; apply Hclean].
        by rewrite <- app_assoc in Hi.
      * rewrite length_app, Nat.add_1_r. exact HQ.
Qed.

(** ** Whole routines *)

Definition put (k : key) (d : block) (v : bview) : bview :=
  mkView (<[k := d]> (v_mem v)) (<[k := d]> (v_disk v)) (v_trace v ++ [(k, d)]) (v_held v)
    (v_dirty v ∖ {[k]}).

Lemma geom_header l : geom_ok l -> 0 < l_size l -> block_ok (l_start l).
Proof. unfold geom_ok, block_ok. lia. Qed.

Lemma write_head_spec l v (Q : unit -> log -> bview -> Prop) :
  geom_ok l -> 0 < l_size l -> v_held v = ∅ -> Z.of_nat (size (v_dirty v)) < NBUF ->
  Q tt l (put (hkey l) (splice 0 (head_bytes (l_n l) (l_block l)) (v_mem v (hkey l))) v) ->
  wpl write_head l v Q.
Proof.
  intros Hg Hsz Hheld Hcap HQ. pose proof (geom_header l Hg Hsz) as Hb. destruct Hg as (Hdev & _).
  unfold write_head. apply wpl_bind, wpl_lg. rewrite Hdev.
  apply wpl_bind, wpl_bread; [done|by rewrite Hheld| |].
  { right. unfold pinned. by rewrite Hheld, map_img_empty_L, union_empty_r_L. }
  intros h Hh. apply wpl_bind, (wpl_data h (hkey l)); [apply lookup_insert_eq|].
  apply wpl_bind, (wpl_set h (hkey l)); [apply lookup_insert_eq|].
  apply wpl_bind, (wpl_bwrite h (hkey l)); [apply lookup_insert_eq|].
  rewrite store_flush. simpl.
  apply (wpl_brelse h (hkey l)); [apply lookup_insert_eq|right; simpl; by rewrite !fn_lookup_insert|].
  unfold unhold. simpl. rewrite delete_insert_id by done. exact HQ.
Qed.

Lemma lists_size l bl : lists l bl -> 0 < l_size l /\ (length bl <= 29)%nat.
Proof. intros ((_ & _ & _ & Hs) & _ & Hn & _). unfold zlen, LOGSIZE, MAXOPBLOCKS in *. lia. Qed.

Lemma lists_block l bl : lists l bl -> take (Z.to_nat (l_n l)) (l_block l) = bl.
Proof.
  intros (_ & -> & _ & (tl & ->) & _). unfold zlen. rewrite Nat2Z.id. apply take_app_length.
Qed.

Lemma lkey_notin l bl i : lists l bl -> (i < length bl)%nat -> lkey l i ∉ dkey <$> bl.
Proof.
  intros (_ & _ & Hn & _ & _ & Hout & _) Hi Hin.
  apply list_elem_of_fmap in Hin as (b & [= <-] & Hb).
  rewrite Forall_forall in Hout. specialize (Hout _ Hb). unfold outside, zlen in *. lia.
Qed.

Lemma hkey_notin l bl : lists l bl -> hkey l ∉ dkey <$> bl.
Proof.
  intros (_ & _ & Hn & _ & _ & Hout & _) Hin.
  apply list_elem_of_fmap in Hin as (b & [= <-] & Hb).
  rewrite Forall_forall in Hout. specialize (Hout _ Hb). unfold outside, zlen in *. lia.
Qed.

Lemma hkey_lkey l i : hkey l <> lkey l i.
Proof. unfold hkey, lkey. intros [=]. lia. Qed.

Lemma lkey_inj l : Inj (=) (=) (lkey l).
Proof. intros i j [=]. lia. Qed.

Lemma dkey_inj : Inj (=) (=) dkey.
Proof. by intros b b' [=]. Qed.

Lemma elem_of_lkeys l k n : k ∈ lkey l <$> seq 0 n -> exists i, k = lkey l i /\ (i < n)%nat.
Proof. intros (i & -> & Hi%elem_of_seq)%list_elem_of_fmap. exists i. split; [done|lia]. Qed.

(** The writes of a commit. *)
Definition log_writes (l : log) (bl : list Z) (f : key -> block) : list (key * block) :=
  writes_of f (to_log l bl 0).
Definition home_writes (bl : list Z) (f : key -> block) : list (key * block) :=
  (fun b => (dkey b, f (dkey b))) <$> bl.
Definition head_full (l : log) (bl : list Z) (d : block) : block := splice 0 (head_bytes (zlen bl) bl) d.
Definition head_clear (d : block) : block := splice 0 (le_bytes 4 0) d.

Definition commit_writes (l : log) (bl : list Z) (f : key -> block) : list (key * block) :=
  log_writes l bl f ++ [(hkey l, head_full l bl (f (hkey l)))] ++ home_writes bl f ++
  [(hkey l, head_clear (head_full l bl (f (hkey l))))].

Lemma head_bytes_lists l bl : lists l bl -> head_bytes (l_n l) (l_block l) = head_bytes (zlen bl) bl.
Proof.
  intros Hl. pose proof (lists_block l bl Hl) as Hb. destruct Hl as (_ & Hn & _).
  unfold head_bytes. rewrite Hb, Hn. f_equal. unfold zlen. by rewrite Nat2Z.id, firstn_all.
Qed.

Lemma write_log_spec l bl v (Q : unit -> log -> bview -> Prop) :
  lists l bl -> v_held v = ∅ -> v_dirty v = list_to_set (dkey <$> bl) ->
  Q tt l (mkView (apply_writes (v_mem v) (log_writes l bl (v_mem v)))
            (apply_writes (v_disk v) (log_writes l bl (v_mem v)))
            (v_trace v ++ log_writes l bl (v_mem v)) ∅ (v_dirty v)) ->
  wpl write_log l v Q.
Proof.
  intros Hl Hheld Hd HQ. pose proof (lists_size l bl Hl) as [_ Hlen].
  unfold write_log. apply wpl_bind, wpl_lg. pose proof Hl as (_ & Hn & _). rewrite Hn.
  unfold zlen. rewrite Nat2Z.id. apply (write_log_loop_spec bl [] l v Q); try done.
  - rewrite Hd. pose proof (size_list_to_set (C := gset key) (dkey <$> bl)) as Hs.
    rewrite Hs, length_fmap; [unfold NBUF, MAXOPBLOCKS; lia|].
    apply NoDup_fmap_2; [apply dkey_inj|]. apply Hl.
  - intros b Hb. rewrite Hd. apply elem_of_list_to_set. by apply list_elem_of_fmap_2.
  - intros b. rewrite Hd, elem_of_list_to_set. intros (b' & [= <-] & Hb)%list_elem_of_fmap.
    destruct Hl as (_ & _ & _ & _ & _ & Hout & _). by eapply Forall_forall in Hout.
  - cbn [length]. destruct (to_log_keys l bl 0) as [Hk1 Hk2].
    destruct (copies_facts (to_log l bl 0) v) as (H1 & H2 & H3 & H4 & H5).
    { rewrite Hk1, Hk2. intros k Hin Hin'. apply elem_of_lkeys in Hin' as (i & -> & Hi).
      by eapply lkey_notin in Hi. }
    destruct (copies v (to_log l bl 0)). simpl in *. subst. rewrite Hheld, Hk2.
    rewrite difference_disjoint_L; [exact HQ|].
    rewrite Hd. intros k Hin Hin'. rewrite elem_of_list_to_set in Hin, Hin'.
    apply elem_of_lkeys in Hin' as (i & -> & Hi). by eapply lkey_notin in Hi.
Qed.

Lemma from_log_writes l bl : forall i (f g : key -> block),
  (forall j b, bl !! j = Some b -> f (lkey l (i + j)) = g (dkey b)) ->
  writes_of f (from_log l bl i) = home_writes bl g.
Proof.
  induction bl as [|b bl IH]; intros i f g Hf; [done|].
  unfold writes_of, home_writes in *. cbn [from_log]. rewrite !fmap_cons. f_equal.
  - f_equal. rewrite <- (Hf 0%nat b eq_refl). by rewrite Nat.add_0_r.
  - apply IH. intros j b' Hj. rewrite <- (Hf (Datatypes.S j) b' Hj). f_equal. f_equal. lia.
Qed.

Lemma home_writes_fst bl f : (home_writes bl f).*1 = dkey <$> bl.
Proof. unfold home_writes. rewrite <- list_fmap_compose. done. Qed.

Lemma install_trans_spec l bl v g (Q : unit -> log -> bview -> Prop) :
  lists l bl -> v_held v = ∅ -> v_dirty v = list_to_set (dkey <$> bl) \/ v_dirty v = ∅ ->
  (forall i b, bl !! i = Some b ->
     v_mem v (lkey l i) = g (dkey b) /\ v_disk v (lkey l i) = g (dkey b)) ->
  Q tt l (mkView (apply_writes (v_mem v) (home_writes bl g))
            (apply_writes (v_disk v) (home_writes bl g)) (v_trace v ++ home_writes bl g) ∅ ∅) ->
  wpl install_trans l v Q.
Proof.
  intros Hl Hheld Hd Hg HQ. pose proof (lists_size l bl Hl) as [_ Hlen].
  assert (Hnd : NoDup (dkey <$> bl)) by (apply NoDup_fmap_2; [apply dkey_inj|apply Hl]).
  unfold install_trans. apply wpl_bind, wpl_lg. pose proof Hl as (_ & Hn & _). rewrite Hn.
  unfold zlen. rewrite Nat2Z.id. apply (install_loop_spec bl [] l v Q); try done.
  - destruct Hd as [-> | ->]; [|by rewrite size_empty].
    rewrite (size_list_to_set (C := gset key)), length_fmap by done. unfold NBUF, MAXOPBLOCKS. lia.
  - destruct Hd as [-> | ->]; [left|by right]. intros b Hb. apply elem_of_list_to_set.
    by apply list_elem_of_fmap_2.
  - intros i Hi. destruct (lookup_lt_is_Some_2 bl i Hi) as [b Hb].
    by destruct (Hg i b Hb) as [-> ->].
  - cbn [length]. destruct (from_log_keys l bl 0) as [Hk1 Hk2].
    destruct (copies_facts (from_log l bl 0) v) as (H1 & H2 & H3 & H4 & H5).
    { rewrite Hk1, Hk2. intros k Hin Hin'. apply elem_of_lkeys in Hin as (i & -> & Hi).
      by eapply lkey_notin in Hi. }
    rewrite (from_log_writes l bl 0 (v_mem v) g) in * by (intros j b Hj; by apply Hg).
    destruct (copies v (from_log l bl 0)). simpl in *. subst. rewrite Hheld, Hk2.
    replace (v_dirty v ∖ list_to_set (dkey <$> bl)) with (∅ : gset key); [exact HQ|].
    destruct Hd as [-> | ->]; [by rewrite difference_diag_L|set_solver].
Qed.

Lemma log_writes_at l bl f g i b : lists l bl -> bl !! i = Some b ->
  apply_writes g (log_writes l bl f) (lkey l i) = f (dkey b).
Proof.
  intros Hl Hi. destruct (to_log_keys l bl 0) as [Hk1 Hk2]. apply apply_writes_in.
  - unfold log_writes. rewrite writes_of_fst, Hk2. apply NoDup_fmap_2; [apply lkey_inj|apply NoDup_seq].
  - unfold log_writes, writes_of. apply list_elem_of_fmap. exists (dkey b, lkey l i). split; [done|].
    clear Hk1 Hk2 Hl. revert i b Hi. enough (Hgen : forall j i b, bl !! i = Some b ->
      (dkey b, lkey l (j + i)) ∈ to_log l bl j) by (intros i b Hi; apply (Hgen 0%nat i b Hi)).
    induction bl as [|b0 bl IH]; intros j i b Hi; [done|]. cbn [to_log]. destruct i as [|i].
    + injection Hi as <-. rewrite Nat.add_0_r. by left.
    + right. replace (j + Datatypes.S i)%nat with (Datatypes.S j + i)%nat by lia. by apply IH.
Qed.

Lemma log_writes_other l bl f g k : lists l bl ->
  (forall i, (i < length bl)%nat -> k <> lkey l i) -> apply_writes g (log_writes l bl f) k = g k.
Proof.
  intros Hl Hk. apply apply_writes_notin. destruct (to_log_keys l bl 0) as [_ Hk2].
  unfold log_writes. rewrite writes_of_fst, Hk2. intros (i & -> & Hi)%elem_of_lkeys.
  by apply (Hk i).
Qed.

(** A state in which a transaction is ready to be committed: its blocks are
    pinned in the cache, everything else is clean. *)
Definition ready (l : log) (bl : list Z) (v : bview) : Prop :=
  lists l bl /\ v_held v = ∅ /\ v_dirty v = list_to_set (dkey <$> bl) /\
  length (v_mem v (hkey l)) = Z.to_nat BSIZE /\
  (forall k, k ∉ dkey <$> bl -> v_mem v k = v_disk v k).

Lemma commit_spec l bl v :
  ready l bl v -> bl <> [] ->
  wpl commit l v (fun _ l' v' =>
    l' = set_l_head 0 (l_block l) l /\ v_held v' = ∅ /\ v_dirty v' = ∅ /\
    let ws := commit_writes l bl (v_mem v) in
    v_mem v' = apply_writes (v_mem v) ws /\ v_disk v' = apply_writes (v_disk v) ws /\
    v_trace v' = v_trace v ++ ws).
Proof.
  intros (Hl & Hheld & Hd & Hlen & _) Hne. pose proof (lists_size l bl Hl) as [Hsz H29].
  pose proof Hl as (Hg & Hn & _).
  assert (Hcap : Z.of_nat (size (v_dirty v)) < NBUF).
  { rewrite Hd, (size_list_to_set (C := gset key)), length_fmap
      by (apply NoDup_fmap_2; [apply dkey_inj|apply Hl]). unfold NBUF, MAXOPBLOCKS. lia. }
  assert (Hhd : v_dirty v ∖ {[hkey l]} = v_dirty v).
  { apply difference_disjoint_L. rewrite Hd. intros k Hk Hk'.
    rewrite elem_of_list_to_set in Hk. apply elem_of_singleton in Hk' as ->.
    by eapply hkey_notin in Hk. }
  unfold commit. apply wpl_bind, wpl_lg. unfold whenM.
  rewrite Z.gtb_ltb, (proj2 (Z.ltb_lt _ _)) by (rewrite Hn; unfold zlen; destruct bl; [done|simpl; lia]).
  apply wpl_bind, (write_log_spec l bl v _ Hl Hheld Hd).
  apply wpl_bind, write_head_spec; [done|done|done|done|]. unfold put. simpl v_mem. simpl v_disk.
  simpl v_trace. simpl v_held. simpl v_dirty.
  rewrite (head_bytes_lists l bl Hl), Hhd.
  assert (Hmh : apply_writes (v_mem v) (log_writes l bl (v_mem v)) (hkey l) = v_mem v (hkey l)).
  { apply log_writes_other; [done|]. intros i _. apply hkey_lkey. }
  rewrite Hmh. fold (head_full l bl (v_mem v (hkey l))). set (hd := head_full _ _ _).
  apply wpl_bind, (install_trans_spec l bl _ (v_mem v) _ Hl); [done|by left| |].
  { intros i b Hi. simpl.
    rewrite !fn_lookup_insert_ne by (apply hkey_lkey).
    by rewrite !(log_writes_at l bl (v_mem v) _ i b). }
  simpl. apply wpl_bind, wpl_upd.
  apply write_head_spec; [done|done|done|done|]. unfold put. simpl.
  split; [done|]. split; [done|]. split; [set_solver|].
  assert (Hhd' : forall f, apply_writes f (home_writes bl (v_mem v)) (hkey l) = f (hkey l)).
  { intros f. apply apply_writes_notin. rewrite home_writes_fst. by apply hkey_notin. }
  change (hkey (set_l_head 0 (l_block l) l)) with (hkey l).
  rewrite Hhd', fn_lookup_insert. unfold commit_writes. fold hd.
  rewrite !apply_writes_app, !app_assoc. split_and!; done.
Qed.

(** ** Recovery *)

(** A freshly booted machine: nothing cached, nothing held. *)
Definition fresh (v : bview) : Prop :=
  v_held v = ∅ /\ v_dirty v = ∅ /\ forall k, v_mem v k = v_disk v k.

(** The header block on disk lists [bl]. *)
Definition on_disk (l : log) (bl : list Z) (d : block) : Prop :=
  head_n d = zlen bl /\ (forall i b, bl !! i = Some b -> head_block d i = b) /\
  zlen bl < l_size l /\ Forall block_ok bl /\ Forall (outside l) bl /\ NoDup bl.

Lemma read_head_spec l bl v (Q : unit -> log -> bview -> Prop) :
  geom_ok l -> fresh v -> on_disk l bl (v_disk v (hkey l)) ->
  (forall l', lists l' bl -> l_start l' = l_start l -> l_size l' = l_size l -> Q tt l' v) ->
  wpl read_head l v Q.
Proof.
  intros Hg (Hheld & Hd & Hclean) (Hn & Hb & Hlt & Hok & Hout & Hnd) HQ.
  assert (Hsz : 0 < l_size l) by (unfold zlen in Hlt; lia).
  pose proof (geom_header l Hg Hsz) as Hbo. pose proof Hg as (Hdev & _ & _ & HLS).
  unfold read_head. apply wpl_bind, wpl_lg. rewrite Hdev.
  apply wpl_bind, wpl_bread; [done|by rewrite Hheld| |].
  { right. unfold pinned. by rewrite Hheld, Hd, map_img_empty_L, union_empty_r_L, size_empty. }
  intros h Hh. apply wpl_bind, (wpl_data h (hkey l)); [apply lookup_insert_eq|].
  simpl v_mem. rewrite Hclean, Hn, (proj2 (Z.leb_le _ _)) by lia.
  apply wpl_bind, wpl_upd.
  apply (wpl_brelse h (hkey l)); [apply lookup_insert_eq|right; apply Hclean|].
  assert (Hv : unhold h (hold h (fsdev, l_start l) v) = v).
  { unfold unhold, hold. simpl. rewrite delete_insert_id by done. by destruct v. }
  rewrite Hv. apply HQ; [|done|done]. unfold lists. simpl.
  split; [done|]. split; [done|]. split; [done|]. split; [|done].
  eexists. f_equal. unfold zlen. rewrite Nat2Z.id. apply list_eq. intros i.
  rewrite list_lookup_fmap. destruct (bl !! i) as [b|] eqn:Hi.
  - rewrite lookup_seq_lt by (by eapply lookup_lt_Some). simpl. by rewrite (Hb i b).
  - rewrite lookup_seq_ge by (by apply lookup_ge_None). done.
Qed.

(** Recovery copies the committed blocks home and clears the header. *)
Lemma recover_spec l bl v g (Q : unit -> log -> bview -> Prop) :
  geom_ok l -> fresh v -> on_disk l bl (v_disk v (hkey l)) ->
  (forall i b, bl !! i = Some b -> v_disk v (lkey l i) = g (dkey b)) ->
  (forall l' v', v_held v' = ∅ -> v_dirty v' = ∅ ->
     v_disk v' = apply_writes (v_disk v)
       (home_writes bl g ++ [(hkey l, head_clear (v_disk v (hkey l)))]) -> Q tt l' v') ->
  wpl recover_from_log l v Q.
Proof.
  intros Hg Hf Hod Hlog HQ. unfold recover_from_log.
  apply wpl_bind, (read_head_spec l bl); [done|done|done|]. intros l1 Hl1 Hst Hsz.
  destruct Hf as (Hheld & Hd & Hclean). pose proof Hl1 as (Hg1 & _).
  assert (Hlk : forall i, lkey l1 i = lkey l i) by (intros i; unfold lkey; by rewrite Hst).
  assert (Hhk : hkey l1 = hkey l) by (unfold hkey; by rewrite Hst).
  apply wpl_bind, (install_trans_spec l1 bl v g); [done|done|by right| |].
  { intros i b Hi. rewrite Hlk, Hclean, (Hlog i b) by done. done. }
  apply wpl_bind, wpl_upd.
  apply write_head_spec; [done|apply (lists_size l1 bl Hl1)|done|done|].
  apply HQ; unfold put; simpl; [done|set_solver|].
  change (hkey (set_l_head 0 (l_block l1) l1)) with (hkey l1). rewrite Hhk.
  assert (Hh : apply_writes (v_mem v) (home_writes bl g) (hkey l) = v_disk v (hkey l)).
  { rewrite apply_writes_notin; [apply Hclean|]. rewrite home_writes_fst, <- Hhk. by apply hkey_notin. }
  rewrite Hh, apply_writes_app. done.
Qed.

(** What recovery leaves in the blocks outside the log. *)
Lemma recover_data l bl v g :
  geom_ok l -> fresh v -> on_disk l bl (v_disk v (hkey l)) ->
  (forall i b, bl !! i = Some b -> v_disk v (lkey l i) = g (dkey b)) ->
  wpl recover_from_log l v (fun _ _ v' => v_held v' = ∅ /\ v_dirty v' = ∅ /\
    forall b, outside l b ->
      v_disk v' (dkey b) = if decide (b ∈ bl) then g (dkey b) else v_disk v (dkey b)).
Proof.
  intros Hg Hf Hod Hlog. eapply recover_spec; [done|done|done|done|].
  intros l' v' H1 H2 H3. split; [done|]. split; [done|]. intros b Hb. rewrite H3, apply_writes_app.
  destruct Hod as (_ & _ & Hlt & _ & _ & Hnd).
  assert (Hne : dkey b ∉ [(hkey l, head_clear (v_disk v (hkey l)))].*1).
  { simpl. intros [= ->]%list_elem_of_singleton. unfold outside, zlen in *. lia. }
  rewrite (apply_writes_notin _ _ _ Hne). destruct (decide (b ∈ bl)) as [Hin|Hnin].
  - apply apply_writes_in.
    + rewrite home_writes_fst. apply NoDup_fmap_2; [apply dkey_inj|done].
    + by apply (list_elem_of_fmap_2 (fun b => (dkey b, g (dkey b)))).
  - apply apply_writes_notin. rewrite home_writes_fst. intros (b' & [= <-] & ?)%list_elem_of_fmap. done.
Qed.

(** ** Crashes during commit *)

Lemma head_clear_n d : length d = Z.to_nat BSIZE -> head_n (head_clear d) = 0.
Proof.
  intros Hd. unfold head_n, head_clear. rewrite slice_splice; [done| |done].
  rewrite Hd. vm_compute. lia.
Qed.

Lemma on_disk_nil l d : 0 < l_size l -> head_n d = 0 -> on_disk l [] d.
Proof. intros Hs Hn. split_and!; try done. constructor. Qed.

Lemma on_disk_full l bl d : lists l bl -> length d = Z.to_nat BSIZE ->
  on_disk l bl (head_full l bl d) /\ length (head_full l bl d) = Z.to_nat BSIZE.
Proof.
  intros Hl Hd. pose proof (lists_size l bl Hl) as [_ H29].
  destruct Hl as (_ & _ & Hlt & _ & Hok & Hout & Hnd).
  destruct (head_written bl d) as (H1 & H2 & H3); [done|lia|done|]. by split_and!.
Qed.

(** The disk after the first [j] writes of a commit, in three stretches. *)
Lemma commit_prefix l bl f j :
  (j <= length bl)%nat /\ take j (commit_writes l bl f) = take j (log_writes l bl f) \/
  (length bl < j <= length bl + 1 + length bl)%nat /\
    take j (commit_writes l bl f) =
    log_writes l bl f ++ [(hkey l, head_full l bl (f (hkey l)))] ++
    take (j - length bl - 1) (home_writes bl f) \/
  (length bl < j)%nat /\ take j (commit_writes l bl f) = commit_writes l bl f.
Proof.
  assert (H1 : length (log_writes l bl f) = length bl).
  { unfold log_writes. rewrite <- (length_fmap fst), writes_of_fst, (proj2 (to_log_keys l bl 0)).
    by rewrite length_fmap, length_seq. }
  assert (H2 : length (home_writes bl f) = length bl) by (unfold home_writes; len).
  unfold commit_writes. destruct (decide (j <= length bl)%nat); [left|right].
  { split; [done|]. rewrite take_app_le by lia. done. }
  rewrite take_app_ge by lia. rewrite H1.
  destruct (decide (j <= length bl + 1 + length bl)%nat); [left|right]; (split; [lia|]).
  - f_equal. destruct (j - length bl)%nat as [|m] eqn:E; [lia|].
    cbn [app take]. f_equal. rewrite take_app_le by lia. f_equal. lia.
  - f_equal. apply take_ge. rewrite !length_app. simpl. lia.
Qed.

(** The log area during a commit, after the header has been written. *)
Lemma commit_log_area l bl v m k i b :
  ready l bl v -> bl !! i = Some b ->
  let ws := log_writes l bl (v_mem v) ++ [(hkey l, k)] ++ take m (home_writes bl (v_mem v)) in
  apply_writes (v_disk v) ws (lkey l i) = v_mem v (dkey b) /\
  apply_writes (v_disk v) ws (hkey l) = k.
Proof.
  intros (Hl & _) Hi ws. pose proof (lookup_lt_Some _ _ _ Hi).
  assert (Hsub : forall x, x ∈ (take m (home_writes bl (v_mem v))).*1 -> x ∈ dkey <$> bl).
  { intros x Hx. rewrite <- (home_writes_fst bl (v_mem v)). rewrite fmap_take in Hx.
    by apply elem_of_take in Hx as (? & ?%list_elem_of_lookup_2 & _). }
  unfold ws. rewrite !apply_writes_app. split.
  - rewrite apply_writes_notin by (intros Hin%Hsub; by eapply lkey_notin in Hin).
    simpl. rewrite fn_lookup_insert_ne by apply hkey_lkey. by apply log_writes_at.
  - rewrite apply_writes_notin by (intros Hin%Hsub; by eapply hkey_notin in Hin).
    simpl. apply fn_lookup_insert.
Qed.

Lemma commit_data_area l bl v m k b :
  ready l bl v -> outside l b -> b ∉ bl ->
  let ws := log_writes l bl (v_mem v) ++ [(hkey l, k)] ++ take m (home_writes bl (v_mem v)) in
  apply_writes (v_disk v) ws (dkey b) = v_disk v (dkey b).
Proof.
  intros (Hl & _) Hout Hb ws. unfold ws. rewrite !apply_writes_app.
  pose proof Hl as (_ & _ & Hlt & _).
  rewrite apply_writes_notin.
  - simpl. rewrite fn_lookup_insert_ne.
    + apply log_writes_other; [done|]. intros i Hi [= ->]. unfold outside, zlen in *. lia.
    + intros [= <-]. unfold outside, zlen in *. lia.
  - rewrite fmap_take, home_writes_fst. intros (i & Hi & _)%elem_of_take.
    rewrite list_lookup_fmap in Hi. destruct (bl !! i) as [b'|] eqn:E; [|done].
    simpl in Hi. injection Hi as ->. by apply list_elem_of_lookup_2 in E.
Qed.

(** The disk after all the writes. *)
Lemma commit_final l bl v b : ready l bl v -> outside l b ->
  apply_writes (v_disk v) (commit_writes l bl (v_mem v)) (dkey b) = v_mem v (dkey b).
Proof.
  intros Hr Hout. pose proof Hr as (Hl & _ & _ & _ & Hclean). unfold commit_writes.
  set (hd := head_full _ _ _).
  assert (Hk : dkey b <> hkey l).
  { destruct Hl as (_ & _ & Hlt & _). intros [= ->]. unfold outside, zlen in *. lia. }
  rewrite !app_assoc, (apply_writes_app _ _ [_]), apply_writes_notin, <- app_assoc
    by (simpl; by intros ?%list_elem_of_singleton).
  destruct (decide (b ∈ bl)) as [Hin|Hnin].
  - rewrite !apply_writes_app. apply apply_writes_in.
    + rewrite home_writes_fst. apply NoDup_fmap_2; [apply dkey_inj|apply Hl].
    + by apply (list_elem_of_fmap_2 (fun b => (dkey b, v_mem v (dkey b)))).
  - pose proof (commit_data_area l bl v (length (home_writes bl (v_mem v))) hd b Hr Hout Hnin) as Hd.
    cbv zeta in Hd. rewrite firstn_all in Hd. rewrite Hd. symmetry. apply Hclean.
    intros (b' & [= <-] & ?)%list_elem_of_fmap. done.
Qed.

(** A crash after [j] of the disk writes of a commit, then recovery at the next
    boot. *)
Lemma commit_crash l bl v j l0 v0 :
  ready l bl v -> bl <> [] -> head_n (v_disk v (hkey l)) = 0 ->
  geom_ok l0 -> l_start l0 = l_start l -> l_size l0 = l_size l -> fresh v0 ->
  (forall k, v_disk v0 k = apply_writes (v_disk v) (take j (commit_writes l bl (v_mem v))) k) ->
  wpl recover_from_log l0 v0 (fun _ _ v' => v_held v' = ∅ /\ v_dirty v' = ∅ /\
    forall b, outside l b -> v_disk v' (dkey b) =
      if decide (j <= length bl)%nat then v_disk v (dkey b) else v_mem v (dkey b)).
Proof.
  intros Hr Hne Hempty Hg Hst Hsz Hf Hdisk. pose proof Hr as (Hl & _ & _ & Hlen & Hclean).
  pose proof (lists_size l bl Hl) as [Hpos _].
  assert (Hhk : hkey l0 = hkey l) by (unfold hkey; by rewrite Hst).
  assert (Hlk : forall i, lkey l0 i = lkey l i) by (intros i; unfold lkey; by rewrite Hst).
  assert (Hout : forall b, outside l0 b <-> outside l b) by (unfold outside; by rewrite Hst, Hsz).
  assert (Hod : forall bl d, on_disk l bl d -> on_disk l0 bl d).
  { unfold on_disk. intros bl' d (? & ? & ? & ? & Ho & ?). rewrite Hsz. split_and!; try done.
    eapply Forall_impl; [exact Ho|]. intros b. apply Hout. }
  assert (Hmem : forall b, b ∉ bl -> v_mem v (dkey b) = v_disk v (dkey b)).
  { intros b Hb. apply Hclean. intros (b' & [= <-] & ?)%list_elem_of_fmap. done. }
  assert (Hhm : v_mem v (hkey l) = v_disk v (hkey l)) by (by apply Hclean, hkey_notin).
  destruct bl as [|b0 bl0] eqn:Hbl; [done|]. rewrite <- Hbl in *.
  assert (Hb0 : bl !! 0%nat = Some b0) by (by rewrite Hbl).
  destruct (commit_prefix l bl (v_mem v) j) as [[Hj Hp]|[[Hj Hp]|[Hj Hp]]]; rewrite Hp in Hdisk.
  - (* nothing committed *)
    assert (Hlog : forall k, (forall i, (i < length bl)%nat -> k <> lkey l i) -> v_disk v0 k = v_disk v k).
    { intros k Hk. rewrite Hdisk. apply apply_writes_notin. rewrite fmap_take.
      unfold log_writes. rewrite writes_of_fst, (proj2 (to_log_keys l bl 0)).
      intros (i & Hi & _)%elem_of_take. apply list_elem_of_lookup_2 in Hi.
      apply elem_of_lkeys in Hi as (i' & -> & Hi'). by apply (Hk i'). }
    eapply wpl_mono; [apply (recover_data l0 [] v0 (v_disk v0) Hg Hf)|].
    + apply Hod, on_disk_nil; [done|]. rewrite Hhk, Hlog; [done|]. intros i _. apply hkey_lkey.
    + done.
    + intros _ l' v' (H1 & H2 & H3). split; [done|]. split; [done|]. intros b Hb.
      rewrite decide_True by done. rewrite H3 by (by apply Hout).
      rewrite decide_False by apply not_elem_of_nil. apply Hlog. intros i Hi [= ->].
      destruct Hl as (_ & _ & Hlt & _). unfold outside, zlen in *. lia.
  - (* committed, not all blocks installed *)
    set (hd := head_full l bl (v_mem v (hkey l))) in *.
    destruct (on_disk_full l bl (v_mem v (hkey l)) Hl Hlen) as [Hfull _]. fold hd in Hfull.
    assert (Hlog : forall i b, bl !! i = Some b -> v_disk v0 (lkey l i) = v_mem v (dkey b)).
    { intros i b Hi. rewrite Hdisk.
      by apply (commit_log_area l bl v (j - length bl - 1) hd i b Hr Hi). }
    eapply wpl_mono; [apply (recover_data l0 bl v0 (v_mem v) Hg Hf)|].
    + rewrite Hhk, Hdisk. rewrite (proj2 (commit_log_area l bl v _ hd 0 b0 Hr Hb0)). by apply Hod.
    + intros i b Hi. rewrite Hlk. by apply Hlog.
    + intros _ l' v' (H1 & H2 & H3). split; [done|]. split; [done|]. intros b Hb.
      rewrite decide_False by lia. rewrite H3 by (by apply Hout).
      destruct (decide (b ∈ bl)) as [|Hnin]; [done|]. rewrite Hdisk, Hmem by done.
      by apply commit_data_area.
  - (* installed and the log cleared *)
    eapply wpl_mono; [apply (recover_data l0 [] v0 (v_disk v0) Hg Hf)|].
    + apply Hod, on_disk_nil; [done|]. rewrite Hhk, Hdisk. unfold commit_writes.
      rewrite !apply_writes_app. simpl. rewrite fn_lookup_insert. apply head_clear_n.
      by apply on_disk_full.
    + done.
    + intros _ l' v' (H1 & H2 & H3). split; [done|]. split; [done|]. intros b Hb.
      rewrite decide_False by lia. rewrite H3 by (by apply Hout).
      rewrite decide_False by apply not_elem_of_nil. rewrite Hdisk. by apply commit_final.
Qed.

End logproof.
End LogProof.
