(* ===== verification/LogProps.v ===== *)
(** * Properties of the log and the buffer cache

    Atomicity of commit under crashes, the transaction discipline of
    log_write, and both on the buffer cache of bio.c. *)
From stdpp Require Import functions.
From S2P Require Import Prelude Words Params Bio Buf BioProof Log LogProof.

Module LogProps.
Import Log LogProof.

(** ** The buffer cache after boot *)

(** bcache in zeroed memory, after binit *)
Definition zero_buf : buf := mkBuf 0 0 0 false 0 0 zeroes.
Definition cold (d : gmap key block) : bio :=
  run_state Bio.binit (mkBio (replicate (Z.to_nat NBUF) zero_buf) [] d []).
Definition cold_view (d : gmap key block) : bview := mkView (disk_at d) (disk_at d) [] ∅ ∅.

Lemma cold_rep pid d : BioProof.bio_rep pid (cold d) (cold_view d).
Proof.
  assert (Hb : forall i b, bufs (cold d) !! i = Some b -> b = zero_buf).
  { intros i b Hi. change (bufs (cold d)) with (set_b_lock false 0 <$> replicate 30 zero_buf) in Hi.
    rewrite list_lookup_fmap in Hi. destruct (replicate 30 zero_buf !! i) eqn:E; [|done].
    apply lookup_replicate in E as [-> _]. by injection Hi as <-. }
  split.
  - reflexivity.
  - change (lru (cold d)) with (reverse (seq 0 30)). apply reverse_Permutation.
  - intros i b Hi. apply Hb in Hi as ->. unfold BioProof.buf_rep. simpl v_held. rewrite lookup_empty.
    split; [by left|done].
  - intros i j b b' Hi _ Hd. apply Hb in Hi as ->. done.
  - intros i k Hk. simpl in Hk. by rewrite lookup_empty in Hk.
  - intros k Hk. by apply not_elem_of_empty in Hk.
  - done.
  - done.
  - done.
Qed.

(** C7: bread returns a locked buffer with the content of the block, found in the
    cache or read from the disk into a recycled buffer; the contents of all
    other blocks, the disk and the pinned blocks are unaffected.  It needs a
    free buffer only when the block is not pinned. *)
Theorem bread_correct pid s v b :
  BioProof.bio_rep pid s v -> 0 <= b < FSSIZE ->
  (forall h, v_held v !! h <> Some (fsdev, b)) ->
  (fsdev, b) ∈ v_dirty v \/ Z.of_nat (size (pinned v)) < NBUF ->
  exists h s', Bio.bread pid true fsdev b s = Ok h s' /\
    (b <- Bio.buf_at h ;; ret (b_data b)) s' = Ok (v_mem v (fsdev, b)) s' /\
    BioProof.bio_rep pid s' (hold h (fsdev, b) v).
Proof.
  intros Hr Hb Hh Hc. destruct (BioProof.law_bread_bio pid s v b Hr Hb Hh Hc) as (h & s' & H1 & H2 & H3).
  exists h, s'. split; [exact H1|]. split; [|exact H3].
  apply (BioProof.law_data_bio pid s' _ h (fsdev, b) H3). apply lookup_insert_eq.
Qed.

Section log.
Context {T : Type} `{BL : BufLaws T}.

(** C2: commit is atomic.  It returns after exactly the writes log blocks,
    header, home blocks, cleared header; and if the machine stops after any
    number [j] of these writes, recovery at the next boot succeeds and every
    block outside the log has its old content ([j] at most the number of
    blocks) or every one has its new content (otherwise). *)
Theorem commit_atomic l bl t v :
  bl_rep t v -> ready l bl v -> bl <> [] -> head_n (v_disk v (hkey l)) = 0 ->
  (exists t' v', commit (l, t) = Ok tt (set_l_head 0 (l_block l) l, t') /\ bl_rep t' v' /\
     v_trace v' = v_trace v ++ commit_writes l bl (v_mem v) /\ v_dirty v' = ∅ /\
     forall b, outside l b -> v_disk v' (dkey b) = v_mem v (dkey b)) /\
  (forall j l0 t0 v0,
     geom_ok l0 -> l_start l0 = l_start l -> l_size l0 = l_size l -> bl_rep t0 v0 -> fresh v0 ->
     (forall k, v_disk v0 k = apply_writes (v_disk v) (take j (commit_writes l bl (v_mem v))) k) ->
     exists l1 t1 v1, recover_from_log (l0, t0) = Ok tt (l1, t1) /\ bl_rep t1 v1 /\
       forall b, outside l b -> v_disk v1 (dkey b) =
         if decide (j <= length bl)%nat then v_disk v (dkey b) else v_mem v (dkey b)).
Proof.
  intros Ht Hr Hne Hn. split.
  - destruct (commit_spec l bl v Hr Hne t Ht) as ([] & l' & t' & v' & H1 & H2 & -> & _ & Hd & _ & H3 & H4).
    exists t', v'. split_and!; try done. intros b Hb. rewrite H3. by apply commit_final.
  - intros j l0 t0 v0 Hg Hs Hz Ht0 Hf Hd.
    destruct (commit_crash l bl v j l0 v0 Hr Hne Hn Hg Hs Hz Hf Hd t0 Ht0)
      as ([] & l1 & t1 & v1 & H1 & H2 & _ & _ & H3). eauto 10.
Qed.

(** ** log_write *)

Lemma absorb_spec bl b : forall n i tl, n = length bl ->
  let j := absorb (bl ++ tl) n i b in
  (b ∈ bl /\ (i <= j < i + n)%nat /\ (bl !! (j - i)%nat) = Some b) \/ ((b ∉ bl) /\ j = (i + n)%nat).
Proof.
  induction bl as [|x bl IH]; intros n i tl ->; cbn [length absorb app].
  - right. split; [apply not_elem_of_nil|]. destruct tl; simpl; lia.
  - destruct (Z.eqb_spec x b) as [->|Hne].
    + left. split; [by left|]. split; [lia|]. by rewrite Nat.sub_diag.
    + destruct (IH (length bl) (S i) tl eq_refl) as [(H1 & H2 & H3)|[H1 H2]].
      * left. split; [by right|]. split; [lia|].
        replace (absorb (bl ++ tl) (length bl) (S i) b - i)%nat
          with (S (absorb (bl ++ tl) (length bl) (S i) b - S i)) by lia. done.
      * right. split; [|lia]. rewrite elem_of_cons. naive_solver.
Qed.

(** C6: log_write keeps the transaction well formed.  A block held by the caller
    and modified in the cache is entered in the header unless it is already
    there (absorption), so the listed blocks stay distinct and are exactly the
    pinned ones; nothing is written to the disk. *)
Theorem log_write_absorbs l bl t v h b :
  bl_rep t v -> lists l bl -> v_dirty v = list_to_set (dkey <$> bl) ->
  v_held v !! h = Some (dkey b) -> block_ok b -> outside l b ->
  l_outstanding l >= 1 -> zlen bl < l_size l - 1 -> (zlen (l_block l) = LOGSIZE) ->
  exists l' t' bl', log_write h (l, t) = Ok tt (l', t') /\
    bl' = (if decide (b ∈ bl) then bl else bl ++ [b]) /\ lists l' bl' /\
    bl_rep t' (pin (dkey b) v) /\ v_dirty (pin (dkey b) v) = list_to_set (dkey <$> bl').
Proof.
  intros Ht Hl Hd Hh Hb Hob Hout Hsz Hlb.
  pose proof Hl as (Hg & Hn & Hlt & (tl & Htl) & Hok & Hou & Hnd).
  pose proof Hg as (_ & _ & _ & HLS).
  destruct (law_dirty t v h (dkey b) Ht Hh) as (t' & Ht' & Hr').
  set (i := absorb (l_block l) (Z.to_nat (l_n l)) 0 b).
  set (l' := set_l_head (if Z.of_nat i =? l_n l then l_n l + 1 else l_n l) (zset (l_block l) (Z.of_nat i) b) l).
  assert (Hrun : log_write h (l, t) = Ok tt (l', t')).
  { unfold log_write. rewrite (bind_run lg _ (l, t) l (l, t)) by done.
    rewrite !Z.geb_leb, (proj2 (Z.leb_gt LOGSIZE _)), (proj2 (Z.leb_gt (l_size l - 1) _)) by lia.
    cbn [orb]. rewrite (proj2 (Z.ltb_ge _ _)) by lia.
    assert (Hbn : on (op_blockno h) (l, t) = Ok b (l, t)).
    { unfold on, zoom. simpl. by rewrite (law_blockno t v h _ Ht Hh). }
    rewrite (bind_run _ _ _ _ _ Hbn). fold i. cbv zeta.
    rewrite (bind_run (upd_lg _) _ (l, t) tt (l', t)) by done.
    unfold on, zoom. simpl. by rewrite Ht'. }
  exists l', t'. eexists. split; [exact Hrun|]. split; [reflexivity|].
  assert (Hi : i = absorb (bl ++ tl) (length bl) 0 b).
  { unfold i. rewrite Htl, Hn. unfold zlen. by rewrite Nat2Z.id. }
  assert (Hl' : l' = set_l_head (if Z.of_nat i =? zlen bl then zlen bl + 1 else zlen bl)
                       (zset (bl ++ tl) (Z.of_nat i) b) l) by (unfold l'; by rewrite Hn, Htl).
  clearbody l' i. subst l'. unfold zlen in *. rewrite Htl, length_app in Hlb.
  destruct (absorb_spec bl b (length bl) 0 tl eq_refl) as [(Hin & Hj & Hlk)|[Hnin Hj]];
    rewrite <- Hi in *.
  - rewrite decide_True by done. rewrite (proj2 (Z.eqb_neq _ _)) by lia.
    rewrite Nat.sub_0_r in Hlk. split; [|split; [done|]].
    + unfold lists. simpl. split_and!; try done. exists tl. unfold zset.
      rewrite Nat2Z.id, insert_app_l by lia. f_equal. by apply list_insert_id.
    + simpl. rewrite Hd. apply subseteq_union_1_L, singleton_subseteq_l, elem_of_list_to_set.
      by apply list_elem_of_fmap_2.
  - rewrite decide_False by done. rewrite Hj, Nat.add_0_l, Z.eqb_refl. split; [|split; [done|]].
    + unfold lists. simpl. split_and!; try done.
      * unfold zlen. rewrite length_app. simpl. lia.
      * unfold zlen. rewrite length_app. simpl. lia.
      * destruct tl as [|x tl]; [simpl in Hlb; unfold LOGSIZE, MAXOPBLOCKS in *; lia|].
        exists tl. unfold zset. rewrite Nat2Z.id, insert_app_r_alt, Nat.sub_diag by lia.
        simpl. by rewrite <- app_assoc.
      * apply Forall_app_2; [done|]. by apply Forall_singleton.
      * apply Forall_app_2; [done|]. by apply Forall_singleton.
      * apply NoDup_app. split; [done|]. split; [|apply NoDup_singleton].
        intros x Hx ->%list_elem_of_singleton. done.
    + simpl. rewrite Hd, fmap_app, list_to_set_app_L. simpl. rewrite union_empty_r_L. apply union_comm_L.
Qed.

(** C11: begin_op reserves more than the log holds.  With the log of mkfs (30
    blocks, header included) three operations of MAXOPBLOCKS blocks each may be
    outstanding, which is 30 blocks, but log_write panics on the 30th. *)
Theorem reservation_exceeds_log l (t : T) h :
  l_size l = LOGSIZE -> l_n l = 0 -> l_outstanding l = 0 -> l_committing l = 0 ->
  (begin_op ;; begin_op ;; begin_op) (l, t) = Ok tt (set_l_out 3 l, t) /\
  3 * MAXOPBLOCKS = 30 /\
  forall bl t', log_write h (set_l_head 29 bl (set_l_out 3 l), t') = Panic "too big a transaction".
Proof.
  intros Hs Hn Ho Hc.
  assert (Hb : forall o, 0 <= o <= 2 -> begin_op (set_l_out o l, t) = Ok tt (set_l_out (o + 1) l, t)).
  { intros o Hoo. unfold begin_op, lg, bind, gets. simpl. rewrite Hc, Hn. simpl.
    rewrite Z.gtb_ltb, (proj2 (Z.ltb_ge _ _)) by (unfold LOGSIZE, MAXOPBLOCKS; lia). done. }
  assert (H0 : set_l_out 0 l = l) by (destruct l; simpl in *; by subst).
  rewrite <- H0 at 1. split_and!; [|done|].
  - rewrite (bind_run _ _ _ _ _ (Hb 0 ltac:(lia))), (bind_run _ _ _ _ _ (Hb 1 ltac:(lia))).
    apply (Hb 2). lia.
  - intros bl t'. unfold log_write, lg, bind, gets. simpl. rewrite Hs. done.
Qed.

End log.
(** ** A transaction on the buffer cache of bio.c *)

Definition w_log0 : log := mkLog 2 LOGSIZE 1 0 fsdev 0 (replicate 30 0).
Definition w_log1 : log := mkLog 2 LOGSIZE 0 1 fsdev 1 (100 :: replicate 29 0).
Definition w_data : block := replicate 512 1.

#[local] Existing Instance BioProof.bio_ops.
#[local] Existing Instance BioProof.bio_laws.

Lemma w_bread : exists h s', op_bread (BufOps := BioProof.bio_ops 7) fsdev 100 (cold ∅) = Ok h s' /\
  BioProof.bio_rep 7 s' (hold h (dkey 100) (cold_view ∅)).
Proof.
  destruct (BioProof.law_bread_bio 7 (cold ∅) (cold_view ∅) 100) as (h & s' & H1 & _ & H2);
    [apply cold_rep|done|done|by right|eauto].
Qed.

(** Block 100 has been modified and pinned. *)
Lemma w_ready : exists t v, BioProof.bio_rep 7 t v /\ ready w_log1 [100] v /\
  head_n (v_disk v (hkey w_log1)) = 0 /\ v_mem v (dkey 100) = w_data.
Proof.
  destruct w_bread as (h & s1 & _ & Hr1).
  destruct (BioProof.law_set_bio 7 s1 _ h (dkey 100) w_data Hr1 (lookup_insert_eq _ _ _)) as (s2 & _ & Hr2).
  destruct (BioProof.law_dirty_bio 7 s2 _ h (dkey 100) Hr2 (lookup_insert_eq _ _ _)) as (s3 & _ & Hr3).
  destruct (BioProof.law_brelse_bio 7 s3 _ h (dkey 100) Hr3 (lookup_insert_eq _ _ _)) as (s4 & _ & Hr4).
  { left. apply elem_of_union_l, elem_of_singleton. done. }
  exists s4. eexists. split; [exact Hr4|]. simpl. split; [|split; [done|apply fn_lookup_insert]].
  unfold ready. simpl. rewrite delete_insert_id by done. split_and!; try done.
  - split; [done|]. split; [done|]. split; [done|]. split; [by eexists|].
    split; [by apply Forall_singleton|]. split; [apply Forall_singleton; right; done|].
    apply NoDup_singleton.
  - intros k Hk. apply fn_lookup_insert_ne. intros <-. apply Hk. by left.
Qed.

(** Witness of [bread_correct]. *)
Lemma bread_correct_witness : exists h s',
  Bio.bread 7 true fsdev 5 (cold ∅) = Ok h s' /\
  (b <- Bio.buf_at h ;; ret (b_data b)) s' = Ok zeroes s'.
Proof.
  destruct (bread_correct 7 (cold ∅) (cold_view ∅) 5) as (h & s' & H1 & H2 & _).
  - apply cold_rep.
  - split; [discriminate|reflexivity].
  - intros h. discriminate.
  - right. reflexivity.
  - exists h, s'. split; [exact H1|exact H2].
Defined.

(** Witness of [commit_atomic]. *)
Lemma commit_atomic_witness : exists t t',
  commit (H := BioProof.bio_ops 7) (w_log1, t) = Ok tt (set_l_head 0 (l_block w_log1) w_log1, t').
Proof.
  destruct w_ready as (t & v & Hr & Hready & Hn & _).
  destruct (commit_atomic (BL := BioProof.bio_laws 7) w_log1 [100] t v) as [(t' & v' & H1 & _) _].
  - exact Hr.
  - exact Hready.
  - discriminate.
  - exact Hn.
  - exists t, t'. exact H1.
Defined.

(** Witness of [log_write_absorbs]. *)
Lemma log_write_absorbs_witness : exists h t l' t',
  log_write (H := BioProof.bio_ops 7) h (w_log0, t) = Ok tt (l', t') /\ lists l' [100].
Proof.
  destruct w_bread as (h & t & _ & Hr).
  destruct (log_write_absorbs (BL := BioProof.bio_laws 7) w_log0 [] t
              (hold h (dkey 100) (cold_view ∅)) h 100) as (l' & t' & bl' & H1 & H2 & H3 & _).
  - exact Hr.
  - split; [done|]. split; [done|]. split; [done|]. split; [by eexists|]. split; [done|].
    split; [done|]. constructor.
  - reflexivity.
  - apply lookup_insert_eq.
  - done.
  - right. done.
  - done.
  - reflexivity.
  - reflexivity.
  - exists h, t, l', t'. split; [exact H1|]. rewrite H2 in H3. exact H3.
Defined.

(** Witness of [reservation_exceeds_log]. *)
Lemma reservation_exceeds_log_witness :
  (begin_op ;; begin_op ;; begin_op) (set_l_out 0 w_log0, cold ∅) = Ok tt (set_l_out 3 w_log0, cold ∅).
Proof.
  apply (reservation_exceeds_log (H := BioProof.bio_ops 7) (set_l_out 0 w_log0) (cold ∅) 0%nat);
    reflexivity.
Defined.

End LogProps.
