(* ===== verification/Core.v ===== *)
(** * The kernel state the system calls work on

    [core B] is the part of the machine a system call of the current process
    reads and writes, apart from the record/replay globals: the block layer
    [B] (log and buffer cache), the in-memory superblock, the inode cache, the
    file table, the pipes, the page allocator, the console and the current
    process.  Inode, file and pipe pointers are table indices or page
    addresses; [None] is the null pointer.

    The model is sequential: one process runs a system call to its end.  Spin
    locks ([acquire]/[release] around a few assignments) are therefore not
    represented; sleep locks, which are held across calls and tested by the
    code, are. *)
From S2P Require Import Prelude Words Params Kalloc Pipe.

(** fs.h:struct superblock *)
Record superblock := mkSuperblock {
  sb_size : Z; sb_nblocks : Z; sb_ninodes : Z; sb_nlog : Z;
  sb_logstart : Z; sb_inodestart : Z; sb_bmapstart : Z
}.

(** file.h:struct inode, with the sleep lock's two fields inlined *)
Record inode := mkInode {
  i_dev : Z; i_inum : Z; i_ref : Z;
  i_locked : bool; i_lkpid : Z;
  i_valid : Z;
  i_type : Z; i_major : Z; i_minor : Z; i_nlink : Z; i_size : Z;
  i_addrs : list Z
}.

(** file.h:struct file *)
Inductive ftype := FD_NONE | FD_PIPE | FD_INODE.

Record file := mkFile {
  f_type : ftype; f_ref : Z; f_readable : Z; f_writable : Z;
  f_pipe : Z; f_ip : nat; f_off : Z
}.

(** proc.h:struct proc, the fields the system calls use; [p_mem] is the user
    address space, so [p->sz] is its length. *)
Record proc := mkProc {
  p_pid : Z; p_killed : Z;
  p_ofile : list (option nat);
  p_cwd : nat;
  p_mem : list Z;
  p_esp : Z    (* tf->esp *)
}.

Definition p_sz (p : proc) : Z := zlen (p_mem p).

(** console.c: the input ring and what has been sent to the screen *)
Record input := mkInput { in_buf : list Z; in_r : Z; in_w : Z; in_e : Z }.

Record core (B : Type) := mkCore {
  c_blk : B;
  c_sb : superblock;
  c_icache : list inode;
  c_ftable : list file;
  c_kmem : Kalloc.kmem;
  c_pipes : gmap Z Pipe.pipe;
  c_input : input;
  c_screen : list Z;
  c_proc : proc;
  c_ticks : Z
}.
Arguments mkCore {B}.
Arguments c_blk {B}.
Arguments c_sb {B}.
Arguments c_icache {B}.
Arguments c_ftable {B}.
Arguments c_kmem {B}.
Arguments c_pipes {B}.
Arguments c_input {B}.
Arguments c_screen {B}.
Arguments c_proc {B}.
Arguments c_ticks {B}.

(** ** Field updates *)

Definition set_i_ref (v : Z) (i : inode) : inode :=
  mkInode (i_dev i) (i_inum i) v (i_locked i) (i_lkpid i) (i_valid i) (i_type i)
    (i_major i) (i_minor i) (i_nlink i) (i_size i) (i_addrs i).

Definition set_i_lock (l : bool) (pid : Z) (i : inode) : inode :=
  mkInode (i_dev i) (i_inum i) (i_ref i) l pid (i_valid i) (i_type i)
    (i_major i) (i_minor i) (i_nlink i) (i_size i) (i_addrs i).

Definition set_i_valid (v : Z) (i : inode) : inode :=
  mkInode (i_dev i) (i_inum i) (i_ref i) (i_locked i) (i_lkpid i) v (i_type i)
    (i_major i) (i_minor i) (i_nlink i) (i_size i) (i_addrs i).

Definition set_i_type (v : Z) (i : inode) : inode :=
  mkInode (i_dev i) (i_inum i) (i_ref i) (i_locked i) (i_lkpid i) (i_valid i) v
    (i_major i) (i_minor i) (i_nlink i) (i_size i) (i_addrs i).

Definition set_i_majmin (maj min : Z) (i : inode) : inode :=
  mkInode (i_dev i) (i_inum i) (i_ref i) (i_locked i) (i_lkpid i) (i_valid i) (i_type i)
    maj min (i_nlink i) (i_size i) (i_addrs i).

Definition set_i_nlink (v : Z) (i : inode) : inode :=
  mkInode (i_dev i) (i_inum i) (i_ref i) (i_locked i) (i_lkpid i) (i_valid i) (i_type i)
    (i_major i) (i_minor i) v (i_size i) (i_addrs i).

Definition set_i_size (v : Z) (i : inode) : inode :=
  mkInode (i_dev i) (i_inum i) (i_ref i) (i_locked i) (i_lkpid i) (i_valid i) (i_type i)
    (i_major i) (i_minor i) (i_nlink i) v (i_addrs i).

Definition set_i_addr (k v : Z) (i : inode) : inode :=
  mkInode (i_dev i) (i_inum i) (i_ref i) (i_locked i) (i_lkpid i) (i_valid i) (i_type i)
    (i_major i) (i_minor i) (i_nlink i) (i_size i) (zset (i_addrs i) k v).

Definition set_f_ref (v : Z) (f : file) : file :=
  mkFile (f_type f) v (f_readable f) (f_writable f) (f_pipe f) (f_ip f) (f_off f).

Definition set_f_type (t : ftype) (f : file) : file :=
  mkFile t (f_ref f) (f_readable f) (f_writable f) (f_pipe f) (f_ip f) (f_off f).

Definition set_f_off (v : Z) (f : file) : file :=
  mkFile (f_type f) (f_ref f) (f_readable f) (f_writable f) (f_pipe f) (f_ip f) v.

Definition set_p_killed (v : Z) (p : proc) : proc :=
  mkProc (p_pid p) v (p_ofile p) (p_cwd p) (p_mem p) (p_esp p).

Definition set_p_ofile (v : list (option nat)) (p : proc) : proc :=
  mkProc (p_pid p) (p_killed p) v (p_cwd p) (p_mem p) (p_esp p).

Definition set_p_cwd (v : nat) (p : proc) : proc :=
  mkProc (p_pid p) (p_killed p) (p_ofile p) v (p_mem p) (p_esp p).

Definition set_p_mem (v : list Z) (p : proc) : proc :=
  mkProc (p_pid p) (p_killed p) (p_ofile p) (p_cwd p) v (p_esp p).

Section core.
Context {B : Type}.

Definition set_blk (v : B) (c : core B) : core B :=
  mkCore v (c_sb c) (c_icache c) (c_ftable c) (c_kmem c) (c_pipes c) (c_input c)
    (c_screen c) (c_proc c) (c_ticks c).

Definition set_sb (v : superblock) (c : core B) : core B :=
  mkCore (c_blk c) v (c_icache c) (c_ftable c) (c_kmem c) (c_pipes c) (c_input c)
    (c_screen c) (c_proc c) (c_ticks c).

Definition set_icache (v : list inode) (c : core B) : core B :=
  mkCore (c_blk c) (c_sb c) v (c_ftable c) (c_kmem c) (c_pipes c) (c_input c)
    (c_screen c) (c_proc c) (c_ticks c).

Definition set_ftable (v : list file) (c : core B) : core B :=
  mkCore (c_blk c) (c_sb c) (c_icache c) v (c_kmem c) (c_pipes c) (c_input c)
    (c_screen c) (c_proc c) (c_ticks c).

Definition set_kmem (v : Kalloc.kmem) (c : core B) : core B :=
  mkCore (c_blk c) (c_sb c) (c_icache c) (c_ftable c) v (c_pipes c) (c_input c)
    (c_screen c) (c_proc c) (c_ticks c).

Definition set_pipes (v : gmap Z Pipe.pipe) (c : core B) : core B :=
  mkCore (c_blk c) (c_sb c) (c_icache c) (c_ftable c) (c_kmem c) v (c_input c)
    (c_screen c) (c_proc c) (c_ticks c).

Definition set_input (v : input) (c : core B) : core B :=
  mkCore (c_blk c) (c_sb c) (c_icache c) (c_ftable c) (c_kmem c) (c_pipes c) v
    (c_screen c) (c_proc c) (c_ticks c).

Definition set_screen (v : list Z) (c : core B) : core B :=
  mkCore (c_blk c) (c_sb c) (c_icache c) (c_ftable c) (c_kmem c) (c_pipes c)
    (c_input c) v (c_proc c) (c_ticks c).

Definition set_proc (v : proc) (c : core B) : core B :=
  mkCore (c_blk c) (c_sb c) (c_icache c) (c_ftable c) (c_kmem c) (c_pipes c)
    (c_input c) (c_screen c) v (c_ticks c).

(** [myproc()] *)
Definition myproc : M (core B) proc := gets c_proc.

Definition upd_proc (f : proc -> proc) : M (core B) unit :=
  modify (fun c => set_proc (f (c_proc c)) c).

(** The inode and the open file behind a pointer *)
Definition inode_at (ip : nat) : M (core B) inode :=
  l <- gets c_icache ;; from_option_undef (l !! ip).

Definition upd_inode (ip : nat) (f : inode -> inode) : M (core B) unit :=
  i <- inode_at ip ;;
  modify (fun c => set_icache (<[ip := f i]> (c_icache c)) c).

Definition file_at (fp : nat) : M (core B) file :=
  l <- gets c_ftable ;; from_option_undef (l !! fp).

Definition upd_file (fp : nat) (g : file -> file) : M (core B) unit :=
  f <- file_at fp ;;
  modify (fun c => set_ftable (<[fp := g f]> (c_ftable c)) c).

(** Loads from and stores to the user address space; an address outside it
    faults in the kernel. *)
Definition read_user (a n : Z) : M (core B) (list Z) :=
  p <- myproc ;;
  if (0 <=? a) && (0 <=? n) && (a + n <=? p_sz p)
  then ret (slice (Z.to_nat a) (Z.to_nat n) (p_mem p))
  else undef.

Definition write_user (a : Z) (bs : list Z) : M (core B) unit :=
  p <- myproc ;;
  if (0 <=? a) && (a + zlen bs <=? p_sz p)
  then upd_proc (set_p_mem (splice (Z.to_nat a) bs (p_mem p)))
  else undef.

End core.

(** ** The block layer seen from the file system

    [bread] returns the contents of a locked buffer, [log_write] stores new
    contents for it in the current transaction, [brelse] unlocks it.  Every
    buffer fs.c modifies is passed to [log_write] before [brelse], so the
    contents can be passed by value. *)
Class BlockLayer (B : Type) := {
  bread : Z -> Z -> M B (list Z);
  log_write : Z -> Z -> list Z -> M B unit;
  brelse : Z -> Z -> M B unit;
  begin_op : M B unit;
  end_op : M B unit
}.

Definition blk {B A} (m : M B A) : M (core B) A := zoom c_blk set_blk m.
