(* ===== verification/Fs.v ===== *)
(** * fs.c: blocks, inodes, directories and path names

    The definitions follow fs.c routine by routine on the [core] state.  A
    destination buffer of the C code is returned as a list of bytes and a
    source buffer is passed as one; disk blocks are byte lists whose fields
    are read and written at the offsets of the C structures.  The console
    device, the only entry of [devsw], is here too because [readi] and
    [writei] dispatch to it and it re-locks the inode. *)
From S2P Require Import Prelude Words Params CString Kalloc Pipe Core.

Module Fs.

(** ** Raw access to a block *)

Definition uint_at (off : nat) (d : list Z) : Z := le_val (slice off 4 d).
Definition short_at (off : nat) (d : list Z) : Z := s16 (le_val (slice off 2 d)).

(** stat.h:struct stat *)
Record stat := mkStat { st_type : Z; st_dev : Z; st_ino : Z; st_nlink : Z; st_size : Z }.

(** fs.h:struct dinode, 64 bytes at [off]: type, major, minor, nlink (2 bytes
    each), size and 13 block addresses (4 bytes each). *)
Record dinode := mkDinode {
  d_type : Z; d_major : Z; d_minor : Z; d_nlink : Z; d_size : Z; d_addrs : list Z
}.

Definition dinode_read (off : nat) (d : list Z) : dinode :=
  mkDinode (short_at off d) (short_at (off + 2) d) (short_at (off + 4) d)
    (short_at (off + 6) d) (uint_at (off + 8) d)
    ((fun i => uint_at (off + 12 + 4 * i) d) <$> seq 0 13).

Definition dinode_bytes (di : dinode) : list Z :=
  le_bytes 2 (d_type di) ++ le_bytes 2 (d_major di) ++ le_bytes 2 (d_minor di) ++
  le_bytes 2 (d_nlink di) ++ le_bytes 4 (d_size di) ++
  concat (le_bytes 4 <$> d_addrs di).

Definition dinode_of (i : inode) : dinode :=
  mkDinode (i_type i) (i_major i) (i_minor i) (i_nlink i) (i_size i) (i_addrs i).

Definition load_dinode (di : dinode) (i : inode) : inode :=
  mkInode (i_dev i) (i_inum i) (i_ref i) (i_locked i) (i_lkpid i) (i_valid i)
    (d_type di) (d_major di) (d_minor di) (d_nlink di) (d_size di) (d_addrs di).

(** fs.h:struct dirent: a 2-byte inode number and a 14-byte name *)
Definition de_inum (de : list Z) : Z := le_val (slice 0 2 de).
Definition de_name (de : list Z) : list Z := slice 2 14 de.

Section fs.
Context {B : Type} {BL : BlockLayer B}.

Definition sb_get : M (core B) superblock := gets c_sb.

(** fs.h:IBLOCK and BBLOCK *)
Definition IBLOCK (inum : Z) (sb : superblock) : Z := inum / IPB + sb_inodestart sb.
Definition BBLOCK (b : Z) (sb : superblock) : Z := b / BPB + sb_bmapstart sb.

(** fs.c:readsb *)
Definition readsb (dev : Z) : M (core B) superblock :=
  d <- blk (bread dev 1) ;;
  blk (brelse dev 1) ;;
  ret (mkSuperblock (uint_at 0 d) (uint_at 4 d) (uint_at 8 d) (uint_at 12 d)
         (uint_at 16 d) (uint_at 20 d) (uint_at 24 d)).

(** fs.c:bzero *)
Definition bzero (dev bno : Z) : M (core B) unit :=
  _ <- blk (bread dev bno) ;;
  blk (log_write dev bno (replicate (Z.to_nat BSIZE) 0)) ;;
  blk (brelse dev bno).

(** fs.c:balloc.  [balloc_scan] is the inner loop: the first clear bit [bi] of
    the bitmap block, stopping at the end of the block (the fuel) or of the
    file system. *)
Fixpoint balloc_scan (fuel : nat) (b bi size : Z) (d : list Z) : M (core B) (option Z) :=
  match fuel with
  | O => ret None
  | S fuel' =>
      if b + bi <? size then
        byte <- aget d (bi / 8) ;;
        if Z.land byte (Z.shiftl 1 (bi mod 8)) =? 0 then ret (Some bi)
        else balloc_scan fuel' b (bi + 1) size d
      else ret None
  end.

Fixpoint balloc_loop (fuel : nat) (dev b : Z) : M (core B) Z :=
  sb <- sb_get ;;
  if b <? sb_size sb then
    match fuel with
    | O => undef
    | S fuel' =>
        d <- blk (bread dev (BBLOCK b sb)) ;;
        obi <- balloc_scan (Z.to_nat BPB) b 0 (sb_size sb) d ;;
        match obi with
        | Some bi =>
            byte <- aget d (bi / 8) ;;
            blk (log_write dev (BBLOCK b sb)
                   (zset d (bi / 8) (Z.lor byte (Z.shiftl 1 (bi mod 8))))) ;;
            blk (brelse dev (BBLOCK b sb)) ;;
            bzero dev (b + bi) ;;
            ret (b + bi)
        | None =>
            blk (brelse dev (BBLOCK b sb)) ;;
            balloc_loop fuel' dev (b + BPB)
        end
    end
  else panic "balloc: out of blocks".

Definition balloc (dev : Z) : M (core B) Z :=
  sb <- sb_get ;; balloc_loop (Z.to_nat (sb_size sb / BPB + 1)) dev 0.

(** fs.c:bfree *)
Definition bfree (dev b : Z) : M (core B) unit :=
  sb <- sb_get ;;
  d <- blk (bread dev (BBLOCK b sb)) ;;
  let bi := b mod BPB in
  let m := Z.shiftl 1 (bi mod 8) in
  byte <- aget d (bi / 8) ;;
  if Z.land byte m =? 0 then panic "freeing free block"
  else
    blk (log_write dev (BBLOCK b sb) (zset d (bi / 8) (Z.land byte (u8 (Z.lnot m))))) ;;
    blk (brelse dev (BBLOCK b sb)).

(** ** Inodes *)

(** fs.c:iinit: the locks start released; the superblock is read. *)
Definition iinit (dev : Z) : M (core B) unit :=
  modify (fun c => set_icache (set_i_lock false 0 <$> c_icache c) c) ;;
  sb <- readsb dev ;;
  modify (set_sb sb).

(** fs.c:iget.  The scan returns the entry for the inode, or the first free
    entry it has seen. *)
Fixpoint iget_scan (l : list inode) (k : nat) (dev inum : Z) (empty : option nat)
  : (nat + option nat) :=
  match l with
  | [] => inr empty
  | ip :: l' =>
      if (i_ref ip >? 0) && (i_dev ip =? dev) && (i_inum ip =? inum) then inl k
      else
        let empty' :=
          match empty with
          | None => if i_ref ip =? 0 then Some k else None
          | Some _ => empty
          end in
        iget_scan l' (S k) dev inum empty'
  end.

Definition iget (dev inum : Z) : M (core B) nat :=
  l <- gets c_icache ;;
  match iget_scan l 0 dev inum None with
  | inl ip => upd_inode ip (fun i => set_i_ref (i_ref i + 1) i) ;; ret ip
  | inr None => panic "iget: no inodes"
  | inr (Some ip) =>
      upd_inode ip (fun i =>
        mkInode dev inum 1 (i_locked i) (i_lkpid i) 0 (i_type i) (i_major i)
          (i_minor i) (i_nlink i) (i_size i) (i_addrs i)) ;;
      ret ip
  end.

(** fs.c:ialloc *)
Fixpoint ialloc_loop (fuel : nat) (dev type inum : Z) : M (core B) nat :=
  sb <- sb_get ;;
  if inum <? sb_ninodes sb then
    match fuel with
    | O => undef
    | S fuel' =>
        let bno := IBLOCK inum sb in
        d <- blk (bread dev bno) ;;
        let off := Z.to_nat (inum mod IPB * sizeof_dinode) in
        if d_type (dinode_read off d) =? 0 then
          blk (log_write dev bno
                 (splice off (le_bytes 2 type ++ replicate 62 0) d)) ;;
          blk (brelse dev bno) ;;
          iget dev inum
        else
          blk (brelse dev bno) ;;
          ialloc_loop fuel' dev type (inum + 1)
    end
  else panic "ialloc: no inodes".

Definition ialloc (dev type : Z) : M (core B) nat :=
  sb <- sb_get ;; ialloc_loop (Z.to_nat (sb_ninodes sb)) dev type 1.

(** fs.c:iupdate *)
Definition iupdate (ip : nat) : M (core B) unit :=
  sb <- sb_get ;;
  i <- inode_at ip ;;
  let bno := IBLOCK (i_inum i) sb in
  d <- blk (bread (i_dev i) bno) ;;
  let off := Z.to_nat (i_inum i mod IPB * sizeof_dinode) in
  blk (log_write (i_dev i) bno (splice off (dinode_bytes (dinode_of i)) d)) ;;
  blk (brelse (i_dev i) bno).

(** fs.c:idup *)
Definition idup (ip : nat) : M (core B) nat :=
  upd_inode ip (fun i => set_i_ref (i_ref i + 1) i) ;; ret ip.

(** sleeplock.c:acquiresleep, releasesleep and holdingsleep on an inode *)
Definition iacquiresleep (ip : nat) : M (core B) unit :=
  i <- inode_at ip ;;
  if i_locked i then sleep_forever
  else p <- myproc ;; upd_inode ip (set_i_lock true (p_pid p)).

Definition ireleasesleep (ip : nat) : M (core B) unit :=
  upd_inode ip (set_i_lock false 0).

Definition iholdingsleep (ip : nat) : M (core B) bool :=
  i <- inode_at ip ;; p <- myproc ;;
  ret (i_locked i && (i_lkpid i =? p_pid p)).

(** fs.c:ilock *)
Definition ilock (ip : nat) : M (core B) unit :=
  i <- inode_at ip ;;
  if i_ref i <? 1 then panic "ilock"
  else
    iacquiresleep ip ;;
    if i_valid i =? 0 then
      sb <- sb_get ;;
      let bno := IBLOCK (i_inum i) sb in
      d <- blk (bread (i_dev i) bno) ;;
      let di := dinode_read (Z.to_nat (i_inum i mod IPB * sizeof_dinode)) d in
      upd_inode ip (load_dinode di) ;;
      blk (brelse (i_dev i) bno) ;;
      upd_inode ip (set_i_valid 1) ;;
      if d_type di =? 0 then panic "ilock: no type" else ret tt
    else ret tt.

(** fs.c:iunlock *)
Definition iunlock (ip : nat) : M (core B) unit :=
  h <- iholdingsleep ip ;;
  i <- inode_at ip ;;
  if negb h || (i_ref i <? 1) then panic "iunlock" else ireleasesleep ip.

(** fs.c:itrunc.  The two loops: direct blocks, then the entries of the
    indirect block. *)
Fixpoint itrunc_direct (fuel : nat) (ip : nat) (k : Z) : M (core B) unit :=
  match fuel with
  | O => ret tt
  | S fuel' =>
      i <- inode_at ip ;;
      a <- aget (i_addrs i) k ;;
      whenM (negb (a =? 0)) (bfree (i_dev i) a ;; upd_inode ip (set_i_addr k 0)) ;;
      itrunc_direct fuel' ip (k + 1)
  end.

Fixpoint itrunc_indirect (fuel : nat) (dev : Z) (d : list Z) (j : nat) : M (core B) unit :=
  match fuel with
  | O => ret tt
  | S fuel' =>
      let a := uint_at (4 * j) d in
      whenM (negb (a =? 0)) (bfree dev a) ;;
      itrunc_indirect fuel' dev d (S j)
  end.

Definition itrunc (ip : nat) : M (core B) unit :=
  itrunc_direct (Z.to_nat NDIRECT) ip 0 ;;
  i <- inode_at ip ;;
  ind <- aget (i_addrs i) NDIRECT ;;
  whenM (negb (ind =? 0))
    (d <- blk (bread (i_dev i) ind) ;;
     itrunc_indirect (Z.to_nat NINDIRECT) (i_dev i) d 0 ;;
     blk (brelse (i_dev i) ind) ;;
     bfree (i_dev i) ind ;;
     upd_inode ip (set_i_addr NDIRECT 0)) ;;
  upd_inode ip (set_i_size 0) ;;
  iupdate ip.

(** fs.c:iput *)
Definition iput (ip : nat) : M (core B) unit :=
  iacquiresleep ip ;;
  i <- inode_at ip ;;
  whenM (negb (i_valid i =? 0) && (i_nlink i =? 0))
    (if i_ref i =? 1 then
       itrunc ip ;;
       upd_inode ip (set_i_type 0) ;;
       iupdate ip ;;
       upd_inode ip (set_i_valid 0)
     else ret tt) ;;
  ireleasesleep ip ;;
  upd_inode ip (fun i => set_i_ref (i_ref i - 1) i).

(** fs.c:iunlockput *)
Definition iunlockput (ip : nat) : M (core B) unit := iunlock ip ;; iput ip.

(** ** Inode content *)

(** fs.c:bmap *)
Definition bmap (ip : nat) (bn : Z) : M (core B) Z :=
  i <- inode_at ip ;;
  if bn <? NDIRECT then
    addr <- aget (i_addrs i) bn ;;
    if addr =? 0 then
      addr' <- balloc (i_dev i) ;;
      upd_inode ip (set_i_addr bn addr') ;;
      ret addr'
    else ret addr
  else
    let bn := bn - NDIRECT in
    if bn <? NINDIRECT then
      ind0 <- aget (i_addrs i) NDIRECT ;;
      ind <- (if ind0 =? 0 then
                ind' <- balloc (i_dev i) ;;
                upd_inode ip (set_i_addr NDIRECT ind') ;;
                ret ind'
              else ret ind0) ;;
      d <- blk (bread (i_dev i) ind) ;;
      let addr := uint_at (Z.to_nat (4 * bn)) d in
      addr' <- (if addr =? 0 then
                  addr' <- balloc (i_dev i) ;;
                  blk (log_write (i_dev i) ind
                         (splice (Z.to_nat (4 * bn)) (le_bytes 4 addr') d)) ;;
                  ret addr'
                else ret addr) ;;
      blk (brelse (i_dev i) ind) ;;
      ret addr'
    else panic "bmap: out of range".

(** fs.c:stati *)
Definition stati (ip : nat) : M (core B) stat :=
  i <- inode_at ip ;;
  ret (mkStat (i_type i) (s32 (i_dev i)) (i_inum i) (i_nlink i) (i_size i)).

(** ** The console device (console.c) *)

Definition INPUT_BUF : Z := 128.

(** console.c:consputc, for a character *)
Definition consputc (c : Z) : M (core B) unit :=
  modify (fun s => set_screen (c_screen s ++ [c]) s).

Definition set_in_r (v : Z) (i : input) : input := mkInput (in_buf i) v (in_w i) (in_e i).

(** console.c:consoleread's loop; [n] is the number of bytes still wanted and
    the result is the bytes read, or [None] when the process was killed. *)
Fixpoint consoleread_loop (n : nat) (target : Z) (acc : list Z)
  : M (core B) (bool * list Z) :=
  match n with
  | O => ret (true, acc)
  | S n' =>
      i <- gets c_input ;;
      if in_r i =? in_w i then
        p <- myproc ;;
        if negb (p_killed p =? 0) then ret (false, acc) else sleep_forever
      else
        c <- aget (in_buf i) (in_r i mod INPUT_BUF) ;;
        modify (fun s => set_input (set_in_r (u32 (in_r i + 1)) i) s) ;;
        if c =? 4 then   (* C('D'): end of file *)
          whenM (Z.of_nat n <? target) (modify (fun s => set_input i s)) ;;
          ret (true, acc)
        else if c =? 10 then ret (true, acc ++ [c])
        else consoleread_loop n' target (acc ++ [c])
  end.

(** console.c:consoleread *)
Definition consoleread (ip : nat) (n : Z) : M (core B) (Z * list Z) :=
  iunlock ip ;;
  let* (ok, bs) := consoleread_loop (Z.to_nat n) n [] in
  ilock ip ;;
  ret (if ok : bool then zlen bs else -1, bs).

(** console.c:consolewrite *)
Fixpoint consolewrite_loop (buf : list Z) : M (core B) unit :=
  match buf with
  | [] => ret tt
  | c :: buf' => consputc (Z.land c 255) ;; consolewrite_loop buf'
  end.

Definition consolewrite (ip : nat) (buf : list Z) : M (core B) Z :=
  iunlock ip ;;
  consolewrite_loop buf ;;
  ilock ip ;;
  ret (zlen buf).

(** ** readi and writei *)

(** fs.c:readi's copy loop *)
Fixpoint readi_loop (fuel : nat) (ip : nat) (off tot n : Z) (acc : list Z)
  : M (core B) (list Z) :=
  if tot <? n then
    match fuel with
    | O => undef
    | S fuel' =>
        i <- inode_at ip ;;
        bno <- bmap ip (off / BSIZE) ;;
        d <- blk (bread (i_dev i) bno) ;;
        let m := Z.min (n - tot) (BSIZE - off mod BSIZE) in
        let part := slice (Z.to_nat (off mod BSIZE)) (Z.to_nat m) d in
        blk (brelse (i_dev i) bno) ;;
        readi_loop fuel' ip (off + m) (tot + m) n (acc ++ part)
    end
  else ret acc.

(** fs.c:readi; returns the C result and the bytes stored at [dst]. *)
Definition readi (ip : nat) (off n : Z) : M (core B) (Z * list Z) :=
  i <- inode_at ip ;;
  if i_type i =? T_DEV then
    if (i_major i <? 0) || (i_major i >=? NDEV) || negb (i_major i =? CONSOLE)
    then ret (-1, [])
    else consoleread ip (s32 n)
  else if (off >? i_size i) || (u32 (off + n) <? off) then ret (-1, [])
  else
    let n := if u32 (off + n) >? i_size i then i_size i - off else n in
    bs <- readi_loop (Z.to_nat (n / BSIZE + 2)) ip off 0 n [] ;;
    ret (s32 n, bs).

(** fs.c:writei's copy loop; returns the final [off]. *)
Fixpoint writei_loop (fuel : nat) (ip : nat) (src : list Z) (off tot n : Z)
  : M (core B) Z :=
  if tot <? n then
    match fuel with
    | O => undef
    | S fuel' =>
        i <- inode_at ip ;;
        bno <- bmap ip (off / BSIZE) ;;
        d <- blk (bread (i_dev i) bno) ;;
        let m := Z.min (n - tot) (BSIZE - off mod BSIZE) in
        blk (log_write (i_dev i) bno
               (splice (Z.to_nat (off mod BSIZE))
                  (slice (Z.to_nat tot) (Z.to_nat m) src) d)) ;;
        blk (brelse (i_dev i) bno) ;;
        writei_loop fuel' ip src (off + m) (tot + m) n
    end
  else ret off.

(** fs.c:writei; [n] is the length of [src]. *)
Definition writei (ip : nat) (src : list Z) (off : Z) : M (core B) Z :=
  let n := zlen src in
  i <- inode_at ip ;;
  if i_type i =? T_DEV then
    if (i_major i <? 0) || (i_major i >=? NDEV) || negb (i_major i =? CONSOLE)
    then ret (-1)
    else consolewrite ip src
  else if (off >? i_size i) || (u32 (off + n) <? off) then ret (-1)
  else if u32 (off + n) >? MAXFILE * BSIZE then ret (-1)
  else
    off' <- writei_loop (Z.to_nat (n / BSIZE + 2)) ip src off 0 n ;;
    i' <- inode_at ip ;;
    whenM ((n >? 0) && (off' >? i_size i'))
      (upd_inode ip (set_i_size off') ;; iupdate ip) ;;
    ret n.

(** ** Directories *)

(** fs.c:namecmp *)
Definition namecmp (s t : list Z) : M (core B) Z :=
  from_option_undef (CString.strncmp s t (Z.to_nat DIRSIZ)).

(** fs.c:dirlookup; returns the inode and the offset of its entry. *)
Fixpoint dirlookup_loop (fuel : nat) (dp : nat) (name : list Z) (off : Z)
  : M (core B) (option (nat * Z)) :=
  i <- inode_at dp ;;
  if off <? i_size i then
    match fuel with
    | O => undef
    | S fuel' =>
        let* (r, de) := readi dp off sizeof_dirent in
        if negb (r =? sizeof_dirent) then panic "dirlookup read"
        else if de_inum de =? 0 then dirlookup_loop fuel' dp name (off + sizeof_dirent)
        else
          c <- namecmp name (de_name de) ;;
          if c =? 0 then
            ip <- iget (i_dev i) (de_inum de) ;;
            ret (Some (ip, off))
          else dirlookup_loop fuel' dp name (off + sizeof_dirent)
    end
  else ret None.

Definition dirlookup (dp : nat) (name : list Z) : M (core B) (option (nat * Z)) :=
  i <- inode_at dp ;;
  if negb (i_type i =? T_DIR) then panic "dirlookup not DIR"
  else dirlookup_loop (Z.to_nat (i_size i / sizeof_dirent + 1)) dp name 0.

(** fs.c:dirlink's search for an empty entry *)
Fixpoint dirlink_scan (fuel : nat) (dp : nat) (off : Z) : M (core B) Z :=
  i <- inode_at dp ;;
  if off <? i_size i then
    match fuel with
    | O => undef
    | S fuel' =>
        let* (r, de) := readi dp off sizeof_dirent in
        if negb (r =? sizeof_dirent) then panic "dirlink read"
        else if de_inum de =? 0 then ret off
        else dirlink_scan fuel' dp (off + sizeof_dirent)
    end
  else ret off.

(** fs.c:dirlink *)
Definition dirlink (dp : nat) (name : list Z) (inum : Z) : M (core B) Z :=
  r <- dirlookup dp name ;;
  match r with
  | Some (ip, _) => iput ip ;; ret (-1)
  | None =>
      i <- inode_at dp ;;
      off <- dirlink_scan (Z.to_nat (i_size i / sizeof_dirent + 1)) dp 0 ;;
      nm <- from_option_undef (CString.strncpy name (Z.to_nat DIRSIZ)) ;;
      w <- writei dp (le_bytes 2 inum ++ nm) off ;;
      if negb (w =? sizeof_dirent) then panic "dirlink" else ret 0
  end.

(** ** Paths *)

Definition slash : Z := 47.

Fixpoint skip_slashes (path : list Z) : list Z :=
  match path with
  | c :: path' => if c =? slash then skip_slashes path' else path
  | [] => []
  end.

Fixpoint span_elem (path : list Z) : list Z * list Z :=
  match path with
  | c :: path' =>
      if c =? slash then ([], path)
      else let '(e, rest) := span_elem path' in (c :: e, rest)
  | [] => ([], [])
  end.

(** fs.c:skipelem.  A path is the list of its characters without the NUL; the
    second component of the result is the [name] array after the call. *)
Definition skipelem (path name : list Z) : option (list Z * list Z) :=
  let path := skip_slashes path in
  match path with
  | [] => None
  | _ =>
      let '(s, rest) := span_elem path in
      let len := zlen s in
      let name' :=
        if len >=? DIRSIZ then splice 0 (take (Z.to_nat DIRSIZ) s) name
        else splice 0 (s ++ [0]) name in
      Some (skip_slashes rest, name')
  end.

(** fs.c:namex; the loop consumes at least one character of the path. *)
Fixpoint namex_loop (fuel : nat) (ip : nat) (path : list Z) (nameiparent : bool)
    (name : list Z) : M (core B) (option nat * list Z) :=
  match skipelem path name with
  | None =>
      if nameiparent then iput ip ;; ret (None, name) else ret (Some ip, name)
  | Some (path', name') =>
      match fuel with
      | O => undef
      | S fuel' =>
          ilock ip ;;
          i <- inode_at ip ;;
          if negb (i_type i =? T_DIR) then iunlockput ip ;; ret (None, name')
          else if nameiparent && bool_decide (path' = []) then
            iunlock ip ;; ret (Some ip, name')
          else
            next <- dirlookup ip name' ;;
            match next with
            | None => iunlockput ip ;; ret (None, name')
            | Some (nip, _) =>
                iunlockput ip ;;
                namex_loop fuel' nip path' nameiparent name'
            end
      end
  end.

Definition namex (path : list Z) (nameiparent : bool) (name : list Z)
  : M (core B) (option nat * list Z) :=
  ip <- (match path with
         | c :: _ =>
             if c =? slash then iget ROOTDEV ROOTINO
             else p <- myproc ;; idup (p_cwd p)
         | [] => p <- myproc ;; idup (p_cwd p)
         end) ;;
  namex_loop (length path) ip path nameiparent name.

(** The callers' [char name[DIRSIZ]]: its bytes are written before they are
    read. *)
Definition name_buf : list Z := replicate (Z.to_nat DIRSIZ) 0.

(** fs.c:namei *)
Definition namei (path : list Z) : M (core B) (option nat) :=
  let* (r, _) := namex path false name_buf in ret r.

(** fs.c:nameiparent *)
Definition nameiparent (path : list Z) : M (core B) (option nat * list Z) :=
  namex path true name_buf.

End fs.
End Fs.
