(* ===== verification/File.v ===== *)
(** * file.c and the file-table half of pipe.c

    Open files, their reference counts, and the dispatch of read, write, stat
    and close to pipes and inodes. *)
From S2P Require Import Prelude Words Params Kalloc Pipe Core Fs.

Module File.
Import Fs.

Section file.
Context {B : Type} {BL : BlockLayer B} (end_ : Z).

(** file.c:filealloc *)
Fixpoint filealloc_scan (l : list file) (k : nat) : option nat :=
  match l with
  | [] => None
  | f :: l' => if f_ref f =? 0 then Some k else filealloc_scan l' (S k)
  end.

Definition filealloc : M (core B) (option nat) :=
  l <- gets c_ftable ;;
  match filealloc_scan l 0 with
  | Some f => upd_file f (set_f_ref 1) ;; ret (Some f)
  | None => ret None
  end.

(** file.c:filedup *)
Definition filedup (fp : nat) : M (core B) nat :=
  f <- file_at fp ;;
  if f_ref f <? 1 then panic "filedup"
  else upd_file fp (set_f_ref (f_ref f + 1)) ;; ret fp.

Definition pipe_at (a : Z) : M (core B) Pipe.pipe :=
  m <- gets c_pipes ;; from_option_undef (m !! a).

Definition upd_pipe (a : Z) (p : Pipe.pipe) : M (core B) unit :=
  modify (fun c => set_pipes (<[a := p]> (c_pipes c)) c).

Definition kmem_op {A} (m : M Kalloc.kmem A) : M (core B) A := zoom c_kmem set_kmem m.

(** pipe.c:pipeclose on a pipe of the kernel heap *)
Definition pipeclose (a : Z) (writable : bool) : M (core B) unit :=
  p <- pipe_at a ;;
  let '(p', freed) := Pipe.pipeclose writable p in
  if freed : bool then
    modify (fun c => set_pipes (delete a (c_pipes c)) c) ;;
    kmem_op (Kalloc.kfree end_ a)
  else upd_pipe a p'.

(** file.c:fileclose *)
Definition fileclose (fp : nat) : M (core B) unit :=
  f <- file_at fp ;;
  if f_ref f <? 1 then panic "fileclose"
  else if f_ref f - 1 >? 0 then upd_file fp (set_f_ref (f_ref f - 1))
  else
    upd_file fp (fun f => set_f_type FD_NONE (set_f_ref 0 f)) ;;
    match f_type f with
    | FD_PIPE => pipeclose (f_pipe f) (negb (f_writable f =? 0))
    | FD_INODE => blk begin_op ;; iput (f_ip f) ;; blk end_op
    | FD_NONE => ret tt
    end.

(** file.c:filestat; [None] is the -1 result. *)
Definition filestat (fp : nat) : M (core B) (option stat) :=
  f <- file_at fp ;;
  match f_type f with
  | FD_INODE =>
      ilock (f_ip f) ;;
      st <- stati (f_ip f) ;;
      iunlock (f_ip f) ;;
      ret (Some st)
  | _ => ret None
  end.

(** pipe.c:piperead and pipe.c:pipewrite on a pipe of the kernel heap *)
Definition piperead (a : Z) (n : Z) : M (core B) (Z * list Z) :=
  p <- pipe_at a ;;
  pr <- myproc ;;
  let '(r, p') := Pipe.piperead (negb (p_killed pr =? 0)) n p in
  upd_pipe a p' ;;
  match r with
  | Pipe.PR_done bs => ret (zlen bs, bs)
  | Pipe.PR_fail => ret (-1, [])
  | Pipe.PR_sleep => sleep_forever
  end.

Definition pipewrite (a : Z) (src : list Z) : M (core B) Z :=
  p <- pipe_at a ;;
  pr <- myproc ;;
  let '(r, p') := Pipe.pipewrite (negb (p_killed pr =? 0)) src p in
  upd_pipe a p' ;;
  match r with
  | Pipe.PW_done => ret (zlen src)
  | Pipe.PW_fail => ret (-1)
  | Pipe.PW_sleep _ => sleep_forever
  end.

(** file.c:fileread; returns the C result and the bytes stored at [addr]. *)
Definition fileread (fp : nat) (n : Z) : M (core B) (Z * list Z) :=
  f <- file_at fp ;;
  if f_readable f =? 0 then ret (-1, [])
  else
    match f_type f with
    | FD_PIPE => piperead (f_pipe f) n
    | FD_INODE =>
        ilock (f_ip f) ;;
        let* (r, bs) := readi (f_ip f) (f_off f) (u32 n) in
        whenM (r >? 0) (upd_file fp (set_f_off (u32 (f_off f + r)))) ;;
        iunlock (f_ip f) ;;
        ret (r, bs)
    | FD_NONE => panic "fileread"
    end.

(** file.c:filewrite's loop on an inode: [((MAXOPBLOCKS-1-1-2)/2)*512] bytes a
    transaction; returns the number of bytes written before it stopped. *)
Definition write_max : Z := ((MAXOPBLOCKS - 1 - 1 - 2) / 2) * 512.

Fixpoint filewrite_loop (fuel : nat) (fp : nat) (src : list Z) (i n : Z)
  : M (core B) Z :=
  if i <? n then
    match fuel with
    | O => undef
    | S fuel' =>
        let n1 := if n - i >? write_max then write_max else n - i in
        f <- file_at fp ;;
        blk begin_op ;;
        ilock (f_ip f) ;;
        r <- writei (f_ip f) (slice (Z.to_nat i) (Z.to_nat n1) src) (f_off f) ;;
        whenM (r >? 0) (upd_file fp (set_f_off (u32 (f_off f + r)))) ;;
        iunlock (f_ip f) ;;
        blk end_op ;;
        if r <? 0 then ret i
        else if negb (r =? n1) then panic "short filewrite"
        else filewrite_loop fuel' fp src (i + r) n
    end
  else ret i.

(** file.c:filewrite; [n] is the length of [src]. *)
Definition filewrite (fp : nat) (src : list Z) : M (core B) Z :=
  let n := zlen src in
  f <- file_at fp ;;
  if f_writable f =? 0 then ret (-1)
  else
    match f_type f with
    | FD_PIPE => pipewrite (f_pipe f) src
    | FD_INODE =>
        i <- filewrite_loop (Z.to_nat (n / write_max + 1)) fp src 0 n ;;
        ret (if i =? n then n else -1)
    | FD_NONE => panic "filewrite"
    end.

(** pipe.c:pipealloc; [junk] is the old content of the allocated page. *)
Definition pipealloc (junk : list Z) : M (core B) (option (nat * nat)) :=
  let bad (f0 f1 : option nat) : M (core B) (option (nat * nat)) :=
    (match f0 with Some f => fileclose f | None => ret tt end ;;
     match f1 with Some f => fileclose f | None => ret tt end ;;
     ret None) in
  of0 <- filealloc ;;
  match of0 with
  | None => bad None None
  | Some f0 =>
      of1 <- filealloc ;;
      match of1 with
      | None => bad (Some f0) None
      | Some f1 =>
          a <- kmem_op Kalloc.kalloc ;;
          if a =? 0 then bad (Some f0) (Some f1)
          else
            upd_pipe a (Pipe.pipe_init junk) ;;
            upd_file f0 (fun f => mkFile FD_PIPE (f_ref f) 1 0 a (f_ip f) (f_off f)) ;;
            upd_file f1 (fun f => mkFile FD_PIPE (f_ref f) 0 1 a (f_ip f) (f_off f)) ;;
            ret (Some (f0, f1))
      end
  end.

End file.
End File.
