(* ===== verification/Mkfs.v ===== *)
(** * mkfs.c: building a file-system image

    The image is a map from sector numbers to blocks.  [exit(1)] and a failed
    [assert] are [Panic]. *)
From S2P Require Import Prelude Words Params CString Core Fs.

Module Mkfs.
Import Fs.

Definition NINODES : Z := 200.

(** The globals of mkfs.c *)
Definition nbitmap : Z := FSSIZE / (BSIZE * 8) + 1.
Definition ninodeblocks : Z := NINODES / IPB + 1.
Definition nlog : Z := LOGSIZE.
Definition nmeta : Z := 2 + nlog + ninodeblocks + nbitmap.
Definition nblocks : Z := FSSIZE - nmeta.

Record mstate := mkM { img : gmap Z (list Z); freeinode : Z; freeblock : Z }.

Definition set_img (v : gmap Z (list Z)) (m : mstate) : mstate :=
  mkM v (freeinode m) (freeblock m).
Definition set_freeinode (v : Z) (m : mstate) : mstate := mkM (img m) v (freeblock m).
Definition set_freeblock (v : Z) (m : mstate) : mstate := mkM (img m) (freeinode m) v.

#[local] Abbreviation I := (M mstate).

(** The superblock main fills in. *)
Definition sb : superblock :=
  mkSuperblock FSSIZE nblocks NINODES nlog 2 (2 + nlog) (2 + nlog + ninodeblocks).

Definition sb_bytes (sb : superblock) : list Z :=
  le_bytes 4 (sb_size sb) ++ le_bytes 4 (sb_nblocks sb) ++ le_bytes 4 (sb_ninodes sb) ++
  le_bytes 4 (sb_nlog sb) ++ le_bytes 4 (sb_logstart sb) ++ le_bytes 4 (sb_inodestart sb) ++
  le_bytes 4 (sb_bmapstart sb).

(** mkfs.c:wsect *)
Definition wsect (sec : Z) (buf : list Z) : I unit :=
  if sec >? FSSIZE then panic "wsect"
  else modify (fun m => set_img (<[sec := buf]> (img m)) m).

(** mkfs.c:rsect; reading past the end of the image fails. *)
Definition rsect (sec : Z) : I (list Z) :=
  if sec >? FSSIZE then panic "rsect"
  else
    m <- gets img ;;
    match m !! sec with
    | Some b => ret b
    | None => panic "read"
    end.

(** The byte offset of inode [inum] in its block *)
Definition ioff (inum : Z) : nat := Z.to_nat (inum mod IPB * sizeof_dinode).

(** mkfs.c:winode *)
Definition winode (inum : Z) (di : dinode) : I unit :=
  let bn := IBLOCK inum sb in
  buf <- rsect bn ;;
  wsect bn (splice (ioff inum) (dinode_bytes di) buf).

(** mkfs.c:rinode *)
Definition rinode (inum : Z) : I dinode :=
  buf <- rsect (IBLOCK inum sb) ;; ret (dinode_read (ioff inum) buf).

(** mkfs.c:ialloc *)
Definition ialloc (type : Z) : I Z :=
  inum <- gets freeinode ;;
  modify (set_freeinode (u32 (inum + 1))) ;;
  winode inum (mkDinode type 0 0 1 0 (replicate 13 0)) ;;
  ret inum.

(** mkfs.c:balloc's loop over the allocated blocks *)
Fixpoint set_bits (n : nat) (i : Z) (buf : list Z) : list Z :=
  match n with
  | O => buf
  | S n' =>
      set_bits n' (i + 1)
        (zset buf (i / 8) (Z.lor (nth (Z.to_nat (i / 8)) buf 0) (Z.shiftl 1 (i mod 8))))
  end.

(** mkfs.c:balloc *)
Definition balloc (used : Z) : I unit :=
  if negb (used <? BSIZE * 8) then panic "assert"
  else wsect (sb_bmapstart sb) (set_bits (Z.to_nat used) 0 (replicate (Z.to_nat BSIZE) 0)).

(** [freeblock++] *)
Definition next_block : I Z :=
  b <- gets freeblock ;; modify (set_freeblock (u32 (b + 1))) ;; ret b.

(** The choice of the block in iappend's loop: the block number and the inode
    after the call. *)
Definition append_block (fbn : Z) (din : dinode) : I (Z * dinode) :=
  let addr k := nth (Z.to_nat k) (d_addrs din) 0 in
  let set_addr k x := mkDinode (d_type din) (d_major din) (d_minor din) (d_nlink din)
                        (d_size din) (zset (d_addrs din) k x) in
  if fbn <? NDIRECT then
    if addr fbn =? 0 then b <- next_block ;; ret (b, set_addr fbn b)
    else ret (addr fbn, din)
  else
    let* (ind, din) :=
      (if addr NDIRECT =? 0 then b <- next_block ;; ret (b, set_addr NDIRECT b)
       else ret (addr NDIRECT, din)) in
    indirect <- rsect ind ;;
    let k := Z.to_nat (4 * (fbn - NDIRECT)) in
    if uint_at k indirect =? 0 then
      b <- next_block ;;
      wsect ind (splice k (le_bytes 4 b) indirect) ;;
      ret (b, din)
    else ret (uint_at k indirect, din).

(** mkfs.c:iappend's loop *)
Fixpoint iappend_loop (fuel : nat) (din : dinode) (off : Z) (p : list Z) : I (Z * dinode) :=
  if 0 <? zlen p then
    match fuel with
    | O => undef
    | S fuel' =>
        let fbn := off / BSIZE in
        if negb (fbn <? MAXFILE) then panic "assert"
        else
          let* (x, din) := append_block fbn din in
          let n1 := Z.min (zlen p) ((fbn + 1) * BSIZE - off) in
          buf <- rsect x ;;
          wsect x (splice (Z.to_nat (off - fbn * BSIZE)) (take (Z.to_nat n1) p) buf) ;;
          iappend_loop fuel' din (off + n1) (drop (Z.to_nat n1) p)
    end
  else ret (off, din).

(** mkfs.c:iappend *)
Definition iappend (inum : Z) (p : list Z) : I unit :=
  din <- rinode inum ;;
  let* (off, din) := iappend_loop (S (length p)) din (d_size din) p in
  winode inum (mkDinode (d_type din) (d_major din) (d_minor din) (d_nlink din) off (d_addrs din)).

(** A [struct dirent] with the name copied by strcpy or strncpy *)
Definition dirent (inum : Z) (name : list Z) : list Z :=
  le_bytes 2 inum ++ take (Z.to_nat DIRSIZ) (name ++ replicate (Z.to_nat DIRSIZ) 0).

(** The [read]/[iappend] loop over one input file *)
Fixpoint copy_in (fuel : nat) (inum : Z) (content : list Z) : I unit :=
  match fuel, content with
  | S fuel', _ :: _ =>
      iappend inum (take (Z.to_nat BSIZE) content) ;;
      copy_in fuel' inum (drop (Z.to_nat BSIZE) content)
  | _, _ => ret tt
  end.

(** The loop over the input files; a leading [_] of a name is skipped. *)
Fixpoint add_files (rootino : Z) (files : list (list Z * list Z)) : I unit :=
  match files with
  | [] => ret tt
  | (name, content) :: files' =>
      if existsb (Z.eqb slash) name then panic "assert"
      else
        let name := match name with c :: name' => if c =? 95 then name' else name | [] => [] end in
        inum <- ialloc T_FILE ;;
        iappend rootino (dirent inum name) ;;
        copy_in (length content) inum content ;;
        add_files rootino files'
  end.

(** mkfs.c:main: the image is first zeroed, then the superblock, the root
    directory, the files and the bitmap are written. *)
Definition zero_img : gmap Z (list Z) :=
  list_to_map ((fun i => (Z.of_nat i, replicate (Z.to_nat BSIZE) 0)) <$> seq 0 (Z.to_nat FSSIZE)).

Definition main (files : list (list Z * list Z)) : I unit :=
  modify (set_freeblock nmeta) ;;
  modify (set_img zero_img) ;;
  wsect 1 (splice 0 (sb_bytes sb) (replicate (Z.to_nat BSIZE) 0)) ;;
  rootino <- ialloc T_DIR ;;
  if negb (rootino =? ROOTINO) then panic "assert"
  else
    iappend rootino (dirent rootino [46]) ;;
    iappend rootino (dirent rootino [46; 46]) ;;
    add_files rootino files ;;
    din <- rinode rootino ;;
    winode rootino (mkDinode (d_type din) (d_major din) (d_minor din) (d_nlink din)
                      ((d_size din / BSIZE + 1) * BSIZE) (d_addrs din)) ;;
    fb <- gets freeblock ;;
    balloc fb.

Definition start : mstate := mkM ∅ 1 0.

(** The image mkfs leaves, if it does not fail. *)
Definition mkfs (files : list (list Z * list Z)) : option (gmap Z (list Z)) :=
  match main files start with Ok _ m => Some (img m) | _ => None end.

End Mkfs.
