(* ===== verification/Syscall.v ===== *)
(** * syscall.c: fetching system-call arguments from user memory

    A fetch that fails is [None]; the C code returns -1 and leaves the
    destination as it was.  A string argument is returned as its characters
    before the NUL. *)
From S2P Require Import Prelude Words Params CString Core.

Module Syscall.

Section syscall.
Context {B : Type}.

(** syscall.c:fetchint *)
Definition fetchint (addr : Z) : M (core B) (option Z) :=
  p <- myproc ;;
  if (addr >=? p_sz p) || (u32 (addr + 4) >? p_sz p) then ret None
  else w <- read_user addr 4 ;; ret (Some (s32 (le_val w))).

(** The bytes before the first NUL, if there is one. *)
Fixpoint until_nul (l : list Z) : option (list Z) :=
  match l with
  | [] => None
  | c :: l' => if c =? 0 then Some [] else s ← until_nul l'; Some (c :: s)
  end.

(** syscall.c:fetchstr *)
Definition fetchstr (addr : Z) : M (core B) (option (list Z)) :=
  p <- myproc ;;
  if addr >=? p_sz p then ret None
  else ret (until_nul (drop (Z.to_nat addr) (p_mem p))).

(** syscall.c:argint *)
Definition argint (n : Z) : M (core B) (option Z) :=
  p <- myproc ;; fetchint (u32 (p_esp p + 4 + 4 * n)).

(** syscall.c:argptr; the result is the pointer. *)
Definition argptr (n size : Z) : M (core B) (option Z) :=
  oi <- argint n ;;
  match oi with
  | None => ret None
  | Some i =>
      p <- myproc ;;
      if (size <? 0) || (u32 i >=? p_sz p) || (u32 (u32 i + size) >? p_sz p)
      then ret None
      else ret (Some (u32 i))
  end.

(** syscall.c:argstr *)
Definition argstr (n : Z) : M (core B) (option (list Z)) :=
  oa <- argint n ;;
  match oa with
  | None => ret None
  | Some a => fetchstr (u32 a)
  end.

End syscall.
End Syscall.
