(* ===== verification/RR.v ===== *)
(** * rr.h and the recorder half of sysproc.c

    System-call records (SCRs), the globals of the recorder, and the routines
    that build, store, compare, encode and decode records.

    [union Val] is 204 bytes of raw memory; its members are views of those
    bytes at the C offsets, so reading a member other than the one last
    written gives what the C code reads.  Bytes the C code leaves
    uninitialised on the kernel stack come from the section variable [junk],
    about which nothing is assumed but its size.  The [cprintf] diagnostics
    are not represented. *)
From S2P Require Import Prelude Words Params CString Core Fs.

Module RR.

(** ** rr.h *)

(** rr.h:union Val *)
Definition sizeof_Val : nat := 204.

Definition val_num (v : list Z) : Z := s32 (le_val (slice 0 4 v)).
Definition val_unum (v : list Z) : Z := le_val (slice 0 4 v).
Definition raw_size (v : list Z) : Z := s32 (le_val (slice 0 4 v)).
Definition raw_data (v : list Z) : list Z := slice 4 200 v.
Definition st_of (v : list Z) : Fs.stat :=
  Fs.mkStat (s16 (le_val (slice 0 2 v))) (s32 (le_val (slice 4 4 v)))
    (le_val (slice 8 4 v)) (s16 (le_val (slice 12 2 v))) (le_val (slice 16 4 v)).

Definition put_num (n : Z) (v : list Z) : list Z := splice 0 (le_bytes 4 n) v.
Definition put_raw (size : Z) (data : list Z) (v : list Z) : list Z :=
  splice 4 data (splice 0 (le_bytes 4 size) v).
Definition put_st (st : Fs.stat) (v : list Z) : list Z :=
  splice 0 (le_bytes 2 (Fs.st_type st))
    (splice 4 (le_bytes 4 (Fs.st_dev st))
       (splice 8 (le_bytes 4 (Fs.st_ino st))
          (splice 12 (le_bytes 2 (Fs.st_nlink st))
             (splice 16 (le_bytes 4 (Fs.st_size st)) v)))).

(** rr.h:struct Arg and struct SCR *)
Record Arg := mkArg { a_type : Z; a_val : list Z }.
Record SCR := mkSCR { scr_syscall : Z; scr_argc : Z; scr_args : list Arg }.

(** The globals of rr.h and trap.c *)
Record rr := mkRR {
  record_syscalls : Z;        (* uint *)
  replay_syscalls : Z;        (* uint *)
  record_filename : list Z;   (* char[256] *)
  replay_filename : list Z;   (* char[256] *)
  recorded_scrs : list SCR;   (* [MAX_SCRS] *)
  scrs_idx : Z;               (* int *)
  buffer : list Z;            (* char[MAX_FILE_SIZE] *)
  buffer_pos : Z;             (* int *)
  rr_pid : Z                  (* int *)
}.

Definition set_record (v : Z) (r : rr) : rr :=
  mkRR v (replay_syscalls r) (record_filename r) (replay_filename r)
    (recorded_scrs r) (scrs_idx r) (buffer r) (buffer_pos r) (rr_pid r).
Definition set_replay (v : Z) (r : rr) : rr :=
  mkRR (record_syscalls r) v (record_filename r) (replay_filename r)
    (recorded_scrs r) (scrs_idx r) (buffer r) (buffer_pos r) (rr_pid r).
Definition set_record_filename (v : list Z) (r : rr) : rr :=
  mkRR (record_syscalls r) (replay_syscalls r) v (replay_filename r)
    (recorded_scrs r) (scrs_idx r) (buffer r) (buffer_pos r) (rr_pid r).
Definition set_replay_filename (v : list Z) (r : rr) : rr :=
  mkRR (record_syscalls r) (replay_syscalls r) (record_filename r) v
    (recorded_scrs r) (scrs_idx r) (buffer r) (buffer_pos r) (rr_pid r).
Definition set_scrs (v : list SCR) (r : rr) : rr :=
  mkRR (record_syscalls r) (replay_syscalls r) (record_filename r) (replay_filename r)
    v (scrs_idx r) (buffer r) (buffer_pos r) (rr_pid r).
Definition set_idx (v : Z) (r : rr) : rr :=
  mkRR (record_syscalls r) (replay_syscalls r) (record_filename r) (replay_filename r)
    (recorded_scrs r) v (buffer r) (buffer_pos r) (rr_pid r).
Definition set_buffer (v : list Z) (r : rr) : rr :=
  mkRR (record_syscalls r) (replay_syscalls r) (record_filename r) (replay_filename r)
    (recorded_scrs r) (scrs_idx r) v (buffer_pos r) (rr_pid r).
Definition set_pos (v : Z) (r : rr) : rr :=
  mkRR (record_syscalls r) (replay_syscalls r) (record_filename r) (replay_filename r)
    (recorded_scrs r) (scrs_idx r) (buffer r) v (rr_pid r).
Definition set_rr_pid (v : Z) (r : rr) : rr :=
  mkRR (record_syscalls r) (replay_syscalls r) (record_filename r) (replay_filename r)
    (recorded_scrs r) (scrs_idx r) (buffer r) (buffer_pos r) v.

(** The whole state of the modelled kernel. *)
Record kstate (B : Type) := mkK { k_rr : rr; k_core : core B }.
Arguments mkK {B}.
Arguments k_rr {B}.
Arguments k_core {B}.

Definition set_core {B} (c : core B) (s : kstate B) : kstate B := mkK (k_rr s) c.
Definition set_rr {B} (r : rr) (s : kstate B) : kstate B := mkK r (k_core s).

(** Routines of the rest of the kernel do not see the recorder. *)
Definition kcore {B A} (m : M (core B) A) : M (kstate B) A := zoom k_core set_core m.
Definition upd_rr {B} (f : rr -> rr) : M (kstate B) unit :=
  modify (fun s => set_rr (f (k_rr s)) s).

(** sysproc.c:get1stOutputPos *)
Definition get1stOutputPos (syscall : Z) : Z :=
  if (syscall =? SYS_uptime) || (syscall =? SYS_getpid) then 0
  else if (syscall =? SYS_fstat) || (syscall =? SYS_close) || (syscall =? SYS_mkdir)
          || (syscall =? SYS_chdir) || (syscall =? SYS_unlink) then 1
  else if (syscall =? SYS_read) || (syscall =? SYS_open) || (syscall =? SYS_link) then 2
  else if syscall =? SYS_mknod then 3
  else -1.

Section rr.
Context {B : Type} (junk : list Z).

#[local] Abbreviation K := (M (kstate B)).

(** sysproc.c:isRecOrReplay, isRecording and isReplaying *)
Definition isRecOrReplay : K bool := gets (fun s =>
  (record_syscalls (k_rr s) =? 1) && (replay_syscalls (k_rr s) =? 1) &&
  (rr_pid (k_rr s) =? p_pid (c_proc (k_core s)))).

Definition isRecording : K bool := gets (fun s =>
  (record_syscalls (k_rr s) =? 1) && (rr_pid (k_rr s) =? p_pid (c_proc (k_core s)))).

Definition isReplaying : K bool := gets (fun s =>
  (replay_syscalls (k_rr s) =? 1) && (rr_pid (k_rr s) =? p_pid (c_proc (k_core s)))).

(** sysproc.c:RecRepErr: the flags are uints, so -1 is [2^32 - 1]. *)
Definition RecRepErr : K unit :=
  kcore (upd_proc (set_p_killed 1)) ;;
  upd_rr (fun r => set_record (u32 (-1)) (set_replay (u32 (-1)) r)).

(** The common tail of the [add] functions: the argument count check only
    reports, so a fifth argument is stored outside [args]. *)
Definition addArg (scr : SCR) (arg : Arg) : K SCR :=
  whenM (scr_argc scr >=? MAX_ARGC) RecRepErr ;;
  if (0 <=? scr_argc scr) && (scr_argc scr <? zlen (scr_args scr)) then
    ret (mkSCR (scr_syscall scr) (u8 (scr_argc scr + 1))
           (zset (scr_args scr) (scr_argc scr) arg))
  else undef.

(** sysproc.c:addInt *)
Definition addInt (scr : SCR) (val : Z) : K SCR :=
  addArg scr (mkArg INT_TYPE (put_num val junk)).

(** sysproc.c:addUInt *)
Definition addUInt (scr : SCR) (val : Z) : K SCR :=
  addArg scr (mkArg UINT_TYPE (put_num val junk)).

(** sysproc.c:addStr on a string given by its characters: a string longer than
    [MAX_RAW_SIZE] is reported and then copied past the end of [raw.data]. *)
Definition addStr (scr : SCR) (s : list Z) : K SCR :=
  whenM (zlen s >? MAX_RAW_SIZE) RecRepErr ;;
  if zlen s <=? MAX_RAW_SIZE then
    addArg scr (mkArg BYTE_TYPE
      (put_raw (zlen s) (splice 0 s (replicate (Z.to_nat MAX_RAW_SIZE) 0)) junk))
  else undef.

(** sysproc.c:addRaw copies [size] bytes of user memory at [p]. *)
Definition addRaw (scr : SCR) (p size : Z) : K SCR :=
  whenM (size >? MAX_RAW_SIZE) RecRepErr ;;
  if (0 <=? size) && (size <=? MAX_RAW_SIZE) then
    bs <- kcore (read_user p size) ;;
    addArg scr (mkArg BYTE_TYPE
      (put_raw size (splice 0 bs (replicate (Z.to_nat MAX_RAW_SIZE) 0)) junk))
  else undef.

(** sysproc.c:addStat *)
Definition addStat (scr : SCR) (st : Fs.stat) : K SCR :=
  addArg scr (mkArg STAT_TYPE (put_st st junk)).

(** sysproc.c:createSCR: type NONE and zeroed data; the first word of the
    union stays uninitialised. *)
Definition createSCR (syscall : Z) : SCR :=
  mkSCR (u8 syscall) 0
    (replicate (Z.to_nat MAX_ARGC)
       (mkArg NONE_TYPE (splice 4 (replicate (Z.to_nat MAX_RAW_SIZE) 0) junk))).

(** sysproc.c:addSRC *)
Definition addSRC (scr : SCR) : K unit :=
  r <- gets k_rr ;;
  if scrs_idx r >=? MAX_SCRS then RecRepErr
  else if (0 <=? scrs_idx r) && (scrs_idx r <? zlen (recorded_scrs r)) then
    upd_rr (fun r => set_idx (scrs_idx r + 1)
                       (set_scrs (zset (recorded_scrs r) (scrs_idx r) scr) r))
  else undef.

(** sysproc.c:compareSCRS.  [args_match] is the loop over the input fields:
    it tells whether the recorded and the replayed inputs agree. *)
Fixpoint data_same (n : nat) (d1 d2 : list Z) : K bool :=
  match n with
  | O => ret true
  | S n' =>
      match d1, d2 with
      | c1 :: d1', c2 :: d2' => if c1 =? c2 then data_same n' d1' d2' else ret false
      | _, _ => undef
      end
  end.

Fixpoint args_match (fuel : nat) (i : Z) (recorded scr : SCR) : K bool :=
  match fuel with
  | O => ret true
  | S fuel' =>
      ra <- aget (scr_args recorded) i ;;
      a <- aget (scr_args scr) i ;;
      if a_type ra =? INT_TYPE then
        if val_num (a_val ra) =? val_num (a_val a)
        then args_match fuel' (i + 1) recorded scr else ret false
      else if a_type ra =? BYTE_TYPE then
        if raw_size (a_val ra) =? raw_size (a_val a) then
          same <- data_same (Z.to_nat (raw_size (a_val a)))
                    (raw_data (a_val a)) (raw_data (a_val ra)) ;;
          if same : bool then args_match fuel' (i + 1) recorded scr else ret false
        else ret false
      else ret false
  end.

Definition compareSCRS (scr : SCR) : K SCR :=
  r <- gets k_rr ;;
  if scrs_idx r >=? MAX_SCRS then RecRepErr ;; ret (createSCR UNITIALIZED_SCR)
  else
    recorded <- aget (recorded_scrs r) (scrs_idx r) ;;
    upd_rr (fun r => set_idx (scrs_idx r + 1) r) ;;
    if scr_syscall recorded =? UNITIALIZED_SCR then RecRepErr ;; ret recorded
    else if negb (scr_syscall recorded =? scr_syscall scr) then RecRepErr ;; ret recorded
    else
      ok <- args_match (Z.to_nat (get1stOutputPos (scr_syscall recorded))) 0 recorded scr ;;
      whenM (negb ok) RecRepErr ;;
      ret recorded.

(** The expression [scr.args[get1stOutputPos(scr.syscall) + k].val] *)
Definition out_val (scr : SCR) (k : Z) : K (list Z) :=
  a <- aget (scr_args scr) (get1stOutputPos (scr_syscall scr) + k) ;;
  ret (a_val a).

(** [scr.args[get1stOutputPos(scr.syscall)].val.num] *)
Definition out_num (scr : SCR) : K Z :=
  v <- out_val scr 0 ;; ret (val_num v).

(** ** The encoding of a session *)

(** sysproc.c:memmove_and_increment between [buffer + buffer_pos] and a field
    whose bytes are [field]; the result is the field after the call. *)
Definition memmove_and_increment (field : list Z) : K (list Z) :=
  r <- gets k_rr ;;
  let size := zlen field in
  let inbuf := (0 <=? buffer_pos r) && (buffer_pos r + size <=? zlen (buffer r)) in
  field' <- (if replay_syscalls r =? 1 then
               if inbuf then ret (slice (Z.to_nat (buffer_pos r)) (Z.to_nat size) (buffer r))
               else undef
             else ret field) ;;
  whenM (record_syscalls r =? 1)
    (if inbuf then upd_rr (set_buffer (splice (Z.to_nat (buffer_pos r)) field' (buffer r)))
     else undef) ;;
  upd_rr (fun r => set_pos (s32 (buffer_pos r + size)) r) ;;
  ret field'.

(** A member of the union at [off], [n] bytes long, moved to or from the
    buffer. *)
Definition move_field (off n : nat) (v : list Z) : K (list Z) :=
  f <- memmove_and_increment (slice off n v) ;;
  ret (splice off f v).

(** The [switch] of sysproc.c:bidirectionalTransform on one argument. *)
Definition transform_val (type : Z) (v : list Z) : K (list Z) :=
  if (type =? INT_TYPE) || (type =? UINT_TYPE) then move_field 0 4 v
  else if type =? BYTE_TYPE then
    v1 <- move_field 0 4 v ;;
    if (0 <=? raw_size v1) && (raw_size v1 <=? MAX_RAW_SIZE)
    then move_field 4 (Z.to_nat (raw_size v1)) v1
    else undef
  else if type =? STAT_TYPE then
    v1 <- move_field 0 2 v ;;
    v2 <- move_field 4 4 v1 ;;
    v3 <- move_field 8 4 v2 ;;
    v4 <- move_field 12 2 v3 ;;
    move_field 16 4 v4
  else RecRepErr ;; ret v.

(** The loop of bidirectionalTransform over the arguments; the boolean is
    false when it returns -1. *)
Fixpoint transform_args (fuel : nat) (i : Z) (args : list Arg) : K (bool * list Arg) :=
  match fuel with
  | O => ret (true, args)
  | S fuel' =>
      r <- gets k_rr ;;
      a <- aget args i ;;
      if (record_syscalls r =? 1) && (a_type a =? NONE_TYPE) then ret (false, args)
      else
        tb <- memmove_and_increment [a_type a] ;;
        t <- aget tb 0 ;;
        let args1 := zset args i (mkArg t (a_val a)) in
        if (replay_syscalls r =? 1) && (t =? NONE_TYPE) then ret (false, args1)
        else
          v <- transform_val t (a_val a) ;;
          transform_args fuel' (i + 1) (zset args i (mkArg t v))
  end.

(** sysproc.c:bidirectionalTransform; returns the status and the record. *)
Definition bidirectionalTransform (scr : SCR) (fileSize : Z) : K (Z * SCR) :=
  r <- gets k_rr ;;
  if buffer_pos r >? MAX_FILE_SIZE then ret (-1, scr)
  else if (replay_syscalls r =? 1) && (buffer_pos r >? fileSize) then ret (-1, scr)
  else if (record_syscalls r =? 1) && (scr_syscall scr =? UNITIALIZED_SCR) then ret (0, scr)
  else
    sb <- memmove_and_increment [scr_syscall scr] ;;
    sysc <- aget sb 0 ;;
    let scr1 := mkSCR sysc (scr_argc scr) (scr_args scr) in
    if (replay_syscalls r =? 1) && (sysc =? UNITIALIZED_SCR) then ret (0, scr1)
    else
      cb <- memmove_and_increment [scr_argc scr] ;;
      argc <- aget cb 0 ;;
      let* (ok, args) := transform_args (Z.to_nat argc) 0 (scr_args scr) in
      ret (if ok : bool then 1 else -1, mkSCR sysc argc args).

(** sysproc.c:__strcpy into a char array; [s] are the characters of the
    source string. *)
Definition strcpy_trunc (dest s : list Z) (maxlen : Z) : list Z :=
  zset (splice 0 (take (Z.to_nat maxlen) (s ++ [0])) dest) (maxlen - 1) 0.

End rr.
End RR.
