(* ===== verification/Sysfile.v ===== *)
(** * sysfile.c: the file-system calls

    Every call that takes part in record and replay has three branches in the
    source: replay, record and original.  The original branch of [sys_x] is
    [x_orig] and the body of the recording branch's [while(1)] block is
    [x_rec]; they are written down separately, as in the source, where one is
    an edited copy of the other.  Using a local variable the C code left
    uninitialised is undefined behaviour. *)
From S2P Require Import Prelude Words Params CString Kalloc Pipe Core Fs File Syscall RR.

Module Sysfile.
Import Fs File Syscall RR.

Section sysfile.
Context {B : Type} {BL : BlockLayer B} (end_ : Z) (junk : list Z).

#[local] Abbreviation K := (M (kstate B)).
#[local] Abbreviation C := (M (core B)).

(** sysfile.c:myargstr *)
Definition myargstr (pos : Z) : K (list Z) :=
  os <- kcore (argstr pos) ;;
  match os with
  | None => RecRepErr ;; ret []
  | Some s => ret s
  end.

(** sysfile.c:myargint: the returned value, and the variable it sets *)
Definition myargint (pos : Z) : K (Z * option Z) :=
  ov <- kcore (argint pos) ;;
  match ov with
  | None => RecRepErr ;; ret (-1, None)
  | Some v => ret (v, Some v)
  end.

(** sysfile.c:argfd *)
Definition argfd (n : Z) : C (option (Z * nat)) :=
  ofd <- argint n ;;
  match ofd with
  | None => ret None
  | Some fd =>
      p <- myproc ;;
      if (fd <? 0) || (fd >=? NOFILE) then ret None
      else
        f <- aget (p_ofile p) fd ;;
        ret (match f with Some f => Some (fd, f) | None => None end)
  end.

(** sysfile.c:fdalloc *)
Fixpoint fdalloc_scan (l : list (option nat)) (fd : Z) : option Z :=
  match l with
  | [] => None
  | None :: _ => Some fd
  | Some _ :: l' => fdalloc_scan l' (fd + 1)
  end.

Definition fdalloc (f : nat) : C (option Z) :=
  p <- myproc ;;
  match fdalloc_scan (p_ofile p) 0 with
  | Some fd => upd_proc (fun p => set_p_ofile (zset (p_ofile p) fd (Some f)) p) ;; ret (Some fd)
  | None => ret None
  end.

(** sysfile.c:sys_dup *)
Definition sys_dup : C Z :=
  r <- argfd 0 ;;
  match r with
  | None => ret (-1)
  | Some (_, f) =>
      ofd <- fdalloc f ;;
      match ofd with
      | None => ret (-1)
      | Some fd => _ <- filedup f ;; ret fd
      end
  end.

(** ** read *)

(** [fileread(f, p, n)] with [p] in user memory *)
Definition fileread_user (f : nat) (p n : Z) : C Z :=
  let* (r, bs) := fileread f n in
  write_user p bs ;; ret r.

(** sysfile.c:sys_read, original branch *)
Definition read_orig : C Z :=
  o <- argfd 0 ;;
  match o with
  | None => ret (-1)
  | Some (_, f) =>
      on <- argint 2 ;;
      match on with
      | None => ret (-1)
      | Some n =>
          op <- argptr 1 n ;;
          match op with
          | None => ret (-1)
          | Some p => fileread_user f p n
          end
      end
  end.

(** sysfile.c:sys_read, the block of the recording branch; also returns [p]. *)
Definition read_rec : C (Z * option Z) :=
  o <- argfd 0 ;;
  match o with
  | None => ret (-1, None)
  | Some (_, f) =>
      on <- argint 2 ;;
      match on with
      | None => ret (-1, None)
      | Some n =>
          op <- argptr 1 n ;;
          match op with
          | None => ret (-1, None)
          | Some p => r <- fileread_user f p n ;; ret (r, Some p)
          end
      end
  end.

(** sysfile.c:sys_read *)
Definition sys_read : K Z :=
  let scr := createSCR junk SYS_read in
  rep <- isReplaying ;;
  if rep : bool then
    let* (fd, _) := myargint 0 in
    scr <- addInt junk scr fd ;;
    let* (n0, nv) := myargint 2 in
    scr <- addInt junk scr n0 ;;
    recorded <- compareSCRS junk scr ;;
    n <- from_option_undef nv ;;
    op <- kcore (argptr 1 n) ;;
    match op with
    | None => RecRepErr ;; ret (-1)
    | Some p =>
        v <- out_val recorded 1 ;;
        nval <- out_val recorded (-1) ;;
        let size := val_num nval in
        (if (0 <=? size) && (size <=? MAX_RAW_SIZE)
         then kcore (write_user p (take (Z.to_nat size) (raw_data v)))
         else undef) ;;
        out_num recorded
    end
  else
    rec <- isRecording ;;
    if rec : bool then
      let* (fd, _) := myargint 0 in
      scr <- addInt junk scr fd ;;
      let* (n0, nv) := myargint 2 in
      scr <- addInt junk scr n0 ;;
      let* (read_output, pv) := kcore read_rec in
      scr <- addInt junk scr read_output ;;
      p <- from_option_undef pv ;;
      n <- from_option_undef nv ;;
      scr <- addRaw junk scr p n ;;
      addSRC scr ;;
      out_num scr
    else kcore read_orig.

(** sysfile.c:sys_write *)
Definition sys_write : C Z :=
  o <- argfd 0 ;;
  match o with
  | None => ret (-1)
  | Some (_, f) =>
      on <- argint 2 ;;
      match on with
      | None => ret (-1)
      | Some n =>
          op <- argptr 1 n ;;
          match op with
          | None => ret (-1)
          | Some p => bs <- read_user p n ;; filewrite f bs
          end
      end
  end.

(** ** close *)

(** sysfile.c:sys_close, original branch *)
Definition close_orig : C Z :=
  o <- argfd 0 ;;
  match o with
  | None => ret (-1)
  | Some (fd, f) =>
      upd_proc (fun p => set_p_ofile (zset (p_ofile p) fd None) p) ;;
      fileclose end_ f ;;
      ret 0
  end.

(** sysfile.c:sys_close, the block of the recording branch *)
Definition close_rec : C Z :=
  let close_output := -1 in
  o <- argfd 0 ;;
  match o with
  | None => ret close_output
  | Some (fd, f) =>
      upd_proc (fun p => set_p_ofile (zset (p_ofile p) fd None) p) ;;
      fileclose end_ f ;;
      ret 0
  end.

(** sysfile.c:sys_close *)
Definition sys_close : K Z :=
  let scr := createSCR junk SYS_close in
  rep <- isReplaying ;;
  if rep : bool then
    let* (fd, _) := myargint 0 in
    scr <- addInt junk scr fd ;;
    recorded <- compareSCRS junk scr ;;
    out_num recorded
  else
    rec <- isRecording ;;
    if rec : bool then
      let* (fd, _) := myargint 0 in
      scr <- addInt junk scr fd ;;
      close_output <- kcore close_rec ;;
      scr <- addInt junk scr close_output ;;
      addSRC scr ;;
      out_num scr
    else kcore close_orig.

(** ** fstat *)

Definition sizeof_stat : Z := 20.

(** The stores of stati (fs.c) through [struct stat *st] in user memory *)
Definition write_stat (a : Z) (st : stat) : C unit :=
  old <- read_user a sizeof_stat ;;
  write_user a (put_st st old).

(** [filestat(f, st)] with [st] in user memory *)
Definition filestat_user (f : nat) (a : Z) : C Z :=
  o <- filestat f ;;
  match o with
  | None => ret (-1)
  | Some st => write_stat a st ;; ret 0
  end.

(** sysfile.c:sys_fstat, original branch *)
Definition fstat_orig : C Z :=
  o <- argfd 0 ;;
  match o with
  | None => ret (-1)
  | Some (_, f) =>
      op <- argptr 1 sizeof_stat ;;
      match op with
      | None => ret (-1)
      | Some a => filestat_user f a
      end
  end.

(** sysfile.c:sys_fstat, the block of the recording branch; also returns [st] *)
Definition fstat_rec : C (Z * option Z) :=
  o <- argfd 0 ;;
  match o with
  | None => ret (-1, None)
  | Some (_, f) =>
      op <- argptr 1 sizeof_stat ;;
      match op with
      | None => ret (-1, None)
      | Some a => r <- filestat_user f a ;; ret (r, Some a)
      end
  end.

(** sysfile.c:sys_fstat *)
Definition sys_fstat : K Z :=
  let scr := createSCR junk SYS_fstat in
  rep <- isReplaying ;;
  if rep : bool then
    let* (fd, _) := myargint 0 in
    scr <- addInt junk scr fd ;;
    recorded <- compareSCRS junk scr ;;
    op <- kcore (argptr 1 sizeof_stat) ;;
    match op with
    | None => RecRepErr ;; ret (-1)
    | Some a =>
        v <- out_val recorded 1 ;;
        kcore (write_stat a (st_of v)) ;;
        out_num recorded
    end
  else
    rec <- isRecording ;;
    if rec : bool then
      let* (fd, _) := myargint 0 in
      scr <- addInt junk scr fd ;;
      let* (fstat_output, av) := kcore fstat_rec in
      scr <- addInt junk scr fstat_output ;;
      a <- from_option_undef av ;;
      bs <- kcore (read_user a sizeof_stat) ;;
      scr <- addStat junk scr (st_of bs) ;;
      addSRC scr ;;
      out_num scr
    else kcore fstat_orig.

(** ** link *)

Definition end_fail : C Z := blk end_op ;; ret (-1).

Definition upd_nlink (ip : nat) (d : Z) : C unit :=
  upd_inode ip (fun i => set_i_nlink (s16 (i_nlink i + d)) i) ;; iupdate ip.

(** sysfile.c:sys_link, original branch; [bad] is the label at its end. *)
Definition link_orig : C Z :=
  let? old := argstr 0 or ret (-1) in
  let? new := argstr 1 or ret (-1) in
  blk begin_op ;;
  let? ip := namei old or end_fail in
  ilock ip ;;
  i <- inode_at ip ;;
  if i_type i =? T_DIR then iunlockput ip ;; end_fail
  else
    upd_nlink ip 1 ;;
    iunlock ip ;;
    let bad := (ilock ip ;; upd_nlink ip (-1) ;; iunlockput ip ;; end_fail) in
    let* (odp, name) := nameiparent new in
    match odp with
    | None => bad
    | Some dp =>
        ilock dp ;;
        d <- inode_at dp ;;
        i <- inode_at ip ;;
        if negb (i_dev d =? i_dev i) then iunlockput dp ;; bad
        else
          r <- dirlink dp name (i_inum i) ;;
          if r <? 0 then iunlockput dp ;; bad
          else
            iunlockput dp ;;
            iput ip ;;
            blk end_op ;;
            ret 0
    end.

(** sysfile.c:sys_link, the block of the recording branch: each [break] leaves
    the block with the current value of [link_output]. *)
Definition link_rec : C Z :=
  let link_output := -1 in
  let? old := argstr 0 or ret link_output in
  let? new := argstr 1 or ret link_output in
  blk begin_op ;;
  oip <- namei old ;;
  match oip with
  | None => blk end_op ;; ret link_output
  | Some ip =>
      ilock ip ;;
      i <- inode_at ip ;;
      if i_type i =? T_DIR then
        iunlockput ip ;;
        blk end_op ;;
        ret link_output
      else
        upd_inode ip (fun i => set_i_nlink (s16 (i_nlink i + 1)) i) ;;
        iupdate ip ;;
        iunlock ip ;;
        let* (odp, name) := nameiparent new in
        match odp with
        | None =>
            ilock ip ;;
            upd_inode ip (fun i => set_i_nlink (s16 (i_nlink i - 1)) i) ;;
            iupdate ip ;;
            iunlockput ip ;;
            blk end_op ;;
            ret link_output
        | Some dp =>
            ilock dp ;;
            d <- inode_at dp ;;
            i <- inode_at ip ;;
            fail <- (if negb (i_dev d =? i_dev i) then ret true
                     else r <- dirlink dp name (i_inum i) ;; ret (r <? 0)) ;;
            if fail : bool then
              iunlockput dp ;;
              ilock ip ;;
              upd_inode ip (fun i => set_i_nlink (s16 (i_nlink i - 1)) i) ;;
              iupdate ip ;;
              iunlockput ip ;;
              blk end_op ;;
              ret link_output
            else
              iunlockput dp ;;
              iput ip ;;
              blk end_op ;;
              ret 0
        end
  end.

(** sysfile.c:sys_link *)
Definition sys_link : K Z :=
  let scr := createSCR junk SYS_link in
  rep <- isReplaying ;;
  if rep : bool then
    old <- myargstr 0 ;;
    scr <- addStr junk scr old ;;
    new <- myargstr 1 ;;
    scr <- addStr junk scr new ;;
    recorded <- compareSCRS junk scr ;;
    out_num recorded
  else
    rec <- isRecording ;;
    if rec : bool then
      old <- myargstr 0 ;;
      scr <- addStr junk scr old ;;
      new <- myargstr 1 ;;
      scr <- addStr junk scr new ;;
      link_output <- kcore link_rec ;;
      scr <- addInt junk scr link_output ;;
      addSRC scr ;;
      out_num scr
    else kcore link_orig.

(** ** unlink *)

(** sysfile.c:isdirempty *)
Fixpoint isdirempty_loop (fuel : nat) (dp : nat) (off : Z) : C bool :=
  i <- inode_at dp ;;
  if off <? i_size i then
    match fuel with
    | O => undef
    | S fuel' =>
        let* (r, de) := readi dp off sizeof_dirent in
        if negb (r =? sizeof_dirent) then panic "isdirempty: readi"
        else if negb (de_inum de =? 0) then ret false
        else isdirempty_loop fuel' dp (off + sizeof_dirent)
    end
  else ret true.

Definition isdirempty (dp : nat) : C bool :=
  i <- inode_at dp ;;
  isdirempty_loop (Z.to_nat (i_size i / sizeof_dirent + 1)) dp (2 * sizeof_dirent).

Definition dot : list Z := [46; 0].
Definition dotdot : list Z := [46; 46; 0].

(** [namecmp(name, ".") == 0 || namecmp(name, "..") == 0] *)
Definition is_dots (name : list Z) : C bool :=
  c1 <- namecmp name dot ;;
  if c1 =? 0 then ret true else c2 <- namecmp name dotdot ;; ret (c2 =? 0).

(** sysfile.c:sys_unlink, original branch; [bad] is the label at its end. *)
Definition unlink_orig : C Z :=
  let? path := argstr 0 or ret (-1) in
  blk begin_op ;;
  let* (odp, name) := nameiparent path in
  match odp with
  | None => blk end_op ;; ret (-1)
  | Some dp =>
      ilock dp ;;
      let bad := (iunlockput dp ;; blk end_op ;; ret (-1)) in
      dots <- is_dots name ;;
      if dots : bool then bad
      else
        let? (ip, off) := dirlookup dp name or bad in
        ilock ip ;;
        i <- inode_at ip ;;
        if i_nlink i <? 1 then panic "unlink: nlink < 1"
        else
          busy <- (if i_type i =? T_DIR then e <- isdirempty ip ;; ret (negb e)
                   else ret false) ;;
          if busy : bool then iunlockput ip ;; bad
          else
            w <- writei dp (replicate (Z.to_nat sizeof_dirent) 0) off ;;
            if negb (w =? sizeof_dirent) then panic "unlink: writei"
            else
              whenM (i_type i =? T_DIR)
                (upd_inode dp (fun i => set_i_nlink (s16 (i_nlink i - 1)) i) ;; iupdate dp) ;;
              iunlockput dp ;;
              upd_inode ip (fun i => set_i_nlink (s16 (i_nlink i - 1)) i) ;;
              iupdate ip ;;
              iunlockput ip ;;
              blk end_op ;;
              ret 0
  end.

(** sysfile.c:sys_unlink, the block of the recording branch *)
Definition unlink_rec : C Z :=
  let unlink_output := -1 in
  let? path := argstr 0 or ret unlink_output in
  blk begin_op ;;
  let* (odp, name) := nameiparent path in
  match odp with
  | None => blk end_op ;; ret unlink_output
  | Some dp =>
      ilock dp ;;
      dots <- is_dots name ;;
      if dots : bool then
        iunlockput dp ;;
        blk end_op ;;
        ret unlink_output
      else
        r <- dirlookup dp name ;;
        match r with
        | None =>
            iunlockput dp ;;
            blk end_op ;;
            ret unlink_output
        | Some (ip, off) =>
            ilock ip ;;
            i <- inode_at ip ;;
            if i_nlink i <? 1 then panic "unlink: nlink < 1"
            else
              busy <- (if i_type i =? T_DIR then e <- isdirempty ip ;; ret (negb e)
                       else ret false) ;;
              if busy : bool then
                iunlockput ip ;;
                iunlockput dp ;;
                blk end_op ;;
                ret unlink_output
              else
                w <- writei dp (replicate (Z.to_nat sizeof_dirent) 0) off ;;
                if negb (w =? sizeof_dirent) then panic "unlink: writei"
                else
                  whenM (i_type i =? T_DIR)
                    (upd_inode dp (fun i => set_i_nlink (s16 (i_nlink i - 1)) i) ;;
                     iupdate dp) ;;
                  iunlockput dp ;;
                  upd_inode ip (fun i => set_i_nlink (s16 (i_nlink i - 1)) i) ;;
                  iupdate ip ;;
                  iunlockput ip ;;
                  blk end_op ;;
                  ret 0
        end
  end.

(** The shape of the recorded calls that take one path and return a status. *)
Definition sys_path1 (num : Z) (body_rec body_orig : C Z) : K Z :=
  let scr := createSCR junk num in
  rep <- isReplaying ;;
  if rep : bool then
    path <- myargstr 0 ;;
    scr <- addStr junk scr path ;;
    recorded <- compareSCRS junk scr ;;
    out_num recorded
  else
    rec <- isRecording ;;
    if rec : bool then
      path <- myargstr 0 ;;
      scr <- addStr junk scr path ;;
      output <- kcore body_rec ;;
      scr <- addInt junk scr output ;;
      addSRC scr ;;
      out_num scr
    else kcore body_orig.

(** sysfile.c:sys_unlink *)
Definition sys_unlink : K Z := sys_path1 SYS_unlink unlink_rec unlink_orig.

(** ** open *)

(** sysfile.c:create *)
Definition create (path : list Z) (type major minor : Z) : C (option nat) :=
  let* (odp, name) := nameiparent path in
  match odp with
  | None => ret None
  | Some dp =>
      ilock dp ;;
      r <- dirlookup dp name ;;
      match r with
      | Some (ip, _) =>
          iunlockput dp ;;
          ilock ip ;;
          i <- inode_at ip ;;
          if (type =? T_FILE) && (i_type i =? T_FILE) then ret (Some ip)
          else iunlockput ip ;; ret None
      | None =>
          d <- inode_at dp ;;
          ip <- ialloc (i_dev d) type ;;
          ilock ip ;;
          upd_inode ip (fun i => set_i_nlink 1 (set_i_majmin (s16 major) (s16 minor) i)) ;;
          iupdate ip ;;
          i <- inode_at ip ;;
          whenM (type =? T_DIR)
            (upd_inode dp (fun d => set_i_nlink (s16 (i_nlink d + 1)) d) ;;
             iupdate dp ;;
             r1 <- dirlink ip dot (i_inum i) ;;
             if r1 <? 0 then panic "create dots"
             else
               r2 <- dirlink ip dotdot (i_inum d) ;;
               if r2 <? 0 then panic "create dots" else ret tt) ;;
          r <- dirlink dp name (i_inum i) ;;
          if r <? 0 then panic "create: dirlink"
          else iunlockput dp ;; ret (Some ip)
      end
  end.

Definition has (omode flag : Z) : bool := negb (Z.land omode flag =? 0).
Definition b2z (b : bool) : Z := if b then 1 else 0.

(** The assignments to [*f] at the end of open *)
Definition file_open (ip : nat) (omode : Z) (f : file) : file :=
  mkFile FD_INODE (f_ref f) (b2z (negb (has omode O_WRONLY)))
    (b2z (has omode O_WRONLY || has omode O_RDWR)) (f_pipe f) ip 0.

(** sysfile.c:my_open; also the text of sys_open's original branch after its
    arguments have been fetched. *)
Definition my_open (path : list Z) (omode : Z) : C Z :=
  blk begin_op ;;
  let? ip :=
    (if has omode O_CREATE then create path T_FILE 0 0
     else
       let? ip := namei path or ret None in
       ilock ip ;;
       i <- inode_at ip ;;
       if (i_type i =? T_DIR) && negb (omode =? O_RDONLY)
       then iunlockput ip ;; ret None
       else ret (Some ip))
  or end_fail in
  let? f := filealloc or (iunlockput ip ;; end_fail) in
  let? fd := fdalloc f or (fileclose end_ f ;; iunlockput ip ;; end_fail) in
  iunlock ip ;;
  blk end_op ;;
  upd_file f (file_open ip omode) ;;
  ret fd.

(** sysfile.c:sys_open, original branch *)
Definition open_orig : C Z :=
  let? path := argstr 0 or ret (-1) in
  let? omode := argint 1 or ret (-1) in
  my_open path omode.

(** sysfile.c:sys_open, the block of the recording branch *)
Definition open_rec : C Z :=
  let open_output := -1 in
  let? path := argstr 0 or ret open_output in
  let? omode := argint 1 or ret open_output in
  blk begin_op ;;
  let finish (ip : nat) : C Z :=
    (of0 <- filealloc ;;
     match of0 with
     | None =>
         iunlockput ip ;;
         blk end_op ;;
         ret open_output
     | Some f =>
         ofd <- fdalloc f ;;
         match ofd with
         | None =>
             fileclose end_ f ;;
             iunlockput ip ;;
             blk end_op ;;
             ret open_output
         | Some fd =>
             iunlock ip ;;
             blk end_op ;;
             upd_file f (file_open ip omode) ;;
             ret fd
         end
     end) in
  if has omode O_CREATE then
    oip <- create path T_FILE 0 0 ;;
    match oip with
    | None => blk end_op ;; ret open_output
    | Some ip => finish ip
    end
  else
    oip <- namei path ;;
    match oip with
    | None => blk end_op ;; ret open_output
    | Some ip =>
        ilock ip ;;
        i <- inode_at ip ;;
        if (i_type i =? T_DIR) && negb (omode =? O_RDONLY) then
          iunlockput ip ;;
          blk end_op ;;
          ret open_output
        else finish ip
    end.

(** sysfile.c:sys_open *)
Definition sys_open : K Z :=
  let scr := createSCR junk SYS_open in
  rep <- isReplaying ;;
  if rep : bool then
    path <- myargstr 0 ;;
    scr <- addStr junk scr path ;;
    let* (mode, _) := myargint 1 in
    scr <- addInt junk scr mode ;;
    recorded <- compareSCRS junk scr ;;
    out_num recorded
  else
    rec <- isRecording ;;
    if rec : bool then
      path <- myargstr 0 ;;
      scr <- addStr junk scr path ;;
      let* (mode, _) := myargint 1 in
      scr <- addInt junk scr mode ;;
      open_output <- kcore open_rec ;;
      scr <- addInt junk scr open_output ;;
      addSRC scr ;;
      out_num scr
    else kcore open_orig.

(** ** mkdir, mknod, chdir *)

(** sysfile.c:sys_mkdir, original branch *)
Definition mkdir_orig : C Z :=
  blk begin_op ;;
  let? path := argstr 0 or end_fail in
  let? ip := create path T_DIR 0 0 or end_fail in
  iunlockput ip ;;
  blk end_op ;;
  ret 0.

(** sysfile.c:sys_mkdir, the block of the recording branch *)
Definition mkdir_rec : C Z :=
  let mkdir_output := -1 in
  blk begin_op ;;
  oip <- (opath <- argstr 0 ;;
          match opath with
          | None => ret None
          | Some path => create path T_DIR 0 0
          end) ;;
  match oip with
  | None => blk end_op ;; ret mkdir_output
  | Some ip =>
      iunlockput ip ;;
      blk end_op ;;
      ret 0
  end.

(** sysfile.c:sys_mkdir *)
Definition sys_mkdir : K Z := sys_path1 SYS_mkdir mkdir_rec mkdir_orig.

(** sysfile.c:sys_mknod, original branch *)
Definition mknod_orig : C Z :=
  blk begin_op ;;
  let? path := argstr 0 or end_fail in
  let? major := argint 1 or end_fail in
  let? minor := argint 2 or end_fail in
  let? ip := create path T_DEV major minor or end_fail in
  iunlockput ip ;;
  blk end_op ;;
  ret 0.

(** sysfile.c:sys_mknod, the block of the recording branch *)
Definition mknod_rec : C Z :=
  let mknod_output := -1 in
  blk begin_op ;;
  oip <- (let? path := argstr 0 or ret None in
          let? major := argint 1 or ret None in
          let? minor := argint 2 or ret None in
          create path T_DEV major minor) ;;
  match oip with
  | None => blk end_op ;; ret mknod_output
  | Some ip =>
      iunlockput ip ;;
      blk end_op ;;
      ret 0
  end.

(** sysfile.c:sys_mknod *)
Definition sys_mknod : K Z :=
  let scr := createSCR junk SYS_mknod in
  rep <- isReplaying ;;
  if rep : bool then
    path <- myargstr 0 ;;
    scr <- addStr junk scr path ;;
    let* (major, _) := myargint 1 in
    scr <- addInt junk scr major ;;
    let* (minor, _) := myargint 2 in
    scr <- addInt junk scr minor ;;
    recorded <- compareSCRS junk scr ;;
    out_num recorded
  else
    rec <- isRecording ;;
    if rec : bool then
      path <- myargstr 0 ;;
      scr <- addStr junk scr path ;;
      let* (major, _) := myargint 1 in
      scr <- addInt junk scr major ;;
      let* (minor, _) := myargint 2 in
      scr <- addInt junk scr minor ;;
      mknod_output <- kcore mknod_rec ;;
      scr <- addInt junk scr mknod_output ;;
      addSRC scr ;;
      out_num scr
    else kcore mknod_orig.

(** sysfile.c:sys_chdir, original branch *)
Definition chdir_orig : C Z :=
  blk begin_op ;;
  let? path := argstr 0 or end_fail in
  let? ip := namei path or end_fail in
  ilock ip ;;
  i <- inode_at ip ;;
  if negb (i_type i =? T_DIR) then iunlockput ip ;; end_fail
  else
    iunlock ip ;;
    p <- myproc ;;
    iput (p_cwd p) ;;
    blk end_op ;;
    upd_proc (set_p_cwd ip) ;;
    ret 0.

(** sysfile.c:sys_chdir, the block of the recording branch *)
Definition chdir_rec : C Z :=
  let chdir_output := -1 in
  blk begin_op ;;
  oip <- (opath <- argstr 0 ;;
          match opath with
          | None => ret None
          | Some path => namei path
          end) ;;
  match oip with
  | None => blk end_op ;; ret chdir_output
  | Some ip =>
      ilock ip ;;
      i <- inode_at ip ;;
      if negb (i_type i =? T_DIR) then
        iunlockput ip ;;
        blk end_op ;;
        ret chdir_output
      else
        iunlock ip ;;
        p <- myproc ;;
        iput (p_cwd p) ;;
        blk end_op ;;
        upd_proc (set_p_cwd ip) ;;
        ret 0
  end.

(** sysfile.c:sys_chdir; its record carries the number of mkdir. *)
Definition sys_chdir : K Z := sys_path1 SYS_mkdir chdir_rec chdir_orig.

(** ** pipe *)

(** sysfile.c:sys_pipe *)
Definition sys_pipe (page : list Z) : C Z :=
  let? a := argptr 0 8 or ret (-1) in
  let? (rf, wf) := pipealloc end_ page or ret (-1) in
  ofd0 <- fdalloc rf ;;
  match ofd0 with
  | None => fileclose end_ rf ;; fileclose end_ wf ;; ret (-1)
  | Some fd0 =>
      ofd1 <- fdalloc wf ;;
      match ofd1 with
      | None =>
          upd_proc (fun p => set_p_ofile (zset (p_ofile p) fd0 None) p) ;;
          fileclose end_ rf ;;
          fileclose end_ wf ;;
          ret (-1)
      | Some fd1 =>
          write_user a (le_bytes 4 fd0) ;;
          write_user (a + 4) (le_bytes 4 fd1) ;;
          ret 0
      end
  end.

(** ** The recorder's own file access *)

(** sysfile.c:my_argfd *)
Definition my_argfd (fd : Z) : C (option nat) :=
  p <- myproc ;;
  if (fd <? 0) || (fd >=? NOFILE) then ret None
  else aget (p_ofile p) fd.

(** sysfile.c:my_read; the bytes land in the caller's buffer. *)
Definition my_read (fd n : Z) : C (Z * list Z) :=
  let? f := my_argfd fd or ret (-1, []) in fileread f n.

(** sysfile.c:my_write *)
Definition my_write (fd : Z) (bs : list Z) : C Z :=
  let? f := my_argfd fd or ret (-1) in filewrite f bs.

(** sysfile.c:my_close *)
Definition my_close (fd : Z) : C Z :=
  let? f := my_argfd fd or ret (-1) in
  upd_proc (fun p => set_p_ofile (zset (p_ofile p) fd None) p) ;;
  fileclose end_ f ;;
  ret 0.

End sysfile.
End Sysfile.
