(* ===== verification/Frame.v ===== *)
(** * What kernel routines leave alone

    [Keeps R m]: every returning run of [m] relates its start and end state by
    [R].  The relation of interest is [same_user]: the file system, the file
    table and the pipes never touch the user memory, the user stack pointer or
    the pid of the calling process.  The lemmas form the hint database
    [keeps]; the tactic [keeps] walks through a routine with them. *)
From S2P Require Import Prelude Words Params CString Kalloc Pipe Core Fs File Syscall RR Sysfile.

Class Keeps {S A} (R : S -> S -> Prop) (m : M S A) : Prop :=
  keeps : forall s a s', m s = Ok a s' -> R s s'.

Create HintDb keeps.

Section keeps.
Context {S : Type} (R : S -> S -> Prop) `{!Reflexive R} `{!Transitive R}.

#[global] Instance keeps_bind {A B} (m : M S A) (k : A -> M S B) :
  Keeps R m -> (forall a, Keeps R (k a)) -> Keeps R (bind m k).
Proof.
  intros Hm Hk s b s' H. apply bind_Ok_inv in H as (a & s1 & H1 & H2).
  transitivity s1; [by eapply Hm|by eapply Hk].
Qed.

#[global] Instance keeps_bind_or {A B} (m : M S (option A)) (d : M S B) k :
  Keeps R m -> Keeps R d -> (forall a, Keeps R (k a)) -> Keeps R (bind_or m d k).
Proof. intros Hm Hd Hk. apply keeps_bind; [done|]. by intros [a|]. Qed.

#[global] Instance keeps_ret {A} (a : A) : Keeps R (ret a).
Proof. intros s a' s' [= <- <-]. reflexivity. Qed.

#[global] Instance keeps_gets {A} (f : S -> A) : Keeps R (gets f).
Proof. intros s a' s' [= <- <-]. reflexivity. Qed.

#[global] Instance keeps_panic {A} msg : Keeps R (panic (A := A) msg).
Proof. intros s a s' [=]. Qed.

#[global] Instance keeps_undef {A} : Keeps R (undef (A := A)).
Proof. intros s a s' [=]. Qed.

#[global] Instance keeps_sleep {A} : Keeps R (sleep_forever (A := A)).
Proof. intros s a s' [=]. Qed.

#[global] Instance keeps_option {A} (o : option A) : Keeps R (from_option_undef o).
Proof. destruct o; apply _. Qed.

#[global] Instance keeps_aget {A} (l : list A) i : Keeps R (aget l i).
Proof. apply keeps_option. Qed.

#[global] Instance keeps_when b (m : M S unit) : Keeps R m -> Keeps R (whenM b m).
Proof. intros H. destruct b; apply _. Qed.

Lemma keeps_modify f : (forall s, R s (f s)) -> Keeps R (modify f).
Proof. intros H s a s' [= _ <-]. apply H. Qed.

End keeps.

Ltac keeps_step :=
  lazymatch goal with
  | |- forall _, _ => intros
  | |- Keeps _ (bind _ _) => apply keeps_bind
  | |- Keeps _ (bind_or _ _ _) => apply keeps_bind_or
  | |- Keeps _ (whenM _ _) => apply keeps_when
  | |- Keeps _ (ret _) => apply keeps_ret
  | |- Keeps _ (gets _) => apply keeps_gets
  | |- Keeps _ (aget _ _) => apply keeps_aget
  | |- Keeps _ (from_option_undef _) => apply keeps_option
  | |- Keeps _ (panic _) => apply keeps_panic
  | |- Keeps _ undef => apply keeps_undef
  | |- Keeps _ sleep_forever => apply keeps_sleep
  | |- Keeps _ (modify _) => apply keeps_modify; intros; repeat split
  | |- Keeps _ (let _ := _ in _) => cbv zeta
  | |- Keeps _ (match ?x with _ => _ end) => destruct x
  | |- Keeps _ _ => solve [auto 2 with keeps nocore]
  | |- Reflexive _ => apply _
  | |- Transitive _ => apply _
  end.

Ltac keeps := repeat keeps_step.

(** ** The user part of the calling process *)

Definition same_user {B} (c c' : core B) : Prop :=
  p_mem (c_proc c') = p_mem (c_proc c) /\ p_esp (c_proc c') = p_esp (c_proc c) /\
  p_pid (c_proc c') = p_pid (c_proc c).

#[export] Instance same_user_refl {B} : Reflexive (@same_user B).
Proof. by intros c. Qed.

#[export] Instance same_user_trans {B} : Transitive (@same_user B).
Proof. intros c1 c2 c3 (?&?&?) (?&?&?). unfold same_user. split_and!; congruence. Qed.

#[export] Instance same_user_sym {B} : Symmetric (@same_user B).
Proof. intros c1 c2 (?&?&?). unfold same_user. split_and!; congruence. Qed.

#[export] Instance same_user_equiv {B} : Equivalence (@same_user B).
Proof. split; apply _. Qed.

Module Frame.
Import Fs File Sysfile.

Section frame.
Context {B : Type} {BL : BlockLayer B} (end_ : Z).

#[local] Abbreviation KU := (Keeps (same_user (B := B))).

Lemma ku_blk {A} (m : M B A) : KU (blk m).
Proof. intros c a c' H. apply zoom_Ok_inv in H as (t & _ & ->). by repeat split. Qed.
#[local] Hint Resolve ku_blk : keeps.

Lemma ku_kmem {A} (m : M Kalloc.kmem A) : KU (kmem_op m).
Proof. intros c a c' H. apply zoom_Ok_inv in H as (t & _ & ->). by repeat split. Qed.
#[local] Hint Resolve ku_kmem : keeps.

Lemma ku_inode_at ip : KU (inode_at ip).
Proof. unfold inode_at. keeps. Qed.
#[local] Hint Resolve ku_inode_at : keeps.

Lemma ku_upd_inode ip f : KU (upd_inode ip f).
Proof. unfold upd_inode. keeps. Qed.
#[local] Hint Resolve ku_upd_inode : keeps.

Lemma ku_file_at f : KU (file_at f).
Proof. unfold file_at. keeps. Qed.
#[local] Hint Resolve ku_file_at : keeps.

Lemma ku_upd_file f g : KU (upd_file f g).
Proof. unfold upd_file. keeps. Qed.
#[local] Hint Resolve ku_upd_file : keeps.

Lemma ku_bzero dev b : KU (bzero dev b).
Proof. unfold bzero. keeps. Qed.
#[local] Hint Resolve ku_bzero : keeps.

Lemma ku_balloc_scan fuel : forall b bi size d, KU (balloc_scan fuel b bi size d).
Proof. induction fuel; cbn [balloc_scan]; keeps. Qed.
#[local] Hint Resolve ku_balloc_scan : keeps.

Lemma ku_balloc_loop fuel : forall dev b, KU (balloc_loop fuel dev b).
Proof. induction fuel; cbn [balloc_loop]; unfold sb_get; keeps. Qed.
#[local] Hint Resolve ku_balloc_loop : keeps.

Lemma ku_balloc dev : KU (balloc dev).
Proof. unfold balloc, sb_get. keeps. Qed.
#[local] Hint Resolve ku_balloc : keeps.

Lemma ku_bfree dev b : KU (bfree dev b).
Proof. unfold bfree, sb_get. keeps. Qed.
#[local] Hint Resolve ku_bfree : keeps.

Lemma ku_iget dev inum : KU (iget dev inum).
Proof. unfold iget. keeps. Qed.
#[local] Hint Resolve ku_iget : keeps.

Lemma ku_ialloc_loop fuel : forall dev type inum, KU (ialloc_loop fuel dev type inum).
Proof. induction fuel; cbn [ialloc_loop]; unfold sb_get; keeps. Qed.
#[local] Hint Resolve ku_ialloc_loop : keeps.

Lemma ku_ialloc dev type : KU (ialloc dev type).
Proof. unfold ialloc, sb_get. keeps. Qed.
#[local] Hint Resolve ku_ialloc : keeps.

Lemma ku_iupdate ip : KU (iupdate ip).
Proof. unfold iupdate, sb_get. keeps. Qed.
#[local] Hint Resolve ku_iupdate : keeps.

Lemma ku_idup ip : KU (idup ip).
Proof. unfold idup. keeps. Qed.
#[local] Hint Resolve ku_idup : keeps.

Lemma ku_myproc : KU myproc.
Proof. unfold myproc. keeps. Qed.
#[local] Hint Resolve ku_myproc : keeps.

Lemma ku_iacquiresleep ip : KU (iacquiresleep ip).
Proof. unfold iacquiresleep. keeps. Qed.
#[local] Hint Resolve ku_iacquiresleep : keeps.

Lemma ku_ireleasesleep ip : KU (ireleasesleep ip).
Proof. unfold ireleasesleep. keeps. Qed.
#[local] Hint Resolve ku_ireleasesleep : keeps.

Lemma ku_ilock ip : KU (ilock ip).
Proof. unfold ilock, sb_get. keeps. Qed.
#[local] Hint Resolve ku_ilock : keeps.

Lemma ku_iunlock ip : KU (iunlock ip).
Proof. unfold iunlock, iholdingsleep. keeps. Qed.
#[local] Hint Resolve ku_iunlock : keeps.

Lemma ku_itrunc_direct fuel : forall ip k, KU (itrunc_direct fuel ip k).
Proof. induction fuel; cbn [itrunc_direct]; keeps. Qed.
#[local] Hint Resolve ku_itrunc_direct : keeps.

Lemma ku_itrunc_indirect fuel : forall dev d j, KU (itrunc_indirect fuel dev d j).
Proof. induction fuel; cbn [itrunc_indirect]; keeps. Qed.
#[local] Hint Resolve ku_itrunc_indirect : keeps.

Lemma ku_itrunc ip : KU (itrunc ip).
Proof. unfold itrunc. keeps. Qed.
#[local] Hint Resolve ku_itrunc : keeps.

Lemma ku_iput ip : KU (iput ip).
Proof. unfold iput. keeps. Qed.
#[local] Hint Resolve ku_iput : keeps.

Lemma ku_iunlockput ip : KU (iunlockput ip).
Proof. unfold iunlockput. keeps. Qed.
#[local] Hint Resolve ku_iunlockput : keeps.

Lemma ku_bmap ip bn : KU (bmap ip bn).
Proof. unfold bmap. keeps. Qed.
#[local] Hint Resolve ku_bmap : keeps.

Lemma ku_stati ip : KU (stati ip).
Proof. unfold stati. keeps. Qed.
#[local] Hint Resolve ku_stati : keeps.

Lemma ku_consoleread_loop n : forall target acc, KU (consoleread_loop n target acc).
Proof. induction n; cbn [consoleread_loop]; keeps. Qed.
#[local] Hint Resolve ku_consoleread_loop : keeps.

Lemma ku_consoleread ip n : KU (consoleread ip n).
Proof. unfold consoleread. keeps. Qed.
#[local] Hint Resolve ku_consoleread : keeps.

Lemma ku_consolewrite_loop buf : KU (consolewrite_loop buf).
Proof. induction buf; cbn [consolewrite_loop]; unfold consputc; keeps. Qed.
#[local] Hint Resolve ku_consolewrite_loop : keeps.

Lemma ku_consolewrite ip buf : KU (consolewrite ip buf).
Proof. unfold consolewrite. keeps. Qed.
#[local] Hint Resolve ku_consolewrite : keeps.

Lemma ku_readi_loop fuel : forall ip off tot n acc, KU (readi_loop fuel ip off tot n acc).
Proof. induction fuel; cbn [readi_loop]; keeps. Qed.
#[local] Hint Resolve ku_readi_loop : keeps.

Lemma ku_readi ip off n : KU (readi ip off n).
Proof. unfold readi. keeps. Qed.
#[local] Hint Resolve ku_readi : keeps.

Lemma ku_writei_loop fuel : forall ip src off tot n, KU (writei_loop fuel ip src off tot n).
Proof. induction fuel; cbn [writei_loop]; keeps. Qed.
#[local] Hint Resolve ku_writei_loop : keeps.

Lemma ku_writei ip src off : KU (writei ip src off).
Proof. unfold writei. keeps. Qed.
#[local] Hint Resolve ku_writei : keeps.

Lemma ku_namecmp s t : KU (namecmp s t).
Proof. unfold namecmp. keeps. Qed.
#[local] Hint Resolve ku_namecmp : keeps.

Lemma ku_dirlookup_loop fuel : forall dp name off, KU (dirlookup_loop fuel dp name off).
Proof. induction fuel; cbn [dirlookup_loop]; keeps. Qed.
#[local] Hint Resolve ku_dirlookup_loop : keeps.

Lemma ku_dirlookup dp name : KU (dirlookup dp name).
Proof. unfold dirlookup. keeps. Qed.
#[local] Hint Resolve ku_dirlookup : keeps.

Lemma ku_dirlink_scan fuel : forall dp off, KU (dirlink_scan fuel dp off).
Proof. induction fuel; cbn [dirlink_scan]; keeps. Qed.
#[local] Hint Resolve ku_dirlink_scan : keeps.

Lemma ku_dirlink dp name inum : KU (dirlink dp name inum).
Proof. unfold dirlink. keeps. Qed.
#[local] Hint Resolve ku_dirlink : keeps.

Lemma ku_namex_loop fuel : forall ip path np name, KU (namex_loop fuel ip path np name).
Proof. induction fuel; cbn [namex_loop]; keeps. Qed.
#[local] Hint Resolve ku_namex_loop : keeps.

Lemma ku_namex path np name : KU (namex path np name).
Proof. unfold namex. keeps. Qed.
#[local] Hint Resolve ku_namex : keeps.

Lemma ku_namei path : KU (namei path).
Proof. unfold namei. keeps. Qed.
#[local] Hint Resolve ku_namei : keeps.

Lemma ku_nameiparent path : KU (nameiparent path).
Proof. unfold nameiparent. keeps. Qed.
#[local] Hint Resolve ku_nameiparent : keeps.

(** ** file.c *)

Lemma ku_filealloc : KU filealloc.
Proof. unfold filealloc. keeps. Qed.
#[local] Hint Resolve ku_filealloc : keeps.

Lemma ku_filedup f : KU (filedup f).
Proof. unfold filedup. keeps. Qed.
#[local] Hint Resolve ku_filedup : keeps.

Lemma ku_pipe_at a : KU (pipe_at a).
Proof. unfold pipe_at. keeps. Qed.
#[local] Hint Resolve ku_pipe_at : keeps.

Lemma ku_upd_pipe a p : KU (upd_pipe a p).
Proof. unfold upd_pipe. keeps. Qed.
#[local] Hint Resolve ku_upd_pipe : keeps.

Lemma ku_pipeclose a w : KU (pipeclose end_ a w).
Proof. unfold pipeclose. keeps. Qed.
#[local] Hint Resolve ku_pipeclose : keeps.

Lemma ku_fileclose f : KU (fileclose end_ f).
Proof. unfold fileclose. keeps. Qed.
#[local] Hint Resolve ku_fileclose : keeps.

Lemma ku_filestat f : KU (filestat f).
Proof. unfold filestat. keeps. Qed.
#[local] Hint Resolve ku_filestat : keeps.

Lemma ku_piperead a n : KU (piperead a n).
Proof. unfold piperead. keeps. Qed.
#[local] Hint Resolve ku_piperead : keeps.

Lemma ku_pipewrite a src : KU (pipewrite a src).
Proof. unfold pipewrite. keeps. Qed.
#[local] Hint Resolve ku_pipewrite : keeps.

Lemma ku_fileread f n : KU (fileread f n).
Proof. unfold fileread. keeps. Qed.
#[local] Hint Resolve ku_fileread : keeps.

Lemma ku_filewrite_loop fuel : forall f src i n, KU (filewrite_loop fuel f src i n).
Proof. induction fuel; cbn [filewrite_loop]; keeps. Qed.
#[local] Hint Resolve ku_filewrite_loop : keeps.

Lemma ku_filewrite f src : KU (filewrite f src).
Proof. unfold filewrite. keeps. Qed.
#[local] Hint Resolve ku_filewrite : keeps.

(** ** syscall.c and sysfile.c *)

Lemma ku_read_user a n : KU (read_user a n).
Proof. unfold read_user. keeps. Qed.
#[local] Hint Resolve ku_read_user : keeps.

Lemma ku_argint n : KU (Syscall.argint n).
Proof. unfold Syscall.argint, Syscall.fetchint. keeps. Qed.
#[local] Hint Resolve ku_argint : keeps.

Lemma ku_argptr n size : KU (Syscall.argptr n size).
Proof. unfold Syscall.argptr. keeps. Qed.
#[local] Hint Resolve ku_argptr : keeps.

Lemma ku_argstr n : KU (Syscall.argstr n).
Proof. unfold Syscall.argstr, Syscall.fetchstr. keeps. Qed.
#[local] Hint Resolve ku_argstr : keeps.

Lemma ku_upd_proc f :
  (forall p, p_mem (f p) = p_mem p /\ p_esp (f p) = p_esp p /\ p_pid (f p) = p_pid p) ->
  KU (upd_proc f).
Proof. intros H. apply keeps_modify. intros c. apply H. Qed.

Lemma ku_set_ofile l : KU (upd_proc (fun p => set_p_ofile (l p) p)).
Proof. by apply ku_upd_proc. Qed.
#[local] Hint Resolve ku_set_ofile : keeps.

Lemma ku_set_cwd ip : KU (upd_proc (set_p_cwd ip)).
Proof. by apply ku_upd_proc. Qed.
#[local] Hint Resolve ku_set_cwd : keeps.

Lemma ku_argfd n : KU (argfd n).
Proof. unfold argfd. keeps. Qed.
#[local] Hint Resolve ku_argfd : keeps.

Lemma ku_fdalloc f : KU (fdalloc f).
Proof.
  unfold fdalloc. keeps.
Qed.
#[local] Hint Resolve ku_fdalloc : keeps.

Lemma ku_close_orig : KU (close_orig end_).
Proof. unfold close_orig. keeps. Qed.

Lemma ku_link_orig : KU link_orig.
Proof. unfold link_orig, end_fail, upd_nlink. keeps. Qed.

Lemma ku_isdirempty_loop fuel : forall dp off, KU (isdirempty_loop fuel dp off).
Proof. induction fuel; cbn [isdirempty_loop]; keeps. Qed.
#[local] Hint Resolve ku_isdirempty_loop : keeps.

Lemma ku_isdirempty dp : KU (isdirempty dp).
Proof. unfold isdirempty. keeps. Qed.
#[local] Hint Resolve ku_isdirempty : keeps.

Lemma ku_is_dots name : KU (is_dots name).
Proof. unfold is_dots. keeps. Qed.
#[local] Hint Resolve ku_is_dots : keeps.

Lemma ku_unlink_orig : KU unlink_orig.
Proof. unfold unlink_orig. keeps. Qed.

Lemma ku_create path type major minor : KU (create path type major minor).
Proof. unfold create. keeps. Qed.
#[local] Hint Resolve ku_create : keeps.

Lemma ku_my_open path omode : KU (my_open end_ path omode).
Proof. unfold my_open, end_fail. keeps. Qed.
#[local] Hint Resolve ku_my_open : keeps.

Lemma ku_open_orig : KU (open_orig end_).
Proof. unfold open_orig. keeps. Qed.

Lemma ku_mkdir_orig : KU mkdir_orig.
Proof. unfold mkdir_orig, end_fail. keeps. Qed.

Lemma ku_mknod_orig : KU mknod_orig.
Proof. unfold mknod_orig, end_fail. keeps. Qed.

Lemma ku_chdir_orig : KU chdir_orig.
Proof. unfold chdir_orig, end_fail. keeps. Qed.

Lemma ku_my_write fd bs : KU (my_write fd bs).
Proof. unfold my_write, my_argfd. keeps. Qed.

Lemma ku_my_read fd n : KU (my_read fd n).
Proof. unfold my_read, my_argfd. keeps. Qed.

Lemma ku_my_close fd : KU (my_close end_ fd).
Proof. unfold my_close, my_argfd. keeps. Qed.

(** ** How much a read returns *)

Lemma consoleread_loop_len n : forall target acc (c : core B) ok bs c',
  consoleread_loop n target acc c = Ok (ok, bs) c' ->
  (length bs <= length acc + n)%nat.
Proof.
  induction n as [|n IH]; intros target acc c ok bs c' H; cbn [consoleread_loop] in H.
  - minv H. lia.
  - minvs; try (len; lia).
    match goal with H : consoleread_loop n _ _ _ = _ |- _ => apply IH in H as Hl end.
    revert Hl. len.
Qed.

Lemma readi_loop_len fuel : forall ip off tot n acc (c : core B) bs c',
  readi_loop fuel ip off tot n acc c = Ok bs c' -> zlen bs <= zlen acc + Z.max 0 (n - tot).
Proof.
  induction fuel as [|fuel IH]; intros ip off tot n acc c bs c' H; cbn [readi_loop] in H;
    (destruct (Z.ltb_spec tot n); [|minv H; lia]); [done|].
  minvs. match goal with H : readi_loop fuel _ _ _ _ _ _ = _ |- _ => apply IH in H as Hl end.
  unfold zlen, BSIZE in *.
  pose proof (Z.mod_pos_bound off 512 ltac:(lia)).
  autorewrite with len in Hl. lia.
Qed.

Lemma piperead_copy_len n : forall p bs p',
  Pipe.piperead_copy n p = (bs, p') -> (length bs <= n)%nat.
Proof.
  induction n as [|n IH]; intros p bs p' H; cbn [Pipe.piperead_copy] in H; [by simplify_eq|].
  destruct (Pipe.empty p); [simplify_eq; simpl; lia|].
  destruct (Pipe.piperead_copy n _) as [bs1 p1] eqn:E. simplify_eq. apply IH in E. simpl. lia.
Qed.

Lemma readi_len ip off n c r bs c' :
  0 <= off -> 0 <= n < 2 ^ 31 -> readi ip off n c = Ok (r, bs) c' -> zlen bs <= n.
Proof.
  intros Hoff Hn H. unfold readi in H. minv H. destruct (i_type a =? T_DEV).
  - destruct (_ || _)%bool; [minv Hk; unfold zlen; simpl; lia|].
    unfold consoleread in Hk. minv Hk. minv Hk0. destruct a1 as [ok bs1].
    apply consoleread_loop_len in Hm1. minv Hk. minv Hk0.
    rewrite s32_id in Hm1 by lia. unfold zlen. simpl in Hm1. lia.
  - destruct (_ || _)%bool eqn:E; [minv Hk; unfold zlen; simpl; lia|].
    destruct_bool_hyps. minv Hk. minv Hk0. apply readi_loop_len in Hm0.
    change (zlen []) with 0 in Hm0.
    pose proof (Z.mod_le (off + n) (2 ^ 32) ltac:(lia) ltac:(lia)). fold (u32 (off + n)) in *.
    destruct (u32 (off + n) >? i_size a) eqn:E'; destruct_bool_hyps; lia.
Qed.

(** The offsets of the file table are unsigned. *)
Definition offs_ok (c : core B) : Prop := Forall (fun f => 0 <= f_off f) (c_ftable c).

Lemma fileread_len f n c r bs c' :
  offs_ok c -> 0 <= n < 2 ^ 31 -> fileread f n c = Ok (r, bs) c' -> zlen bs <= n.
Proof.
  intros Hoffs Hn H. unfold fileread in H. minv H. rename a into fl.
  assert (Hoff : 0 <= f_off fl).
  { clear Hk. unfold file_at in Hm. minvs. unfold from_option_undef in *.
    destruct (c_ftable _ !! f) eqn:E; minvs. exact (Forall_lookup_1 _ _ _ _ Hoffs E). }
  minvs; [unfold zlen; simpl; lia|]. destruct (f_type fl); [done| |].
  - unfold piperead in Hk. minvs. destruct (Pipe.piperead _ _ _) as [res p'] eqn:E.
    minvs. unfold Pipe.piperead in E. destruct (_ && _)%bool.
    { destruct (negb _); simplify_eq; minvs; unfold zlen; simpl; lia. }
    destruct (Pipe.piperead_copy _ _) as [bs1 p1] eqn:E1. simplify_eq. minvs.
    apply piperead_copy_len in E1. unfold zlen. lia.
  - minvs. match goal with H : readi _ _ _ _ = Ok ?x _ |- _ => destruct x; apply readi_len in H end;
      minvs; rewrite ?u32_small in * by lia; done.
Qed.

(** ** Fetching arguments depends on the user memory and stack pointer only *)

Definition same_mem (c c' : core B) : Prop :=
  p_mem (c_proc c') = p_mem (c_proc c) /\ p_esp (c_proc c') = p_esp (c_proc c).

Definition UserOnly {A} (m : M (core B) A) : Prop := forall c a c',
  m c = Ok a c' -> c' = c /\ forall c1, same_mem c c1 -> m c1 = Ok a c1.

Lemma uo_ret {A} (a : A) : UserOnly (ret a).
Proof. by intros c b c' [= <- <-]. Qed.

Lemma uo_bind {A A'} (m : M (core B) A) (k : A -> M (core B) A') :
  UserOnly m -> (forall a, UserOnly (k a)) -> UserOnly (bind m k).
Proof.
  intros Hm Hk c b c' H. apply bind_Ok_inv in H as (a & c0 & H1 & H2).
  apply Hm in H1 as [-> H1]. apply Hk in H2 as [-> H2]. split; [done|].
  intros c1 Hc1. rewrite (bind_run _ _ _ _ _ (H1 c1 Hc1)). by apply H2.
Qed.

Lemma uo_proc {A} (f : proc -> M (core B) A) :
  (forall p1 p2, p_mem p1 = p_mem p2 -> p_esp p1 = p_esp p2 -> f p1 = f p2) ->
  (forall p, UserOnly (f p)) -> UserOnly (p <- myproc ;; f p).
Proof.
  intros Hf Hu c b c' H. unfold myproc in *.
  rewrite (bind_run (gets c_proc) _ c (c_proc c) c) in H by done.
  pose proof H as H'. apply Hu in H as [-> _]. split; [done|]. intros c1 Hc1.
  rewrite (bind_run (gets c_proc) _ c1 (c_proc c1) c1) by done.
  destruct Hc1 as [E1 E2]. rewrite (Hf (c_proc c1) (c_proc c)) by done.
  by apply (Hu _ _ _ _ H').
Qed.

Lemma uo_undef {A} : UserOnly (undef (A := A)).
Proof. by intros c a c' H. Qed.

Lemma uo_read_user a n : UserOnly (read_user a n).
Proof.
  unfold read_user. apply uo_proc; unfold p_sz.
  - by intros p1 p2 -> _.
  - intros p. destruct (_ && _)%bool; [apply uo_ret|apply uo_undef].
Qed.

Lemma uo_argint n : UserOnly (Syscall.argint n).
Proof.
  unfold Syscall.argint. apply uo_proc.
  - by intros p1 p2 _ ->.
  - intros p. unfold Syscall.fetchint. apply uo_proc; unfold p_sz.
    + by intros p1 p2 -> _.
    + intros q. destruct (_ || _)%bool; [apply uo_ret|].
      apply uo_bind; [apply uo_read_user|]. intros w. apply uo_ret.
Qed.

Lemma uo_argptr n size : UserOnly (Syscall.argptr n size).
Proof.
  unfold Syscall.argptr. apply uo_bind; [apply uo_argint|]. intros [i|]; [|apply uo_ret].
  apply uo_proc; unfold p_sz.
  - by intros p1 p2 -> _.
  - intros q. destruct (_ || _)%bool; apply uo_ret.
Qed.

Lemma uo_argstr n : UserOnly (Syscall.argstr n).
Proof.
  unfold Syscall.argstr. apply uo_bind; [apply uo_argint|]. intros [i|]; [|apply uo_ret].
  unfold Syscall.fetchstr. apply uo_proc; unfold p_sz.
  - by intros p1 p2 -> _.
  - intros q. destruct (_ >=? _); apply uo_ret.
Qed.

End frame.
End Frame.
