(* ===== verification/Sysproc.v ===== *)
(** * sysproc.c: starting and stopping a session, getpid and uptime *)
From S2P Require Import Prelude Words Params CString Core Fs File Syscall RR Sysfile.

Module Sysproc.
Import RR Sysfile.

Section sysproc.
Context {B : Type} {BL : BlockLayer B} (end_ : Z) (junk : list Z).

#[local] Abbreviation K := (M (kstate B)).

(** The loop of sys_record_start and sys_replay_start that clears the records,
    and the assignments after it *)
Definition reset_session : K unit :=
  upd_rr (set_scrs (replicate (Z.to_nat MAX_SCRS) (createSCR junk UNITIALIZED_SCR))) ;;
  upd_rr (set_idx 0) ;;
  p <- kcore myproc ;;
  upd_rr (set_rr_pid (p_pid p)) ;;
  upd_rr (set_pos 0).

(** sysproc.c:sys_record_start *)
Definition sys_record_start : K Z :=
  let? filename := kcore (Syscall.argstr 0) or ret (-1) in
  upd_rr (fun r => set_record_filename (strcpy_trunc (record_filename r) filename 255) r) ;;
  upd_rr (set_record 1) ;;
  reset_session ;;
  r <- gets k_rr ;;
  ret (s32 (record_syscalls r)).

(** The loops over [recorded_scrs] that encode or decode the session; [None]
    is the early return on status -1. *)
Fixpoint transform_all (fuel : nat) (i fileSize : Z) : K (option unit) :=
  match fuel with
  | O => ret (Some tt)
  | S fuel' =>
      r <- gets k_rr ;;
      scr <- aget (recorded_scrs r) i ;;
      let* (status, scr') := bidirectionalTransform scr fileSize in
      upd_rr (fun r => set_scrs (zset (recorded_scrs r) i scr') r) ;;
      if status =? -1 then ret None
      else if status =? 0 then ret (Some tt)
      else transform_all fuel' (i + 1) fileSize
  end.

(** [memmove_and_increment(buffer, &scrs_idx, 4)] *)
Definition transform_idx : K unit :=
  r <- gets k_rr ;;
  f <- memmove_and_increment (le_bytes 4 (scrs_idx r)) ;;
  upd_rr (set_idx (s32 (le_val f))).

(** The error exits after a failed open, write or close:
    [record_syscalls = -1; RecRepErr(""); return record_syscalls]. *)
Definition record_fail : K Z :=
  upd_rr (set_record (u32 (-1))) ;; RecRepErr ;;
  r <- gets k_rr ;; ret (s32 (record_syscalls r)).

Definition replay_fail : K Z :=
  upd_rr (set_replay (u32 (-1))) ;; RecRepErr ;;
  r <- gets k_rr ;; ret (s32 (replay_syscalls r)).

(** sysproc.c:sys_record_stop *)
Definition sys_record_stop : K Z :=
  rec <- isRecording ;;
  if rec : bool then
    upd_rr (set_pos 0) ;;
    transform_idx ;;
    r <- gets k_rr ;;
    let? _ := transform_all (Z.to_nat (scrs_idx r)) 0 (-1) or (RecRepErr ;; ret (-1)) in
    upd_rr (set_record 0) ;;
    r <- gets k_rr ;;
    path <- from_option_undef (Syscall.until_nul (record_filename r)) ;;
    fd <- kcore (my_open end_ path (Z.lor O_CREATE O_RDWR)) ;;
    if fd =? -1 then record_fail
    else
      w_status <- kcore (my_write fd (take (Z.to_nat (buffer_pos r)) (buffer r))) ;;
      if w_status =? -1 then record_fail
      else
        c_status <- kcore (my_close end_ fd) ;;
        if c_status =? -1 then record_fail
        else r <- gets k_rr ;; ret (s32 (record_syscalls r))
  else
    r <- gets k_rr ;; ret (s32 (record_syscalls r)).

(** sysproc.c:sys_replay_start *)
Definition sys_replay_start : K Z :=
  let? filename := kcore (Syscall.argstr 0) or ret (-1) in
  upd_rr (fun r => set_replay_filename (strcpy_trunc (replay_filename r) filename 255) r) ;;
  upd_rr (set_replay 1) ;;
  reset_session ;;
  r <- gets k_rr ;;
  path <- from_option_undef (Syscall.until_nul (replay_filename r)) ;;
  fd <- kcore (my_open end_ path O_RDWR) ;;
  if fd =? -1 then replay_fail
  else
    let* (r_status, bs) := kcore (my_read fd MAX_FILE_SIZE) in
    upd_rr (fun r => set_buffer (splice 0 bs (buffer r)) r) ;;
    if r_status =? -1 then replay_fail
    else
      c_status <- kcore (my_close end_ fd) ;;
      if c_status =? -1 then replay_fail
      else
        transform_idx ;;
        r <- gets k_rr ;;
        let? _ := transform_all (Z.to_nat (scrs_idx r)) 0 r_status or ret (-1) in
        upd_rr (set_idx 0) ;;
        r <- gets k_rr ;;
        ret (s32 (replay_syscalls r)).

(** sysproc.c:sys_replay_stop *)
Definition sys_replay_stop : K Z :=
  rep <- isReplaying ;;
  whenM rep (upd_rr (set_replay 0)) ;;
  r <- gets k_rr ;;
  ret (s32 (replay_syscalls r)).

(** sysproc.c:sys_getpid *)
Definition sys_getpid : K Z :=
  let scr := createSCR junk SYS_getpid in
  rep <- isReplaying ;;
  if rep : bool then
    recorded <- compareSCRS junk scr ;;
    out_num recorded
  else
    rec <- isRecording ;;
    if rec : bool then
      p <- kcore myproc ;;
      scr <- addInt junk scr (p_pid p) ;;
      addSRC scr ;;
      out_num scr
    else p <- kcore myproc ;; ret (p_pid p).

(** sysproc.c:sys_uptime *)
Definition sys_uptime : K Z :=
  let scr := createSCR junk SYS_uptime in
  rep <- isReplaying ;;
  if rep : bool then
    recorded <- compareSCRS junk scr ;;
    out_num recorded
  else
    rec <- isRecording ;;
    if rec : bool then
      xticks <- kcore (gets c_ticks) ;;
      scr <- addUInt junk scr xticks ;;
      addSRC scr ;;
      out_num scr
    else xticks <- kcore (gets c_ticks) ;; ret (s32 xticks).

(** sysproc.c:sys_exit up to the call of proc.c:exit: a session still active
    is closed, so that a recording is written out. *)
Definition sys_exit_stop : K unit :=
  _ <- sys_replay_stop ;; _ <- sys_record_stop ;; ret tt.

End sysproc.
End Sysproc.
