(* ===== verification/RRSpec.v ===== *)
(** * The abstract record of a system call and its external encoding

    A recorded call is, abstractly, a call number and a list of typed values
    (its inputs followed by its outputs).  [scr_rep] relates the bytes of a
    [struct SCR] to such a record, ignoring the bytes nobody may depend on:
    union bytes beyond the active member and slots beyond [argc].  [enc_*] is
    the file format of a session, defined without reference to the code. *)
From S2P Require Import Prelude Words Params CString Core Fs RR.

Module RRSpec.
Import RR.

Inductive aval :=
| AInt (n : Z)
| AUInt (n : Z)
| ABytes (bs : list Z)
| AStat (st : Fs.stat).

Definition srec : Type := Z * list aval.

Definition stat_ok (st : Fs.stat) : Prop :=
  - 2 ^ 15 <= Fs.st_type st < 2 ^ 15 /\ - 2 ^ 31 <= Fs.st_dev st < 2 ^ 31 /\
  0 <= Fs.st_ino st < 2 ^ 32 /\ - 2 ^ 15 <= Fs.st_nlink st < 2 ^ 15 /\
  0 <= Fs.st_size st < 2 ^ 32.

(** The values a C variable of the field's type can hold. *)
Definition aval_ok (a : aval) : Prop :=
  match a with
  | AInt n => - 2 ^ 31 <= n < 2 ^ 31
  | AUInt n => 0 <= n < 2 ^ 32
  | ABytes bs => zlen bs <= MAX_RAW_SIZE
  | AStat st => stat_ok st
  end.

Definition srec_ok (r : srec) : Prop :=
  0 < r.1 < 256 /\ zlen r.2 <= MAX_ARGC /\ Forall aval_ok r.2.

(** ** The file format *)

Definition aval_tag (a : aval) : Z :=
  match a with
  | AInt _ => INT_TYPE | AUInt _ => UINT_TYPE | ABytes _ => BYTE_TYPE | AStat _ => STAT_TYPE
  end.

Definition enc_payload (a : aval) : list Z :=
  match a with
  | AInt n => le_bytes 4 n
  | AUInt n => le_bytes 4 n
  | ABytes bs => le_bytes 4 (zlen bs) ++ bs
  | AStat st =>
      le_bytes 2 (Fs.st_type st) ++ le_bytes 4 (Fs.st_dev st) ++ le_bytes 4 (Fs.st_ino st) ++
      le_bytes 2 (Fs.st_nlink st) ++ le_bytes 4 (Fs.st_size st)
  end.

Definition enc_aval (a : aval) : list Z := aval_tag a :: enc_payload a.

Definition enc_rec (r : srec) : list Z := r.1 :: zlen r.2 :: concat (enc_aval <$> r.2).

Definition enc_session (rs : list srec) : list Z :=
  le_bytes 4 (zlen rs) ++ concat (enc_rec <$> rs).

(** ** Representation *)

Definition val_rep (v : list Z) (a : aval) : Prop :=
  length v = sizeof_Val /\
  match a with
  | AInt n => slice 0 4 v = le_bytes 4 n
  | AUInt n => slice 0 4 v = le_bytes 4 n
  | ABytes bs => slice 0 4 v = le_bytes 4 (zlen bs) /\ slice 4 (length bs) v = bs
  | AStat st =>
      slice 0 2 v = le_bytes 2 (Fs.st_type st) /\ slice 4 4 v = le_bytes 4 (Fs.st_dev st) /\
      slice 8 4 v = le_bytes 4 (Fs.st_ino st) /\ slice 12 2 v = le_bytes 2 (Fs.st_nlink st) /\
      slice 16 4 v = le_bytes 4 (Fs.st_size st)
  end.

Definition arg_rep (a : Arg) (x : aval) : Prop :=
  a_type a = aval_tag x /\ val_rep (a_val a) x.

Definition scr_rep (s : SCR) (r : srec) : Prop :=
  scr_syscall s = r.1 /\ scr_argc s = zlen r.2 /\ length (scr_args s) = Z.to_nat MAX_ARGC /\
  (forall i x, r.2 !! i = Some x -> exists a, scr_args s !! i = Some a /\ arg_rep a x) /\
  (forall i a, scr_args s !! i = Some a -> length (a_val a) = sizeof_Val).

(** A slot that has never been written. *)
Definition scr_blank (s : SCR) : Prop :=
  scr_syscall s = UNITIALIZED_SCR /\ length (scr_args s) = Z.to_nat MAX_ARGC /\
  (forall i a, scr_args s !! i = Some a -> length (a_val a) = sizeof_Val).

(** The log of a session: the first records of the table represent [rs], the
    remaining slots are blank. *)
Definition log_rep (r : rr) (rs : list srec) : Prop :=
  length (recorded_scrs r) = Z.to_nat MAX_SCRS /\ zlen rs <= MAX_SCRS /\
  Forall srec_ok rs /\
  (forall i x, rs !! i = Some x ->
     exists s, recorded_scrs r !! i = Some s /\ scr_rep s x) /\
  (forall i s, (length rs <= i)%nat -> recorded_scrs r !! i = Some s -> scr_blank s).

(** ** Values *)

Lemma stat_eq st1 st2 :
  Fs.st_type st1 = Fs.st_type st2 -> Fs.st_dev st1 = Fs.st_dev st2 ->
  Fs.st_ino st1 = Fs.st_ino st2 -> Fs.st_nlink st1 = Fs.st_nlink st2 ->
  Fs.st_size st1 = Fs.st_size st2 -> st1 = st2.
Proof. destruct st1, st2. simpl. by intros -> -> -> -> ->. Qed.

Lemma val_rep_int v n : val_rep v (AInt n) -> aval_ok (AInt n) -> val_num v = n.
Proof. intros [_ H] Hok. unfold val_num. rewrite H. by apply s32_le_val. Qed.

Lemma val_rep_uint v n : val_rep v (AUInt n) -> val_num v = s32 n.
Proof.
  intros [_ H]. unfold val_num. rewrite H, le_val_bytes. apply (s32_u32 n).
Qed.

Lemma val_rep_bytes v bs :
  val_rep v (ABytes bs) -> aval_ok (ABytes bs) ->
  raw_size v = zlen bs /\ take (length bs) (raw_data v) = bs.
Proof.
  intros [Hl [H1 H2]] Hok. simpl in Hok. unfold raw_size, raw_data.
  unfold MAX_RAW_SIZE, zlen in *. split.
  - rewrite H1. apply s32_le_val. lia.
  - rewrite <- H2 at 2. unfold slice. rewrite take_take. f_equal. lia.
Qed.

Lemma val_rep_stat v st : val_rep v (AStat st) -> stat_ok st -> st_of v = st.
Proof.
  intros [_ (H1 & H2 & H3 & H4 & H5)] (K1 & K2 & K3 & K4 & K5). unfold st_of.
  apply stat_eq; simpl; rewrite ?H1, ?H2, ?H3, ?H4, ?H5;
    eauto using s16_le_val, s32_le_val, u32_le_val.
Qed.

(** ** Building values *)

Definition junk_ok (junk : list Z) : Prop := length junk = sizeof_Val.

Lemma put_num_rep n v : length v = sizeof_Val -> val_rep (put_num n v) (AInt n).
Proof.
  intros H. unfold val_rep, put_num, sizeof_Val in *. split; [len|].
  apply slice_splice; len.
Qed.

Lemma put_unum_rep n v : length v = sizeof_Val -> val_rep (put_num n v) (AUInt n).
Proof. apply put_num_rep. Qed.

Lemma put_raw_rep bs v :
  length v = sizeof_Val -> zlen bs <= MAX_RAW_SIZE ->
  val_rep (put_raw (zlen bs) (splice 0 bs (replicate (Z.to_nat MAX_RAW_SIZE) 0)) v) (ABytes bs).
Proof.
  unfold val_rep, sizeof_Val, MAX_RAW_SIZE, zlen, put_raw. intros Hl Hb.
  change (Z.to_nat 200) with 200%nat.
  assert (H200 : length (splice 0 bs (replicate 200 0)) = 200%nat) by len.
  split; [rewrite length_splice; rewrite ?length_splice, ?H200; len|]. split.
  - rewrite slice_splice_before; [|lia|len].
    apply slice_splice; len.
  - rewrite (slice_shorter 4 (length bs) 200) by lia.
    rewrite slice_splice by (rewrite ?H200; len). unfold splice. rewrite take_0, app_nil_l. apply take_app_length.
Qed.

Lemma put_st_slices st v : (20 <= length v)%nat ->
  length (put_st st v) = length v /\
  slice 0 2 (put_st st v) = le_bytes 2 (Fs.st_type st) /\
  slice 4 4 (put_st st v) = le_bytes 4 (Fs.st_dev st) /\
  slice 8 4 (put_st st v) = le_bytes 4 (Fs.st_ino st) /\
  slice 12 2 (put_st st v) = le_bytes 2 (Fs.st_nlink st) /\
  slice 16 4 (put_st st v) = le_bytes 4 (Fs.st_size st).
Proof.
  unfold put_st. intros Hl. split; [len|].
  repeat split;
    repeat first [ rewrite slice_splice by len
                 | rewrite slice_splice_before by len
                 | rewrite slice_splice_after by len ]; done.
Qed.

Lemma put_st_rep st v : length v = sizeof_Val -> val_rep (put_st st v) (AStat st).
Proof.
  unfold val_rep, sizeof_Val. intros Hl.
  destruct (put_st_slices st v) as (? & ?); [lia|]. split; [lia|done].
Qed.

(** ** The size of an encoding *)

Lemma enc_aval_bound a : aval_ok a -> zlen (enc_aval a) <= 205.
Proof.
  destruct a; intros H; unfold enc_aval; cbn [enc_payload]; rewrite zlen_cons, ?zlen_app, ?zlen_le_bytes;
    simpl in H; unfold MAX_RAW_SIZE in *; lia.
Qed.

Lemma concat_bound {A} (f : A -> list Z) (P : A -> Prop) n l :
  (forall x, P x -> zlen (f x) <= n) -> Forall P l -> zlen (concat (f <$> l)) <= n * zlen l.
Proof.
  intros Hf. induction 1 as [|x l Hx Hl IH]; [by rewrite Z.mul_0_r|].
  cbn [fmap list_fmap concat]. rewrite zlen_app, zlen_cons. specialize (Hf x Hx). lia.
Qed.

Lemma enc_rec_bound r : srec_ok r -> zlen (enc_rec r) <= 822.
Proof.
  intros (_ & Hl & Hok). unfold enc_rec. rewrite !zlen_cons.
  pose proof (concat_bound enc_aval aval_ok 205 r.2 enc_aval_bound Hok). unfold MAX_ARGC in *. lia.
Qed.

(** A session of [n] calls takes at most [4 + 822 n] bytes. *)
Lemma enc_session_bound rs : Forall srec_ok rs -> zlen (enc_session rs) <= 4 + 822 * zlen rs.
Proof.
  intros Hok. unfold enc_session. rewrite zlen_app, zlen_le_bytes.
  pose proof (concat_bound enc_rec srec_ok 822 rs enc_rec_bound Hok). lia.
Qed.

(** ** [struct stat] in memory *)

Lemma put_st_st_of bs old : bytes bs -> length bs = 20%nat ->
  put_st (st_of bs) old =
  splice 0 (slice 0 2 bs) (splice 4 (slice 4 4 bs) (splice 8 (slice 8 4 bs)
    (splice 12 (slice 12 2 bs) (splice 16 (slice 16 4 bs) old)))).
Proof.
  intros Hb Hl. unfold put_st, st_of. simpl.
  assert (Hf : forall off n z, (off + n <= 20)%nat ->
    z mod 2 ^ (8 * Z.of_nat n) = le_val (slice off n bs) mod 2 ^ (8 * Z.of_nat n) ->
    le_bytes n z = slice off n bs).
  { intros off n z Ho Hz. rewrite <- le_bytes_mod, Hz, le_bytes_mod.
    rewrite <- (le_bytes_val (slice off n bs)) at 2 by (by apply bytes_slice).
    f_equal. rewrite length_slice. lia. }
  rewrite (Hf 0%nat 2%nat), (Hf 4%nat 4%nat), (Hf 8%nat 4%nat), (Hf 12%nat 2%nat), (Hf 16%nat 4%nat);
    try lia; try done; apply signed_mod_eq; lia.
Qed.

Lemma put_st_st_of_id bs : bytes bs -> length bs = 20%nat -> put_st (st_of bs) bs = bs.
Proof.
  intros Hb Hl. rewrite put_st_st_of by done.
  rewrite !splice_slice_id by lia. done.
Qed.

Lemma put_st_st_of_put st old : bytes old -> length old = 20%nat ->
  put_st (st_of (put_st st old)) old = put_st st old.
Proof.
  intros Hb Hl. destruct (put_st_slices st old) as (Hlen & H1 & H2 & H3 & H4 & H5); [lia|].
  rewrite put_st_st_of, H1, H2, H3, H4, H5; [done| |lia].
  unfold put_st. repeat apply bytes_splice; auto using bytes_le_bytes.
Qed.

Lemma st_of_ok bs : bytes bs -> stat_ok (st_of bs).
Proof.
  intros Hb. unfold stat_ok, st_of. simpl.
  assert (Hr : forall off, 0 <= le_val (slice off 4 bs) < 2 ^ 32).
  { intros off. pose proof (le_val_range (slice off 4 bs) (bytes_slice _ _ _ Hb)) as Hv.
    split; [lia|]. eapply Z.lt_le_trans; [apply Hv|]. apply Z.pow_le_mono_r; [lia|].
    unfold zlen. rewrite length_slice. lia. }
  split; [apply s16_range|]. split; [apply s32_range|]. split; [apply Hr|].
  split; [apply s16_range|]. apply Hr.
Qed.

End RRSpec.
