(* ===== verification/RRCodec.v ===== *)
(** * The session codec: bidirectionalTransform and its loops

    In recording mode the transform appends the encoding of the record to the
    buffer and leaves the record alone; in replaying mode it consumes an
    encoding and rebuilds the record.  The two directions are the same C code,
    run with different flags. *)
From S2P Require Import Prelude Words Params CString Core Fs File Syscall RR RRSpec Sysfile Sysproc.

Module RRCodec.
Import RR RRSpec Sysproc.

Definition rec_mode (r : rr) : Prop := record_syscalls r = 1 /\ replay_syscalls r <> 1.
Definition rep_mode (r : rr) : Prop := replay_syscalls r = 1 /\ record_syscalls r <> 1.

(** [n] more bytes fit in the buffer. *)
Definition room (r : rr) (n : Z) : Prop :=
  zlen (buffer r) = MAX_FILE_SIZE /\ 0 <= buffer_pos r /\ buffer_pos r + n <= MAX_FILE_SIZE.

(** The effect of appending [bs]. *)
Definition wr (bs : list Z) (r : rr) : rr :=
  set_pos (buffer_pos r + zlen bs)
    (set_buffer (splice (Z.to_nat (buffer_pos r)) bs (buffer r)) r).

(** The bytes at the current position start with [bs]. *)
Definition at_buf (r : rr) (bs : list Z) : Prop :=
  room r (zlen bs) /\ slice (Z.to_nat (buffer_pos r)) (length bs) (buffer r) = bs.

(** The effect of consuming [n] bytes. *)
Definition adv (n : Z) (r : rr) : rr := set_pos (buffer_pos r + n) r.

Section codec.
Context {B : Type} {BL : BlockLayer B} (end_ : Z) (junk : list Z).
Implicit Types s : kstate B.

(** ** Recording direction *)

Lemma wr_room bs r n : room r (zlen bs + n) -> 0 <= n -> room (wr bs r) n.
Proof.
  intros (Hl & Hp & Hr) Hn. unfold room, wr. simpl. unfold zlen in *.
  split; [|lia]. unfold MAX_FILE_SIZE in *. rewrite length_splice; lia.
Qed.

Lemma wr_mode bs r : rec_mode r -> rec_mode (wr bs r).
Proof. done. Qed.

Lemma room_weaken r n m : room r n -> m <= n -> room r m.
Proof. unfold room. lia. Qed.

Lemma wr_app bs1 bs2 r :
  room r (zlen bs1 + zlen bs2) -> wr bs2 (wr bs1 r) = wr (bs1 ++ bs2) r.
Proof.
  intros (Hl & Hp & Hr). destruct r. unfold wr, set_pos, set_buffer. simpl in *.
  unfold zlen, MAX_FILE_SIZE in *. f_equal; [|rewrite length_app; lia].
  rewrite Z2Nat.inj_add by lia. rewrite Nat2Z.id.
  apply splice_splice_app. lia.
Qed.

Lemma wr_nil r : room r 0 -> wr [] r = r.
Proof.
  intros (Hl & Hp & Hr). destruct r. unfold wr, set_pos, set_buffer. simpl in *.
  unfold zlen in *. simpl. f_equal; [|lia].
  unfold splice. simpl. rewrite Nat.add_0_r. apply take_drop.
Qed.

Lemma set_rr_twice r1 r2 s : set_rr r2 (set_rr r1 s) = set_rr r2 s.
Proof. done. Qed.

Lemma set_rr_id s : set_rr (k_rr s) s = s.
Proof. by destruct s. Qed.

Lemma mmi_record s field :
  rec_mode (k_rr s) -> room (k_rr s) (zlen field) ->
  memmove_and_increment field s = Ok field (set_rr (wr field (k_rr s)) s).
Proof.
  intros [Hr Hn] (Hl & Hp & Hb).
  unfold memmove_and_increment, bind, gets.
  rewrite (proj2 (Z.eqb_neq _ _) Hn), Hr. simpl.
  rewrite (proj2 (Z.leb_le 0 (buffer_pos (k_rr s))) Hp).
  rewrite (proj2 (Z.leb_le _ (zlen (buffer (k_rr s))))) by lia. simpl.
  unfold upd_rr, modify, ret. simpl.
  rewrite s32_id by (unfold MAX_FILE_SIZE in Hb; pose proof (zlen_nonneg field); lia).
  done.
Qed.

Lemma move_field_record s off n v :
  rec_mode (k_rr s) -> (off + n <= length v)%nat -> room (k_rr s) (Z.of_nat n) ->
  move_field off n v s = Ok v (set_rr (wr (slice off n v) (k_rr s)) s).
Proof.
  intros Hm Hv Hr. unfold move_field.
  assert (Hz : zlen (slice off n v) = Z.of_nat n) by (unfold zlen; len).
  rewrite (bind_run _ _ _ _ _ (mmi_record s (slice off n v) Hm ltac:(by rewrite Hz))).
  unfold ret. by rewrite splice_slice_id.
Qed.

Lemma transform_val_record s v a :
  rec_mode (k_rr s) -> val_rep v a -> aval_ok a ->
  room (k_rr s) (zlen (enc_payload a)) ->
  transform_val (aval_tag a) v s = Ok v (set_rr (wr (enc_payload a) (k_rr s)) s).
Proof.
  intros Hm Hv Hok Hr. pose proof Hv as [Hl Hrep]. unfold sizeof_Val in Hl.
  destruct a as [n|n|bs|st]; unfold transform_val; simpl aval_tag in *; cbn -[wr zlen le_bytes enc_payload move_field raw_size sizeof_Val].
  - rewrite move_field_record; [by rewrite Hrep|done|lia|].
    cbn [enc_payload] in Hr. by rewrite zlen_le_bytes in Hr.
  - rewrite move_field_record; [by rewrite Hrep|done|lia|].
    cbn [enc_payload] in Hr. by rewrite zlen_le_bytes in Hr.
  - cbn [enc_payload] in Hr. rewrite zlen_app, zlen_le_bytes in Hr.
    destruct (val_rep_bytes v bs Hv Hok) as [Hsz _]. destruct Hrep as [H1 H2].
    pose proof (zlen_nonneg bs). simpl in Hok.
    erewrite bind_run; [|apply move_field_record; [done|lia|eapply room_weaken; [done|lia]]].
    rewrite H1, Hsz. rewrite (proj2 (Z.leb_le _ _)) by done.
    rewrite (proj2 (Z.leb_le _ _)) by done. simpl.
    unfold zlen in *. rewrite Nat2Z.id. unfold MAX_RAW_SIZE in *.
    rewrite move_field_record; [|done|lia|].
    + rewrite H2. simpl k_rr. rewrite set_rr_twice, wr_app; [done|].
      unfold zlen. by rewrite length_le_bytes.
    + apply wr_room; [|lia]. unfold zlen. by rewrite length_le_bytes.
  - destruct Hrep as (H1 & H2 & H3 & H4 & H5). cbn [enc_payload] in Hr.
    rewrite !zlen_app, !zlen_le_bytes in Hr.
    assert (Hstep : forall s' off n f (k : list Z -> M (kstate B) (list Z)) m,
      rec_mode (k_rr s') -> slice off n v = f -> length f = n -> (off + n <= 204)%nat ->
      0 <= m -> room (k_rr s') (Z.of_nat n + m) ->
      bind (move_field off n v) k s' = k v (set_rr (wr f (k_rr s')) s')).
    { intros s' off n f k m Hm' Hf Hlf Hlen Hm0 Hrm.
      erewrite bind_run; [|apply move_field_record; [done|lia|eapply room_weaken; [done|lia]]].
      by rewrite Hf. }
    rewrite (Hstep s 0%nat 2%nat _ _ 14 Hm H1) by (done || lia).
    set (s1 := set_rr _ s).
    assert (Hr1 : room (k_rr s1) 14) by (apply wr_room; [|lia]; rewrite zlen_le_bytes; done).
    rewrite (Hstep s1 4%nat 4%nat _ _ 10 Hm H2) by (done || lia).
    set (s2 := set_rr _ s1).
    assert (Hr2 : room (k_rr s2) 10) by (apply wr_room; [|lia]; rewrite zlen_le_bytes; done).
    rewrite (Hstep s2 8%nat 4%nat _ _ 6 Hm H3) by (done || lia).
    set (s3 := set_rr _ s2).
    assert (Hr3 : room (k_rr s3) 6) by (apply wr_room; [|lia]; rewrite zlen_le_bytes; done).
    rewrite (Hstep s3 12%nat 2%nat _ _ 4 Hm H4) by (done || lia).
    set (s4 := set_rr _ s3).
    assert (Hr4 : room (k_rr s4) 4) by (apply wr_room; [|lia]; rewrite zlen_le_bytes; done).
    rewrite move_field_record, H5 by (done || lia).
    subst s4 s3 s2 s1. simpl k_rr. rewrite !set_rr_twice.
    rewrite !wr_app; rewrite ?zlen_app, ?zlen_le_bytes;
      try (eapply room_weaken; [done|lia]); rewrite <- ?app_assoc; try done.
Qed.

Lemma aval_tag_nonzero a : (aval_tag a =? NONE_TYPE) = false.
Proof. by destruct a. Qed.

Lemma transform_args_record avs : forall s i args,
  rec_mode (k_rr s) ->
  (forall k x, avs !! k = Some x -> exists a, args !! (i + k)%nat = Some a /\ arg_rep a x) ->
  Forall aval_ok avs -> room (k_rr s) (zlen (concat (enc_aval <$> avs))) ->
  transform_args (length avs) (Z.of_nat i) args s =
    Ok (true, args) (set_rr (wr (concat (enc_aval <$> avs)) (k_rr s)) s).
Proof.
  induction avs as [|x avs IH]; intros s i args Hm Hargs Hok Hr.
  - simpl in *. rewrite wr_nil, set_rr_id by done. done.
  - apply Forall_cons in Hok as [Hx Hok].
    destruct (Hargs 0%nat x eq_refl) as (a & Ha & Htag & Hval).
    rewrite Nat.add_0_r in Ha. cbn [fmap list_fmap concat] in *.
    rewrite zlen_app in Hr. unfold enc_aval at 1 in Hr. rewrite zlen_cons in Hr.
    pose proof (zlen_nonneg (enc_payload x)).
    pose proof (zlen_nonneg (concat (enc_aval <$> avs))).
    cbn [length transform_args].
    rewrite (bind_run (gets k_rr) _ s (k_rr s) s) by done.
    rewrite (bind_run (aget args (Z.of_nat i)) _ s a s)
      by (apply aget_run; by rewrite zget_nat).
    rewrite Htag, aval_tag_nonzero, andb_false_r.
    erewrite bind_run by (apply mmi_record; [done|eapply room_weaken; [done|rewrite zlen_cons; change (zlen []) with 0; lia]]).
    set (s1 := set_rr _ s).
    assert (Hr1 : room (k_rr s1) (zlen (enc_payload x) + zlen (concat (enc_aval <$> avs)))).
    { apply wr_room; [|lia]. rewrite zlen_cons. change (zlen []) with 0.
      eapply room_weaken; [done|lia]. }
    rewrite (bind_run (aget [aval_tag x] 0) _ s1 (aval_tag x) s1) by done.
    rewrite aval_tag_nonzero, andb_false_r.
    erewrite bind_run by (apply transform_val_record; [done|done|done|eapply room_weaken; [done|lia]]).
    assert (Hid : zset args (Z.of_nat i) (mkArg (aval_tag x) (a_val a)) = args).
    { apply zset_id. rewrite zget_nat, Ha, <- Htag. by destruct a. }
    rewrite Hid. replace (Z.of_nat i + 1) with (Z.of_nat (S i)) by lia.
    set (s2 := set_rr _ s1).
    rewrite (IH s2 (S i) args); [|done| |done|by apply wr_room].
    + subst s1 s2. simpl k_rr. rewrite !set_rr_twice. do 2 f_equal.
      rewrite !wr_app; rewrite ?zlen_app, ?zlen_cons; change (zlen []) with 0;
        try (eapply room_weaken; [done|lia]).
      unfold enc_aval at 2. simpl. done.
    + intros k y Hy. destruct (Hargs (S k) y Hy) as (a' & Ha' & ?).
      exists a'. split; [|done]. rewrite <- Ha'. f_equal. lia.
Qed.

Lemma bidirectionalTransform_record s scr x fsz :
  rec_mode (k_rr s) -> scr_rep scr x -> srec_ok x -> room (k_rr s) (zlen (enc_rec x)) ->
  bidirectionalTransform scr fsz s = Ok (1, scr) (set_rr (wr (enc_rec x) (k_rr s)) s).
Proof.
  intros Hm (Hsys & Hargc & Hlen & Hargs & _) (Hnum & Hcnt & Hok) Hr.
  unfold enc_rec in Hr. rewrite !zlen_cons in Hr.
  pose proof (zlen_nonneg (concat (enc_aval <$> x.2))).
  pose proof Hr as (Hbl & Hbp & Hbr). pose proof Hm as [Hrec Hnrep].
  unfold bidirectionalTransform. rewrite (bind_run (gets k_rr) _ s (k_rr s) s) by done.
  rewrite Z.gtb_ltb, (proj2 (Z.ltb_ge _ _)) by lia.
  rewrite (proj2 (Z.eqb_neq _ _) Hnrep). simpl.
  rewrite Hsys. rewrite (proj2 (Z.eqb_neq x.1 UNITIALIZED_SCR)) by (unfold UNITIALIZED_SCR; lia).
  rewrite andb_false_r.
  erewrite bind_run by (apply mmi_record; [done|eapply room_weaken; [done|rewrite zlen_cons; change (zlen []) with 0; lia]]).
  set (s1 := set_rr _ s).
  rewrite (bind_run (aget [x.1] 0) _ s1 x.1 s1) by done.
  rewrite Hargc.
  assert (Hr1 : room (k_rr s1) (1 + zlen (concat (enc_aval <$> x.2)))).
  { apply wr_room; [|lia]. rewrite zlen_cons. change (zlen []) with 0.
    eapply room_weaken; [done|lia]. }
  erewrite bind_run by (apply mmi_record; [done|eapply room_weaken; [done|rewrite zlen_cons; change (zlen []) with 0; lia]]).
  set (s2 := set_rr _ s1).
  rewrite (bind_run (aget [zlen x.2] 0) _ s2 (zlen x.2) s2) by done.
  unfold zlen at 1. rewrite Nat2Z.id.
  assert (Hr2 : room (k_rr s2) (zlen (concat (enc_aval <$> x.2)))).
  { apply wr_room; [|lia]. rewrite zlen_cons. change (zlen []) with 0. done. }
  erewrite bind_run by (apply (transform_args_record x.2 s2 0); [done|simpl; auto|done|done]).
  unfold ret. f_equal.
  - f_equal. destruct scr. simpl in *. by subst.
  - subst s1 s2. simpl k_rr. rewrite !set_rr_twice. f_equal.
    rewrite !wr_app; rewrite ?zlen_app, ?zlen_cons; change (zlen []) with 0;
      try (eapply room_weaken; [done|lia]). done.
Qed.

Lemma transform_all_record rs : forall s i fsz,
  rec_mode (k_rr s) ->
  (forall k x, rs !! k = Some x ->
     exists c, recorded_scrs (k_rr s) !! (i + k)%nat = Some c /\ scr_rep c x) ->
  Forall srec_ok rs -> room (k_rr s) (zlen (concat (enc_rec <$> rs))) ->
  transform_all (length rs) (Z.of_nat i) fsz s =
    Ok (Some tt) (set_rr (wr (concat (enc_rec <$> rs)) (k_rr s)) s).
Proof.
  induction rs as [|x rs IH]; intros s i fsz Hm Hscrs Hok Hr.
  - simpl in *. rewrite wr_nil, set_rr_id by done. done.
  - apply Forall_cons in Hok as [Hx Hok].
    destruct (Hscrs 0%nat x eq_refl) as (c & Hc & Hrep).
    rewrite Nat.add_0_r in Hc. cbn [fmap list_fmap concat] in *. rewrite zlen_app in Hr.
    pose proof (zlen_nonneg (enc_rec x)).
    pose proof (zlen_nonneg (concat (enc_rec <$> rs))).
    cbn [length transform_all].
    rewrite (bind_run (gets k_rr) _ s (k_rr s) s) by done.
    rewrite (bind_run (aget _ (Z.of_nat i)) _ s c s)
      by (apply aget_run; by rewrite zget_nat).
    erewrite bind_run by (eapply bidirectionalTransform_record; [done|done|done|eapply room_weaken; [done|lia]]).
    set (s1 := set_rr _ s).
    assert (Hnop : upd_rr (fun r => set_scrs (zset (recorded_scrs r) (Z.of_nat i) c) r) s1 = Ok tt s1).
    { unfold upd_rr, modify. f_equal. unfold s1, set_rr. simpl. f_equal.
      rewrite zset_id by (by rewrite zget_nat). done. }
    cbv beta iota. rewrite (bind_run _ _ _ _ _ Hnop). cbn [Z.eqb Pos.eqb Z.opp].
    replace (Z.of_nat i + 1) with (Z.of_nat (S i)) by lia.
    rewrite (IH s1 (S i) fsz); [|done| |done|by apply wr_room].
    + subst s1. simpl k_rr. rewrite set_rr_twice, wr_app by done. done.
    + intros k y Hy. destruct (Hscrs (S k) y Hy) as (c' & Hc' & ?).
      exists c'. split; [|done]. rewrite <- Hc'. unfold s1. simpl. f_equal. lia.
Qed.

(** ** Replaying direction *)

Lemma at_buf_room r bs : at_buf r bs -> room r (zlen bs).
Proof. by intros [? _]. Qed.

Lemma at_buf_app r bs1 bs2 :
  at_buf r (bs1 ++ bs2) -> at_buf r bs1 /\ at_buf (adv (zlen bs1) r) bs2.
Proof.
  intros [(Hl & Hp & Hr) Hs]. rewrite zlen_app in Hr. rewrite length_app, slice_split in Hs.
  pose proof (zlen_nonneg bs1). pose proof (zlen_nonneg bs2).
  apply app_inj_1 in Hs as [Hs1 Hs2].
  - split; (split; [split; [done|simpl; lia]|]); [done|]. simpl.
    rewrite <- Hs2 at 2. f_equal. unfold zlen. lia.
  - rewrite length_slice. unfold zlen, MAX_FILE_SIZE in *. lia.
Qed.

Lemma adv_adv n m r : adv m (adv n r) = adv (n + m) r.
Proof. unfold adv, set_pos. simpl. f_equal. lia. Qed.

Lemma adv_0 r : adv 0 r = r.
Proof. destruct r. unfold adv, set_pos. simpl. f_equal. lia. Qed.

Lemma adv_mode n r : rep_mode r -> rep_mode (adv n r).
Proof. done. Qed.

Lemma mmi_replay s field bs :
  rep_mode (k_rr s) -> at_buf (k_rr s) bs -> length field = length bs ->
  memmove_and_increment field s = Ok bs (set_rr (adv (zlen bs) (k_rr s)) s).
Proof.
  intros [Hr Hn] [(Hl & Hp & Hb) Hs] Hf.
  assert (Hz : zlen field = zlen bs) by (unfold zlen; by rewrite Hf).
  unfold memmove_and_increment, bind, gets.
  rewrite (proj2 (Z.eqb_neq _ _) Hn), Hr. simpl.
  rewrite (proj2 (Z.leb_le 0 (buffer_pos (k_rr s))) Hp).
  rewrite (proj2 (Z.leb_le _ (zlen (buffer (k_rr s))))) by lia. simpl.
  unfold upd_rr, modify, ret. simpl. rewrite Hz.
  rewrite s32_id by (unfold MAX_FILE_SIZE in Hb; pose proof (zlen_nonneg bs); lia).
  unfold zlen at 1. rewrite Nat2Z.id, Hs. done.
Qed.

Lemma move_field_replay s off n v bs :
  rep_mode (k_rr s) -> at_buf (k_rr s) bs -> length bs = n -> (off + n <= length v)%nat ->
  move_field off n v s = Ok (splice off bs v) (set_rr (adv (zlen bs) (k_rr s)) s).
Proof.
  intros Hm Hb Hn Hv. unfold move_field.
  erewrite bind_run by (apply mmi_replay; [done|done|len]). done.
Qed.

Lemma transform_val_replay s v a :
  rep_mode (k_rr s) -> length v = sizeof_Val -> aval_ok a ->
  at_buf (k_rr s) (enc_payload a) ->
  exists v', transform_val (aval_tag a) v s =
      Ok v' (set_rr (adv (zlen (enc_payload a)) (k_rr s)) s) /\ val_rep v' a.
Proof.
  intros Hm Hl Hok Hb. unfold sizeof_Val in Hl.
  destruct a as [n|n|bs|st]; unfold transform_val; simpl aval_tag in *;
    cbn -[zlen enc_payload move_field raw_size sizeof_Val adv].
  - exists (splice 0 (le_bytes 4 n) v). split; [|by apply put_num_rep].
    by apply move_field_replay; [done| |len|len].
  - exists (splice 0 (le_bytes 4 n) v). split; [|by apply put_num_rep].
    by apply move_field_replay; [done| |len|len].
  - cbn [enc_payload] in Hb. apply at_buf_app in Hb as [Hb1 Hb2].
    simpl in Hok. unfold MAX_RAW_SIZE, zlen in Hok.
    set (v1 := splice 0 (le_bytes 4 (zlen bs)) v).
    assert (Hl1 : length v1 = 204%nat) by (unfold v1; len).
    assert (Hsz : raw_size v1 = zlen bs).
    { unfold raw_size, v1. rewrite slice_splice by len. apply s32_le_val. unfold zlen. lia. }
    exists (splice 4 bs v1). split.
    + erewrite bind_run by (apply move_field_replay; [done|exact Hb1|len|len]).
      fold v1. rewrite Hsz. unfold MAX_RAW_SIZE.
      rewrite (proj2 (Z.leb_le _ _)) by (unfold zlen; lia).
      rewrite (proj2 (Z.leb_le _ _)) by (unfold zlen; lia). cbn [andb].
      unfold zlen at 1. rewrite Nat2Z.id.
      rewrite (move_field_replay _ 4 (length bs) v1 bs); [|done|done|done|lia].
      simpl k_rr. cbn [enc_payload]. by rewrite set_rr_twice, adv_adv, zlen_app.
    + unfold val_rep, sizeof_Val. split; [rewrite length_splice; lia|]. unfold v1. split.
      * rewrite slice_splice_before by len. apply slice_splice; len.
      * apply slice_splice; len.
  - cbn [enc_payload] in Hb.
    apply at_buf_app in Hb as [Hb1 Hb]. apply at_buf_app in Hb as [Hb2 Hb].
    apply at_buf_app in Hb as [Hb3 Hb]. apply at_buf_app in Hb as [Hb4 Hb5].
    eexists. split.
    + erewrite bind_run by (apply move_field_replay; [done|exact Hb1|len|len]).
      erewrite bind_run by (apply move_field_replay; [done|exact Hb2|len|len]).
      erewrite bind_run by (apply move_field_replay; [done|exact Hb3|len|len]).
      erewrite bind_run by (apply move_field_replay; [done|exact Hb4|len|len]).
      erewrite move_field_replay; [|done|exact Hb5|len|len].
      simpl k_rr. rewrite !set_rr_twice, !adv_adv.
      cbn [enc_payload]. by rewrite !zlen_app, !Z.add_assoc.
    + unfold val_rep, sizeof_Val. split; [len|].
      repeat split;
        repeat first [ rewrite slice_splice by len
                     | rewrite slice_splice_before by len
                     | rewrite slice_splice_after by len ]; done.
Qed.

(** All the unions of an argument array have their full size. *)
Definition args_wf (args : list Arg) : Prop :=
  length args = Z.to_nat MAX_ARGC /\
  forall i a, args !! i = Some a -> length (a_val a) = sizeof_Val.

Lemma args_wf_set args i a :
  args_wf args -> length (a_val a) = sizeof_Val -> args_wf (zset args i a).
Proof.
  intros [Hl Hv] Ha. split; [by rewrite length_zset|].
  intros j b Hb. unfold zset in Hb. apply list_lookup_insert_Some in Hb as [(_ & <- & _)|[_ Hb]]; eauto.
Qed.

Lemma transform_args_replay avs : forall s i args,
  rep_mode (k_rr s) -> args_wf args -> Forall aval_ok avs ->
  (i + length avs <= Z.to_nat MAX_ARGC)%nat ->
  at_buf (k_rr s) (concat (enc_aval <$> avs)) ->
  exists args', transform_args (length avs) (Z.of_nat i) args s =
      Ok (true, args') (set_rr (adv (zlen (concat (enc_aval <$> avs))) (k_rr s)) s) /\
    args_wf args' /\
    (forall k, (k < i)%nat -> args' !! k = args !! k) /\
    (forall k x, avs !! k = Some x -> exists a, args' !! (i + k)%nat = Some a /\ arg_rep a x).
Proof.
  induction avs as [|x avs IH]; intros s i args Hm Hwf Hok Hlen Hb.
  - exists args. simpl. change (zlen []) with 0. rewrite adv_0, set_rr_id.
    split; [done|]. split; [done|]. split; [done|]. by intros k x Hk.
  - apply Forall_cons in Hok as [Hx Hok]. cbn [fmap list_fmap concat length] in *.
    change (enc_aval x) with ([aval_tag x] ++ enc_payload x) in Hb.
    rewrite <- app_assoc in Hb.
    apply at_buf_app in Hb as [Hb1 Hb]. apply at_buf_app in Hb as [Hb2 Hb3].
    destruct (lookup_lt_is_Some_2 args i) as [a Ha]; [destruct Hwf; lia|].
    cbn [transform_args].
    rewrite (bind_run (gets k_rr) _ s (k_rr s) s) by done.
    rewrite (bind_run (aget args (Z.of_nat i)) _ s a s)
      by (apply aget_run; by rewrite zget_nat).
    pose proof Hm as [_ Hnr]. rewrite (proj2 (Z.eqb_neq _ _) Hnr). cbn [andb].
    erewrite bind_run by (apply mmi_replay; [done|exact Hb1|done]).
    set (s1 := set_rr _ s).
    rewrite (bind_run (aget [aval_tag x] 0) _ s1 (aval_tag x) s1) by done.
    rewrite aval_tag_nonzero, andb_false_r.
    destruct (transform_val_replay s1 (a_val a) x Hm) as (v & Hv & Hrep);
      [by eapply Hwf|done|done|].
    rewrite (bind_run _ _ _ _ _ Hv). set (s2 := set_rr _ s1).
    replace (Z.of_nat i + 1) with (Z.of_nat (S i)) by lia.
    set (args1 := zset args (Z.of_nat i) (mkArg (aval_tag x) v)).
    destruct (IH s2 (S i) args1) as (args' & Hrun & Hwf' & Hlow & Hhigh);
      [done|apply args_wf_set; [done|apply Hrep]|done|lia|done|].
    exists args'. split.
    { rewrite Hrun. subst s1 s2. simpl k_rr. rewrite !set_rr_twice, !adv_adv.
      change (enc_aval x) with ([aval_tag x] ++ enc_payload x).
      by rewrite !zlen_app, !Z.add_assoc. }
    split; [done|]. split.
    + intros k Hk. rewrite Hlow by lia. unfold args1, zset. rewrite Nat2Z.id.
      apply list_lookup_insert_ne. lia.
    + intros [|k] y Hy.
      * injection Hy as <-. exists (mkArg (aval_tag x) v). split; [|by split].
        rewrite Nat.add_0_r, Hlow by lia. unfold args1, zset. rewrite Nat2Z.id.
        apply list_lookup_insert_eq. destruct Hwf. lia.
      * destruct (Hhigh k y Hy) as (a' & Ha' & ?). exists a'. split; [|done].
        rewrite <- Ha'. f_equal. lia.
Qed.

Lemma bidirectionalTransform_replay s scr x fsz :
  rep_mode (k_rr s) -> args_wf (scr_args scr) -> srec_ok x ->
  at_buf (k_rr s) (enc_rec x) -> buffer_pos (k_rr s) <= fsz ->
  exists scr', bidirectionalTransform scr fsz s =
      Ok (1, scr') (set_rr (adv (zlen (enc_rec x)) (k_rr s)) s) /\ scr_rep scr' x.
Proof.
  intros Hm Hwf (Hnum & Hcnt & Hok) Hb Hf.
  pose proof (at_buf_room _ _ Hb) as (Hbl & Hbp & Hbr). pose proof (zlen_nonneg (enc_rec x)).
  change (enc_rec x) with ([x.1] ++ [zlen x.2] ++ concat (enc_aval <$> x.2)) in Hb.
  apply at_buf_app in Hb as [Hb1 Hb]. apply at_buf_app in Hb as [Hb2 Hb3].
  pose proof Hm as [Hrep Hnrec].
  unfold bidirectionalTransform. rewrite (bind_run (gets k_rr) _ s (k_rr s) s) by done.
  rewrite !Z.gtb_ltb, (proj2 (Z.ltb_ge MAX_FILE_SIZE _)) by lia.
  rewrite (proj2 (Z.ltb_ge fsz _)) by lia.
  rewrite (proj2 (Z.eqb_neq _ _) Hnrec), Hrep. cbn [andb Z.eqb Pos.eqb].
  erewrite bind_run by (apply mmi_replay; [done|exact Hb1|done]).
  set (s1 := set_rr _ s).
  rewrite (bind_run (aget [x.1] 0) _ s1 x.1 s1) by done.
  rewrite (proj2 (Z.eqb_neq x.1 UNITIALIZED_SCR)) by (unfold UNITIALIZED_SCR; lia).
  erewrite bind_run by (apply mmi_replay; [done|exact Hb2|done]).
  set (s2 := set_rr _ s1).
  rewrite (bind_run (aget [zlen x.2] 0) _ s2 (zlen x.2) s2) by done.
  unfold zlen at 1. rewrite Nat2Z.id.
  destruct (transform_args_replay x.2 s2 0 (scr_args scr)) as (args' & Hrun & Hwf' & _ & Hargs);
    [done|done|done| |done|].
  { unfold zlen, MAX_ARGC in *. lia. }
  exists (mkSCR x.1 (zlen x.2) args'). split.
  - change 0 with (Z.of_nat 0) at 1. rewrite (bind_run _ _ _ _ _ Hrun). unfold ret. f_equal.
    subst s1 s2. simpl k_rr. rewrite !set_rr_twice, !adv_adv. unfold enc_rec.
    rewrite !zlen_cons. change (zlen []) with 0.
    done.
  - destruct Hwf' as [Hl Hv]. split; [done|]. split; [done|]. split; [done|]. by split.
Qed.

Lemma transform_all_replay rs : forall s i fsz,
  rep_mode (k_rr s) -> Forall srec_ok rs ->
  (i + length rs <= length (recorded_scrs (k_rr s)))%nat ->
  (forall k c, recorded_scrs (k_rr s) !! k = Some c -> args_wf (scr_args c)) ->
  at_buf (k_rr s) (concat (enc_rec <$> rs)) ->
  buffer_pos (k_rr s) + zlen (concat (enc_rec <$> rs)) <= fsz ->
  exists scrs', transform_all (length rs) (Z.of_nat i) fsz s =
      Ok (Some tt) (set_rr (adv (zlen (concat (enc_rec <$> rs))) (set_scrs scrs' (k_rr s))) s) /\
    length scrs' = length (recorded_scrs (k_rr s)) /\
    (forall k, (k < i \/ i + length rs <= k)%nat -> scrs' !! k = recorded_scrs (k_rr s) !! k) /\
    (forall k x, rs !! k = Some x -> exists c, scrs' !! (i + k)%nat = Some c /\ scr_rep c x).
Proof.
  induction rs as [|x rs IH]; intros s i fsz Hm Hok Hlen Hwf Hb Hf.
  - exists (recorded_scrs (k_rr s)). simpl. change (zlen []) with 0. rewrite adv_0.
    assert (Hid : set_scrs (recorded_scrs (k_rr s)) (k_rr s) = k_rr s) by (by destruct (k_rr s)).
    rewrite Hid, set_rr_id. split; [done|]. split; [done|]. split; [done|]. by intros k y Hk.
  - apply Forall_cons in Hok as [Hx Hok]. cbn [fmap list_fmap concat length] in *.
    apply at_buf_app in Hb as [Hb1 Hb2]. rewrite zlen_app in Hf.
    pose proof (zlen_nonneg (enc_rec x)). pose proof (zlen_nonneg (concat (enc_rec <$> rs))).
    destruct (lookup_lt_is_Some_2 (recorded_scrs (k_rr s)) i) as [c Hc]; [lia|].
    cbn [transform_all].
    rewrite (bind_run (gets k_rr) _ s (k_rr s) s) by done.
    rewrite (bind_run (aget _ (Z.of_nat i)) _ s c s)
      by (apply aget_run; by rewrite zget_nat).
    destruct (bidirectionalTransform_replay s c x fsz) as (c' & Hrun & Hrep);
      [done|by eapply Hwf|done|done|lia|].
    rewrite (bind_run _ _ _ _ _ Hrun). cbv beta iota. set (s1 := set_rr _ s).
    rewrite (bind_run (upd_rr _) _ s1 tt
      (set_rr (set_scrs (zset (recorded_scrs (k_rr s1)) (Z.of_nat i) c') (k_rr s1)) s1)) by done.
    cbn [Z.eqb Pos.eqb Z.opp].
    replace (Z.of_nat i + 1) with (Z.of_nat (S i)) by lia. set (s2 := set_rr _ s1).
    edestruct (IH s2 (S i) fsz) as (scrs' & Hrun' & Hlen' & Hlow & Hhigh);
      [done|done| | |done| |].
    { unfold s2. simpl. rewrite length_zset. lia. }
    { intros k d Hd. unfold s2 in Hd. simpl in Hd. unfold zset in Hd.
      apply list_lookup_insert_Some in Hd as [(_ & <- & _)|[_ Hd]]; [|by eapply Hwf].
      destruct Hrep as (_ & _ & ? & _ & ?). by split. }
    { unfold s2. simpl. lia. }
    exists scrs'. split.
    { rewrite Hrun'. unfold s2, s1. simpl k_rr. rewrite !set_rr_twice.
      rewrite zlen_app. set (a := zlen (enc_rec x)). set (b := zlen (concat _)).
      unfold adv, set_pos, set_scrs. simpl. by rewrite Z.add_assoc. }
    split; [rewrite Hlen'; unfold s2; simpl; by rewrite length_zset|]. split.
    + intros k Hk. rewrite Hlow by lia. unfold s2. simpl. unfold zset. rewrite Nat2Z.id.
      apply list_lookup_insert_ne. lia.
    + intros [|k] y Hy.
      * injection Hy as <-. exists c'. split; [|done]. rewrite Nat.add_0_r, Hlow by lia.
        unfold s2. simpl. unfold zset. rewrite Nat2Z.id. apply list_lookup_insert_eq. lia.
      * destruct (Hhigh k y Hy) as (d & Hd & ?). exists d. split; [|done].
        rewrite <- Hd. f_equal. lia.
Qed.

(** ** The two directions compose *)

Lemma enc_session_idx (rs : list srec) :
  zlen rs <= MAX_SCRS -> s32 (le_val (le_bytes 4 (zlen rs))) = zlen rs.
Proof. intros H. apply s32_le_val. unfold MAX_SCRS, zlen in *. lia. Qed.

(** What sys_record_stop does to the buffer, up to the file operations. *)
Lemma encode_session s rs :
  rec_mode (k_rr s) -> log_rep (k_rr s) rs -> scrs_idx (k_rr s) = zlen rs ->
  zlen (buffer (k_rr s)) = MAX_FILE_SIZE -> zlen (enc_session rs) <= MAX_FILE_SIZE ->
  exists s', (upd_rr (set_pos 0) ;; transform_idx ;;
              r <- gets k_rr ;; transform_all (Z.to_nat (scrs_idx r)) 0 (-1)) s = Ok (Some tt) s' /\
    k_core s' = k_core s /\ replay_syscalls (k_rr s') = replay_syscalls (k_rr s) /\
    record_filename (k_rr s') = record_filename (k_rr s) /\
    rec_mode (k_rr s') /\ log_rep (k_rr s') rs /\ scrs_idx (k_rr s') = zlen rs /\ zlen (buffer (k_rr s')) = MAX_FILE_SIZE /\
    buffer_pos (k_rr s') = zlen (enc_session rs) /\
    take (Z.to_nat (buffer_pos (k_rr s'))) (buffer (k_rr s')) = enc_session rs.
Proof.
  intros Hm (Hlen & Hcnt & Hok & Hscrs & Hblank) Hidx Hbuf Henc.
  set (s0 := set_rr (set_pos 0 (k_rr s)) s).
  rewrite (bind_run (upd_rr (set_pos 0)) _ s tt s0) by done.
  unfold enc_session in Henc. rewrite zlen_app, zlen_le_bytes in Henc.
  pose proof (zlen_nonneg (concat (enc_rec <$> rs))).
  assert (Hr0 : room (k_rr s0) (4 + zlen (concat (enc_rec <$> rs)))).
  { split; [done|]. simpl. lia. }
  unfold transform_idx. rewrite bind_assoc.
  rewrite (bind_run (gets k_rr) _ s0 (k_rr s0) s0) by done. rewrite bind_assoc.
  simpl scrs_idx. rewrite Hidx.
  erewrite bind_run by (apply mmi_record; [done|eapply room_weaken; [done|rewrite zlen_le_bytes; lia]]).
  set (s1 := set_rr _ s0).
  rewrite (bind_run (upd_rr _) _ s1 tt s1).
  2: { unfold upd_rr, modify. f_equal. rewrite enc_session_idx by done.
       unfold s1, s0, set_rr. simpl. f_equal. unfold wr, set_idx, set_pos, set_buffer. simpl.
       by rewrite <- Hidx. }
  rewrite (bind_run (gets k_rr) _ s1 (k_rr s1) s1) by done.
  replace (Z.to_nat (scrs_idx (k_rr s1))) with (length rs)
    by (unfold s1, s0; simpl; rewrite Hidx; unfold zlen; lia).
  assert (Hr1 : room (k_rr s1) (zlen (concat (enc_rec <$> rs)))).
  { apply wr_room; [|lia]. rewrite zlen_le_bytes. done. }
  pose proof (transform_all_record rs s1 0 (-1) Hm Hscrs Hok Hr1) as Hrun.
  change (Z.of_nat 0) with 0 in Hrun. rewrite Hrun.
  eexists. split; [done|]. unfold s1, s0. simpl k_rr. rewrite !set_rr_twice.
  rewrite wr_app by (rewrite zlen_le_bytes; done).
  fold (enc_session rs). split; [done|]. split; [done|]. split; [done|]. split; [done|].
  split; [by split_and!|].
  split; [done|]. simpl. unfold MAX_FILE_SIZE in *.
  assert (Hez : zlen (enc_session rs) <= 60000)
    by (unfold enc_session; rewrite zlen_app, zlen_le_bytes; lia).
  unfold zlen in *.
  split; [rewrite length_splice; simpl; lia|]. split; [done|].
  rewrite Z.add_0_l, Nat2Z.id. change (Z.to_nat 0) with 0%nat. unfold splice. rewrite take_0, app_nil_l. apply take_app_length.
Qed.

(** What sys_replay_start does after the file operations. *)
Lemma decode_session s rs n :
  rep_mode (k_rr s) -> Forall srec_ok rs -> zlen rs <= MAX_SCRS ->
  length (recorded_scrs (k_rr s)) = Z.to_nat MAX_SCRS ->
  (forall k c, recorded_scrs (k_rr s) !! k = Some c -> scr_blank c) ->
  buffer_pos (k_rr s) = 0 -> at_buf (k_rr s) (enc_session rs) -> zlen (enc_session rs) <= n ->
  exists s', (transform_idx ;;
              r <- gets k_rr ;; transform_all (Z.to_nat (scrs_idx r)) 0 n) s = Ok (Some tt) s' /\
    k_core s' = k_core s /\ rep_mode (k_rr s') /\ log_rep (k_rr s') rs /\
    rr_pid (k_rr s') = rr_pid (k_rr s).
Proof.
  intros Hm Hok Hcnt Hlen Hblank Hpos Hb Hn.
  unfold enc_session in Hb, Hn. rewrite zlen_app in Hn.
  apply at_buf_app in Hb as [Hb1 Hb2].
  unfold transform_idx. rewrite bind_assoc.
  rewrite (bind_run (gets k_rr) _ s (k_rr s) s) by done. rewrite bind_assoc.
  erewrite bind_run by (apply mmi_replay; [done|exact Hb1|len]).
  set (s1 := set_rr _ s).
  rewrite enc_session_idx by done.
  set (s2 := set_rr (set_idx (zlen rs) (k_rr s1)) s1).
  rewrite (bind_run (upd_rr _) _ s1 tt s2) by done.
  rewrite (bind_run (gets k_rr) _ s2 (k_rr s2) s2) by done.
  replace (Z.to_nat (scrs_idx (k_rr s2))) with (length rs) by (simpl; unfold zlen; lia).
  destruct (transform_all_replay rs s2 0 n) as (scrs' & Hrun & Hlen' & Hlow & Hrep);
    [done|done| | |done| |].
  { simpl. rewrite Hlen. unfold zlen, MAX_SCRS in *. lia. }
  { intros k c Hc. destruct (Hblank k c Hc) as (_ & ? & ?). by split. }
  { simpl. rewrite Hpos. lia. }
  change (Z.of_nat 0) with 0 in Hrun. rewrite Hrun.
  eexists. split; [done|]. split; [done|]. split; [done|]. split; [|done].
  split; [exact (eq_trans Hlen' Hlen)|]. split; [done|]. split; [done|]. split; [exact Hrep|].
  intros k c Hk. rewrite Hlow by lia. apply Hblank.
Qed.

End codec.
End RRCodec.
