(* ===== verification/RRBuild.v ===== *)
(** * Building, storing and comparing records

    The [add] functions of sysproc.c append a typed value to the abstract
    record a [struct SCR] represents, [addSRC] appends that record to the log
    and [compareSCRS] checks the next record of the log against the inputs of
    the call being replayed. *)
From S2P Require Import Prelude Words Params CString Core Fs File Syscall RR RRSpec Sysfile Frame.

Module RRBuild.
Import RR RRSpec Sysfile Frame.

(** The value a C [int] or [unsigned] of that content holds. *)
Definition norm (a : aval) : aval :=
  match a with
  | AInt n => AInt (s32 n)
  | AUInt n => AUInt (u32 n)
  | _ => a
  end.

(** ** What the recorder's routines may change

    The routines of this file run other kernel code, report errors and move
    the log; a relation that allows these three is kept by all of them. *)
Class RRFrame {B} (R : kstate B -> kstate B -> Prop) : Prop := {
  rf_refl :: Reflexive R;
  rf_trans :: Transitive R;
  rf_core : forall s c, R s (set_core c s);
  rf_err : Keeps R RecRepErr;
  rf_log : forall s l i, R s (set_rr (set_idx i (set_scrs l (k_rr s))) s)
}.

Section frame.
Context {B : Type} {BL : BlockLayer B} (R : kstate B -> kstate B -> Prop) `{!RRFrame R} (junk : list Z).

Lemma rf_idx s i : R s (set_rr (set_idx i (k_rr s)) s).
Proof.
  pose proof (rf_log s (recorded_scrs (k_rr s)) i) as H.
  destruct s as [[] c]. exact H.
Qed.

Lemma kr_RecRepErr : Keeps R RecRepErr.
Proof. apply rf_err. Qed.

Lemma kr_kcore {A} (m : M (core B) A) : Keeps R (kcore m).
Proof. intros s a s' H. apply zoom_Ok_inv in H as (t & _ & ->). apply rf_core. Qed.
#[local] Hint Resolve kr_kcore kr_RecRepErr : keeps.

Lemma kr_addArg scr a : Keeps R (addArg scr a).
Proof. unfold addArg. keeps. Qed.
#[local] Hint Resolve kr_addArg : keeps.

Lemma kr_addInt scr v : Keeps R (addInt junk scr v).
Proof. unfold addInt. keeps. Qed.

Lemma kr_addUInt scr v : Keeps R (addUInt junk scr v).
Proof. unfold addUInt. keeps. Qed.

Lemma kr_addStr scr v : Keeps R (addStr junk scr v).
Proof. unfold addStr. keeps. Qed.

Lemma kr_addRaw scr p n : Keeps R (addRaw junk scr p n).
Proof. unfold addRaw. keeps. Qed.

Lemma kr_addStat scr st : Keeps R (addStat junk scr st).
Proof. unfold addStat. keeps. Qed.

Lemma kr_addSRC scr : Keeps R (addSRC scr).
Proof. unfold addSRC, upd_rr. keeps. apply rf_log. Qed.

Lemma kr_out_num scr : Keeps R (out_num scr).
Proof. unfold out_num, out_val. keeps. Qed.

Lemma kr_myargint n : Keeps R (myargint n).
Proof. unfold myargint. keeps. Qed.

Lemma kr_myargstr n : Keeps R (myargstr n).
Proof. unfold myargstr. keeps. Qed.

Lemma kr_data_same n : forall d1 d2, Keeps R (data_same n d1 d2).
Proof. induction n; cbn [data_same]; keeps. Qed.
#[local] Hint Resolve kr_data_same : keeps.

Lemma kr_args_match fuel : forall i r c, Keeps R (args_match fuel i r c).
Proof. induction fuel; cbn [args_match]; keeps. Qed.
#[local] Hint Resolve kr_args_match : keeps.

Lemma kr_compareSCRS scr : Keeps R (compareSCRS junk scr).
Proof. unfold compareSCRS, upd_rr. keeps. apply rf_idx. Qed.

End frame.

Section build.
Context {B : Type} {BL : BlockLayer B} (junk : list Z).
Hypothesis Hjunk : junk_ok junk.
Implicit Types s : kstate B.

(** ** Recording is switched off by an error and never back on *)

Definition alive s : Prop := record_syscalls (k_rr s) = 1.
Definition back s s' : Prop := alive s' -> alive s.

Lemma RecRepErr_dead s s' u : RecRepErr s = Ok u s' -> ~ alive s'.
Proof. intros H. unfold RecRepErr, upd_rr in H. minvs. unfold alive. simpl. done. Qed.

#[global] Instance back_frame : RRFrame back.
Proof.
  split.
  - intros s Ha. exact Ha.
  - intros s1 s2 s3 H1 H2 Ha. by apply H1, H2.
  - intros s c Ha. exact Ha.
  - intros s u s' H Ha. by apply RecRepErr_dead in H.
  - intros s l i Ha. exact Ha.
Qed.

(** Peel the first step off a run that ends with recording still on. *)
Lemma alive_bind {A A'} (m : M (kstate B) A) (k : A -> M (kstate B) A') s b s' :
  bind m k s = Ok b s' -> alive s' -> (forall a, Keeps back (k a)) ->
  exists a s1, m s = Ok a s1 /\ alive s1 /\ k a s1 = Ok b s'.
Proof.
  intros H Ha Hk. apply bind_Ok_inv in H as (a & s1 & H1 & H2).
  exists a, s1. split; [done|]. split; [|done]. by eapply Hk.
Qed.

(** ** Arguments *)

Lemma kcore_id {A} (m : M (core B) A) s a :
  m (k_core s) = Ok a (k_core s) -> kcore m s = Ok a s.
Proof. intros H. unfold kcore. rewrite (zoom_run _ _ _ _ _ _ H). by destruct s. Qed.

Lemma kcore_uo {A} (m : M (core B) A) s a s1 :
  UserOnly m -> kcore m s = Ok a s1 -> s1 = s /\ m (k_core s) = Ok a (k_core s).
Proof.
  intros Hu H. apply zoom_Ok_inv in H as (t & H & ->). pose proof (Hu _ _ _ H) as [-> _].
  split; [by destruct s|done].
Qed.

Lemma myargint_run n s v :
  Syscall.argint n (k_core s) = Ok (Some v) (k_core s) -> myargint n s = Ok (v, Some v) s.
Proof. intros H. unfold myargint. by rewrite (bind_run _ _ _ _ _ (kcore_id _ _ _ H)). Qed.

Lemma myargint_inv n s v ov s' :
  myargint n s = Ok (v, ov) s' -> alive s' ->
  s' = s /\ ov = Some v /\ Syscall.argint n (k_core s) = Ok (Some v) (k_core s).
Proof.
  intros H Ha. unfold myargint in H. minv H.
  apply kcore_uo in Hm as [-> Hm]; [|apply uo_argint]. destruct a.
  - minvs. eauto.
  - minv Hk. apply RecRepErr_dead in Hm0. minvs. done.
Qed.

Lemma myargstr_run n s v :
  Syscall.argstr n (k_core s) = Ok (Some v) (k_core s) -> myargstr n s = Ok v s.
Proof. intros H. unfold myargstr. by rewrite (bind_run _ _ _ _ _ (kcore_id _ _ _ H)). Qed.

Lemma myargstr_inv n s v s' :
  myargstr n s = Ok v s' -> alive s' ->
  s' = s /\ Syscall.argstr n (k_core s) = Ok (Some v) (k_core s).
Proof.
  intros H Ha. unfold myargstr in H. minv H.
  apply kcore_uo in Hm as [-> Hm]; [|apply uo_argstr]. destruct a.
  - minvs. eauto.
  - minv Hk. apply RecRepErr_dead in Hm0. minvs. done.
Qed.

(** ** Appending a value *)

Lemma createSCR_rep num : 0 < num < 256 -> scr_rep (createSCR junk num) (num, []).
Proof.
  intros Hn. unfold scr_rep, createSCR. simpl. split; [apply Z.mod_small; lia|].
  split; [done|]. split; [done|]. split; [by intros i x Hi|].
  intros i a Hi. assert (Hin : a ∈ replicate 4 (mkArg NONE_TYPE (splice 4 (replicate 200 0) junk))).
  { apply list_elem_of_lookup. by exists i. }
  apply elem_of_replicate in Hin as [-> _]. unfold junk_ok in Hjunk. simpl a_val.
  unfold sizeof_Val in *. len.
Qed.

Lemma addArg_run scr a s num avs x :
  scr_rep scr (num, avs) -> zlen avs < MAX_ARGC -> arg_rep a x ->
  exists scr', addArg scr a s = Ok scr' s /\ scr_rep scr' (num, avs ++ [x]).
Proof.
  intros (Hsys & Hc & Hl & Hargs & Hv) Hlt Ha. simpl in *. unfold MAX_ARGC in *.
  exists (mkSCR (scr_syscall scr) (u8 (scr_argc scr + 1)) (zset (scr_args scr) (scr_argc scr) a)).
  pose proof (zlen_nonneg avs).
  split.
  - unfold addArg, whenM, MAX_ARGC. rewrite Hc, Z.geb_leb, (proj2 (Z.leb_gt _ _)) by lia.
    rewrite bind_ret_l, (proj2 (Z.leb_le _ _)) by lia.
    rewrite (proj2 (Z.ltb_lt _ _)) by (unfold zlen in *; lia). done.
  - split; [done|]. split; [|split; [exact (eq_trans (length_zset _ _ _) Hl)|split]].
    + simpl. rewrite Hc, zlen_app. unfold u8. rewrite Z.mod_small by lia. done.
    + simpl. intros i y Hi. unfold zset. rewrite Hc. unfold zlen. rewrite Nat2Z.id.
      unfold zlen in *. apply lookup_snoc_Some in Hi as [[Hi Hy]|[-> <-]].
      * destruct (Hargs i y Hy) as (b & Hb & ?). exists b. split; [|done].
        rewrite list_lookup_insert_ne by lia. done.
      * exists a. split; [|done]. apply list_lookup_insert_eq. lia.
    + simpl. intros i b Hb. unfold zset in Hb.
      apply list_lookup_insert_Some in Hb as [(_ & <- & _)|[_ Hb]]; [|eauto].
      apply Ha.
Qed.

(** When recording survives an append, there was room for it. *)
Lemma addArg_inv scr a s num avs x scr' s' :
  scr_rep scr (num, avs) -> arg_rep a x -> addArg scr a s = Ok scr' s' -> alive s' ->
  s' = s /\ zlen avs < MAX_ARGC /\ scr_rep scr' (num, avs ++ [x]).
Proof.
  intros Hrep Ha H Hal. destruct (Z.lt_ge_cases (zlen avs) MAX_ARGC) as [Hlt|Hge].
  - destruct (addArg_run scr a s num avs x Hrep Hlt Ha) as (scr1 & H1 & ?).
    rewrite H1 in H. by simplify_eq.
  - exfalso. unfold addArg in H. destruct Hrep as (_ & Hc & _). simpl in Hc.
    rewrite Hc, Z.geb_leb, (proj2 (Z.leb_le _ _)) in H by lia.
    minv H. apply RecRepErr_dead in Hm as Hd. minvs; done.
Qed.

Lemma put_num_rep_int v : arg_rep (mkArg INT_TYPE (put_num v junk)) (AInt (s32 v)).
Proof.
  split; [done|]. destruct (put_num_rep v junk Hjunk) as [? H]. split; [done|].
  simpl in *. rewrite H. rewrite <- (le_bytes_mod 4 (s32 v)), <- (le_bytes_mod 4 v).
  f_equal. change (8 * Z.of_nat 4) with 32. symmetry. apply (u32_s32 v).
Qed.

Lemma put_num_rep_uint v : arg_rep (mkArg UINT_TYPE (put_num v junk)) (AUInt (u32 v)).
Proof.
  split; [done|]. destruct (put_num_rep v junk Hjunk) as [? H]. split; [done|].
  simpl in *. rewrite H. symmetry. apply (le_bytes_mod 4 v).
Qed.

Lemma addInt_run scr v s num avs :
  scr_rep scr (num, avs) -> zlen avs < MAX_ARGC ->
  exists scr', addInt junk scr v s = Ok scr' s /\ scr_rep scr' (num, avs ++ [AInt (s32 v)]).
Proof. intros. apply addArg_run; [done..|apply put_num_rep_int]. Qed.

Lemma addInt_inv scr v s num avs scr' s' :
  scr_rep scr (num, avs) -> addInt junk scr v s = Ok scr' s' -> alive s' ->
  s' = s /\ zlen avs < MAX_ARGC /\ scr_rep scr' (num, avs ++ [AInt (s32 v)]).
Proof. intros Hr H. eapply addArg_inv; [done|apply put_num_rep_int|exact H]. Qed.

Lemma addUInt_inv scr v s num avs scr' s' :
  scr_rep scr (num, avs) -> addUInt junk scr v s = Ok scr' s' -> alive s' ->
  s' = s /\ zlen avs < MAX_ARGC /\ scr_rep scr' (num, avs ++ [AUInt (u32 v)]).
Proof. intros Hr H. eapply addArg_inv; [done|apply put_num_rep_uint|exact H]. Qed.

Lemma addStat_inv scr st s num avs scr' s' :
  scr_rep scr (num, avs) -> addStat junk scr st s = Ok scr' s' -> alive s' ->
  s' = s /\ zlen avs < MAX_ARGC /\ scr_rep scr' (num, avs ++ [AStat st]).
Proof.
  intros Hr H. eapply addArg_inv; [done| |exact H]. split; [done|]. by apply put_st_rep.
Qed.

Lemma bytes_arg_rep bs : zlen bs <= MAX_RAW_SIZE ->
  arg_rep (mkArg BYTE_TYPE
    (put_raw (zlen bs) (splice 0 bs (replicate (Z.to_nat MAX_RAW_SIZE) 0)) junk)) (ABytes bs).
Proof. intros H. split; [done|]. by apply put_raw_rep. Qed.

Lemma addStr_run scr str s num avs :
  scr_rep scr (num, avs) -> zlen avs < MAX_ARGC -> zlen str <= MAX_RAW_SIZE ->
  exists scr', addStr junk scr str s = Ok scr' s /\ scr_rep scr' (num, avs ++ [ABytes str]).
Proof.
  intros Hr Hlt Hs. unfold addStr, whenM. rewrite Z.gtb_ltb, (proj2 (Z.ltb_ge _ _)) by lia.
  rewrite bind_ret_l, (proj2 (Z.leb_le _ _)) by lia.
  apply addArg_run; [done..|by apply bytes_arg_rep].
Qed.

Lemma addStr_inv scr str s num avs scr' s' :
  scr_rep scr (num, avs) -> addStr junk scr str s = Ok scr' s' -> alive s' ->
  s' = s /\ zlen avs < MAX_ARGC /\ zlen str <= MAX_RAW_SIZE /\
  scr_rep scr' (num, avs ++ [ABytes str]).
Proof.
  intros Hr H Ha. unfold addStr in H.
  destruct (Z.leb_spec (zlen str) MAX_RAW_SIZE) as [Hs|Hs]; [|by minv H].
  rewrite Z.gtb_ltb, (proj2 (Z.ltb_ge _ _)) in H by lia. unfold whenM in H.
  rewrite bind_ret_l in H.
  eapply addArg_inv in H as (? & ? & ?); [|done|by apply bytes_arg_rep|done]. done.
Qed.

Lemma addRaw_inv scr p n s num avs scr' s' :
  scr_rep scr (num, avs) -> addRaw junk scr p n s = Ok scr' s' -> alive s' ->
  s' = s /\ zlen avs < MAX_ARGC /\ exists bs, read_user p n (k_core s) = Ok bs (k_core s) /\
    zlen bs = n /\ n <= MAX_RAW_SIZE /\ scr_rep scr' (num, avs ++ [ABytes bs]).
Proof.
  intros Hr H Ha. unfold addRaw in H.
  destruct (Z.leb_spec 0 n) as [H0|H0]; [|by minv H].
  destruct (Z.leb_spec n MAX_RAW_SIZE) as [Hs|Hs]; [|by minv H].
  rewrite Z.gtb_ltb, (proj2 (Z.ltb_ge _ _)) in H by lia. unfold whenM in H.
  rewrite bind_ret_l in H. cbn [andb] in H. minv H.
  apply kcore_uo in Hm as [-> Hm]; [|apply uo_read_user].
  assert (Hn : zlen a = n).
  { unfold read_user, p_sz in Hm. minvs. destruct_bool_hyps. unfold zlen in *. len. }
  subst n. eapply addArg_inv in Hk as (? & ? & ?); [|done|by apply bytes_arg_rep|done].
  eauto 10.
Qed.

(** ** The value returned from a record *)

Lemma out_num_run scr s num avs pos a n :
  scr_rep scr (num, avs) -> get1stOutputPos num = Z.of_nat pos -> avs !! pos = Some a ->
  a = AInt n /\ - 2 ^ 31 <= n < 2 ^ 31 \/ (exists u, a = AUInt u /\ n = s32 u) ->
  out_num scr s = Ok n s.
Proof.
  intros (Hsys & _ & _ & Hargs & _) Hpos Ha Hn. simpl in *.
  destruct (Hargs pos a Ha) as (b & Hb & [_ Hrep]).
  unfold out_num, out_val. rewrite bind_assoc, Hsys, Hpos, Z.add_0_r.
  rewrite (bind_run _ _ _ b s) by (apply aget_run; by rewrite zget_nat).
  rewrite bind_ret_l. unfold ret. f_equal.
  destruct Hn as [[-> Hok]|(u & -> & ->)]; [by apply val_rep_int|by apply val_rep_uint].
Qed.

(** ** The log *)

(** The log holds [rs] and the next record goes after them. *)
Definition logging s (rs : list srec) : Prop :=
  log_rep (k_rr s) rs /\ scrs_idx (k_rr s) = zlen rs.

Lemma addSRC_inv scr s rs x u s' :
  logging s rs -> scr_rep scr x -> srec_ok x -> addSRC scr s = Ok u s' -> alive s' ->
  logging s' (rs ++ [x]) /\ k_core s' = k_core s /\
  replay_syscalls (k_rr s') = replay_syscalls (k_rr s) /\ rr_pid (k_rr s') = rr_pid (k_rr s).
Proof.
  intros [(Hlen & Hcnt & Hok & Hscrs & Hblank) Hidx] Hrep Hx H Ha. unfold addSRC, upd_rr in H.
  minv H. minv Hm. destruct (scrs_idx _ >=? MAX_SCRS) eqn:E; [by apply RecRepErr_dead in Hk|].
  minv Hk; [|done]. minv Hk. clear E. destruct_bool_hyps. rewrite Hidx in *.
  split; [|done]. unfold logging, log_rep. unfold zlen, MAX_SCRS in *. cbn -[Z.to_nat Z.of_nat].
  rewrite length_zset, length_app. unfold zset. rewrite Nat2Z.id. cbn [length].
  split; [|lia]. split; [done|]. rewrite Hlen in *. split; [lia|].
  split; [by apply Forall_app_2; [|apply Forall_singleton]|]. split.
  - intros i y Hi. apply lookup_snoc_Some in Hi as [[Hi Hy]|[-> <-]].
    + rewrite list_lookup_insert_ne by lia. eauto.
    + exists scr. split; [|done]. apply list_lookup_insert_eq. lia.
  - intros i c Hi Hc. rewrite list_lookup_insert_ne in Hc by lia. eapply Hblank; [|done]. lia.
Qed.

(** ** Comparison during replay *)

(** The inputs [compareSCRS] can compare. *)
Definition comparable (a : aval) : Prop :=
  match a with AInt _ | ABytes _ => aval_ok a | _ => False end.

Lemma data_same_refl n : forall d1 d2 s,
  take n d1 = take n d2 -> (n <= length d1)%nat -> (n <= length d2)%nat ->
  data_same n d1 d2 s = Ok true s.
Proof.
  induction n as [|n IH]; intros d1 d2 s Ht H1 H2; [done|].
  destruct d1 as [|x d1], d2 as [|y d2]; simpl in *; try lia. injection Ht as -> Ht.
  rewrite Z.eqb_refl. apply IH; [done|lia|lia].
Qed.

Lemma args_match_run fuel : forall i recorded scr num ins outs s,
  scr_rep recorded (num, ins ++ outs) -> scr_rep scr (num, ins) ->
  (i + fuel = length ins)%nat -> Forall comparable ins ->
  args_match fuel (Z.of_nat i) recorded scr s = Ok true s.
Proof.
  induction fuel as [|fuel IH]; intros i recorded scr num ins outs s Hr Hs Hi Hc; [done|].
  destruct (lookup_lt_is_Some_2 ins i) as [x Hx]; [lia|].
  pose proof Hr as (_ & _ & _ & Ha1 & _). pose proof Hs as (_ & _ & _ & Ha2 & _). simpl in *.
  destruct (Ha1 i x) as (a1 & H1 & T1 & V1); [by apply lookup_app_l_Some|].
  destruct (Ha2 i x Hx) as (a2 & H2 & T2 & V2).
  rewrite (bind_run _ _ _ a1 s) by (apply aget_run; by rewrite zget_nat).
  rewrite (bind_run _ _ _ a2 s) by (apply aget_run; by rewrite zget_nat).
  rewrite T1. replace (Z.of_nat i + 1) with (Z.of_nat (S i)) by lia.
  pose proof (Forall_lookup_1 _ _ _ _ Hc Hx) as Hcx. destruct x as [n|n|bs|st]; try done.
  - simpl. rewrite !(val_rep_int _ n) by done. rewrite Z.eqb_refl. eapply IH; [done|done|lia|done].
  - simpl. destruct (val_rep_bytes _ _ V1 Hcx) as [S1 D1].
    destruct (val_rep_bytes _ _ V2 Hcx) as [S2 D2]. rewrite S1, S2, Z.eqb_refl.
    simpl in Hcx. unfold zlen, MAX_RAW_SIZE in *. rewrite Nat2Z.id.
    destruct V1 as [L1 _], V2 as [L2 _]. unfold sizeof_Val in *.
    rewrite (bind_run _ _ _ true s); [eapply IH; [done|done|lia|done]|].
    apply data_same_refl; [congruence|unfold raw_data; len|unfold raw_data; len].
Qed.

Lemma compareSCRS_run scr s rs k num ins outs :
  log_rep (k_rr s) rs -> scrs_idx (k_rr s) = Z.of_nat k -> rs !! k = Some (num, ins ++ outs) ->
  scr_rep scr (num, ins) -> get1stOutputPos num = zlen ins -> Forall comparable ins ->
  exists recorded,
    compareSCRS junk scr s = Ok recorded (set_rr (set_idx (Z.of_nat (S k)) (k_rr s)) s) /\
    scr_rep recorded (num, ins ++ outs).
Proof.
  intros (Hlen & Hcnt & Hok & Hscrs & _) Hidx Hk Hs Hpos Hc.
  destruct (Hscrs k _ Hk) as (recorded & Hrec & Hrep). exists recorded. split; [|done].
  assert (k < length rs)%nat by (eapply lookup_lt_Some; exact Hk).
  pose proof (Forall_lookup_1 _ _ _ _ Hok Hk) as (Hnum & _).
  pose proof Hrep as (Hsys & _). pose proof Hs as (Hsys' & _). simpl in *.
  unfold compareSCRS. rewrite (bind_run (gets k_rr) _ s (k_rr s) s) by done.
  rewrite Hidx. unfold zlen, MAX_SCRS in *.
  rewrite Z.geb_leb, (proj2 (Z.leb_gt _ _)) by lia.
  rewrite (bind_run _ _ _ recorded s) by (apply aget_run; by rewrite zget_nat).
  rewrite (bind_run (upd_rr _) _ s tt (set_rr (set_idx (Z.of_nat (S k)) (k_rr s)) s))
    by (unfold upd_rr, modify; rewrite Hidx, Nat2Z.inj_succ; done).
  rewrite Hsys, Hsys', (proj2 (Z.eqb_neq _ _)) by (unfold UNITIALIZED_SCR; lia).
  rewrite Z.eqb_refl. cbn [negb]. rewrite Hpos, Nat2Z.id.
  rewrite (bind_run _ _ _ true (set_rr (set_idx (Z.of_nat (S k)) (k_rr s)) s)); [done|].
  by apply (args_match_run (length ins) 0 recorded scr num ins outs).
Qed.

End build.
End RRBuild.
