(* ===== verification/RRCalls.v ===== *)
(** * One recorded system call and its replay

    [run_call] is the kernel's entry point of a recordable call.  For each
    call, [fetch_ins] are the arguments it logs, [orig_call] is the call
    without the recorder and [apply_outs] is the visible effect of a list of
    logged outputs on the process.  [record_step] and [replay_step] relate the
    two modes to these. *)
From S2P Require Import Prelude Words Params CString Core Fs File Syscall RR RRSpec Sysfile.
From S2P Require Import Sysproc Frame RRCodec RRBuild.

Module RRCalls.
Import RR RRSpec Sysfile Sysproc Frame RRBuild.

Inductive call :=
| CGetpid | CUptime | CClose | COpen | CRead | CFstat | CLink | CUnlink | CMkdir | CMknod | CChdir.

(** The number each call stores in its record. *)
Definition call_num (c : call) : Z :=
  match c with
  | CGetpid => SYS_getpid | CUptime => SYS_uptime | CClose => SYS_close | COpen => SYS_open
  | CRead => SYS_read | CFstat => SYS_fstat | CLink => SYS_link | CUnlink => SYS_unlink
  | CMkdir => SYS_mkdir | CMknod => SYS_mknod | CChdir => SYS_mkdir
  end.

Section calls.
Context {B : Type} {BL : BlockLayer B} (end_ : Z) (junk : list Z).
Implicit Types s : kstate B.

#[local] Abbreviation K := (M (kstate B)).
#[local] Abbreviation C := (M (core B)).

Definition run_call (c : call) : K Z :=
  match c with
  | CGetpid => sys_getpid junk
  | CUptime => sys_uptime junk
  | CClose => sys_close end_ junk
  | COpen => sys_open end_ junk
  | CRead => sys_read junk
  | CFstat => sys_fstat junk
  | CLink => sys_link junk
  | CUnlink => sys_unlink junk
  | CMkdir => sys_mkdir junk
  | CMknod => sys_mknod junk
  | CChdir => sys_chdir junk
  end.

Definition orig_call (c : call) : C Z :=
  match c with
  | CGetpid => p <- myproc ;; ret (p_pid p)
  | CUptime => t <- gets c_ticks ;; ret (s32 t)
  | CClose => close_orig end_
  | COpen => open_orig end_
  | CRead => read_orig
  | CFstat => fstat_orig
  | CLink => link_orig
  | CUnlink => unlink_orig
  | CMkdir => mkdir_orig
  | CMknod => mknod_orig
  | CChdir => chdir_orig
  end.

Definition fetch_ins (c : call) : C (option (list aval)) :=
  match c with
  | CGetpid | CUptime => ret (Some [])
  | CClose | CFstat =>
      let? fd := Syscall.argint 0 or ret None in ret (Some [AInt (s32 fd)])
  | COpen =>
      let? path := Syscall.argstr 0 or ret None in
      let? mode := Syscall.argint 1 or ret None in
      ret (Some [ABytes path; AInt (s32 mode)])
  | CRead =>
      let? fd := Syscall.argint 0 or ret None in
      let? n := Syscall.argint 2 or ret None in
      ret (Some [AInt (s32 fd); AInt (s32 n)])
  | CLink =>
      let? old := Syscall.argstr 0 or ret None in
      let? new := Syscall.argstr 1 or ret None in
      ret (Some [ABytes old; ABytes new])
  | CUnlink | CMkdir | CChdir =>
      let? path := Syscall.argstr 0 or ret None in ret (Some [ABytes path])
  | CMknod =>
      let? path := Syscall.argstr 0 or ret None in
      let? major := Syscall.argint 1 or ret None in
      let? minor := Syscall.argint 2 or ret None in
      ret (Some [ABytes path; AInt (s32 major); AInt (s32 minor)])
  end.

Definition apply_outs (c : call) (outs : list aval) : C Z :=
  match c, outs with
  | CRead, [AInt v; ABytes bs] =>
      let? n := Syscall.argint 2 or undef in
      let? p := Syscall.argptr 1 n or undef in
      if zlen bs =? n then write_user p bs ;; ret v else undef
  | CFstat, [AInt v; AStat st] =>
      let? a := Syscall.argptr 1 sizeof_stat or undef in
      write_stat a st ;; ret v
  | CUptime, [AUInt u] => ret (s32 u)
  | (CRead | CFstat | CUptime), _ => undef
  | _, [AInt v] => ret v
  | _, _ => undef
  end.

(** ** The recording branches do what the original branches do *)

Ltac mext :=
  repeat first
    [ reflexivity
    | apply bind_ext; intros ? ?
    | rewrite bind_assoc
    | rewrite bind_ret_l
    | match goal with
      | |- (match ?x with _ => _ end) _ = _ => destruct x
      | |- _ = (match ?x with _ => _ end) _ => destruct x
      end ].

Lemma close_rec_orig c : close_rec end_ c = close_orig end_ c.
Proof. reflexivity. Qed.

Lemma link_rec_orig c : link_rec c = link_orig c.
Proof. unfold link_rec, link_orig, end_fail, upd_nlink, bind_or. mext. Qed.

Lemma unlink_rec_orig c : unlink_rec c = unlink_orig c.
Proof. unfold unlink_rec, unlink_orig, bind_or. mext. Qed.

Lemma open_rec_orig c : open_rec end_ c = open_orig end_ c.
Proof. unfold open_rec, open_orig, my_open, end_fail, bind_or. mext. Qed.

Lemma mkdir_rec_orig c : mkdir_rec c = mkdir_orig c.
Proof. unfold mkdir_rec, mkdir_orig, end_fail, bind_or. mext. Qed.

Lemma mknod_rec_orig c : mknod_rec c = mknod_orig c.
Proof. unfold mknod_rec, mknod_orig, end_fail, bind_or. mext. Qed.

Lemma chdir_rec_orig c : chdir_rec c = chdir_orig c.
Proof. unfold chdir_rec, chdir_orig, end_fail, bind_or. mext. Qed.

(** ** Recording one call *)

Hypothesis Hjunk : junk_ok junk.

(** A process whose session is being recorded. *)
Definition recording s : Prop :=
  alive s /\ replay_syscalls (k_rr s) <> 1 /\ rr_pid (k_rr s) = p_pid (c_proc (k_core s)).

(** The log has grown by one record, the session is still on. *)
Definition logged s s' (rs : list srec) (x : srec) : Prop :=
  logging s' (rs ++ [x]) /\ replay_syscalls (k_rr s') = replay_syscalls (k_rr s) /\
  rr_pid (k_rr s') = rr_pid (k_rr s).

Lemma isReplaying_no s : replay_syscalls (k_rr s) <> 1 -> isReplaying s = Ok false s.
Proof. intros H. unfold isReplaying, gets. by rewrite (proj2 (Z.eqb_neq _ _) H). Qed.

Lemma isRecording_yes s : recording s -> isRecording s = Ok true s.
Proof. intros (H1 & _ & H2). unfold isRecording, gets, alive in *. by rewrite H1, H2, !Z.eqb_refl. Qed.

(** The end of every recording branch. *)
Lemma rec_finish scr s num ins out outs rs v s' n :
  scr_rep scr (num, ins ++ out :: outs) -> 0 < num < 256 -> get1stOutputPos num = zlen ins ->
  zlen (ins ++ out :: outs) <= MAX_ARGC -> Forall aval_ok (ins ++ out :: outs) ->
  out = AInt n /\ - 2 ^ 31 <= n < 2 ^ 31 \/ (exists u, out = AUInt u /\ n = s32 u) ->
  logging s rs -> (addSRC scr ;; out_num scr) s = Ok v s' -> alive s' ->
  v = n /\ k_core s' = k_core s /\ logged s s' rs (num, ins ++ out :: outs).
Proof.
  intros Hrep Hnum Hpos Hlen Hok Hout Hlog H Ha.
  apply alive_bind in H as (u & s1 & H1 & Ha1 & H2); [|done|intros; apply kr_out_num; apply _].
  eapply addSRC_inv in H1 as (Hlog' & Hcore & Hrp & Hpid); [|exact Hlog|exact Hrep|split; [exact Hnum|split; [exact Hlen|exact Hok]]|done].
  erewrite (out_num_run scr s1 num _ (length ins) out n) in H2;
    [|done|exact Hpos| |exact Hout].
  - simplify_eq. done.
  - rewrite list_lookup_middle; done.
Qed.

(** The end of the calls that log one status. *)
Lemma rec_tail scr s num ins (body : C Z) rs v s' :
  scr_rep scr (num, ins) -> 0 < num < 256 -> get1stOutputPos num = zlen ins ->
  Forall aval_ok ins -> logging s rs ->
  (out <- kcore body ;; scr <- addInt junk scr out ;; addSRC scr ;; out_num scr) s = Ok v s' ->
  alive s' ->
  exists out, body (k_core s) = Ok out (k_core s') /\ v = s32 out /\
    logged s s' rs (num, ins ++ [AInt (s32 out)]).
Proof.
  intros Hrep Hnum Hpos Hok Hlog H Ha. apply bind_Ok_inv in H as (out & s1 & H1 & H).
  apply zoom_Ok_inv in H1 as (c & Hbody & ->).
  apply alive_bind in H as (scr1 & s2 & H1 & Ha1 & H);
    [|done|intros; apply keeps_bind; [apply _|apply kr_addSRC; apply _|intros; apply kr_out_num; apply _]].
  eapply addInt_inv in H1 as (-> & Hl & Hrep1); [|done|done|done].
  pose proof (s32_range out).
  eapply rec_finish in H as (-> & Hcore & Hlg); [|done..| | |by left|done|done].
  - exists out. rewrite Hcore. split; [done|]. split; [done|]. exact Hlg.
  - rewrite zlen_app. change (zlen [AInt (s32 out)]) with 1. lia.
  - apply Forall_app_2; [done|]. by apply Forall_singleton.
Qed.

(** What recording one call establishes. *)
Definition recorded (c : call) s s' (rs : list srec) (v : Z) : Prop :=
  exists ins outs v0 c1,
    fetch_ins c (k_core s) = Ok (Some ins) (k_core s) /\
    orig_call c (k_core s) = Ok v0 (k_core s') /\ v = s32 v0 /\
    logged s s' rs (call_num c, ins ++ outs) /\
    apply_outs c outs (k_core s) = Ok v c1 /\ same_user c1 (k_core s').

#[local] Hint Resolve kr_addInt kr_addUInt kr_addStr kr_addRaw kr_addStat kr_addSRC kr_out_num
  kr_myargint kr_myargstr kr_kcore kr_compareSCRS kr_RecRepErr : keeps.
#[local] Hint Extern 0 (RRFrame _) => typeclasses eauto : keeps.

(** No call does anything else to the recorder. *)
Lemma kr_run_call R `{!RRFrame R} c : Keeps R (run_call c).
Proof.
  destruct c; cbn [run_call];
    unfold sys_getpid, sys_uptime, sys_close, sys_open, sys_read, sys_fstat, sys_link, sys_unlink,
      sys_mkdir, sys_mknod, sys_chdir, sys_path1, isReplaying, isRecording, out_val; keeps.
Qed.

(** Peel the first step off the recording branch [H]. *)
Ltac rec_bind H :=
  let Hm := fresh "Hm" in let Ha := fresh "Hal" in
  apply alive_bind in H as (? & ? & Hm & Ha & H); [|done|keeps].

Ltac rec_int H :=
  rec_bind H;
  match goal with Hm : myargint _ _ = Ok ?x _ |- _ =>
    destruct x; apply myargint_inv in Hm as (-> & -> & ?); [|done] end; cbv beta iota in H;
  rec_bind H;
  match goal with Hm : addInt _ _ _ _ = Ok _ _ |- _ =>
    eapply addInt_inv in Hm as (-> & ? & ?); [|done|eassumption|done] end.

Ltac rec_str H :=
  rec_bind H;
  match goal with Hm : myargstr _ _ = Ok _ _ |- _ =>
    apply myargstr_inv in Hm as (-> & ?); [|done] end;
  rec_bind H;
  match goal with Hm : addStr _ _ _ _ = Ok _ _ |- _ =>
    eapply addStr_inv in Hm as (-> & ? & ? & ?); [|done|eassumption|done] end.

Ltac rec_start H Hrec num :=
  rewrite (bind_run _ _ _ _ _ (isReplaying_no _ (proj1 (proj2 Hrec)))) in H;
  rewrite (bind_run _ _ _ _ _ (isRecording_yes _ Hrec)) in H; cbv iota in H;
  pose proof (createSCR_rep junk Hjunk num ltac:(done)).

Ltac fetch :=
  cbn [fetch_ins];
  repeat match goal with H : _ = Ok (Some _) _ |- _ => erewrite (bind_or_run _ _ _ _ _ _ H) end;
  reflexivity.

(** Calls whose only output is their status. *)
Lemma recorded_status c s s' rs ins out :
  fetch_ins c (k_core s) = Ok (Some ins) (k_core s) ->
  orig_call c (k_core s) = Ok out (k_core s') ->
  logged s s' rs (call_num c, ins ++ [AInt (s32 out)]) ->
  Keeps same_user (orig_call c) -> (forall v, apply_outs c [AInt v] = ret v) ->
  recorded c s s' rs (s32 out).
Proof.
  intros Hf Ho Hl Hk Ha. exists ins, [AInt (s32 out)], out, (k_core s).
  split_and!; try done; [by rewrite Ha|by eapply Hk].
Qed.

Ltac rec_status H lem ku :=
  eapply rec_tail in H as (out & Hbody & -> & Hlg); [|done..| |done|done];
  [ eapply recorded_status;
      [fetch|rewrite lem in Hbody; exact Hbody|exact Hlg|apply ku|done]
  | repeat apply Forall_cons_2; try apply Forall_nil_2; try done; apply s32_range ].

Lemma record_close s rs v s' :
  recording s -> logging s rs -> sys_close end_ junk s = Ok v s' -> alive s' ->
  recorded CClose s s' rs v.
Proof.
  intros Hrec Hlog H Ha. unfold sys_close in H. rec_start H Hrec SYS_close.
  rec_int H. rec_status H close_rec_orig (ku_close_orig end_).
Qed.

Lemma record_path1 c rec orig s rs v s' :
  c = CUnlink \/ c = CMkdir \/ c = CChdir ->
  orig_call c = orig -> (forall c0, rec c0 = orig c0) -> Keeps same_user orig ->
  recording s -> logging s rs -> sys_path1 junk (call_num c) rec orig s = Ok v s' -> alive s' ->
  recorded c s s' rs v.
Proof.
  intros Hc Ho He Hk Hrec Hlog H Ha. unfold sys_path1 in H. subst orig.
  destruct Hc as [->|[->| ->]]; cbn [call_num] in *;
    [rec_start H Hrec SYS_unlink|rec_start H Hrec SYS_mkdir|rec_start H Hrec SYS_mkdir];
    rec_str H; rec_status H He Hk.
Qed.

Lemma record_link s rs v s' :
  recording s -> logging s rs -> sys_link junk s = Ok v s' -> alive s' ->
  recorded CLink s s' rs v.
Proof.
  intros Hrec Hlog H Ha. unfold sys_link in H. rec_start H Hrec SYS_link.
  rec_str H. rec_str H. rec_status H link_rec_orig (ku_link_orig (B := B)).
Qed.

Lemma record_open s rs v s' :
  recording s -> logging s rs -> sys_open end_ junk s = Ok v s' -> alive s' ->
  recorded COpen s s' rs v.
Proof.
  intros Hrec Hlog H Ha. unfold sys_open in H. rec_start H Hrec SYS_open.
  rec_str H. rec_int H. rec_status H open_rec_orig (ku_open_orig end_).
Qed.

Lemma record_mknod s rs v s' :
  recording s -> logging s rs -> sys_mknod junk s = Ok v s' -> alive s' ->
  recorded CMknod s s' rs v.
Proof.
  intros Hrec Hlog H Ha. unfold sys_mknod in H. rec_start H Hrec SYS_mknod.
  rec_str H. rec_int H. rec_int H. rec_status H mknod_rec_orig (ku_mknod_orig (B := B)).
Qed.

Lemma record_getpid s rs v s' :
  recording s -> logging s rs -> sys_getpid junk s = Ok v s' -> alive s' ->
  recorded CGetpid s s' rs v.
Proof.
  intros Hrec Hlog H Ha. unfold sys_getpid in H. rec_start H Hrec SYS_getpid.
  rec_bind H. apply zoom_Ok_inv in Hm as (t & Hm & ->). unfold myproc in Hm. minv Hm.
  rec_bind H. eapply addInt_inv in Hm as (-> & ? & ?); [|done|done|done].
  pose proof (s32_range (p_pid (c_proc (k_core s)))).
  eapply (rec_finish _ _ _ []) in H as (-> & Hcore & Hlg); [|done..| | |by left|done|done].
  - eapply recorded_status; [done| |exact Hlg| |done].
    + by rewrite Hcore.
    + apply keeps_bind; [apply _|apply ku_myproc|intros; apply keeps_ret; apply _].
  - done.
  - by apply Forall_singleton.
Qed.

Lemma record_uptime s rs v s' :
  recording s -> logging s rs -> sys_uptime junk s = Ok v s' -> alive s' ->
  recorded CUptime s s' rs v.
Proof.
  intros Hrec Hlog H Ha. unfold sys_uptime in H. rec_start H Hrec SYS_uptime.
  rec_bind H. apply zoom_Ok_inv in Hm as (t & Hm & ->). minv Hm.
  rec_bind H. eapply addUInt_inv in Hm as (-> & ? & ?); [|done|done|done].
  pose proof (u32_range (c_ticks (k_core s))).
  eapply (rec_finish _ _ _ []) in H as (-> & Hcore & Hlg); [|done..| | |right; eauto|done|done].
  - eexists [], [_], _, (k_core s). split; [done|]. split; [by rewrite Hcore|].
    split; [|split; [exact Hlg|]].
    + rewrite s32_u32. symmetry. apply s32_id, s32_range.
    + split; [done|]. by rewrite Hcore.
  - done.
  - by apply Forall_singleton.
Qed.

(** ** read and fstat store their outputs in user memory *)

Lemma argfd_inv n (c : core B) o c' : argfd n c = Ok o c' -> c' = c.
Proof.
  intros H. unfold argfd, myproc in H. minv H. apply uo_argint in Hm as [-> _].
  by destruct a; minvs.
Qed.

Lemma read_rec_orig c r ov c' : read_rec c = Ok (r, ov) c' -> read_orig c = Ok r c'.
Proof.
  intros H. enough (Heq : read_orig c = (let* (r, _) := read_rec in ret r) c).
  { by rewrite Heq, (bind_run _ _ _ _ _ H). }
  unfold read_rec, read_orig. mext. rewrite <- bind_ret_r. mext.
Qed.

Lemma fstat_rec_orig c r ov c' : fstat_rec c = Ok (r, ov) c' -> fstat_orig c = Ok r c'.
Proof.
  intros H. enough (Heq : fstat_orig c = (let* (r, _) := fstat_rec in ret r) c).
  { by rewrite Heq, (bind_run _ _ _ _ _ H). }
  unfold fstat_rec, fstat_orig. mext. rewrite <- bind_ret_r. mext.
Qed.

Lemma write_user_inv a bs (c : core B) u c' : write_user a bs c = Ok u c' ->
  0 <= a /\ a + zlen bs <= p_sz (c_proc c) /\
  c' = set_proc (set_p_mem (splice (Z.to_nat a) bs (p_mem (c_proc c))) (c_proc c)) c.
Proof. intros H. unfold write_user, upd_proc, myproc in H. minvs. destruct_bool_hyps. done. Qed.

Lemma read_user_inv a n (c : core B) bs c' : read_user a n c = Ok bs c' ->
  0 <= a /\ 0 <= n /\ a + n <= p_sz (c_proc c) /\ c' = c /\
  bs = slice (Z.to_nat a) (Z.to_nat n) (p_mem (c_proc c)).
Proof. intros H. unfold read_user, myproc in H. minvs. destruct_bool_hyps. done. Qed.

Lemma write_user_run a bs (c : core B) : 0 <= a -> a + zlen bs <= p_sz (c_proc c) ->
  write_user a bs c =
  Ok tt (set_proc (set_p_mem (splice (Z.to_nat a) bs (p_mem (c_proc c))) (c_proc c)) c).
Proof.
  intros H1 H2. unfold write_user, upd_proc, myproc, gets, modify, bind.
  by rewrite (proj2 (Z.leb_le _ _)), (proj2 (Z.leb_le _ _)) by done.
Qed.

(** What the recording branch of read has done when [p] was set. *)
Lemma read_rec_inv c r p c' : offs_ok c -> read_rec c = Ok (r, Some p) c' ->
  exists n bs c1, Syscall.argint 2 c = Ok (Some n) c /\ Syscall.argptr 1 n c = Ok (Some p) c /\
    (n < 2 ^ 31 -> zlen bs <= n) /\ same_user c c1 /\ write_user p bs c1 = Ok tt c'.
Proof.
  intros Hoffs H. unfold read_rec in H. minv H. apply argfd_inv in Hm as ->.
  destruct a as [[fd f]|]; [|minvs; done]. minv Hk. pose proof Hm as Hi.
  apply uo_argint in Hm as [-> _].
  destruct a as [n|]; [|minvs; done]. minv Hk0. pose proof Hm as Hp.
  apply uo_argptr in Hm as [-> _].
  destruct a as [q|]; [|minvs; done]. unfold fileread_user in Hk.
  rewrite bind_assoc in Hk. minv Hk. destruct a as [r0 bs]. minvs.
  match goal with Hf : File.fileread f n _ = Ok _ ?c1, Hw : write_user _ _ _ = Ok ?u _ |- _ =>
    exists n, bs, c1; destruct u; rename Hf into Hfile; rename Hw into Hwrite end.
  split; [done|]. split; [done|]. split.
  - intros Hn. eapply fileread_len; [done| |done].
    unfold Syscall.argptr, myproc in Hp. minv Hp. destruct a; [|done]. minvs; [done|].
    destruct_bool_hyps. lia.
  - split; [by eapply ku_fileread|done].
Qed.

(** Reading back [n] bytes at [p] after fewer were stored there, and storing
    those [n] bytes in the original memory, gives the same memory. *)
Lemma read_back p n bs fbs (c c1 c' : core B) u :
  same_user c c1 -> write_user p fbs c1 = Ok u c' -> zlen fbs <= n ->
  read_user p n c' = Ok bs c' ->
  exists c2, write_user p bs c = Ok tt c2 /\ same_user c2 c'.
Proof.
  intros (Hmem & Hesp & Hpid) Hw Hlen Hr.
  apply write_user_inv in Hw as (Hp & Hsz & ->). apply read_user_inv in Hr as (_ & Hn & Hsz' & _ & ->).
  unfold p_sz, zlen in *. simpl in *. rewrite Hmem in *. rewrite length_splice in Hsz' by lia.
  eexists. split.
  - apply write_user_run; [done|]. unfold p_sz, zlen.
    rewrite length_slice, length_splice by lia. lia.
  - unfold same_user. simpl. rewrite splice_reread by lia. done.
Qed.

Lemma record_read s rs v s' :
  offs_ok (k_core s) ->
  recording s -> logging s rs -> sys_read junk s = Ok v s' -> alive s' ->
  recorded CRead s s' rs v.
Proof.
  intros Hoffs Hrec Hlog H Ha. unfold sys_read in H. rec_start H Hrec SYS_read.
  rec_int H. rec_int H.
  rec_bind H. destruct x1 as [r pv]. apply zoom_Ok_inv in Hm as (c' & Hbody & ->).
  rec_bind H. eapply addInt_inv in Hm as (-> & ? & ?); [|done|eassumption|done].
  rec_bind H. destruct pv as [p|]; [|done]. injection Hm as <- <-.
  rec_bind H. injection Hm as <- <-.
  rec_bind H. eapply addRaw_inv in Hm as (-> & ? & bs & Hru & Hbs & Hmax & Hrep4);
    [|done|eassumption|done].
  match goal with Hi : Syscall.argint 2 _ = Ok (Some ?k) _ |- _ => rename Hi into Hargn; set (n := k) in * end.
  apply read_rec_orig in Hbody as Horig.
  apply read_rec_inv in Hbody as (n' & fbs & c1 & Hn' & Hp & Hlen & Hsu & Hw); [|done].
  rewrite Hargn in Hn'. injection Hn' as <-.
  destruct (read_back p n bs fbs (k_core s) c1 c' tt) as (c2 & Hw2 & Hsu2);
    [done|done|apply Hlen; unfold MAX_RAW_SIZE in *; lia|done|].
  pose proof (s32_range r).
  eapply (rec_finish _ _ _ [_; _] _ [_]) in H as (-> & Hcore & Hlg);
    [|exact Hrep4|done|done| | |by left|done|done].
  - eexists _, [_; _], r, c2. split; [fetch|]. split; [by rewrite Hcore|]. split; [done|].
    split; [exact Hlg|]. split; [|by rewrite Hcore].
    cbn [apply_outs]. rewrite (bind_or_run _ _ _ _ _ _ Hargn), (bind_or_run _ _ _ _ _ _ Hp).
    rewrite Hbs, Z.eqb_refl. by rewrite (bind_run _ _ _ _ _ Hw2).
  - done.
  - simpl. repeat apply Forall_cons_2; try apply Forall_nil_2; simpl; try apply s32_range. lia.
Qed.

Lemma fstat_rec_inv c r a c' : fstat_rec c = Ok (r, Some a) c' ->
  exists c1, Syscall.argptr 1 sizeof_stat c = Ok (Some a) c /\ same_user c c1 /\
    (c' = c1 \/ exists st, write_stat a st c1 = Ok tt c').
Proof.
  intros H. unfold fstat_rec in H. minv H. apply argfd_inv in Hm as ->.
  destruct a0 as [[fd f]|]; [|minvs; done]. minv Hk. pose proof Hm as Hp.
  apply uo_argptr in Hm as [-> _].
  destruct a0 as [q|]; [|minvs; done]. unfold filestat_user in Hk0.
  rewrite bind_assoc in Hk0. minv Hk0.
  match goal with H : File.filestat _ _ = Ok _ ?c1 |- _ => exists c1 end.
  destruct a0 as [st|]; minvs; (split; [done|]); (split; [by eapply ku_filestat|]).
  - right. exists st. by match goal with H : write_stat _ _ _ = Ok ?u _ |- _ => destruct u end.
  - by left.
Qed.

Lemma write_stat_run a st (c : core B) :
  0 <= a -> a + 20 <= p_sz (c_proc c) ->
  let old := slice (Z.to_nat a) 20 (p_mem (c_proc c)) in
  write_stat a st c = Ok tt (set_proc (set_p_mem
    (splice (Z.to_nat a) (put_st st old) (p_mem (c_proc c))) (c_proc c)) c).
Proof.
  intros Ha Hsz old. unfold write_stat. unfold p_sz, zlen in Hsz.
  rewrite (bind_run _ _ _ old c).
  2:{ unfold read_user, bind, myproc, gets. unfold p_sz, zlen, sizeof_stat.
      by rewrite !(proj2 (Z.leb_le _ _)) by lia. }
  apply write_user_run; [done|]. unfold zlen, p_sz, zlen.
  rewrite (proj1 (put_st_slices st old ltac:(unfold old; len))). unfold old. len.
Qed.

Lemma write_stat_inv a st (c c' : core B) u : write_stat a st c = Ok u c' ->
  0 <= a /\ a + 20 <= p_sz (c_proc c).
Proof.
  intros H. unfold write_stat in H. minv H. apply read_user_inv in Hm as (? & ? & ? & _).
  by unfold sizeof_stat in *.
Qed.

(** The record of fstat restores the memory the call left. *)
Lemma stat_back a bs (c c1 c' : core B) :
  bytes (p_mem (c_proc c)) -> same_user c c1 ->
  (c' = c1 \/ exists st, write_stat a st c1 = Ok tt c') ->
  read_user a sizeof_stat c' = Ok bs c' ->
  exists c2, write_stat a (st_of bs) c = Ok tt c2 /\ same_user c2 c' /\ stat_ok (st_of bs).
Proof.
  intros Hb (Hmem & Hesp & Hpid) Hc Hr. apply read_user_inv in Hr as (Ha & _ & Hsz & _ & Hbs).
  change (Z.to_nat sizeof_stat) with 20%nat in Hbs. unfold sizeof_stat in Hsz.
  set (m := p_mem (c_proc c)) in *. set (old := slice (Z.to_nat a) 20 m).
  assert (Hbo : bytes old) by (by apply bytes_slice).
  destruct Hc as [->|(st & Hw)].
  - unfold p_sz, zlen in Hsz. rewrite Hmem in *. fold m in Hsz.
    assert (Hbs' : bs = old) by done. subst bs.
    assert (Hlo : length old = 20%nat) by (unfold old; len).
    eexists. split; [apply write_stat_run; unfold p_sz, zlen; fold m; lia|].
    split; [|by apply st_of_ok].
    unfold same_user. simpl. fold m. fold old. rewrite put_st_st_of_id by done.
    unfold old. rewrite splice_slice_id by lia. rewrite Hmem. done.
  - pose proof (write_stat_inv _ _ _ _ _ Hw) as [_ Hsz1].
    rewrite write_stat_run in Hw by done. injection Hw as <-. simpl in *.
    unfold p_sz, zlen in Hsz1. rewrite Hmem in *. fold old in Hbs |- *.
    assert (Hlo : length old = 20%nat) by (unfold old; len).
    pose proof (put_st_slices st old ltac:(lia)) as [Hlen _].
    assert (Hbs' : bs = put_st st old) by (rewrite Hbs; apply slice_splice; lia). subst bs.
    rewrite Hbs'. eexists. split; [apply write_stat_run; unfold p_sz, zlen; fold m; lia|].
    split.
    + unfold same_user. simpl. fold m. fold old. by rewrite put_st_st_of_put.
    + apply st_of_ok. unfold put_st. repeat apply bytes_splice; auto using bytes_le_bytes.
Qed.

Lemma record_fstat s rs v s' :
  bytes (p_mem (c_proc (k_core s))) ->
  recording s -> logging s rs -> sys_fstat junk s = Ok v s' -> alive s' ->
  recorded CFstat s s' rs v.
Proof.
  intros Hby Hrec Hlog H Ha. unfold sys_fstat in H. rec_start H Hrec SYS_fstat.
  rec_int H. rec_bind H. destruct x0 as [r av]. apply zoom_Ok_inv in Hm as (c' & Hbody & ->).
  rec_bind H. eapply addInt_inv in Hm as (-> & ? & ?); [|done|eassumption|done].
  rec_bind H. destruct av as [a|]; [|done]. injection Hm as <- <-.
  rec_bind H. apply kcore_uo in Hm as [-> Hru]; [|apply uo_read_user].
  rec_bind H. eapply addStat_inv in Hm as (-> & ? & Hrep3); [|done|eassumption|done].
  apply fstat_rec_orig in Hbody as Horig.
  apply fstat_rec_inv in Hbody as (c1 & Hp & Hsu & Hc).
  eapply stat_back in Hc as (c2 & Hw & Hsu2 & Hst); [|done|done|exact Hru].
  pose proof (s32_range r).
  eapply (rec_finish _ _ _ [_] _ [_]) in H as (-> & Hcore & Hlg);
    [|exact Hrep3|done|done| | |by left|done|done].
  - eexists _, [_; _], r, c2. split; [fetch|]. split; [by rewrite Hcore|]. split; [done|].
    split; [exact Hlg|]. split; [|by rewrite Hcore].
    cbn [apply_outs]. rewrite (bind_or_run _ _ _ _ _ _ Hp). by rewrite (bind_run _ _ _ _ _ Hw).
  - done.
  - simpl. repeat apply Forall_cons_2; try apply Forall_nil_2; simpl; try apply s32_range. done.
Qed.

(** Every recordable call. *)
Lemma record_step c s rs v s' :
  offs_ok (k_core s) -> bytes (p_mem (c_proc (k_core s))) ->
  recording s -> logging s rs -> run_call c s = Ok v s' -> alive s' ->
  recorded c s s' rs v.
Proof.
  intros Ho Hb Hrec Hlog H Ha. destruct c; cbn [run_call] in H;
    eauto using record_getpid, record_uptime, record_close, record_open, record_read,
      record_fstat, record_link, record_mknod.
  - eapply (record_path1 CUnlink); [by left|done|apply unlink_rec_orig|apply ku_unlink_orig|done..].
  - eapply (record_path1 CMkdir); [by right; left|done|apply mkdir_rec_orig|apply ku_mkdir_orig|done..].
  - eapply (record_path1 CChdir); [by right; right|done|apply chdir_rec_orig|apply ku_chdir_orig|done..].
Qed.

(** ** Replaying one call *)

(** A process whose session is being replayed from a log holding [rs], with
    [k] records used up. *)
Definition replaying s (rs : list srec) (k : nat) : Prop :=
  replay_syscalls (k_rr s) = 1 /\ rr_pid (k_rr s) = p_pid (c_proc (k_core s)) /\
  log_rep (k_rr s) rs /\ scrs_idx (k_rr s) = Z.of_nat k.

(** The state after record [k] has been used and the memory has become that of
    [c1]. *)
Definition replay_next s (k : nat) (c1 : core B) : kstate B :=
  set_core c1 (set_rr (set_idx (Z.of_nat (S k)) (k_rr s)) s).

Lemma isReplaying_yes s rs k : replaying s rs k -> isReplaying s = Ok true s.
Proof. intros (H1 & H2 & _). unfold isReplaying, gets. by rewrite H1, H2, !Z.eqb_refl. Qed.

(** The recorded inputs are what [compareSCRS] compares. *)
Lemma ins_comparable (ins outs : list aval) :
  Forall aval_ok (ins ++ outs) -> Forall (fun a => match a with AInt _ | ABytes _ => True | _ => False end) ins ->
  Forall comparable ins.
Proof.
  intros Hok Hs. apply Forall_app in Hok as [Hok _].
  pose proof (proj2 (Forall_and _ _) (conj Hok Hs)) as Hb.
  eapply Forall_impl; [exact Hb|]. by intros [] [? ?].
Qed.

(** The comparison of a replayed call with its record, and the outputs. *)
Lemma replay_compare s rs k num ins outs scr :
  replaying s rs k -> rs !! k = Some (num, ins ++ outs) -> scr_rep scr (num, ins) ->
  get1stOutputPos num = zlen ins ->
  Forall (fun a => match a with AInt _ | ABytes _ => True | _ => False end) ins ->
  exists r, compareSCRS junk scr s = Ok r (replay_next s k (k_core s)) /\
    scr_rep r (num, ins ++ outs) /\ Forall aval_ok (ins ++ outs).
Proof.
  intros (_ & _ & Hlog & Hidx) Hk Hrep Hpos Hs. pose proof Hlog as (_ & _ & Hall & _).
  pose proof (Forall_lookup_1 _ _ _ _ Hall Hk) as (_ & _ & Hok). simpl in Hok.
  destruct (compareSCRS_run junk scr s rs k num ins outs) as (r & Hr & Hrr); [done..| |].
  - by eapply ins_comparable.
  - exists r. split; [|done]. rewrite Hr. by destruct s.
Qed.

(** The end of the calls that return the status of the record. *)
Lemma replay_tail s rs k num ins v scr :
  replaying s rs k -> rs !! k = Some (num, ins ++ [AInt v]) -> scr_rep scr (num, ins) ->
  get1stOutputPos num = zlen ins ->
  Forall (fun a => match a with AInt _ | ABytes _ => True | _ => False end) ins ->
  (recorded <- compareSCRS junk scr ;; out_num recorded) s = Ok v (replay_next s k (k_core s)).
Proof.
  intros Hr Hk Hrep Hpos Hs.
  destruct (replay_compare s rs k num ins [AInt v] scr) as (r & Hc & Hrr & Hok); [done..|].
  rewrite (bind_run _ _ _ _ _ Hc).
  eapply out_num_run; [exact Hrr|exact Hpos|by apply list_lookup_middle|left; split; [done|]].
  apply Forall_app in Hok as [_ Hok]. by apply Forall_cons in Hok as [Hv _].
Qed.

Lemma bind_or_Some_inv {A A'} (m : C (option A)) (f : A -> C (option A')) c y c' :
  bind_or m (ret None) f c = Ok (Some y) c' -> exists x c1, m c = Ok (Some x) c1 /\ f x c1 = Ok (Some y) c'.
Proof. intros H. unfold bind_or in H. minv H. destruct a; [eauto|by minv Hk]. Qed.

Ltac fetch_inv H :=
  cbn [fetch_ins] in H;
  repeat match type of H with
  | bind_or ?m _ _ _ = _ =>
      let Hx := fresh "Hx" in
      apply bind_or_Some_inv in H as (? & ? & Hx & H);
      let He := fresh in
      first [ pose proof (proj1 (uo_argint _ _ _ _ Hx)) as He
            | pose proof (proj1 (uo_argstr _ _ _ _ Hx)) as He ]; subst
  end; injection H as <-.

Ltac rep_start Hr num :=
  rewrite (bind_run _ _ _ _ _ (isReplaying_yes _ _ _ Hr)); cbv beta iota zeta;
  pose proof (createSCR_rep junk Hjunk num ltac:(done)).

Ltac rep_int :=
  erewrite bind_run by (apply myargint_run; eassumption); cbv beta iota;
  match goal with
  | Hs : scr_rep ?scr (_, ?avs) |- bind (addInt junk ?scr ?v) _ ?s0 = _ =>
      let Hrun := fresh in
      edestruct (addInt_run junk Hjunk scr v s0) as (? & Hrun & ?);
        [exact Hs|unfold zlen, MAX_ARGC; simpl length; lia|];
      rewrite (bind_run _ _ _ _ _ Hrun); clear Hrun Hs
  end.

Ltac rep_str :=
  erewrite bind_run by (apply myargstr_run; eassumption); cbv beta iota;
  match goal with
  | Hs : scr_rep ?scr (_, ?avs) |- bind (addStr junk ?scr ?v) _ ?s0 = _ =>
      let Hrun := fresh in
      edestruct (addStr_run junk Hjunk scr v s0) as (? & Hrun & ?);
        [exact Hs|unfold zlen, MAX_ARGC; simpl length; lia|done|];
      rewrite (bind_run _ _ _ _ _ Hrun); clear Hrun Hs
  end.

(** What is needed of a call's inputs and of the record that replays it. *)
Definition replayable (c : call) s rs k ins outs v (c1 : core B) : Prop :=
  replaying s rs k /\ rs !! k = Some (call_num c, ins ++ outs) /\
  fetch_ins c (k_core s) = Ok (Some ins) (k_core s) /\
  apply_outs c outs (k_core s) = Ok v c1.

Lemma replayable_ok c s rs k ins outs v c1 :
  replayable c s rs k ins outs v c1 -> Forall aval_ok ins /\ Forall aval_ok outs.
Proof.
  intros ((_ & _ & (_ & _ & Hall & _) & _) & Hk & _).
  pose proof (Forall_lookup_1 _ _ _ _ Hall Hk) as (_ & _ & Hok). by apply Forall_app in Hok.
Qed.

(** Calls whose only output is their status leave the process as it was. *)
Lemma apply_status c outs v (c0 c1 : core B) :
  (forall v, apply_outs c [AInt v] = ret v) ->
  (forall l, (forall v, l <> [AInt v]) -> apply_outs c l = undef) ->
  apply_outs c outs c0 = Ok v c1 -> outs = [AInt v] /\ c1 = c0.
Proof.
  intros H1 H2 H.
  assert (Hd : (exists n, outs = [AInt n]) \/ forall n, outs <> [AInt n]).
  { destruct outs as [|[n|n|bs|st] [|]]; try (by right); left; eauto. }
  destruct Hd as [[n ->]|Hd].
  - rewrite H1 in H. by injection H as -> ->.
  - by rewrite H2 in H.
Qed.

Ltac rep_intro H Hok :=
  let Hr := fresh "Hr" in let Hk := fresh "Hk" in let Hf := fresh "Hf" in let Ha := fresh "Ha" in
  pose proof (replayable_ok _ _ _ _ _ _ _ _ H) as [Hok _]; destruct H as (Hr & Hk & Hf & Ha).

Ltac rep_status Ha :=
  apply apply_status in Ha as [-> ->];
    [|done|let Hne := fresh in intros [|[] []] Hne; try done; by destruct (Hne _ eq_refl)].

Ltac rep_oks :=
  repeat match goal with H : Forall aval_ok (_ :: _) |- _ => apply Forall_cons in H as [? H] end.

Lemma replay_close s rs k ins outs v c1 :
  replayable CClose s rs k ins outs v c1 -> sys_close end_ junk s = Ok v (replay_next s k c1).
Proof.
  intros H. rep_intro H Hok. rep_status Ha. fetch_inv Hf. rep_oks.
  unfold sys_close. rep_start Hr SYS_close. rep_int.
  eapply replay_tail; [done|exact Hk|done|done|by repeat constructor].
Qed.

Lemma replay_path1 c rec orig s rs k ins outs v c1 :
  c = CUnlink \/ c = CMkdir \/ c = CChdir ->
  replayable c s rs k ins outs v c1 ->
  sys_path1 junk (call_num c) rec orig s = Ok v (replay_next s k c1).
Proof.
  intros Hc H. rep_intro H Hok. unfold sys_path1.
  destruct Hc as [->|[->| ->]]; cbn [call_num] in *;
    [rep_start Hr SYS_unlink|rep_start Hr SYS_mkdir|rep_start Hr SYS_mkdir];
    rep_status Ha; fetch_inv Hf; rep_oks; rep_str;
    (eapply replay_tail; [done|exact Hk|done|done|by repeat constructor]).
Qed.

Lemma replay_link s rs k ins outs v c1 :
  replayable CLink s rs k ins outs v c1 -> sys_link junk s = Ok v (replay_next s k c1).
Proof.
  intros H. rep_intro H Hok. rep_status Ha. fetch_inv Hf. rep_oks.
  unfold sys_link. rep_start Hr SYS_link. rep_str. rep_str.
  eapply replay_tail; [done|exact Hk|done|done|by repeat constructor].
Qed.

Lemma replay_open s rs k ins outs v c1 :
  replayable COpen s rs k ins outs v c1 -> sys_open end_ junk s = Ok v (replay_next s k c1).
Proof.
  intros H. rep_intro H Hok. rep_status Ha. fetch_inv Hf. rep_oks.
  unfold sys_open. rep_start Hr SYS_open. rep_str. rep_int.
  eapply replay_tail; [done|exact Hk|done|done|by repeat constructor].
Qed.

Lemma replay_mknod s rs k ins outs v c1 :
  replayable CMknod s rs k ins outs v c1 -> sys_mknod junk s = Ok v (replay_next s k c1).
Proof.
  intros H. rep_intro H Hok. rep_status Ha. fetch_inv Hf. rep_oks.
  unfold sys_mknod. rep_start Hr SYS_mknod. rep_str. rep_int. rep_int.
  eapply replay_tail; [done|exact Hk|done|done|by repeat constructor].
Qed.

Lemma replay_getpid s rs k ins outs v c1 :
  replayable CGetpid s rs k ins outs v c1 -> sys_getpid junk s = Ok v (replay_next s k c1).
Proof.
  intros H. rep_intro H Hok. rep_status Ha. fetch_inv Hf.
  unfold sys_getpid. rep_start Hr SYS_getpid.
  eapply (replay_tail _ _ _ _ []); [done|exact Hk|done|done|done].
Qed.

Lemma replay_uptime s rs k ins outs v c1 :
  replayable CUptime s rs k ins outs v c1 -> sys_uptime junk s = Ok v (replay_next s k c1).
Proof.
  intros H. rep_intro H Hok. fetch_inv Hf.
  destruct outs as [|[|u| |] [|]]; try done. injection Ha as <- <-.
  unfold sys_uptime. rep_start Hr SYS_uptime.
  destruct (replay_compare s rs k SYS_uptime [] [AUInt u] (createSCR junk SYS_uptime))
    as (r & Hc & Hrr & _); [done..|].
  rewrite (bind_run _ _ _ _ _ Hc).
  eapply (out_num_run _ _ _ _ 0); [exact Hrr|done|done|right; eauto].
Qed.

Lemma out_val_run scr s num avs off (i : nat) x :
  scr_rep scr (num, avs) -> get1stOutputPos num + off = Z.of_nat i -> avs !! i = Some x ->
  exists v, out_val scr off s = Ok v s /\ val_rep v x.
Proof.
  intros (Hsys & _ & _ & Hargs & _) Hi Hx. simpl in *.
  destruct (Hargs i x Hx) as (a & Ha & _ & Hv). exists (a_val a). split; [|done].
  unfold out_val. rewrite Hsys, Hi.
  by rewrite (bind_run _ _ _ a s) by (apply aget_run; by rewrite zget_nat).
Qed.

Lemma kcore_run {A} (m : C A) s a c' : m (k_core s) = Ok a c' -> kcore m s = Ok a (set_core c' s).
Proof. intros H. exact (zoom_run k_core set_core m s a c' H). Qed.

Lemma replay_next_core s k c1 : set_core c1 (replay_next s k (k_core s)) = replay_next s k c1.
Proof. done. Qed.

Lemma replay_read s rs k ins outs v c1 :
  replayable CRead s rs k ins outs v c1 -> sys_read junk s = Ok v (replay_next s k c1).
Proof.
  intros H. rep_intro H Hok. fetch_inv Hf. rename x0 into n.
  destruct outs as [|[r| | |] [|[| |bs|] [|]]]; try done. cbn [apply_outs] in Ha.
  rewrite (bind_or_run _ _ _ _ _ _ Hx0) in Ha. unfold bind_or in Ha. minv Ha.
  pose proof Hm as Hp. apply uo_argptr in Hm as [-> _]. destruct a as [p|]; [|done].
  minv Hk0; [|done]. destruct_bool_hyps. rewrite <- Heqb in *. minv Hk0. destruct a. minv Hk1.
  unfold sys_read. rep_start Hr SYS_read. rep_int. rep_int.
  match goal with Hs : scr_rep ?scr _ |- _ =>
    destruct (replay_compare s rs k _ _ _ scr Hr Hk) as (rc & Hc & Hrr & Hoks);
      [exact Hs|done|by repeat constructor|] end.
  rewrite (bind_run _ _ _ _ _ Hc). set (s1 := replay_next s k (k_core s)).
  rewrite (bind_run _ _ _ (zlen bs) s1) by done.
  rewrite (bind_run _ _ _ _ s1 (kcore_id _ s1 _ Hp)). cbv iota.
  destruct (out_val_run rc s1 SYS_read _ 1 3 _ Hrr eq_refl eq_refl) as (v1 & Hv1 & Hvr1).
  rewrite (bind_run _ _ _ _ _ Hv1).
  destruct (out_val_run rc s1 SYS_read _ (-1) 1 _ Hrr eq_refl eq_refl) as (v2 & Hv2 & Hvr2).
  rewrite (bind_run _ _ _ _ _ Hv2). cbv zeta.
  apply Forall_app in Hoks as [Hi Ho]. rep_oks.
  assert (Hb : zlen bs <= MAX_RAW_SIZE) by done. unfold MAX_RAW_SIZE in Hb.
  pose proof (zlen_nonneg bs).
  assert (Hv : val_num v2 = zlen bs).
  { rewrite (val_rep_int _ _ Hvr2) by done. apply s32_id. lia. }
  rewrite Hv, (proj2 (Z.leb_le _ _)), (proj2 (Z.leb_le _ _)) by (unfold MAX_RAW_SIZE; lia).
  cbn [andb]. destruct (val_rep_bytes _ _ Hvr1) as [_ Hdata]; [done|].
  unfold zlen at 1. rewrite Nat2Z.id, Hdata.
  rewrite (bind_run _ _ _ _ _ (kcore_run _ s1 _ _ Hm)). unfold s1. rewrite replay_next_core.
  eapply (out_num_run _ _ _ _ 2); [exact Hrr|done|done|by left].
Qed.

Lemma replay_fstat s rs k ins outs v c1 :
  replayable CFstat s rs k ins outs v c1 -> sys_fstat junk s = Ok v (replay_next s k c1).
Proof.
  intros H. rep_intro H Hok. fetch_inv Hf.
  destruct outs as [|[r| | |] [|[| | |st] [|]]]; try done. cbn [apply_outs] in Ha.
  unfold bind_or in Ha. minv Ha.
  pose proof Hm as Hp. apply uo_argptr in Hm as [-> _]. destruct a as [p|]; [|done].
  minv Hk0. destruct a. minv Hk1.
  unfold sys_fstat. rep_start Hr SYS_fstat. rep_int.
  match goal with Hs : scr_rep ?scr _ |- _ =>
    destruct (replay_compare s rs k _ _ _ scr Hr Hk) as (rc & Hc & Hrr & Hoks);
      [exact Hs|done|by repeat constructor|] end.
  rewrite (bind_run _ _ _ _ _ Hc). set (s1 := replay_next s k (k_core s)).
  rewrite (bind_run _ _ _ _ s1 (kcore_id _ s1 _ Hp)). cbv iota.
  destruct (out_val_run rc s1 SYS_fstat _ 1 2 _ Hrr eq_refl eq_refl) as (v1 & Hv1 & Hvr1).
  rewrite (bind_run _ _ _ _ _ Hv1).
  apply Forall_app in Hoks as [Hi Ho]. rep_oks.
  rewrite (val_rep_stat _ _ Hvr1) by done.
  rewrite (bind_run _ _ _ _ _ (kcore_run _ s1 _ _ Hm)). unfold s1. rewrite replay_next_core.
  eapply (out_num_run _ _ _ _ 1); [exact Hrr|done|done|by left].
Qed.

(** Every recordable call. *)
Lemma replay_step c s rs k ins outs v c1 :
  replayable c s rs k ins outs v c1 -> run_call c s = Ok v (replay_next s k c1).
Proof.
  intros H. destruct c; cbn [run_call];
    eauto using replay_getpid, replay_uptime, replay_close, replay_open, replay_read,
      replay_fstat, replay_link, replay_mknod.
  - eapply (replay_path1 CUnlink); [by left|done].
  - eapply (replay_path1 CMkdir); [by right; left|done].
  - eapply (replay_path1 CChdir); [by right; right|done].
Qed.

End calls.
End RRCalls.
