(* ===== verification/Session.v ===== *)
(** * A whole session: what was recorded is what is replayed

    A user program is a function from what it has observed so far (the results
    of its system calls and its memory after each) to its next call, with the
    memory and stack pointer it has then.  Between two calls of the process the
    rest of the kernel may do anything: the recorded run and the replayed run
    each see arbitrary kernel states at their calls, related to nothing but the
    pid of the session. *)
From S2P Require Import Prelude Words Params CString Core Fs File Syscall RR RRSpec Sysfile.
From S2P Require Import Sysproc Frame RRCodec RRBuild RRCalls.

Module Session.
Import RR RRSpec Sysfile Sysproc Frame RRBuild RRCalls.

(** Results and memories observed, oldest first. *)
Definition history : Type := list (Z * list Z).

(** The next call, the user memory and the stack pointer; [None]: no more
    calls. *)
Definition user : Type := history -> option (call * list Z * Z).

(** User memory consists of bytes. *)
Definition user_ok (u : user) : Prop :=
  forall h c mem esp, u h = Some (c, mem, esp) -> bytes mem.

Section session.
Context {B : Type} {BL : BlockLayer B} (end_ : Z) (junk : list Z).
Implicit Types s t : kstate B.

(** The kernel state [env] with the process entering a call. *)
Definition enter (mem : list Z) (esp : Z) (env : core B) : core B :=
  let p := c_proc env in
  set_proc (mkProc (p_pid p) (p_killed p) (p_ofile p) (p_cwd p) mem esp) env.

Definition observe (v : Z) s : Z * list Z := (v, p_mem (c_proc (k_core s))).

(** One call of [u] after [h], the rest of the kernel being [env]. *)
Definition user_step (c : call) (mem : list Z) (esp : Z) (env : core B) : M (kstate B) Z :=
  fun s => run_call end_ junk c (set_core (enter mem esp env) s).

(** The recorded run. *)
Inductive rec_run (u : user) : history -> kstate B -> history -> kstate B -> Prop :=
| rec_run_stop h s : rec_run u h s h s
| rec_run_step h s c mem esp env v s1 h' s' :
    u h = Some (c, mem, esp) ->
    p_pid (c_proc env) = p_pid (c_proc (k_core s)) -> offs_ok env ->
    user_step c mem esp env s = Ok v s1 ->
    rec_run u (h ++ [observe v s1]) s1 h' s' ->
    rec_run u h s h' s'.

(** The replayed run for at most [n] calls, call [i] finding the rest of the
    kernel as [envs i]. *)
Fixpoint replay_run (u : user) (n : nat) (envs : nat -> core B) (h : history) : M (kstate B) history :=
  match n with
  | O => ret h
  | S n' =>
      match u h with
      | None => ret h
      | Some (c, mem, esp) =>
          v <- user_step c mem esp (envs 0%nat) ;;
          mem' <- gets (fun t => p_mem (c_proc (k_core t))) ;;
          replay_run u n' (fun i => envs (S i)) (h ++ [(v, mem')])
      end
  end.

Hypothesis Hjunk : junk_ok junk.

(** ** Outputs act the same way on every kernel state *)

Lemma uo_fetch_ins c : UserOnly (fetch_ins (B := B) c).
Proof.
  destruct c; cbn [fetch_ins]; unfold bind_or;
    repeat first [ apply uo_ret
                 | apply uo_bind; [first [apply uo_argint|apply uo_argstr]|intros [?|]] ].
Qed.

Lemma write_user_transfer a bs (c c' : core B) u c1 :
  same_mem c c' -> write_user a bs c = Ok u c1 ->
  exists c1', write_user a bs c' = Ok u c1' /\
    p_mem (c_proc c1') = p_mem (c_proc c1) /\ p_pid (c_proc c1') = p_pid (c_proc c').
Proof.
  intros [Hm He] H. apply write_user_inv in H as (H1 & H2 & ->). unfold p_sz in *.
  rewrite <- Hm in *. destruct u. eexists. split; [by apply write_user_run|]. done.
Qed.

Lemma apply_outs_transfer c outs (c0 c0' c1 : core B) v :
  same_mem c0 c0' -> apply_outs c outs c0 = Ok v c1 ->
  exists c1', apply_outs c outs c0' = Ok v c1' /\
    p_mem (c_proc c1') = p_mem (c_proc c1) /\ p_pid (c_proc c1') = p_pid (c_proc c0').
Proof.
  intros Hs H.
  destruct c, outs as [|[n|n|bs|st] [|[n2|n2|bs2|st2] [|]]]; try done; cbn [apply_outs] in *;
    try (injection H as <- <-; exists c0'; split; [done|]; split; [apply Hs|done]).
  - unfold bind_or in *. minv H. pose proof (uo_argint _ _ _ _ Hm) as [-> Hi].
    rewrite (bind_run _ _ _ _ _ (Hi c0' Hs)). destruct a as [k|]; [|done].
    minv Hk. pose proof (uo_argptr _ _ _ _ _ Hm0) as [-> Hp].
    rewrite (bind_run _ _ _ _ _ (Hp c0' Hs)). destruct a as [q|]; [|done].
    destruct (_ =? _); [|done]. minv Hk0. minv Hk.
    eapply write_user_transfer in Hm1 as (c1' & Hw & ?); [|done].
    exists c1'. split; [|done]. by rewrite (bind_run _ _ _ _ _ Hw).
  - unfold bind_or in *. minv H. pose proof (uo_argptr _ _ _ _ _ Hm) as [-> Hp].
    rewrite (bind_run _ _ _ _ _ (Hp c0' Hs)). destruct a as [q|]; [|done].
    minv Hk. minv Hk0. unfold write_stat in *. minv Hm0.
    pose proof (uo_read_user _ _ _ _ _ Hm1) as [-> Hr].
    eapply write_user_transfer in Hk as (c1' & Hw & ?); [|done].
    exists c1'. split; [|done]. rewrite bind_assoc, (bind_run _ _ _ _ _ (Hr c0' Hs)).
    by rewrite (bind_run _ _ _ _ _ Hw).
Qed.

Lemma apply_outs_pid c outs (c0 c1 : core B) v :
  apply_outs c outs c0 = Ok v c1 -> p_pid (c_proc c1) = p_pid (c_proc c0).
Proof.
  intros H. assert (Hs : same_mem c0 c0) by done.
  destruct (apply_outs_transfer _ _ _ _ _ _ Hs H) as (c2 & H2 & _ & Hp).
  rewrite H in H2. by injection H2 as ->.
Qed.

(** ** The run *)

Lemma enter_same mem esp (e e' : core B) : same_mem (enter mem esp e) (enter mem esp e').
Proof. done. Qed.

Lemma enter_ok mem esp s rs :
  recording s -> logging s rs -> offs_ok (k_core s) ->
  let s' := set_core (enter mem esp (k_core s)) s in
  recording s' /\ logging s' rs /\ offs_ok (k_core s').
Proof. done. Qed.

Lemma user_step_alive c mem esp env s v s1 :
  user_step c mem esp env s = Ok v s1 -> alive s1 -> alive s.
Proof. intros H Ha. exact (kr_run_call _ _ back _ _ _ _ H Ha). Qed.

Lemma rec_run_alive u h s h' s' : rec_run u h s h' s' -> alive s' -> alive s.
Proof. induction 1; eauto using user_step_alive. Qed.

(** The recorder is ready to replay record [k] of [all] for process [pid]. *)
Definition rep_at (r : rr) (all : list srec) (k : nat) (pid : Z) : Prop :=
  replay_syscalls r = 1 /\ rr_pid r = pid /\ log_rep r all /\ scrs_idx r = Z.of_nat k.

(** One call: what the record says about the recorded run holds of the
    replayed one. *)
Lemma step_replays c mem esp env s ins outs v c1 s1 t env' all k :
  fetch_ins c (enter mem esp env) = Ok (Some ins) (enter mem esp env) ->
  apply_outs c outs (enter mem esp env) = Ok v c1 -> same_user c1 (k_core s1) ->
  all !! k = Some (call_num c, ins ++ outs) ->
  rep_at (k_rr t) all k (p_pid (c_proc env')) ->
  exists t1, user_step c mem esp env' t = Ok v t1 /\
    observe v t1 = observe v s1 /\ k_rr t1 = set_idx (Z.of_nat (S k)) (k_rr t).
Proof.
  intros Hf Ha Hsu Hk (H1 & H2 & H3 & H4).
  apply uo_fetch_ins in Hf as [_ Hf]. specialize (Hf _ (enter_same mem esp env env')).
  destruct (apply_outs_transfer _ _ _ _ _ _ (enter_same mem esp env env') Ha)
    as (c1' & Ha' & Hm' & _).
  assert (Hr : replayable c (set_core (enter mem esp env') t) all k ins outs v c1').
  { split; [by split_and!|]. split; [exact Hk|]. split; [exact Hf|exact Ha']. }
  eexists. split; [exact (replay_step end_ junk Hjunk c _ _ _ _ _ _ _ Hr)|].
  split; [|done]. unfold observe. simpl. rewrite Hm'. destruct Hsu as (<- & _). done.
Qed.

Lemma rec_run_replays u h s h' s' :
  user_ok u -> rec_run u h s h' s' -> forall rs, recording s -> logging s rs -> alive s' ->
  exists xs, logging s' (rs ++ xs) /\ recording s' /\ length h' = (length h + length xs)%nat /\
  forall all tl t envs pid,
    all = rs ++ xs ++ tl -> (forall i, p_pid (c_proc (envs i)) = pid) ->
    rep_at (k_rr t) all (length rs) pid ->
    exists t', replay_run u (length xs) envs h t = Ok h' t' /\
      rep_at (k_rr t') all (length (rs ++ xs)) pid.
Proof.
  intros Hu. induction 1 as [h s|h s c mem esp env v s1 h' s' Hnext Hpid Hoffs Hstep Hrun IH];
    intros rs Hrec Hlog Ha.
  - exists []. rewrite app_nil_r. split; [done|]. split; [done|]. split; [simpl; lia|].
    intros all tl t envs pid _ _ Hrep. exists t. done.
  - pose proof (rec_run_alive _ _ _ _ _ Hrun Ha) as Ha1.
    assert (Hrec' : recording (set_core (enter mem esp env) s)).
    { destruct Hrec as (? & ? & Hp). split_and!; try done. simpl. by rewrite Hpid. }
    eapply record_step in Hstep as (ins & outs & v0 & c1 & Hf & _ & _ & Hlg & Happ & Hsu);
      [|done|exact Hoffs|by eapply Hu|done|exact Hlog|done].
    destruct Hlg as (Hlog1 & Hrp1 & Hpid1).
    assert (Hrec1 : recording s1).
    { split; [done|]. destruct Hrec' as (_ & Hnr & Hp). split; [by rewrite Hrp1|].
      rewrite Hpid1, Hp. destruct Hsu as (_ & _ & ->).
      symmetry. by eapply apply_outs_pid. }
    destruct (IH (rs ++ [(call_num c, ins ++ outs)]) Hrec1 Hlog1 Ha) as (xs & Hlog' & Hrec2 & Hlen & Hall).
    exists ((call_num c, ins ++ outs) :: xs).
    split; [by rewrite <- app_assoc in Hlog'|]. split; [done|]. split; [rewrite Hlen; len|].
    intros all tl t envs pid Heq Hpids Hrep.
    destruct (step_replays c mem esp env s ins outs v c1 s1 t (envs 0%nat) all (length rs))
      as (t1 & Ht1 & Hobs & Hrr1); [done..| |by rewrite Hpids|].
    { subst all. by apply list_lookup_middle. }
    destruct (Hall all tl t1 (fun i => envs (S i)) pid) as (t' & Hrun' & Hrep').
    { rewrite Heq, <- app_assoc. done. }
    { intros i. apply Hpids. }
    { rewrite Hrr1. destruct Hrep as (? & ? & ? & ?). split_and!; try done.
      simpl. rewrite length_app. simpl. lia. }
    exists t'. rewrite <- app_assoc in Hrep'. split; [|done].
    cbn [length replay_run]. rewrite Hnext, (bind_run _ _ _ _ _ Ht1).
    rewrite (bind_run (gets _) _ t1 _ t1) by done. unfold observe in Hobs.
    by rewrite Hobs.
Qed.

(** ** The log file *)

(** [bs] is written to the file [path]. *)
Definition saved (path bs : list Z) (c c' : core B) : Prop :=
  exists fd c1 w c2 r,
    my_open end_ path (Z.lor O_CREATE O_RDWR) c = Ok fd c1 /\ fd <> -1 /\
    my_write fd bs c1 = Ok w c2 /\ w <> -1 /\ my_close end_ fd c2 = Ok r c' /\ r <> -1.

(** The file [path] is read and holds [bs]. *)
Definition loaded (path bs : list Z) (c c' : core B) : Prop :=
  exists fd c1 c2 r,
    my_open end_ path O_RDWR c = Ok fd c1 /\ fd <> -1 /\
    my_read fd MAX_FILE_SIZE c1 = Ok (zlen bs, bs) c2 /\ my_close end_ fd c2 = Ok r c' /\ r <> -1.

Lemma until_nul_app f l : Forall (fun c => c <> 0) f -> Syscall.until_nul (f ++ 0 :: l) = Some f.
Proof.
  induction 1 as [|c f Hc Hf IH]; [done|]. simpl.
  by rewrite (proj2 (Z.eqb_neq _ _) Hc), IH.
Qed.

(** sysproc.c:__strcpy keeps a file name that fits. *)
Lemma strcpy_trunc_name dest f :
  length dest = 256%nat -> zlen f < 255 -> Forall (fun c => c <> 0) f ->
  Syscall.until_nul (strcpy_trunc dest f 255) = Some f.
Proof.
  intros Hd Hf Hnz. unfold strcpy_trunc, zset, zlen in *.
  rewrite take_ge by (len; lia). change (Z.to_nat (255 - 1)) with 254%nat.
  unfold splice. rewrite take_0, app_nil_l, length_app, <- app_assoc. simpl length.
  destruct (decide (length f = 254%nat)) as [He|Hne].
  - rewrite insert_app_r_alt by lia. rewrite He. simpl. by apply until_nul_app.
  - rewrite insert_app_r_alt by lia. destruct (254 - length f)%nat eqn:E; [lia|].
    simpl. by apply until_nul_app.
Qed.

Lemma record_stop_runs s rs path c' :
  recording s -> logging s rs -> zlen (buffer (k_rr s)) = MAX_FILE_SIZE ->
  zlen (enc_session rs) <= MAX_FILE_SIZE ->
  Syscall.until_nul (record_filename (k_rr s)) = Some path ->
  saved path (enc_session rs) (k_core s) c' ->
  exists s', sys_record_stop end_ s = Ok 0 s' /\ k_core s' = c' /\
    record_syscalls (k_rr s') = 0 /\ replay_syscalls (k_rr s') = replay_syscalls (k_rr s).
Proof.
  intros Hrec [Hlog Hidx] Hbuf Hfit Hname (fd & c1 & w & c2 & r & Ho & Hfd & Hw & Hwok & Hc & Hr).
  pose proof Hrec as (Hal & Hnr & _).
  destruct (RRCodec.encode_session s rs) as
    (s1 & Hrun & Hcore & Hrp & Hfn & _ & _ & _ & Hblen & _ & Hbytes); [done..|].
  apply bind_Ok_inv in Hrun as (u1 & sa & Hra & Hrun).
  apply bind_Ok_inv in Hrun as (u2 & sb & Hrb & Hrun). minv Hrun. minv Hm.
  unfold sys_record_stop. rewrite (bind_run _ _ _ _ _ (isRecording_yes _ Hrec)). cbv iota.
  rewrite (bind_run _ _ _ _ _ Hra), (bind_run _ _ _ _ _ Hrb).
  rewrite (bind_run (gets k_rr) _ _ _ _ eq_refl), (bind_or_run _ _ _ _ _ _ Hk).
  set (s2 := set_rr (set_record 0 (k_rr s1)) s1).
  rewrite (bind_run (upd_rr (set_record 0)) _ s1 tt s2) by done.
  rewrite (bind_run (gets k_rr) _ s2 (k_rr s2) s2) by done.
  change (record_filename (k_rr s2)) with (record_filename (k_rr s1)).
  change (take _ _) with (take (Z.to_nat (buffer_pos (k_rr s1))) (buffer (k_rr s1))).
  rewrite Hfn, Hname, Hbytes. rewrite (bind_run (from_option_undef (Some path)) _ s2 path s2) by done.
  rewrite <- Hcore in Ho. change (k_core s1) with (k_core s2) in Ho.
  rewrite (bind_run _ _ _ _ _ (kcore_run _ s2 _ _ Ho)), (proj2 (Z.eqb_neq _ _) Hfd).
  rewrite (bind_run _ _ _ _ _ (kcore_run _ (set_core c1 s2) _ _ Hw)), (proj2 (Z.eqb_neq _ _) Hwok).
  rewrite (bind_run _ _ _ _ _ (kcore_run _ (set_core c2 (set_core c1 s2)) _ _ Hc)),
    (proj2 (Z.eqb_neq _ _) Hr).
  eexists. split; [done|]. split; [done|]. split; [done|]. exact Hrp.
Qed.

(** A table of records that have never been written. *)
Lemma blank_table (k : nat) c :
  replicate (Z.to_nat MAX_SCRS) (createSCR junk UNITIALIZED_SCR) !! k = Some c -> scr_blank c.
Proof.
  intros Hk. apply lookup_replicate in Hk as [-> _]. unfold scr_blank, createSCR. simpl.
  split; [done|]. split; [done|]. intros i a Ha.
  assert (Hin : a ∈ replicate 4 (mkArg NONE_TYPE (splice 4 (replicate 200 0) junk)))
    by (apply list_elem_of_lookup; by exists i).
  apply elem_of_replicate in Hin as [-> _]. unfold junk_ok, sizeof_Val in *. simpl. len.
Qed.

Lemma reset_session_run s :
  reset_session junk s = Ok tt (set_rr (set_pos 0 (set_rr_pid (p_pid (c_proc (k_core s)))
    (set_idx 0 (set_scrs (replicate (Z.to_nat MAX_SCRS) (createSCR junk UNITIALIZED_SCR))
       (k_rr s))))) s).
Proof. by destruct s. Qed.

Lemma replay_start_runs s rs rest path c' :
  record_syscalls (k_rr s) <> 1 -> zlen (buffer (k_rr s)) = MAX_FILE_SIZE ->
  length (replay_filename (k_rr s)) = 256%nat ->
  Syscall.argstr 0 (k_core s) = Ok (Some path) (k_core s) ->
  zlen path < 255 -> Forall (fun c => c <> 0) path ->
  Forall srec_ok rs -> zlen rs <= MAX_SCRS ->
  zlen (enc_session rs ++ rest) <= MAX_FILE_SIZE ->
  loaded path (enc_session rs ++ rest) (k_core s) c' ->
  exists t, sys_replay_start end_ junk s = Ok 1 t /\ k_core t = c' /\
    rep_at (k_rr t) rs 0 (p_pid (c_proc (k_core s))).
Proof.
  intros Hnr Hbuf Hfl Harg Hpl Hnz Hok Hcnt Hfit (fd & c1 & c2 & r & Ho & Hfd & Hrd & Hc & Hr).
  unfold sys_replay_start. rewrite (bind_or_run _ _ _ _ _ _ (kcore_id _ _ _ Harg)).
  set (s1 := set_rr (set_replay_filename (strcpy_trunc (replay_filename (k_rr s)) path 255)
    (k_rr s)) s).
  rewrite (bind_run (upd_rr _) _ s tt s1) by done.
  set (s2 := set_rr (set_replay 1 (k_rr s1)) s1).
  rewrite (bind_run (upd_rr _) _ s1 tt s2) by done.
  rewrite (bind_run _ _ _ _ _ (reset_session_run s2)). set (s3 := set_rr _ s2).
  rewrite (bind_run (gets k_rr) _ s3 (k_rr s3) s3) by done.
  assert (Hname : Syscall.until_nul (replay_filename (k_rr s3)) = Some path)
    by (by apply strcpy_trunc_name).
  rewrite Hname, (bind_run (from_option_undef (Some path)) _ s3 path s3) by done.
  rewrite (bind_run _ _ _ _ _ (kcore_run _ s3 _ _ Ho)), (proj2 (Z.eqb_neq _ _) Hfd).
  rewrite (bind_run _ _ _ _ _ (kcore_run _ (set_core c1 s3) _ _ Hrd)). cbv beta iota.
  set (s4 := set_core c2 (set_core c1 s3)). set (bs := enc_session rs ++ rest) in *.
  set (s5 := set_rr (set_buffer (splice 0 bs (buffer (k_rr s4))) (k_rr s4)) s4).
  rewrite (bind_run (upd_rr _) _ s4 tt s5) by done.
  rewrite (proj2 (Z.eqb_neq _ _)) by (pose proof (zlen_nonneg bs); lia).
  rewrite (bind_run _ _ _ _ _ (kcore_run _ s5 _ _ Hc)), (proj2 (Z.eqb_neq _ _) Hr).
  set (s6 := set_core c' s5).
  destruct (RRCodec.decode_session s6 rs (zlen bs)) as (s7 & Hrun & Hcore & Hmode & Hlog & Hpid);
    [done|done|done|apply length_replicate|intros k c; apply blank_table|done| | |].
  - split.
    + split; [|simpl; unfold bs in Hfit; rewrite zlen_app in Hfit;
               pose proof (zlen_nonneg rest); lia].
      simpl. unfold zlen in *. rewrite length_splice; [done|]. unfold MAX_FILE_SIZE in *. lia.
    + change (slice 0 (length (enc_session rs)) (splice 0 bs (buffer (k_rr s4))) = enc_session rs).
      unfold splice. rewrite take_0, app_nil_l. unfold slice, bs. rewrite drop_0.
      rewrite <- app_assoc. apply take_app_length.
  - unfold bs. rewrite zlen_app. pose proof (zlen_nonneg rest). lia.
  - apply bind_Ok_inv in Hrun as (u & s6' & Hi & Hrun). minv Hrun. minv Hm.
    rewrite (bind_run _ _ _ _ _ Hi), (bind_run (gets k_rr) _ _ _ _ eq_refl).
    rewrite (bind_or_run _ _ _ _ _ _ Hk).
    exists (set_rr (set_idx 0 (k_rr s7)) s7). split; [|split; [exact Hcore|]].
    + unfold upd_rr, modify, bind, gets, ret. simpl. destruct Hmode as [-> _]. done.
    + destruct Hmode as [Hm1 _]. split_and!; [done| |exact Hlog|done]. simpl. by rewrite Hpid.
Qed.

Lemma record_start_runs s filename :
  Syscall.argstr 0 (k_core s) = Ok (Some filename) (k_core s) ->
  replay_syscalls (k_rr s) <> 1 ->
  exists s', sys_record_start junk s = Ok 1 s' /\ k_core s' = k_core s /\
    recording s' /\ logging s' [] /\ buffer (k_rr s') = buffer (k_rr s) /\
    record_filename (k_rr s') = strcpy_trunc (record_filename (k_rr s)) filename 255.
Proof.
  intros Harg Hnr. unfold sys_record_start.
  rewrite (bind_or_run _ _ _ _ _ _ (kcore_id _ _ _ Harg)).
  eexists. split; [reflexivity|]. split; [done|]. split; [by split_and!|]. split; [|done].
  split; [|done]. split; [apply length_replicate|]. split; [done|]. split; [done|].
  split; [done|]. intros i c _ Hc. by eapply blank_table.
Qed.

(** System calls do not touch the encoding buffer or the name of the log. *)
Definition same_file s s' : Prop :=
  buffer (k_rr s') = buffer (k_rr s) /\ record_filename (k_rr s') = record_filename (k_rr s).

#[global] Instance same_file_frame : RRFrame same_file.
Proof.
  split; try by split.
  - intros s1 s2 s3 [] []. split; congruence.
  - intros s u s' H. unfold RecRepErr, upd_rr in H. minvs. unfold kcore in *.
    match goal with H : zoom _ _ _ _ = Ok _ _ |- _ => apply zoom_Ok_inv in H as (t & _ & ->) end.
    done.
Qed.

Lemma rec_run_file u h s h' s' : rec_run u h s h' s' -> same_file s s'.
Proof.
  induction 1 as [|h s c mem esp env v s1 h' s' _ _ _ Hstep _ IH]; [by split|].
  transitivity s1; [|done]. by apply (kr_run_call end_ junk same_file c) in Hstep.
Qed.

(** The recording half of a session. *)
Lemma recorded_session u s h s' :
  user_ok u -> recording s -> logging s [] -> rec_run u [] s h s' -> alive s' ->
  exists rs, logging s' rs /\ recording s' /\ length rs = length h /\ Forall srec_ok rs /\
    zlen rs <= MAX_SCRS /\
    forall t envs pid, (forall i, p_pid (c_proc (envs i)) = pid) -> rep_at (k_rr t) rs 0 pid ->
      exists t', replay_run u (length h) envs [] t = Ok h t' /\ rep_at (k_rr t') rs (length rs) pid.
Proof.
  intros Hu Hrec Hlog Hrun Ha.
  destruct (rec_run_replays u [] s h s' Hu Hrun [] Hrec Hlog Ha) as (rs & Hlog' & Hrec' & Hlen & Hall).
  exists rs. simpl in *. split; [done|]. split; [done|]. split; [done|].
  pose proof Hlog' as [(_ & ? & ? & _) _]. split; [done|]. split; [done|].
  intros t envs pid Hp Hrep. rewrite Hlen.
  destruct (Hall rs [] t envs pid) as (t' & ? & ?); [by rewrite app_nil_r|done|done|]. eauto.
Qed.

End session.
End Session.
