(* ===== verification/MemBlk.v ===== *)
(** * A block store in memory

    The simplest block layer: every block has the contents last written to it
    (zeroes before), buffers are never contended and transactions always fit.
    It is what log.c and bio.c promise to fs.c in the absence of crashes and
    contention, and the instance on which the system calls are evaluated. *)
From S2P Require Import Prelude Words Params Core.

Definition store : Type := gmap (Z * Z) (list Z).

Definition zero_block : list Z := replicate (Z.to_nat BSIZE) 0.

#[export] Instance mem_blocks : BlockLayer store := {
  bread dev b := gets (fun m => default zero_block (m !! (dev, b)));
  log_write dev b d := modify (fun m => <[(dev, b) := d]> m);
  brelse _ _ := ret tt;
  begin_op := ret tt;
  end_op := ret tt
}.
