(* ===== verification/Demo.v ===== *)
(** * A machine to evaluate on

    The kernel state after booting on an image made by mkfs with one file,
    [readme], and a process about to make system calls.  The witnesses of the
    development run on it. *)
From S2P Require Import Prelude Words Params CString Kalloc Pipe Core Fs File Mkfs Syscall RR MemBlk.

Module Demo.

Definition demo_img : gmap Z (list Z) :=
  default ∅ (Mkfs.mkfs [([114; 101; 97; 100; 109; 101], [104; 101; 108; 108; 111; 10])]).

Definition demo_store : store :=
  list_to_map ((fun '(k, v) => ((ROOTDEV, k), v)) <$> map_to_list demo_img).

Definition no_inode : inode := mkInode 0 0 0 false 0 0 0 0 0 0 0 (replicate 13 0).
Definition no_file : file := mkFile FD_NONE 0 0 0 0 0 0.

(** A process with the given memory and stack pointer. *)
Definition demo_proc (mem : list Z) (esp : Z) : proc :=
  mkProc 7 0 (replicate (Z.to_nat NOFILE) None) 0 mem esp.

Definition demo_boot : core store :=
  mkCore demo_store (mkSuperblock 0 0 0 0 0 0 0) (replicate (Z.to_nat NINODE) no_inode)
    (replicate (Z.to_nat NFILE) no_file) (Kalloc.mkKmem 0 0 ∅) ∅
    (mkInput (replicate 128 0) 0 0 0) [] (demo_proc [] 0) 42.

(** After [iinit], with the root directory as working directory (inode cache
    entry 0). *)
Definition demo_core : core store :=
  run_state (Fs.iget ROOTDEV ROOTINO) (run_state (Fs.iinit ROOTDEV) demo_boot).

Definition demo_junk : list Z := replicate 204 170.

Definition demo_rr : RR.rr :=
  RR.mkRR 0 0 (replicate 256 0) (replicate 256 0) [] 0 (replicate (Z.to_nat MAX_FILE_SIZE) 0) 0 0.

(** Memory with the stack at 0: three arguments at 4, 8 and 12, a string at 16
    and space after it. *)
Definition demo_mem (a0 a1 a2 : Z) (str : list Z) : list Z :=
  le_bytes 4 0 ++ le_bytes 4 a0 ++ le_bytes 4 a1 ++ le_bytes 4 a2 ++ str ++ [0] ++ replicate 64 0.

Definition demo_state (mem : list Z) : RR.kstate store :=
  RR.mkK demo_rr (set_proc (demo_proc mem 0) demo_core).

End Demo.
