(* ===== verification/SessionProps.v ===== *)
(** * The record/replay theorems

    The properties of the recorder, with a concrete session on which each of
    them applies. *)
From S2P Require Import Prelude Words Params CString Kalloc Pipe Core Fs File Syscall RR RRSpec.
From S2P Require Import Sysfile Sysproc Frame RRCodec RRBuild RRCalls Session MemBlk Demo.

Module SessionProps.
Import RR RRSpec Sysfile Sysproc Frame RRCodec RRBuild RRCalls Session.

Section props.
Context {B : Type} {BL : BlockLayer B}.
Implicit Types s t : kstate B.

Lemma until_nul_nonzero l f : Syscall.until_nul l = Some f -> Forall (fun c => c <> 0) f.
Proof.
  revert f. induction l as [|c l IH]; intros f H; simpl in H; [done|].
  destruct (Z.eqb_spec c 0); simplify_eq; [done|].
  destruct (Syscall.until_nul l); simplify_option_eq. constructor; auto.
Qed.

Lemma argstr_nonzero n (c : core B) f c' :
  Syscall.argstr n c = Ok (Some f) c' -> Forall (fun c => c <> 0) f.
Proof.
  unfold Syscall.argstr. intros H. minv H. destruct a; [|by minv Hk].
  unfold Syscall.fetchstr, myproc in Hk. minv Hk. minv Hm0. destruct (_ >=? _); [done|].
  injection Hk0 as Hk0 _. by eapply until_nul_nonzero.
Qed.

(** C1: a session end to end.  Whatever calls a program made while it was
    recorded, if recording was still on at the end, then record_stop writes
    the session to the log file, and replay_start on a file that begins with
    it followed by a rerun of the program gives exactly the same results and
    the same memory after every call, whatever the rest of the kernel does
    meanwhile. *)
Theorem session_end_to_end end_ junk u s0 filename s1 h s2 :
  junk_ok junk -> user_ok u ->
  Syscall.argstr 0 (k_core s0) = Ok (Some filename) (k_core s0) -> zlen filename < 255 ->
  replay_syscalls (k_rr s0) <> 1 -> zlen (buffer (k_rr s0)) = MAX_FILE_SIZE ->
  length (record_filename (k_rr s0)) = 256%nat ->
  sys_record_start junk s0 = Ok 1 s1 -> rec_run end_ junk u [] s1 h s2 -> alive s2 ->
  exists rs, length rs = length h /\ logging s2 rs /\
    (zlen (enc_session rs) <= MAX_FILE_SIZE ->
     (forall c', saved end_ filename (enc_session rs) (k_core s2) c' ->
        exists s3, sys_record_stop end_ s2 = Ok 0 s3 /\ k_core s3 = c' /\
          record_syscalls (k_rr s3) = 0) /\
     (forall t0 path rest c' envs,
        record_syscalls (k_rr t0) <> 1 -> zlen (buffer (k_rr t0)) = MAX_FILE_SIZE ->
        length (replay_filename (k_rr t0)) = 256%nat ->
        Syscall.argstr 0 (k_core t0) = Ok (Some path) (k_core t0) -> zlen path < 255 ->
        zlen (enc_session rs ++ rest) <= MAX_FILE_SIZE ->
        loaded end_ path (enc_session rs ++ rest) (k_core t0) c' ->
        (forall i, p_pid (c_proc (envs i)) = p_pid (c_proc (k_core t0))) ->
        exists t1 t2, sys_replay_start end_ junk t0 = Ok 1 t1 /\
          replay_run end_ junk u (length h) envs [] t1 = Ok h t2)).
Proof.
  intros Hj Hu Harg Hfl Hnr Hbuf Hrfn Hstart Hrun Ha.
  destruct (record_start_runs junk Hj s0 filename Harg Hnr)
    as (s1' & Hs1 & Hcore & Hrec & Hlog & Hb1 & Hf1).
  rewrite Hstart in Hs1. injection Hs1 as <-.
  destruct (recorded_session end_ junk Hj u s1 h s2 Hu Hrec Hlog Hrun Ha)
    as (rs & Hlog2 & Hrec2 & Hlen & Hok & Hcnt & Hrep).
  destruct (rec_run_file end_ junk u [] s1 h s2 Hrun) as [Hb2 Hf2].
  exists rs. split; [done|]. split; [done|]. intros Hfit. split.
  - intros c' Hsaved.
    destruct (record_stop_runs end_ s2 rs filename c') as (s3 & ? & ? & ? & _); eauto.
    + by rewrite Hb2, Hb1.
    + rewrite Hf2, Hf1. apply strcpy_trunc_name; [done|done|]. by eapply argstr_nonzero.
  - intros t0 path rest c' envs Hnr0 Hbuf0 Hlf Hargp Hpl Hfit' Hld Hpids.
    destruct (replay_start_runs end_ junk Hj t0 rs rest path c') as (t1 & Ht1 & _ & Hat);
      [done|done|done|done|done|by eapply argstr_nonzero|done|done|done|done|].
    destruct (Hrep t1 envs _ Hpids Hat) as (t2 & Ht2 & _). eauto.
Qed.


(** the recording branch of each call that returns a status is an edited
    copy of its original branch; the two behave the same on every state, error
    exits included. *)
Theorem rec_branches_orig end_ (c : core B) :
  close_rec end_ c = close_orig end_ c /\ open_rec end_ c = open_orig end_ c /\
  link_rec c = link_orig c /\ unlink_rec c = unlink_orig c /\ mkdir_rec c = mkdir_orig c /\
  mknod_rec c = mknod_orig c /\ chdir_rec c = chdir_orig c.
Proof.
  split_and!; auto using close_rec_orig, open_rec_orig, link_rec_orig, unlink_rec_orig,
    mkdir_rec_orig, mknod_rec_orig, chdir_rec_orig.
Qed.

(** C4: the encoding loop of record_stop and the decoding loop of replay_start
    are inverse.  A log whose encoding fits in the buffer is written there
    without error, and decoding that buffer into an empty table gives a log
    with the same records. *)
Theorem codec_roundtrip s rs :
  rec_mode (k_rr s) -> log_rep (k_rr s) rs -> scrs_idx (k_rr s) = zlen rs ->
  zlen (buffer (k_rr s)) = MAX_FILE_SIZE -> zlen (enc_session rs) <= MAX_FILE_SIZE ->
  exists s1,
    (upd_rr (set_pos 0) ;; transform_idx ;;
     r <- gets k_rr ;; transform_all (Z.to_nat (scrs_idx r)) 0 (-1)) s = Ok (Some tt) s1 /\
    forall t, rep_mode (k_rr t) -> log_rep (k_rr t) [] -> buffer_pos (k_rr t) = 0 ->
      buffer (k_rr t) = buffer (k_rr s1) ->
      exists t1, (transform_idx ;; r <- gets k_rr ;;
                  transform_all (Z.to_nat (scrs_idx r)) 0 (buffer_pos (k_rr s1))) t
                 = Ok (Some tt) t1 /\ log_rep (k_rr t1) rs.
Proof.
  intros Hm Hlog Hidx Hbuf Hfit. pose proof Hlog as (_ & Hcnt & Hok & _).
  destruct (encode_session s rs) as
    (s1 & Hrun & _ & _ & _ & _ & _ & _ & Hbl & Hpos & Hbytes); [done..|].
  exists s1. split; [exact Hrun|]. intros t Hmt (Hlt & _ & _ & _ & Hblank) Hp Hb.
  destruct (decode_session t rs (buffer_pos (k_rr s1))) as (t1 & Ht & _ & _ & Hl & _);
    [done|done|done|done| |done| |by rewrite Hpos|eauto].
  - intros k c. apply Hblank. simpl. lia.
  - split; [split; [by rewrite Hb|]; rewrite Hp; lia|]. rewrite Hp, Hb. unfold slice.
    change (Z.to_nat 0) with 0%nat. rewrite drop_0.
    rewrite Hpos in Hbytes. unfold zlen in Hbytes. by rewrite Nat2Z.id in Hbytes.
Qed.


(** replaying past the end.  A call made after the last record of a log
    that is not full reports the error but then reads its result from
    [args[-1]] of the blank record, outside the array. *)
Theorem replay_past_end junk s rs :
  replaying s rs (length rs) -> zlen rs < MAX_SCRS -> sys_getpid junk s = Undef.
Proof.
  intros Hr Hlt. unfold sys_getpid. rewrite (bind_run _ _ _ _ _ (isReplaying_yes _ _ _ Hr)).
  cbv iota. destruct Hr as (_ & _ & (Hlen & _ & _ & _ & Hblank) & Hidx).
  destruct (lookup_lt_is_Some_2 (recorded_scrs (k_rr s)) (length rs)) as [rec Hrec].
  { rewrite Hlen. unfold zlen, MAX_SCRS in *. lia. }
  pose proof (Hblank _ _ (le_n _) Hrec) as [Hsys _].
  unfold compareSCRS. rewrite bind_assoc, (bind_run (gets k_rr) _ s (k_rr s) s) by done.
  rewrite Hidx. unfold zlen, MAX_SCRS in Hlt. unfold MAX_SCRS.
  rewrite Z.geb_leb, (proj2 (Z.leb_gt _ _)), bind_assoc by lia.
  rewrite (bind_run _ _ _ rec s) by (apply aget_run; by rewrite zget_nat).
  rewrite bind_assoc, (bind_run (upd_rr _) _ s tt _ eq_refl), Hsys. rewrite Z.eqb_refl.
  rewrite bind_assoc. erewrite bind_run by reflexivity. rewrite bind_ret_l.
  unfold out_num, out_val. by rewrite Hsys.
Qed.

(** C10: the buffer check of bidirectionalTransform is off by at least one.  With
    the buffer exactly full the check passes and the next byte of the record
    is stored past its end. *)
Theorem transform_overflow s scr fsz :
  rec_mode (k_rr s) -> zlen (buffer (k_rr s)) = MAX_FILE_SIZE ->
  buffer_pos (k_rr s) = MAX_FILE_SIZE -> scr_syscall scr <> UNITIALIZED_SCR ->
  bidirectionalTransform scr fsz s = Undef.
Proof.
  intros [Hrec Hnr] Hb Hp Hs. unfold bidirectionalTransform.
  rewrite (bind_run (gets k_rr) _ s (k_rr s) s) by done.
  rewrite Hp, (proj2 (Z.eqb_neq _ _) Hnr), (proj2 (Z.eqb_neq _ _) Hs), andb_false_r.
  cbn [andb Z.gtb Z.compare Pos.compare Pos.compare_cont MAX_FILE_SIZE].
  unfold memmove_and_increment, bind, gets.
  rewrite (proj2 (Z.eqb_neq _ _) Hnr), Hrec, Hp, Hb. done.
Qed.

(** Sys_chdir logs the number of mkdir.  Its record is accepted, without a
    divergence being noticed, by a program that calls mkdir on the same path
    instead, and mkdir then reports the status chdir had. *)
Theorem chdir_replays_as_mkdir junk s rs v s' :
  junk_ok junk -> recording s -> logging s rs ->
  sys_chdir junk s = Ok v s' -> alive s' ->
  exists avs, logging s' (rs ++ [(SYS_mkdir, avs)]) /\
    forall t, replaying t (rs ++ [(SYS_mkdir, avs)]) (length rs) -> same_mem (k_core s) (k_core t) ->
      sys_mkdir junk t = Ok v (replay_next t (length rs) (k_core t)).
Proof.
  intros Hj Hrec Hlog H Ha.
  destruct (record_path1 0 junk Hj CChdir chdir_rec chdir_orig s rs v s') as
    (ins & outs & v0 & c1 & Hf & _ & Hv & (Hlg & _) & Happ & _);
    [by right; right|done|apply chdir_rec_orig|apply ku_chdir_orig|done|done|exact H|done|].
  exists (ins ++ outs). split; [exact Hlg|]. intros t Hr Hsm.
  apply apply_status in Happ as [Ho ->];
    [|done|intros [|[] []] Hne; try done; by destruct (Hne _ eq_refl)].
  subst outs.
  apply (replay_step 0 junk Hj CMkdir t (rs ++ [(SYS_mkdir, ins ++ [AInt v])]) (length rs)
    ins [AInt v] v (k_core t)).
  split; [exact Hr|]. split; [by apply list_lookup_middle|]. split; [|done].
  by apply (uo_fetch_ins CChdir _ _ _ Hf).
Qed.

End props.
(** ** A session on the demonstration machine

    Recording is started, [readme] is opened, six bytes of it are read and the
    pid is asked for. *)
Import Demo.

Definition readme : list Z := [114; 101; 97; 100; 109; 101].
Definition mem_open : list Z := demo_mem 16 2 0 readme.
Definition mem_read : list Z := demo_mem 0 40 6 [].
Definition mem_log : list Z := demo_mem 16 0 0 [108; 111; 103].
Definition mem_dot : list Z := demo_mem 16 0 0 [46].

Definition w_user : user := fun h =>
  match h with
  | [] => Some (COpen, mem_open, 0)
  | [_] => Some (CRead, mem_read, 0)
  | [_; _] => Some (CGetpid, mem_read, 0)
  | _ => None
  end.

Definition w_s0 : kstate store := demo_state mem_log.
Definition w_s1 : kstate store := run_state (sys_record_start demo_junk) w_s0.
#[local] Abbreviation w_call c mem s := (user_step 0 demo_junk c mem 0 (k_core s)).
Definition w_s2 : kstate store := run_state (w_call COpen mem_open w_s1) w_s1.
Definition w_s3 : kstate store := run_state (w_call CRead mem_read w_s2) w_s2.
Definition w_s4 : kstate store := run_state (w_call CGetpid mem_read w_s3) w_s3.
Definition w_hist : history := [observe 0 w_s2; observe 6 w_s3; observe 7 w_s4].

Lemma user_step_run c mem (env : core store) s :
  user_step 0 demo_junk c mem 0 env s = run_call 0 demo_junk c (set_core (enter mem 0 env) s).
Proof. reflexivity. Qed.

Ltac by_decision := apply (bool_decide_unpack _); vm_compute; exact I.
Ltac by_run m v s := apply (returns_run m v s); vm_compute; reflexivity.

Lemma w_junk_ok : junk_ok demo_junk.
Proof. reflexivity. Qed.

Lemma w_start : sys_record_start demo_junk w_s0 = Ok 1 w_s1.
Proof. by_run (sys_record_start (B := store) demo_junk) 1 w_s0. Qed.

Lemma w_argstr : Syscall.argstr 0 (k_core w_s0) = Ok (Some [108; 111; 103]) (k_core w_s0).
Proof. reflexivity. Qed.

Lemma w_user_ok : user_ok w_user.
Proof.
  intros [|a [|b [|c h]]] x mem esp Hx; simpl in Hx; simplify_eq; by_decision.
Qed.

Lemma w_recording : recording w_s1 /\ logging w_s1 [].
Proof.
  destruct (record_start_runs demo_junk w_junk_ok w_s0 [108; 111; 103]) as (s' & H & _ & ? & ? & _);
    [apply w_argstr|done|]. rewrite w_start in H. by injection H as <-.
Qed.

Lemma w_step1 : w_call COpen mem_open w_s1 w_s1 = Ok 0 w_s2.
Proof. by_run (w_call COpen mem_open w_s1) 0 w_s1. Qed.

Lemma w_step2 : w_call CRead mem_read w_s2 w_s2 = Ok 6 w_s3.
Proof. by_run (w_call CRead mem_read w_s2) 6 w_s2. Qed.

Lemma w_step3 : w_call CGetpid mem_read w_s3 w_s3 = Ok 7 w_s4.
Proof. by_run (w_call CGetpid mem_read w_s3) 7 w_s3. Qed.

Lemma w_offs : offs_ok (k_core w_s1) /\ offs_ok (k_core w_s2) /\ offs_ok (k_core w_s3).
Proof. unfold offs_ok. by_decision. Qed.

Lemma w_rec_run : rec_run 0 demo_junk w_user [] w_s1 w_hist w_s4.
Proof.
  destruct w_offs as (Ho1 & Ho2 & Ho3).
  exact (rec_run_step 0 demo_junk w_user [] w_s1 COpen mem_open 0 (k_core w_s1) 0 w_s2 _ _
           eq_refl eq_refl Ho1 w_step1
        (rec_run_step 0 demo_junk w_user [observe 0 w_s2] w_s2 CRead mem_read 0 (k_core w_s2) 6 w_s3
           _ _ eq_refl eq_refl Ho2 w_step2
        (rec_run_step 0 demo_junk w_user [observe 0 w_s2; observe 6 w_s3] w_s3 CGetpid mem_read 0
           (k_core w_s3) 7 w_s4 _ _ eq_refl eq_refl Ho3 w_step3
        (rec_run_stop 0 demo_junk w_user w_hist w_s4)))).
Qed.

Lemma w_alive : alive w_s4.
Proof. vm_compute. reflexivity. Qed.

(** Witness of [session_end_to_end]. *)
Lemma session_end_to_end_witness :
  exists rs, length rs = 3%nat /\ logging w_s4 rs.
Proof.
  destruct (session_end_to_end 0 demo_junk w_user w_s0 [108; 111; 103] w_s1 w_hist w_s4)
    as (rs & Hlen & Hlog & _).
  - exact w_junk_ok.
  - exact w_user_ok.
  - exact w_argstr.
  - reflexivity.
  - discriminate.
  - vm_compute. reflexivity.
  - vm_compute. reflexivity.
  - exact w_start.
  - exact w_rec_run.
  - exact w_alive.
  - exists rs. split; [exact Hlen|exact Hlog].
Defined.

(** The state in which the process makes its first call. *)
Definition w_open : kstate store := set_core (enter mem_open 0 (k_core w_s1)) w_s1.
Definition w_dot : kstate store := set_core (enter mem_dot 0 (k_core w_s1)) w_s1.
Definition w_dot' : kstate store := run_state (sys_chdir demo_junk) w_dot.

Lemma w_open_run : run_call 0 demo_junk COpen w_open = Ok 0 w_s2.
Proof. unfold w_open. rewrite <- user_step_run. exact w_step1. Qed.

Lemma w_enter mem : let s := set_core (enter mem 0 (k_core w_s1)) w_s1 in
  recording s /\ logging s [] /\ offs_ok (k_core s).
Proof.
  exact (enter_ok mem 0 w_s1 [] (proj1 w_recording) (proj2 w_recording) (proj1 w_offs)).
Qed.


Lemma w_session : exists rs, logging w_s4 rs /\ recording w_s4 /\ length rs = 3%nat /\ Forall srec_ok rs.
Proof.
  destruct w_recording as [Hr Hl].
  destruct (recorded_session 0 demo_junk w_junk_ok w_user w_s1 w_hist w_s4)
    as (rs & ? & ? & ? & ? & _); [exact w_user_ok|done|done|exact w_rec_run|exact w_alive|eauto].
Qed.

(** Witness of [codec_roundtrip]: the three records of the session. *)
Lemma codec_roundtrip_witness : exists s1,
  (upd_rr (set_pos 0) ;; transform_idx ;;
   r <- gets k_rr ;; transform_all (Z.to_nat (scrs_idx r)) 0 (-1)) w_s4 = Ok (Some tt) s1.
Proof.
  destruct w_session as (rs & [Hlog Hidx] & (Ha & Hn & _) & Hlen & Hok).
  destruct (codec_roundtrip w_s4 rs) as (s1 & H & _).
  - split; [exact Ha|exact Hn].
  - exact Hlog.
  - exact Hidx.
  - vm_compute. reflexivity.
  - pose proof (enc_session_bound rs Hok) as Hb. unfold zlen, MAX_FILE_SIZE in *.
    rewrite Hlen in Hb. lia.
  - exists s1. exact H.
Defined.

(** One call recorded, then replayed by the same process. *)
Definition w_g : kstate store := run_state (w_call CGetpid mem_read w_s1) w_s1.
Definition rewound (k : nat) (s : kstate store) : kstate store :=
  set_rr (set_replay 1 (set_record 0 (set_idx (Z.of_nat k) (k_rr s)))) s.

Lemma rewound_replaying k s rs :
  log_rep (k_rr s) rs -> rr_pid (k_rr s) = p_pid (c_proc (k_core s)) ->
  replaying (rewound k s) rs k.
Proof. intros Hl Hp. by split_and!. Qed.

Lemma w_stepg :
  run_call 0 demo_junk CGetpid (set_core (enter mem_read 0 (k_core w_s1)) w_s1) = Ok 7 w_g.
Proof.
  rewrite <- user_step_run. by_run (w_call CGetpid mem_read w_s1) 7 w_s1.
Qed.

Lemma w_log : exists avs, log_rep (k_rr w_g) [(SYS_getpid, avs)].
Proof.
  destruct (w_enter mem_read) as (Hr & Hl & Ho).
  destruct (record_step 0 demo_junk w_junk_ok CGetpid (set_core (enter mem_read 0 (k_core w_s1)) w_s1)
              [] 7 w_g) as (ins & outs & v0 & c1 & _ & _ & _ & ([Hlog _] & _) & _);
    [exact Ho|by_decision|exact Hr|exact Hl|exact w_stepg|vm_compute; reflexivity|].
  exists (ins ++ outs). exact Hlog.
Qed.


(** Witness of [replay_past_end]. *)
Lemma replay_past_end_witness : sys_getpid demo_junk (rewound 1 w_g) = Undef.
Proof.
  destruct w_log as [avs Hlog].
  apply (replay_past_end demo_junk (rewound 1 w_g) [(SYS_getpid, avs)]).
  - apply rewound_replaying; [exact Hlog|vm_compute; reflexivity].
  - reflexivity.
Defined.

(** Witness of [transform_overflow]. *)
Lemma transform_overflow_witness :
  bidirectionalTransform (createSCR demo_junk SYS_getpid) (-1)
    (set_rr (set_pos MAX_FILE_SIZE (k_rr w_s1)) w_s1) = Undef.
Proof.
  apply transform_overflow.
  - split; [vm_compute; reflexivity|]. vm_compute. discriminate.
  - vm_compute. reflexivity.
  - reflexivity.
  - discriminate.
Defined.

(** Witness of [chdir_replays_as_mkdir]: [chdir(".")]. *)
Lemma chdir_replays_as_mkdir_witness :
  exists avs, logging w_dot' [(SYS_mkdir, avs)].
Proof.
  destruct (chdir_replays_as_mkdir demo_junk w_dot [] 0 w_dot') as (avs & H & _).
  - exact w_junk_ok.
  - exact (proj1 (w_enter mem_dot)).
  - exact (proj1 (proj2 (w_enter mem_dot))).
  - apply (returns_run (sys_chdir demo_junk) 0 w_dot). vm_compute. reflexivity.
  - vm_compute. reflexivity.
  - exists avs. exact H.
Defined.

End SessionProps.
