(* ===== verification/Ulib.v ===== *)
(** * ulib.c and printf.c: the user library

    A [char*] is the list of the bytes from the pointer to the end of the
    memory behind it; reading past that end is [None].  A string is the part
    before the first NUL.  Bytes are kept as unsigned values; the comparisons
    of the sources are on equality or on ASCII digits, which does not depend on
    the sign of [char]. *)
From S2P Require Import Prelude Words.

Module Ulib.

(** ** Strings *)

(** ulib.c:strcpy: the bytes stored from [s] on, the NUL included *)
Fixpoint strcpy (t : list Z) : option (list Z) :=
  match t with
  | [] => None
  | c :: t' => if c =? 0 then Some [0] else (fun l => c :: l) <$> strcpy t'
  end.

(** ulib.c:strcmp *)
Fixpoint strcmp (p q : list Z) : option Z :=
  match p, q with
  | c :: p', d :: q' => if negb (c =? 0) && (c =? d) then strcmp p' q' else Some (c - d)
  | _, _ => None
  end.

(** ulib.c:strlen *)
Fixpoint strlen (s : list Z) : option Z :=
  match s with
  | [] => None
  | c :: s' => if c =? 0 then Some 0 else (fun n => 1 + n) <$> strlen s'
  end.

(** ulib.c:strchr: [Some None] is the null pointer, [Some (Some i)] is [s + i]. *)
Fixpoint strchr (s : list Z) (c : Z) : option (option nat) :=
  match s with
  | [] => None
  | x :: s' =>
      if x =? 0 then Some None
      else if x =? c then Some (Some O)
      else option_map S <$> strchr s' c
  end.

(** ulib.c:memmove copies upwards only: [mem] is the memory, [dst] and [src]
    are offsets in it. *)
Fixpoint memmove (n dst src : nat) (mem : list Z) : option (list Z) :=
  match n with
  | O => Some mem
  | S n' =>
      match mem !! src with
      | Some b => if decide (dst < length mem)%nat
                  then memmove n' (S dst) (S src) (<[dst := b]> mem) else None
      | None => None
      end
  end.

(** ulib.c:gets, given what successive one-byte reads of standard input return
    ([None] for end of file or an error): the bytes stored in [buf], and the
    input left. *)
Fixpoint gets_loop (fuel : nat) (i max : Z) (input : list Z) : list Z * list Z :=
  match fuel with
  | O => ([], input)
  | S fuel' =>
      if i + 1 <? max then
        match input with
        | [] => ([], [])
        | c :: input' =>
            if (c =? 10) || (c =? 13) then ([c], input')
            else let '(l, rest) := gets_loop fuel' (i + 1) max input' in (c :: l, rest)
        end
      else ([], input)
  end.

Definition gets (max : Z) (input : list Z) : list Z * list Z :=
  let '(l, rest) := gets_loop (Z.to_nat max) 0 max input in (l ++ [0], rest).

(** ** Numbers *)

(** ulib.c:atoi: [n] is a 32-bit int, and its arithmetic is that of the machine
    (as in [-xx] of printint below): it wraps. *)
Fixpoint atoi_loop (n : Z) (s : list Z) : option Z :=
  match s with
  | [] => None
  | c :: s' =>
      if (48 <=? c) && (c <=? 57) then
        atoi_loop (s32 (n * 10 + c - 48)) s'
      else Some n
  end.

Definition atoi (s : list Z) : option Z := atoi_loop 0 s.

(** printf.c: [digits] *)
Definition digits : list Z := [48; 49; 50; 51; 52; 53; 54; 55; 56; 57; 65; 66; 67; 68; 69; 70].

(** printf.c:printint: the loop that fills [buf] from the least significant
    digit; [buf] has 16 bytes, a seventeenth is outside it. *)
Fixpoint printint_loop (fuel : nat) (x base : Z) : option (list Z) :=
  match fuel with
  | O => None
  | S fuel' =>
      d ← zget digits (x mod base);
      if x / base =? 0 then Some [d]
      else l ← printint_loop fuel' (x / base) base; Some (d :: l)
  end.

(** printf.c:printint: what it writes; [xx] is an int. *)
Definition printint (xx base : Z) (sgn : bool) : option (list Z) :=
  let neg := sgn && (xx <? 0) in
  let x := if neg then u32 (- xx) else u32 xx in
  l ← printint_loop 16 x base;
  let buf := if neg then l ++ [45] else l in
  if zlen buf <=? 16 then Some (reverse buf) else None.

(** printf.c:printf: the arguments are the words on the stack after [fmt];
    [str] gives the string an address points to.  [None] is a read of a missing
    argument. *)
Inductive pstate := Plain | Percent.

Fixpoint printf_loop (str : Z -> option (list Z)) (st : pstate) (fmt ap : list Z) : option (list Z) :=
  match fmt with
  | [] => None
  | c :: fmt' =>
      if c =? 0 then Some []
      else
        match st with
        | Plain =>
            if c =? 37 then printf_loop str Percent fmt' ap
            else (fun o => c :: o) <$> printf_loop str Plain fmt' ap
        | Percent =>
            if c =? 100 then
              match ap with
              | a :: ap' => l ← printint (s32 a) 10 true;
                            (fun o => l ++ o) <$> printf_loop str Plain fmt' ap'
              | [] => None
              end
            else if (c =? 120) || (c =? 112) then
              match ap with
              | a :: ap' => l ← printint (s32 a) 16 false;
                            (fun o => l ++ o) <$> printf_loop str Plain fmt' ap'
              | [] => None
              end
            else if c =? 115 then
              match ap with
              | a :: ap' =>
                  l ← (if a =? 0 then Some [40; 110; 117; 108; 108; 41] else str a);
                  (fun o => l ++ o) <$> printf_loop str Plain fmt' ap'
              | [] => None
              end
            else if c =? 99 then
              match ap with
              | a :: ap' => (fun o => u8 a :: o) <$> printf_loop str Plain fmt' ap'
              | [] => None
              end
            else if c =? 37 then (fun o => c :: o) <$> printf_loop str Plain fmt' ap
            else (fun o => 37 :: c :: o) <$> printf_loop str Plain fmt' ap
        end
  end.

Definition printf (str : Z -> option (list Z)) (fmt ap : list Z) : option (list Z) :=
  printf_loop str Plain fmt ap.

(** ** Decimal output read back *)

Definition is_digit (c : Z) : Prop := 48 <= c <= 57.

(** The number a string of decimal digits denotes, least significant first *)
Definition dec_val (l : list Z) : Z := foldr (fun c n => n * 10 + c - 48) 0 l.

Lemma zget_digit d : 0 <= d < 10 -> zget digits d = Some (48 + d).
Proof.
  intros H.
  assert (d = 0 \/ d = 1 \/ d = 2 \/ d = 3 \/ d = 4 \/ d = 5 \/ d = 6 \/ d = 7 \/ d = 8 \/ d = 9)
    as Hd by lia.
  repeat (destruct Hd as [-> | Hd]; [done|]). by subst d.
Qed.

Lemma zget_hex d : 0 <= d < 16 -> is_Some (zget digits d).
Proof.
  intros H. apply zget_lt. done.
Qed.

(** A number below [base ^ k] takes at most [k] digits. *)
Lemma printint_loop_fits k : forall f x base, 2 <= base <= 16 -> 0 <= x < base ^ Z.of_nat k ->
  (0 < k <= f)%nat -> exists l, printint_loop f x base = Some l /\ zlen l <= Z.of_nat k.
Proof.
  induction k as [|k IH]; intros f x base Hb Hx Hf; [lia|]. destruct f as [|f]; [lia|].
  assert (0 <= x mod base < base) by (apply Z.mod_pos_bound; lia).
  destruct (zget_hex (x mod base)) as [d Hd]; [lia|]. cbn [printint_loop]. rewrite Hd.
  cbn [mbind option_bind]. destruct (Z.eqb_spec (x / base) 0) as [E|E].
  - exists [d]. split; [done|]. unfold zlen. cbn [length]. lia.
  - rewrite Nat2Z.inj_succ, Z.pow_succ_r in Hx by lia.
    assert (Hlt : 0 <= x / base < base ^ Z.of_nat k).
    { split; [apply Z.div_pos; lia|apply Z.div_lt_upper_bound; lia]. }
    destruct k as [|k']; [change (base ^ Z.of_nat 0) with 1 in Hlt; lia|].
    destruct (IH f (x / base) base Hb Hlt) as (l & E1 & Hl); [lia|].
    exists (d :: l). rewrite E1. split; [done|]. rewrite zlen_cons. lia.
Qed.

Lemma printint_loop_dec f : forall x l, 0 <= x -> printint_loop f x 10 = Some l ->
  Forall is_digit l /\ dec_val l = x.
Proof.
  induction f as [|f IH]; intros x l Hx; cbn [printint_loop]; [done|].
  rewrite zget_digit by (apply Z.mod_pos_bound; lia). cbn [mbind option_bind].
  assert (0 <= x mod 10 < 10) by (apply Z.mod_pos_bound; lia).
  pose proof (Z.div_mod x 10 ltac:(lia)).
  destruct (Z.eqb_spec (x / 10) 0) as [E|E].
  - intros [= <-]. split; [by repeat constructor; lia|]. unfold dec_val. cbn [foldr]. lia.
  - destruct (printint_loop f (x / 10) 10) as [l'|] eqn:E'; [|done]. intros [= <-].
    destruct (IH _ _ (Z.div_pos x 10 Hx ltac:(lia)) E') as [Hd Hv].
    split; [constructor; [unfold is_digit; lia|done]|].
    unfold dec_val in *. cbn [foldr]. rewrite Hv. lia.
Qed.

Lemma dec_foldl_ge l : forall n, Forall is_digit l -> 0 <= n ->
  n <= foldl (fun n c => n * 10 + c - 48) n l.
Proof.
  induction l as [|c l IH]; intros n Hl Hn; cbn [foldl]; [lia|].
  inversion_clear Hl as [|? ? Hc Hl']. unfold is_digit in Hc.
  specialize (IH (n * 10 + c - 48) Hl' ltac:(lia)). lia.
Qed.

Lemma atoi_digits l : forall n rest, Forall is_digit l -> 0 <= n ->
  foldl (fun n c => n * 10 + c - 48) n l < 2 ^ 31 ->
  atoi_loop n (l ++ 0 :: rest) = Some (foldl (fun n c => n * 10 + c - 48) n l).
Proof.
  induction l as [|c l IH]; intros n rest Hl Hn Hlt; cbn [app atoi_loop foldl]; [done|].
  inversion_clear Hl as [|? ? Hc Hl']. unfold is_digit in Hc. cbn [foldl] in Hlt.
  rewrite (proj2 (Z.leb_le 48 c)), (proj2 (Z.leb_le c 57)) by lia. cbn [andb].
  pose proof (dec_foldl_ge l (n * 10 + c - 48) Hl' ltac:(lia)).
  rewrite s32_id by lia. apply IH; [done|lia|done].
Qed.

(** What is left of the 16 bytes of [buf] after the digits of a 32-bit number:
    room for the sign *)
Lemma printint_run xx base sgn :
  base = 10 \/ base = 16 -> exists l,
    printint_loop 16 (if sgn && (xx <? 0) then u32 (- xx) else u32 xx) base = Some l /\
    printint xx base sgn = Some (reverse (if sgn && (xx <? 0) then l ++ [45] else l)) /\
    zlen l <= 10.
Proof.
  intros Hb. unfold printint.
  set (x := if sgn && (xx <? 0) then u32 (- xx) else u32 xx).
  assert (Hr : 0 <= x < 2 ^ 32) by (subst x; destruct (_ && _); apply u32_range).
  destruct (printint_loop_fits 10 16 x base) as (l & E & Hl).
  { destruct Hb as [-> | ->]; lia. }
  { destruct Hb as [-> | ->]; cbn; lia. }
  { lia. }
  exists l. split; [done|]. split; [|lia]. rewrite E. cbn [mbind option_bind].
  rewrite (proj2 (Z.leb_le _ _)); [done|].
  unfold zlen in *. destruct (_ && _); [rewrite length_app; cbn [length]|]; lia.
Qed.

(** printint never overruns its 16-byte buffer.  Every int is written, in
    the two bases printf uses, signed or not, the most negative int included,
    with at most a sign and ten digits. *)
Theorem printint_fits xx base sgn :
  base = 10 \/ base = 16 -> exists l, printint xx base sgn = Some l /\ zlen l <= 11.
Proof.
  intros Hb. destruct (printint_run xx base sgn Hb) as (l & _ & E & Hl).
  eexists. split; [exact E|]. unfold zlen in *. rewrite length_reverse.
  destruct (_ && _); [rewrite length_app; cbn [length]|]; lia.
Qed.

Lemma printint_fits_witness : exists l, printint (- 2 ^ 31) 10 true = Some l /\ zlen l <= 11.
Proof. apply (printint_fits (- 2 ^ 31) 10 true). by left. Defined.

(** A decimal number printed with printf's %d and read back with atoi is the
    same number: the sign is a leading minus, and atoi of the digits is the
    absolute value, for every int but the most negative one (whose absolute
    value is not an int). *)
Theorem printint_atoi n rest :
  - 2 ^ 31 < n < 2 ^ 31 ->
  exists l, printint n 10 true = Some (if n <? 0 then 45 :: l else l) /\
    atoi (l ++ 0 :: rest) = Some (Z.abs n).
Proof.
  intros Hn. destruct (printint_run n 10 true (or_introl eq_refl)) as (l & E & -> & _).
  assert (Hx : 0 <= (if true && (n <? 0) then u32 (- n) else u32 n)) by (destruct (_ && _); apply u32_range).
  destruct (printint_loop_dec 16 _ _ Hx E) as [Hd Hv].
  assert (Hv' : dec_val l = Z.abs n).
  { rewrite Hv. cbn [andb]. destruct (Z.ltb_spec n 0); rewrite u32_small by lia; lia. }
  exists (reverse l). split.
  - cbn [andb]. destruct (n <? 0); [by rewrite reverse_snoc|done].
  - unfold atoi, dec_val in *. assert (Hf : foldl (fun n c => n * 10 + c - 48) 0 (reverse l) = Z.abs n).
    { rewrite <- Hv'. clear. induction l as [|c l IH]; [done|]. rewrite reverse_cons, foldl_snoc, IH. done. }
    rewrite atoi_digits; [by rewrite Hf|by apply Forall_reverse|lia|rewrite Hf; lia].
Qed.

Lemma printint_atoi_witness : exists l, printint (-407) 10 true = Some (45 :: l) /\
  atoi (l ++ [0]) = Some 407.
Proof. apply (printint_atoi (-407) []). lia. Defined.

End Ulib.
