(* ===== verification/Console.v ===== *)
(** * console.c, kbd.c and uart.c: the console

    Bytes of the keyboard become characters, characters edit the input ring,
    and output goes to the screen and the serial port.  The devices are the
    bytes that wait in them, what was sent to the serial port, and the cells of
    the screen with the cursor.  Reading the ring is [Fs.consoleread]. *)
From S2P Require Import Prelude Words Params Core Fs Ulib.

Module Console.

(** ** State *)

(** [k_pending]: the bytes of the keyboard controller; [k_shift]: the static
    variable of kbdgetc; [k_serial] and [k_sent]: the serial port, [k_port]
    when there is one; [k_wakes] and [k_dumps]: calls of wakeup(&input.r) and
    of procdump. *)
Record cons := mkCons {
  k_input : input; k_pending : list Z; k_shift : Z; k_port : bool; k_serial : list Z; k_sent : list Z;
  k_crt : list Z; k_pos : Z; k_panicked : bool; k_wakes : nat; k_dumps : nat }.

Definition set_input (v : input) (s : cons) : cons :=
  mkCons v (k_pending s) (k_shift s) (k_port s) (k_serial s) (k_sent s) (k_crt s) (k_pos s) (k_panicked s) (k_wakes s) (k_dumps s).
Definition set_kbd (l : list Z) (sh : Z) (s : cons) : cons :=
  mkCons (k_input s) l sh (k_port s) (k_serial s) (k_sent s) (k_crt s) (k_pos s) (k_panicked s) (k_wakes s) (k_dumps s).
Definition set_serial (l : list Z) (s : cons) : cons :=
  mkCons (k_input s) (k_pending s) (k_shift s) (k_port s) l (k_sent s) (k_crt s) (k_pos s) (k_panicked s) (k_wakes s) (k_dumps s).
Definition set_sent (l : list Z) (s : cons) : cons :=
  mkCons (k_input s) (k_pending s) (k_shift s) (k_port s) (k_serial s) l (k_crt s) (k_pos s) (k_panicked s) (k_wakes s) (k_dumps s).
Definition set_screen (l : list Z) (p : Z) (s : cons) : cons :=
  mkCons (k_input s) (k_pending s) (k_shift s) (k_port s) (k_serial s) (k_sent s) l p (k_panicked s) (k_wakes s) (k_dumps s).
Definition set_calls (w d : nat) (s : cons) : cons :=
  mkCons (k_input s) (k_pending s) (k_shift s) (k_port s) (k_serial s) (k_sent s) (k_crt s) (k_pos s) (k_panicked s) w d.

(** ** kbd.h *)

Definition SHIFT : Z := 1.
Definition CTL : Z := 2.
Definition ALT : Z := 4.
Definition CAPSLOCK : Z := 8.
Definition NUMLOCK : Z := 16.
Definition SCROLLLOCK : Z := 32.
Definition E0ESC : Z := 64.

(** C(x) *)
Definition C (x : Z) : Z := x - 64.

(** An array of 256 bytes: a first part, and entries at given places *)
Definition table (front : list Z) (l : list (Z * Z)) : list Z :=
  foldl (fun t e => zset t e.1 (u8 e.2)) ((u8 <$> front) ++ replicate (256 - length front) 0) l.

Definition shiftcode : list Z := table [] [(29, CTL); (42, SHIFT); (54, SHIFT); (56, ALT); (157, CTL); (184, ALT)].
Definition togglecode : list Z := table [] [(58, CAPSLOCK); (69, NUMLOCK); (70, SCROLLLOCK)].

(** The keys of the cursor block *)
Definition cursor_keys : list (Z * Z) :=
  [(200, 226); (208, 227); (201, 230); (209, 231); (203, 228); (205, 229); (151, 224); (207, 225); (210, 232); (211, 233)].

Definition normalmap : list Z := table
  [ 0; 27; 49; 50; 51; 52; 53; 54;  55; 56; 57; 48; 45; 61; 8; 9;
    113; 119; 101; 114; 116; 121; 117; 105;  111; 112; 91; 93; 10; 0; 97; 115;
    100; 102; 103; 104; 106; 107; 108; 59;  39; 96; 0; 92; 122; 120; 99; 118;
    98; 110; 109; 44; 46; 47; 0; 42;  0; 32; 0; 0; 0; 0; 0; 0;
    0; 0; 0; 0; 0; 0; 0; 55;  56; 57; 45; 52; 53; 54; 43; 49;
    50; 51; 48; 46; 0; 0; 0; 0 ]
  ((156, 10) :: (181, 47) :: cursor_keys).

Definition shiftmap : list Z := table
  [ 0; 27; 33; 64; 35; 36; 37; 94;  38; 42; 40; 41; 95; 43; 8; 9;
    81; 87; 69; 82; 84; 89; 85; 73;  79; 80; 123; 125; 10; 0; 65; 83;
    68; 70; 71; 72; 74; 75; 76; 58;  34; 126; 0; 124; 90; 88; 67; 86;
    66; 78; 77; 60; 62; 63; 0; 42;  0; 32; 0; 0; 0; 0; 0; 0;
    0; 0; 0; 0; 0; 0; 0; 55;  56; 57; 45; 52; 53; 54; 43; 49;
    50; 51; 48; 46; 0; 0; 0; 0 ]
  ((156, 10) :: (181, 47) :: cursor_keys).

Definition ctlmap : list Z := table
  [ 0; 0; 0; 0; 0; 0; 0; 0;  0; 0; 0; 0; 0; 0; 0; 0;
    C 81; C 87; C 69; C 82; C 84; C 89; C 85; C 73;  C 79; C 80; 0; 0; 13; 0; C 65; C 83;
    C 68; C 70; C 71; C 72; C 74; C 75; C 76; 0;  0; 0; 0; C 92; C 90; C 88; C 67; C 86;
    C 66; C 78; C 77; 0; 0; C 47; 0; 0 ]
  ((156, 13) :: (181, C 47) :: cursor_keys).

(** ** kbd.c and uart.c *)

Definition charcode : list (list Z) := [normalmap; shiftmap; ctlmap; ctlmap].

(** kbdgetc after a key is pressed: the character *)
Definition key_char (shift data : Z) : option Z :=
  m ← zget charcode (Z.land shift (Z.lor CTL SHIFT));
  c ← zget m data;
  Some (if negb (Z.land shift CAPSLOCK =? 0) then
          if (97 <=? c) && (c <=? 122) then u32 (c + (65 - 97))
          else if (65 <=? c) && (c <=? 90) then u32 (c + (97 - 65)) else c
        else c).

(** kbd.c:kbdgetc; the result is an int. *)
Definition kbdgetc : M cons Z :=
  s <- gets id ;;
  match k_pending s with
  | [] => ret (-1)
  | data :: rest =>
      let shift := k_shift s in
      if data =? 224 then modify (set_kbd rest (Z.lor shift E0ESC)) ;; ret 0
      else if negb (Z.land data 128 =? 0) then
        let data := if negb (Z.land shift E0ESC =? 0) then data else Z.land data 127 in
        sc <- aget shiftcode data ;;
        modify (set_kbd rest (Z.land shift (u32 (Z.lnot (Z.lor sc E0ESC))))) ;;
        ret 0
      else
        let esc := negb (Z.land shift E0ESC =? 0) in
        let data := if esc then Z.lor data 128 else data in
        let shift := if esc then Z.land shift (u32 (Z.lnot E0ESC)) else shift in
        sc <- aget shiftcode data ;;
        tc <- aget togglecode data ;;
        let shift := Z.lxor (Z.lor shift sc) tc in
        modify (set_kbd rest shift) ;;
        c <- from_option_undef (key_char shift data) ;;
        ret (s32 c)
  end.

(** uart.c:uartgetc *)
Definition uartgetc : M cons Z :=
  s <- gets id ;;
  if negb (k_port s) then ret (-1)
  else match k_serial s with
       | [] => ret (-1)
       | c :: rest => modify (set_serial rest) ;; ret c
       end.

(** uart.c:uartputc; the byte is sent in the end. *)
Definition uartputc (c : Z) : M cons unit :=
  s <- gets id ;;
  if negb (k_port s) then ret tt else modify (set_sent (k_sent s ++ [u8 c])).

(** ** Output *)

Definition BACKSPACE : Z := 256.

(** cgaputc on the cells of the screen and the cursor *)
Definition cgaputc (c : Z) : M cons unit :=
  s <- gets id ;;
  let pos := k_pos s in
  let* (crt, pos) :=
    (if c =? 10 then ret (k_crt s, pos + (80 - Z.rem pos 80))
     else if c =? BACKSPACE then ret (k_crt s, if pos >? 0 then pos - 1 else pos)
     else
       if decide (0 <= pos < zlen (k_crt s)) then ret (zset (k_crt s) pos (Z.lor (Z.land c 255) 1792), pos + 1) else undef) in
  if (pos <? 0) || (pos >? 25 * 80) then panic "pos under/overflow"
  else
    let* (crt, pos) :=
      (if Z.quot pos 80 >=? 24 then
         let pos := pos - 80 in
         let n := (23 * 80)%nat in
         if decide (80 + 23 * 80 <= zlen crt /\ 24 * 80 <= zlen crt) then
           let crt := splice 0 (slice 80 n crt) crt in
           ret (splice (Z.to_nat pos) (replicate (Z.to_nat (24 * 80 - pos)) 0) crt, pos)
         else undef
       else ret (crt, pos)) in
    if decide (0 <= pos < zlen crt) then modify (set_screen (zset crt pos (Z.lor 32 1792)) pos) else undef.

(** A panicked console spins. *)
Definition consputc (c : Z) : M cons unit :=
  s <- gets id ;;
  if k_panicked s then sleep_forever
  else
    (if c =? BACKSPACE then uartputc 8 ;; uartputc 32 ;; uartputc 8 else uartputc c) ;;
    cgaputc c.

Fixpoint cputs (l : list Z) : M cons unit :=
  match l with [] => ret tt | c :: l' => consputc c ;; cputs l' end.

(** console.c:printint; its digits are lower case. *)
Definition digits : list Z := [48; 49; 50; 51; 52; 53; 54; 55; 56; 57; 97; 98; 99; 100; 101; 102].

Fixpoint printint_loop (fuel : nat) (x base : Z) : option (list Z) :=
  match fuel with
  | O => None
  | S fuel' =>
      d ← zget digits (x mod base);
      if x / base =? 0 then Some [d] else l ← printint_loop fuel' (x / base) base; Some (d :: l)
  end.

Definition printint (xx base : Z) (sign : bool) : M cons unit :=
  let neg := sign && (xx <? 0) in
  let x := if neg then u32 (- xx) else u32 xx in
  l <- from_option_undef (printint_loop 16 x base) ;;
  let buf := if neg then l ++ [45] else l in
  if zlen buf <=? 16 then cputs (reverse buf) else undef.

(** The loop of cprintf; [str] are the strings in memory, an argument that is
    missing or a string that does not end is undefined. *)
Fixpoint cprintf_loop (str : Z -> option (list Z)) (fuel : nat) (fmt ap : list Z) : M cons unit :=
  match fuel with
  | O => undef
  | S fuel' =>
      match fmt with
      | [] => undef
      | c :: fmt' =>
          if c =? 0 then ret tt
          else if negb (c =? 37) then consputc c ;; cprintf_loop str fuel' fmt' ap
          else
            match fmt' with
            | [] => undef
            | c :: fmt' =>
                if c =? 0 then ret tt
                else if c =? 100 then
                  match ap with [] => undef | a :: ap' => printint (s32 a) 10 true ;; cprintf_loop str fuel' fmt' ap' end
                else if (c =? 120) || (c =? 112) then
                  match ap with [] => undef | a :: ap' => printint (s32 a) 16 false ;; cprintf_loop str fuel' fmt' ap' end
                else if c =? 115 then
                  match ap with
                  | [] => undef
                  | a :: ap' =>
                      l <- from_option_undef (if a =? 0 then Some [40; 110; 117; 108; 108; 41] else str a) ;;
                      cputs l ;; cprintf_loop str fuel' fmt' ap'
                  end
                else if c =? 37 then consputc 37 ;; cprintf_loop str fuel' fmt' ap
                else consputc 37 ;; consputc c ;; cprintf_loop str fuel' fmt' ap
            end
      end
  end.

Definition cprintf (str : Z -> option (list Z)) (fmt ap : list Z) : M cons unit := cprintf_loop str (length fmt) fmt ap.

(** ** Input *)

Definition set_e (v : Z) (i : input) : input := mkInput (in_buf i) (in_r i) (in_w i) v.
Definition at_e (i : input) : Z := u32 (in_e i - 1) mod Fs.INPUT_BUF.

(** The loop of consoleintr that kills the line *)
Fixpoint kill_line (fuel : nat) : M cons unit :=
  i <- gets k_input ;;
  if in_e i =? in_w i then ret tt
  else
    c <- aget (in_buf i) (at_e i) ;;
    if c =? 10 then ret tt
    else match fuel with
         | O => undef
         | S fuel' => modify (set_input (set_e (u32 (in_e i - 1)) i)) ;; consputc BACKSPACE ;; kill_line fuel'
         end.

(** The switch of consoleintr; the result is [doprocdump]. *)
Definition console_char (c : Z) : M cons bool :=
  i <- gets k_input ;;
  if c =? C 80 then ret true
  else if c =? C 85 then kill_line (Z.to_nat Fs.INPUT_BUF) ;; ret false
  else if (c =? C 72) || (c =? 127) then
    whenM (negb (in_e i =? in_w i)) (modify (set_input (set_e (u32 (in_e i - 1)) i)) ;; consputc BACKSPACE) ;;
    ret false
  else
    (if negb (c =? 0) && (u32 (in_e i - in_r i) <? Fs.INPUT_BUF) then
       let c := if c =? 13 then 10 else c in
       let i := mkInput (zset (in_buf i) (in_e i mod Fs.INPUT_BUF) (u8 c)) (in_r i) (in_w i) (u32 (in_e i + 1)) in
       modify (set_input i) ;;
       consputc c ;;
       whenM ((c =? 10) || (c =? C 68) || (in_e i =? u32 (in_r i + Fs.INPUT_BUF)))
         (s <- gets id ;;
          modify (set_input (mkInput (in_buf i) (in_r i) (in_e i) (in_e i))) ;;
          modify (set_calls (S (k_wakes s)) (k_dumps s)))
     else ret tt) ;;
    ret false.

Fixpoint consoleintr_loop (getc : M cons Z) (fuel : nat) (dump : bool) : M cons bool :=
  c <- getc ;;
  if c <? 0 then ret dump
  else match fuel with
       | O => undef
       | S fuel' => d <- console_char c ;; consoleintr_loop getc fuel' (dump || d)
       end.

(** consoleintr: [fuel] is the number of bytes that wait in the device. *)
Definition consoleintr (getc : M cons Z) (fuel : nat) : M cons unit :=
  d <- consoleintr_loop getc fuel false ;;
  whenM d (s <- gets id ;; modify (set_calls (k_wakes s) (S (k_dumps s)))).

Definition kbdintr : M cons unit := n <- gets (fun s => length (k_pending s)) ;; consoleintr kbdgetc n.
Definition uartintr : M cons unit := n <- gets (fun s => length (k_serial s)) ;; consoleintr uartgetc n.

(** Shift, "a" and a cursor key *)
Definition k0 : cons := mkCons (mkInput (replicate 128 0) 0 0 0) [42; 30; 158; 170; 224; 72; 30] 0 true [] [] (replicate 2000 0) 0 false 0 0.
Example kbd_run : match kbdintr k0 with Ok _ s => (take 3 (in_buf (k_input s)), in_e (k_input s), k_sent s, k_pos s) = ([65; 226; 97], 3, [65; 226; 97], 3) | _ => False end.
Proof. by vm_compute. Qed.

End Console.
