(* ===== verification/ConsoleProps.v ===== *)
(** * The console: the screen, and what is typed is what is read

    The input ring holds the characters that can be read and the line that is
    being edited; the indices are unsigned and wrap. *)
From S2P Require Import Prelude Words Params Core Fs MemBlk Console.

Module ConsoleProps.
Import Console.

Set Default Proof Using "Type".

(** ** The screen *)

(** 25 lines of 80 cells, and a cursor above the last line *)
Definition screen_ok (s : cons) : Prop := zlen (k_crt s) = 25 * 80 /\ 0 <= k_pos s < 24 * 80 /\ k_panicked s = false.

(** Only the screen and the serial output change. *)
Definition output_only (s s' : cons) : Prop :=
  k_input s' = k_input s /\ k_pending s' = k_pending s /\ k_shift s' = k_shift s /\ k_serial s' = k_serial s /\ k_port s' = k_port s /\
  k_wakes s' = k_wakes s /\ k_dumps s' = k_dumps s.
#[export] Instance output_only_refl : Reflexive output_only.
Proof. by repeat split. Qed.
#[export] Instance output_only_trans : Transitive output_only.
Proof. intros s1 s2 s3 (?&?&?&?&?&?&?) (?&?&?&?&?&?&?). repeat split; congruence. Qed.

(** The tail of cgaputc: scrolling, and the cursor *)
Lemma screen_tail crt pos s : zlen crt = 25 * 80 -> 0 <= pos <= 24 * 80 -> k_panicked s = false ->
  exists s', (if (pos <? 0) || (pos >? 25 * 80) then panic "pos under/overflow"
  else
    let* (crt, pos) :=
      (if Z.quot pos 80 >=? 24 then
         let pos := pos - 80 in
         let n := (23 * 80)%nat in
         if decide (80 + 23 * 80 <= zlen crt /\ 24 * 80 <= zlen crt) then
           let crt := splice 0 (slice 80 n crt) crt in
           ret (splice (Z.to_nat pos) (replicate (Z.to_nat (24 * 80 - pos)) 0) crt, pos)
         else undef
       else ret (crt, pos)) in
    if decide (0 <= pos < zlen crt) then modify (set_screen (zset crt pos (Z.lor 32 1792)) pos) else undef) s = Ok tt s' /\
  screen_ok s' /\ output_only s s'.
Proof.
  intros Hl Hp Hk. destruct (Z.ltb_spec pos 0); [lia|]. destruct (Z.gtb_spec pos (25 * 80)); [lia|]. cbn [orb].
  rewrite Z.quot_div_nonneg by lia. destruct (Z.geb_spec (pos / 80) 24) as [Hge|Hlt].
  - assert (pos = 1920) as ->. { pose proof (Z.div_le_lower_bound pos 80 24). pose proof (Z.mul_div_le pos 80). lia. }
    cbn zeta. rewrite decide_True by lia. rewrite bind_ret_l. set (c1 := splice (Z.to_nat (1920 - 80)) _ _).
    assert (Hc1 : zlen c1 = 2000). { unfold c1, zlen in *. rewrite !length_splice; rewrite ?length_replicate, ?length_slice; rewrite ?length_splice; rewrite ?length_slice; lia. }
    rewrite decide_True by lia. eexists. split; [reflexivity|]. split; [|done]. split; [|split; [cbn; lia|done]]. cbn. unfold zlen in *. rewrite length_zset. lia.
  - rewrite bind_ret_l. rewrite decide_True by lia. eexists. split; [reflexivity|]. split; [|done]. split; [cbn; unfold zlen in *; rewrite length_zset; lia|].
    split; [|done]. cbn. pose proof (Z.div_mod pos 80 ltac:(done)). pose proof (Z.mod_pos_bound pos 80 ltac:(done)). lia.
Qed.

Lemma cgaputc_ok c s : screen_ok s -> exists s', cgaputc c s = Ok tt s' /\ screen_ok s' /\ output_only s s'.
Proof.
  intros (Hl & Hp & Hk). unfold cgaputc. rewrite gets_bind. cbn [id]. cbn zeta. destruct (c =? 10).
  { rewrite bind_ret_l. apply screen_tail; [done| |done]. rewrite Z.rem_mod_nonneg by lia.
    pose proof (Z.div_mod (k_pos s) 80 ltac:(done)). pose proof (Z.mod_pos_bound (k_pos s) 80 ltac:(done)). lia. }
  destruct (c =? BACKSPACE). { rewrite bind_ret_l. apply screen_tail; [done| |done]. destruct (Z.gtb_spec (k_pos s) 0); lia. }
  unfold id. rewrite decide_True by lia. rewrite bind_ret_l. apply screen_tail; [unfold zlen in *; by rewrite length_zset|lia|done].
Qed.

Lemma uartputc_ok c s : screen_ok s -> exists s', uartputc c s = Ok tt s' /\ screen_ok s' /\ output_only s s'.
Proof. intros Hs. unfold uartputc. rewrite gets_bind. unfold id. destruct (negb (k_port s)); [by exists s|]. eexists. split; [reflexivity|]. by repeat split; apply Hs. Qed.

Lemma consputc_ok c s : screen_ok s -> exists s', consputc c s = Ok tt s' /\ screen_ok s' /\ output_only s s'.
Proof.
  intros Hs. unfold consputc. rewrite gets_bind. unfold id at 1. pose proof Hs as (_ & _ & ->).
  assert (exists s1, (if c =? BACKSPACE then uartputc 8 ;; uartputc 32 ;; uartputc 8 else uartputc c) s = Ok tt s1 /\ screen_ok s1 /\ output_only s s1) as (s1 & E1 & H1 & O1).
  { destruct (c =? BACKSPACE); [|by apply uartputc_ok]. destruct (uartputc_ok 8 s Hs) as (s1 & E1 & H1 & O1). rewrite (bind_run _ _ _ _ _ E1).
    destruct (uartputc_ok 32 s1 H1) as (s2 & E2 & H2 & O2). rewrite (bind_run _ _ _ _ _ E2). destruct (uartputc_ok 8 s2 H2) as (s3 & E3 & H3 & O3).
    exists s3. split; [done|]. split; [done|]. by etransitivity; [etransitivity|]. }
  rewrite (bind_run _ _ _ _ _ E1). destruct (cgaputc_ok c s1 H1) as (s2 & E2 & H2 & O2). exists s2. split; [done|]. split; [done|]. by etransitivity.
Qed.

Lemma cputs_ok l : forall s, screen_ok s -> exists s', cputs l s = Ok tt s' /\ screen_ok s' /\ output_only s s'.
Proof.
  induction l as [|c l IH]; intros s Hs; [by exists s|]. cbn [cputs]. destruct (consputc_ok c s Hs) as (s1 & E1 & H1 & O1). rewrite (bind_run _ _ _ _ _ E1).
  destruct (IH s1 H1) as (s2 & E2 & H2 & O2). exists s2. split; [done|]. split; [done|]. by etransitivity.
Qed.

(** ** The ring *)

(** [ready] can be read, [ed] is the line that is being edited. *)
Record ring (i : input) (ready ed : list Z) : Prop := mkRing {
  g_len : length (in_buf i) = 128%nat;
  g_r : 0 <= in_r i < 2 ^ 32;
  g_w : in_w i = u32 (in_r i + zlen ready);
  g_e : in_e i = u32 (in_r i + zlen ready + zlen ed);
  g_fit : zlen ready + zlen ed <= 128;
  g_cells : forall k c, (ready ++ ed) !! k = Some c -> in_buf i !! Z.to_nat ((in_r i + Z.of_nat k) mod 128) = Some c;
  g_line : Forall (fun c => c <> 10) ed
}.

Lemma u32_eq x n : 0 <= n < 2 ^ 32 -> u32 (x + n) = u32 x -> n = 0.
Proof. intros Hn H. unfold u32 in H. assert (((x + n) - x) mod 2 ^ 32 = 0) by (rewrite Zminus_mod, H, Z.sub_diag; done). rewrite <- (Z.mod_small n (2 ^ 32)) by done. rewrite <- H0. f_equal. lia. Qed.

Lemma u32_diff x n : 0 <= n < 2 ^ 32 -> u32 (u32 (x + n) - x) = n.
Proof. intros Hn. unfold u32. rewrite Zminus_mod_idemp_l. replace (x + n - x) with n by lia. by apply Z.mod_small. Qed.

Lemma u32_pred x : u32 (u32 x - 1) = u32 (x - 1).
Proof. unfold u32. by rewrite Zminus_mod_idemp_l. Qed.

Lemma u32_succ x : u32 (u32 x + 1) = u32 (x + 1).
Proof. unfold u32. by rewrite Z.add_mod_idemp_l by done. Qed.

Lemma u32_mod128 x : u32 x mod 128 = x mod 128.
Proof. unfold u32. apply Z.mod_mod_divide. by exists (2 ^ 25). Qed.

Lemma index_lt x : (Z.to_nat (x mod 128) < 128)%nat.
Proof. pose proof (Z.mod_pos_bound x 128 ltac:(done)). lia. Qed.

(** Cells of different characters are different. *)
Lemma index_ne r a b : 0 <= a < 128 -> 0 <= b < 128 -> a <> b -> Z.to_nat ((r + a) mod 128) <> Z.to_nat ((r + b) mod 128).
Proof.
  intros Ha Hb Hne E. pose proof (Z.mod_pos_bound (r + a) 128 ltac:(done)). pose proof (Z.mod_pos_bound (r + b) 128 ltac:(done)).
  assert (E' : (r + a) mod 128 = (r + b) mod 128) by lia. assert (H2 : ((r + a) - (r + b)) mod 128 = 0) by (rewrite Zminus_mod, E', Z.sub_diag; done).
  apply Z.mod_divide in H2 as [q Hq]; [|done]. assert (q = 0) by lia. lia.
Qed.

Lemma ring_empty i ready ed : ring i ready ed -> (in_e i =? in_w i) = true <-> ed = [].
Proof.
  intros [H1 H2 H3 H4 H5 _ _]. rewrite Z.eqb_eq, H3, H4. pose proof (zlen_nonneg ready). pose proof (zlen_nonneg ed). split.
  - intros E. apply u32_eq in E; [|lia]. destruct ed; [done|]. unfold zlen in E. cbn in E. lia.
  - intros ->. by rewrite Z.add_0_r.
Qed.

(** The last character of the line, and the line without it *)
Lemma ring_last i ready ed c : ring i ready (ed ++ [c]) ->
  in_buf i !! Z.to_nat (at_e i) = Some c /\ ring (set_e (u32 (in_e i - 1)) i) ready ed /\ c <> 10.
Proof.
  intros [H1 H2 H3 H4 H5 H6 H7]. rewrite zlen_app in H4, H5. change (zlen [c]) with 1 in H4, H5.
  unfold at_e, Fs.INPUT_BUF. rewrite H4, u32_pred, u32_mod128. apply Forall_app in H7 as [H7 Hc]. apply Forall_cons in Hc as [Hc _]. split; [|split; [|exact Hc]].
  - replace (in_r i + zlen ready + (zlen ed + 1) - 1) with (in_r i + Z.of_nat (length (ready ++ ed))) by (rewrite length_app; unfold zlen; lia).
    apply H6. rewrite app_assoc. by apply list_lookup_middle.
  - split; cbn; [done|done|done| |lia| |done].
    + f_equal. lia.
    + intros k x Hx. apply H6. rewrite app_assoc. by apply lookup_app_l_Some.
Qed.

(** A character is added. *)
Lemma cells_push i ready ed c : ring i ready ed -> zlen ready + zlen ed < 128 ->
  in_e i mod Fs.INPUT_BUF = (in_r i + (zlen ready + zlen ed)) mod 128 /\ length (zset (in_buf i) (in_e i mod Fs.INPUT_BUF) c) = 128%nat /\
  u32 (in_e i + 1) = u32 (in_r i + (zlen ready + zlen ed + 1)) /\
  forall k x, ((ready ++ ed) ++ [c]) !! k = Some x -> zset (in_buf i) (in_e i mod Fs.INPUT_BUF) c !! Z.to_nat ((in_r i + Z.of_nat k) mod 128) = Some x.
Proof.
  intros [H1 H2 H3 H4 H5 H6 H7] Hlt. pose proof (zlen_nonneg ready). pose proof (zlen_nonneg ed). unfold Fs.INPUT_BUF, zset.
  assert (E : in_e i mod 128 = (in_r i + (zlen ready + zlen ed)) mod 128) by (rewrite H4, u32_mod128; f_equal; lia).
  split; [done|]. split; [by rewrite length_insert|]. split; [rewrite H4, u32_succ; f_equal; lia|].
  intros k x Hx. rewrite E. replace (zlen ready + zlen ed) with (Z.of_nat (length (ready ++ ed))) by (rewrite length_app; unfold zlen; lia).
  pose proof (length_app ready ed). unfold zlen in *. apply lookup_snoc_Some in Hx as [[Hk Hx]|[-> ->]].
  - rewrite list_lookup_insert_ne; [by apply H6|]. apply index_ne; lia.
  - rewrite list_lookup_insert_eq; [done|]. rewrite H1. apply index_lt.
Qed.

Lemma ring_push i ready ed c : ring i ready ed -> zlen ready + zlen ed < 128 -> c <> 10 ->
  ring (mkInput (zset (in_buf i) (in_e i mod Fs.INPUT_BUF) c) (in_r i) (in_w i) (u32 (in_e i + 1))) ready (ed ++ [c]).
Proof.
  intros Hr Hlt Hc. destruct (cells_push i ready ed c Hr Hlt) as (_ & P1 & P2 & P3). destruct Hr as [H1 H2 H3 H4 H5 H6 H7].
  split; cbn [in_buf in_r in_w in_e]; [exact P1|done|done| | | |].
  - rewrite P2, zlen_app. change (zlen [c]) with 1. f_equal. lia.
  - rewrite zlen_app. change (zlen [c]) with 1. lia.
  - by rewrite app_assoc.
  - apply Forall_app. split; [done|]. by apply Forall_singleton.
Qed.

Lemma ring_push_commit i ready ed c : ring i ready ed -> zlen ready + zlen ed < 128 ->
  ring (mkInput (zset (in_buf i) (in_e i mod Fs.INPUT_BUF) c) (in_r i) (u32 (in_e i + 1)) (u32 (in_e i + 1))) (ready ++ ed ++ [c]) [].
Proof.
  intros Hr Hlt. destruct (cells_push i ready ed c Hr Hlt) as (_ & P1 & P2 & P3). destruct Hr as [H1 H2 H3 H4 H5 H6 H7].
  split; cbn [in_buf in_r in_w in_e]; [exact P1|done| | | | |by constructor].
  - rewrite P2, !zlen_app. change (zlen [c]) with 1. f_equal. lia.
  - rewrite P2, !zlen_app. change (zlen [c]) with 1. change (zlen (@nil Z)) with 0. f_equal. lia.
  - rewrite !zlen_app. change (zlen [c]) with 1. change (zlen (@nil Z)) with 0. lia.
  - by rewrite app_nil_r, app_assoc.
Qed.

(** ** Editing *)

(** What a key does to what can be read and to the line *)
Definition edit (x : list Z * list Z) (c : Z) : list Z * list Z :=
  let '(ready, ed) := x in
  if c =? C 80 then x
  else if c =? C 85 then (ready, [])
  else if (c =? C 72) || (c =? 127) then (ready, take (length ed - 1) ed)
  else if (c =? 0) || (128 <=? zlen ready + zlen ed) then x
  else
    let c := if c =? 13 then 10 else c in
    if (c =? 10) || (c =? C 68) || (zlen ready + zlen ed + 1 =? 128) then (ready ++ ed ++ [c], []) else (ready, ed ++ [c]).

(** The input ring changes; the devices do not. *)
Definition input_step (x : list Z * list Z) (s s' : cons) : Prop :=
  screen_ok s' /\ ring (k_input s') x.1 x.2 /\ k_pending s' = k_pending s /\ k_shift s' = k_shift s /\ k_serial s' = k_serial s /\ k_port s' = k_port s.

Lemma input_step_output x s s1 s2 : input_step x s s1 -> screen_ok s2 -> output_only s1 s2 -> input_step x s s2.
Proof. intros (H1 & H2 & H3 & H4 & H5 & H6) Hs (O1 & O2 & O3 & O4 & O5 & _). rewrite <- O1 in H2. split; [exact Hs|]. split; [exact H2|]. repeat split; congruence. Qed.

(** The character before the editing end is inside the ring. *)
Lemma ring_char i c : in_buf i !! Z.to_nat (at_e i) = Some c -> zget (in_buf i) (at_e i) = Some c.
Proof. intros H. unfold zget. destruct (Z.ltb_spec (at_e i) 0) as [Hn|]; [|done]. unfold at_e in Hn. pose proof (Z.mod_pos_bound (u32 (in_e i - 1)) 128 ltac:(done)). unfold Fs.INPUT_BUF in *; lia. Qed.

(** The line is killed from its end. *)
Lemma kill_line_spec ready ed : forall fuel s, screen_ok s -> ring (k_input s) ready ed -> (length ed <= fuel)%nat ->
  exists s', kill_line fuel s = Ok tt s' /\ input_step (ready, []) s s'.
Proof.
  induction ed as [|c ed IH] using rev_ind; intros fuel s Hs Hr Hf.
  - exists s. assert (E : (in_e (k_input s) =? in_w (k_input s)) = true) by (by eapply ring_empty). destruct fuel; cbn [kill_line]; rewrite gets_bind, E; (split; [done|]); (split; [done|]); by (split; [done|]).
  - assert (E : (in_e (k_input s) =? in_w (k_input s)) = false).
    { destruct (in_e (k_input s) =? in_w (k_input s)) eqn:E; [|done]. apply (ring_empty _ _ _ Hr) in E. by destruct ed. }
    destruct (ring_last _ _ _ _ Hr) as (Hc & Hr1 & Hne). rewrite length_app in Hf. cbn in Hf. destruct fuel as [|fuel]; [lia|]. cbn [kill_line].
    rewrite gets_bind, E, (bind_run _ _ _ _ _ (aget_run _ _ s _ (ring_char _ _ Hc))), (proj2 (Z.eqb_neq c 10) Hne).
    set (s1 := set_input (set_e (u32 (in_e (k_input s) - 1)) (k_input s)) s). assert (Em : modify (set_input (set_e (u32 (in_e (k_input s) - 1)) (k_input s))) s = Ok tt s1) by done.
    rewrite (bind_run _ _ _ _ _ Em). assert (Hs1 : screen_ok s1) by apply Hs. destruct (consputc_ok BACKSPACE s1 Hs1) as (s2 & E2 & Hs2 & O2). rewrite (bind_run _ _ _ _ _ E2).
    destruct (IH fuel s2 Hs2) as (s3 & E3 & H3); [destruct O2 as [-> _]; exact Hr1|lia|]. exists s3. split; [done|].
    destruct O2 as (_ & O2 & O3 & O4 & O5 & _). destruct H3 as (A1 & A2 & A3 & A4 & A5 & A6). split; [done|]. split; [done|]. by rewrite A3, A4, A5, A6, O2, O3, O4, O5.
Qed.

Lemma edit_room ready ed c : c <> C 80 -> c <> C 85 -> c <> C 72 -> c <> 127 -> c <> 0 -> zlen ready + zlen ed < 128 ->
  edit (ready, ed) c = (let c := if c =? 13 then 10 else c in
    if (c =? 10) || (c =? C 68) || (zlen ready + zlen ed + 1 =? 128) then (ready ++ ed ++ [c], []) else (ready, ed ++ [c])).
Proof.
  intros H1 H2 H3 H4 H5 Hl. unfold edit. rewrite (proj2 (Z.eqb_neq c _) H1), (proj2 (Z.eqb_neq c _) H2), (proj2 (Z.eqb_neq c _) H3), (proj2 (Z.eqb_neq c _) H4), (proj2 (Z.eqb_neq c _) H5).
  by destruct (Z.leb_spec 128 (zlen ready + zlen ed)); [lia|].
Qed.

(** A key edits the line. *)
Lemma console_char_spec c s ready ed : 0 <= c < 256 -> screen_ok s -> ring (k_input s) ready ed ->
  exists s', console_char c s = Ok (c =? C 80) s' /\ input_step (edit (ready, ed) c) s s'.
Proof.
  intros Hc Hs Hr. unfold console_char. rewrite gets_bind. assert (Hsame : input_step (ready, ed) s s) by (split; [done|]; split; [done|]; by repeat split).
  destruct (Z.eqb_spec c (C 80)) as [->|H1]; [by exists s|]. destruct (Z.eqb_spec c (C 85)) as [->|H2].
  { destruct (kill_line_spec ready ed (Z.to_nat Fs.INPUT_BUF) s Hs Hr) as (s' & E & H); [pose proof (g_fit _ _ _ Hr); pose proof (zlen_nonneg ready); unfold zlen, Fs.INPUT_BUF in *; lia|].
    rewrite (bind_run _ _ _ _ _ E). by exists s'. }
  destruct ((c =? C 72) || (c =? 127)) eqn:Eb.
  { assert (Ee : edit (ready, ed) c = (ready, take (length ed - 1) ed)) by (unfold edit; by rewrite (proj2 (Z.eqb_neq c _) H1), (proj2 (Z.eqb_neq c _) H2), Eb). rewrite Ee.
    destruct ed as [|c' ed _] using rev_ind.
    - rewrite (proj2 (ring_empty _ _ _ Hr) eq_refl). cbn [negb whenM]. rewrite bind_ret_l. by exists s.
    - destruct (in_e (k_input s) =? in_w (k_input s)) eqn:E; [apply (ring_empty _ _ _ Hr) in E; by destruct ed|]. cbn [negb whenM].
      destruct (ring_last _ _ _ _ Hr) as (_ & Hr1 & _). set (s1 := set_input (set_e (u32 (in_e (k_input s) - 1)) (k_input s)) s).
      destruct (consputc_ok BACKSPACE s1 Hs) as (s2 & E2 & Hs2 & O2). exists s2. rewrite bind_assoc. split.
      + assert (Em : modify (set_input (set_e (u32 (in_e (k_input s) - 1)) (k_input s))) s = Ok tt s1) by done. by rewrite (bind_run _ _ _ _ _ Em), (bind_run _ _ _ _ _ E2).
      + rewrite length_app. cbn [length]. replace (length ed + 1 - 1)%nat with (length ed) by lia. rewrite take_app_length. eapply input_step_output; [|exact Hs2|exact O2].
        split; [exact Hs|]. split; [exact Hr1|]. by repeat split. }
  apply orb_false_iff in Eb as [H3 H4]. apply Z.eqb_neq in H3, H4.
  pose proof (g_fit _ _ _ Hr) as Hfit. pose proof (zlen_nonneg ready) as Hz1. pose proof (zlen_nonneg ed) as Hz2.
  assert (Hn : u32 (in_e (k_input s) - in_r (k_input s)) = zlen ready + zlen ed).
  { rewrite (g_e _ _ _ Hr), <- Z.add_assoc. apply u32_diff. lia. }
  rewrite Hn. destruct (Z.eqb_spec c 0) as [->|H5].
  { cbn [negb andb]. rewrite bind_ret_l. exists s. split; [done|exact Hsame]. }
  cbn [negb andb]. unfold Fs.INPUT_BUF. destruct (Z.ltb_spec (zlen ready + zlen ed) 128) as [Hlt|Hge].
  2:{ rewrite bind_ret_l. exists s. split; [done|]. unfold edit. rewrite (proj2 (Z.eqb_neq c _) H1), (proj2 (Z.eqb_neq c _) H2), (proj2 (Z.eqb_neq c _) H3), (proj2 (Z.eqb_neq c _) H4), (proj2 (Z.eqb_neq c _) H5).
      by destruct (Z.leb_spec 128 (zlen ready + zlen ed)); [|lia]. }
  rewrite edit_room by done. cbn zeta. set (c1 := if c =? 13 then 10 else c). assert (Hc1 : 0 <= c1 < 256) by (unfold c1; destruct (c =? 13); lia).
  assert (Hu : u8 c1 = c1) by (by apply Z.mod_small). rewrite Hu. rewrite bind_assoc. set (i1 := mkInput _ _ _ _). set (s1 := set_input i1 s).
  assert (Em : modify (set_input i1) s = Ok tt s1) by done. rewrite (bind_run _ _ _ _ _ Em). clear Em.
  destruct (consputc_ok c1 s1 Hs) as (s2 & E2 & Hs2 & O2). rewrite bind_assoc, (bind_run _ _ _ _ _ E2).
  assert (Hfull : (in_e i1 =? u32 (in_r i1 + 128)) = (zlen ready + zlen ed + 1 =? 128)).
  { destruct (cells_push _ _ _ c1 Hr Hlt) as (_ & _ & P & _). cbn [i1 in_e in_r]. rewrite P. apply eq_true_iff_eq. rewrite !Z.eqb_eq. split; [|by intros ->].
    intros E. replace (in_r (k_input s) + 128) with (in_r (k_input s) + (zlen ready + zlen ed + 1) + (127 - zlen ready - zlen ed)) in E by lia. symmetry in E. apply u32_eq in E; lia. }
  rewrite Hfull. destruct ((c1 =? 10) || (c1 =? C 68) || (zlen ready + zlen ed + 1 =? 128)) eqn:Eg; cbn [whenM].
  - rewrite bind_assoc, gets_bind, bind_assoc. eexists. split; [reflexivity|]. destruct O2 as (O2 & O3 & O4 & O5 & O6 & _).
    split; [exact Hs2|]. split; [exact (ring_push_commit _ _ _ c1 Hr Hlt)|]. repeat split; [exact O3|exact O4|exact O5|exact O6].
  - rewrite bind_ret_l. exists s2. split; [done|]. apply orb_false_iff in Eg as [Eg _]. apply orb_false_iff in Eg as [Eg _]. apply Z.eqb_neq in Eg.
    eapply input_step_output; [|exact Hs2|exact O2]. split; [exact Hs|]. split; [exact (ring_push _ _ _ c1 Hr Hlt Eg)|]. by repeat split.
Qed.

(** ** The serial port *)

Definition chars (l : list Z) : Prop := Forall (fun c => 0 <= c < 256) l.

Lemma input_step_trans x y s1 s2 s3 : input_step x s1 s2 -> input_step y s2 s3 -> input_step y s1 s3.
Proof. intros (_ & _ & A3 & A4 & A5 & A6) (B1 & B2 & B3 & B4 & B5 & B6). split; [done|]. split; [done|]. repeat split; congruence. Qed.

Lemma uart_loop_spec l : forall s dump ready ed, k_port s = true -> k_serial s = l -> chars l -> screen_ok s -> ring (k_input s) ready ed ->
  exists d s', consoleintr_loop uartgetc (length l) dump s = Ok d s' /\ screen_ok s' /\ k_serial s' = [] /\
    ring (k_input s') (foldl edit (ready, ed) l).1 (foldl edit (ready, ed) l).2.
Proof.
  induction l as [|c l IH]; intros s dump ready ed Hp Hl Hc Hs Hr; cbn [length consoleintr_loop].
  - assert (E : uartgetc s = Ok (-1) s) by (unfold uartgetc; rewrite gets_bind; unfold id; by rewrite Hp, Hl). rewrite (bind_run _ _ _ _ _ E). by exists dump, s.
  - assert (E : uartgetc s = Ok c (set_serial l s)) by (unfold uartgetc; rewrite gets_bind; unfold id; rewrite Hp, Hl; done). rewrite (bind_run _ _ _ _ _ E).
    apply Forall_cons in Hc as [Hc0 Hc]. destruct (Z.ltb_spec c 0); [lia|].
    destruct (console_char_spec c (set_serial l s) ready ed Hc0 Hs Hr) as (s1 & E1 & (S1 & R1 & _ & _ & L1 & P1)). rewrite (bind_run _ _ _ _ _ E1).
    destruct (IH s1 (dump || (c =? C 80)) (edit (ready, ed) c).1 (edit (ready, ed) c).2) as (d & s2 & E2 & H2); [by rewrite P1|by rewrite L1|done|done|done|].
    exists d, s2. split; [done|]. cbn [foldl]. by destruct (edit (ready, ed) c).
Qed.

Lemma uartintr_spec s ready ed : k_port s = true -> chars (k_serial s) -> screen_ok s -> ring (k_input s) ready ed ->
  exists s', uartintr s = Ok tt s' /\ screen_ok s' /\ k_serial s' = [] /\
    ring (k_input s') (foldl edit (ready, ed) (k_serial s)).1 (foldl edit (ready, ed) (k_serial s)).2.
Proof.
  intros Hp Hc Hs Hr. unfold uartintr, consoleintr. rewrite gets_bind.
  destruct (uart_loop_spec (k_serial s) s false ready ed Hp eq_refl Hc Hs Hr) as (d & s1 & E1 & H1 & H2 & H3). rewrite (bind_run _ _ _ _ _ E1).
  destruct d; cbn [whenM]; [rewrite gets_bind; eexists; split; [reflexivity|done]|by exists s1].
Qed.

(** ** Reading *)

(** What a read of [n] characters takes from [ready]; [None]: it sleeps for
    more.  The end-of-file character is taken when it comes first. *)
Fixpoint take_line (n : nat) (first : bool) (ready : list Z) : option (list Z * list Z) :=
  match n with
  | O => Some ([], ready)
  | S n' =>
      match ready with
      | [] => None
      | c :: ready' =>
          if c =? 4 then Some ([], if first then ready' else ready)
          else if c =? 10 then Some ([10], ready')
          else '(l, rest) ← take_line n' false ready'; Some (c :: l, rest)
      end
  end.

Section read.
Context {B : Type} `{!BlockLayer B}.

Lemma ring_shift i c ready ed : ring i (c :: ready) ed -> in_buf i !! Z.to_nat (in_r i mod 128) = Some c /\
  ring (Fs.set_in_r (u32 (in_r i + 1)) i) ready ed /\ (in_r i =? in_w i) = false.
Proof.
  intros [H1 H2 H3 H4 H5 H6 H7]. change (zlen (c :: ready)) with (zlen ([c] ++ ready)) in *. rewrite zlen_app in *. change (zlen [c]) with 1 in *.
  pose proof (zlen_nonneg ready). pose proof (zlen_nonneg ed). split; [|split].
  - replace (in_r i) with (in_r i + Z.of_nat 0) by lia. by apply H6.
  - assert (E : forall n, u32 (u32 (in_r i + 1) + n) = u32 (in_r i + (1 + n))) by (intros n; unfold u32; rewrite Z.add_mod_idemp_l by done; f_equal; lia).
    split; cbn; [done|apply u32_range| | |lia| |done].
    + by rewrite H3, E.
    + rewrite <- (Z.add_assoc (u32 _)), E, H4. f_equal. lia.
    + intros k x Hx. specialize (H6 (S k) x Hx). rewrite <- H6. do 2 f_equal. rewrite <- (u32_mod128 (in_r i + Z.of_nat (S k))), <- (u32_mod128 (u32 _ + _)), E. do 2 f_equal. lia.
  - apply Z.eqb_neq. rewrite H3. intros E. assert (Hu : u32 (in_r i) = in_r i) by (by apply u32_small). rewrite <- Hu in E at 1. symmetry in E. apply u32_eq in E; lia.
Qed.

Lemma consoleread_spec n : forall target acc (c : core B) ready ed bs rest, ring (c_input c) ready ed ->
  take_line n (negb (Z.of_nat n <? target)) ready = Some (bs, rest) -> Z.of_nat n <= target ->
  exists i, Fs.consoleread_loop n target acc c = Ok (true, acc ++ bs) (Core.set_input i c) /\ ring i rest ed.
Proof.
  induction n as [|n IH]; intros target acc c ready ed bs rest Hr Ht Hn; cbn [Fs.consoleread_loop take_line] in *.
  { injection Ht as <- <-. exists (c_input c). rewrite app_nil_r. split; [by destruct c|done]. }
  rewrite gets_bind. destruct ready as [|x ready]; [done|]. destruct (ring_shift _ _ _ _ Hr) as (Hx & Hr1 & Hne). rewrite Hne.
  unfold aget at 1, zget. unfold Fs.INPUT_BUF. destruct (Z.ltb_spec (in_r (c_input c) mod 128) 0) as [Hlt|_]; [pose proof (Z.mod_pos_bound (in_r (c_input c)) 128 ltac:(done)); lia|].
  rewrite Hx. cbn [from_option_undef]. rewrite bind_ret_l. set (i1 := Fs.set_in_r _ _) in *. set (c1 := Core.set_input i1 c).
  assert (Em : modify (fun s : core B => Core.set_input i1 s) c = Ok tt c1) by done. rewrite (bind_run _ _ _ _ _ Em). clear Em.
  destruct (x =? 4).
  - injection Ht as <- <-. rewrite app_nil_r. destruct (Z.of_nat (S n) <? target); cbn [negb whenM] in *.
    + exists (c_input c). split; [by destruct c|done].
    + exists i1. done.
  - destruct (x =? 10) eqn:E10; [apply Z.eqb_eq in E10 as ->; injection Ht as <- <-; by exists i1|].
    assert (Hn1 : negb (Z.of_nat n <? target) = false) by (destruct (Z.ltb_spec (Z.of_nat n) target); [done|lia]).
    destruct (take_line n false ready) as [[l rest']|] eqn:Et; [|done]. cbn in Ht. injection Ht as <- <-. rewrite <- Hn1 in Et.
    destruct (IH target (acc ++ [x]) c1 ready ed l rest' Hr1 Et ltac:(lia)) as (i & E & Hi). exists i. rewrite E, <- app_assoc. split; [by destruct c|done].
Qed.

End read.

(** ** The keyboard *)

(** One byte of the keyboard: the new modifiers and the character *)
Definition kbd_next (shift data : Z) : option (Z * Z) :=
  if data =? 224 then Some (Z.lor shift E0ESC, 0)
  else if negb (Z.land data 128 =? 0) then
    sc ← zget shiftcode (if negb (Z.land shift E0ESC =? 0) then data else Z.land data 127);
    Some (Z.land shift (u32 (Z.lnot (Z.lor sc E0ESC))), 0)
  else
    let esc := negb (Z.land shift E0ESC =? 0) in
    let data := if esc then Z.lor data 128 else data in
    sc ← zget shiftcode data;
    tc ← zget togglecode data;
    let shift := Z.lxor (Z.lor (if esc then Z.land shift (u32 (Z.lnot E0ESC)) else shift) sc) tc in
    c ← key_char shift data;
    Some (shift, s32 c).

Lemma kbdgetc_next s data rest : k_pending s = data :: rest ->
  kbdgetc s = match kbd_next (k_shift s) data with Some (sh, c) => Ok c (set_kbd rest sh s) | None => Undef end.
Proof.
  intros Hp. unfold kbdgetc, kbd_next. rewrite gets_bind. unfold id. rewrite Hp. destruct (data =? 224); [done|].
  destruct (negb (Z.land data 128 =? 0)).
  - unfold aget. by destruct (zget shiftcode _).
  - cbn zeta. unfold aget. destruct (zget shiftcode _) as [sc|]; [|done]. destruct (zget togglecode _) as [tc|]; [|done].
    cbn. destruct (key_char _ _); done.
Qed.

(** The modifiers stay in seven bits and the characters are bytes. *)
Definition kbd_check (shift data : Z) : bool :=
  match kbd_next shift data with Some (sh, c) => (0 <=? sh) && (sh <? 128) && (0 <=? c) && (c <? 256) | None => false end.

Lemma kbd_all : forallb (fun sh => forallb (kbd_check sh) (seqZ 0 256)) (seqZ 0 128) = true.
Proof. by vm_compute. Qed.

Lemma kbd_next_type shift data : 0 <= shift < 128 -> 0 <= data < 256 -> exists sh c, kbd_next shift data = Some (sh, c) /\ 0 <= sh < 128 /\ 0 <= c < 256.
Proof.
  intros Hs Hd. pose proof kbd_all as H. rewrite forallb_forall in H. specialize (H shift). rewrite <- list_elem_of_In, elem_of_seqZ in H. specialize (H ltac:(lia)).
  rewrite forallb_forall in H. specialize (H data). rewrite <- list_elem_of_In, elem_of_seqZ in H. specialize (H ltac:(lia)).
  unfold kbd_check in H. destruct (kbd_next shift data) as [[sh c]|]; [|done]. exists sh, c. split; [done|]. lia.
Qed.

Definition kbd_ok (s : cons) : Prop := 0 <= k_shift s < 128 /\ chars (k_pending s).

(** The characters of a sequence of bytes, and the modifiers after it *)
Fixpoint kbd_chars (shift : Z) (l : list Z) : list Z * Z :=
  match l with
  | [] => ([], shift)
  | d :: l' => let '(sh, c) := default (shift, 0) (kbd_next shift d) in (c :: (kbd_chars sh l').1, (kbd_chars sh l').2)
  end.

Lemma kbd_loop_spec l : forall s dump ready ed, k_pending s = l -> kbd_ok s -> screen_ok s -> ring (k_input s) ready ed ->
  let cs := (kbd_chars (k_shift s) l).1 in chars cs /\ length cs = length l /\
  exists d s', consoleintr_loop kbdgetc (length l) dump s = Ok d s' /\ screen_ok s' /\ kbd_ok s' /\ k_pending s' = [] /\
    ring (k_input s') (foldl edit (ready, ed) cs).1 (foldl edit (ready, ed) cs).2.
Proof.
  induction l as [|x l IH]; intros s dump ready ed Hl [Hsh Hk] Hs Hr; cbn [length consoleintr_loop kbd_chars].
  - split; [by constructor|]. split; [done|]. assert (E : kbdgetc s = Ok (-1) s) by (unfold kbdgetc; rewrite gets_bind; unfold id; by rewrite Hl).
    rewrite (bind_run _ _ _ _ _ E). exists dump, s. repeat split; try done; try apply Hs; try apply Hr; apply Hsh.
  - rewrite Hl in Hk. apply Forall_cons in Hk as [Hx Hk]. destruct (kbd_next_type _ _ Hsh Hx) as (sh & c & En & Hsh' & Hc).
    pose proof (kbdgetc_next s x l Hl) as E. rewrite En in E. rewrite (bind_run _ _ _ _ _ E), En. cbn [default fst snd]. unfold id. cbn [fst snd length].
    destruct (Z.ltb_spec c 0); [lia|]. destruct (console_char_spec c (set_kbd l sh s) ready ed Hc Hs Hr) as (s1 & E1 & (S1 & R1 & L1 & K1 & _)). rewrite (bind_run _ _ _ _ _ E1).
    cbn [set_kbd k_pending k_shift] in L1, K1.
    destruct (IH s1 (dump || (c =? C 80)) (edit (ready, ed) c).1 (edit (ready, ed) c).2 L1) as (C1 & C2 & d & s2 & E2 & H2); [split; [by rewrite K1|by rewrite L1]|done|done|].
    rewrite K1 in C1, C2, H2. split; [by apply Forall_cons|]. split; [by rewrite C2|]. exists d, s2. split; [done|]. cbn [foldl]. by destruct (edit (ready, ed) c).
Qed.

Lemma kbdintr_spec s ready ed (cs := (kbd_chars (k_shift s) (k_pending s)).1) : kbd_ok s -> screen_ok s -> ring (k_input s) ready ed ->
  exists s', kbdintr s = Ok tt s' /\ screen_ok s' /\ kbd_ok s' /\ k_pending s' = [] /\ ring (k_input s') (foldl edit (ready, ed) cs).1 (foldl edit (ready, ed) cs).2.
Proof.
  intros Hk Hs Hr. unfold kbdintr, consoleintr. rewrite gets_bind. destruct (kbd_loop_spec (k_pending s) s false ready ed eq_refl Hk Hs Hr) as (_ & _ & d & s1 & E1 & H1).
  rewrite (bind_run _ _ _ _ _ E1). destruct d; cbn [whenM]; [rewrite gets_bind; eexists; split; [reflexivity|exact H1]|by exists s1].
Qed.

(** ** Typing a line *)

(** A character that is not a command of the line editor *)
Definition plain (c : Z) : Prop := 0 < c < 256 /\ c ∉ [4; 8; 10; 13; 16; 21; 127].

Lemma edit_plain l : forall ready ed, Forall plain l -> zlen ready + zlen ed + zlen l < 128 -> foldl edit (ready, ed) l = (ready, ed ++ l).
Proof.
  induction l as [|c l IH]; intros ready ed Hp Hl; [by rewrite app_nil_r|]. apply Forall_cons in Hp as [[Hc Hne] Hp].
  change (c :: l) with ([c] ++ l) in Hl. rewrite zlen_app in Hl. change (zlen [c]) with 1 in Hl. pose proof (zlen_nonneg l). pose proof (zlen_nonneg ready). pose proof (zlen_nonneg ed).
  cbn [foldl]. rewrite edit_room; try (intros ->; set_solver); [|lia..]. cbn zeta. rewrite (proj2 (Z.eqb_neq c 13)) by (intros ->; set_solver).
  rewrite (proj2 (Z.eqb_neq c 10)), (proj2 (Z.eqb_neq c (C 68))), (proj2 (Z.eqb_neq _ 128)) by first [lia|intros ->; set_solver]. cbn [orb].
  rewrite IH; [by rewrite <- app_assoc|done|]. rewrite zlen_app. change (zlen [c]) with 1. lia.
Qed.

Lemma take_plain l : forall n first, Forall plain l -> (length l < n)%nat -> take_line n first (l ++ [10]) = Some (l ++ [10], []).
Proof.
  induction l as [|c l IH]; intros [|n] first Hp Hn; cbn in Hn; try lia; cbn [app take_line]; [done|]. apply Forall_cons in Hp as [[Hc Hne] Hp].
  rewrite (proj2 (Z.eqb_neq c 4)), (proj2 (Z.eqb_neq c 10)) by (intros ->; set_solver). rewrite IH by (done || lia). done.
Qed.

(** ** The theorems *)

(** C32: the keyboard is total.  For every byte of the keyboard controller and all
    modifiers kbdgetc reads inside its tables, returns a byte (-1 when nothing
    waits), and the modifiers stay in their seven bits. *)
Theorem kbdgetc_type s : kbd_ok s -> exists c s', kbdgetc s = Ok c s' /\ -1 <= c < 256 /\ (c = -1 <-> k_pending s = []) /\ kbd_ok s' /\
  k_pending s' = tail (k_pending s) /\ k_input s' = k_input s.
Proof.
  intros [Hsh Hk]. destruct (k_pending s) as [|d l] eqn:Hl.
  - exists (-1), s. split; [unfold kbdgetc; rewrite gets_bind; unfold id; by rewrite Hl|]. split; [lia|]. split; [done|]. split; [split; [done|by rewrite Hl]|done].
  - apply Forall_cons in Hk as [Hd Hk]. destruct (kbd_next_type _ _ Hsh Hd) as (sh & c & En & Hsh' & Hc). exists c, (set_kbd l sh s).
    rewrite (kbdgetc_next s d l Hl), En. split; [done|]. split; [lia|]. split; [split; [lia|done]|]. done.
Qed.

(** C33: the interrupt handler is a line editor.  Whatever bytes the keyboard
    sends, the handler returns, stays inside the ring and the screen, and does
    with every character what [edit] does: add it, take it back, kill the line,
    or hand the line over; the indices of the ring may wrap around. *)
Theorem console_edits s ready ed (cs := (kbd_chars (k_shift s) (k_pending s)).1) : kbd_ok s -> screen_ok s -> ring (k_input s) ready ed ->
  exists s', kbdintr s = Ok tt s' /\ screen_ok s' /\ kbd_ok s' /\ k_pending s' = [] /\ ring (k_input s') (foldl edit (ready, ed) cs).1 (foldl edit (ready, ed) cs).2.
Proof. apply kbdintr_spec. Qed.

(** What is typed is what is read.  A line of at most 127 plain characters
    that comes in on the serial port and ends with return is, with a newline at
    its end, what a read of the console gets; nothing is left. *)
Theorem typed_is_read {B} `{!BlockLayer B} s l : k_port s = true -> screen_ok s -> ring (k_input s) [] [] -> k_serial s = l ++ [13] -> Forall plain l -> zlen l <= 127 ->
  exists s', uartintr s = Ok tt s' /\ forall (c : core B) n, c_input c = k_input s' -> (length l < n)%nat ->
    exists i, Fs.consoleread_loop n (Z.of_nat n) [] c = Ok (true, l ++ [10]) (Core.set_input i c) /\ ring i [] [].
Proof.
  intros Hp Hs Hr Hl Hpl Hlen. assert (Hc : chars (k_serial s)).
  { rewrite Hl. apply Forall_app. split; [eapply Forall_impl; [exact Hpl|]; intros x [Hx _]; lia|]. apply Forall_singleton. lia. }
  destruct (uartintr_spec s [] [] Hp Hc Hs Hr) as (s' & E & _ & _ & Hr'). exists s'. split; [done|]. intros c n Hci Hn.
  rewrite Hl, foldl_app, (edit_plain l [] []) in Hr' by (done || (change (zlen (@nil Z)) with 0; lia)). cbn [app foldl] in Hr'.
  rewrite edit_room in Hr' by (done || (change (zlen (@nil Z)) with 0; lia)). cbn [Z.eqb Z.compare Pos.eqb orb fst snd app] in Hr'. rewrite <- Hci in Hr'.
  apply (consoleread_spec n (Z.of_nat n) [] c (l ++ [10]) [] (l ++ [10]) [] Hr'); [|lia]. destruct (Z.ltb_spec (Z.of_nat n) (Z.of_nat n)); [lia|]. by apply take_plain.
Qed.

(** ** Runs *)

(** Empty, with indices that are about to wrap *)
Definition w_in : input := mkInput (replicate 128 0) (2 ^ 32 - 2) (2 ^ 32 - 2) (2 ^ 32 - 2).
Definition w_con : cons := mkCons w_in [42; 30; 170; 14; 48; 28] 0 true ([108; 115] ++ [13]) [] (replicate 2000 0) 1900 false 0 0.

Lemma w_ring : ring w_in [] [].
Proof. split; try done; by constructor. Qed.

Lemma w_screen : screen_ok w_con.
Proof. by repeat split. Qed.

Lemma w_kbd : kbd_ok w_con.
Proof. split; [done|]. by repeat constructor. Qed.

Lemma kbdgetc_type_witness : kbd_ok w_con /\ exists c s', kbdgetc w_con = Ok c s' /\ -1 <= c < 256 /\ (c = -1 <-> k_pending w_con = []) /\ kbd_ok s' /\
  k_pending s' = tail (k_pending w_con) /\ k_input s' = k_input w_con.
Proof. split; [exact w_kbd|]. exact (kbdgetc_type w_con w_kbd). Defined.

Lemma console_edits_witness : kbd_ok w_con /\ (kbd_chars (k_shift w_con) (k_pending w_con)).1 = [0; 65; 0; 8; 98; 10] /\
  exists s', kbdintr w_con = Ok tt s' /\ screen_ok s' /\ kbd_ok s' /\ k_pending s' = [] /\ ring (k_input s') [98; 10] [].
Proof. split; [exact w_kbd|]. split; [by vm_compute|]. exact (console_edits w_con [] [] w_kbd w_screen w_ring). Defined.

Lemma typed_is_read_witness : Forall plain [108; 115] /\ exists s', uartintr w_con = Ok tt s' /\
  forall (c : core store) n, c_input c = k_input s' -> (2 < n)%nat ->
    exists i, Fs.consoleread_loop n (Z.of_nat n) [] c = Ok (true, [108; 115] ++ [10]) (Core.set_input i c) /\ ring i [] [].
Proof.
  assert (Hp : Forall plain [108; 115]).
  { apply Forall_cons; split; [|apply Forall_singleton]; (split; [lia|]); apply (bool_decide_unpack _); by vm_compute. }
  split; [exact Hp|].
  exact (typed_is_read w_con [108; 115] eq_refl w_screen w_ring eq_refl Hp ltac:(done)).
Defined.

End ConsoleProps.
