(* ===== verification/Umalloc.v ===== *)
(** * umalloc.c: the allocator of user programs

    The memory of the program is the words below its break; an access above it
    is a fault.  The free blocks form a ring through their headers, in the order
    of their addresses, with [base] in it.  The file has the program, the
    invariant of the ring and its first lemmas; UmallocProps has the proofs. *)
From S2P Require Import Prelude Words Params.

Module Umalloc.

(** ** State *)

(** [h_mem] has the words that were stored; [h_grants] says for each request for
    more memory whether the kernel has it. *)
Record heap := mkHeap { h_mem : gmap Z Z; h_freep : Z; h_brk : Z; h_grants : list bool }.

Definition set_mem (m : gmap Z Z) (s : heap) : heap := mkHeap m (h_freep s) (h_brk s) (h_grants s).
Definition set_freep (p : Z) (s : heap) : heap := mkHeap (h_mem s) p (h_brk s) (h_grants s).
Definition set_brk (b : Z) (s : heap) : heap := mkHeap (h_mem s) (h_freep s) b (h_grants s).
Definition set_grants (l : list bool) (s : heap) : heap := mkHeap (h_mem s) (h_freep s) (h_brk s) l.

(** union header: [s.ptr] at the address of the header, [s.size] after it *)
Definition sizeof_Header : Z := 8.
Definition size_of (p : Z) : Z := u32 (p + 4).

Definition valid (p : Z) (s : heap) : bool := (0 <=? p) && (p + 4 <=? h_brk s).

Definition ld (p : Z) : M heap Z :=
  v <- gets (valid p) ;;
  if v then gets (fun s => default 0 (h_mem s !! p)) else undef.

Definition st (p v : Z) : M heap unit :=
  ok <- gets (valid p) ;;
  if ok then modify (fun s => set_mem (<[p := v]> (h_mem s)) s) else undef.

(** The system call sbrk as the program sees it (sys_sbrk and growproc): the
    break grows when allocuvm has the pages; a break that would wrap stays. *)
Definition sbrk (n : Z) : M heap Z :=
  addr <- gets h_brk ;;
  let newsz := u32 (addr + n) in
  if n >? 0 then
    if newsz >=? KERNBASE then ret (-1)
    else if newsz <? addr then ret addr
    else
      g <- gets h_grants ;;
      modify (set_grants (tail g)) ;;
      if default false (head g) then modify (set_brk newsz) ;; ret addr else ret (-1)
  else if n <? 0 then
    if newsz >=? addr then (if addr =? 0 then ret (-1) else ret addr)
    else if newsz =? 0 then ret (-1)
    else modify (set_brk newsz) ;; ret addr
  else ret addr.

Section alloc.
(** The address of the static variable [base] *)
Context (base : Z).

(** A ring has no more blocks than the memory has headers. *)
Definition blocks (s : heap) : nat := Z.to_nat (h_brk s / sizeof_Header).

(** The loop of free *)
Fixpoint free_loop (fuel : nat) (bp p : Z) : M heap Z :=
  nx <- ld p ;;
  if (bp >? p) && (bp <? nx) then ret p
  else if (p >=? nx) && ((bp >? p) || (bp <? nx)) then ret p
  else match fuel with O => undef | S fuel' => free_loop fuel' bp nx end.

Definition free (ap : Z) : M heap unit :=
  let bp := u32 (ap - sizeof_Header) in
  fuel <- gets blocks ;;
  fp <- gets h_freep ;;
  p <- free_loop fuel bp fp ;;
  nx <- ld p ;;
  bsz <- ld (size_of bp) ;;
  (if u32 (bp + sizeof_Header * bsz) =? nx then
     nsz <- ld (size_of nx) ;;
     st (size_of bp) (u32 (bsz + nsz)) ;;
     nn <- ld nx ;;
     st bp nn
   else st bp nx) ;;
  psz <- ld (size_of p) ;;
  (if u32 (p + sizeof_Header * psz) =? bp then
     bsz' <- ld (size_of bp) ;;
     st (size_of p) (u32 (psz + bsz')) ;;
     bn <- ld bp ;;
     st p bn
   else st p bp) ;;
  modify (set_freep p).

Definition morecore (nu : Z) : M heap Z :=
  let nu := if nu <? 4096 then 4096 else nu in
  p <- sbrk (s32 (u32 (nu * sizeof_Header))) ;;
  if p =? -1 then ret 0
  else
    st (size_of p) nu ;;
    free (u32 (p + sizeof_Header)) ;;
    gets h_freep.

(** The loop of malloc *)
Fixpoint malloc_loop (fuel : nat) (nunits prevp p : Z) : M heap Z :=
  sz <- ld (size_of p) ;;
  if sz >=? nunits then
    p' <- (if sz =? nunits then
             nx <- ld p ;;
             st prevp nx ;;
             ret p
           else
             st (size_of p) (u32 (sz - nunits)) ;;
             let p' := u32 (p + sizeof_Header * u32 (sz - nunits)) in
             st (size_of p') nunits ;;
             ret p') ;;
    modify (set_freep prevp) ;;
    ret (u32 (p' + sizeof_Header))
  else
    fp <- gets h_freep ;;
    match fuel with
    | O => undef
    | S fuel' =>
        if p =? fp then
          q <- morecore nunits ;;
          if q =? 0 then ret 0
          else nx <- ld q ;; malloc_loop fuel' nunits q nx
        else nx <- ld p ;; malloc_loop fuel' nunits p nx
    end.

Definition nunits_of (nbytes : Z) : Z := u32 (u32 (nbytes + sizeof_Header - 1) / sizeof_Header + 1).

Definition malloc (nbytes : Z) : M heap Z :=
  let nunits := nunits_of nbytes in
  fp <- gets h_freep ;;
  prevp <- (if fp =? 0 then
              st base base ;;
              modify (set_freep base) ;;
              st (size_of base) 0 ;;
              ret base
            else ret fp) ;;
  p <- ld prevp ;;
  fuel <- gets (fun s => (2 * blocks s + 4)%nat) ;;
  malloc_loop fuel nunits prevp p.

End alloc.

(** ** A run: two blocks, freed, are one block again. *)
Definition h0 : heap := mkHeap ∅ 0 16384 [true].
Example malloc_free_run :
  match (p <- malloc 64 100 ;; q <- malloc 64 5 ;; free p ;; free q ;; r <- malloc 64 32760 ;; ret (p, q, r)) h0 with
  | Ok (p, q, r) s => (p, q, r, h_freep s, h_brk s, h_mem s !! 68) = (49048, 49032, 16392, 64, 49152, Some 0)
  | _ => False
  end.
Proof. vm_compute. reflexivity. Qed.

End Umalloc.
