(* ===== verification/UmallocProps.v ===== *)
(** * The allocator is correct

    The ring of free blocks in memory is a sorted list; free inserts a block and
    merges it with its neighbours, malloc takes one out or cuts its end off. *)
From stdpp Require Import sorting.
From S2P Require Import Prelude Words Params Umalloc.

Module UmallocProps.
Import Umalloc.

Set Default Proof Using "Type".

(** ** Blocks: the address of the header and the size in headers *)

Abbreviation blk := (Z * Z)%type.

(** In the order of the ring two blocks do not touch. *)
Definition before (x y : blk) : Prop := x.1 + 8 <= y.1 /\ x.1 + 8 * x.2 < y.1.
Definition apart (x y : blk) : Prop := x.1 + 8 * x.2 <= y.1 \/ y.1 + 8 * y.2 <= x.1.

Definition next_of (L : list blk) (e : Z) : Z := match L with [] => e | x :: _ => x.1 end.

(** The headers of [L], one pointing to the next and the last to [e] *)
Fixpoint chain (m : gmap Z Z) (L : list blk) (e : Z) : Prop :=
  match L with
  | [] => True
  | x :: L' => m !! x.1 = Some (next_of L' e) /\ m !! (x.1 + 4) = Some x.2 /\ chain m L' e
  end.

Lemma next_of_app L1 L2 e : next_of (L1 ++ L2) e = next_of L1 (next_of L2 e).
Proof. by destruct L1. Qed.

Lemma chain_app m L1 L2 e : chain m (L1 ++ L2) e <-> chain m L1 (next_of L2 e) /\ chain m L2 e.
Proof. induction L1 as [|x L1 IH]; cbn; [tauto|]. rewrite next_of_app, IH. tauto. Qed.

Lemma chain_frame m m' L e : chain m L e -> (forall x, x ∈ L -> m' !! x.1 = m !! x.1 /\ m' !! (x.1 + 4) = m !! (x.1 + 4)) -> chain m' L e.
Proof.
  induction L as [|x L IH]; [done|]. cbn. intros (H1 & H2 & H3) Hm. destruct (Hm x ltac:(by left)) as [-> ->].
  split; [done|]. split; [done|]. apply IH; [done|]. intros y Hy. apply Hm. by right.
Qed.

Lemma chain_write m L e w v : chain m L e -> Forall (fun x : blk => w <> x.1 /\ w <> x.1 + 4) L -> chain (<[w := v]> m) L e.
Proof.
  induction L as [|x L IH]; [done|]. cbn. intros (H1 & H2 & H3) Hf. apply Forall_cons in Hf as [[Ha Hb] Hf].
  rewrite !lookup_insert_ne by done. by repeat split; [..|apply IH].
Qed.

Fixpoint tot (L : list blk) : Z := match L with [] => 0 | x :: L' => x.2 + tot L' end.

Lemma tot_app L1 L2 : tot (L1 ++ L2) = tot L1 + tot L2.
Proof. induction L1 as [|x L1 IH]; cbn; [done|]. lia. Qed.

Definition msum (A : gmap Z Z) : Z := map_fold (fun _ n acc => n + acc) 0 A.

Lemma msum_insert A a n : A !! a = None -> msum (<[a := n]> A) = n + msum A.
Proof. intros H. unfold msum. rewrite map_fold_insert_L; [done| |done]. intros. lia. Qed.

Lemma msum_delete A a n : A !! a = Some n -> msum A = n + msum (delete a A).
Proof. intros H. rewrite <- (insert_delete_id A a n H) at 1. apply msum_insert. apply lookup_delete_eq. Qed.

Section ring.
(** The static variable [base] and the break when the program starts *)
Context (base brk0 : Z).
Hypothesis Hbase : 0 < base.
Hypothesis Hbrk0 : base + 8 <= brk0.

Definition inside (s : heap) (x : blk) : Prop := brk0 <= x.1 /\ 1 <= x.2 /\ x.1 + 8 * x.2 <= h_brk s.
Definition blk_ok (s : heap) (x : blk) : Prop := x = (base, 0) \/ inside s x.

Record ring (s : heap) (L : list blk) : Prop := mkRing {
  r_chain : chain (h_mem s) L base;
  r_sorted : StronglySorted before L;
  r_freep : h_freep s ∈ L.*1;
  r_head : head L = Some (base, 0);
  r_ok : Forall (blk_ok s) L;
  r_brk : brk0 <= h_brk s < KERNBASE
}.

(** [A] are the blocks in use, by address. *)
Record held (s : heap) (A : gmap Z Z) (L : list blk) : Prop := mkHeld {
  i_ring : ring s L;
  i_alloc : forall a n, A !! a = Some n -> inside s (a, n) /\ h_mem s !! (a + 4) = Some n;
  i_apart : forall a n x, A !! a = Some n -> x ∈ L -> apart (a, n) x;
  i_disj : forall a n a' n', A !! a = Some n -> A !! a' = Some n' -> a <> a' -> apart (a, n) (a', n')
}.

(** Nothing of the memory the program has asked for is lost. *)
Definition inv (s : heap) (A : gmap Z Z) (L : list blk) : Prop := held s A L /\ 8 * (tot L + msum A) = h_brk s - brk0.

(** The blocks in use, headers included, are as before. *)
Definition same (A : gmap Z Z) (s s' : heap) : Prop :=
  forall a n w, A !! a = Some n -> a <= w < a + 8 * n -> h_mem s' !! w = h_mem s !! w.

(** ** Loads and stores *)

Lemma ld_run s p v : 0 <= p -> p + 4 <= h_brk s -> h_mem s !! p = Some v -> ld p s = Ok v s.
Proof.
  intros H1 H2 H3. unfold ld, valid. rewrite gets_bind. rewrite (proj2 (Z.leb_le 0 p) H1), (proj2 (Z.leb_le _ _) H2). cbn.
  unfold gets. by rewrite H3.
Qed.

Lemma st_run s p v : 0 <= p -> p + 4 <= h_brk s -> st p v s = Ok tt (set_mem (<[p := v]> (h_mem s)) s).
Proof.
  intros H1 H2. unfold st, valid. rewrite gets_bind. rewrite (proj2 (Z.leb_le 0 p) H1), (proj2 (Z.leb_le _ _) H2). done.
Qed.

Lemma size_of_small p : 0 <= p < KERNBASE -> size_of p = p + 4.
Proof. intros H. unfold size_of, KERNBASE in *. rewrite u32_small; lia. Qed.

Lemma ok_bounds s x : blk_ok s x -> brk0 <= h_brk s -> base <= x.1 /\ x.1 + 8 <= h_brk s /\ 0 <= x.2 /\ x.1 + 8 * x.2 <= h_brk s.
Proof using Hbrk0. intros [->|(H1 & H2 & H3)] Hb; cbn; lia. Qed.

Lemma ring_elem s L x : ring s L -> x ∈ L -> base <= x.1 /\ x.1 + 8 <= h_brk s /\ 0 <= x.2 /\ x.1 + 8 * x.2 <= h_brk s.
Proof using Hbrk0. intros Hr Hx. eapply ok_bounds; [|apply Hr]. by apply (proj1 (Forall_forall _ _) (r_ok _ _ Hr)). Qed.

(** The next header and the size of an element of the ring *)
Lemma ring_at s L T1 t T2 : ring s L -> L = T1 ++ t :: T2 ->
  ld t.1 s = Ok (next_of T2 base) s /\ ld (size_of t.1) s = Ok t.2 s.
Proof using Hbase Hbrk0.
  intros Hr ->. destruct (ring_elem _ _ t Hr ltac:(set_solver)) as (H1 & H2 & H3 & H4). pose proof (r_brk _ _ Hr).
  pose proof (r_chain _ _ Hr) as Hc. apply chain_app in Hc as (_ & Hn & Hs & _).
  split; [apply ld_run; [lia|lia|done]|]. rewrite size_of_small by lia. apply ld_run; [lia|lia|done].
Qed.

Lemma sorted_split T1 t T2 : StronglySorted before (T1 ++ t :: T2) -> (forall x, x ∈ T1 -> before x t) /\ (forall x, x ∈ T2 -> before t x) /\
  (forall x y, x ∈ T1 -> y ∈ T2 -> before x y) /\ StronglySorted before T1 /\ StronglySorted before T2.
Proof.
  rewrite StronglySorted_app, StronglySorted_cons, Forall_forall. intros (H1 & H2 & H3 & H4). split; [intros; apply H1; [done|by left]|].
  split; [done|]. split; [intros; apply H1; [done|by right]|]. done.
Qed.

(** ** The loop of free *)

Lemma free_loop_fwd s L S : forall P t T2 f bp, ring s L -> L = P ++ S ++ t :: T2 -> t.1 < bp -> (forall x, x ∈ T2 -> bp < x.1) ->
  free_loop (length S + f) bp (next_of (S ++ [t]) 0) s = Ok t.1 s.
Proof using Hbase Hbrk0.
  induction S as [|x S IH]; intros P t T2 f bp Hr HL Ht HT2; cbn [length Nat.add app next_of].
  - destruct (ring_at _ _ P t T2 Hr HL) as [E _]. destruct f as [|f]; cbn [free_loop]; rewrite (bind_run _ _ _ _ _ E);
      rewrite (proj2 (Z.gtb_gt bp t.1)) by lia; cbn [andb orb]; destruct T2 as [|y T2]; cbn [next_of];
      try (rewrite (proj2 (Z.ltb_lt bp y.1)) by (apply HT2; by left); done);
      (assert (base <= t.1) by (eapply ring_elem; [exact Hr|rewrite HL; set_solver]));
      destruct (bp <? base); try done; rewrite (proj2 (Z.geb_le t.1 base)) by lia; done.
  - assert (HL' : L = P ++ x :: (S ++ t :: T2)) by done. destruct (ring_at _ _ P x _ Hr HL') as [E _].
    pose proof (r_sorted _ _ Hr) as Hs. rewrite HL' in Hs. apply sorted_split in Hs as (_ & Hx & _ & _ & Hs2).
    assert (Hnx : next_of (S ++ t :: T2) base = next_of (S ++ [t]) 0) by (by rewrite !next_of_app; destruct S).
    assert (Hle : x.1 < next_of (S ++ [t]) 0 /\ next_of (S ++ [t]) 0 <= t.1).
    { destruct S as [|y S]; cbn; [destruct (Hx t ltac:(set_solver)); lia|]. destruct (Hx y ltac:(set_solver)). split; [lia|].
      apply StronglySorted_cons in Hs2 as [Hf _]. rewrite Forall_forall in Hf. destruct (Hf t ltac:(set_solver)). lia. }
    cbn [free_loop]. rewrite (bind_run _ _ _ _ _ E), Hnx. destruct Hle as [Hle1 Hle2].
    destruct (Z.ltb_spec bp (next_of (S ++ [t]) 0)); [lia|]. rewrite andb_false_r.
    destruct (Z.geb_spec x.1 (next_of (S ++ [t]) 0)); [lia|]. cbn [andb].
    apply (IH (P ++ [x]) t T2 f bp Hr); [by rewrite HL, <- app_assoc|done|done].
Qed.

Lemma free_loop_wrap s L S : forall P x f bp, ring s L -> L = P ++ x :: S -> (forall y, y ∈ x :: S -> bp < y.1) -> base < bp ->
  free_loop (length (x :: S) + f) bp x.1 s = free_loop f bp base s.
Proof using Hbase Hbrk0.
  induction S as [|y S IH]; intros P x f bp Hr HL Hbp Hb; destruct (ring_at _ _ P x _ Hr HL) as [E _];
    pose proof (Hbp x ltac:(by left)) as Hx; cbn [length Nat.add free_loop]; rewrite (bind_run _ _ _ _ _ E); cbn [next_of];
    destruct (Z.gtb_spec bp x.1); try lia; cbn [andb orb].
  - destruct (Z.ltb_spec bp base); [lia|]. by rewrite andb_false_r.
  - pose proof (r_sorted _ _ Hr) as Hs. rewrite HL in Hs. apply sorted_split in Hs as (_ & Hxy & _). destruct (Hxy y ltac:(by left)).
    destruct (Z.geb_spec x.1 y.1); [lia|]. cbn [andb].
    apply (IH (P ++ [x]) y f bp Hr); [by rewrite HL, <- app_assoc|intros z Hz; apply Hbp; by right|done].
Qed.

(** The loop finds the last block before [bp], wherever it starts. *)
Lemma free_loop_spec s L T1 t T2 bp fuel : ring s L -> L = T1 ++ t :: T2 -> t.1 < bp -> (forall x, x ∈ T2 -> bp < x.1) -> (length L <= fuel)%nat ->
  free_loop fuel bp (h_freep s) s = Ok t.1 s.
Proof using Hbase Hbrk0.
  intros Hr HL Ht HT2 Hf. assert (Hb : base < bp). { assert (base <= t.1) by (eapply ring_elem; [exact Hr|rewrite HL; set_solver]). lia. }
  pose proof (r_freep _ _ Hr) as Hfp. apply list_elem_of_fmap in Hfp as (x & -> & Hx). rewrite HL in Hx.
  assert (Hfwd : forall S1 S2 f, T1 ++ [t] = S1 ++ x :: S2 -> (length S2 <= f)%nat -> free_loop f bp x.1 s = Ok t.1 s).
  { intros S1 S2 f Hsp Hl. destruct (exists_last (l := x :: S2) ltac:(done)) as (S & t' & HS). rewrite HS, app_assoc in Hsp. apply app_inj_tail in Hsp as [-> ->].
    assert (x.1 = next_of (S ++ [t']) 0) as -> by (by rewrite <- HS). apply (f_equal length) in HS. rewrite length_app in HS. cbn in HS.
    replace f with (length S + (f - length S))%nat by lia. apply (free_loop_fwd s L S S1 t' T2); [done|by rewrite HL, <- app_assoc|done|done]. }
  apply elem_of_app in Hx as [Hx|Hx]; [|apply elem_of_cons in Hx as [->|Hx]].
  - apply list_elem_of_split in Hx as (S1 & S2 & ->). apply (Hfwd S1 (S2 ++ [t])); [by rewrite <- app_assoc|].
    rewrite HL, !length_app in Hf. rewrite length_app. cbn in *. lia.
  - apply (Hfwd T1 []); [done|cbn; lia].
  - apply list_elem_of_split in Hx as (S1 & S2 & ->). pose proof (r_head _ _ Hr) as Hh.
    rewrite HL, !length_app in Hf. cbn [length] in Hf. rewrite length_app in Hf. cbn [length] in Hf.
    replace fuel with (length (x :: S2) + (fuel - length (x :: S2)))%nat by (cbn; lia).
    rewrite (free_loop_wrap s L S2 (T1 ++ t :: S1)); [|done|by rewrite HL, <- app_assoc|intros y Hy; apply HT2; set_solver|done].
    destruct (exists_last (l := T1 ++ [t]) ltac:(by destruct T1)) as (S & t' & HS). rewrite HL in Hh.
    assert (HS' : exists S', T1 ++ [t] = (base, 0) :: S'). { destruct T1 as [|z T1]; cbn in Hh |- *; injection Hh as ->; by eexists. }
    destruct HS' as [S' HS'].
    assert (HB : base = next_of (T1 ++ [t]) 0) by (by rewrite HS'). rewrite HB at 1.
    replace (fuel - length (x :: S2))%nat with (length T1 + (fuel - length (x :: S2) - length T1))%nat by (cbn; lia).
    apply (free_loop_fwd s L T1 [] t (S1 ++ x :: S2)); done.
Qed.

(** ** Inserting a block *)

(** A block that is in no list *)
Definition spare (s : heap) (b n : Z) : Prop := inside s (b, n) /\ h_mem s !! (b + 4) = Some n.

Lemma off_headers (w : Z) (T : list blk) : (forall x, x ∈ T -> x.1 + 8 <= w \/ w < x.1) -> Forall (fun x : blk => w <> x.1 /\ w <> x.1 + 4) T.
Proof. intros H. apply Forall_forall. intros x Hx. specialize (H x Hx). lia. Qed.

(** The first half of free: the block takes over the one after it. *)
Lemma free_right s T2 b n : spare s b n -> chain (h_mem s) T2 base -> StronglySorted before T2 -> Forall (blk_ok s) T2 -> h_brk s < KERNBASE ->
  (forall x, x ∈ T2 -> b + 8 * n <= x.1) ->
  exists m n' T2', (if u32 (b + sizeof_Header * n) =? next_of T2 base then
      nsz <- ld (size_of (next_of T2 base)) ;; st (size_of b) (u32 (n + nsz)) ;; nn <- ld (next_of T2 base) ;; st b nn
    else st b (next_of T2 base)) s = Ok tt (set_mem m s) /\
    chain m ((b, n') :: T2') base /\ StronglySorted before ((b, n') :: T2') /\ (forall x, x ∈ T2' -> x ∈ T2) /\ n <= n' /\
    n' + tot T2' = n + tot T2 /\ b + 8 * n' <= h_brk s /\ (forall w, w <> b -> w <> b + 4 -> m !! w = h_mem s !! w) /\
    (forall z : blk, 1 <= z.2 -> apart z (b, n) -> (forall x, x ∈ T2 -> apart z x) -> apart z (b, n')) /\
    (length T2' <= length T2)%nat.
Proof using Hbase Hbrk0.
  intros [(Hb1 & Hn & Hb2) Hm] Hc Hs Hok Hk Hle. cbn in Hb1, Hn, Hb2. unfold sizeof_Header. rewrite (u32_small (b + 8 * n)) by (unfold KERNBASE in Hk; lia).
  assert (Hstay : (forall x, x ∈ T2 -> b + 8 * n < x.1) -> exists m n' T2', st b (next_of T2 base) s = Ok tt (set_mem m s) /\
    chain m ((b, n') :: T2') base /\ StronglySorted before ((b, n') :: T2') /\ (forall x, x ∈ T2' -> x ∈ T2) /\ n <= n' /\
    n' + tot T2' = n + tot T2 /\ b + 8 * n' <= h_brk s /\ (forall w, w <> b -> w <> b + 4 -> m !! w = h_mem s !! w) /\
    (forall z : blk, 1 <= z.2 -> apart z (b, n) -> (forall x, x ∈ T2 -> apart z x) -> apart z (b, n')) /\
    (length T2' <= length T2)%nat).
  { intros Hlt. exists (<[b := next_of T2 base]> (h_mem s)), n, T2. split; [apply st_run; lia|]. split; [|split; [|split; [done|split; [lia|split; [lia|split; [lia|]]]]]].
    - cbn. rewrite lookup_insert_eq, lookup_insert_ne by lia. split; [done|]. split; [done|]. apply chain_write; [done|]. apply off_headers. intros x Hx. specialize (Hlt x Hx). lia.
    - apply StronglySorted_cons. split; [|done]. apply Forall_forall. intros x Hx. specialize (Hlt x Hx). unfold before. cbn. lia.
    - split; [|done]. intros w H1 H2. by apply lookup_insert_ne. }
  destruct T2 as [|y T2]; cbn [next_of] in *.
  { destruct (Z.eqb_spec (b + 8 * n) base); [lia|]. apply Hstay. set_solver. }
  apply StronglySorted_cons in Hs as [Hy Hs]. rewrite Forall_forall in Hy. cbn in Hc. destruct Hc as (Hcn & Hcs & Hc).
  apply Forall_cons in Hok as [Hoy Hok]. destruct (ok_bounds s y Hoy) as (Y1 & Y2 & Y3 & Y4); [lia|].
  destruct (Z.eqb_spec (b + 8 * n) y.1) as [Ey|Hne].
  - rewrite !size_of_small by lia. rewrite (bind_run _ _ _ _ _ (ld_run s (y.1 + 4) y.2 ltac:(lia) ltac:(lia) Hcs)).
    rewrite (u32_small (n + y.2)) by (unfold KERNBASE in Hk; lia). rewrite (bind_run _ _ _ _ _ (st_run s (b + 4) (n + y.2) ltac:(lia) ltac:(lia))).
    assert (Hcn' : h_mem (set_mem (<[b + 4 := n + y.2]> (h_mem s)) s) !! y.1 = Some (next_of T2 base)) by (cbn; rewrite lookup_insert_ne by lia; done).
    rewrite (bind_run _ _ _ _ _ (ld_run (set_mem (<[b + 4 := n + y.2]> (h_mem s)) s) y.1 (next_of T2 base) ltac:(lia) ltac:(cbn; lia) Hcn')).
    rewrite (st_run (set_mem (<[b + 4 := n + y.2]> (h_mem s)) s) b) by (cbn; lia). eexists _, (n + y.2), T2. split; [reflexivity|]. cbn [set_mem h_mem].
    split; [|split; [|split; [set_solver|split; [lia|split; [cbn; lia|split; [lia|]]]]]].
    + cbn. rewrite lookup_insert_eq, lookup_insert_ne, lookup_insert_eq by lia. split; [done|]. split; [done|].
      assert (Hoff : forall x, x ∈ T2 -> b + 8 < x.1) by (intros x Hx; destruct (Hy x Hx); lia).
      do 2 (apply chain_write; [|apply off_headers; intros x Hx; specialize (Hoff x Hx); lia]). done.
    + apply StronglySorted_cons. split; [|done]. apply Forall_forall. intros x Hx. destruct (Hy x Hx). unfold before. cbn. lia.
    + split; [intros w H1 H2; by rewrite !lookup_insert_ne|]. split; [|cbn; lia]. intros z Hz H1 H2. specialize (H2 y ltac:(by left)). unfold apart in *. cbn in *. lia.
  - apply Hstay. intros x Hx. pose proof (Hle y ltac:(by left)). apply elem_of_cons in Hx as [->|Hx]; [lia|]. destruct (Hy x Hx). lia.
Qed.

(** The second half: the block before takes it over. *)
Lemma free_left s T1 t b n T2 : chain (h_mem s) T1 t.1 -> h_mem s !! (t.1 + 4) = Some t.2 -> chain (h_mem s) ((b, n) :: T2) base -> StronglySorted before (T1 ++ [t]) ->
  StronglySorted before ((b, n) :: T2) -> Forall (blk_ok s) (T1 ++ [t]) -> Forall (blk_ok s) ((b, n) :: T2) -> inside s (b, n) ->
  h_brk s < KERNBASE -> t.1 + 8 <= b -> t.1 + 8 * t.2 <= b -> head (T1 ++ [t]) = Some (base, 0) ->
  exists m L', (psz <- ld (size_of t.1) ;;
    (if u32 (t.1 + sizeof_Header * psz) =? b then bsz' <- ld (size_of b) ;; st (size_of t.1) (u32 (psz + bsz')) ;; bn <- ld b ;; st t.1 bn
     else st t.1 b) ;; modify (set_freep t.1)) s = Ok tt (set_freep t.1 (set_mem m s)) /\
    chain m L' base /\ StronglySorted before L' /\ head L' = Some (base, 0) /\ t.1 ∈ L'.*1 /\ Forall (blk_ok s) L' /\
    tot L' = tot (T1 ++ [t]) + n + tot T2 /\ (exists x, x ∈ L' /\ n <= x.2) /\
    (forall w, w <> t.1 -> w <> t.1 + 4 -> m !! w = h_mem s !! w) /\
    (forall z : blk, 1 <= z.2 -> (forall x, x ∈ T1 ++ [t] -> apart z x) -> (forall x, x ∈ (b, n) :: T2 -> apart z x) -> forall x, x ∈ L' -> apart z x) /\
    (length L' <= length T1 + 2 + length T2)%nat.
Proof using Hbase Hbrk0.
  intros Hc1 Hts Hc2 Hs1 Hs2 Ho1 Ho2 (Hb1 & Hn & Hb2) Hk Ht1 Ht2 Hh. cbn in Hb1, Hn, Hb2.
  cbn in Hc2. destruct Hc2 as (Hbn & Hbs & Hc2). apply Forall_app in Ho1 as [Ho1 Hot]. apply Forall_cons in Hot as [Hot _].
  apply Forall_cons in Ho2 as [Hob Ho2]. destruct (ok_bounds s t Hot) as (B1 & B2 & B3 & B4); [lia|].
  apply sorted_split in Hs1 as (Hx1 & _ & _ & Hs1 & _). pose proof Hs2 as Hs2'. apply StronglySorted_cons in Hs2 as [Hxb Hs2]. rewrite Forall_forall in Hxb.
  assert (Hoff1 : forall x, x ∈ T1 -> x.1 + 8 <= t.1) by (intros x Hx; by destruct (Hx1 x Hx)).
  assert (Hoff2 : forall x, x ∈ T2 -> b + 8 <= x.1) by (intros x Hx; by destruct (Hxb x Hx)).
  rewrite !size_of_small by lia. rewrite (bind_run _ _ _ _ _ (ld_run s (t.1 + 4) t.2 ltac:(lia) ltac:(lia) Hts)).
  unfold sizeof_Header. rewrite (u32_small (t.1 + 8 * t.2)) by (unfold KERNBASE in Hk; lia).
  destruct (Z.eqb_spec (t.1 + 8 * t.2) b) as [Eb|Hne].
  - rewrite bind_assoc, (bind_run _ _ _ _ _ (ld_run s (b + 4) n ltac:(lia) ltac:(lia) Hbs)). rewrite (u32_small (t.2 + n)) by (unfold KERNBASE in Hk; lia).
    rewrite bind_assoc, (bind_run _ _ _ _ _ (st_run s (t.1 + 4) (t.2 + n) ltac:(lia) ltac:(lia))). set (s1 := set_mem _ s).
    assert (Hbn' : h_mem s1 !! b = Some (next_of T2 base)) by (cbn; rewrite lookup_insert_ne by lia; done).
    rewrite bind_assoc, (bind_run _ _ _ _ _ (ld_run s1 b _ ltac:(lia) ltac:(cbn; lia) Hbn')), (bind_run _ _ _ _ _ (st_run s1 t.1 (next_of T2 base) ltac:(lia) ltac:(cbn; lia))).
    eexists _, (T1 ++ (t.1, t.2 + n) :: T2). split; [reflexivity|]. unfold s1. cbn [set_mem h_mem].
    split; [apply chain_app; split; [|cbn; split; [|split]]|].
    { do 2 (apply chain_write; [|apply off_headers; intros x Hx; specialize (Hoff1 x Hx); lia]). done. }
    { by rewrite lookup_insert_eq. } { by rewrite lookup_insert_ne, lookup_insert_eq by lia. }
    { do 2 (apply chain_write; [|apply off_headers; intros x Hx; specialize (Hoff2 x Hx); lia]). done. }
    split; [|split; [destruct T1; [injection Hh as ->; cbn in *; lia|done]|split; [rewrite fmap_app; set_solver|split; [|split; [rewrite !tot_app; cbn; lia|split; [|split]]]]]].
    + apply StronglySorted_app. split; [|split; [done|apply StronglySorted_cons; split; [|done]; apply Forall_forall]].
      * intros x y Hx Hy. destruct (Hx1 x Hx) as [A1 A2]. unfold before. apply elem_of_cons in Hy as [->|Hy]; cbn; [lia|]. specialize (Hoff2 y Hy). lia.
      * intros x Hx. destruct (Hxb x Hx) as [A1 A2]. unfold before in *. cbn in *. lia.
    + apply Forall_app. split; [done|]. apply Forall_cons. split; [|done]. right. destruct Hot as [->|(D1 & D2 & D3)]; [cbn in *; lia|]. unfold inside. cbn. lia.
    + exists (t.1, t.2 + n). split; [set_solver|cbn; lia].
    + intros w H1 H2. by rewrite !lookup_insert_ne.
    + split; [|rewrite length_app; cbn; lia]. intros z Hz H1 H2 x Hx. apply elem_of_app in Hx as [Hx|Hx]; [apply H1; set_solver|]. apply elem_of_cons in Hx as [->|Hx]; [|apply H2; set_solver].
      specialize (H1 t ltac:(set_solver)). specialize (H2 (b, n) ltac:(by left)). unfold apart in *. cbn in *. lia.
  - rewrite (bind_run _ _ _ _ _ (st_run s t.1 b ltac:(lia) ltac:(lia))). eexists _, (T1 ++ t :: (b, n) :: T2). split; [reflexivity|].
    split; [apply chain_app; split; [|cbn; repeat split]|].
    { apply chain_write; [done|]. apply off_headers. intros x Hx. specialize (Hoff1 x Hx). lia. }
    { by rewrite lookup_insert_eq. } { by rewrite lookup_insert_ne by lia. } { by rewrite lookup_insert_ne by lia. } { by rewrite lookup_insert_ne by lia. }
    { apply chain_write; [done|]. apply off_headers. intros x Hx. specialize (Hoff2 x Hx). lia. }
    split; [|split; [by destruct T1|split; [rewrite fmap_app; set_solver|split; [|split; [rewrite !tot_app; cbn; lia|split; [|split]]]]]].
    + apply StronglySorted_app. split; [|split; [done|apply StronglySorted_cons; split; [|done]; apply Forall_forall]].
      * intros x y Hx Hy. destruct (Hx1 x Hx) as [A1 A2]. unfold before. apply elem_of_cons in Hy as [->|Hy]; [lia|]. apply elem_of_cons in Hy as [->|Hy]; cbn; [lia|]. specialize (Hoff2 y Hy). lia.
      * intros x Hx. unfold before. apply elem_of_cons in Hx as [->|Hx]; cbn; [lia|]. specialize (Hoff2 x Hx). lia.
    + apply Forall_app. split; [done|]. by repeat (apply Forall_cons; split).
    + exists (b, n). split; [set_solver|cbn; lia].
    + intros w H1 H2. by rewrite lookup_insert_ne.
    + split; [|rewrite length_app; cbn; lia]. intros z Hz H1 H2 x Hx. apply elem_of_app in Hx as [Hx|Hx]; [apply H1; set_solver|]. apply elem_of_cons in Hx as [->|Hx]; [apply H1; set_solver|by apply H2].
Qed.

(** ** free *)

Lemma ring_length s L : ring s L -> (length L <= blocks s)%nat.
Proof using Hbase Hbrk0.
  intros Hr. assert (H : forall L x, StronglySorted before (x :: L) -> (forall y, y ∈ x :: L -> y.1 + 8 <= h_brk s) -> x.1 + 8 * zlen (x :: L) <= h_brk s).
  { clear L Hr. induction L as [|y L IH]; intros x Hs Hb; [specialize (Hb x ltac:(by left)); unfold zlen; cbn; lia|].
    apply StronglySorted_cons in Hs as [Hx Hs]. specialize (IH y Hs ltac:(set_solver)). apply Forall_cons in Hx as [[Hx _] _].
    unfold zlen in *. cbn [length] in *. lia. }
  destruct L as [|x L]; [cbn; lia|]. specialize (H L x (r_sorted _ _ Hr)). destruct (ring_elem _ _ x Hr ltac:(by left)) as (H1 & _).
  assert (x.1 + 8 * zlen (x :: L) <= h_brk s) by (apply H; intros y Hy; by eapply ring_elem). unfold blocks, sizeof_Header, zlen in *.
  assert (Z.of_nat (length (x :: L)) <= h_brk s / 8) by (apply Z.div_le_lower_bound; lia). lia.
Qed.

Lemma split_at (L : list blk) b : forall x, StronglySorted before (x :: L) -> x.1 < b -> (forall y, y ∈ L -> y.1 <> b) ->
  exists T1 t T2, x :: L = T1 ++ t :: T2 /\ t.1 < b /\ forall y, y ∈ T2 -> b < y.1.
Proof using Type.
  clear Hbase Hbrk0.
  induction L as [|y L IH]; intros x Hs Hx Hne; [exists [], x, []; split; [done|]; split; [done|set_solver]|].
  apply StronglySorted_cons in Hs as [_ Hs]. destruct (Z.lt_ge_cases y.1 b) as [Hy|Hy].
  - destruct (IH y Hs Hy ltac:(set_solver)) as (T1 & t & T2 & -> & Ht & HT). by exists (x :: T1), t, T2.
  - exists [], x, (y :: L). split; [done|]. split; [done|]. specialize (Hne y ltac:(by left)). apply StronglySorted_cons in Hs as [Hf _]. rewrite Forall_forall in Hf.
    intros z Hz. apply elem_of_cons in Hz as [->|Hz]; [lia|]. destruct (Hf z Hz). lia.
Qed.

(** The place of a spare block in the ring *)
Lemma ring_place s L b n : ring s L -> inside s (b, n) -> (forall x, x ∈ L -> apart (b, n) x) ->
  exists T1 t T2, L = T1 ++ t :: T2 /\ t.1 + 8 <= b /\ t.1 + 8 * t.2 <= b /\ forall x, x ∈ T2 -> b + 8 * n <= x.1.
Proof using Hbase Hbrk0.
  intros Hr (H1 & H2 & H3) Hap. cbn in H1, H2, H3. pose proof (r_head _ _ Hr) as Hh. destruct L as [|x L]; [done|]. injection Hh as ->.
  assert (Hsz : forall x, x ∈ L -> 1 <= x.2).
  { intros x Hx. destruct (proj1 (Forall_forall _ _) (r_ok _ _ Hr) x ltac:(by right)) as [->|(_ & ? & _)]; [|done].
    pose proof (r_sorted _ _ Hr) as Hs. apply StronglySorted_cons in Hs as [Hf _]. rewrite Forall_forall in Hf. destruct (Hf _ Hx). cbn in *. lia. }
  destruct (split_at L b (base, 0) (r_sorted _ _ Hr)) as (T1 & t & T2 & HL & Ht & HT); [cbn; lia| |].
  { intros y Hy. specialize (Hsz y Hy). specialize (Hap y ltac:(by right)). unfold apart in Hap. cbn in Hap. lia. }
  exists T1, t, T2. split; [done|]. assert (Htin : t ∈ (base, 0) :: L) by (rewrite HL; set_solver).
  pose proof (Hap t Htin) as Ha. unfold apart in Ha. cbn in Ha. split; [|split].
  - apply elem_of_cons in Htin as [->|Htin]; [cbn; lia|]. specialize (Hsz t Htin). lia.
  - lia.
  - intros x Hx. assert (Hxin : x ∈ (base, 0) :: L) by (rewrite HL; set_solver). specialize (Hap x Hxin). specialize (HT x Hx).
    destruct (ring_elem _ _ x Hr Hxin). unfold apart in Hap. cbn in Hap. lia.
Qed.

Lemma free_spec s A L b n : held s A L -> spare s b n -> (forall x, x ∈ L -> apart (b, n) x) -> (forall a k, A !! a = Some k -> apart (b, n) (a, k)) ->
  exists s' L', free (b + 8) s = Ok tt s' /\ held s' A L' /\ tot L' = tot L + n /\ (exists x, x ∈ L' /\ n <= x.2) /\
    h_brk s' = h_brk s /\ (length L' <= length L + 1)%nat /\ same A s s'.
Proof using Hbase Hbrk0.
  intros Hh Hsp HapL HapA. pose proof (i_ring _ _ _ Hh) as Hr. pose proof Hsp as [Hin Hbm]. pose proof (r_brk _ _ Hr) as Hbk.
  destruct (ring_place _ _ _ _ Hr Hin HapL) as (T1 & t & T2 & HL & Ht1 & Ht2 & HT2). pose proof Hin as (I1 & I2 & I3). cbn in I1, I2, I3.
  unfold free. cbn zeta. replace (u32 (b + 8 - sizeof_Header)) with b by (unfold sizeof_Header, KERNBASE in *; rewrite u32_small; lia). rewrite !gets_bind.
  rewrite (bind_run _ _ _ _ _ (free_loop_spec s L T1 t T2 b (blocks s) Hr HL ltac:(lia) ltac:(intros x Hx; specialize (HT2 x Hx); lia) (ring_length _ _ Hr))).
  destruct (ring_at _ _ _ _ _ Hr HL) as [En _]. rewrite (bind_run _ _ _ _ _ En).
  assert (El : ld (size_of b) s = Ok n s) by (rewrite size_of_small by lia; apply ld_run; [lia|lia|done]). rewrite (bind_run _ _ _ _ _ El).
  pose proof (r_chain _ _ Hr) as Hc. pose proof (r_ok _ _ Hr) as Hok. pose proof (r_sorted _ _ Hr) as Hs. pose proof (r_head _ _ Hr) as Hhd. rewrite HL in Hc, Hok, Hs, Hhd.
  apply chain_app in Hc as (Hc1 & Htn & Hts & Hc2). apply Forall_app in Hok as [Hok1 Hok2]. pose proof Hok2 as Hok2'. apply Forall_cons in Hok2 as [Hokt Hok2].
  apply sorted_split in Hs as (Hs1 & _ & _ & Hs3 & Hs4).
  destruct (free_right s T2 b n Hsp Hc2 Hs4 Hok2 ltac:(lia) HT2) as (m1 & n1 & T2' & E1 & C1 & S1 & Hsub & Hn1 & Htot1 & Hb1 & Hm1 & Hap1 & Hlen1).
  rewrite (bind_run _ _ _ _ _ E1). set (s1 := set_mem m1 s).
  assert (Hoff : forall x, x ∈ T1 ++ [t] -> x.1 + 8 <= b) by (intros x Hx; apply elem_of_app in Hx as [Hx|Hx]; [destruct (Hs1 x Hx); lia|assert (x = t) as -> by set_solver; lia]).
  destruct (free_left s1 T1 t b n1 T2') as (m2 & L' & E2 & C2 & S2 & Hh2 & Hf2 & Hok3 & Htot2 & Hfit & Hm2 & Hap2 & Hlen2).
  { eapply chain_frame; [exact Hc1|]. intros x Hx. specialize (Hoff x ltac:(set_solver)). split; apply Hm1; lia. }
  { cbn. rewrite Hm1 by lia. done. } { done. }
  { apply StronglySorted_app_2; [|done|by repeat constructor]. intros x y Hx Hy. assert (y = t) as -> by set_solver. by apply Hs1. }
  { done. } { apply Forall_app. split; [done|]. by apply Forall_singleton. }
  { apply Forall_cons. split; [right; unfold inside; cbn; lia|]. apply Forall_forall. intros x Hx. by apply (proj1 (Forall_forall _ _) Hok2), Hsub. }
  { unfold inside. cbn. lia. } { cbn. lia. } { done. } { done. } { by destruct T1. }
  exists (set_freep t.1 (set_mem m2 s1)), L'. split; [exact E2|].
  assert (Hz : forall a k, A !! a = Some k -> forall x, x ∈ L' -> apart (a, k) x).
  { intros a k Hk. destruct (i_alloc _ _ _ Hh _ _ Hk) as [(_ & K1 & _) _]. pose proof (i_apart _ _ _ Hh a k) as HA. cbn in K1.
    assert (Hb : apart (a, k) (b, n)) by (specialize (HapA a k Hk); unfold apart in *; tauto).
    apply Hap2; [done|intros x Hx; apply HA; [done|rewrite HL; set_solver]|]. intros x Hx. apply elem_of_cons in Hx as [->|Hx]; [|apply HA; [done|rewrite HL; set_solver]].
    apply Hap1; [done|done|]. intros x Hx. apply HA; [done|rewrite HL; set_solver]. }
  assert (Hsame : same A s (set_freep t.1 (set_mem m2 s1))).
  { intros a k w Hk Hw. destruct (i_alloc _ _ _ Hh _ _ Hk) as [(K0 & K1 & _) _]. specialize (HapA a k Hk).
    pose proof (i_apart _ _ _ Hh a k t Hk ltac:(rewrite HL; set_solver)) as Hat. destruct (ring_elem _ _ t Hr ltac:(rewrite HL; set_solver)) as (B1 & _ & B3 & _).
    assert (Ht0 : t.1 + 8 * t.2 <= w -> t.1 + 8 <= w) by (destruct Hokt as [->|(_ & ? & _)]; cbn in *; lia).
    unfold apart in *. cbn in *. rewrite Hm2, Hm1 by lia. done. }
  split; [|split; [rewrite Htot2, HL, !tot_app; cbn; lia|split; [destruct Hfit as (x & Hx & Hle); exists x; split; [done|lia]|split; [done|split; [rewrite HL, length_app; cbn; lia|done]]]]].
  split; [split; [exact C2|exact S2|exact Hf2|exact Hh2|exact Hok3|exact Hbk]|intros a k Hk|intros a k x Hk Hx; by apply Hz|apply Hh].
  destruct (i_alloc _ _ _ Hh _ _ Hk) as [K0 K1]. split; [done|]. rewrite <- K1. destruct K0 as (? & ? & ?). cbn in *. eapply Hsame; [done|lia].
Qed.


(** ** More memory *)

(** A larger break, and a store in the new memory *)
Lemma held_grow s A L brk w v : held s A L -> h_brk s <= brk < KERNBASE -> h_brk s <= w ->
  held (set_mem (<[w := v]> (h_mem s)) (set_brk brk s)) A L.
Proof using Hbase Hbrk0.
  intros Hh Hb Hw. pose proof (i_ring _ _ _ Hh) as Hr. pose proof (r_brk _ _ Hr).
  assert (Hin : forall x, inside s x -> inside (set_mem (<[w := v]> (h_mem s)) (set_brk brk s)) x) by (unfold inside; cbn; intros x; lia).
  split; [split|intros a n Ha|apply Hh|apply Hh].
  - apply chain_write; [apply Hr|]. apply off_headers. intros x Hx. destruct (ring_elem _ _ x Hr Hx). lia.
  - apply Hr.
  - apply Hr.
  - apply Hr.
  - eapply Forall_impl; [apply Hr|]. intros x [->|Hx]; [by left|right; by apply Hin].
  - cbn. lia.
  - destruct (i_alloc _ _ _ Hh a n Ha) as [H1 H2]. split; [by apply Hin|]. destruct H1 as (? & ? & ?). cbn in *. by rewrite lookup_insert_ne by lia.
Qed.

Lemma held_grants s A L g : held s A L -> held (set_grants g s) A L.
Proof. intros [[]]. by split. Qed.

Lemma sbrk_run s n : 0 < n < 2 ^ 31 -> 0 <= h_brk s < KERNBASE ->
  (exists g, sbrk n s = Ok (-1) (set_grants g s)) \/ (exists g, sbrk n s = Ok (h_brk s) (set_brk (h_brk s + n) (set_grants g s)) /\ h_brk s + n < KERNBASE).
Proof using Type.
  intros Hn Hb. unfold sbrk. rewrite gets_bind. rewrite (u32_small (h_brk s + n)) by (unfold KERNBASE in Hb; lia). cbn zeta. rewrite (proj2 (Z.gtb_gt n 0)) by lia.
  destruct (Z.geb_spec (h_brk s + n) KERNBASE) as [|Hlt]; [left; exists (h_grants s); by destruct s|].
  destruct (Z.ltb_spec (h_brk s + n) (h_brk s)); [lia|]. rewrite gets_bind.
  assert (E : modify (set_grants (tail (h_grants s))) s = Ok tt (set_grants (tail (h_grants s)) s)) by done. rewrite (bind_run _ _ _ _ _ E).
  destruct (default false (head (h_grants s))); [right|left]; by exists (tail (h_grants s)).
Qed.

Lemma morecore_spec s A L n : inv s A L -> 1 <= n -> 8 * n < 2 ^ 31 ->
  exists r s', morecore n s = Ok r s' /\
    ((r = 0 /\ exists g, s' = set_grants g s) \/
     (r <> 0 /\ r = h_freep s' /\ h_brk s < h_brk s' /\ exists L', inv s' A L' /\ (exists x, x ∈ L' /\ n <= x.2) /\ (length L' <= length L + 1)%nat /\ same A s s')).
Proof using Hbase Hbrk0.
  intros [Hh Htot] Hn Hn8. pose proof (r_brk _ _ (i_ring _ _ _ Hh)) as Hbk. unfold morecore. cbn zeta. set (nu := if n <? 4096 then 4096 else n).
  assert (Hnu : n <= nu /\ 8 * nu < 2 ^ 31) by (unfold nu; destruct (Z.ltb_spec n 4096); lia). unfold sizeof_Header.
  replace (s32 (u32 (nu * 8))) with (8 * nu) by (rewrite u32_small, s32_id; lia).
  destruct (sbrk_run s (8 * nu) ltac:(lia) ltac:(lia)) as [(g & E)|(g & E & Hlt)]; rewrite (bind_run _ _ _ _ _ E).
  { exists 0, (set_grants g s). split; [done|]. left. split; [done|]. by exists g. }
  destruct (Z.eqb_spec (h_brk s) (-1)); [lia|]. set (s1 := set_brk _ _). rewrite size_of_small by lia.
  rewrite (bind_run _ _ _ _ _ (st_run s1 (h_brk s + 4) nu ltac:(lia) ltac:(cbn; lia))). rewrite (u32_small (h_brk s + 8)) by (unfold KERNBASE in Hbk; lia).
  set (s2 := set_mem _ s1). assert (Hh2 : held s2 A L).
  { apply (held_grow (set_grants g s)); [by apply held_grants|cbn; lia|cbn; lia]. }
  destruct (free_spec s2 A L (h_brk s) nu Hh2) as (s3 & L' & E3 & Hh3 & Htot3 & (x & Hx & Hxn) & Hb3 & Hlen & Hsame).
  - split; [unfold inside; cbn; lia|]. cbn. by rewrite lookup_insert_eq.
  - intros x Hx. destruct (ring_elem _ _ x (i_ring _ _ _ Hh) Hx). unfold apart. cbn. lia.
  - intros a k Hk. destruct (i_alloc _ _ _ Hh _ _ Hk) as [(? & ? & ?) _]. unfold apart. cbn in *. lia.
  - rewrite (bind_run _ _ _ _ _ E3). exists (h_freep s3), s3. split; [done|]. right.
    pose proof (r_freep _ _ (i_ring _ _ _ Hh3)) as Hf. apply list_elem_of_fmap in Hf as (y & Hy & Hyin). destruct (ring_elem _ _ y (i_ring _ _ _ Hh3) Hyin).
    split; [lia|]. split; [done|]. split; [rewrite Hb3; cbn; lia|]. exists L'. split; [split; [done|rewrite Htot3, Hb3; cbn; lia]|].
    split; [exists x; split; [done|lia]|]. split; [done|]. intros a k w Hk Hw. rewrite (Hsame a k w Hk Hw). cbn.
    destruct (i_alloc _ _ _ Hh _ _ Hk) as [(? & ? & ?) _]. cbn in *. by rewrite lookup_insert_ne by lia.
Qed.

(** ** Taking a block *)

(** What malloc has when it returns the block [a] of [n] headers *)
Definition taken (s s' : heap) (A : gmap Z Z) (n a : Z) : Prop :=
  A !! a = None /\ same A s s' /\ exists L', inv s' (<[a := n]> A) L'.

(** A ring without the end [a, a + 8n) of a block [x], which is in use now *)
Lemma inv_take s A L L' x n m f : inv s A L -> x ∈ L -> 1 <= n <= x.2 -> let a := x.1 + 8 * (x.2 - n) in
  let s' := set_freep f (set_mem m s) in
  ring s' L' -> tot L' + n = tot L -> (forall y, y ∈ L' -> y ∈ L /\ y <> x \/ y = (x.1, x.2 - n)) -> m !! (a + 4) = Some n ->
  (forall k j w, A !! k = Some j -> k <= w < k + 8 * j -> m !! w = h_mem s !! w) -> (forall y, y ∈ L' -> apart (a, n) y) -> taken s s' A n a.
Proof using Hbase Hbrk0.
  intros [Hh Htot] Hx Hn a s' Hr Htot' Hsub Hm Hsame Hap. pose proof (i_ring _ _ _ Hh) as Hr0. destruct (ring_elem _ _ x Hr0 Hx) as (X1 & X2 & X3 & X4).
  assert (Hax : forall k j, A !! k = Some j -> apart (k, j) x) by (intros k j Hk; by eapply i_apart).
  assert (Hxa : forall k j, A !! k = Some j -> apart (a, n) (k, j)).
  { intros k j Hk. specialize (Hax k j Hk). destruct (i_alloc _ _ _ Hh _ _ Hk) as [(? & ? & ?) _]. unfold apart, a in *. cbn in *. lia. }
  assert (HA : A !! a = None).
  { destruct (A !! a) as [j|] eqn:Hj; [|done]. specialize (Hxa _ _ Hj). destruct (i_alloc _ _ _ Hh _ _ Hj) as [(? & ? & ?) _]. unfold apart in Hxa. cbn in *. lia. }
  assert (Hin : inside s' (a, n)).
  { destruct (proj1 (Forall_forall _ _) (r_ok _ _ Hr0) x Hx) as [->|(? & ? & ?)]; [cbn in *; lia|]. unfold inside, a. cbn. lia. }
  split; [done|]. split; [exact Hsame|]. exists L'. split; [|rewrite msum_insert by done; cbn; lia]. split; [done|..].
  - intros k j Hk. destruct (decide (k = a)) as [->|Hne]; [rewrite lookup_insert_eq in Hk; injection Hk as <-; by split|].
    rewrite lookup_insert_ne in Hk by done. destruct (i_alloc _ _ _ Hh _ _ Hk) as [H1 H2]. split; [done|]. rewrite <- H2. destruct H1 as (? & ? & ?). cbn in *. eapply Hsame; [done|lia].
  - intros k j y Hk Hy. destruct (decide (k = a)) as [->|Hne]; [rewrite lookup_insert_eq in Hk; injection Hk as <-; by apply Hap|].
    rewrite lookup_insert_ne in Hk by done. destruct (Hsub y Hy) as [[Hy' _]| ->]; [by eapply i_apart|]. specialize (Hax k j Hk). unfold apart in *. cbn in *. lia.
  - intros k j k' j' Hk Hk' Hne. destruct (decide (k = a)) as [->|Hka]; [|destruct (decide (k' = a)) as [->|Hka']].
    + rewrite lookup_insert_eq in Hk. injection Hk as <-. rewrite lookup_insert_ne in Hk' by done. by apply Hxa.
    + rewrite lookup_insert_eq in Hk'. injection Hk' as <-. rewrite lookup_insert_ne in Hk by done. specialize (Hxa _ _ Hk). unfold apart in *. tauto.
    + rewrite lookup_insert_ne in Hk, Hk' by done. by eapply i_disj.
Qed.

(** The block taken is apart from the other free blocks, and no word of a block
    in use is one of those written. *)
Lemma take_apart s A L Q1 pv x Q2 n : inv s A L -> L = Q1 ++ pv :: x :: Q2 -> 1 <= n <= x.2 ->
  let a := x.1 + 8 * (x.2 - n) in
  (forall y, y ∈ L -> y <> x -> apart (a, n) y) /\
  (forall k j w, A !! k = Some j -> k <= w < k + 8 * j -> w <> pv.1 /\ w <> x.1 + 4 /\ w <> a + 4) /\
  (forall y, y ∈ (Q1 ++ [pv]) ++ Q2 -> y ∈ L /\ y <> x).
Proof using Hbase Hbrk0.
  intros Hi HL Hn a. pose proof (proj1 Hi) as Hh. pose proof (i_ring _ _ _ Hh) as Hr.
  assert (HL' : L = (Q1 ++ [pv]) ++ x :: Q2) by (rewrite <- app_assoc; done).
  assert (Hx : x ∈ L) by (rewrite HL; set_solver). assert (Hp : pv ∈ L) by (rewrite HL; set_solver).
  pose proof (r_sorted _ _ Hr) as Hs. rewrite HL' in Hs. destruct (sorted_split _ _ _ Hs) as (Sx1 & Sx2 & _).
  split; [|split].
  - intros y Hy Hne. rewrite HL' in Hy. apply elem_of_app in Hy as [Hy|Hy]; [destruct (Sx1 y Hy); unfold apart, a; cbn; lia|].
    apply elem_of_cons in Hy as [->|Hy]; [done|]. destruct (Sx2 y Hy). unfold apart, a. cbn. lia.
  - intros k j w Hk Hw. pose proof (i_apart _ _ _ Hh k j x Hk Hx) as Kx. pose proof (i_apart _ _ _ Hh k j pv Hk Hp) as Kp. destruct (i_alloc _ _ _ Hh _ _ Hk) as [(K1 & K2 & K3) _].
    assert (pv = (base, 0) \/ 1 <= pv.2) as [->|Hpv] by (destruct (proj1 (Forall_forall _ _) (r_ok _ _ Hr) pv Hp) as [->|(_ & ? & _)]; [by left|by right]);
      unfold apart, a in *; cbn in *; lia.
  - intros y Hy. rewrite HL'. split; [set_solver|]. intros ->. apply elem_of_app in Hy as [Hy|Hy]; [destruct (Sx1 x Hy)|destruct (Sx2 x Hy)]; lia.
Qed.

Lemma take_spec s A L Q1 pv x Q2 n f : inv s A L -> L = Q1 ++ pv :: x :: Q2 -> 1 <= n <= x.2 ->
  exists a s', malloc_loop f n pv.1 x.1 s = Ok (a + 8) s' /\ taken s s' A n a.
Proof using Hbase Hbrk0.
  intros Hi HL Hn. pose proof (proj1 Hi) as Hh. pose proof (i_ring _ _ _ Hh) as Hr. pose proof (r_brk _ _ Hr) as Hbk.
  assert (HL' : L = (Q1 ++ [pv]) ++ x :: Q2) by (rewrite <- app_assoc; done).
  destruct (ring_at _ _ _ _ _ Hr HL') as [En Es]. assert (Hx : x ∈ L) by (rewrite HL; set_solver). assert (Hp : pv ∈ L) by (rewrite HL; set_solver).
  destruct (ring_elem _ _ x Hr Hx) as (X1 & X2 & X3 & X4). destruct (ring_elem _ _ pv Hr Hp) as (V1 & V2 & V3 & V4).
  pose proof (r_sorted _ _ Hr) as Hs. rewrite HL' in Hs. pose proof (sorted_split _ _ _ Hs) as (Sx1 & Sx2 & Sx3 & Sx4 & Sx5).
  destruct (Sx1 pv ltac:(set_solver)) as [Pv1 Pv2]. pose proof (r_chain _ _ Hr) as Hc. rewrite HL' in Hc. apply chain_app in Hc as (Hc1 & Hcx & Hcs & Hc2).
  pose proof (r_ok _ _ Hr) as Hok. rewrite HL' in Hok. apply Forall_app in Hok as [Hok1 Hok2]. apply Forall_cons in Hok2 as [Hokx Hok2].
  assert (Hxin : inside s x) by (destruct Hokx as [->|]; [cbn in *; lia|done]).
  assert (E0 : malloc_loop f n pv.1 x.1 s = (p' <- (if x.2 =? n then nx <- ld x.1 ;; st pv.1 nx ;; ret x.1
     else st (size_of x.1) (u32 (x.2 - n)) ;; let p' := u32 (x.1 + sizeof_Header * u32 (x.2 - n)) in st (size_of p') n ;; ret p') ;;
     modify (set_freep pv.1) ;; ret (u32 (p' + sizeof_Header))) s).
  { destruct f; cbn [malloc_loop]; rewrite (bind_run _ _ _ _ _ Es), (proj2 (Z.geb_le x.2 n)) by lia; done. }
  rewrite E0. clear E0. set (a := x.1 + 8 * (x.2 - n)).
  destruct (take_apart s A L Q1 pv x Q2 n Hi HL Hn) as (Hap & HnA & Hne). fold a in Hap, HnA.
  assert (Hend : forall y, y ∈ Q2 -> x.1 + 8 * x.2 < y.1) by (intros y Hy; by destruct (Sx2 y Hy)).
  assert (Hbeg : forall y, y ∈ Q1 ++ [pv] -> y.1 + 8 <= x.1) by (intros y Hy; by destruct (Sx1 y Hy)).
  pose proof (r_head _ _ Hr) as Hhd. rewrite HL' in Hhd.
  destruct (Z.eqb_spec x.2 n) as [Exn|Hxn].
  - assert (Ea : a = x.1) by (unfold a; lia). rewrite bind_assoc, (bind_run _ _ _ _ _ En), bind_assoc.
    rewrite (bind_run _ _ _ _ _ (st_run s pv.1 (next_of Q2 base) ltac:(lia) ltac:(lia))), bind_ret_l. unfold sizeof_Header.
    rewrite (u32_small (x.1 + 8)) by (unfold KERNBASE in Hbk; lia). eexists a, _. rewrite Ea. split; [reflexivity|]. rewrite <- Ea. apply chain_app in Hc1 as (Hc1 & Hpn & Hps & _).
    assert (Hq1 : forall y, y ∈ Q1 -> y.1 + 8 <= pv.1) by (intros y Hy; apply StronglySorted_app in Sx4 as (Hb & _); by destruct (Hb y pv Hy ltac:(set_solver))).
    apply (inv_take s A L ((Q1 ++ [pv]) ++ Q2) x n); [done|done|lia| | | | | |].
    + split; [|..|apply Hr]; cbn; [|by apply StronglySorted_app|rewrite !fmap_app; set_solver|by destruct Q1|by apply Forall_app].
      rewrite <- app_assoc. apply chain_app. split; [apply chain_write; [done|apply off_headers; intros y Hy; specialize (Hq1 y Hy); lia]|]. cbn.
      rewrite lookup_insert_eq, lookup_insert_ne by lia. split; [done|]. split; [done|]. apply chain_write; [done|apply off_headers; intros y Hy; specialize (Hend y Hy); lia].
    + rewrite HL', !tot_app. cbn. lia.
    + intros y Hy. left. by apply Hne.
    + fold a. rewrite Ea, lookup_insert_ne by lia. by rewrite Hcs, Exn.
    + intros k j w Hk Hw. apply lookup_insert_ne. by destruct (HnA k j w Hk Hw).
    + intros y Hy. by apply Hap; apply Hne.
  - rewrite bind_assoc. rewrite size_of_small by lia. unfold sizeof_Header. rewrite (u32_small (x.2 - n)) by (unfold KERNBASE in Hbk; lia). fold a.
    assert (Ha : x.1 + 8 <= a /\ a + 8 * n = x.1 + 8 * x.2) by (unfold a; lia). rewrite (u32_small a) by (unfold KERNBASE in Hbk; lia).
    rewrite (bind_run _ _ _ _ _ (st_run s (x.1 + 4) (x.2 - n) ltac:(lia) ltac:(lia))). cbn zeta. rewrite size_of_small by lia. rewrite bind_assoc.
    set (s1 := set_mem _ s). rewrite (bind_run _ _ _ _ _ (st_run s1 (a + 4) n ltac:(lia) ltac:(cbn; lia))), bind_ret_l.
    rewrite (u32_small (a + 8)) by (unfold KERNBASE in Hbk; lia). eexists a, _. split; [reflexivity|].
    apply (inv_take s A L ((Q1 ++ [pv]) ++ (x.1, x.2 - n) :: Q2) x n); [done|done|lia| | | | | |]; fold a.
    + split; [|..|apply Hr]; cbn; [|apply StronglySorted_app; split; [|split; [done|apply StronglySorted_cons; split; [apply Forall_forall|done]]]|rewrite !fmap_app; set_solver|by destruct Q1|apply Forall_app; split; [done|apply Forall_cons; split; [right|done]]].
      * apply chain_app. split; [do 2 (apply chain_write; [|apply off_headers; intros y Hy; specialize (Hbeg y Hy); lia]); done|]. cbn.
        rewrite (lookup_insert_ne _ (a + 4) x.1), (lookup_insert_ne _ (x.1 + 4) x.1), (lookup_insert_ne _ (a + 4) (x.1 + 4)), lookup_insert_eq by lia. split; [done|]. split; [done|].
        do 2 (apply chain_write; [|apply off_headers; intros y Hy; specialize (Hend y Hy); lia]). done.
      * intros y z Hy Hz. apply elem_of_cons in Hz as [->|Hz]; [exact (Sx1 y Hy)|by apply Sx3].
      * intros y Hy. destruct (Sx2 y Hy). unfold before. cbn. lia.
      * destruct Hxin as (? & ? & ?). unfold inside. cbn. lia.
    + rewrite HL', !tot_app. cbn. lia.
    + intros y Hy. apply elem_of_app in Hy as [Hy|Hy]; [left; apply Hne; set_solver|]. apply elem_of_cons in Hy as [->|Hy]; [by right|left; apply Hne; set_solver].
    + cbn. by rewrite lookup_insert_eq.
    + intros k j w Hk Hw. destruct (HnA k j w Hk Hw) as (_ & ? & ?). cbn. by rewrite !lookup_insert_ne.
    + intros y Hy. apply elem_of_app in Hy as [Hy|Hy]; [apply Hap; apply Hne; set_solver|]. apply elem_of_cons in Hy as [->|Hy]; [unfold apart; cbn; lia|apply Hap; apply Hne; set_solver].
Qed.

(** ** The search *)

(** The loop of malloc goes in [k] rounds from one pair of pointers to another. *)
Definition goes (s : heap) (n : Z) (k : nat) (pv p pv' p' : Z) : Prop :=
  forall f, malloc_loop (k + f) n pv p s = malloc_loop f n pv' p' s.

Lemma goes_refl s n pv p : goes s n 0 pv p pv p.
Proof. by intros f. Qed.

Lemma goes_trans s n k1 k2 a b c d e f : goes s n k1 a b c d -> goes s n k2 c d e f -> goes s n (k1 + k2) a b e f.
Proof. intros H1 H2 g. by rewrite <- Nat.add_assoc, H1, H2. Qed.

Lemma goes_step s L Q pv x T n : ring s L -> L = Q ++ x :: T -> x.2 < n -> x.1 <> h_freep s -> goes s n 1 pv x.1 x.1 (next_of T base).
Proof using Hbase Hbrk0.
  intros Hr HL Hx Hf f. destruct (ring_at _ _ _ _ _ Hr HL) as [En Es]. cbn [Nat.add malloc_loop]. rewrite (bind_run _ _ _ _ _ Es).
  destruct (Z.geb_spec x.2 n); [lia|]. rewrite gets_bind. rewrite (proj2 (Z.eqb_neq _ _) Hf). by rewrite (bind_run _ _ _ _ _ En).
Qed.

(** Blocks that are too small are passed. *)
Lemma goes_over s L n S : forall Q pv T, ring s L -> L = Q ++ pv :: S ++ T -> (forall x, x ∈ S -> x.2 < n /\ x.1 <> h_freep s) ->
  exists Q' pv', Q ++ pv :: S = Q' ++ [pv'] /\ goes s n (length S) pv.1 (next_of (S ++ T) base) pv'.1 (next_of T base).
Proof using Hbase Hbrk0.
  induction S as [|x S IH]; intros Q pv T Hr HL Hs; [exists Q, pv; split; [done|apply goes_refl]|].
  destruct (Hs x ltac:(by left)) as [Hx1 Hx2]. destruct (IH (Q ++ [pv]) x T Hr) as (Q' & pv' & E & Hg); [by rewrite HL, <- app_assoc|set_solver|].
  exists Q', pv'. split; [by rewrite <- E, <- app_assoc|]. change (length (x :: S)) with (1 + length S)%nat. eapply goes_trans; [|exact Hg].
  eapply (goes_step s L (Q ++ [pv])); [done|by rewrite HL, <- app_assoc|done|done].
Qed.

Lemma first_fit n (S : list blk) : (forall x, x ∈ S -> x.2 < n) \/ exists S1 x S2, S = S1 ++ x :: S2 /\ n <= x.2 /\ forall y, y ∈ S1 -> y.2 < n.
Proof using Type.
  clear Hbase Hbrk0. induction S as [|x S IH]; [left; set_solver|]. destruct (Z.lt_ge_cases x.2 n) as [Hx|Hx].
  - destruct IH as [IH|(S1 & y & S2 & -> & Hy & HS)]; [left; intros y Hy; apply elem_of_cons in Hy as [->|Hy]; auto|].
    right. exists (x :: S1), y, S2. split; [done|]. split; [done|]. intros z Hz. apply elem_of_cons in Hz as [->|Hz]; auto.
  - right. exists [], x, S. split; [done|]. split; [done|]. set_solver.
Qed.

(** The search stops at a block that is large enough, or has seen all of them
    when it is back at [freep]. *)
Definition stop (s : heap) (L : list blk) (n pv p : Z) : Prop :=
  (exists Q1 v x Q2, L = Q1 ++ v :: x :: Q2 /\ pv = v.1 /\ p = x.1 /\ n <= x.2) \/ p = h_freep s /\ forall x, x ∈ L -> x.2 < n.

(** From [pv] on, up to the end [T] of the list *)
Lemma search_part s L n Q pv S T : ring s L -> L = Q ++ pv :: S ++ T -> (forall x, x ∈ S -> x.1 <> h_freep s) ->
  exists k v p, (k <= length S)%nat /\ goes s n k pv.1 (next_of (S ++ T) base) v p /\
    ((exists Q1 w x Q2, L = Q1 ++ w :: x :: Q2 /\ v = w.1 /\ p = x.1 /\ n <= x.2) \/
     (p = next_of T base /\ (forall x, x ∈ S -> x.2 < n) /\ exists Q' w, Q ++ pv :: S = Q' ++ [w] /\ v = w.1)).
Proof using Hbase Hbrk0.
  intros Hr HL Hf. destruct (first_fit n S) as [Hn|(S1 & x & S2 & -> & Hx & Hn)].
  - destruct (goes_over s L n S Q pv T Hr HL ltac:(auto)) as (Q' & w & E & Hg). exists (length S), w.1, (next_of T base). split; [done|]. split; [done|].
    right. split; [done|]. split; [done|]. by exists Q', w.
  - destruct (goes_over s L n S1 Q pv (x :: S2 ++ T) Hr) as (Q' & w & E & Hg); [rewrite HL, <- app_assoc; done|intros y Hy; split; [auto|apply Hf; set_solver]|].
    exists (length S1), w.1, x.1. rewrite <- app_assoc. split; [rewrite length_app; lia|]. split; [done|]. left. exists Q', w, x, (S2 ++ T). split; [|done].
    rewrite HL, <- app_assoc. replace (Q' ++ w :: x :: S2 ++ T) with ((Q' ++ [w]) ++ x :: S2 ++ T) by (rewrite <- app_assoc; done). rewrite <- E, <- app_assoc. done.
Qed.

Lemma search s L n : ring s L -> 1 <= n -> exists R1 f R2 k pv p, L = R1 ++ f :: R2 /\ f.1 = h_freep s /\ (k <= length L)%nat /\
  goes s n k (h_freep s) (next_of R2 base) pv p /\ stop s L n pv p.
Proof using Hbase Hbrk0.
  intros Hr Hn. pose proof (r_freep _ _ Hr) as Hf. apply list_elem_of_fmap in Hf as (f & Ef & Hfin). apply list_elem_of_split in Hfin as (R1 & R2 & HL).
  pose proof (r_sorted _ _ Hr) as Hs. rewrite HL in Hs. apply sorted_split in Hs as (Hs1 & Hs2 & _).
  destruct (search_part s L n R1 f R2 [] Hr) as (k1 & v1 & p1 & Hk1 & Hg1 & Hr1); [by rewrite app_nil_r|intros x Hx; destruct (Hs2 x Hx); lia|].
  rewrite app_nil_r in Hg1. pose proof (f_equal length HL) as Hlen. rewrite length_app in Hlen. cbn in Hlen. exists R1, f, R2. rewrite Ef.
  destruct Hr1 as [Hhit|(-> & Hn2 & _)]; [exists k1, v1, p1; do 2 (split; [done|]); split; [lia|]; split; [done|by left]|]. cbn [next_of] in Hg1.
  pose proof (r_head _ _ Hr) as Hhd. destruct R1 as [|h R1]; [rewrite HL in Hhd; injection Hhd as ->|].
  { exists k1, v1, base. do 2 (split; [done|]). split; [lia|]. split; [done|]. right. split; [done|]. rewrite HL. intros x Hx. apply elem_of_cons in Hx as [->|Hx]; [cbn; lia|auto]. }
  rewrite HL in Hhd. injection Hhd as ->. destruct (Hs1 (base, 0) ltac:(by left)) as [Hbf _]. cbn in Hbf.
  assert (Hg2 : goes s n 1 v1 base base (next_of (R1 ++ f :: R2) base)) by (apply (goes_step s L [] v1 (base, 0)); [done|done|cbn; lia|cbn; lia]).
  destruct (search_part s L n [] (base, 0) R1 (f :: R2) Hr) as (k3 & v3 & p3 & Hk3 & Hg3 & Hr3); [by rewrite HL|intros x Hx; destruct (Hs1 x ltac:(by right)); lia|].
  exists (k1 + (1 + k3))%nat, v3, p3. do 2 (split; [done|]). split; [cbn in Hlen; lia|]. split; [by do 2 (eapply goes_trans; [eassumption|])|].
  destruct Hr3 as [Hhit|(-> & Hn1 & Q' & w & HQ & ->)]; [by left|]. cbn [next_of]. destruct (Z.lt_ge_cases f.2 n) as [Hfn|Hfn]; [right|left].
  - split; [done|]. rewrite HL. intros x Hx. apply elem_of_app in Hx as [Hx|Hx]; apply elem_of_cons in Hx as [->|Hx]; [cbn; lia|auto|done|auto].
  - exists Q', w, f, R2. split; [|done]. rewrite HL. cbn in HQ. replace (Q' ++ w :: f :: R2) with ((Q' ++ [w]) ++ f :: R2) by (rewrite <- app_assoc; done). by rewrite <- HQ.
Qed.

(** ** malloc *)

Lemma taken_trans s s1 s2 A n a : same A s s1 -> taken s1 s2 A n a -> taken s s2 A n a.
Proof. intros Hs (H1 & H2 & H3). split; [done|]. split; [|done]. intros b k w Hb Hw. by rewrite (H2 b k w Hb Hw), (Hs b k w Hb Hw). Qed.

Lemma hit_spec s A L n pv p f : inv s A L -> 1 <= n -> (exists Q1 v x Q2, L = Q1 ++ v :: x :: Q2 /\ pv = v.1 /\ p = x.1 /\ n <= x.2) ->
  exists a s', malloc_loop f n pv p s = Ok (a + 8) s' /\ taken s s' A n a.
Proof using Hbase Hbrk0. intros Hi Hn (Q1 & v & x & Q2 & HL & -> & -> & Hx). by eapply take_spec. Qed.

Lemma freep_next s L R1 f R2 : ring s L -> L = R1 ++ f :: R2 -> f.1 = h_freep s -> ld (h_freep s) s = Ok (next_of R2 base) s.
Proof using Hbase Hbrk0. intros Hr HL <-. by apply (ring_at _ _ _ _ _ Hr HL). Qed.

Lemma malloc_ring s A L n fuel : inv s A L -> 1 <= n -> 8 * n < 2 ^ 31 -> (2 * length L + 3 <= fuel)%nat ->
  exists r s', (p <- ld (h_freep s) ;; malloc_loop fuel n (h_freep s) p) s = Ok r s' /\
    ((r = 0 /\ (forall x, x ∈ L -> x.2 < n) /\ exists g, s' = set_grants g s) \/ exists a, r = a + 8 /\ taken s s' A n a).
Proof using Hbase Hbrk0.
  intros Hi Hn Hn8 Hfuel. pose proof (i_ring _ _ _ (proj1 Hi)) as Hr.
  destruct (search s L n Hr Hn) as (R1 & f & R2 & k & pv & p & HL & Hf & Hk & Hg & Hstop).
  rewrite (bind_run _ _ _ _ _ (freep_next _ _ _ _ _ Hr HL Hf)). replace fuel with (k + S (fuel - k - 1))%nat by lia. rewrite Hg.
  destruct Hstop as [Hhit|[-> Hsmall]]; [destruct (hit_spec s A L n pv p (S (fuel - k - 1)) Hi Hn Hhit) as (a & s' & E & Ht); exists (a + 8), s'; split; [done|]; right; by exists a|].
  cbn [malloc_loop]. rewrite <- Hf. destruct (ring_at _ _ _ _ _ Hr HL) as [_ Es]. rewrite (bind_run _ _ _ _ _ Es).
  destruct (Z.geb_spec f.2 n) as [Hge|_]; [specialize (Hsmall f ltac:(rewrite HL; set_solver)); lia|]. rewrite gets_bind, Hf, Z.eqb_refl.
  destruct (morecore_spec s A L n Hi Hn Hn8) as (r & s1 & E1 & [(-> & g & ->)|(Hr0 & Hr1 & Hb1 & L1 & Hi1 & (x & Hx & Hxn) & Hl1 & Hsame)]); rewrite (bind_run _ _ _ _ _ E1).
  { exists 0, (set_grants g s). split; [done|]. left. split; [done|]. split; [done|]. by exists g. }
  rewrite (proj2 (Z.eqb_neq r 0) Hr0), Hr1. pose proof (i_ring _ _ _ (proj1 Hi1)) as Hring1.
  destruct (search s1 L1 n Hring1 Hn) as (R1' & f' & R2' & k' & pv' & p' & HL' & Hf' & Hk' & Hg' & Hstop').
  rewrite (bind_run _ _ _ _ _ (freep_next _ _ _ _ _ Hring1 HL' Hf')). replace (fuel - k - 1)%nat with (k' + (fuel - k - 1 - k'))%nat by lia. rewrite Hg'.
  destruct Hstop' as [Hhit|[_ Hno]]; [|specialize (Hno x Hx); lia].
  destruct (hit_spec s1 A L1 n pv' p' (fuel - k - 1 - k') Hi1 Hn Hhit) as (a & s' & E & Ht). exists (a + 8), s'. split; [done|]. right. exists a. split; [done|]. by eapply taken_trans.
Qed.

(** The state of the allocator: not used yet, or with a ring *)
Definition heap_ok (s : heap) (A : gmap Z Z) : Prop :=
  (h_freep s = 0 /\ A = ∅ /\ h_brk s = brk0 /\ brk0 < KERNBASE) \/ exists L, inv s A L.

Lemma first_ring s : h_brk s = brk0 -> brk0 < KERNBASE -> inv (set_mem (<[base + 4 := 0]> (<[base := base]> (h_mem s))) (set_freep base s)) ∅ [(base, 0)].
Proof using Hbase Hbrk0.
  intros Hb Hk. split; [split; [split|done..]|cbn; unfold msum; rewrite map_fold_empty; lia].
  - cbn. rewrite lookup_insert_eq, lookup_insert_ne, lookup_insert_eq by lia. done.
  - by repeat constructor.
  - by left.
  - done.
  - apply Forall_singleton. by left.
  - cbn. lia.
Qed.

Lemma nunits_spec nbytes : 0 <= nbytes < 2 ^ 31 - 15 -> let n := nunits_of nbytes in 1 <= n /\ 8 * n < 2 ^ 31 /\ nbytes <= 8 * (n - 1).
Proof.
  intros Hb. cbn zeta. unfold nunits_of, sizeof_Header. rewrite (u32_small (nbytes + 8 - 1)) by lia. pose proof (Z.div_mod (nbytes + 8 - 1) 8 ltac:(done)).
  pose proof (Z.mod_pos_bound (nbytes + 8 - 1) 8 ltac:(done)). rewrite u32_small; lia.
Qed.

Lemma malloc_spec s A nbytes (n := nunits_of nbytes) : heap_ok s A -> 0 <= nbytes < 2 ^ 31 - 15 ->
  exists r s', malloc base nbytes s = Ok r s' /\
    ((r = 0 /\ same A s s' /\ h_brk s' = h_brk s /\ exists L, inv s' A L /\ forall x, x ∈ L -> x.2 < n) \/ (exists a, r = a + 8 /\ taken s s' A n a)).
Proof using Hbase Hbrk0.
  intros Hok Hb. destruct (nunits_spec nbytes Hb) as (Hn & Hn8 & _). fold n in Hn, Hn8. unfold malloc. cbn zeta. fold n. rewrite gets_bind.
  assert (Hmain : forall s1 L, inv s1 A L -> h_brk s1 = h_brk s -> same A s s1 -> exists r s', (p <- ld (h_freep s1) ;; fuel <- gets (fun s => (2 * blocks s + 4)%nat) ;; malloc_loop fuel n (h_freep s1) p) s1 = Ok r s' /\
    ((r = 0 /\ same A s s' /\ h_brk s' = h_brk s /\ exists L, inv s' A L /\ forall x, x ∈ L -> x.2 < n) \/ (exists a, r = a + 8 /\ taken s s' A n a))).
  { intros s1 L Hi Hbrk Hsame. pose proof (ring_length _ _ (i_ring _ _ _ (proj1 Hi))) as Hlen.
    destruct (malloc_ring s1 A L n (2 * blocks s1 + 4) Hi Hn Hn8 ltac:(lia)) as (r & s' & E & Hr). exists r, s'. split.
    - rewrite <- E. unfold bind, ld. cbn. by destruct (valid (h_freep s1) s1).
    - destruct Hr as [(-> & Hsm & g & ->)|(a & -> & Ht)]; [left|right; exists a; split; [done|by eapply taken_trans]].
      split; [done|]. split; [done|]. split; [done|]. exists L. split; [|done]. destruct Hi as [Hh Ht]. split; [by apply held_grants|done]. }
  destruct Hok as [(Hf & -> & Hbrk & Hk)|(L & Hi)].
  - rewrite Hf. cbn [Z.eqb]. rewrite bind_assoc, (bind_run _ _ _ _ _ (st_run s base base ltac:(lia) ltac:(lia))), bind_assoc.
    set (s1 := set_mem _ s). assert (E1 : modify (set_freep base) s1 = Ok tt (set_freep base s1)) by done. rewrite (bind_run _ _ _ _ _ E1), bind_assoc, size_of_small by (unfold KERNBASE in *; lia).
    rewrite (bind_run _ _ _ _ _ (st_run (set_freep base s1) (base + 4) 0 ltac:(lia) ltac:(cbn; lia))), bind_ret_l.
    apply (Hmain _ [(base, 0)] (first_ring s Hbrk Hk)); [done|]. by intros a k w Hk'.
  - pose proof (r_freep _ _ (i_ring _ _ _ (proj1 Hi))) as Hf. apply list_elem_of_fmap in Hf as (y & Hy & Hyin). destruct (ring_elem _ _ y (i_ring _ _ _ (proj1 Hi)) Hyin).
    rewrite (proj2 (Z.eqb_neq (h_freep s) 0)) by lia. rewrite bind_ret_l. by apply (Hmain s L).
Qed.

(** ** Blocks in use *)

Lemma free_ok s A a n : heap_ok s A -> A !! a = Some n ->
  exists s', free (a + 8) s = Ok tt s' /\ heap_ok s' (delete a A) /\ same (delete a A) s s'.
Proof using Hbase Hbrk0.
  intros [(_ & -> & _)|(L & Hh & Htot)] Ha; [done|]. assert (Hd : forall b k, delete a A !! b = Some k -> b <> a /\ A !! b = Some k).
  { intros b k. rewrite lookup_delete_Some. naive_solver. }
  assert (Hh' : held s (delete a A) L).
  { split; [apply Hh|intros b k Hb|intros b k x Hb|intros b k b' k' Hb Hb'].
    - apply Hd in Hb as [_ Hb]. by apply (i_alloc _ _ _ Hh).
    - apply Hd in Hb as [_ Hb]. by apply (i_apart _ _ _ Hh).
    - apply Hd in Hb as [_ Hb]. apply Hd in Hb' as [_ Hb']. by apply (i_disj _ _ _ Hh). }
  destruct (free_spec s (delete a A) L a n Hh') as (s' & L' & E & Hh2 & Htot2 & _ & Hb2 & _ & Hsame).
  - by apply (i_alloc _ _ _ Hh).
  - intros x Hx. by apply (i_apart _ _ _ Hh).
  - intros b k Hb. apply Hd in Hb as [Hne Hb]. apply (i_disj _ _ _ Hh); done.
  - exists s'. split; [done|]. split; [|done]. right. exists L'. split; [done|]. rewrite Htot2, Hb2. rewrite (msum_delete A a n Ha) in Htot. lia.
Qed.

(** The program writes into a block it has. *)
Lemma write_ok s A a n w v : heap_ok s A -> A !! a = Some n -> a + 8 <= w -> w + 4 <= a + 8 * n ->
  heap_ok (set_mem (<[w := v]> (h_mem s)) s) A.
Proof using Hbase Hbrk0.
  intros [(_ & -> & _)|(L & Hh & Htot)] Ha Hw1 Hw2; [done|]. right. exists L. split; [|done]. pose proof (i_ring _ _ _ Hh) as Hr.
  destruct (i_alloc _ _ _ Hh _ _ Ha) as [(A1 & A2 & A3) _]. cbn in A1, A2, A3.
  split; [split; [|apply Hr..]|intros b k Hb|apply Hh|apply Hh].
  - apply chain_write; [apply Hr|]. apply off_headers. intros x Hx. pose proof (i_apart _ _ _ Hh a n x Ha Hx) as Hap. unfold apart in Hap. cbn in Hap.
    destruct (proj1 (Forall_forall _ _) (r_ok _ _ Hr) x Hx) as [->|(? & ? & ?)]; cbn in *; lia.
  - destruct (i_alloc _ _ _ Hh _ _ Hb) as [H1 H2]. split; [done|]. cbn. rewrite lookup_insert_ne; [done|]. destruct H1 as (? & ? & ?). cbn in *.
    destruct (decide (a = b)) as [->|Hne]; [lia|]. pose proof (i_disj _ _ _ Hh _ _ _ _ Ha Hb Hne) as Hap. unfold apart in Hap. cbn in Hap. lia.
Qed.

(** A program that uses the allocator: [A] are the blocks malloc has returned
    and free has not been called with. *)
Inductive ustep : heap * gmap Z Z -> heap * gmap Z Z -> Prop :=
| U_malloc nbytes s A r s' : 0 <= nbytes < 2 ^ 31 - 15 -> malloc base nbytes s = Ok r s' ->
    ustep (s, A) (s', if decide (r = 0) then A else <[r - 8 := nunits_of nbytes]> A)
| U_free a n s A s' : A !! a = Some n -> free (a + 8) s = Ok tt s' -> ustep (s, A) (s', delete a A)
| U_write a n s A w v : A !! a = Some n -> a + 8 <= w -> w + 4 <= a + 8 * n -> ustep (s, A) (set_mem (<[w := v]> (h_mem s)) s, A).

Lemma ustep_ok x y : ustep x y -> heap_ok x.1 x.2 -> heap_ok y.1 y.2.
Proof using Hbase Hbrk0.
  intros Hstep. destruct Hstep as [nbytes s A r s' Hb E|a n s A s' Ha E|a n s A w v Ha H1 H2]; cbn; intros Hok.
  - destruct (malloc_spec s A nbytes Hok Hb) as (r' & s1 & E' & Hr). rewrite E in E'. injection E' as <- <-.
    destruct Hr as [(-> & _ & _ & L & Hi & _)|(a & -> & _ & _ & L & Hi)]; [rewrite decide_True by done; right; by exists L|].
    assert (0 < a + 8). { destruct (i_alloc _ _ _ (proj1 Hi) a (nunits_of nbytes)) as [(? & _) _]; [apply lookup_insert_eq|]. cbn in *. lia. }
    rewrite decide_False by lia. replace (a + 8 - 8) with a by lia. right. by exists L.
  - destruct (free_ok s A a n Hok Ha) as (s1 & E' & Hok' & _). rewrite E in E'. by injection E' as <-.
  - by eapply write_ok.
Qed.

Lemma steps_ok x y : rtc ustep x y -> heap_ok x.1 x.2 -> heap_ok y.1 y.2.
Proof using Hbase Hbrk0. induction 1; [done|]. eauto using ustep_ok. Qed.

Lemma heap_blocks s A : heap_ok s A ->
  (forall a n, A !! a = Some n -> brk0 <= a /\ 1 <= n /\ a + 8 * n <= h_brk s) /\
  (forall a n a' n', A !! a = Some n -> A !! a' = Some n' -> a <> a' -> a + 8 * n <= a' \/ a' + 8 * n' <= a).
Proof using Type.
  intros [(_ & -> & _)|(L & Hh & _)]; [done|]. split; [intros a n Ha; by destruct (i_alloc _ _ _ Hh _ _ Ha)|apply Hh].
Qed.

(** ** One block *)

(** Blocks that do not touch and fill the memory are one block. *)
Lemma tot_bound s L : forall x, StronglySorted before (x :: L) -> Forall (inside s) (x :: L) -> x.1 + 8 * tot (x :: L) <= h_brk s /\
  (L <> [] -> x.1 + 8 * tot (x :: L) < h_brk s).
Proof using Type.
  clear Hbase Hbrk0. induction L as [|y L IH]; intros x Hs Hf; apply Forall_cons in Hf as [(F1 & F2 & F3) Hf]; [cbn in *; split; [lia|done]|].
  apply StronglySorted_cons in Hs as [Hx Hs]. apply Forall_cons in Hx as [[_ Hx] _]. destruct (IH y Hs Hf) as [IH1 _]. cbn in *. split; [lia|]. intros _. lia.
Qed.

Lemma one_block s L : inv s ∅ L -> brk0 < h_brk s -> L = [(base, 0); (brk0, (h_brk s - brk0) / 8)].
Proof using Hbase Hbrk0.
  intros [Hh Htot] Hb. unfold msum in Htot. rewrite map_fold_empty in Htot. pose proof (i_ring _ _ _ Hh) as Hr. pose proof (r_head _ _ Hr) as Hhd. destruct L as [|x L]; [done|].
  injection Hhd as ->. pose proof (r_sorted _ _ Hr) as Hs. apply StronglySorted_cons in Hs as [Hx Hs]. rewrite Forall_forall in Hx.
  assert (Hin : Forall (inside s) L).
  { apply Forall_forall. intros y Hy. destruct (proj1 (Forall_forall _ _) (r_ok _ _ Hr) y ltac:(by right)) as [->|]; [|done]. destruct (Hx _ Hy). cbn in *. lia. }
  destruct L as [|y L]; [cbn in Htot; lia|]. destruct (tot_bound s L y Hs Hin) as [H1 H2]. cbn in Htot, H1, H2. apply Forall_cons in Hin as [(I1 & I2 & I3) _].
  destruct L as [|z L]; [|specialize (H2 ltac:(done)); lia]. cbn in *. f_equal. destruct y as [b n]. cbn in *. assert (b = brk0) as -> by lia. do 2 f_equal.
  apply Z.div_unique_exact; lia.
Qed.

End ring.

(** ** The theorems *)


(** C27: the allocator is safe in use.  Whatever a program does that writes only
    into blocks it has and frees only these, in every state it reaches the
    blocks in use are disjoint and in its memory, every further request and
    every free returns, and free leaves the other blocks as they are. *)
Theorem malloc_safe base brk0 s0 s A : 0 < base -> base + 8 <= brk0 -> h_freep s0 = 0 -> h_brk s0 = brk0 -> brk0 < KERNBASE -> rtc (ustep base) (s0, ∅) (s, A) ->
  (forall a n, A !! a = Some n -> brk0 <= a /\ 1 <= n /\ a + 8 * n <= h_brk s) /\
  (forall a n a' n', A !! a = Some n -> A !! a' = Some n' -> a <> a' -> a + 8 * n <= a' \/ a' + 8 * n' <= a) /\
  (forall nbytes, 0 <= nbytes < 2 ^ 31 - 15 -> exists r s', malloc base nbytes s = Ok r s') /\
  (forall a n, A !! a = Some n -> exists s', free (a + 8) s = Ok tt s' /\ same (delete a A) s s').
Proof.
  intros Hb Hb0 Hf Hbrk Hk Hst. assert (Hok : heap_ok base brk0 s A) by (apply (steps_ok base brk0 Hb Hb0 _ _ Hst); by left).
  destruct (heap_blocks _ _ _ _ Hok) as [H1 H2]. split; [done|]. split; [done|]. split.
  - intros nbytes Hn. destruct (malloc_spec base brk0 Hb Hb0 s A nbytes Hok Hn) as (r & s' & E & _). by exists r, s'.
  - intros a n Ha. destruct (free_ok base brk0 Hb Hb0 s A a n Hok Ha) as (s' & E & _ & Hs). by exists s'.
Qed.

(** C28: nothing is lost.  When the program has freed every block, the free list
    is one block: all the memory the program has ever asked for. *)
Theorem free_coalesces base brk0 s0 s : 0 < base -> base + 8 <= brk0 -> h_freep s0 = 0 -> h_brk s0 = brk0 -> brk0 < KERNBASE -> rtc (ustep base) (s0, ∅) (s, ∅) ->
  brk0 < h_brk s -> exists L, ring base brk0 s L /\ L = [(base, 0); (brk0, (h_brk s - brk0) / 8)].
Proof.
  intros Hb Hb0 Hf Hbrk Hk Hst Hgt. assert (Hok : heap_ok base brk0 s ∅) by (apply (steps_ok base brk0 Hb Hb0 _ _ Hst); by left).
  destruct Hok as [(_ & _ & E & _)|(L & Hi)]; [lia|]. exists L. split; [apply Hi|]. by apply one_block.
Qed.

(** ** Runs *)


(** A program that allocates 100 bytes, writes to them and frees them *)
Definition w_h1 : heap := run_state (malloc 64 100) h0.
Definition w_h2 : heap := set_mem (<[49048 := 7]> (h_mem w_h1)) w_h1.
Definition w_h3 : heap := match free 49048 w_h2 with Ok _ s => s | _ => w_h2 end.

Lemma h_step1 : ustep 64 (h0, ∅) (w_h1, {[49040 := 14]}).
Proof. apply (U_malloc 64 100 h0 ∅ 49048 w_h1); [lia|]. apply returns_run. by vm_compute. Qed.

Lemma h_step2 : ustep 64 (w_h1, {[49040 := 14]}) (w_h2, {[49040 := 14]}).
Proof. apply (U_write 64 49040 14); [by vm_compute|lia|lia]. Qed.

Lemma h_step3 : ustep 64 (w_h2, {[49040 := 14]}) (w_h3, ∅).
Proof.
  replace (∅ : gmap Z Z) with (delete 49040 ({[49040 := 14]} : gmap Z Z)) by (by vm_compute). apply (U_free 64 49040 14); [by vm_compute|].
  unfold w_h3. change (49040 + 8) with 49048. by destruct (free 49048 w_h2) as [[] s| | |] eqn:E; vm_compute in E.
Qed.

Lemma malloc_safe_witness : rtc (ustep 64) (h0, ∅) (w_h2, {[49040 := 14]}) /\ exists s', free 49048 w_h2 = Ok tt s' /\ same (delete 49040 {[49040 := 14]}) w_h2 s'.
Proof.
  assert (Hst : rtc (ustep 64) (h0, ∅) (w_h2, {[49040 := 14]})) by (eapply rtc_l; [apply h_step1|]; eapply rtc_l; [apply h_step2|done]). split; [done|].
  destruct (malloc_safe 64 16384 h0 w_h2 {[49040 := 14]} ltac:(done) ltac:(done) eq_refl eq_refl ltac:(done) Hst) as (_ & _ & _ & Hf). by apply (Hf 49040 14).
Defined.

Lemma free_coalesces_witness : rtc (ustep 64) (h0, ∅) (w_h3, ∅) /\ exists L, ring 64 16384 w_h3 L /\ L = [(64, 0); (16384, (h_brk w_h3 - 16384) / 8)].
Proof.
  assert (Hst : rtc (ustep 64) (h0, ∅) (w_h3, ∅)) by (eapply rtc_l; [apply h_step1|]; eapply rtc_l; [apply h_step2|]; eapply rtc_l; [apply h_step3|done]). split; [done|].
  by apply (free_coalesces 64 16384 h0 w_h3).
Defined.

(** A request of nearly four gigabytes wraps to one header: malloc returns a
    block with no room at all. *)
Example malloc_wraps : nunits_of 4294967295 = 1 /\ returns 49152 (malloc 64 4294967295 h0) = true.
Proof. by vm_compute. Qed.

End UmallocProps.
