(* ===== verification/Filters.v ===== *)
(** * cat.c, wc.c and echo.c: filters

    A file is what successive reads of it return: chunks of at most 512 bytes,
    then the end of the list for a result of 0, or an error. *)
From S2P Require Import Prelude Words Ulib.

Module Filters.
Import Ulib.

Inductive chunk := Data (bs : list Z) | ReadError.

(** How a program ends: it has run through, or it has printed an error *)
Inductive ends := Done | Failed (msg : string).

(** ** cat.c *)

(** cat: [can] tells how much each write accepts; the result is what was
    written to standard output. *)
Fixpoint cat (can : list Z -> Z) (reads : list chunk) : list Z * ends :=
  match reads with
  | [] => ([], Done)
  | ReadError :: _ => ([], Failed "cat: read error")
  | Data bs :: reads' =>
      if can bs =? zlen bs then let '(out, e) := cat can reads' in (bs ++ out, e)
      else (take (Z.to_nat (can bs)) bs, Failed "cat: write error")
  end.

(** The loop of main: a file that cannot be opened is [None]. *)
Fixpoint cat_files (can : list Z -> Z) (files : list (option (list chunk))) : list Z * ends :=
  match files with
  | [] => ([], Done)
  | None :: _ => ([], Failed "cat: cannot open %s")
  | Some reads :: files' =>
      match cat can reads with
      | (out, Done) => let '(out', e) := cat_files can files' in (out ++ out', e)
      | r => r
      end
  end.

(** ** wc.c *)

Record counts := mkCounts { n_l : Z; n_w : Z; n_c : Z; n_in : bool }.

(** [" \r\t\n\v"] *)
Definition blanks : list Z := [32; 13; 9; 10; 11; 0].

(** The body of wc's inner loop; the counters are 32-bit ints. *)
Definition wc_char (s : counts) (b : Z) : option counts :=
  let c := s32 (n_c s + 1) in
  let l := if b =? 10 then s32 (n_l s + 1) else n_l s in
  r ← strchr blanks b;
  Some (match r with
        | Some _ => mkCounts l (n_w s) c false
        | None => if n_in s then mkCounts l (n_w s) c true else mkCounts l (s32 (n_w s + 1)) c true
        end).

Fixpoint wc_chunk (s : counts) (bs : list Z) : option counts :=
  match bs with [] => Some s | b :: bs' => s ← wc_char s b; wc_chunk s bs' end.

Fixpoint wc_loop (s : counts) (reads : list chunk) : option (counts * ends) :=
  match reads with
  | [] => Some (s, Done)
  | ReadError :: _ => Some (s, Failed "wc: read error")
  | Data bs :: reads' => s ← wc_chunk s bs; wc_loop s reads'
  end.

(** wc: the line it prints *)
Definition wc (name : list Z) (reads : list chunk) : option (list Z * ends) :=
  '(s, e) ← wc_loop (mkCounts 0 0 0 false) reads;
  match e with
  | Failed msg => Some ([], Failed msg)
  | Done =>
      l ← printint (n_l s) 10 true;
      w ← printint (n_w s) 10 true;
      c ← printint (n_c s) 10 true;
      Some (l ++ 32 :: w ++ 32 :: c ++ 32 :: name ++ [10], Done)
  end.

(** ** echo.c *)
Fixpoint echo (args : list (list Z)) : list Z :=
  match args with
  | [] => []
  | [a] => a ++ [10]
  | a :: args' => a ++ 32 :: echo args'
  end.

(** ** What they compute *)

(** The bytes of a file that is read without error *)
Fixpoint contents (reads : list chunk) : option (list Z) :=
  match reads with
  | [] => Some []
  | ReadError :: _ => None
  | Data bs :: reads' => (bs ++.) <$> contents reads'
  end.

Definition is_blank (b : Z) : bool := (b =? 32) || (b =? 13) || (b =? 9) || (b =? 10) || (b =? 11).

(** The lines and the words of a text: newlines, and characters that begin a
    word because nothing or a blank comes before them *)
Definition lines (text : list Z) : Z := Z.of_nat (length (filter (fun b => b = 10) text)).
Fixpoint words_from (prev : bool) (text : list Z) : Z :=
  match text with
  | [] => 0
  | b :: text' => (if prev && negb (is_blank b) then 1 else 0) + words_from (is_blank b) text'
  end.
Definition words (text : list Z) : Z := words_from true text.

(** The words again, as a split of the text at its blanks *)
Fixpoint split (text : list Z) : list (list Z) :=
  match text with
  | [] => [[]]
  | b :: text' =>
      if is_blank b then [] :: split text'
      else match split text' with w :: ws => (b :: w) :: ws | [] => [[b]] end
  end.

Lemma split_cons text : exists w ws, split text = w :: ws.
Proof.
  destruct text as [|b text]; cbn; [by eexists _, _|]. destruct (is_blank b); [by eexists _, _|].
  destruct (split text); by eexists _, _.
Qed.

Lemma words_from_split prev text : words_from prev text =
  Z.of_nat (length (filter (fun w => w <> []) (split text))) -
  (if prev then 0 else match split text with w :: _ => if decide (w <> []) then 1 else 0 | [] => 0 end).
Proof.
  revert prev. induction text as [|b text IH]; intros prev; cbn [words_from split]; [by destruct prev|].
  rewrite IH. destruct (is_blank b) eqn:Eb; cbn [negb].
  - rewrite andb_false_r, filter_cons_False by auto. destruct prev; [lia|]. rewrite decide_False by auto. lia.
  - rewrite andb_true_r. destruct (split_cons text) as (w & ws & ->). rewrite (filter_cons_True _ (b :: w)) by done.
    cbn [length]. rewrite (decide_True (P := b :: w <> [])) by done. rewrite filter_cons.
    destruct (decide (w <> [])); cbn [length]; destruct prev; lia.
Qed.

Lemma strchr_blank b : exists o, strchr blanks b = Some o /\ (is_blank b = true <-> o <> None).
Proof.
  unfold blanks, is_blank. cbn [strchr]. rewrite !(Z.eqb_sym b).
  repeat match goal with |- context [?a =? b] => destruct (a =? b) end; cbn; by eexists; split; [done|].
Qed.

(** One chunk *)
Lemma wc_chunk_spec bs : forall s,
  0 <= n_l s -> 0 <= n_w s -> n_l s <= n_c s -> n_w s <= n_c s -> n_c s + zlen bs < 2 ^ 31 ->
  wc_chunk s bs = Some (mkCounts (n_l s + lines bs) (n_w s + words_from (negb (n_in s)) bs) (n_c s + zlen bs)
    (match last bs with Some b => negb (is_blank b) | None => n_in s end)).
Proof.
  induction bs as [|b bs IH]; intros s Hl Hw Hlc Hwc Hc; cbn [wc_chunk].
  { destruct s. cbn. by rewrite !Z.add_0_r. }
  rewrite zlen_cons in Hc. unfold zlen in Hc.
  destruct (strchr_blank b) as (o & Eo & Hbl).
  unfold wc_char. rewrite Eo. cbn [mbind option_bind].
  set (s1 := match o with Some _ => _ | None => _ end).
  assert (Hs1 : s1 = mkCounts (n_l s + (if b =? 10 then 1 else 0))
    (n_w s + (if negb (n_in s) && negb (is_blank b) then 1 else 0)) (n_c s + 1) (negb (is_blank b))).
  { unfold s1. rewrite !s32_id by lia. destruct o as [i|].
    - rewrite (proj2 Hbl) by done. cbn [negb]. rewrite andb_false_r. f_equal; [destruct (b =? 10)|]; lia.
    - assert (is_blank b = false) as -> by (apply not_true_iff_false; tauto). cbn [negb]. rewrite andb_true_r.
      destruct (n_in s); cbn [negb]; f_equal; try (destruct (b =? 10)); lia. }
  rewrite Hs1, IH; [|cbn; unfold zlen in *; repeat (case_match; try lia)..].
  cbn [n_l n_w n_c n_in words_from]. rewrite negb_involutive, zlen_cons. f_equal. f_equal.
  - unfold lines. rewrite filter_cons. destruct (Z.eqb_spec b 10); [rewrite decide_True by done|rewrite decide_False by done]; cbn; lia.
  - lia.
  - lia.
  - destruct bs as [|b' bs]; [done|]. rewrite last_cons_cons. by destruct (last (b' :: bs)) eqn:E; [|by apply last_None in E].
Qed.

(** What the counters stand for after the bytes [bs] *)
Definition counted (s : counts) (bs : list Z) : counts :=
  mkCounts (n_l s + lines bs) (n_w s + words_from (negb (n_in s)) bs) (n_c s + zlen bs)
    (match last bs with Some b => negb (is_blank b) | None => n_in s end).

Lemma lines_bound bs : 0 <= lines bs <= zlen bs.
Proof. unfold lines, zlen. pose proof (length_filter (fun b => b = 10) bs). lia. Qed.

Lemma words_bound bs : forall p, 0 <= words_from p bs <= zlen bs.
Proof.
  induction bs as [|b bs IH]; intros p; cbn [words_from]; [done|]. rewrite zlen_cons. specialize (IH (is_blank b)).
  destruct (p && _); lia.
Qed.

Lemma words_app bs cs : forall p, words_from p (bs ++ cs) =
  words_from p bs + words_from (match last bs with Some b => is_blank b | None => p end) cs.
Proof.
  induction bs as [|b bs IH]; intros p; [done|]. cbn [app words_from]. rewrite IH.
  destruct bs as [|b' bs]; [cbn; lia|]. rewrite last_cons_cons. destruct (last (b' :: bs)) eqn:E; [|by apply last_None in E]. lia.
Qed.

Lemma counted_app s bs cs : counted (counted s bs) cs = counted s (bs ++ cs).
Proof.
  unfold counted. cbn [n_l n_w n_c n_in]. rewrite zlen_app, words_app, last_app. unfold lines.
  rewrite filter_app, length_app. f_equal; [lia| |lia|].
  - rewrite Z.add_assoc. destruct (last bs); [by rewrite negb_involutive|done].
  - by destruct (last cs).
Qed.

(** The counts do not depend on how the file arrives. *)
Lemma wc_loop_spec reads : forall s text, contents reads = Some text ->
  0 <= n_l s -> 0 <= n_w s -> n_l s <= n_c s -> n_w s <= n_c s -> n_c s + zlen text < 2 ^ 31 ->
  wc_loop s reads = Some (counted s text, Done).
Proof.
  induction reads as [|[bs|] reads IH]; intros s text Ht Hl Hw Hlc Hwc Hc; cbn [contents wc_loop] in *; [|apply fmap_Some in Ht as (text' & Ht & ->)|done].
  - injection Ht as <-. destruct s. unfold counted. cbn. by rewrite !Z.add_0_r.
  - rewrite zlen_app in Hc. pose proof (zlen_nonneg text'). pose proof (lines_bound bs). pose proof (words_bound bs (negb (n_in s))).
    rewrite wc_chunk_spec by lia. fold (counted s bs). cbn [mbind option_bind].
    rewrite (IH _ text' Ht) by (unfold counted; cbn; lia). by rewrite counted_app.
Qed.

(** wc counts.  For every file shorter than two gigabytes, whatever the
    sizes of the reads, wc prints its number of newlines, its number of words -
    the pieces without blanks that are not empty - and its number of bytes,
    and the name: the printed digits read back as these numbers. *)
Theorem wc_counts name reads text : contents reads = Some text -> zlen text < 2 ^ 31 ->
  exists l w c, wc name reads = Some (l ++ 32 :: w ++ 32 :: c ++ 32 :: name ++ [10], Done) /\
    atoi (l ++ [0]) = Some (lines text) /\
    atoi (w ++ [0]) = Some (zlen (filter (fun w => w <> []) (split text))) /\
    atoi (c ++ [0]) = Some (zlen text).
Proof.
  intros Ht Hlen. pose proof (lines_bound text) as Hl. pose proof (words_bound text true) as Hw.
  unfold wc. rewrite (wc_loop_spec reads _ text Ht) by (cbn; lia). cbn [mbind option_bind counted n_l n_w n_c n_in].
  rewrite !Z.add_0_l. change (negb false) with true.
  assert (Hp : forall n, 0 <= n < 2 ^ 31 -> exists l, printint n 10 true = Some l /\ atoi (l ++ [0]) = Some n).
  { intros n Hn. destruct (printint_atoi n [] ltac:(lia)) as (l & E & Ea). exists l.
    rewrite (proj2 (Z.ltb_ge n 0)) in E by lia. split; [done|]. rewrite Ea. f_equal. lia. }
  destruct (Hp (lines text) ltac:(lia)) as (l & -> & Al). destruct (Hp (words_from true text) ltac:(lia)) as (w & -> & Aw).
  destruct (Hp (zlen text) ltac:(lia)) as (c & -> & Ac). exists l, w, c. cbn [mbind option_bind].
  split; [done|]. split; [done|]. split; [|done]. rewrite Aw, words_from_split. unfold zlen. f_equal. lia.
Qed.

(** "a b", "c" and a newline, in two reads *)
Lemma wc_counts_witness : (contents [Data [97; 32; 98]; Data [99; 10]] = Some [97; 32; 98; 99; 10]) /\
  exists l w c, wc [102] [Data [97; 32; 98]; Data [99; 10]] = Some (l ++ 32 :: w ++ 32 :: c ++ 32 :: [102] ++ [10], Done) /\
    atoi (l ++ [0]) = Some (lines [97; 32; 98; 99; 10]) /\
    atoi (w ++ [0]) = Some (zlen (filter (fun w => w <> []) (split [97; 32; 98; 99; 10]))) /\
    atoi (c ++ [0]) = Some (zlen [97; 32; 98; 99; 10]).
Proof. split; [reflexivity|]. apply (wc_counts [102] _ [97; 32; 98; 99; 10]); [reflexivity|vm_compute; reflexivity]. Defined.

(** cat copies its files when every write accepts all it is given. *)
Lemma cat_copies can reads text : (forall bs, can bs = zlen bs) -> contents reads = Some text ->
  cat can reads = (text, Done).
Proof.
  intros Hc. revert text. induction reads as [|[bs|] reads IH]; intros text Ht; cbn [contents cat] in *; [by injection Ht as <-| |done].
  apply fmap_Some in Ht as (text' & Ht & ->). rewrite Hc, Z.eqb_refl, (IH text' Ht). done.
Qed.

(** echo writes its arguments with a blank between two of them. *)
Example echo_run : echo [[97]; [98; 99]] = [97; 32; 98; 99; 10].
Proof. reflexivity. Qed.

End Filters.
