(* ===== verification/Grep.v ===== *)
(** * grep.c: the line filter and its pattern matcher

    Pointers into strings are suffixes of the memory behind them, as in
    [Ulib]; reading past the end of that memory is [None]. *)
From S2P Require Import Prelude Words Ulib.

Module Grep.
Import Ulib.

#[local] Abbreviation caret := 94 (only parsing).
#[local] Abbreviation dollar := 36 (only parsing).
#[local] Abbreviation star := 42 (only parsing).
#[local] Abbreviation dot := 46 (only parsing).
#[local] Abbreviation nl := 10 (only parsing).

(** ** The matcher *)

(** The loop of grep.c:matchstar; [here] is [matchhere(re, _)]. *)
Fixpoint matchstar_loop (here : list Z -> option bool) (c : Z) (text : list Z) : option bool :=
  r ← here text;
  if r : bool then Some true
  else
    match text with
    | [] => None
    | t :: text' =>
        if negb (t =? 0) && ((t =? c) || (c =? dot)) then matchstar_loop here c text'
        else Some false
    end.

(** grep.c:matchhere *)
Fixpoint matchhere (re text : list Z) {struct re} : option bool :=
  match re with
  | [] => None
  | c :: re1 =>
      if c =? 0 then Some true
      else
        match re1 with
        | [] => None
        | d :: re2 =>
            if d =? star then matchstar_loop (matchhere re2) c text
            else
              match text with
              | [] => None
              | t :: text' =>
                  if (c =? dollar) && (d =? 0) then Some (t =? 0)
                  else if negb (t =? 0) && ((c =? dot) || (c =? t)) then matchhere re1 text'
                  else Some false
              end
        end
  end.

(** grep.c:matchstar *)
Definition matchstar (c : Z) (re text : list Z) : option bool := matchstar_loop (matchhere re) c text.

(** The loop of grep.c:match *)
Fixpoint match_loop (re text : list Z) : option bool :=
  r ← matchhere re text;
  if r : bool then Some true
  else
    match text with
    | [] => None
    | t :: text' => if t =? 0 then Some false else match_loop re text'
    end.

(** grep.c:match *)
Definition match_ (re text : list Z) : option bool :=
  match re with
  | [] => None
  | c :: re1 => if c =? caret then matchhere re1 text else match_loop re text
  end.

(** ** The filter *)

(** The inner loop of grep.c:grep from [p] (an offset in [buf]) on: what it
    writes, and the final [p].  [buf] includes the NUL at [buf[m]].  When the
    line matches, [*q] is a newline again before the line is written. *)
Fixpoint lines_loop (fuel : nat) (pattern buf : list Z) (p : nat) : option (list Z * nat) :=
  match fuel with
  | O => None
  | S fuel' =>
      o ← strchr (drop p buf) nl;
      match o with
      | None => Some ([], p)
      | Some i =>
          let q := (p + i)%nat in
          let buf0 := <[q := 0]> buf in
          b ← match_ pattern (drop p buf0);
          let buf1 := if b : bool then <[q := nl]> buf0 else buf0 in
          '(out, p') ← lines_loop fuel' pattern buf1 (S q);
          Some ((if b : bool then slice p (S i) buf1 else []) ++ out, p')
      end
  end.

(** [sizeof(buf)] *)
Definition sizeof_buf : nat := 1024.

Section grep.

(** How many bytes [read(fd, buf+m, sizeof(buf)-m-1)] returns, given the room
    and the input that is left. *)
Context (rd : nat -> list Z -> nat).

(** The outer loop of grep.c:grep; [buf] are the [m] bytes kept from the last
    round.  Each round consumes input, so its length bounds the rounds. *)
Fixpoint grep_loop (fuel : nat) (pattern buf input : list Z) : option (list Z) :=
  match fuel with
  | O => None
  | S fuel' =>
      let n := rd (sizeof_buf - length buf - 1) input in
      if decide (0 < n)%nat then
        let full := buf ++ take n input in
        '(out, p) ← lines_loop (S (length full)) pattern (full ++ [0]) 0;
        let buf' := if decide (p = 0%nat) then [] else drop p full in
        rest ← grep_loop fuel' pattern buf' (drop n input);
        Some (out ++ rest)
      else Some []
  end.

(** grep.c:grep: everything it writes to standard output *)
Definition grep (pattern input : list Z) : option (list Z) :=
  grep_loop (S (length input)) pattern [] input.

End grep.

(** ** What a pattern means

    A pattern is a list of atoms, each a character or a starred character
    (with [.] for any character), anchored at the start by a leading [^] and
    at the end by a final [$]. *)
Inductive atom := AChar (c : Z) | AStar (c : Z).

Definition accepts (c x : Z) : Prop := c = dot \/ c = x.

Inductive lang : list atom -> list Z -> Prop :=
| lang_nil : lang [] []
| lang_char c x l w : accepts c x -> lang l w -> lang (AChar c :: l) (x :: w)
| lang_star0 c l w : lang l w -> lang (AStar c :: l) w
| lang_star1 c x l w : accepts c x -> lang (AStar c :: l) w -> lang (AStar c :: l) (x :: w).

(** The atoms of a pattern and whether it ends in an anchor *)
Fixpoint atoms (re : list Z) : list atom * bool :=
  match re with
  | [] => ([], false)
  | c :: re1 =>
      match re1 with
      | [] => if c =? dollar then ([], true) else ([AChar c], false)
      | d :: re2 =>
          if d =? star then let '(l, e) := atoms re2 in (AStar c :: l, e)
          else let '(l, e) := atoms re1 in (AChar c :: l, e)
      end
  end.

(** A text starts with a word of the pattern, and ends there when the pattern
    ends in an anchor. *)
Definition starts (p : list atom * bool) (text : list Z) : Prop :=
  exists w rest, text = w ++ rest /\ lang p.1 w /\ (p.2 = true -> rest = []).

(** What [match] is to decide: a leading [^] anchors the pattern at the start
    of the text, otherwise it may start anywhere. *)
Definition matches (re text : list Z) : Prop :=
  match re with
  | c :: re1 => if c =? caret then starts (atoms re1) text
                else exists pre post, text = pre ++ post /\ starts (atoms re) post
  | [] => True
  end.

Definition str (l : list Z) : Prop := Forall (fun c => c <> 0) l.

Lemma accepts_dec_eq c x : (c =? dot) || (c =? x) = bool_decide (accepts c x).
Proof.
  apply eq_bool_prop_intro. rewrite bool_decide_spec. unfold accepts.
  destruct (Z.eqb_spec c dot), (Z.eqb_spec c x); naive_solver.
Qed.

(** The routine returns, and its result is the truth value of [P]. *)
Definition decides (o : option bool) (P : Prop) : Prop :=
  exists b, o = Some b /\ (b = true <-> P).

Lemma decides_iff o P Q : decides o P -> (P <-> Q) -> decides o Q.
Proof. intros (b & E & H) HPQ. exists b. by rewrite <- HPQ. Qed.

Lemma decides_Some b P : (b = true <-> P) -> decides (Some b) P.
Proof. by exists b. Qed.

Lemma decides_false P : ~ P -> decides (Some false) P.
Proof. intros H. apply decides_Some. by split. Qed.

Lemma starts_nil text : starts ([], false) text.
Proof. exists [], text. split_and!; [done|constructor|done]. Qed.

Lemma starts_end text : starts ([], true) text <-> text = [].
Proof.
  split.
  - intros (w & rest & -> & Hl & He). rewrite (He eq_refl). by inversion Hl.
  - intros ->. exists [], []. split_and!; [done|constructor|done].
Qed.

Lemma starts_char c l e text :
  starts (AChar c :: l, e) text <->
  exists x text', text = x :: text' /\ accepts c x /\ starts (l, e) text'.
Proof.
  split.
  - intros (w & rest & -> & Hl & He). inversion Hl as [|c' x l' w' Ha Hl'| |]; subst.
    exists x, (w' ++ rest). split_and!; [done|done|]. by exists w', rest.
  - intros (x & text' & -> & Ha & w & rest & -> & Hl & He).
    exists (x :: w), rest. split_and!; [done|by constructor|done].
Qed.

Lemma starts_star c l e text :
  starts (AStar c :: l, e) text <->
  starts (l, e) text \/
  exists x text', text = x :: text' /\ accepts c x /\ starts (AStar c :: l, e) text'.
Proof.
  split.
  - intros (w & rest & -> & Hl & He). inversion Hl as [| |c' l' w' Hl'|c' x l' w' Ha Hl']; subst.
    + left. by exists w, rest.
    + right. exists x, (w' ++ rest). split_and!; [done|done|]. by exists w', rest.
  - intros [(w & rest & -> & Hl & He) | (x & text' & -> & Ha & w & rest & -> & Hl & He)].
    + exists w, rest. split_and!; [done|by constructor|done].
    + exists (x :: w), rest. split_and!; [done|by constructor|done].
Qed.

Lemma matchstar_loop_spec here c p j text :
  str text ->
  (forall t, str t -> decides (here (t ++ 0 :: j)) (starts p t)) ->
  decides (matchstar_loop here c (text ++ 0 :: j)) (starts (AStar c :: p.1, p.2) text).
Proof.
  destruct p as [l e]. cbn [fst snd]. intros Ht Hh.
  induction text as [|x text IH]; cbn [app matchstar_loop].
  - destruct (Hh []) as ([] & E & Hb); [done| |]; cbn [app] in E; rewrite E; cbn [mbind option_bind].
    + apply decides_Some. rewrite starts_star. naive_solver.
    + apply decides_false. rewrite starts_star. naive_solver.
  - inversion_clear Ht as [|? ? Hx Ht'].
    destruct (Hh (x :: text)) as ([] & E & Hb); [by constructor| |];
      cbn [app] in E; rewrite E; cbn [mbind option_bind].
    + apply decides_Some. rewrite starts_star. naive_solver.
    + rewrite (proj2 (Z.eqb_neq x 0)) by done. cbn [negb andb].
      rewrite orb_comm, (Z.eqb_sym x c), accepts_dec_eq. case_bool_decide as Ha.
      * eapply decides_iff; [by apply IH|]. rewrite (starts_star _ _ _ (x :: text)). naive_solver.
      * apply decides_false. rewrite starts_star. naive_solver.
Qed.

Lemma matchhere_spec n : forall re text j1 j2, (length re <= n)%nat -> str re -> str text ->
  decides (matchhere (re ++ 0 :: j1) (text ++ 0 :: j2)) (starts (atoms re) text).
Proof.
  induction n as [|n IH]; intros re text j1 j2 Hn Hre Ht.
  { destruct re; [|cbn in Hn; lia]. apply decides_Some. pose proof (starts_nil text). done. }
  destruct re as [|c re1]; [apply decides_Some; pose proof (starts_nil text); done|].
  inversion_clear Hre as [|? ? Hc Hre1]. cbn [app matchhere atoms].
  rewrite (proj2 (Z.eqb_neq c 0)) by done.
  destruct re1 as [|d re2]; cbn [app].
  - change (0 =? star) with false. cbn iota.
    destruct (Z.eqb_spec c dollar) as [->|Hd]; cbn [andb].
    + destruct text as [|x text]; cbn [app]; apply decides_Some.
      * by rewrite starts_end.
      * rewrite starts_end, Z.eqb_eq. inversion_clear Ht. naive_solver.
    + destruct text as [|x text]; cbn [app].
      * apply decides_false. rewrite starts_char. naive_solver.
      * inversion_clear Ht as [|? ? Hx Ht']. rewrite (proj2 (Z.eqb_neq x 0)) by done.
        cbn [negb andb]. rewrite accepts_dec_eq. case_bool_decide.
        -- apply decides_Some. rewrite starts_char. pose proof (starts_nil text). naive_solver.
        -- apply decides_false. rewrite starts_char. naive_solver.
  - inversion_clear Hre1 as [|? ? Hd0 Hre2]. cbn in Hn. destruct (Z.eqb_spec d star) as [->|Hds].
    + destruct (atoms re2) as [l e] eqn:Ea. eapply (matchstar_loop_spec _ c (l, e)); [done|].
      intros t' Ht'. rewrite <- Ea. apply IH; [lia|done|done].
    + rewrite (proj2 (Z.eqb_neq d 0)), andb_false_r by done.
      destruct (atoms (d :: re2)) as [l e] eqn:Ea.
      destruct text as [|x text]; cbn [app].
      * apply decides_false. rewrite starts_char. naive_solver.
      * inversion_clear Ht as [|? ? Hx Ht']. rewrite (proj2 (Z.eqb_neq x 0)) by done.
        cbn [negb andb]. rewrite accepts_dec_eq. case_bool_decide.
        -- specialize (IH (d :: re2) text j1 j2). rewrite Ea in IH.
           eapply decides_iff; [apply IH; [cbn; lia|by constructor|done]|].
           rewrite starts_char. naive_solver.
        -- apply decides_false. rewrite starts_char. naive_solver.
Qed.

Lemma match_loop_spec re text j1 j2 : str re -> str text ->
  decides (match_loop (re ++ 0 :: j1) (text ++ 0 :: j2))
    (exists pre post, text = pre ++ post /\ starts (atoms re) post).
Proof.
  intros Hre Ht. induction text as [|x text IH]; cbn [app match_loop].
  - destruct (matchhere_spec _ re [] j1 j2 (le_n _) Hre) as ([] & E & Hb); [done| |];
      cbn [app] in E; rewrite E; cbn [mbind option_bind].
    + apply decides_Some. split; [|done]. intros _. exists [], []. naive_solver.
    + apply decides_false. intros (pre & post & Hp & Hs).
      symmetry in Hp. apply app_eq_nil in Hp as [-> ->]. naive_solver.
  - inversion_clear Ht as [|? ? Hx Ht'].
    destruct (matchhere_spec _ re (x :: text) j1 j2 (le_n _) Hre) as ([] & E & Hb);
      [by constructor| |]; cbn [app] in E; rewrite E; cbn [mbind option_bind].
    + apply decides_Some. split; [|done]. intros _. exists [], (x :: text). naive_solver.
    + rewrite (proj2 (Z.eqb_neq x 0)) by done. eapply decides_iff; [by apply IH|]. split.
      * intros (pre & post & -> & Hs). by exists (x :: pre), post.
      * intros ([|y pre] & post & Hp & Hs); [naive_solver|].
        injection Hp as -> ->. by exists pre, post.
Qed.

(** C39: the matcher decides the language of the pattern.  For every pattern and
    text, [match] returns, reading no byte after either terminator, and returns
    1 exactly when some part of the text is a word of the pattern, at the
    start of the text for a leading [^] and up to its end for a final [$]. *)
Theorem match_correct re text j1 j2 :
  str re -> str text ->
  decides (match_ (re ++ 0 :: j1) (text ++ 0 :: j2)) (matches re text).
Proof.
  intros Hre Ht. destruct re as [|c re]; cbn [app match_ matches].
  - change (0 =? caret) with false. cbn iota.
    destruct (match_loop_spec [] text j1 j2 Hre Ht) as (b & E & Hb).
    exists b. split; [exact E|]. rewrite Hb. split; [done|].
    intros _. exists [], text. split; [done|]. apply starts_nil.
  - destruct (c =? caret) eqn:Ec.
    + inversion_clear Hre. by eapply matchhere_spec.
    + apply (match_loop_spec (c :: re)); done.
Qed.

(** ** The filter on a file *)

(** The lines of a text that end in a newline, and what follows the last one *)
Fixpoint split_lines (l : list Z) : list (list Z) * list Z :=
  match l with
  | [] => ([], [])
  | c :: l' =>
      let '(ls, tl) := split_lines l' in
      if c =? nl then ([] :: ls, tl)
      else match ls with [] => ([], c :: tl) | ln :: ls' => ((c :: ln) :: ls', tl) end
  end.

(** The lines that satisfy [P], each with its newline *)
Inductive filtered (P : list Z -> Prop) : list (list Z) -> list Z -> Prop :=
| filtered_nil : filtered P [] []
| filtered_hit ln ls out : P ln -> filtered P ls out -> filtered P (ln :: ls) ((ln ++ [nl]) ++ out)
| filtered_miss ln ls out : ~ P ln -> filtered P ls out -> filtered P (ln :: ls) out.

Lemma filtered_app P ls1 out1 ls2 out2 :
  filtered P ls1 out1 -> filtered P ls2 out2 -> filtered P (ls1 ++ ls2) (out1 ++ out2).
Proof. induction 1; intros H2; simpl; [done| |]; rewrite <- ?app_assoc; [rewrite app_assoc|]; constructor; auto. Qed.

Lemma split_lines_none d : nl ∉ d -> split_lines d = ([], d).
Proof.
  induction d as [|c d IH]; intros Hn; cbn [split_lines]; [done|].
  apply not_elem_of_cons in Hn as [Hc Hn]. rewrite (IH Hn).
  by rewrite (proj2 (Z.eqb_neq c nl)).
Qed.

Lemma split_lines_cons ln d : nl ∉ ln ->
  split_lines (ln ++ nl :: d) = (ln :: (split_lines d).1, (split_lines d).2).
Proof.
  induction ln as [|c ln IH]; intros Hn; cbn [app split_lines].
  - by destruct (split_lines d).
  - apply not_elem_of_cons in Hn as [Hc Hn]. rewrite (IH Hn).
    by rewrite (proj2 (Z.eqb_neq c nl)).
Qed.

Lemma first_line d : nl ∉ d \/ exists ln d', d = ln ++ nl :: d' /\ (nl ∉ ln).
Proof.
  destruct (decide (nl ∈ d)) as [H|H]; [right|by left].
  apply list_elem_of_split_l in H as (l1 & l2 & -> & Hn). eauto.
Qed.

Lemma split_lines_app a b :
  (split_lines (a ++ b)).1 = (split_lines a).1 ++ (split_lines ((split_lines a).2 ++ b)).1.
Proof.
  remember (length a) as n eqn:Hn. revert a Hn.
  induction (lt_wf n) as [n _ IH]. intros a ->.
  destruct (first_line a) as [H|(ln & d & -> & H)].
  - by rewrite (split_lines_none a H).
  - rewrite <- app_assoc. cbn [app]. rewrite !split_lines_cons by done. cbn [fst snd].
    rewrite (IH (length d)); [done| |done]. rewrite length_app. cbn. lia.
Qed.

Lemma split_lines_tail a : exists pre, a = pre ++ (split_lines a).2 /\ (nl ∉ (split_lines a).2) /\
  ((split_lines a).1 = [] -> pre = []) /\ ((split_lines a).1 <> [] -> pre <> []).
Proof.
  remember (length a) as n eqn:Hn. revert a Hn.
  induction (lt_wf n) as [n _ IH]. intros a ->.
  destruct (first_line a) as [H|(ln & d & -> & H)].
  - exists []. by rewrite (split_lines_none a H).
  - rewrite split_lines_cons by done. cbn [fst snd].
    destruct (IH (length d)) with (a := d) as (pre & E & Hn & _); [rewrite length_app; cbn; lia|done|].
    exists (ln ++ nl :: pre). split_and!; [|done|done|by destruct ln].
    rewrite <- app_assoc. cbn. by rewrite <- E.
Qed.

Lemma strchr_none d rest : str d -> nl ∉ d -> strchr (d ++ 0 :: rest) nl = Some None.
Proof.
  induction 1 as [|c d Hc Hd IH]; intros Hn; [done|]. apply not_elem_of_cons in Hn as [Hcn Hn].
  cbn [app strchr]. rewrite (proj2 (Z.eqb_neq c 0)), (proj2 (Z.eqb_neq c nl)) by done.
  by rewrite (IH Hn).
Qed.

Lemma strchr_line ln d : str ln -> nl ∉ ln -> strchr (ln ++ nl :: d) nl = Some (Some (length ln)).
Proof.
  induction 1 as [|c ln Hc Hd IH]; intros Hn; [done|]. apply not_elem_of_cons in Hn as [Hcn Hn].
  cbn [app strchr]. rewrite (proj2 (Z.eqb_neq c 0)), (proj2 (Z.eqb_neq c nl)) by done.
  by rewrite (IH Hn).
Qed.

Lemma lines_loop_spec re fuel : forall pre d, str re -> str d -> (length d < fuel)%nat ->
  exists out, lines_loop fuel (re ++ [0]) (pre ++ d ++ [0]) (length pre) =
      Some (out, (length pre + length d - length (split_lines d).2)%nat) /\
    filtered (matches re) (split_lines d).1 out.
Proof.
  induction fuel as [|fuel IH]; intros pre d Hre Hd Hf; [lia|]. cbn [lines_loop].
  rewrite drop_app_length. destruct (first_line d) as [Hn|(ln & d' & -> & Hn)].
  - rewrite strchr_none by done. cbn [mbind option_bind]. rewrite split_lines_none by done.
    exists []. split; [do 2 f_equal; cbn; lia|constructor].
  - apply Forall_app in Hd as [Hln Hd']. apply Forall_cons in Hd' as [_ Hd'].
    rewrite <- app_assoc. cbn [app]. rewrite strchr_line by done. cbn [mbind option_bind].
    assert (Hset : forall x y : Z, <[(length pre + length ln)%nat := y]> (pre ++ ln ++ x :: d' ++ [0])
              = pre ++ ln ++ y :: d' ++ [0]).
    { intros x y. rewrite insert_app_r, <- (Nat.add_0_r (length ln)), insert_app_r. done. }
    rewrite Hset, drop_app_length.
    destruct (match_correct re ln [] (d' ++ [0]) Hre Hln) as (b & E & Hb).
    rewrite E. cbn [mbind option_bind]. rewrite split_lines_cons by done. cbn [fst snd].
    rewrite length_app in *. cbn [length] in *.
    set (y := if b then nl else 0).
    assert (Hb1 : (if b then <[(length pre + length ln)%nat := nl]> (pre ++ ln ++ 0 :: d' ++ [0])
                   else pre ++ ln ++ 0 :: d' ++ [0]) = pre ++ ln ++ y :: d' ++ [0])
      by (subst y; destruct b; [by rewrite Hset|done]).
    rewrite Hb1.
    destruct (IH (pre ++ ln ++ [y]) d' Hre Hd') as (out & E' & Hout); [lia|].
    rewrite !length_app, <- !app_assoc in E'. cbn [app length] in E'.
    replace (S (length pre + length ln)) with (length pre + (length ln + 1))%nat by lia.
    rewrite E'. cbn [mbind option_bind]. eexists. split; [do 2 f_equal; lia|].
    destruct b; subst y; cbn [app].
    + replace (slice _ _ _) with (ln ++ [nl]); [constructor; [by apply Hb|done]|].
      unfold slice. rewrite drop_app_length. change (nl :: d' ++ [0]) with ([nl] ++ d' ++ [0]).
      rewrite app_assoc, take_app_length'; [done|]. rewrite length_app. cbn. lia.
    + constructor; [|done]. intros Hm. by apply Hb in Hm.
Qed.

(** A read of a regular file returns as much as fits. *)
Definition rd_file (room : nat) (input : list Z) : nat := Nat.min room (length input).

Definition fits (ln : list Z) : Prop := (length ln + 1 < sizeof_buf)%nat.

Lemma no_line_full a b : nl ∉ a -> (sizeof_buf <= length a + 1)%nat ->
  Forall fits (split_lines (a ++ b)).1 -> (split_lines (a ++ b)).1 = [] /\ (nl ∉ b).
Proof.
  intros Ha Hl Hf. destruct (first_line b) as [Hb|(ln & d & -> & Hb)].
  - rewrite split_lines_none; [done|]. rewrite elem_of_app. tauto.
  - rewrite app_assoc, split_lines_cons in Hf by (rewrite elem_of_app; tauto).
    apply Forall_cons in Hf as [Hf _]. unfold fits in Hf. rewrite length_app in Hf. lia.
Qed.

Lemma grep_loop_spec re fuel : forall buf input, str re -> str buf -> str input ->
  (length input < fuel)%nat -> nl ∉ buf -> Forall fits (split_lines (buf ++ input)).1 ->
  exists out, grep_loop rd_file fuel (re ++ [0]) buf input = Some out /\
    filtered (matches re) (split_lines (buf ++ input)).1 out.
Proof.
  induction fuel as [|fuel IH]; intros buf input Hre Hbuf Hin Hf Hn Hfit; [lia|].
  cbn [grep_loop]. set (n := rd_file _ input). case_decide as Hpos.
  - set (full := buf ++ take n input).
    assert (Hsplit : buf ++ input = full ++ drop n input)
      by (unfold full; by rewrite <- app_assoc, take_drop).
    assert (Hfull : str full) by (apply Forall_app; split; [done|by apply Forall_take]).
    destruct (lines_loop_spec re (S (length full)) [] full Hre Hfull) as (out & E & Hout); [lia|].
    cbn [app length] in E. rewrite E. cbn [mbind option_bind Nat.add].
    destruct (split_lines_tail full) as (pre & Epre & Htl & Hnil & Hcons).
    set (tl := (split_lines full).2) in *.
    assert (Hlen : (length full - length tl)%nat = length pre)
      by (rewrite Epre at 1; rewrite length_app; lia).
    rewrite Hlen. rewrite Hsplit, split_lines_app in *. fold tl in Hfit |- *.
    assert (Hn' : (n <= length input)%nat) by (unfold n, rd_file; lia).
    apply Forall_app in Hfit as [Hfit1 Hfit2].
    assert (Hgo : forall buf', nl ∉ buf' -> str buf' ->
      (split_lines (buf' ++ drop n input)).1 = (split_lines (tl ++ drop n input)).1 ->
      exists out0, (rest ← grep_loop rd_file fuel (re ++ [0]) buf' (drop n input); Some (out ++ rest))
        = Some out0 /\
        filtered (matches re) ((split_lines full).1 ++ (split_lines (tl ++ drop n input)).1) out0).
    { intros buf' Hb' Hs' Heq.
      destruct (IH buf' (drop n input)) as (out2 & E2 & Hout2);
        [done|done|by apply Forall_drop|rewrite length_drop; lia|done|by rewrite Heq|].
      rewrite E2. cbn [mbind option_bind]. eexists. split; [done|].
      rewrite Heq in Hout2. by apply filtered_app. }
    case_decide as Hp.
    + apply Hgo; [set_solver|constructor|]. apply length_zero_iff_nil in Hp. subst pre. cbn [app] in Epre.
      rewrite <- Epre in *. cbn [app].
      destruct (decide (n = length input)) as [->|Hne].
      * rewrite drop_all, app_nil_r. by rewrite (split_lines_none full).
      * destruct (no_line_full full (drop n input)) as [H1 H2]; [done| |done|].
        { unfold full. rewrite length_app, length_take. unfold n, rd_file in *. lia. }
        rewrite H1, split_lines_none; done.
    + replace (drop (length pre) full) with tl by (by rewrite Epre, drop_app_length).
      apply Hgo; [done| |done].
      rewrite Epre in Hfull. by apply Forall_app in Hfull as [_ ?].
  - exists []. split; [done|]. unfold n, rd_file in Hpos.
    destruct (decide (input = [])) as [->|Hne].
    + rewrite app_nil_r, split_lines_none by done. constructor.
    + destruct (no_line_full buf input) as [-> _]; [done| |done|constructor].
      destruct input; [done|]. cbn [length] in Hpos. lia.
Qed.

(** C40: grep of a file prints exactly the lines that match.  Whatever the
    pattern and the text, as long as no line is longer than the buffer, the
    program terminates and its output is the lines of the file that match, in
    order, however they straddle the boundaries of its reads. *)
Theorem grep_correct re input :
  str re -> str input -> Forall fits (split_lines input).1 ->
  exists out, grep rd_file (re ++ [0]) input = Some out /\
    filtered (matches re) (split_lines input).1 out.
Proof.
  intros Hre Hin Hf. apply (grep_loop_spec re _ []); [done|constructor|done|lia|set_solver|done].
Qed.

(** A read of a pipe whose writer writes byte by byte returns one byte. *)
Definition rd_byte (room : nat) (input : list Z) : nat := Nat.min 1 (Nat.min room (length input)).

Lemma grep_loop_bytes re fuel : forall input, str re -> str input -> (length input < fuel)%nat ->
  exists k, grep_loop rd_byte fuel (re ++ [0]) [] input = Some (replicate k nl).
Proof.
  induction fuel as [|fuel IH]; intros input Hre Hin Hf; [lia|].
  destruct input as [|c input]; [by exists 0%nat|]. apply Forall_cons in Hin as [Hc Hin].
  cbn [length] in Hf. destruct (IH input Hre Hin) as (k & Ek); [lia|].
  cbn [grep_loop]. change (rd_byte _ (c :: input)) with 1%nat. rewrite decide_True by lia.
  rewrite firstn_cons, take_0, skipn_cons, drop_0. cbn [app length].
  destruct (lines_loop_spec re 2 [] [c] Hre) as (out & E & Hout); [by constructor|cbn; lia|].
  cbn [app length] in E. rewrite E.
  cbn [mbind option_bind]. cbn [split_lines] in *.
  destruct (Z.eqb_spec c nl) as [->|Hnl]; cbn [fst snd length Nat.add Nat.sub] in *.
  - rewrite decide_False by lia. cbn [drop]. rewrite Ek. cbn [mbind option_bind].
    inversion Hout as [|? ? out' ? Hn|? ? ? ? Hn]; subst; inversion Hn; subst.
    + by exists (S k).
    + by exists k.
  - rewrite decide_True by done. rewrite Ek. cbn [mbind option_bind].
    inversion Hout; subst. by exists k.
Qed.

(** Grep loses lines that arrive in pieces.  When the buffer holds no newline
    after a read, the outer loop resets [m] to 0 and drops what it has read;
    with an input that arrives byte by byte grep prints, whatever the pattern
    and the text, nothing but newlines. *)
Theorem grep_short_reads re input :
  str re -> str input ->
  exists k, grep rd_byte (re ++ [0]) input = Some (replicate k nl).
Proof. intros Hre Hin. apply grep_loop_bytes; [done|done|lia]. Qed.

Lemma grep_short_reads_witness : exists k, grep rd_byte [97; 0] [97; 10] = Some (replicate k nl).
Proof. apply (grep_short_reads [97] [97; 10]); by repeat constructor. Defined.

(** ** Witnesses: the pattern [^a.*b$] on the text "axb", and a two-line file *)
Lemma match_correct_witness :
  decides (match_ [94; 97; 46; 42; 98; 36; 0] [97; 120; 98; 0; 7])
    (matches [94; 97; 46; 42; 98; 36] [97; 120; 98]).
Proof.
  apply (match_correct [94; 97; 46; 42; 98; 36] [97; 120; 98] [] [7]);
    unfold str; repeat (apply Forall_cons; split; [lia|]); constructor.
Defined.

Lemma grep_correct_witness : exists out,
  grep rd_file [97; 0] [98; 97; 10; 99; 10] = Some out /\
  filtered (matches [97]) [[98; 97]; [99]] out.
Proof.
  apply (grep_correct [97] [98; 97; 10; 99; 10]); unfold str, fits, sizeof_buf;
    cbn; repeat (apply Forall_cons; split; [cbn; lia|]); constructor.
Defined.

End Grep.
