(* ===== verification/Shell.v ===== *)
(** * The parser of the shell: sh.c

    The parser works on the line in [buf], which it does not change, and moves a
    pointer [*ps], here the state of the monad; [es] is the end of the line.
    Tokens are pairs of offsets in [buf]; nulterminate at the end puts a NUL
    after each of them.  A syntax error is a [Panic]. *)
From S2P Require Import Prelude Params Ulib.

Module Shell.

(** ** Commands *)

(** The arguments of redircmd other than the command: file, efile, mode and fd *)
Record redir := mkRedir { r_file : nat; r_efile : nat; r_mode : Z; r_fd : Z }.

(** sh.c:struct cmd and its variants; an argument is its argv and eargv. *)
Inductive cmd :=
| EXEC (argv : list (nat * nat))
| REDIR (c : cmd) (r : redir)
| PIPE (left right : cmd)
| LIST (left right : cmd)
| BACK (c : cmd).

Definition MAXARGS : nat := 10.

(** " \t\r\n\v" and "<|>&;()" *)
Definition whitespace : list Z := [32; 9; 13; 10; 11].
Definition symbols : list Z := [60; 124; 62; 38; 59; 40; 41].

(** Whether [strchr(set, c)] is not null *)
Definition in_set (set : list Z) (c : Z) : bool :=
  match Ulib.strchr (set ++ [0]) c with Some (Some _) => true | _ => false end.

Lemma in_set_elem set c : Forall (fun x => x <> 0) set -> in_set set c = true <-> c ∈ set.
Proof.
  unfold in_set. induction 1 as [|x set Hx _ IH]; [split; [done|set_solver]|]. cbn [app Ulib.strchr].
  rewrite (proj2 (Z.eqb_neq x 0)) by done. rewrite elem_of_cons. destruct (Z.eqb_spec x c) as [->|Hne].
  - split; [by left|done].
  - destruct (Ulib.strchr (set ++ [0]) c) as [[i|]|]; cbn; rewrite <- IH; naive_solver.
Qed.

Section parse.
Context (buf : list Z) (es : nat).

(** [while(s < es && f( *s )) s++]; [fuel] is [es - s]. *)
Fixpoint skip_while (f : Z -> bool) (fuel s : nat) : nat :=
  match fuel with
  | O => s
  | S fuel' =>
      match buf !! s with
      | Some c => if f c then skip_while f fuel' (S s) else s
      | None => s
      end
  end.

Definition skip_ws (s : nat) : nat := skip_while (in_set whitespace) (es - s) s.
Definition skip_word (s : nat) : nat :=
  skip_while (fun c => negb (in_set whitespace c) && negb (in_set symbols c)) (es - s) s.

Definition chr (s : nat) : M nat Z := from_option_undef (buf !! s).
Definition get_ps : M nat nat := gets (fun s => s).
Definition set_ps (s : nat) : M nat unit := modify (fun _ => s).

(** sh.c:gettoken: the token, [*q] and [*eq] *)
Definition gettoken : M nat (Z * nat * nat) :=
  s <- get_ps ;;
  let q := skip_ws s in
  c <- chr q ;;
  let* (r, eq) :=
    (if c =? 0 then ret (0, q)
     else if in_set [124; 40; 41; 59; 38; 60] c then ret (c, S q)
     else if c =? 62 then
       d <- chr (S q) ;;
       if d =? 62 then ret (43, S (S q)) else ret (c, S q)
     else ret (97, skip_word q)) in
  set_ps (skip_ws eq) ;;
  ret (r, q, eq).

(** sh.c:peek *)
Definition peek (toks : list Z) : M nat bool :=
  s <- get_ps ;;
  let s' := skip_ws s in
  set_ps s' ;;
  c <- chr s' ;;
  ret (negb (c =? 0) && in_set toks c).

(** sh.c:parseredirs: the redirections it wraps around its command, innermost
    first *)
Fixpoint parseredirs (fuel : nat) (rs : list redir) : M nat (list redir) :=
  b <- peek [60; 62] ;;
  if b : bool then
    match fuel with
    | O => undef
    | S fuel' =>
        let* (tok, _, _) := gettoken in
        let* (t, q, eq) := gettoken in
        if negb (t =? 97) then panic "missing file for redirection"
        else
          let r := if tok =? 60 then mkRedir q eq O_RDONLY 0
                   else mkRedir q eq (Z.lor O_WRONLY O_CREATE) 1 in
          parseredirs fuel' (rs ++ [r])
    end
  else ret rs.

Definition redirs (c : cmd) (rs : list redir) : cmd := foldl REDIR c rs.

(** The loop of sh.c:parseexec.  The execcmd that it fills in is the innermost
    command of [ret], whatever redirections have been wrapped around it. *)
Fixpoint parseargs (fuel : nat) (args : list (nat * nat)) (rs : list redir)
  : M nat (list (nat * nat) * list redir) :=
  b <- peek [124; 41; 38; 59] ;;
  if b : bool then ret (args, rs)
  else
    let* (tok, q, eq) := gettoken in
    if tok =? 0 then ret (args, rs)
    else if negb (tok =? 97) then panic "syntax"
    else
      let args' := args ++ [(q, eq)] in
      if decide (MAXARGS <= length args')%nat then panic "too many args"
      else
        match fuel with
        | O => undef
        | S fuel' =>
            rs' <- parseredirs es rs ;;
            parseargs fuel' args' rs'
        end.

(** The loop of sh.c:parseline over [&] *)
Fixpoint backs (fuel : nat) (c : cmd) : M nat cmd :=
  b <- peek [38] ;;
  if b : bool then
    match fuel with
    | O => undef
    | S fuel' => gettoken ;; backs fuel' (BACK c)
    end
  else ret c.

(** sh.c:parseline, parsepipe, parseexec and parseblock.  A cycle of four calls
    consumes a parenthesis, so four times the length of the line is enough
    fuel. *)
Fixpoint parseline (fuel : nat) : M nat cmd :=
  match fuel with
  | O => undef
  | S fuel' =>
      c <- parsepipe fuel' ;;
      c <- backs es c ;;
      b <- peek [59] ;;
      if b : bool then
        gettoken ;;
        c2 <- parseline fuel' ;;
        ret (LIST c c2)
      else ret c
  end
with parsepipe (fuel : nat) : M nat cmd :=
  match fuel with
  | O => undef
  | S fuel' =>
      c <- parseexec fuel' ;;
      b <- peek [124] ;;
      if b : bool then
        gettoken ;;
        c2 <- parsepipe fuel' ;;
        ret (PIPE c c2)
      else ret c
  end
with parseexec (fuel : nat) : M nat cmd :=
  match fuel with
  | O => undef
  | S fuel' =>
      b <- peek [40] ;;
      if b : bool then parseblock fuel'
      else
        rs <- parseredirs es [] ;;
        let* (args, rs') := parseargs es [] rs in
        ret (redirs (EXEC args) rs')
  end
with parseblock (fuel : nat) : M nat cmd :=
  match fuel with
  | O => undef
  | S fuel' =>
      b <- peek [40] ;;
      if negb b then panic "parseblock"
      else
        gettoken ;;
        c <- parseline fuel' ;;
        b <- peek [41] ;;
        if negb b then panic "syntax - missing )"
        else
          gettoken ;;
          rs <- parseredirs es [] ;;
          ret (redirs c rs)
  end.

End parse.

(** sh.c:nulterminate, on the line *)
Fixpoint nulterminate (c : cmd) (buf : list Z) : list Z :=
  match c with
  | EXEC argv => foldl (fun b a => <[a.2 := 0]> b) buf argv
  | REDIR c r => <[r_efile r := 0]> (nulterminate c buf)
  | PIPE l r => nulterminate r (nulterminate l buf)
  | LIST l r => nulterminate r (nulterminate l buf)
  | BACK c => nulterminate c buf
  end.

(** sh.c:parsecmd: the command and the line it points into *)
Definition parsecmd (buf : list Z) : result nat (cmd * list Z) :=
  match Ulib.strlen buf with
  | None => Undef
  | Some n =>
      let es := Z.to_nat n in
      (c <- parseline buf es (4 * S es) ;;
       peek buf es [] ;;
       s <- get_ps ;;
       if negb (Nat.eqb s es) then panic "syntax"
       else ret (c, nulterminate c buf)) O
  end.

(** ** The parser terminates inside the line *)

Section total.
Context (buf line rest : list Z) (es : nat).
Hypothesis Hbuf : buf = line ++ 0 :: rest.
Hypothesis Hes : es = length line.
Hypothesis Hline : Forall (fun c => c <> 0) line.

(** A result at a position of the line, not before [s] *)
Definition ok {A} (s : nat) (r : result nat A) (P : A -> nat -> Prop) : Prop :=
  match r with
  | Ok a s' => (s <= s' <= es)%nat /\ P a s'
  | Panic _ => True
  | _ => False
  end.

Lemma ok_bind {A B} s (m : M nat A) (k : A -> M nat B) P :
  ok s (m s) (fun a s' => ok s' (k a s') P) -> ok s (bind m k s) P.
Proof.
  unfold ok, bind. destruct (m s) as [a s'|msg|s'|]; try done. intros [Hs H]. destruct (k a s'); try done.
  destruct H. split; [lia|done].
Qed.

Lemma ok_mono {A} s (r : result nat A) (P Q : A -> nat -> Prop) :
  ok s r P -> (forall a s', (s <= s' <= es)%nat -> P a s' -> Q a s') -> ok s r Q.
Proof. unfold ok. destruct r; try done. intros [Hs H] HQ. split; [done|by apply HQ]. Qed.

Lemma chr_lookup s : (s <= es)%nat -> exists c, buf !! s = Some c /\ (c = 0 <-> s = es).
Proof.
  intros Hs. destruct (decide (s = es)) as [->|Hne].
  - exists 0. split; [|done]. by rewrite Hbuf, Hes, list_lookup_middle.
  - destruct (lookup_lt_is_Some_2 line s) as [c Hc]; [lia|]. exists c.
    rewrite Hbuf, lookup_app_l by lia. split; [done|]. split; [|done].
    intros ->. by eapply Forall_lookup_1 in Hc; [|exact Hline].
Qed.

Lemma skip_while_range f n s : (s + n <= es)%nat -> (s <= skip_while buf f n s <= s + n)%nat.
Proof.
  revert s. induction n as [|n IH]; intros s Hs; cbn [skip_while]; [lia|].
  destruct (buf !! s) as [c|]; [|lia]. destruct (f c); [|lia]. specialize (IH (S s)). lia.
Qed.

Lemma skip_ws_range s : (s <= es)%nat -> (s <= skip_ws buf es s <= es)%nat.
Proof. intros Hs. pose proof (skip_while_range (in_set whitespace) (es - s) s). unfold skip_ws. lia. Qed.

Lemma skip_word_range s c : (s < es)%nat -> buf !! s = Some c ->
  in_set whitespace c = false -> in_set symbols c = false -> (s < skip_word buf es s <= es)%nat.
Proof.
  intros Hs Hc H1 H2. unfold skip_word. destruct (es - s)%nat as [|n] eqn:E; [lia|]. cbn [skip_while].
  rewrite Hc, H1, H2. cbn [negb andb]. pose proof (skip_while_range
    (fun c => negb (in_set whitespace c) && negb (in_set symbols c)) n (S s)). lia.
Qed.

(** Where skip_ws stops *)
Lemma skip_while_stop f n s c : (s + n <= es)%nat -> buf !! skip_while buf f n s = Some c ->
  (skip_while buf f n s < s + n)%nat -> f c = false.
Proof.
  revert s. induction n as [|n IH]; intros s Hs; cbn [skip_while]; [lia|].
  destruct (chr_lookup s) as (d & Hd & _); [lia|]. rewrite Hd. destruct (f d) eqn:E.
  - intros Hc Hlt. apply (IH (S s)); [lia|done|lia].
  - rewrite Hd. by intros [= ->].
Qed.

Lemma skip_ws_stop s c : (s <= es)%nat -> buf !! skip_ws buf es s = Some c -> c <> 0 -> in_set whitespace c = false.
Proof.
  intros Hs Hc Hne. pose proof (skip_ws_range s Hs) as Hr.
  assert (skip_ws buf es s <> es) by (destruct (chr_lookup (skip_ws buf es s)) as (d & Hd & E); [lia|]; naive_solver).
  unfold skip_ws in *. eapply skip_while_stop; [|exact Hc|]; lia.
Qed.

Lemma peek_ok toks s : (s <= es)%nat ->
  ok s (peek buf es toks s) (fun b s' => s' = skip_ws buf es s /\
    (b = true -> exists c, buf !! s' = Some c /\ c <> 0 /\ (s' < es)%nat)).
Proof.
  intros Hs. pose proof (skip_ws_range s Hs) as Hr. unfold peek, bind, get_ps, set_ps, gets, modify, chr, ok.
  destruct (chr_lookup (skip_ws buf es s)) as (c & Hc & E); [lia|]. rewrite Hc. cbn. split; [lia|].
  split; [done|]. intros Hb. exists c. split; [done|].
  destruct (Z.eqb_spec c 0) as [->|Hne]; [done|]. split; [done|]. naive_solver lia.
Qed.

Lemma skip_ws_idem s : (s <= es)%nat -> skip_ws buf es (skip_ws buf es s) = skip_ws buf es s.
Proof.
  intros Hs. pose proof (skip_ws_range s Hs) as Hr. unfold skip_ws at 1.
  destruct (es - skip_ws buf es s)%nat as [|n] eqn:E; [done|]. cbn [skip_while].
  destruct (chr_lookup (skip_ws buf es s)) as (c & Hc & Ec); [lia|]. rewrite Hc.
  by rewrite (skip_ws_stop s c Hs Hc) by naive_solver lia.
Qed.

(** Unless only blanks are left, gettoken takes at least a character. *)
Lemma gettoken_ok s : (s <= es)%nat ->
  ok s (gettoken buf es s) (fun a s' => let '(tok, _, _) := a in
    (tok <> 0 -> (s < s')%nat) /\ ((skip_ws buf es s < es)%nat -> (s < s')%nat)).
Proof.
  intros Hs. pose proof (skip_ws_range s Hs) as Hr. unfold gettoken, get_ps. rewrite gets_bind. cbn zeta.
  destruct (chr_lookup (skip_ws buf es s)) as (c & Hc & E); [lia|]. unfold chr at 1. rewrite Hc. cbn [from_option_undef].
  rewrite bind_ret_l.
  assert (Hend : forall (tok : Z) eq, (skip_ws buf es s <= eq <= es)%nat ->
    (tok <> 0 -> (s < eq)%nat) -> ((skip_ws buf es s < es)%nat -> (s < eq)%nat) ->
    ok s ((set_ps (skip_ws buf es eq) ;; ret (tok, skip_ws buf es s, eq)) s)
      (fun a s' => let '(tok, _, _) := a in (tok <> 0 -> (s < s')%nat) /\ ((skip_ws buf es s < es)%nat -> (s < s')%nat))).
  { intros tok eq Heq H0 H1. pose proof (skip_ws_range eq ltac:(lia)). cbn. split; [lia|].
    split; intros Ht; [specialize (H0 Ht)|specialize (H1 Ht)]; lia. }
  destruct (Z.eqb_spec c 0) as [->|Hne]; [rewrite bind_ret_l; apply Hend; [lia|done|naive_solver lia]|].
  assert (Hlt : (skip_ws buf es s < es)%nat) by naive_solver lia.
  destruct (in_set [124; 40; 41; 59; 38; 60] c) eqn:Es; [rewrite bind_ret_l; apply Hend; lia|].
  destruct (Z.eqb_spec c 62) as [->|H62].
  - destruct (chr_lookup (S (skip_ws buf es s))) as (d & Hd & Ed); [lia|]. rewrite bind_assoc. unfold chr at 1.
    rewrite Hd. cbn [from_option_undef]. rewrite bind_ret_l. destruct (Z.eqb_spec d 62) as [->|Hd62];
      rewrite bind_ret_l; apply Hend; try done; naive_solver lia.
  - rewrite bind_ret_l. assert (Hsym : in_set symbols c = false).
    { apply not_true_iff_false. apply not_true_iff_false in Es.
      rewrite in_set_elem in * by (by repeat constructor). unfold symbols. set_solver. }
    assert (Hws := skip_ws_stop s c Hs Hc Hne).
    pose proof (skip_word_range _ c Hlt Hc Hws Hsym). apply Hend; lia.
Qed.

(** A token that peek has seen *)
Lemma peek_gettoken_ok {B} toks s (m1 m2 : M nat B) P : (s <= es)%nat ->
  (forall s', (s < s' <= es)%nat -> ok s' (m1 s') P) ->
  (forall s', (s <= s' <= es)%nat -> ok s' (m2 s') P) ->
  ok s ((b <- peek buf es toks ;; if b : bool then gettoken buf es ;; m1 else m2) s) P.
Proof.
  intros Hs H1 H2. apply ok_bind. eapply ok_mono; [by apply peek_ok|]. intros b s1 Hs1 [-> Hb].
  destruct b; [|by apply H2]. destruct (Hb eq_refl) as (c & Hc & Hne & Hlt). apply ok_bind.
  eapply ok_mono; [apply gettoken_ok; lia|]. intros [[tok q] eq] s2 Hs2 [_ Hp].
  rewrite skip_ws_idem in Hp by done. specialize (Hp Hlt). apply H1. lia.
Qed.

Lemma parseredirs_ok fuel : forall rs s, (s <= es)%nat -> (es - s <= fuel)%nat ->
  ok s (parseredirs buf es fuel rs s) (fun _ _ => True).
Proof.
  induction fuel as [|fuel IH]; intros rs s Hs Hf; cbn [parseredirs]; apply ok_bind;
    (eapply ok_mono; [by apply peek_ok|]); intros b s1 Hs1 [-> Hb]; (destruct b; [|by split; [lia|]]);
    destruct (Hb eq_refl) as (c & Hc & Hne & Hlt); [lia|].
  apply ok_bind. eapply ok_mono; [apply gettoken_ok; lia|]. intros [[tok q0] eq0] s2 Hs2 [_ Hp].
  rewrite skip_ws_idem in Hp by done. specialize (Hp Hlt).
  apply ok_bind. eapply ok_mono; [apply gettoken_ok; lia|]. intros [[t q] eq] s3 Hs3 _.
  destruct (negb (t =? 97)); [done|]. eapply ok_mono; [apply IH; lia|done].
Qed.

Lemma parseargs_ok fuel : forall args rs s, (s <= es)%nat -> (es - s <= fuel)%nat ->
  ok s (parseargs buf es fuel args rs s) (fun _ _ => True).
Proof.
  induction fuel as [|fuel IH]; intros args rs s Hs Hf; cbn [parseargs]; apply ok_bind;
    (eapply ok_mono; [by apply peek_ok|]); intros b s1 Hs1 [-> Hb]; (destruct b; [by split; [lia|]|]);
    apply ok_bind; (eapply ok_mono; [apply gettoken_ok; lia|]); intros [[tok q] eq] s2 Hs2 [Hp _];
    (destruct (Z.eqb_spec tok 0) as [->|Htok]; [by split; [lia|]|]); specialize (Hp Htok);
    (destruct (negb (tok =? 97)); [done|]); cbn zeta; (destruct (decide _); [done|]); [lia|].
  apply ok_bind. eapply ok_mono; [apply parseredirs_ok; lia|]. intros rs' s3 Hs3 _.
  eapply ok_mono; [apply IH; lia|done].
Qed.

Lemma backs_ok fuel : forall c s, (s <= es)%nat -> (es - s <= fuel)%nat ->
  ok s (backs buf es fuel c s) (fun _ _ => True).
Proof.
  induction fuel as [|fuel IH]; intros c s Hs Hf; cbn [backs].
  - apply ok_bind. eapply ok_mono; [by apply peek_ok|]. intros b s1 Hs1 [-> Hb]. destruct b; [|by split; [lia|]].
    destruct (Hb eq_refl) as (x & Hc & Hne & Hlt). lia.
  - apply peek_gettoken_ok; [done| |].
    + intros s' Hs'. eapply ok_mono; [apply IH; lia|done].
    + intros s' Hs'. by split; [lia|].
Qed.

Lemma parse_ok fuel : forall s, (s <= es)%nat ->
  ((4 * (es - s) + 4 <= fuel)%nat -> ok s (parseline buf es fuel s) (fun _ _ => True)) /\
  ((4 * (es - s) + 3 <= fuel)%nat -> ok s (parsepipe buf es fuel s) (fun _ _ => True)) /\
  ((4 * (es - s) + 2 <= fuel)%nat -> ok s (parseexec buf es fuel s) (fun _ _ => True)) /\
  ((4 * (es - s) + 1 <= fuel)%nat -> ok s (parseblock buf es fuel s) (fun _ _ => True)).
Proof.
  induction fuel as [|fuel IH]; intros s Hs; [split; [|split; [|split]]; lia|].
  assert (Hwrap : forall (c2 : M nat cmd) k s', ok s' (c2 s') (fun _ _ => True) ->
    ok s' ((x <- c2 ;; ret (k x : cmd)) s') (fun _ _ => True)).
  { intros c2 k s' H. apply ok_bind. eapply ok_mono; [exact H|]. intros a s2 Hs2 _. by split; [lia|]. }
  cbn [parseline parsepipe parseexec parseblock]. split; [|split; [|split]]; intros Hf.
  - apply ok_bind. eapply ok_mono; [apply IH; lia|]. intros c s1 Hs1 _.
    apply ok_bind. eapply ok_mono; [apply backs_ok; lia|]. intros c' s2 Hs2 _.
    apply peek_gettoken_ok; [lia| |intros s' Hs'; by split; [lia|]].
    intros s' Hs'. apply Hwrap. apply IH; lia.
  - apply ok_bind. eapply ok_mono; [apply IH; lia|]. intros c s1 Hs1 _.
    apply peek_gettoken_ok; [lia| |intros s' Hs'; by split; [lia|]].
    intros s' Hs'. apply Hwrap. apply IH; lia.
  - apply ok_bind. eapply ok_mono; [by apply peek_ok|]. intros b s1 Hs1 [-> Hb]. destruct b.
    + eapply ok_mono; [apply IH; lia|done].
    + apply ok_bind. eapply ok_mono; [apply parseredirs_ok; lia|]. intros rs s2 Hs2 _.
      apply ok_bind. eapply ok_mono; [apply parseargs_ok; lia|]. intros [args rs'] s3 Hs3 _. by split; [lia|].
  - apply ok_bind. eapply ok_mono; [by apply peek_ok|]. intros b s1 Hs1 [-> Hb]. destruct b; [|done].
    destruct (Hb eq_refl) as (x & Hx & Hne & Hlt). cbn [negb]. apply ok_bind.
    eapply ok_mono; [apply gettoken_ok; lia|]. intros [[tok q] eq] s2 Hs2 [_ Hp].
    rewrite skip_ws_idem in Hp by done. specialize (Hp Hlt).
    apply ok_bind. eapply ok_mono; [apply IH; lia|]. intros c s3 Hs3 _.
    apply ok_bind. eapply ok_mono; [apply peek_ok; lia|]. intros b s4 Hs4 [-> _]. destruct b; [|done]. cbn [negb].
    apply ok_bind. eapply ok_mono; [apply gettoken_ok; lia|]. intros [[tok' q'] eq'] s5 Hs5 _.
    apply ok_bind. eapply ok_mono; [apply parseredirs_ok; lia|]. intros rs s6 Hs6 _. by split; [lia|].
Qed.

End total.

Lemma strlen_line line rest : Forall (fun c => c <> 0) line -> Ulib.strlen (line ++ 0 :: rest) = Some (zlen line).
Proof.
  induction 1 as [|c line Hc _ IH]; [done|]. cbn [app Ulib.strlen]. rewrite (proj2 (Z.eqb_neq c 0)) by done.
  rewrite IH. cbn. f_equal. unfold zlen. cbn [length]. lia.
Qed.

(** C37: the parser of the shell terminates on every line.  Whatever the bytes of
    the line, parsecmd returns a command, having read the line to its end, or
    reports a syntax error; it reads no byte after the NUL, and its recursion
    is bounded by the length of the line. *)
Theorem parsecmd_terminates line rest : Forall (fun c => c <> 0) line ->
  (exists c buf', parsecmd (line ++ 0 :: rest) = Ok (c, buf') (length line)) \/
  (exists msg, parsecmd (line ++ 0 :: rest) = Panic msg).
Proof.
  intros Hl. unfold parsecmd. rewrite (strlen_line line rest Hl).
  replace (Z.to_nat (zlen line)) with (length line) by (unfold zlen; lia). cbn zeta.
  set (buf := line ++ 0 :: rest). set (es := length line).
  assert (H : ok es 0 ((c <- parseline buf es (4 * S es) ;; peek buf es [] ;; s <- get_ps ;;
       if negb (Nat.eqb s es) then panic "syntax" else ret (c, nulterminate c buf)) O) (fun _ s' => s' = es)).
  { apply (ok_bind line es eq_refl). eapply ok_mono; [eapply (proj1 (parse_ok buf line rest es eq_refl eq_refl Hl (4 * S es) 0 ltac:(lia))); lia|].
    intros c s1 Hs1 _. apply (ok_bind line es eq_refl). eapply ok_mono;
      [exact (peek_ok buf line rest es eq_refl eq_refl Hl [] s1 ltac:(lia))|]. intros b s2 Hs2 _.
    unfold get_ps. rewrite gets_bind. destruct (Nat.eqb_spec s2 es); cbn [negb]; [|done]. by split; [lia|]. }
  unfold ok in H. match type of H with match ?r with _ => _ end => destruct r as [[c b] s|msg|s|] end; try done.
  - destruct H as [_ ->]. left. by exists c, b.
  - right. by exists msg.
Qed.

Lemma parsecmd_terminates_witness : Forall (fun c => c <> 0) [108; 115; 40] /\
  ((exists c buf', parsecmd ([108; 115; 40] ++ 0 :: []) = Ok (c, buf') 3%nat) \/
   (exists msg, parsecmd ([108; 115; 40] ++ 0 :: []) = Panic msg)).
Proof. split; [by repeat constructor|]. apply (parsecmd_terminates [108; 115; 40] []). by repeat constructor. Defined.

(** ** What a line means

    The grammar the parser accepts, with words as strings *)
Inductive sredir := RIn (f : list Z) | ROut (f : list Z) | RAppend (f : list Z).

Inductive sline :=
| LEnd (p : spipe) (bg : nat)
| LSeq (p : spipe) (bg : nat) (l : sline)
with spipe :=
| PEnd (e : sexec)
| PSeq (e : sexec) (p : spipe)
with sexec :=
| Simple (args : list (list Z)) (rs : list sredir)
| Block (l : sline) (rs : list sredir).

Scheme sline_mut := Induction for sline Sort Prop
with spipe_mut := Induction for spipe Sort Prop
with sexec_mut := Induction for sexec Sort Prop.
Combined Scheme grammar_ind from sline_mut, spipe_mut, sexec_mut.

(** Commands over strings *)
Inductive scmd :=
| SExec (argv : list (list Z))
| SRedir (c : scmd) (file : list Z) (mode fd : Z)
| SPipe (left right : scmd)
| SList (left right : scmd)
| SBack (c : scmd).

Definition scmd_redir (c : scmd) (r : sredir) : scmd :=
  match r with
  | RIn f => SRedir c f O_RDONLY 0
  | ROut f | RAppend f => SRedir c f (Z.lor O_WRONLY O_CREATE) 1
  end.

Fixpoint cmd_line (l : sline) : scmd :=
  match l with
  | LEnd p bg => Nat.iter bg SBack (cmd_pipe p)
  | LSeq p bg l => SList (Nat.iter bg SBack (cmd_pipe p)) (cmd_line l)
  end
with cmd_pipe (p : spipe) : scmd :=
  match p with
  | PEnd e => cmd_exec e
  | PSeq e p => SPipe (cmd_exec e) (cmd_pipe p)
  end
with cmd_exec (e : sexec) : scmd :=
  match e with
  | Simple args rs => foldl scmd_redir (SExec args) rs
  | Block l rs => foldl scmd_redir (cmd_line l) rs
  end.

(** Tokens, and a line as its tokens with a blank after each *)
Inductive token := TWord (w : list Z) | TSym (c : Z) | TGt | TGtGt.

Definition text (t : token) : list Z :=
  match t with TWord w => w | TSym c => [c] | TGt => [62] | TGtGt => [62; 62] end.
Definition spell (ts : list token) : list Z := ts ≫= (fun t => text t ++ [32]).

Definition tok_redir (r : sredir) : list token :=
  match r with
  | RIn f => [TSym 60; TWord f]
  | ROut f => [TGt; TWord f]
  | RAppend f => [TGtGt; TWord f]
  end.

Fixpoint tok_line (l : sline) : list token :=
  match l with
  | LEnd p bg => tok_pipe p ++ replicate bg (TSym 38)
  | LSeq p bg l => tok_pipe p ++ replicate bg (TSym 38) ++ TSym 59 :: tok_line l
  end
with tok_pipe (p : spipe) : list token :=
  match p with
  | PEnd e => tok_exec e
  | PSeq e p => tok_exec e ++ TSym 124 :: tok_pipe p
  end
with tok_exec (e : sexec) : list token :=
  match e with
  | Simple args rs => (TWord <$> args) ++ (rs ≫= tok_redir)
  | Block l rs => TSym 40 :: tok_line l ++ TSym 41 :: (rs ≫= tok_redir)
  end.

(** Words, and lines the shell can represent: at most nine arguments *)
Definition word (w : list Z) : Prop :=
  w <> [] /\ Forall (fun c => c <> 0 /\ in_set whitespace c = false /\ in_set symbols c = false) w.
Definition redir_ok (r : sredir) : Prop := match r with RIn f | ROut f | RAppend f => word f end.

Fixpoint line_ok (l : sline) : Prop :=
  match l with
  | LEnd p _ => pipe_ok p
  | LSeq p _ l => pipe_ok p /\ line_ok l
  end
with pipe_ok (p : spipe) : Prop :=
  match p with
  | PEnd e => exec_ok e
  | PSeq e p => exec_ok e /\ pipe_ok p
  end
with exec_ok (e : sexec) : Prop :=
  match e with
  | Simple args rs => Forall word args /\ (length args < MAXARGS)%nat /\ Forall redir_ok rs
  | Block l rs => line_ok l /\ Forall redir_ok rs
  end.

(** The strings a command points to *)
Fixpoint string_at (buf : list Z) : list Z :=
  match buf with
  | [] => []
  | c :: buf' => if c =? 0 then [] else c :: string_at buf'
  end.

Fixpoint view (buf : list Z) (c : cmd) : scmd :=
  match c with
  | EXEC argv => SExec ((fun a => string_at (drop a.1 buf)) <$> argv)
  | REDIR c r => SRedir (view buf c) (string_at (drop (r_file r) buf)) (r_mode r) (r_fd r)
  | PIPE l r => SPipe (view buf l) (view buf r)
  | LIST l r => SList (view buf l) (view buf r)
  | BACK c => SBack (view buf c)
  end.

(** ** The scanner on the tokens of a line *)

Definition tok_ok (t : token) : Prop :=
  match t with TWord w => word w | TSym c => c ∈ [124; 40; 41; 59; 38; 60] | TGt | TGtGt => True end.
Definition code (t : token) : Z := match t with TWord _ => 97 | TSym c => c | TGt => 62 | TGtGt => 43 end.
Definition first (t : token) : Z := match text t with c :: _ => c | [] => 0 end.

Lemma spell_cons t ts : spell (t :: ts) = text t ++ 32 :: spell ts.
Proof. unfold spell. cbn. by rewrite <- app_assoc. Qed.
Lemma spell_app ts us : spell (ts ++ us) = spell ts ++ spell us.
Proof. unfold spell. by rewrite bind_app. Qed.

Lemma word_first w : word w -> exists c w', w = c :: w' /\ in_set whitespace c = false /\ in_set symbols c = false /\ c <> 0.
Proof. intros [Hne Hw]. destruct w as [|c w']; [done|]. inv Hw. naive_solver. Qed.

Lemma text_first t : tok_ok t -> exists tl, text t = first t :: tl /\ first t <> 0 /\ in_set whitespace (first t) = false.
Proof.
  destruct t as [w|c| |]; cbn; intros H.
  - apply word_first in H as (c & w' & -> & Hc). exists w'. cbn. naive_solver.
  - exists []. split; [done|]. rewrite !elem_of_cons in H. unfold first. cbn [text].
    destruct_or? H; subst; try done. by apply elem_of_nil in H.
  - by exists [].
  - by exists [62].
Qed.

Section print.
Context (buf rest : list Z) (es : nat).

(** The tokens from a position on *)
Definition toks_at (s : nat) (ts : list token) : Prop :=
  drop s buf = spell ts ++ 0 :: rest /\ (s + length (spell ts) = es)%nat.

Lemma drop_head s c x : drop s buf = c :: x -> buf !! s = Some c.
Proof. intros H. rewrite <- (Nat.add_0_r s), <- lookup_drop, H. done. Qed.

Lemma skip_while_word f w c x fuel s : drop s buf = w ++ c :: x -> Forall (fun a => f a = true) w ->
  f c = false -> (length w <= fuel)%nat -> skip_while buf f fuel s = (s + length w)%nat.
Proof.
  intros Hd Hw Hc. revert fuel s Hd. induction Hw as [|a w Ha _ IH]; intros fuel s Hd Hf; cbn in *.
  - destruct fuel; cbn; [lia|]. rewrite (drop_head _ _ _ Hd), Hc. lia.
  - destruct fuel as [|fuel]; [lia|]. cbn. rewrite (drop_head _ _ _ Hd), Ha.
    rewrite IH; [lia| |lia]. replace (S s) with (s + 1)%nat by lia. rewrite <- drop_drop, Hd. done.
Qed.

Lemma skip_ws_toks s ts : toks_at s ts -> Forall tok_ok ts -> skip_ws buf es s = s.
Proof.
  intros [Hd Hs] Hts. unfold skip_ws. destruct ts as [|t ts].
  - cbn in *. by replace (es - s)%nat with 0%nat by lia.
  - inv Hts. destruct (text_first t) as (tl & Et & Hne & Hw); [done|]. rewrite spell_cons, Et in Hd.
    rewrite (skip_while_word _ [] (first t) (tl ++ 32 :: spell ts ++ 0 :: rest)); cbn; [lia| |done|done|lia].
    rewrite Hd. cbn. by rewrite <- app_assoc.
Qed.

Lemma toks_first s t ts : toks_at s (t :: ts) -> tok_ok t -> buf !! s = Some (first t).
Proof.
  intros [Hd _] Ht. destruct (text_first t Ht) as (tl & Et & _). rewrite spell_cons, Et in Hd. cbn in Hd. by eapply drop_head.
Qed.

Lemma toks_next s t ts : toks_at s (t :: ts) -> toks_at (s + length (text t) + 1) ts.
Proof.
  intros [Hd Hs]. rewrite spell_cons, ?length_app in *. cbn [length] in *. split; [|lia].
  rewrite <- !drop_drop, Hd, <- app_assoc. by rewrite drop_app_length.
Qed.

Lemma peek_toks set s ts : toks_at s ts -> Forall tok_ok ts ->
  peek buf es set s = Ok (match ts with [] => false | t :: _ => in_set set (first t) end) s.
Proof.
  intros Hs Hts. unfold peek, get_ps, set_ps, chr, gets, modify, bind. cbn. rewrite (skip_ws_toks s ts Hs Hts).
  destruct ts as [|t ts].
  - destruct Hs as [Hd _]. cbn in Hd. rewrite (drop_head _ _ _ Hd). done.
  - inv Hts. rewrite (toks_first _ _ _ Hs) by done. cbn. destruct (text_first t) as (tl & _ & Hne & _); [done|].
    by rewrite (proj2 (Z.eqb_neq _ _) Hne).
Qed.

Lemma gettoken_end s : toks_at s [] -> gettoken buf es s = Ok (0, s, s) s.
Proof.
  intros Hs. unfold gettoken, get_ps, set_ps, chr, gets, modify, bind. cbn.
  pose proof (skip_ws_toks s [] Hs ltac:(constructor)) as E. destruct Hs as [Hd _]. cbn in Hd.
  rewrite E, (drop_head _ _ _ Hd). cbn. by rewrite E.
Qed.

Lemma after_tok s t ts : toks_at s (t :: ts) -> Forall tok_ok ts ->
  skip_ws buf es (s + length (text t)) = (s + length (text t) + 1)%nat.
Proof.
  intros Hs Hts. pose proof (toks_next _ _ _ Hs) as Hn. destruct Hs as [Hd Hs].
  rewrite spell_cons, length_app in Hs. cbn in Hs. unfold skip_ws.
  destruct (es - (s + length (text t)))%nat as [|n] eqn:En; [lia|]. cbn.
  assert (Hb : drop (s + length (text t)) buf = 32 :: spell ts ++ 0 :: rest).
  { rewrite <- drop_drop, Hd, spell_cons, <- app_assoc. by rewrite drop_app_length. }
  rewrite (drop_head _ _ _ Hb). change (in_set whitespace 32) with true. cbn iota.
  pose proof (skip_ws_toks _ _ Hn Hts) as E. unfold skip_ws in E. replace (S (s + length (text t)))%nat
    with (s + length (text t) + 1)%nat by lia. by replace n with (es - (s + length (text t) + 1))%nat by lia.
Qed.

Lemma skip_word_toks s w ts : toks_at s (TWord w :: ts) -> word w -> skip_word buf es s = (s + length w)%nat.
Proof.
  intros [Hd Hs] [_ Hw]. rewrite spell_cons in *. rewrite length_app in Hs. cbn in *. unfold skip_word.
  apply (skip_while_word _ _ 32 (spell ts ++ 0 :: rest)); [by rewrite Hd, <- app_assoc| |done|lia].
  eapply Forall_impl; [exact Hw|]. cbn. intros c (_ & -> & ->). done.
Qed.

Lemma gettoken_toks s t ts : toks_at s (t :: ts) -> tok_ok t -> Forall tok_ok ts ->
  gettoken buf es s = Ok (code t, s, s + length (text t))%nat (s + length (text t) + 1)%nat.
Proof.
  intros Hs Ht Hts. pose proof (after_tok _ _ _ Hs Hts) as Ea.
  assert (Ef := toks_first _ _ _ Hs Ht). pose proof (skip_ws_toks _ _ Hs (Forall_cons_2 _ _ _ Ht Hts)) as Ew.
  unfold gettoken, get_ps, set_ps, chr, gets, modify, bind. cbn. rewrite Ew, Ef. cbn.
  destruct t as [w|c| |]; cbn [code first text length] in *.
  - destruct (word_first w Ht) as (c & w' & Ew' & Hws & Hsy & Hne). assert (Hc : first (TWord w) = c) by (by rewrite Ew').
    rewrite Hc. rewrite (proj2 (Z.eqb_neq c 0)) by done.
    assert (Hn : c ∉ symbols) by (rewrite <- in_set_elem by (by repeat constructor); by rewrite Hsy).
    replace (in_set [124; 40; 41; 59; 38; 60] c) with false.
    2:{ symmetry. apply not_true_iff_false. rewrite in_set_elem by (by repeat constructor). unfold symbols in Hn. set_solver. }
    rewrite (proj2 (Z.eqb_neq c 62)) by (unfold symbols in Hn; set_solver). cbn.
    rewrite (skip_word_toks _ _ _ Hs Ht). by rewrite Ea.
  - assert (Hc : c <> 0) by (intros ->; set_solver).
    unfold first. cbn. rewrite (proj2 (Z.eqb_neq c 0)) by done.
    rewrite (proj2 (in_set_elem [124; 40; 41; 59; 38; 60] c ltac:(by repeat constructor))) by done. cbn.
    replace (S s) with (s + 1)%nat by lia. by rewrite Ea.
  - assert (Hd : buf !! S s = Some 32).
    { destruct Hs as [Hd _]. cbn in Hd. change (spell (TGt :: ts)) with (62 :: 32 :: spell ts) in Hd. cbn in Hd.
      replace (S s) with (s + 1)%nat by lia. by rewrite <- lookup_drop, Hd. }
    unfold first. cbn. rewrite Hd. cbn. replace (S s) with (s + 1)%nat by lia. by rewrite Ea.
  - assert (Hd : buf !! S s = Some 62).
    { destruct Hs as [Hd _]. change (spell (TGtGt :: ts)) with (62 :: 62 :: 32 :: spell ts) in Hd. cbn in Hd.
      replace (S s) with (s + 1)%nat by lia. by rewrite <- lookup_drop, Hd. }
    unfold first. cbn. rewrite Hd. cbn. replace (S (S s)) with (s + 2)%nat by lia. by rewrite Ea.
Qed.

(** A token of the line that spells a word, and commands made of them *)
Definition spells (q eq : nat) (w : list Z) : Prop :=
  word w /\ eq = (q + length w)%nat /\ exists x, drop q buf = w ++ 32 :: x.
Definition rep_redir (r : redir) (sr : sredir) : Prop :=
  exists w, spells (r_file r) (r_efile r) w /\ scmd_redir (SExec []) sr = SRedir (SExec []) w (r_mode r) (r_fd r).

Fixpoint rep (c : cmd) (sc : scmd) : Prop :=
  match c, sc with
  | EXEC argv, SExec ws => Forall2 (fun a => spells a.1 a.2) argv ws
  | REDIR c r, SRedir sc w m fd => rep c sc /\ spells (r_file r) (r_efile r) w /\ r_mode r = m /\ r_fd r = fd
  | PIPE l r, SPipe sl sr => rep l sl /\ rep r sr
  | LIST l r, SList sl sr => rep l sl /\ rep r sr
  | BACK c, SBack sc => rep c sc
  | _, _ => False
  end.

Lemma rep_redirs rs srs : Forall2 rep_redir rs srs -> forall c sc, rep c sc ->
  rep (redirs c rs) (foldl scmd_redir sc srs).
Proof.
  induction 1 as [|r sr rs srs (w & Hw & E) _ IH]; intros c sc Hc; cbn; [done|]. apply IH.
  destruct sr; cbn in *; injection E as <- <- <-; done.
Qed.

Lemma spells_word s w ts : toks_at s (TWord w :: ts) -> word w -> spells s (s + length w) w.
Proof.
  intros [Hd _] Hw. split; [done|]. split; [done|]. rewrite spell_cons in Hd. exists (spell ts ++ 0 :: rest).
  by rewrite Hd, <- app_assoc.
Qed.

(** What may follow a command *)
Definition follows (set : list Z) (ts : list token) : Prop :=
  Forall tok_ok ts /\ match ts with [] => True | TSym c :: _ => c ∈ set | _ => False end.

Lemma follows_mono set set' ts : follows set ts -> set ⊆ set' -> follows set' ts.
Proof. intros [Ht Hf] Hs. split; [done|]. destruct ts as [|[]]; set_solver. Qed.

Lemma follows_not set set' ts : follows set ts -> Forall (fun x => x <> 0) set' -> set ## set' ->
  (match ts with [] => false | t :: _ => in_set set' (first t) end) = false.
Proof.
  intros [_ Hf] Hnz Hd. destruct ts as [|[w|c| |] ts]; try done. apply not_true_iff_false.
  rewrite in_set_elem by done. unfold first. cbn. set_solver.
Qed.

Lemma follows_in set ts : follows set ts -> Forall (fun x => x <> 0) set ->
  ts = [] \/ (match ts with [] => false | t :: _ => in_set set (first t) end) = true.
Proof.
  intros [_ Hf] Hnz. destruct ts as [|[w|c| |] ts]; try done; [by left|]. right. by apply in_set_elem.
Qed.

Lemma redir_toks_ok rs : Forall redir_ok rs -> Forall tok_ok (rs ≫= tok_redir).
Proof.
  induction 1 as [|r rs Hr _ IH]; [constructor|]. rewrite bind_cons. apply Forall_app_2; [|done].
  destruct r; cbn in *; (apply Forall_cons_2; [|by apply Forall_singleton]); cbn; [set_solver|done|done].
Qed.

Lemma parseredirs_toks fuel : forall rs0 rs s ts, (length rs <= fuel)%nat -> Forall redir_ok rs ->
  Forall tok_ok ts -> (match ts with [] => false | t :: _ => in_set [60; 62] (first t) end) = false ->
  toks_at s ((rs ≫= tok_redir) ++ ts) ->
  exists rs' s', parseredirs buf es fuel rs0 s = Ok (rs0 ++ rs') s' /\ toks_at s' ts /\ Forall2 rep_redir rs' rs.
Proof.
  induction fuel as [|fuel IH]; intros rs0 rs s ts Hf Hrs Hts Hfo Hs;
    (destruct rs as [|r rs];
      [exists [], s; rewrite app_nil_r; split; [|by split]; cbn in *; unfold bind at 1;
       by rewrite (peek_toks _ _ _ Hs Hts), Hfo|]); cbn in Hf; [lia|].
  inv Hrs. assert (Hall : Forall tok_ok ((rs ≫= tok_redir) ++ ts)) by (apply Forall_app_2; [by apply redir_toks_ok|done]).
  assert (exists t w, tok_redir r = [t; TWord w] /\ tok_ok t /\ word w /\ in_set [60; 62] (first t) = true /\
    scmd_redir (SExec []) r = (if code t =? 60 then SRedir (SExec []) w O_RDONLY 0
      else SRedir (SExec []) w (Z.lor O_WRONLY O_CREATE) 1)) as (t & w & Et & Ht & Hw & Hp & Er).
  { destruct r as [w|w|w]; [exists (TSym 60), w|exists TGt, w|exists TGtGt, w]; cbn; repeat split; try done;
      try apply H1; set_solver. }
  rewrite bind_cons, Et in Hs. cbn [app] in Hs.
  pose proof (toks_next _ _ _ Hs) as Hs1. pose proof (toks_next _ _ _ Hs1) as Hs2.
  destruct (IH (rs0 ++ [if code t =? 60 then mkRedir (s + length (text t) + 1) (s + length (text t) + 1 + length w) O_RDONLY 0
      else mkRedir (s + length (text t) + 1) (s + length (text t) + 1 + length w) (Z.lor O_WRONLY O_CREATE) 1])
    rs (s + length (text t) + 1 + length w + 1)%nat ts) as (rs' & s' & Ep & Hs' & Hr'); [lia|done|done|done|exact Hs2|].
  eexists (_ :: rs'), s'. split; [|split; [done|]].
  - assert (Hall1 : Forall tok_ok (TWord w :: (rs ≫= tok_redir) ++ ts)) by (by constructor).
    cbn [parseredirs]. unfold bind at 1. rewrite (peek_toks _ _ _ Hs) by (by constructor). rewrite Hp.
    unfold bind at 1. rewrite (gettoken_toks _ _ _ Hs) by done.
    unfold bind at 1. rewrite (gettoken_toks _ _ _ Hs1) by done. cbn [code Z.eqb negb Pos.eqb].
    cbn [text] in *. rewrite Ep. by rewrite <- app_assoc.
  - constructor; [|done]. exists w. rewrite Er. destruct (code t =? 60); (split; [by eapply spells_word|done]).
Qed.

Lemma toks_length s ts : toks_at s ts -> (s + length ts <= es)%nat.
Proof.
  intros [_ <-]. enough (length ts <= length (spell ts))%nat by lia.
  induction ts as [|t ts IH]; [done|]. rewrite spell_cons, length_app. cbn. lia.
Qed.
Lemma redir_toks_length rs : (length rs <= length (rs ≫= tok_redir))%nat.
Proof. induction rs as [|r rs IH]; [done|]. rewrite bind_cons, length_app. destruct r; cbn; lia. Qed.

Lemma word_toks_ok ws : Forall word ws -> Forall tok_ok (TWord <$> ws).
Proof. intros H. by apply Forall_fmap. Qed.

Lemma word_not set w : word w -> set ⊆ symbols -> in_set set (first (TWord w)) = false.
Proof.
  intros Hw Hs. destruct (word_first w Hw) as (c & w' & -> & _ & Hc & _). unfold first. cbn.
  apply not_true_iff_false. assert (Hnz : Forall (fun x => x <> 0) set).
  { apply Forall_forall. intros x Hx ->. apply Hs in Hx. unfold symbols in Hx. set_solver. }
  rewrite in_set_elem by done. intros Hx%Hs. rewrite <- in_set_elem in Hx by (by repeat constructor). congruence.
Qed.

(** The redirections after the last word *)
Lemma parseredirs_split rs0 ws rs s ts : Forall word ws -> Forall redir_ok rs -> follows [124; 41; 38; 59] ts ->
  toks_at s ((TWord <$> ws) ++ (rs ≫= tok_redir) ++ ts) ->
  exists rs1 rs2 rs' s', rs = rs1 ++ rs2 /\ (ws = [] -> rs2 = []) /\
    parseredirs buf es es rs0 s = Ok (rs0 ++ rs') s' /\
    toks_at s' ((TWord <$> ws) ++ (rs2 ≫= tok_redir) ++ ts) /\ Forall2 rep_redir rs' rs1.
Proof.
  intros Hws Hrs Hfo Hs. pose proof (toks_length _ _ Hs) as Hl. rewrite !length_app in Hl.
  pose proof (redir_toks_length rs) as Hl'. destruct ws as [|w ws].
  - destruct (parseredirs_toks es rs0 rs s ts) as (rs' & s' & H); [lia|done|apply Hfo| |done|].
    { eapply follows_not; [exact Hfo|by repeat constructor|set_solver]. }
    exists rs, [], rs', s'. by rewrite app_nil_r.
  - destruct (parseredirs_toks es rs0 [] s ((TWord <$> w :: ws) ++ (rs ≫= tok_redir) ++ ts)) as (rs' & s' & H);
      [cbn; lia|done| | |done|by exists [], rs, rs', s'].
    + apply Forall_app_2; [by apply word_toks_ok|]. apply Forall_app_2; [by apply redir_toks_ok|apply Hfo].
    + inv Hws. apply word_not; [done|unfold symbols; set_solver].
Qed.

Lemma parseargs_toks fuel : forall args0 ws rs0 rs s ts, (length ws <= fuel)%nat ->
  (length args0 + length ws < MAXARGS)%nat -> Forall word ws -> Forall redir_ok rs -> (ws = [] -> rs = []) ->
  follows [124; 41; 38; 59] ts -> toks_at s ((TWord <$> ws) ++ (rs ≫= tok_redir) ++ ts) ->
  exists args rs' s', parseargs buf es fuel args0 rs0 s = Ok (args0 ++ args, rs0 ++ rs') s' /\ toks_at s' ts /\
    Forall2 (fun a => spells a.1 a.2) args ws /\ Forall2 rep_redir rs' rs.
Proof.
  induction fuel as [|fuel IH]; intros args0 ws rs0 rs s ts Hf Hmax Hws Hrs Hnil Hfo Hs;
    (destruct ws as [|w ws];
      [specialize (Hnil eq_refl) as ->; cbn in Hs; exists [], [], s; rewrite !app_nil_r;
       split; [|split; [exact Hs|by split]]; cbn [parseargs];
       unfold bind at 1; rewrite (peek_toks _ _ _ Hs) by apply Hfo;
       destruct (follows_in _ _ Hfo ltac:(by repeat constructor)) as [->| ->]; [|done]; cbn iota; unfold bind at 1;
       by rewrite (gettoken_end _ Hs)|]); cbn in Hf; [lia|].
  inv Hws. assert (Hall : Forall tok_ok ((TWord <$> ws) ++ (rs ≫= tok_redir) ++ ts)).
  { apply Forall_app_2; [by apply word_toks_ok|]. apply Forall_app_2; [by apply redir_toks_ok|apply Hfo]. }
  rewrite fmap_cons in Hs. cbn [app] in Hs. pose proof (toks_next _ _ _ Hs) as Hs1. cbn in Hmax.
  destruct (parseredirs_split rs0 ws rs _ ts H2 Hrs Hfo Hs1)
    as (rs1 & rs2 & rs' & s' & -> & Hnil2 & Ep & Hs' & Hr').
  apply Forall_app in Hrs as [Hrs1 Hrs2].
  destruct (IH (args0 ++ [(s, s + length w)%nat]) ws (rs0 ++ rs') rs2 s' ts)
    as (args & rs'' & s'' & Ea & Hs'' & Hargs & Hr''); [lia|rewrite length_app; cbn; lia|done..|].
  exists ((s, s + length w)%nat :: args), (rs' ++ rs''), s''. split; [|split; [done|split]].
  - cbn [parseargs]. unfold bind at 1. rewrite (peek_toks _ _ _ Hs) by (by constructor).
    rewrite word_not by (done || (unfold symbols; set_solver)). cbn iota. unfold bind at 1.
    rewrite (gettoken_toks _ _ _ Hs) by done. cbn [code Z.eqb negb Pos.eqb text].
    rewrite decide_False by (rewrite length_app; cbn; lia). unfold bind at 1.
    cbn [text] in Ep. rewrite Ep, Ea. by rewrite <- !app_assoc.
  - constructor; [|done]. by eapply spells_word.
  - by apply Forall2_app.
Qed.

Lemma backs_toks bg : forall fuel c sc s ts, (bg <= fuel)%nat -> rep c sc -> follows [41; 59] ts ->
  toks_at s (replicate bg (TSym 38) ++ ts) ->
  exists c' s', backs buf es fuel c s = Ok c' s' /\ toks_at s' ts /\ rep c' (Nat.iter bg SBack sc).
Proof.
  induction bg as [|bg IH]; intros fuel c sc s ts Hf Hc Hfo Hs.
  - exists c, s. split; [|done]. destruct fuel; cbn [backs]; unfold bind at 1; rewrite (peek_toks _ _ _ Hs) by apply Hfo;
      cbn [replicate app]; by rewrite (follows_not _ [38] _ Hfo) by (by repeat constructor || set_solver).
  - destruct fuel as [|fuel]; [lia|]. cbn [replicate app] in Hs.
    assert (Hall : Forall tok_ok (replicate bg (TSym 38) ++ ts)).
    { apply Forall_app_2; [|apply Hfo]. apply Forall_replicate. cbn. set_solver. }
    assert (Hamp : tok_ok (TSym 38)) by (cbn; set_solver).
    destruct (IH fuel (BACK c) (SBack sc) _ ts ltac:(lia) Hc Hfo (toks_next _ _ _ Hs)) as (c' & s' & E & Hs' & Hr).
    exists c', s'. split; [|split; [done|]].
    + cbn [backs]. unfold bind at 1. rewrite (peek_toks _ _ _ Hs) by (by constructor). change (in_set [38] _) with true.
      cbn iota. unfold bind at 1. rewrite (gettoken_toks _ _ _ Hs) by done. exact E.
    + by rewrite Nat.iter_succ_r.
Qed.

Lemma grammar_toks_ok : (forall l, line_ok l -> Forall tok_ok (tok_line l)) /\
  (forall p, pipe_ok p -> Forall tok_ok (tok_pipe p)) /\ (forall e, exec_ok e -> Forall tok_ok (tok_exec e)).
Proof.
  assert (Hsym : forall c ts, c ∈ [124; 40; 41; 59; 38; 60] -> Forall tok_ok ts -> Forall tok_ok (TSym c :: ts)) by (by constructor).
  assert (Hbg : forall bg, Forall tok_ok (replicate bg (TSym 38))) by (intros bg; apply Forall_replicate; cbn; set_solver).
  apply grammar_ind; cbn; intros; destruct_and?; repeat (apply Forall_app_2 || (apply Hsym; [set_solver|]));
    auto using word_toks_ok, redir_toks_ok.
Qed.

(** A symbol that peek finds and gettoken takes *)
Lemma peek_sym {B} c s ts (m1 m2 : M nat B) : toks_at s (TSym c :: ts) -> c ∈ [124; 40; 41; 59; 38; 60] -> Forall tok_ok ts ->
  (b <- peek buf es [c] ;; if b : bool then gettoken buf es ;; m1 else m2) s = m1 (s + 2)%nat.
Proof.
  intros Hs Hc Hts. unfold bind at 1. rewrite (peek_toks _ _ _ Hs) by (by constructor). unfold first at 1. cbn [text].
  rewrite (proj2 (in_set_elem [c] c ltac:(constructor; [intros ->; set_solver|done]))) by set_solver.
  unfold bind at 1. rewrite (gettoken_toks _ _ _ Hs) by done. cbn [text length]. f_equal. lia.
Qed.

Lemma peek_skip {B} set set' s ts (m1 m2 : M nat B) : toks_at s ts -> follows set ts -> Forall (fun x => x <> 0) set' ->
  set ## set' -> (b <- peek buf es set' ;; if b : bool then m1 else m2) s = m2 s.
Proof.
  intros Hs Hfo Hnz Hd. unfold bind at 1. rewrite (peek_toks _ _ _ Hs) by apply Hfo. by rewrite (follows_not _ _ _ Hfo).
Qed.

Lemma toks_app s ts us : toks_at s (ts ++ us) -> (s + length (spell ts) + length (spell us) = es)%nat.
Proof. intros [_ E]. rewrite spell_app, length_app in E. lia. Qed.

Definition line_spec (l : sline) : Prop := forall s ts fuel, line_ok l -> follows [41] ts ->
  toks_at s (tok_line l ++ ts) -> (4 * (es - s) + 4 <= fuel)%nat ->
  exists c s', parseline buf es fuel s = Ok c s' /\ toks_at s' ts /\ rep c (cmd_line l).
Definition pipe_spec (p : spipe) : Prop := forall s ts fuel, pipe_ok p -> follows [41; 38; 59] ts ->
  toks_at s (tok_pipe p ++ ts) -> (4 * (es - s) + 3 <= fuel)%nat ->
  exists c s', parsepipe buf es fuel s = Ok c s' /\ toks_at s' ts /\ rep c (cmd_pipe p).
Definition exec_spec (e : sexec) : Prop := forall s ts fuel, exec_ok e -> follows [124; 41; 38; 59] ts ->
  toks_at s (tok_exec e ++ ts) -> (4 * (es - s) + 2 <= fuel)%nat ->
  exists c s', parseexec buf es fuel s = Ok c s' /\ toks_at s' ts /\ rep c (cmd_exec e).

(** The equations of the parser *)
Lemma parseline_S fuel : parseline buf es (S fuel) =
  (c <- parsepipe buf es fuel ;; c <- backs buf es es c ;; b <- peek buf es [59] ;;
   if b : bool then gettoken buf es ;; c2 <- parseline buf es fuel ;; ret (LIST c c2) else ret c).
Proof. reflexivity. Qed.
Lemma parsepipe_S fuel : parsepipe buf es (S fuel) =
  (c <- parseexec buf es fuel ;; b <- peek buf es [124] ;;
   if b : bool then gettoken buf es ;; c2 <- parsepipe buf es fuel ;; ret (PIPE c c2) else ret c).
Proof. reflexivity. Qed.
Lemma parseexec_S fuel : parseexec buf es (S fuel) =
  (b <- peek buf es [40] ;;
   if b : bool then parseblock buf es fuel
   else rs <- parseredirs buf es es [] ;; let* (args, rs') := parseargs buf es es [] rs in ret (redirs (EXEC args) rs')).
Proof. reflexivity. Qed.
Lemma parseblock_S fuel : parseblock buf es (S fuel) =
  (b <- peek buf es [40] ;;
   if negb b then panic "parseblock"
   else gettoken buf es ;; c <- parseline buf es fuel ;; b <- peek buf es [41] ;;
     if negb b then panic "syntax - missing )"
     else gettoken buf es ;; rs <- parseredirs buf es es [] ;; ret (redirs c rs)).
Proof. reflexivity. Qed.

(** parseline up to the [;] *)
Lemma parse_bg p bg s ts fuel : pipe_spec p -> pipe_ok p -> follows [41; 59] ts ->
  toks_at s (tok_pipe p ++ replicate bg (TSym 38) ++ ts) -> (4 * (es - s) + 3 <= fuel)%nat ->
  exists c s', toks_at s' ts /\ rep c (Nat.iter bg SBack (cmd_pipe p)) /\ (s <= s')%nat /\
    forall B (k : cmd -> M nat B), (c <- parsepipe buf es fuel ;; c <- backs buf es es c ;; k c) s = k c s'.
Proof.
  intros IHp Hok Hfo Hs Hf. assert (Hbg : follows [41; 38; 59] (replicate bg (TSym 38) ++ ts)).
  { destruct bg; [eapply follows_mono; [exact Hfo|set_solver]|]. split; [|cbn; set_solver].
    apply Forall_app_2; [|apply Hfo]. apply Forall_replicate. cbn. set_solver. }
  destruct (IHp s _ fuel Hok Hbg Hs Hf) as (c & s1 & E1 & Hs1 & Hc).
  pose proof (toks_length _ _ Hs1) as Hl. rewrite length_app, length_replicate in Hl.
  destruct (backs_toks bg es c _ s1 ts ltac:(lia) Hc Hfo Hs1) as (c' & s2 & E2 & Hs2 & Hc').
  exists c', s2. split; [done|]. split; [done|]. split.
  - apply toks_app in Hs. destruct Hs2 as [_ E]. rewrite spell_app, length_app in Hs. lia.
  - intros B k. unfold bind. by rewrite E1, E2.
Qed.

Lemma parse_lend p bg : pipe_spec p -> line_spec (LEnd p bg).
Proof.
  intros IHp s ts fuel Hok Hfo Hs Hf. destruct fuel as [|fuel]; [lia|]. cbn in Hok, Hs. rewrite <- app_assoc in Hs.
  destruct (parse_bg p bg s ts fuel IHp Hok) as (c & s' & Hs' & Hc & _ & E);
    [eapply follows_mono; [exact Hfo|set_solver]|done|lia|].
  exists c, s'. split; [|done]. rewrite ?parseline_S, ?parsepipe_S, ?parseexec_S, ?parseblock_S. rewrite E.
  by rewrite (peek_skip _ _ _ _ _ _ Hs' Hfo) by (by repeat constructor || set_solver).
Qed.

Lemma parse_lseq p bg l : pipe_spec p -> line_spec l -> line_spec (LSeq p bg l).
Proof.
  intros IHp IHl s ts fuel [Hp Hl] Hfo Hs Hf. destruct fuel as [|fuel]; [lia|]. cbn [tok_line] in Hs. rewrite <- !app_assoc in Hs.
  cbn [app] in Hs. assert (Hts : Forall tok_ok (tok_line l ++ ts)).
  { apply Forall_app_2; [by apply grammar_toks_ok|apply Hfo]. }
  destruct (parse_bg p bg s (TSym 59 :: tok_line l ++ ts) fuel IHp Hp) as (c & s1 & Hs1 & Hc & Hle & E);
    [split; [constructor; [cbn; set_solver|done]|set_solver]|done|lia|].
  pose proof (toks_length _ _ Hs1) as Hlen. cbn in Hlen.
  destruct (IHl (s1 + 2)%nat ts fuel Hl Hfo) as (c2 & s2 & E2 & Hs2 & Hc2);
    [replace (s1 + 2)%nat with (s1 + length (text (TSym 59)) + 1)%nat by (cbn; lia); by apply toks_next in Hs1|lia|].
  exists (LIST c c2), s2. split; [|done]. rewrite ?parseline_S, ?parsepipe_S, ?parseexec_S, ?parseblock_S. rewrite E.
  rewrite (peek_sym _ _ _ _ _ Hs1) by (done || set_solver). unfold bind. by rewrite E2.
Qed.

Lemma parse_pend e : exec_spec e -> pipe_spec (PEnd e).
Proof.
  intros IHe s ts fuel Hok Hfo Hs Hf. destruct fuel as [|fuel]; [lia|]. cbn in Hok, Hs.
  destruct (IHe s ts fuel Hok) as (c & s' & E & Hs' & Hc); [eapply follows_mono; [exact Hfo|set_solver]|done|lia|].
  exists c, s'. split; [|done]. rewrite ?parseline_S, ?parsepipe_S, ?parseexec_S, ?parseblock_S. unfold bind at 1. rewrite E.
  by rewrite (peek_skip _ _ _ _ _ _ Hs' Hfo) by (by repeat constructor || set_solver).
Qed.

Lemma parse_pseq e p : exec_spec e -> pipe_spec p -> pipe_spec (PSeq e p).
Proof.
  intros IHe IHp s ts fuel [He Hp] Hfo Hs Hf. destruct fuel as [|fuel]; [lia|]. cbn [tok_pipe] in Hs. rewrite <- !app_assoc in Hs.
  cbn [app] in Hs. assert (Hts : Forall tok_ok (tok_pipe p ++ ts)).
  { apply Forall_app_2; [by apply grammar_toks_ok|apply Hfo]. }
  destruct (IHe s (TSym 124 :: tok_pipe p ++ ts) fuel He) as (c & s1 & E & Hs1 & Hc);
    [split; [constructor; [cbn; set_solver|done]|set_solver]|done|lia|].
  pose proof (toks_length _ _ Hs1) as Hlen. cbn in Hlen.
  assert (Hle : (s <= s1)%nat) by (apply toks_app in Hs; destruct Hs1 as [_ E1]; lia).
  destruct (IHp (s1 + 2)%nat ts fuel Hp Hfo) as (c2 & s2 & E2 & Hs2 & Hc2);
    [replace (s1 + 2)%nat with (s1 + length (text (TSym 124)) + 1)%nat by (cbn; lia); by apply toks_next in Hs1|lia|].
  exists (PIPE c c2), s2. split; [|done]. rewrite ?parseline_S, ?parsepipe_S, ?parseexec_S, ?parseblock_S. unfold bind at 1. rewrite E.
  rewrite (peek_sym _ _ _ _ _ Hs1) by (done || set_solver). unfold bind. by rewrite E2.
Qed.

Lemma parse_simple args rs : exec_spec (Simple args rs).
Proof.
  intros s ts fuel (Hw & Hn & Hr) Hfo Hs Hf. destruct fuel as [|fuel]; [lia|]. cbn [tok_exec] in Hs. rewrite <- app_assoc in Hs.
  assert (Hall : Forall tok_ok ((TWord <$> args) ++ (rs ≫= tok_redir) ++ ts)).
  { apply Forall_app_2; [by apply word_toks_ok|]. apply Forall_app_2; [by apply redir_toks_ok|apply Hfo]. }
  pose proof (toks_length _ _ Hs) as Hl. rewrite !length_app, length_fmap in Hl. pose proof (redir_toks_length rs) as Hl'.
  assert (Hpar : match (TWord <$> args) ++ (rs ≫= tok_redir) ++ ts with
    [] => false | t :: _ => in_set [40] (first t) end = false).
  { destruct args as [|w args]; [|inv Hw; apply word_not; [done|unfold symbols; set_solver]].
    destruct rs as [|[] rs]; try done. eapply follows_not; [exact Hfo|by repeat constructor|set_solver]. }
  destruct (parseredirs_split [] args rs _ ts Hw Hr Hfo Hs)
    as (rs1 & rs2 & rs' & s' & E & Hnil2 & Ep & Hs' & Hr'). rewrite E in *.
  apply Forall_app in Hr as [Hr1 Hr2].
  destruct (parseargs_toks es [] args rs' rs2 s' ts) as (args' & rs'' & s'' & Ea & Hs'' & Hargs & Hr'');
    [lia|cbn; lia|done..|].
  exists (redirs (EXEC args') (rs' ++ rs'')), s''. split; [|split; [done|]].
  - rewrite ?parseline_S, ?parsepipe_S, ?parseexec_S, ?parseblock_S. unfold bind at 1. rewrite (peek_toks _ _ _ Hs) by done.
    rewrite Hpar. unfold bind at 1. rewrite Ep. cbn [app]. unfold bind at 1. by rewrite Ea.
  - cbn [cmd_exec]. apply rep_redirs; [by apply Forall2_app|done].
Qed.

Lemma parse_block l rs : line_spec l -> exec_spec (Block l rs).
Proof.
  intros IHl s ts fuel [Hl Hr] Hfo Hs Hf. destruct fuel as [|[|fuel]]; [lia|lia|]. cbn [tok_exec] in Hs. cbn [app] in Hs. rewrite <- app_assoc in Hs.
  cbn [app] in Hs.
  assert (Hts : Forall tok_ok ((rs ≫= tok_redir) ++ ts)) by (apply Forall_app_2; [by apply redir_toks_ok|apply Hfo]).
  assert (Hcl : Forall tok_ok (TSym 41 :: (rs ≫= tok_redir) ++ ts)) by (constructor; [cbn; set_solver|done]).
  assert (Hop : Forall tok_ok (tok_line l ++ TSym 41 :: (rs ≫= tok_redir) ++ ts)).
  { apply Forall_app_2; [by apply grammar_toks_ok|done]. }
  pose proof (toks_length _ _ Hs) as Hlen. cbn in Hlen. pose proof (toks_next _ _ _ Hs) as Hs1.
  destruct (IHl _ _ fuel Hl ltac:(split; [exact Hcl|set_solver]) Hs1) as (c & s1 & E1 & Hs2 & Hc); [cbn; lia|].
  pose proof (toks_next _ _ _ Hs2) as Hs3. pose proof (toks_length _ _ Hs3) as Hlen3. rewrite length_app in Hlen3.
  pose proof (redir_toks_length rs).
  destruct (parseredirs_toks es [] rs _ ts ltac:(lia) Hr (proj1 Hfo)
    ltac:(eapply follows_not; [exact Hfo|by repeat constructor|set_solver]) Hs3) as (rs' & s' & Ep & Hs' & Hr').
  exists (redirs c rs'), s'. split; [|split; [done|by apply rep_redirs]].
  assert (Hpar : peek buf es [40] s = Ok true s).
  { rewrite (peek_toks _ _ _ Hs); [done|]. constructor; [cbn; set_solver|done]. }
  rewrite ?parseline_S, ?parsepipe_S, ?parseexec_S, ?parseblock_S. unfold bind at 1. rewrite Hpar.
  unfold bind at 1. rewrite Hpar. cbn [negb]. unfold bind at 1. rewrite (gettoken_toks _ _ _ Hs) by (done || (cbn; set_solver)).
  unfold bind at 1. rewrite E1. unfold bind at 1. rewrite (peek_toks _ _ _ Hs2) by done. change (in_set [41] _) with true.
  cbn [negb]. unfold bind at 1. rewrite (gettoken_toks _ _ _ Hs2) by (done || (cbn; set_solver)).
  unfold bind at 1. by rewrite Ep.
Qed.

Lemma parse_toks : (forall l, line_spec l) /\ (forall p, pipe_spec p) /\ (forall e, exec_spec e).
Proof.
  apply grammar_ind; auto using parse_lend, parse_lseq, parse_pend, parse_pseq, parse_simple, parse_block.
Qed.

(** ** The strings of the parsed command *)

(** The places where nulterminate writes *)
Fixpoint ends (c : cmd) : list nat :=
  match c with
  | EXEC argv => argv.*2
  | REDIR c r => ends c ++ [r_efile r]
  | PIPE l r | LIST l r => ends l ++ ends r
  | BACK c => ends c
  end.

Lemma nulterminate_ends c : forall b, nulterminate c b = foldl (fun b e => <[e := 0]> b) b (ends c).
Proof.
  induction c as [argv|c IH r|l IHl r IHr|l IHl r IHr|c IH]; intros b; cbn; rewrite ?foldl_app, ?IH, ?IHl, ?IHr; try done.
  revert b. induction argv as [|a argv IH]; intros b; cbn; [done|]. by rewrite IH.
Qed.

Lemma nul_lookup es' : forall b i, (i < length b)%nat ->
  foldl (fun b e => <[e := 0]> b) b es' !! i = if decide (i ∈ es') then Some 0 else b !! i.
Proof.
  induction es' as [|e es' IH]; intros b i Hi; cbn; [by rewrite decide_False by set_solver|].
  rewrite IH by (by rewrite length_insert). destruct (decide (i ∈ es')) as [Hin|Hn].
  - by rewrite decide_True by set_solver.
  - destruct (decide (e = i)) as [->|Hne].
    + rewrite decide_True by set_solver. by apply list_lookup_insert_eq.
    + rewrite decide_False by set_solver. by apply list_lookup_insert_ne.
Qed.

Lemma spells_lookup q eq w i c : spells q eq w -> w !! i = Some c -> buf !! (q + i)%nat = Some c.
Proof. intros (_ & _ & x & Hd) Hw. rewrite <- lookup_drop, Hd. by apply lookup_app_l_Some. Qed.
Lemma spells_end q eq w : spells q eq w -> buf !! eq = Some 32.
Proof. intros (_ & -> & x & Hd). rewrite <- lookup_drop, Hd. by apply list_lookup_middle. Qed.

(** A blank follows every word, so that no word loses a character. *)
Lemma rep_ends c : forall sc e, rep c sc -> e ∈ ends c -> buf !! e = Some 32.
Proof.
  induction c as [argv|c IH r|l IHl r IHr|l IHl r IHr|c IH]; intros [] e Hr He; cbn in *; try done.
  - apply list_elem_of_fmap in He as ([q e'] & -> & Ha). apply list_elem_of_lookup in Ha as [i Hi].
    eapply Forall2_lookup_l in Hi as (w & _ & Hw); [|exact Hr]. by apply (spells_end q e' w).
  - apply elem_of_app in He as [He|He]; [by eapply IH; [apply Hr|]|].
    apply list_elem_of_singleton in He as ->. by eapply spells_end, Hr.
  - apply elem_of_app in He as [He|He]; [by eapply IHl; [apply Hr|]|by eapply IHr; [apply Hr|]].
  - apply elem_of_app in He as [He|He]; [by eapply IHl; [apply Hr|]|by eapply IHr; [apply Hr|]].
  - by eapply IH.
Qed.

Lemma string_at_word b w : Forall (fun c => c <> 0) w -> forall q,
  (forall i c, w !! i = Some c -> b !! (q + i)%nat = Some c) -> b !! (q + length w)%nat = Some 0 ->
  string_at (drop q b) = w.
Proof.
  induction 1 as [|c w Hc _ IH]; intros q Hw Hend.
  - rewrite Nat.add_0_r in Hend. apply drop_S in Hend. by rewrite Hend.
  - pose proof (Hw 0%nat c eq_refl) as H0. rewrite Nat.add_0_r in H0. rewrite (drop_S _ _ _ H0). cbn.
    rewrite (proj2 (Z.eqb_neq c 0)) by done. f_equal. apply IH.
    + intros i d Hd. replace (S q + i)%nat with (q + S i)%nat by lia. by apply Hw.
    + cbn in Hend. by replace (S q + length w)%nat with (q + S (length w))%nat by lia.
Qed.

Section view.
Context (b : list Z).
Hypothesis Hkeep : forall i c, buf !! i = Some c -> c <> 32 -> b !! i = Some c.

Lemma view_word q eq w : spells q eq w -> b !! eq = Some 0 -> string_at (drop q b) = w.
Proof.
  intros Hw He. pose proof Hw as ([_ Hc] & Eq & _). apply string_at_word.
  - eapply Forall_impl; [exact Hc|]. naive_solver.
  - intros i c Hi. apply Hkeep; [by eapply spells_lookup|]. intros ->.
    by destruct (Forall_lookup_1 _ _ _ _ Hc Hi) as (_ & Hx & _).
  - by rewrite <- Eq.
Qed.

Lemma view_rep c : forall sc, rep c sc -> (forall e, e ∈ ends c -> b !! e = Some 0) -> view b c = sc.
Proof.
  induction c as [argv|c IH r|l IHl r IHr|l IHl r IHr|c IH]; intros [] Hr He; cbn in *; try done.
  - f_equal. induction Hr as [|[q e] w argv ws Hw _ IH]; [done|]. rewrite fmap_cons. f_equal.
    + eapply view_word; [exact Hw|]. apply He. rewrite fmap_cons. by left.
    + apply IH. intros e' He'. apply He. rewrite fmap_cons. by right.
  - destruct Hr as (Hc & Hw & <- & <-). f_equal; [apply IH; [done|]|eapply view_word; [done|]]; set_solver.
  - f_equal; [apply IHl|apply IHr]; [apply Hr| |apply Hr|]; set_solver.
  - f_equal; [apply IHl|apply IHr]; [apply Hr| |apply Hr|]; set_solver.
  - f_equal. by apply IH.
Qed.

End view.

Lemma view_nulterminate c sc : rep c sc -> view (nulterminate c buf) c = sc.
Proof.
  intros Hr. rewrite nulterminate_ends. apply view_rep; [|done|].
  - intros i x Hx Hne. rewrite nul_lookup by (by eapply lookup_lt_Some). rewrite decide_False; [done|].
    intros He. eapply rep_ends in He; [|done]. congruence.
  - intros e He. rewrite nul_lookup; [by rewrite decide_True|]. eapply lookup_lt_Some. by eapply rep_ends.
Qed.

End print.

Lemma word_nonzero w : word w -> Forall (fun c => c <> 0) w.
Proof. intros [_ H]. eapply Forall_impl; [exact H|]. naive_solver. Qed.

Lemma spell_nonzero ts : Forall tok_ok ts -> Forall (fun c => c <> 0) (spell ts).
Proof.
  induction 1 as [|t ts Ht _ IH]; [constructor|]. rewrite spell_cons. apply Forall_app_2; [|by constructor].
  destruct t as [w|c| |]; cbn in *; [by apply word_nonzero| |by repeat constructor|by repeat constructor].
  constructor; [intros ->; set_solver|done].
Qed.

(** The parser on the text of a line *)
Lemma parse_line l rest : line_ok l ->
  exists c buf', parsecmd (spell (tok_line l) ++ 0 :: rest) = Ok (c, buf') (length (spell (tok_line l))) /\
    view buf' c = cmd_line l.
Proof.
  intros Hl. pose proof (proj1 grammar_toks_ok l Hl) as Ht. pose proof (spell_nonzero _ Ht) as Hnz.
  unfold parsecmd. rewrite strlen_line by done. set (buf := spell (tok_line l) ++ 0 :: rest).
  replace (Z.to_nat (zlen (spell (tok_line l)))) with (length (spell (tok_line l))) by (unfold zlen; lia).
  set (es := length (spell (tok_line l))). cbn zeta.
  destruct (proj1 (parse_toks buf rest es) l 0%nat [] (4 * S es)%nat Hl) as (c & s' & E & Hs & Hc);
    [by split|rewrite app_nil_r; by split|lia|].
  exists c, (nulterminate c buf). split; [|by apply view_nulterminate].
  unfold bind at 1. rewrite E. unfold bind at 1. rewrite (peek_toks _ rest _ _ _ _ Hs) by constructor.
  destruct Hs as [_ Hs]. cbn in Hs. rewrite Nat.add_0_r in Hs. subst s'. unfold get_ps. rewrite gets_bind.
  by rewrite Nat.eqb_refl.
Qed.

(** C36: the shell reads what a line says.  For every line of the grammar
    (sequences with [;], pipelines with [|], jobs with [&], blocks in
    parentheses, up to nine words and any redirections), parsing its text, the
    tokens with a blank after each, succeeds, consumes the whole text, and gives the command that the line
    denotes: the pointers of the result, followed in the buffer that
    nulterminate has cut, spell exactly the words of the line.  [>>] gives the
    same command as [>]. *)
Theorem parse_print l rest : line_ok l ->
  exists c buf', parsecmd (spell (tok_line l) ++ 0 :: rest) = Ok (c, buf') (length (spell (tok_line l))) /\
    view buf' c = cmd_line l.
Proof. apply parse_line. Qed.

(** (a < f | b >> g) & ; c d *)
Definition w_line : sline :=
  LSeq (PEnd (Block (LEnd (PSeq (Simple [[97]] [RIn [102]]) (PEnd (Simple [[98]] [RAppend [103]]))) 0) [])) 1
    (LEnd (PEnd (Simple [[99]; [100; 101]] [])) 0).

Lemma w_line_ok : line_ok w_line.
Proof.
  assert (Hw : forall w, bool_decide (w <> [] /\ Forall (fun c => c <> 0 /\ in_set whitespace c = false /\
    in_set symbols c = false) w) = true -> word w) by (intros w H; by apply bool_decide_eq_true in H).
  unfold w_line. cbn [line_ok pipe_ok exec_ok].
  repeat match goal with
  | |- _ /\ _ => split
  | |- Forall _ [] => constructor
  | |- Forall _ (_ :: _) => apply Forall_cons_2
  | |- redir_ok _ => unfold redir_ok
  | |- word _ => apply Hw; by vm_compute
  end; unfold MAXARGS; cbn; lia.
Qed.

Lemma parse_print_witness : line_ok w_line /\
  exists c buf', parsecmd (spell (tok_line w_line) ++ [0]) = Ok (c, buf') (length (spell (tok_line w_line))) /\
    view buf' c = SList (SBack (SPipe (SRedir (SExec [[97]]) [102] O_RDONLY 0)
        (SRedir (SExec [[98]]) [103] (Z.lor O_WRONLY O_CREATE) 1))) (SExec [[99]; [100; 101]]).
Proof. split; [apply w_line_ok|]. apply (parse_print w_line []). apply w_line_ok. Defined.

End Shell.
