(* ===== verification/RunCmd.v ===== *)
(** * Running a command: runcmd, fork1 and main of sh.c

    runcmd is a tree of what the process does: the programs it becomes, the
    processes it forks, its waits, with the descriptor table of the process at
    each of these points.  Whether a call of the system succeeds is a
    parameter; what it does to the descriptors is written out. *)
From S2P Require Import Prelude Words Params Ulib Shell.

Module RunCmd.
Import Shell.

(** ** Descriptors *)

(** A process is named by the forks that lead to it, the last one first. *)
Definition pname := list nat.

(** What a descriptor refers to: something the shell had, a file opened by a
    redirection, or an end of the pipe made by a process *)
Inductive fobj := Base (n : nat) | FileAt (path : list Z) (mode : Z) | PipeR (by_ : pname) | PipeW (by_ : pname).

Abbreviation fds := (list (option fobj)).

(** The lowest free descriptor, as in sysfile.c:fdalloc *)
Fixpoint fdalloc (T : fds) : option nat :=
  match T with
  | [] => None
  | None :: _ => Some O
  | Some _ :: T' => S <$> fdalloc T'
  end.

(** close, and the calls that return a new descriptor; the result of [fd_new]
    is -1 as [None]. *)
Definition fd_close (fd : nat) (T : fds) : fds := <[fd := None]> T.
Definition fd_new (o : fobj) (T : fds) : option (nat * fds) := fd ← fdalloc T; Some (fd, <[fd := Some o]> T).
Definition fd_dup (fd : nat) (T : fds) : option (nat * fds) := o ← (T !! fd) ≫= id; fd_new o T.
Definition fd_pipe (me : pname) (T : fds) : option (nat * nat * fds) :=
  '(p0, T) ← fd_new (PipeR me) T;
  '(p1, T) ← fd_new (PipeW me) T;
  Some (p0, p1, T).

(** ** What a process does *)

Inductive run :=
| RExec (argv : list (list Z)) (T : fds)        (* becomes the program *)
| RMessage (msg : string) (arg : list Z) (r : run)
| RChdir (path : list Z) (r : run)
| RFork (child r : run)
| RWait (T : fds) (r : run)                     (* wait, with these descriptors *)
| RExit.

Section runcmd.
(** Which calls succeed: open, exec, chdir, and the forks of each process *)
Variables (can_open : list Z -> Z -> bool) (can_exec can_chdir : list Z -> bool) (can_fork : pname -> bool).

(** sh.c:panic *)
Definition panic (msg : string) : run := RMessage msg [] RExit.

(** fork1: the parent's [kids]-th child *)
Definition fork1 (me : pname) (kids : nat) (child : pname -> run) (parent : run) : run :=
  if can_fork (kids :: me) then RFork (child (kids :: me)) parent else panic "fork".

(** The child of a pipe puts its end [p] at descriptor [at_], and closes both
    ends. *)
Definition pipe_child (at_ p p0 p1 : nat) (T : fds) : fds :=
  let T := fd_close at_ T in
  let T := from_option snd T (fd_dup p T) in
  fd_close p1 (fd_close p0 T).

(** runcmd in the process [me], which has forked [kids] children so far *)
Fixpoint runcmd (me : pname) (kids : nat) (T : fds) (c : scmd) : run :=
  match c with
  | SExec [] => RExit
  | SExec (a :: args) => if can_exec a then RExec (a :: args) T else RMessage "exec %s failed" a RExit
  | SRedir c file mode fd =>
      let T := fd_close (Z.to_nat fd) T in
      if can_open file mode then
        match fd_new (FileAt file mode) T with
        | Some (_, T) => runcmd me kids T c
        | None => RMessage "open %s failed" file RExit
        end
      else RMessage "open %s failed" file RExit
  | SList l r =>
      fork1 me kids (fun child => runcmd child 0 T l)
        (RWait T (runcmd me (S kids) T r))
  | SPipe l r =>
      match fd_pipe me T with
      | None => panic "pipe"
      | Some (p0, p1, T) =>
          fork1 me kids (fun child => runcmd child 0 (pipe_child 1 p1 p0 p1 T) l)
            (fork1 me (S kids) (fun child => runcmd child 0 (pipe_child 0 p0 p0 p1 T) r)
              (let T := fd_close p1 (fd_close p0 T) in
               RWait T (RWait T RExit)))
      end
  | SBack c => fork1 me kids (fun child => runcmd child 0 T c) RExit
  end.

(** ** main *)

(** The loop that opens the console until descriptors 0, 1 and 2 are in use;
    the console can always be opened. *)
Fixpoint open_console (fuel : nat) (T : fds) : fds :=
  match fuel with
  | O => T
  | S fuel' =>
      match fd_new (Base 0) T with
      | None => T
      | Some (fd, T) => if (3 <=? fd)%nat then fd_close fd T else open_console fuel' T
      end
  end.

(** getcmd: the buffer after gets, and the rest of the input; [None] at the end
    of the input *)
Definition getcmd (nbuf : Z) (input : list Z) : option (list Z * list Z) :=
  let '(l, rest) := Ulib.gets nbuf input in
  let buf := l ++ replicate (Z.to_nat nbuf - length l) 0 in
  if default 0 (buf !! 0%nat) =? 0 then None else Some (buf, rest).

(** The child that main forks for a line *)
Definition run_line (me : pname) (T : fds) (buf : list Z) : run :=
  match parsecmd buf with
  | Ok (c, buf') _ => runcmd me 0 T (view buf' c)
  | _ => panic "syntax"
  end.

(** The loop of main, which has forked [kids] children so far *)
Fixpoint main_loop (fuel kids : nat) (T : fds) (input : list Z) : run :=
  match fuel with
  | O => RExit
  | S fuel' =>
      match getcmd 100 input with
      | None => RExit
      | Some (buf, rest) =>
          if (default 0 (buf !! 0%nat) =? 99) && (default 0 (buf !! 1%nat) =? 100) && (default 0 (buf !! 2%nat) =? 32) then
            let line := string_at buf in
            let path := string_at (drop 3 (<[(length line - 1)%nat := 0]> buf)) in
            RChdir path
              (if can_chdir path then main_loop fuel' kids T rest
               else RMessage "cannot cd %s" path (main_loop fuel' kids T rest))
          else
            fork1 [] kids (fun child => run_line child T buf) (RWait T (main_loop fuel' (S kids) T rest))
      end
  end.

(** main: every turn of the loop reads a byte at least. *)
Definition main (T : fds) (input : list Z) : run :=
  main_loop (S (length input)) 0 (open_console (S (length T)) T) input.

(** ** What it should do

    The programs of a command with their descriptors: a redirection replaces
    one descriptor, a pipe the output of its left side and the input of its
    right side. *)
Fixpoint progs (me : pname) (kids : nat) (T : fds) (c : scmd) : list (list (list Z) * fds) :=
  match c with
  | SExec [] => []
  | SExec argv => [(argv, T)]
  | SRedir c file mode fd => progs me kids (<[Z.to_nat fd := Some (FileAt file mode)]> T) c
  | SList l r => progs (kids :: me) 0 T l ++ progs me (S kids) T r
  | SPipe l r =>
      progs (kids :: me) 0 (<[1%nat := Some (PipeW me)]> T) l ++
      progs (S kids :: me) 0 (<[0%nat := Some (PipeR me)]> T) r
  | SBack c => progs (kids :: me) 0 T c
  end.

(** The programs and the waits of a run *)
Fixpoint starts (r : run) : list (list (list Z) * fds) :=
  match r with
  | RExec argv T => [(argv, T)]
  | RMessage _ _ r | RWait _ r | RChdir _ r => starts r
  | RFork child r => starts child ++ starts r
  | RExit => []
  end.

Fixpoint waits (r : run) : list fds :=
  match r with
  | RExec _ _ | RExit => []
  | RMessage _ _ r | RChdir _ r => waits r
  | RWait T r => T :: waits r
  | RFork child r => waits child ++ waits r
  end.

(** ** Descriptors *)

Lemma fdalloc_spec T fd : fdalloc T = Some fd <->
  T !! fd = Some None /\ forall j, (j < fd)%nat -> exists o, T !! j = Some (Some o).
Proof.
  revert fd. induction T as [|[o|] T IH]; intros fd; cbn [fdalloc].
  - split; [done|]. by intros [? _].
  - split.
    + intros (fd' & Hfd & ->)%fmap_Some. apply IH in Hfd as [H1 H2]. split; [done|]. intros [|j] Hj; [by exists o|].
      apply H2. lia.
    + intros [H1 H2]. destruct fd as [|fd]; [done|]. apply fmap_Some. exists fd. split; [|done]. apply IH.
      split; [done|]. intros j Hj. apply (H2 (S j)). lia.
  - split; [intros [= <-]; split; [done|lia]|]. intros [H1 H2]. destruct fd as [|fd]; [done|].
    destruct (H2 0%nat) as [o Ho]; [lia|done].
Qed.

(** A table in good order: standard input and output are open, and two
    descriptors are free. *)
Definition std_open (T : fds) : Prop := exists a b, T !! 0%nat = Some (Some a) /\ T !! 1%nat = Some (Some b).
Definition good (T : fds) : Prop :=
  std_open T /\
  exists i j, i <> j /\ T !! i = Some None /\ T !! j = Some None.

Lemma fdalloc_free (T : fds) i : T !! i = Some None -> exists fd, fdalloc T = Some fd.
Proof.
  revert i. induction T as [|[o|] T IH]; intros [|i] Hi; cbn in *; try done; [|by eexists..].
  destruct (IH i Hi) as [fd ->]. by eexists.
Qed.

Lemma good_insert T fd o : good T -> (fd <= 1)%nat -> good (<[fd := Some o]> T).
Proof.
  intros [(a & b & Ha & Hb) (i & j & Hij & Hi & Hj)] Hfd.
  assert (Hlt : (1 < length T)%nat) by (by eapply lookup_lt_Some).
  assert (Hx : forall x, T !! x = Some None -> fd <> x) by (intros x Hx ->; destruct x as [|[|]]; [congruence..|lia]).
  split.
  - destruct fd as [|[|]]; [exists o, b|exists a, o|lia];
      (split; [first [rewrite list_lookup_insert_eq by lia; done | by rewrite list_lookup_insert_ne]..]).
  - exists i, j. rewrite !list_lookup_insert_ne by auto. done.
Qed.

(** Closing standard input or output and asking for a new descriptor *)
Lemma fd_reopen T fd o : std_open T -> (fd <= 1)%nat ->
  fd_new o (fd_close fd T) = Some (fd, <[fd := Some o]> T).
Proof.
  intros (a & b & Ha & Hb) Hfd. assert (Hlt : (1 < length T)%nat) by (by eapply lookup_lt_Some).
  unfold fd_new, fd_close.
  rewrite (proj2 (fdalloc_spec _ fd)); [cbn; by rewrite list_insert_insert_eq|].
  split; [apply list_lookup_insert_eq; lia|]. intros j Hj. rewrite list_lookup_insert_ne by lia.
  assert (j = 0%nat) as -> by lia. by exists a.
Qed.

(** pipe takes two free descriptors. *)
Lemma fd_pipe_good me T : good T -> exists p0 p1, p0 <> p1 /\ T !! p0 = Some None /\ T !! p1 = Some None /\
  fd_pipe me T = Some (p0, p1, <[p1 := Some (PipeW me)]> (<[p0 := Some (PipeR me)]> T)).
Proof.
  intros [_ (i & j & Hij & Hi & Hj)]. destruct (fdalloc_free T i Hi) as [p0 E0].
  pose proof (proj1 (fdalloc_spec _ _) E0) as [H0 _].
  assert (exists x, <[p0 := Some (PipeR me)]> T !! x = Some None) as [x Hx].
  { destruct (decide (p0 = i)) as [->|]; [exists j|exists i]; by rewrite list_lookup_insert_ne. }
  destruct (fdalloc_free _ x Hx) as [p1 E1]. pose proof (proj1 (fdalloc_spec _ _) E1) as [H1 _].
  assert (p0 <> p1).
  { intros ->. rewrite list_lookup_insert_eq in H1 by (by eapply lookup_lt_Some). done. }
  exists p0, p1. split; [done|]. split; [done|]. rewrite list_lookup_insert_ne in H1 by done. split; [done|].
  unfold fd_pipe, fd_new. rewrite E0. cbn. by rewrite E1.
Qed.

(** The two children of a pipe end up with one end each, and the parent with
    none. *)
Section pipe.
Context (me : pname) (T : fds) (p0 p1 : nat).
Hypothesis (Hstd : std_open T) (Hne : p0 <> p1) (H0 : T !! p0 = Some None) (H1 : T !! p1 = Some None).

Definition piped : fds := <[p1 := Some (PipeW me)]> (<[p0 := Some (PipeR me)]> T).

Lemma ends_high : (2 <= p0)%nat /\ (2 <= p1)%nat.
Proof using Hstd H0 H1 Hne.
  destruct Hstd as (a & b & Ha & Hb). split.
  - destruct p0 as [|[|]]; [congruence..|lia].
  - destruct p1 as [|[|]]; [congruence..|lia].
Qed.

Lemma close_ends at_ o : (at_ <= 1)%nat -> fd_close p1 (fd_close p0 (<[at_ := o]> piped)) = <[at_ := o]> T.
Proof using Hstd Hne H0 H1.
  intros Ha. destruct ends_high as [G0 G1]. unfold piped, fd_close. apply list_eq. intros i.
  destruct (decide (p1 = i)) as [<-|N1].
  - rewrite list_lookup_insert_eq, (list_lookup_insert_ne T) by (rewrite ?length_insert; first [lia|by eapply lookup_lt_Some]).
    by rewrite H1.
  - rewrite list_lookup_insert_ne by done. destruct (decide (p0 = i)) as [<-|N0].
    + rewrite list_lookup_insert_eq, (list_lookup_insert_ne T) by (rewrite ?length_insert; first [lia|by eapply lookup_lt_Some]).
      by rewrite H0.
    + rewrite list_lookup_insert_ne by done. destruct (decide (at_ = i)) as [<-|Na].
      * destruct (decide (at_ < length T)%nat).
        -- by rewrite !list_lookup_insert_eq by (rewrite ?length_insert; done).
        -- by rewrite !list_insert_ge by (rewrite ?length_insert; lia).
      * by rewrite !list_lookup_insert_ne.
Qed.

Lemma close_both : fd_close p1 (fd_close p0 piped) = T.
Proof using Hstd Hne H0 H1.
  pose proof Hstd as (a & b & Ha & Hb). pose proof (close_ends 0 (Some a) ltac:(lia)) as H.
  rewrite !list_insert_id in H; [done|done|]. destruct ends_high. unfold piped. by rewrite !list_lookup_insert_ne by lia.
Qed.

Lemma pipe_child_eq at_ p o : (at_ <= 1)%nat -> (2 <= p)%nat -> piped !! p = Some (Some o) ->
  pipe_child at_ p p0 p1 piped = <[at_ := Some o]> T.
Proof using Hstd Hne H0 H1.
  intros Ha Hp Ho. assert (E : fd_dup p (fd_close at_ piped) = Some (at_, <[at_ := Some o]> piped)).
  { assert (Ho' : fd_close at_ piped !! p = Some (Some o)) by (unfold fd_close; by rewrite list_lookup_insert_ne by lia).
    unfold fd_dup. rewrite Ho'. apply fd_reopen; [|done].
    destruct ends_high. destruct Hstd as (a & b & ? & ?). exists a, b. unfold piped. by rewrite !list_lookup_insert_ne by lia. }
  unfold pipe_child. cbn zeta. rewrite E. cbn. by apply close_ends.
Qed.

End pipe.

(** Redirections concern standard input and output. *)
Fixpoint redirs_std (c : scmd) : Prop :=
  match c with
  | SExec _ => True
  | SRedir c _ _ fd => 0 <= fd <= 1 /\ redirs_std c
  | SPipe l r | SList l r => redirs_std l /\ redirs_std r
  | SBack c => redirs_std c
  end.

(** Tables with the same descriptors above standard output *)
Definition same_above (T T' : fds) : Prop := std_open T' /\ forall fd, (2 <= fd)%nat -> T' !! fd = T !! fd.

Lemma same_above_insert T T' fd o : good T -> (fd <= 1)%nat -> same_above (<[fd := Some o]> T) T' -> same_above T T'.
Proof.
  intros _ Hfd [H1 H2]. split; [done|]. intros i Hi. rewrite H2 by done. apply list_lookup_insert_ne. lia.
Qed.

Lemma panic_starts msg x : x ∈ starts (panic msg) -> False.
Proof. cbn. by intros ?%elem_of_nil. Qed.

(** What forks 1 adds to the programs and the waits *)
Lemma fork1_starts me kids child parent x : x ∈ starts (fork1 me kids child parent) ->
  x ∈ starts (child (kids :: me)) \/ x ∈ starts parent.
Proof. unfold fork1. destruct (can_fork _); [cbn; by rewrite elem_of_app|intros []%panic_starts]. Qed.

Lemma fork1_waits me kids child parent T : T ∈ waits (fork1 me kids child parent) ->
  T ∈ waits (child (kids :: me)) \/ T ∈ waits parent.
Proof. unfold fork1. destruct (can_fork _); [cbn; by rewrite elem_of_app|cbn; by intros ?%elem_of_nil]. Qed.

(** A redirection and a pipe, without the work on the descriptors *)
Lemma runcmd_redir me kids T c f m fd : good T -> 0 <= fd <= 1 ->
  runcmd me kids T (SRedir c f m fd) =
  if can_open f m then runcmd me kids (<[Z.to_nat fd := Some (FileAt f m)]> T) c
  else RMessage "open %s failed" f RExit.
Proof. intros [Hstd _] Hfd. cbn [runcmd]. rewrite fd_reopen by (done || lia). done. Qed.

Lemma runcmd_pipe me kids T l r : good T ->
  runcmd me kids T (SPipe l r) =
  fork1 me kids (fun child => runcmd child 0 (<[1%nat := Some (PipeW me)]> T) l)
    (fork1 me (S kids) (fun child => runcmd child 0 (<[0%nat := Some (PipeR me)]> T) r)
      (RWait T (RWait T RExit))).
Proof.
  intros HT. cbn [runcmd]. destruct (fd_pipe_good me T HT) as (p0 & p1 & Hne & H0 & H1 & ->).
  pose proof (proj1 HT) as Hstd. fold (piped me T p0 p1). destruct (ends_high T p0 p1 Hstd Hne H0 H1) as [G0 G1].
  rewrite (pipe_child_eq me T p0 p1 Hstd Hne H0 H1 1 p1 (PipeW me)); [|lia|done|].
  2:{ apply list_lookup_insert_eq. rewrite length_insert. by eapply lookup_lt_Some. }
  rewrite (pipe_child_eq me T p0 p1 Hstd Hne H0 H1 0 p0 (PipeR me)); [|lia|done|].
  2:{ unfold piped. rewrite list_lookup_insert_ne by done. apply list_lookup_insert_eq. by eapply lookup_lt_Some. }
  by rewrite (close_both me T p0 p1 Hstd Hne H0 H1).
Qed.

(** Every program gets the descriptors of its place in the command. *)
Lemma runcmd_starts c : forall me kids T x, redirs_std c -> good T ->
  x ∈ starts (runcmd me kids T c) -> x ∈ progs me kids T c.
Proof.
  induction c as [argv|c IH f m fd|l IHl r IHr|l IHl r IHr|c IH]; intros me kids T x Hc HT H; cbn [progs redirs_std] in *.
  - cbn in H. destruct argv as [|a args]; [done|]. destruct (can_exec a); [done|]. by apply elem_of_nil in H.
  - destruct Hc as [Hfd Hc]. rewrite runcmd_redir in H by done. destruct (can_open f m); [|by apply elem_of_nil in H].
    apply IH; [done|apply good_insert; [done|lia]|done].
  - destruct Hc as [Hl Hr]. rewrite runcmd_pipe in H by done. apply elem_of_app.
    apply fork1_starts in H as [H|H]; [left; apply IHl; [done|apply good_insert; [done|lia]|done]|].
    apply fork1_starts in H as [H|H]; [right; apply IHr; [done|apply good_insert; [done|lia]|done]|by apply elem_of_nil in H].
  - destruct Hc as [Hl Hr]. apply elem_of_app. apply fork1_starts in H as [H|H]; [left; by apply IHl|right; by apply IHr].
  - apply fork1_starts in H as [H|H]; [by apply IH|by apply elem_of_nil in H].
Qed.

(** When every call succeeds, all of them run. *)
Lemma runcmd_all c : (forall f m, can_open f m = true) -> (forall a, can_exec a = true) -> (forall p, can_fork p = true) ->
  forall me kids T, redirs_std c -> good T -> starts (runcmd me kids T c) = progs me kids T c.
Proof.
  intros Ho He Hf. assert (Hfk : forall me kids ch pa, starts (fork1 me kids ch pa) = starts (ch (kids :: me)) ++ starts pa).
  { intros. unfold fork1. by rewrite Hf. }
  induction c as [argv|c IH f m fd|l IHl r IHr|l IHl r IHr|c IH]; intros me kids T Hc HT; cbn [progs redirs_std] in *.
  - cbn. destruct argv as [|a args]; [done|]. by rewrite He.
  - destruct Hc as [Hfd Hc]. rewrite runcmd_redir, Ho by done. apply IH; [done|]. apply good_insert; [done|lia].
  - destruct Hc as [Hl Hr]. rewrite runcmd_pipe by done. rewrite !Hfk, IHl, IHr by (done || by apply good_insert; [|lia]).
    cbn [starts]. by rewrite app_nil_r.
  - destruct Hc as [Hl Hr]. cbn [runcmd]. rewrite Hfk. cbn [starts]. by rewrite IHl, IHr.
  - cbn [runcmd]. rewrite Hfk, IH by done. cbn [starts]. by rewrite app_nil_r.
Qed.

(** No descriptor but standard input and output ever differs from the shell's. *)
Lemma same_above_refl T : good T -> same_above T T.
Proof. by intros [? _]. Qed.

Lemma runcmd_waits c : forall me kids T T', redirs_std c -> good T ->
  T' ∈ waits (runcmd me kids T c) -> same_above T T'.
Proof.
  induction c as [argv|c IH f m fd|l IHl r IHr|l IHl r IHr|c IH]; intros me kids T T' Hc HT H; cbn [redirs_std] in *.
  - cbn in H. destruct argv as [|a args]; [by apply elem_of_nil in H|]. destruct (can_exec a); by apply elem_of_nil in H.
  - destruct Hc as [Hfd Hc]. rewrite runcmd_redir in H by done. destruct (can_open f m); [|by apply elem_of_nil in H].
    eapply (same_above_insert T T' (Z.to_nat fd)); [done|lia|]. eapply IH; [done| |exact H]. apply good_insert; [done|lia].
  - destruct Hc as [Hl Hr]. rewrite runcmd_pipe in H by done. apply fork1_waits in H as [H|H].
    + eapply (same_above_insert T T' 1); [done|lia|]. eapply IHl; [done| |exact H]. apply good_insert; [done|lia].
    + apply fork1_waits in H as [H|H].
      * eapply (same_above_insert T T' 0); [done|lia|]. eapply IHr; [done| |exact H]. apply good_insert; [done|lia].
      * cbn in H. rewrite !elem_of_cons, elem_of_nil in H. destruct H as [->|[->|[]]]; by apply same_above_refl.
  - destruct Hc as [Hl Hr]. apply fork1_waits in H as [H|H]; [by eapply IHl|]. cbn in H.
    apply elem_of_cons in H as [->|H]; [by apply same_above_refl|by eapply IHr].
  - apply fork1_waits in H as [H|H]; [by eapply IH|by apply elem_of_nil in H].
Qed.

Lemma progs_above c : forall me kids T argv T', redirs_std c -> good T ->
  (argv, T') ∈ progs me kids T c -> same_above T T'.
Proof.
  induction c as [args|c IH f m fd|l IHl r IHr|l IHl r IHr|c IH]; intros me kids T argv T' Hc HT H; cbn [redirs_std progs] in *.
  - destruct args; [by apply elem_of_nil in H|]. apply list_elem_of_singleton in H as [= _ ->]. by apply same_above_refl.
  - destruct Hc as [Hfd Hc]. eapply (same_above_insert T T' (Z.to_nat fd)); [done|lia|].
    eapply IH; [done| |exact H]. apply good_insert; [done|lia].
  - destruct Hc as [Hl Hr]. apply elem_of_app in H as [H|H].
    + eapply (same_above_insert T T' 1); [done|lia|]. eapply IHl; [done| |exact H]. apply good_insert; [done|lia].
    + eapply (same_above_insert T T' 0); [done|lia|]. eapply IHr; [done| |exact H]. apply good_insert; [done|lia].
  - destruct Hc as [Hl Hr]. apply elem_of_app in H as [H|H]; [by eapply IHl|by eapply IHr].
  - by eapply IH.
Qed.

(** ** The names of the pipes *)

Fixpoint pipes (me : pname) (kids : nat) (c : scmd) : list pname :=
  match c with
  | SExec _ => []
  | SRedir c _ _ _ => pipes me kids c
  | SList l r => pipes (kids :: me) 0 l ++ pipes me (S kids) r
  | SPipe l r => me :: pipes (kids :: me) 0 l ++ pipes (S kids :: me) 0 r
  | SBack c => pipes (kids :: me) 0 c
  end.

(** A name is the process's own or that of a descendant by a later fork. *)
Lemma pipes_below c : forall me kids n, n ∈ pipes me kids c ->
  n = me \/ exists k l, (kids <= k)%nat /\ n = l ++ k :: me.
Proof.
  assert (Hd : forall n me k kids, (kids <= k)%nat -> (n = k :: me \/ exists j l, (0 <= j)%nat /\ n = l ++ j :: k :: me) ->
    exists k l, (kids <= k)%nat /\ n = l ++ k :: me).
  { intros n me k kids Hk [->|(j & l & _ & ->)]; exists k; [by exists []|exists (l ++ [j]); by rewrite <- app_assoc]. }
  induction c as [argv|c IH f m fd|l IHl r IHr|l IHl r IHr|c IH]; intros me kids n H; cbn [pipes] in H.
  - by apply elem_of_nil in H.
  - by apply IH.
  - apply elem_of_cons in H as [->|H]; [by left|right]. apply elem_of_app in H as [H%IHl|H%IHr]; eapply Hd; [|done| |done]; lia.
  - apply elem_of_app in H as [H%IHl|H%IHr].
    + right. eapply Hd; [|done]. lia.
    + destruct H as [->|(k & l' & Hk & ->)]; [by left|right]. exists k, l'. split; [lia|done].
  - right. eapply Hd; [|by apply IH]. lia.
Qed.

Lemma below_ne (l1 l2 : pname) i j me : i <> j -> l1 ++ i :: me <> l2 ++ j :: me.
Proof.
  intros Hij E. apply (f_equal reverse) in E. rewrite !reverse_app, !reverse_cons, <- !app_assoc in E.
  by apply app_inv_head in E as [= ->].
Qed.

Lemma child_ne (l : pname) k me : l ++ k :: me <> me.
Proof. intros E. apply (f_equal length) in E. rewrite length_app in E. cbn in E. lia. Qed.

Lemma pipes_child c me k n : n ∈ pipes (k :: me) 0 c -> exists l, n = l ++ k :: me.
Proof. intros [->|(j & l & _ & ->)]%pipes_below; [by exists []|]. exists (l ++ [j]). by rewrite <- app_assoc. Qed.

Lemma pipes_nodup c : forall me kids, NoDup (pipes me kids c).
Proof.
  induction c as [argv|c IH f m fd|l IHl r IHr|l IHl r IHr|c IH]; intros me kids; cbn [pipes]; try done.
  - constructor.
  - apply NoDup_cons. split.
    + rewrite elem_of_app. intros [[l' E]%pipes_child|[l' E]%pipes_child]; symmetry in E; by apply child_ne in E.
    + apply NoDup_app. split; [done|]. split; [|done].
      intros n [l1 ->]%pipes_child [l2 E]%pipes_child. eapply below_ne; [|exact E]. lia.
  - apply NoDup_app. split; [done|]. split; [|done].
    intros n [l1 ->]%pipes_child [E|(k & l2 & Hk & E)]%pipes_below; [by apply child_ne in E|].
    eapply below_ne; [|exact E]. lia.
Qed.

(** ** Lines *)

Lemma scmd_redirs_std rs : forall c, redirs_std c -> redirs_std (foldl scmd_redir c rs).
Proof.
  induction rs as [|r rs IH]; intros c Hc; cbn [foldl]; [done|]. apply IH. by destruct r; split.
Qed.

Lemma backs_std n c : redirs_std c -> redirs_std (Nat.iter n SBack c).
Proof. intros Hc. by induction n. Qed.

Lemma line_redirs_std : (forall l, redirs_std (cmd_line l)) /\ (forall p, redirs_std (cmd_pipe p)) /\
  (forall e, redirs_std (cmd_exec e)).
Proof.
  apply grammar_ind; intros; cbn [cmd_line cmd_pipe cmd_exec redirs_std];
    try split; auto using backs_std; by apply scmd_redirs_std.
Qed.

(** C38: the shell connects the programs of a line as the line says.  The
    process forked for a line parses it and starts, with any failures of open,
    exec and fork, only programs of the line, each with exactly the descriptors
    of its place: a pipe replaces the output of its left side and the input of
    its right side, a redirection one descriptor, the first of several on the
    same descriptor winning.  When nothing fails it starts all of them.  No
    program and no process that waits has any other descriptor than the shell:
    no end of a pipe is left open, so that a reader sees the end of its input
    when the writers have exited.  Different pipes of a line have different
    names. *)
Theorem run_line_descriptors me T l rest : line_ok l -> good T ->
  let r := run_line me T (spell (tok_line l) ++ 0 :: rest) in
  (forall x, x ∈ starts r -> x ∈ progs me 0 T (cmd_line l)) /\
  ((forall f m, can_open f m = true) -> (forall a, can_exec a = true) -> (forall p, can_fork p = true) ->
     starts r = progs me 0 T (cmd_line l)) /\
  (forall argv T', (argv, T') ∈ starts r -> same_above T T') /\
  (forall T', T' ∈ waits r -> same_above T T') /\
  NoDup (pipes me 0 (cmd_line l)).
Proof.
  intros Hl HT r. destruct (parse_line l rest Hl) as (c & buf' & E & Hv).
  assert (Er : r = runcmd me 0 T (cmd_line l)) by (unfold r, run_line; by rewrite E, Hv).
  pose proof (proj1 line_redirs_std l) as Hs. rewrite Er. split; [|split; [|split; [|split]]].
  - intros x. by apply runcmd_starts.
  - intros Ho He Hf. by apply runcmd_all.
  - intros argv T' H. by eapply progs_above, runcmd_starts.
  - intros T'. by apply runcmd_waits.
  - apply pipes_nodup.
Qed.

End runcmd.

(** ** The line (a < f | b >> g) & ; c d  in the shell that main has set up *)
Definition sh_fds : fds := Eval vm_compute in open_console 17 (replicate 16 None).

Lemma sh_good : good sh_fds.
Proof. split; [by exists (Base 0), (Base 0)|]. by exists 3%nat, 4%nat. Qed.

Lemma run_line_descriptors_witness : (line_ok w_line /\ good sh_fds) /\
  let yes := fun _ : list Z => true in
  let r := run_line (fun _ _ => true) yes (fun _ => true) [0%nat] sh_fds (spell (tok_line w_line) ++ [0]) in
  (forall x, x ∈ starts r -> x ∈ progs [0%nat] 0 sh_fds (cmd_line w_line)) /\
  ((forall f m, (fun (_ : list Z) (_ : Z) => true) f m = true) -> (forall a, yes a = true) ->
     (forall p, (fun _ : pname => true) p = true) -> starts r = progs [0%nat] 0 sh_fds (cmd_line w_line)) /\
  (forall argv T', (argv, T') ∈ starts r -> same_above sh_fds T') /\
  (forall T', T' ∈ waits r -> same_above sh_fds T') /\
  NoDup (pipes [0%nat] 0 (cmd_line w_line)).
Proof.
  split; [split; [exact w_line_ok|exact sh_good]|].
  exact (run_line_descriptors (fun _ _ => true) (fun _ => true) (fun _ => true) [0%nat] sh_fds w_line [] w_line_ok sh_good).
Defined.

Example w_line_programs : (fun x => (x.1, take 3 x.2)) <$> progs [0%nat] 0 sh_fds (cmd_line w_line) =
  [([[97]], [Some (FileAt [102] 0); Some (PipeW [0; 0; 0]%nat); Some (Base 0)]);
   ([[98]], [Some (PipeR [0; 0; 0]%nat); Some (FileAt [103] 513); Some (Base 0)]);
   ([[99]; [100; 101]], [Some (Base 0); Some (Base 0); Some (Base 0)])].
Proof. reflexivity. Qed.

(** "cd a", then "b", typed at the console *)
Example main_run : main (fun _ _ => true) (fun _ => true) (fun _ => true) (fun _ => true) (replicate 16 None)
    [99; 100; 32; 97; 10; 98; 10] =
  RChdir [97] (RFork (RExec [[98]] sh_fds) (RWait sh_fds RExit)).
Proof. vm_compute. reflexivity. Qed.

End RunCmd.
