(* ===== verification/FsPath.v ===== *)
(** * Paths: what the elements of a path are, and that skipelem yields them *)
From S2P Require Import Prelude Words Params CString Core Fs.

Module FsPath.
Import Fs.

(** The elements of a path: its maximal parts without a slash *)
Fixpoint elements_from (acc path : list Z) : list (list Z) :=
  match path with
  | [] => match acc with [] => [] | _ => [acc] end
  | c :: path' =>
      if c =? slash then
        match acc with [] => elements_from [] path' | _ => acc :: elements_from [] path' end
      else elements_from (acc ++ [c]) path'
  end.

Definition elements (path : list Z) : list (list Z) := elements_from [] path.

Lemma elements_skip path : elements (skip_slashes path) = elements path.
Proof.
  unfold elements. induction path as [|c path IH]; cbn [skip_slashes elements_from]; [done|].
  destruct (c =? slash) eqn:E; [done|]. cbn [elements_from]. by rewrite E.
Qed.

Lemma skip_slashes_head path : match skip_slashes path with [] => True | c :: _ => c <> slash end.
Proof.
  induction path as [|c path IH]; cbn [skip_slashes]; [done|].
  destruct (Z.eqb_spec c slash); [done|]. done.
Qed.

Lemma span_elem_app path s rest : span_elem path = (s, rest) ->
  path = s ++ rest /\ Forall (fun c => c <> slash) s /\
  match rest with [] => True | c :: _ => c = slash end.
Proof.
  revert s rest. induction path as [|c path IH]; intros s rest; cbn [span_elem].
  - intros [= <- <-]. done.
  - destruct (Z.eqb_spec c slash) as [->|Hc]; [intros [= <- <-]; done|].
    destruct (span_elem path) as [e r] eqn:E. intros [= <- <-].
    destruct (IH _ _ eq_refl) as (-> & Hs & Hr). split; [done|]. split; [by constructor|done].
Qed.

Lemma elements_from_span acc s rest : Forall (fun c => c <> slash) s ->
  elements_from acc (s ++ rest) = elements_from (acc ++ s) rest.
Proof.
  revert acc. induction s as [|c s IH]; intros acc Hs; [by rewrite app_nil_r|].
  apply Forall_cons in Hs as [Hc Hs]. cbn [app elements_from].
  rewrite (proj2 (Z.eqb_neq c slash)) by done. rewrite IH by done. by rewrite <- app_assoc.
Qed.

Lemma elements_span s rest : s <> [] -> Forall (fun c => c <> slash) s ->
  match rest with [] => True | c :: _ => c = slash end ->
  elements (s ++ rest) = s :: elements rest.
Proof.
  intros Hne Hs Hr. unfold elements. rewrite elements_from_span by done. cbn [app].
  destruct rest as [|c rest]; cbn [elements_from]; [by destruct s|].
  subst c. rewrite Z.eqb_refl. by destruct s.
Qed.

(** Storing an element in the 14-byte [name] array *)
Lemma cstr_app_nul n s rest : Forall (fun c => c <> 0) s -> (length s < n)%nat ->
  CString.cstr n (s ++ 0 :: rest) = s.
Proof.
  revert n. induction s as [|c s IH]; intros n Hs Hn; destruct n as [|n]; cbn in Hn; try lia.
  - done.
  - apply Forall_cons in Hs as [Hc Hs]. cbn. rewrite (proj2 (Z.eqb_neq c 0)) by done.
    by rewrite IH by (done || lia).
Qed.

Lemma cstr_full n s : Forall (fun c => c <> 0) s -> length s = n -> CString.cstr n s = s.
Proof.
  revert n. induction s as [|c s IH]; intros n Hs Hn; destruct n as [|n]; try done.
  apply Forall_cons in Hs as [Hc Hs]. cbn. rewrite (proj2 (Z.eqb_neq c 0)) by done.
  rewrite IH; [done|done|by injection Hn].
Qed.

(** Skipelem yields the elements of a path.  It returns 0 exactly when no
    element is left; otherwise it stores the next element, cut to 14
    characters, in [name] and returns the path of the remaining elements,
    which is shorter, so a path has finitely many. *)
Theorem skipelem_elements path name :
  Forall (fun c => c <> 0) path -> length name = Z.to_nat DIRSIZ ->
  match skipelem path name with
  | None => elements path = []
  | Some (path', name') => exists e,
      elements path = e :: elements path' /\
      CString.cstr (Z.to_nat DIRSIZ) name' = take (Z.to_nat DIRSIZ) e /\
      length name' = Z.to_nat DIRSIZ /\ (length path' < length path)%nat /\
      Forall (fun c => c <> 0) path'
  end.
Proof.
  intros Hp Hn. unfold skipelem. rewrite <- (elements_skip path).
  pose proof (skip_slashes_head path) as Hh.
  assert (Hsuf : forall p, exists pre, p = pre ++ skip_slashes p).
  { intros p. induction p as [|c p (pre & IH)]; [by exists []|]. cbn [skip_slashes].
    destruct (c =? slash); [|by exists []]. exists (c :: pre). cbn. by f_equal. }
  destruct (Hsuf path) as (pre & Hpre). rewrite Hpre in Hp. apply Forall_app in Hp as [_ Hp].
  assert (Hlen : (length (skip_slashes path) <= length path)%nat)
    by (rewrite Hpre at 2; rewrite length_app; lia).
  destruct (skip_slashes path) as [|c q]; [done|].
  destruct (span_elem (c :: q)) as [s rest] eqn:E.
  destruct (span_elem_app _ _ _ E) as (Eq & Hs & Hr).
  assert (Hne : s <> []).
  { intros ->. cbn [app] in Eq. rewrite <- Eq in Hr. by apply Hh. }
  exists s. rewrite Eq in Hp |- *. apply Forall_app in Hp as [Hs0 Hr0].
  rewrite elements_span by done. split; [by rewrite elements_skip|].
  destruct (Hsuf rest) as (pre' & Hpre').
  assert (Hle : (length (skip_slashes rest) <= length rest)%nat)
    by (rewrite Hpre' at 2; rewrite length_app; lia).
  rewrite Eq in Hlen. rewrite length_app in Hlen.
  assert (length s <> 0%nat) by (by destruct s).
  assert (Hnm : CString.cstr (Z.to_nat DIRSIZ)
      (if zlen s >=? DIRSIZ then splice 0 (take (Z.to_nat DIRSIZ) s) name else splice 0 (s ++ [0]) name)
      = take (Z.to_nat DIRSIZ) s /\
    length (if zlen s >=? DIRSIZ then splice 0 (take (Z.to_nat DIRSIZ) s) name
            else splice 0 (s ++ [0]) name) = Z.to_nat DIRSIZ).
  { change (Z.to_nat DIRSIZ) with 14%nat in *. unfold zlen, DIRSIZ.
    destruct (Z.geb_spec (Z.of_nat (length s)) 14) as [Hge|Hlt].
    - rewrite splice_0_all by (rewrite length_take; lia).
      split; [|rewrite length_take; lia].
      apply cstr_full; [by apply Forall_take|rewrite length_take; lia].
    - rewrite length_splice by (rewrite length_app; cbn; lia). split; [|done].
      unfold splice. rewrite take_0. cbn [app]. rewrite <- app_assoc. cbn [app].
      rewrite cstr_app_nul by (done || lia). by rewrite take_ge by lia. }
  destruct Hnm as [Hnm1 Hnm2]. split; [done|]. split; [done|]. split; [lia|].
  rewrite Hpre' in Hr0. by apply Forall_app in Hr0 as [_ ?].
Qed.

(** "//usr/bin" *)
Lemma skipelem_elements_witness : exists e,
  elements [47; 47; 117; 115; 114; 47; 98] = e :: elements [98] /\
  CString.cstr 14 ([117; 115; 114; 0] ++ replicate 10 7) = take 14 e /\
  length ([117; 115; 114; 0] ++ replicate 10 7) = 14%nat /\ (1 < 7)%nat /\
  Forall (fun c => c <> 0) [98].
Proof.
  apply (skipelem_elements [47; 47; 117; 115; 114; 47; 98] (replicate 14 7)); [|reflexivity].
  repeat (apply Forall_cons; split; [lia|]). constructor.
Defined.

End FsPath.
