(* ===== verification/FsAlloc.v ===== *)
(** * Block allocation: the free bitmap (fs.c:balloc and bfree)

    Proved on the block store of [MemBlk], the contract of the block layer. *)
From S2P Require Import Prelude Words Params CString Kalloc Core Fs MemBlk.

Module FsAlloc.
Import Fs.

#[local] Abbreviation C := (core store).

(** ** Bits *)

Definition bit (d : list Z) (k : Z) : bool := Z.testbit (default 0 (zget d (k / 8))) (k mod 8).

Definition set_bit (d : list Z) (k : Z) : list Z :=
  zset d (k / 8) (Z.lor (default 0 (zget d (k / 8))) (Z.shiftl 1 (k mod 8))).
Definition clear_bit (d : list Z) (k : Z) : list Z :=
  zset d (k / 8) (Z.land (default 0 (zget d (k / 8))) (u8 (Z.lnot (Z.shiftl 1 (k mod 8))))).

Lemma land_bit x k : 0 <= k -> (Z.land x (Z.shiftl 1 k) =? 0) = negb (Z.testbit x k).
Proof.
  intros Hk. rewrite Z.shiftl_1_l. destruct (Z.testbit x k) eqn:E; cbn [negb].
  - apply Z.eqb_neq. intros H. apply (f_equal (fun z => Z.testbit z k)) in H.
    rewrite Z.land_spec, E, Z.pow2_bits_true, Z.bits_0 in H by done. done.
  - apply Z.eqb_eq. apply Z.bits_inj'. intros i Hi.
    rewrite Z.land_spec, Z.bits_0, Z.pow2_bits_eqb by done.
    destruct (Z.eqb_spec k i) as [->|]; [by rewrite E|by rewrite andb_false_r].
Qed.

Lemma zget_byte d k : length d = Z.to_nat BSIZE -> 0 <= k < BPB ->
  zget d (k / 8) = Some (default 0 (zget d (k / 8))).
Proof.
  intros Hd Hk. destruct (zget_lt d (k / 8)) as [x ->]; [|done].
  unfold zlen, BPB, BSIZE in *. change (Z.to_nat 512) with 512%nat in Hd. rewrite Hd.
  split; [apply Z.div_pos; lia|apply Z.div_lt_upper_bound; lia].
Qed.

Lemma same_slot j k : 0 <= j -> 0 <= k -> j / 8 = k / 8 -> j mod 8 = k mod 8 -> j = k.
Proof. intros. rewrite (Z.div_mod j 8), (Z.div_mod k 8); lia. Qed.

Lemma bit_upd d k v j : length d = Z.to_nat BSIZE -> 0 <= k < BPB -> 0 <= j ->
  bit (zset d (k / 8) v) j = if j / 8 =? k / 8 then Z.testbit v (j mod 8) else bit d j.
Proof.
  intros Hd Hk Hj. unfold bit. destruct (Z.eqb_spec (j / 8) (k / 8)) as [->|Hne].
  - rewrite zget_zset_eq; [done|]. eapply zget_Some. by apply zget_byte.
  - rewrite zget_zset_ne; [done|apply Z.div_pos; lia|done].
Qed.

Lemma bit_set_bit d k j : length d = Z.to_nat BSIZE -> 0 <= k < BPB -> 0 <= j ->
  bit (set_bit d k) j = (j =? k) || bit d j.
Proof.
  intros Hd Hk Hj. unfold set_bit. rewrite bit_upd by done.
  assert (Hm : 0 <= k mod 8 < 8 /\ 0 <= j mod 8 < 8) by (split; apply Z.mod_pos_bound; lia).
  destruct (Z.eqb_spec (j / 8) (k / 8)) as [E|E].
  - rewrite Z.lor_spec, Z.shiftl_1_l, Z.pow2_bits_eqb by lia.
    unfold bit. rewrite E, orb_comm. f_equal.
    destruct (Z.eqb_spec (k mod 8) (j mod 8)), (Z.eqb_spec j k); try done; subst; [|done].
    exfalso. eauto using same_slot with lia.
  - destruct (Z.eqb_spec j k); [by subst|done].
Qed.

Lemma bit_clear_bit d k j : length d = Z.to_nat BSIZE -> 0 <= k < BPB -> 0 <= j ->
  bit (clear_bit d k) j = negb (j =? k) && bit d j.
Proof.
  intros Hd Hk Hj. unfold clear_bit. rewrite bit_upd by done.
  assert (Hm : 0 <= k mod 8 < 8 /\ 0 <= j mod 8 < 8) by (split; apply Z.mod_pos_bound; lia).
  destruct (Z.eqb_spec (j / 8) (k / 8)) as [E|E].
  - rewrite Z.land_spec. unfold u8. rewrite Z.mod_pow2_bits_low by lia.
    rewrite Z.lnot_spec, Z.shiftl_1_l, Z.pow2_bits_eqb by lia.
    unfold bit. rewrite E, andb_comm. f_equal. f_equal.
    destruct (Z.eqb_spec (k mod 8) (j mod 8)), (Z.eqb_spec j k); try done; subst; [|done].
    exfalso. eauto using same_slot with lia.
  - destruct (Z.eqb_spec j k); [by subst|done].
Qed.

(** ** The bitmap of a device *)

Definition at_ (c : C) (dev b : Z) : list Z := default zero_block (c_blk c !! (dev, b)).

Definition used (c : C) (dev b : Z) : bool := bit (at_ c dev (BBLOCK b (c_sb c))) (b mod BPB).

(** Bitmap blocks are whole blocks of the file system, marked in use. *)
Definition bitmap_ok (c : C) (dev : Z) : Prop :=
  0 <= sb_size (c_sb c) /\
  forall b, 0 <= b < sb_size (c_sb c) ->
    length (at_ c dev (BBLOCK b (c_sb c))) = Z.to_nat BSIZE /\
    0 <= BBLOCK b (c_sb c) < sb_size (c_sb c) /\
    used c dev (BBLOCK b (c_sb c)) = true.

Definition put (dev b : Z) (d : list Z) (c : C) : C := set_blk (<[(dev, b) := d]> (c_blk c)) c.

Lemma blk_bread_run dev b (c : C) : blk (bread dev b) c = Ok (at_ c dev b) c.
Proof. unfold blk, zoom. cbn. by destruct c. Qed.

Lemma blk_brelse_run dev b (c : C) : blk (brelse dev b) c = Ok tt c.
Proof. unfold blk, zoom. cbn. by destruct c. Qed.

Lemma blk_log_write_run dev b d (c : C) : blk (log_write dev b d) c = Ok tt (put dev b d c).
Proof. done. Qed.

Lemma sb_get_run (c : C) : sb_get c = Ok (c_sb c) c.
Proof. done. Qed.

Lemma at_put dev b d (c : C) dev' b' :
  at_ (put dev b d c) dev' b' = if decide ((dev', b') = (dev, b)) then d else at_ c dev' b'.
Proof.
  unfold at_, put, set_blk, store. cbn [c_blk]. case_decide as E.
  - injection E as -> ->. by rewrite lookup_insert_eq.
  - by rewrite lookup_insert_ne.
Qed.

Lemma put_sb dev b d c : c_sb (put dev b d c) = c_sb c.
Proof. done. Qed.

(** ** The search *)

Definition scan_result (b bi size : Z) (d : list Z) (r : option Z) : Prop :=
  match r with
  | Some k => bi <= k < BPB /\ b + k < size /\ bit d k = false /\
              (forall j, bi <= j < k -> bit d j = true)
  | None => forall j, bi <= j < BPB -> b + j < size -> bit d j = true
  end.

Lemma balloc_scan_run fuel : forall b bi size d (c : C), length d = Z.to_nat BSIZE ->
  0 <= bi -> Z.of_nat fuel = BPB - bi ->
  exists r, balloc_scan fuel b bi size d c = Ok r c /\ scan_result b bi size d r.
Proof.
  induction fuel as [|fuel IH]; intros b bi size d c Hd Hbi Hf; cbn [balloc_scan].
  - exists None. split; [done|]. intros j Hj. lia.
  - destruct (Z.ltb_spec (b + bi) size) as [Hlt|Hge].
    + rewrite (bind_run _ _ _ _ _ (aget_run _ _ _ _ (zget_byte d bi Hd ltac:(lia)))).
      rewrite land_bit by (apply Z.mod_pos_bound; lia). fold (bit d bi).
      destruct (bit d bi) eqn:E; cbn [negb].
      * destruct (IH b (bi + 1) size d c Hd) as (r & Er & Hr); [lia|lia|].
        exists r. split; [done|]. destruct r as [k|]; cbn in Hr |- *.
        -- destruct Hr as (H1 & H2 & H3 & H4). repeat split; try lia; [done|].
           intros j Hj. destruct (decide (j = bi)) as [->|]; [done|]. apply H4. lia.
        -- intros j Hj Hs. destruct (decide (j = bi)) as [->|]; [done|]. apply Hr; lia.
      * exists (Some bi). split; [done|]. cbn. repeat split; try lia; done.
    + exists None. split; [done|]. intros j Hj Hs. lia.
Qed.

(** The state after block [x] has been allocated *)
Definition allocated (dev x : Z) (c : C) : C :=
  put dev x zero_block
    (put dev (BBLOCK x (c_sb c)) (set_bit (at_ c dev (BBLOCK x (c_sb c))) (x mod BPB)) c).

Lemma BBLOCK_add b bi sb : b mod BPB = 0 -> 0 <= bi < BPB -> BBLOCK (b + bi) sb = BBLOCK b sb.
Proof.
  intros Hb Hbi. unfold BBLOCK. f_equal. unfold BPB, BSIZE in *. Z.to_euclidean_division_equations; lia.
Qed.

Lemma mod_add b bi : b mod BPB = 0 -> 0 <= bi < BPB -> (b + bi) mod BPB = bi.
Proof. intros Hb Hbi. unfold BPB, BSIZE in *. Z.to_euclidean_division_equations; lia. Qed.

Lemma used_at (c : C) dev b bi : b mod BPB = 0 -> 0 <= bi < BPB ->
  used c dev (b + bi) = bit (at_ c dev (BBLOCK b (c_sb c))) bi.
Proof. intros. unfold used. by rewrite BBLOCK_add, mod_add. Qed.

Lemma balloc_loop_run fuel : forall dev b (c : C), bitmap_ok c dev ->
  0 <= b -> b mod BPB = 0 -> sb_size (c_sb c) - b <= Z.of_nat fuel * BPB ->
  (exists x, b <= x < sb_size (c_sb c) /\ used c dev x = false /\
     (forall y, b <= y < x -> used c dev y = true) /\
     balloc_loop fuel dev b c = Ok x (allocated dev x c)) \/
  ((forall y, b <= y < sb_size (c_sb c) -> used c dev y = true) /\
     balloc_loop fuel dev b c = Panic "balloc: out of blocks").
Proof.
  induction fuel as [|fuel IH]; intros dev b c Hok Hb Hm Hf; cbn [balloc_loop];
    rewrite (bind_run _ _ _ _ _ (sb_get_run c));
    destruct (Z.ltb_spec b (sb_size (c_sb c))) as [Hlt|Hge]; try lia;
    try (right; split; [intros y Hy; lia|done]).
  destruct (proj2 Hok b ltac:(lia)) as (Hlen & _ & _).
  rewrite (bind_run _ _ _ _ _ (blk_bread_run dev _ c)).
  set (d := at_ c dev (BBLOCK b (c_sb c))) in *.
  destruct (balloc_scan_run (Z.to_nat BPB) b 0 (sb_size (c_sb c)) d c Hlen) as (r & Er & Hr);
    [lia|done|].
  rewrite (bind_run _ _ _ _ _ Er). destruct r as [bi|]; cbn in Hr.
  - destruct Hr as (H1 & H2 & H3 & H4). left. exists (b + bi).
    split; [lia|]. split; [by rewrite used_at by (done || lia)|]. split.
    { intros y Hy. replace y with (b + (y - b)) by lia. rewrite used_at by (done || lia). apply H4. lia. }
    rewrite (bind_run _ _ _ _ _ (aget_run _ _ _ _ (zget_byte d bi Hlen ltac:(lia)))).
    unfold allocated. rewrite BBLOCK_add, mod_add by (done || lia).
    rewrite (bind_run _ _ _ _ _ (blk_log_write_run dev _ _ c)).
    rewrite (bind_run _ _ _ _ _ (blk_brelse_run dev _ _)). unfold bzero.
    rewrite !bind_assoc, (bind_run _ _ _ _ _ (blk_bread_run dev _ _)).
    rewrite bind_assoc, (bind_run _ _ _ _ _ (blk_log_write_run dev _ _ _)).
    by rewrite (bind_run _ _ _ _ _ (blk_brelse_run dev _ _)).
  - rewrite (bind_run _ _ _ _ _ (blk_brelse_run dev _ _)).
    assert (Hthis : forall y, b <= y < b + BPB -> y < sb_size (c_sb c) -> used c dev y = true).
    { intros y Hy Hs. replace y with (b + (y - b)) by lia. rewrite used_at by (done || lia). apply Hr; lia. }
    destruct (IH dev (b + BPB) c Hok) as [(x & Hx & Hu & Hy & E)|[Hy E]].
    + unfold BPB, BSIZE. lia.
    + unfold BPB, BSIZE in *. Z.to_euclidean_division_equations; lia.
    + lia.
    + left. exists x. unfold BPB, BSIZE in *. repeat split; try lia; try done.
      intros y Hyx. destruct (decide (y < b + 512 * 8)); [apply Hthis; lia|apply Hy; lia].
    + right. split; [|done]. intros y Hyx. unfold BPB, BSIZE in *.
      destruct (decide (y < b + 512 * 8)); [apply Hthis; lia|apply Hy; lia].
Qed.

Lemma balloc_run dev (c : C) : bitmap_ok c dev ->
  (exists x, 0 <= x < sb_size (c_sb c) /\ used c dev x = false /\
     (forall y, 0 <= y < x -> used c dev y = true) /\
     balloc dev c = Ok x (allocated dev x c)) \/
  ((forall y, 0 <= y < sb_size (c_sb c) -> used c dev y = true) /\
     balloc dev c = Panic "balloc: out of blocks").
Proof.
  intros Hok. unfold balloc. rewrite (bind_run _ _ _ _ _ (sb_get_run c)).
  apply balloc_loop_run; [done|lia|done|]. destruct Hok as [Hs _].
  assert (0 <= sb_size (c_sb c) / BPB) by (apply Z.div_pos; [done|unfold BPB, BSIZE; lia]).
  rewrite Z2Nat.id by lia. unfold BPB, BSIZE in *. Z.to_euclidean_division_equations; lia.
Qed.

(** ** What allocation and release do *)

Lemma BBLOCK_inj x y sb : 0 <= x -> 0 <= y -> BBLOCK x sb = BBLOCK y sb ->
  x mod BPB = y mod BPB -> x = y.
Proof.
  unfold BBLOCK. intros Hx Hy E Em. rewrite (Z.div_mod x BPB), (Z.div_mod y BPB) by (unfold BPB, BSIZE; lia).
  replace (x / BPB) with (y / BPB) by lia. lia.
Qed.

Lemma mod_BPB x : 0 <= x mod BPB < BPB.
Proof. apply Z.mod_pos_bound. unfold BPB, BSIZE. lia. Qed.

(** A bitmap block in which the bit of [x] has been rewritten with [f] *)
Lemma used_put (c : C) dev x y f :
  bitmap_ok c dev -> 0 <= x < sb_size (c_sb c) -> 0 <= y ->
  (forall d k j, length d = Z.to_nat BSIZE -> 0 <= k < BPB -> 0 <= j ->
     bit (f d k) j = bit d j \/ j = k) ->
  x <> y ->
  used (put dev (BBLOCK x (c_sb c)) (f (at_ c dev (BBLOCK x (c_sb c))) (x mod BPB)) c) dev y =
  used c dev y.
Proof.
  intros Hok Hx Hy Hf Hne. unfold used. rewrite put_sb, at_put. case_decide as E; [|done].
  injection E as E. destruct (proj2 Hok x Hx) as (Hlen & _ & _). rewrite <- E in *.
  destruct (Hf _ (x mod BPB) (y mod BPB) Hlen (mod_BPB x)) as [H|H]; [apply mod_BPB|done|].
  exfalso. apply Hne. symmetry. apply (BBLOCK_inj y x (c_sb c)); [done|lia|done|done].
Qed.

Lemma balloc_spec dev (c : C) :
  bitmap_ok c dev ->
  match balloc dev c with
  | Ok x c' =>
      0 <= x < sb_size (c_sb c) /\ used c dev x = false /\ used c' dev x = true /\
      at_ c' dev x = zero_block /\
      (forall y, 0 <= y < sb_size (c_sb c) -> y <> x -> used c' dev y = used c dev y) /\
      (forall d b, (d, b) <> (dev, x) -> (d, b) <> (dev, BBLOCK x (c_sb c)) -> at_ c' d b = at_ c d b) /\
      c' = set_blk (c_blk c') c /\ bitmap_ok c' dev
  | Panic _ => forall y, 0 <= y < sb_size (c_sb c) -> used c dev y = true
  | _ => False
  end.
Proof.
  intros Hok. destruct (balloc_run dev c Hok) as [(x & Hx & Hu & _ & ->)|[Hy ->]]; [|done].
  destruct (proj2 Hok x Hx) as (Hlen & Hrng & Hbm). pose proof (mod_BPB x) as Hmx.
  set (c1 := put dev (BBLOCK x (c_sb c)) (set_bit (at_ c dev (BBLOCK x (c_sb c))) (x mod BPB)) c).
  assert (Hne : BBLOCK x (c_sb c) <> x) by (intros E; rewrite E in Hbm; congruence).
  assert (Hsame : forall y, 0 <= y < sb_size (c_sb c) ->
    used (allocated dev x c) dev y = used c1 dev y).
  { intros y Hy. unfold used, allocated. fold c1. rewrite at_put, put_sb.
    rewrite decide_False; [done|]. intros [= E]. destruct (proj2 Hok y Hy) as (_ & _ & Hb).
    change (c_sb c1) with (c_sb c) in E. congruence. }
  split; [done|]. split; [done|]. split.
  { rewrite Hsame by done. unfold used. subst c1. rewrite put_sb, at_put, decide_True by done.
    rewrite bit_set_bit by (done || lia). by rewrite Z.eqb_refl. }
  split; [unfold allocated; by rewrite at_put, decide_True|]. split.
  { intros y Hy Hyx. rewrite Hsame by done. subst c1. apply (used_put c dev x y set_bit); try done; try lia.
    intros d k j Hd Hk Hj. rewrite bit_set_bit by done.
    destruct (Z.eqb_spec j k); [by right|by left]. }
  split; [intros d b H1 H2; unfold allocated; by rewrite !at_put, !decide_False by done|].
  split; [by destruct c|]. split; [apply Hok|]. intros b Hb.
  change (c_sb (allocated dev x c)) with (c_sb c) in *.
  destruct (proj2 Hok b Hb) as (Hl & Hr & Hu'). split; [|split; [done|]].
  - unfold allocated. rewrite at_put, decide_False by (intros [= E]; congruence).
    rewrite at_put. case_decide as E; [|done]. unfold set_bit. by rewrite length_zset.
  - rewrite Hsame by done. destruct (decide (BBLOCK b (c_sb c) = x)) as [E|E]; [congruence|].
    rewrite (used_put c dev x _ set_bit); try done; try lia.
    intros d k j Hd Hk Hj. rewrite bit_set_bit by done. destruct (Z.eqb_spec j k); auto.
Qed.


(** Balloc allocates a free block.  It takes the first block whose bit is
    clear, sets that bit and no other, zeroes that block and changes no other
    block but the bitmap's; when every block is in use it panics. *)
Theorem balloc_correct dev (c : C) :
  bitmap_ok c dev ->
  match balloc dev c with
  | Ok x c' =>
      0 <= x < sb_size (c_sb c) /\ used c dev x = false /\ used c' dev x = true /\
      at_ c' dev x = zero_block /\
      (forall y, 0 <= y < sb_size (c_sb c) -> y <> x -> used c' dev y = used c dev y) /\
      (forall d b, (d, b) <> (dev, x) -> (d, b) <> (dev, BBLOCK x (c_sb c)) -> at_ c' d b = at_ c d b) /\
      c' = set_blk (c_blk c') c
  | Panic _ => forall y, 0 <= y < sb_size (c_sb c) -> used c dev y = true
  | _ => False
  end.
Proof.
  intros Hok. pose proof (balloc_spec dev c Hok) as H. destruct (balloc dev c); try done.
  destruct H as (? & ? & ? & ? & ? & ? & ? & _). auto 10.
Qed.

Lemma bfree_run dev b (c : C) : bitmap_ok c dev -> 0 <= b < sb_size (c_sb c) ->
  bfree dev b c = if used c dev b
    then Ok tt (put dev (BBLOCK b (c_sb c)) (clear_bit (at_ c dev (BBLOCK b (c_sb c))) (b mod BPB)) c)
    else Panic "freeing free block".
Proof.
  intros Hok Hb. destruct (proj2 Hok b Hb) as (Hlen & _ & _). pose proof (mod_BPB b) as Hm.
  unfold bfree. rewrite (bind_run _ _ _ _ _ (sb_get_run c)).
  rewrite (bind_run _ _ _ _ _ (blk_bread_run dev _ c)).
  rewrite (bind_run _ _ _ _ _ (aget_run _ _ _ _ (zget_byte _ _ Hlen Hm))).
  rewrite land_bit by (apply Z.mod_pos_bound; lia).
  unfold used, bit at 1. destruct (Z.testbit _ _); [|done]. cbn [negb].
  rewrite (bind_run _ _ _ _ _ (blk_log_write_run dev _ _ c)). apply blk_brelse_run.
Qed.

(** bfree releases a block.  A block in use becomes free, no other bit and
    no block but the bitmap's changes; freeing a free block panics. *)
Theorem bfree_correct dev b (c : C) :
  bitmap_ok c dev -> 0 <= b < sb_size (c_sb c) ->
  if used c dev b then
    exists c', bfree dev b c = Ok tt c' /\ used c' dev b = false /\
      (forall y, 0 <= y -> y <> b -> used c' dev y = used c dev y) /\
      (forall d k, (d, k) <> (dev, BBLOCK b (c_sb c)) -> at_ c' d k = at_ c d k) /\
      c' = set_blk (c_blk c') c
  else bfree dev b c = Panic "freeing free block".
Proof.
  intros Hok Hb. rewrite bfree_run by done. destruct (proj2 Hok b Hb) as (Hlen & _ & _).
  destruct (used c dev b) eqn:Hu; [|done]. eexists. split; [done|]. split.
  { unfold used. rewrite put_sb, at_put, decide_True by done.
    rewrite bit_clear_bit by (done || apply mod_BPB). by rewrite Z.eqb_refl. }
  split.
  { intros y Hy Hyb. apply (used_put c dev b y clear_bit); try done.
    intros d k j Hd Hk Hj. rewrite bit_clear_bit by done.
    destruct (Z.eqb_spec j k); [by right|by left]. }
  split; [|by destruct c]. intros d k Hne. by rewrite at_put, decide_False.
Qed.

(** ** Witnesses: a disk of 100 blocks whose bitmap, in block 58, marks the
    first 59 blocks *)
Definition w_bitmap : list Z := replicate 7 255 ++ [7] ++ replicate 504 0.
Definition w_core : C :=
  mkCore (<[(1, 58) := w_bitmap]> ∅) (mkSuperblock 100 41 200 30 2 32 58) [] []
    (Kalloc.mkKmem 0 0 ∅) ∅ (mkInput [] 0 0 0) [] (mkProc 1 0 [] 0 [] 0) 0.

Lemma w_bitmap_ok : bitmap_ok w_core 1.
Proof.
  split; [done|]. intros b Hb.
  replace (BBLOCK b (c_sb w_core)) with 58; [by split; [vm_compute|split; [cbn; lia|vm_compute]]|].
  unfold BBLOCK, BPB, BSIZE. cbn in Hb |- *. rewrite Z.div_small by lia. lia.
Qed.

Lemma balloc_correct_witness :
  match balloc 1 w_core with
  | Ok x c' =>
      0 <= x < 100 /\ used w_core 1 x = false /\ used c' 1 x = true /\
      at_ c' 1 x = zero_block /\
      (forall y, 0 <= y < 100 -> y <> x -> used c' 1 y = used w_core 1 y) /\
      (forall d b, (d, b) <> (1, x) -> (d, b) <> (1, BBLOCK x (c_sb w_core)) -> at_ c' d b = at_ w_core d b) /\
      c' = set_blk (c_blk c') w_core
  | Panic _ => forall y, 0 <= y < 100 -> used w_core 1 y = true
  | _ => False
  end.
Proof. exact (balloc_correct 1 w_core w_bitmap_ok). Defined.

Lemma bfree_correct_witness :
  if used w_core 1 20 then
    exists c', bfree 1 20 w_core = Ok tt c' /\ used c' 1 20 = false /\
      (forall y, 0 <= y -> y <> 20 -> used c' 1 y = used w_core 1 y) /\
      (forall d k, (d, k) <> (1, BBLOCK 20 (c_sb w_core)) -> at_ c' d k = at_ w_core d k) /\
      c' = set_blk (c_blk c') w_core
  else bfree 1 20 w_core = Panic "freeing free block".
Proof. apply (bfree_correct 1 20 w_core); [exact w_bitmap_ok|cbn; lia]. Defined.

End FsAlloc.
