(* ===== verification/FsInode.v ===== *)
(** * Inodes: the cache of active inodes and their on-disk form

    iget keeps at most one cache entry per inode; iupdate writes an inode where
    ilock will read it back. *)
From S2P Require Import Prelude Words Params CString Kalloc Core Fs MemBlk FsAlloc.

Module FsInode.
Import Fs.

(** ** The inode cache *)

Section icache.
Context {B : Type} {BL : BlockLayer B}.

Definition is_entry (dev inum : Z) (i : inode) : Prop :=
  0 < i_ref i /\ i_dev i = dev /\ i_inum i = inum.

#[local] Instance is_entry_dec dev inum i : Decision (is_entry dev inum i).
Proof. unfold is_entry. apply _. Defined.

(** Reference counts are not negative, and an inode in use has one entry. *)
Definition icache_ok (l : list inode) : Prop :=
  Forall (fun i => 0 <= i_ref i) l /\
  forall j k a b dev inum, l !! j = Some a -> l !! k = Some b ->
    is_entry dev inum a -> is_entry dev inum b -> j = k.

Definition scan_ok (l : list inode) (dev inum : Z) (r : nat + option nat) : Prop :=
  match r with
  | inl k => exists i, l !! k = Some i /\ is_entry dev inum i
  | inr (Some k) => Forall (fun i => ~ is_entry dev inum i) l /\ exists i, l !! k = Some i /\ i_ref i = 0
  | inr None => Forall (fun i => ~ is_entry dev inum i) l /\ Forall (fun i => i_ref i <> 0) l
  end.

Lemma iget_scan_spec dev inum suf : forall pre e,
  Forall (fun i => ~ is_entry dev inum i) pre ->
  match e with
  | Some k => exists i, pre !! k = Some i /\ i_ref i = 0
  | None => Forall (fun i => i_ref i <> 0) pre
  end ->
  scan_ok (pre ++ suf) dev inum (iget_scan suf (length pre) dev inum e).
Proof.
  induction suf as [|i suf IH]; intros pre e Hpre He; cbn [iget_scan].
  - rewrite app_nil_r. destruct e; cbn; auto.
  - destruct ((i_ref i >? 0) && (i_dev i =? dev) && (i_inum i =? inum)) eqn:Eb.
    + apply andb_true_iff in Eb as [[H1 H2]%andb_true_iff H3].
      exists i. split; [by rewrite lookup_app_r, Nat.sub_diag by lia|].
      unfold is_entry. apply Z.gtb_lt in H1. apply Z.eqb_eq in H2, H3. auto.
    + assert (Hn : ~ is_entry dev inum i).
      { intros (H1 & H2 & H3). apply Z.gtb_lt in H1. apply Z.eqb_eq in H2, H3.
        by rewrite H1, H2, H3 in Eb. }
      specialize (IH (pre ++ [i])). rewrite <- app_assoc, length_app, Nat.add_1_r in IH. cbn [app] in IH.
      apply IH; [by apply Forall_app_2; [|apply Forall_singleton]|].
      destruct e as [k|].
      * destruct He as (x & Hx & Hr). exists x. split; [by apply lookup_app_l_Some|done].
      * destruct (Z.eqb_spec (i_ref i) 0) as [E|E].
        -- exists i. split; [by rewrite lookup_app_r, Nat.sub_diag by lia|done].
        -- by apply Forall_app_2; [|apply Forall_singleton].
Qed.

Lemma icache_ok_insert l k a b dev inum :
  icache_ok l -> l !! k = Some a -> is_entry dev inum b ->
  (forall j i, l !! j = Some i -> is_entry dev inum i -> j = k) ->
  icache_ok (<[k := b]> l).
Proof.
  intros [Hr Hu] Hk Hb Hone. split.
  - apply Forall_insert; [done|]. destruct Hb. lia.
  - intros j1 j2 a1 a2 dev' inum' H1 H2 E1 E2.
    assert (Hcase : forall j i, <[k:=b]> l !! j = Some i -> is_entry dev' inum' i ->
      (j = k /\ dev' = dev /\ inum' = inum) \/ (j <> k /\ l !! j = Some i)).
    { intros j i Hj Hi. apply list_lookup_insert_Some in Hj as [(-> & <- & _)|[Hne Hj]]; [left|right; eauto].
      unfold is_entry in *. naive_solver. }
    destruct (Hcase _ _ H1 E1) as [(-> & Hd1 & Hi1)|[Hn1 L1]],
             (Hcase _ _ H2 E2) as [(-> & Hd2 & Hi2)|[Hn2 L2]]; subst; eauto.
    + symmetry. eauto.
Qed.

Lemma inode_at_run ip (c : core B) i : c_icache c !! ip = Some i -> inode_at ip c = Ok i c.
Proof. intros H. unfold inode_at. by rewrite gets_bind, H. Qed.

Lemma upd_inode_run ip f (c : core B) i : c_icache c !! ip = Some i ->
  upd_inode ip f c = Ok tt (set_icache (<[ip := f i]> (c_icache c)) c).
Proof. intros H. unfold upd_inode. by rewrite (bind_run _ _ _ _ _ (inode_at_run _ _ _ H)). Qed.

(** Iget keeps one cache entry per inode.  It returns the entry of the inode,
    with one more reference and its contents kept when it was cached, and
    otherwise a free entry, reset, with one reference and not yet valid; no
    other entry changes.  It panics only when the inode is not cached and
    every entry is in use. *)
Theorem iget_correct dev inum (c : core B) :
  icache_ok (c_icache c) ->
  match iget dev inum c with
  | Ok ip c' => exists i i', c_icache c !! ip = Some i /\
      c' = set_icache (<[ip := i']> (c_icache c)) c /\
      is_entry dev inum i' /\ icache_ok (c_icache c') /\
      (is_entry dev inum i /\ i' = set_i_ref (i_ref i + 1) i \/
       i_ref i = 0 /\ i_ref i' = 1 /\ i_valid i' = 0 /\
       Forall (fun i => ~ is_entry dev inum i) (c_icache c))
  | Panic _ => Forall (fun i => i_ref i <> 0 /\ ~ is_entry dev inum i) (c_icache c)
  | _ => False
  end.
Proof.
  intros Hok. unfold iget. rewrite gets_bind.
  pose proof (iget_scan_spec dev inum (c_icache c) [] None) as Hs. cbn [app length] in Hs.
  destruct (iget_scan (c_icache c) 0 dev inum None) as [k|[k|]]; cbn [scan_ok] in Hs.
  - destruct Hs as (i & Hk & Hi); [done|done|].
    rewrite (bind_run _ _ _ _ _ (upd_inode_run k _ c i Hk)). cbn.
    exists i, (set_i_ref (i_ref i + 1) i).
    assert (Hi' : is_entry dev inum (set_i_ref (i_ref i + 1) i))
      by (unfold is_entry in *; cbn; naive_solver lia).
    split_and!; try done; [|by left].
    eapply icache_ok_insert; [done|done|exact Hi'|].
    intros j i0 Hj Hi0. by eapply (proj2 Hok).
  - destruct Hs as (Hnone & i & Hk & Hi); [done|done|].
    rewrite (bind_run _ _ _ _ _ (upd_inode_run k _ c i Hk)). cbn.
    eexists i, _. split; [done|]. split; [done|]. split; [done|].
    split; [|by right]. eapply icache_ok_insert; [done|done|done|].
    intros j i0 Hj Hi0. exfalso. by apply (Forall_lookup_1 _ _ _ _ Hnone Hj).
  - destruct Hs as (H1 & H2); [done|done|]. cbn. apply Forall_and. done.
Qed.

End icache.
(** ** On-disk inodes *)

Definition dinode_ok (di : dinode) : Prop :=
  Forall (fun v => - 2 ^ 15 <= v < 2 ^ 15) [d_type di; d_major di; d_minor di; d_nlink di] /\
  0 <= d_size di < 2 ^ 32 /\ length (d_addrs di) = 13%nat /\
  Forall (fun a => 0 <= a < 2 ^ 32) (d_addrs di).

Lemma length_dinode_bytes di : length (d_addrs di) = 13%nat ->
  length (dinode_bytes di) = Z.to_nat sizeof_dinode.
Proof.
  intros H. unfold dinode_bytes.
  by rewrite !length_app, !length_le_bytes, length_concat_words, H.
Qed.

Lemma uint_at_slice off k d m : (k + 4 <= m)%nat -> uint_at (off + k) d = uint_at k (slice off m d).
Proof. intros H. unfold uint_at. by rewrite slice_slice. Qed.

Lemma short_at_slice off k d m : (k + 2 <= m)%nat -> short_at (off + k) d = short_at k (slice off m d).
Proof. intros H. unfold short_at. by rewrite slice_slice. Qed.

(** Reading an inode looks only at its 64 bytes. *)
Lemma dinode_read_slice off d : dinode_read off d = dinode_read 0 (slice off 64 d).
Proof.
  unfold dinode_read. cbn [Nat.add]. f_equal.
  1-4: rewrite <- (short_at_slice off _ d) by lia; f_equal; lia.
  - by apply uint_at_slice; lia.
  - apply list_fmap_ext. intros j k Hk. apply lookup_seq in Hk as [-> Hk].
    rewrite <- Nat.add_assoc. apply uint_at_slice. lia.
Qed.

Lemma slice_head {A} (l1 l2 : list A) n : length l1 = n -> slice 0 n (l1 ++ l2) = l1.
Proof. intros <-. rewrite slice_app_l by lia. by apply slice_all. Qed.

(** Drop the fields before the one that is read. *)
Ltac skip_fields :=
  repeat (rewrite slice_app_r by (rewrite length_le_bytes; lia); rewrite length_le_bytes; cbn [Nat.sub]).

Lemma dinode_read_bytes di : dinode_ok di -> dinode_read 0 (dinode_bytes di) = di.
Proof.
  intros (Hs & Hsz & Hl & Ha). unfold dinode_bytes.
  repeat (apply Forall_cons in Hs as [? Hs]).
  destruct di as [ty mj mn nl sz ad]. cbn [d_type d_major d_minor d_nlink d_size d_addrs] in *.
  unfold dinode_read, short_at, uint_at. cbn [Nat.add]. f_equal.
  1-4: skip_fields; rewrite slice_head by apply length_le_bytes; by apply s16_le_val.
  - skip_fields. rewrite slice_head by apply length_le_bytes. by apply u32_le_val.
  - apply list_eq. intros j. rewrite list_lookup_fmap.
    destruct (decide (j < 13)%nat) as [Hj|Hj].
    + rewrite lookup_seq_lt by done. cbn [fmap option_fmap option_map Nat.add].
      destruct (lookup_lt_is_Some_2 ad j) as [a Hj']; [lia|]. rewrite Hj'. f_equal.
      do 5 (rewrite slice_app_r by (rewrite length_le_bytes; lia); rewrite length_le_bytes).
      replace (slice _ 4 _) with (slice (4 * j) 4 (concat (le_bytes 4 <$> ad))) by (f_equal; lia).
      rewrite (slice_concat_words _ _ a) by done. apply u32_le_val.
      exact (Forall_lookup_1 _ _ _ _ Ha Hj').
    + rewrite lookup_seq_ge by lia. symmetry. apply lookup_ge_None. lia.
Qed.

(** The on-disk copy of inode [inum] *)
Definition dinode_at (c : core store) (dev inum : Z) : dinode :=
  dinode_read (Z.to_nat (inum mod IPB * sizeof_dinode)) (FsAlloc.at_ c dev (IBLOCK inum (c_sb c))).

Lemma mod_IPB x : 0 <= x mod IPB < 8.
Proof. change IPB with 8. by apply Z.mod_pos_bound. Qed.

Lemma dinode_splice d bs k j : length d = Z.to_nat BSIZE -> length bs = 64%nat ->
  0 <= k < 8 -> 0 <= j < 8 ->
  dinode_read (Z.to_nat (j * sizeof_dinode)) (splice (Z.to_nat (k * sizeof_dinode)) bs d) =
  if j =? k then dinode_read 0 bs else dinode_read (Z.to_nat (j * sizeof_dinode)) d.
Proof.
  intros Hd Hb Hk Hj. change (Z.to_nat BSIZE) with 512%nat in Hd.
  rewrite dinode_read_slice. unfold sizeof_dinode. destruct (Z.eqb_spec j k) as [->|Hne].
  - by rewrite slice_splice by lia.
  - rewrite (dinode_read_slice (Z.to_nat (j * 64)) d). f_equal.
    destruct (decide (j < k)).
    + apply slice_splice_before; lia.
    + apply slice_splice_after; lia.
Qed.

(** An inode written by iupdate is read back unchanged.  iupdate stores the
    in-memory inode where ilock looks for it, so that reading it gives the
    same type, numbers, link count, size and addresses, and the on-disk copy
    of every other inode is untouched. *)
Theorem iupdate_correct ip (c : core store) i :
  c_icache c !! ip = Some i -> dinode_ok (dinode_of i) -> 0 <= i_inum i ->
  length (FsAlloc.at_ c (i_dev i) (IBLOCK (i_inum i) (c_sb c))) = Z.to_nat BSIZE ->
  exists c', iupdate ip c = Ok tt c' /\
    load_dinode (dinode_at c' (i_dev i) (i_inum i)) i = i /\
    (forall dev inum, 0 <= inum -> (dev, inum) <> (i_dev i, i_inum i) ->
       dinode_at c' dev inum = dinode_at c dev inum) /\
    c' = set_blk (c_blk c') c.
Proof.
  intros Hip Hok Hin Hlen. unfold iupdate.
  rewrite (bind_run _ _ _ _ _ (FsAlloc.sb_get_run c)), (bind_run _ _ _ _ _ (inode_at_run ip c i Hip)).
  rewrite (bind_run _ _ _ _ _ (FsAlloc.blk_bread_run _ _ c)).
  rewrite (bind_run _ _ _ _ _ (FsAlloc.blk_log_write_run _ _ _ c)), FsAlloc.blk_brelse_run.
  set (off := Z.to_nat _). set (d := FsAlloc.at_ c _ _) in *.
  assert (Hb : length (dinode_bytes (dinode_of i)) = 64%nat)
    by (apply length_dinode_bytes, Hok).
  pose proof (mod_IPB (i_inum i)) as Hm.
  eexists. split; [done|]. split; [|split; [|by destruct c]].
  - unfold dinode_at. rewrite FsAlloc.at_put, FsAlloc.put_sb, decide_True by done.
    unfold off. rewrite dinode_splice, Z.eqb_refl, dinode_read_bytes by done. by destruct i.
  - intros dev inum Hi0 Hne. unfold dinode_at. rewrite FsAlloc.at_put, FsAlloc.put_sb.
    case_decide as E; [|done]. injection E as -> E. unfold off.
    pose proof (mod_IPB inum) as Hm'. rewrite dinode_splice by done.
    destruct (Z.eqb_spec (inum mod IPB) (i_inum i mod IPB)) as [Em|Em]; [|by rewrite E].
    exfalso. apply Hne. f_equal. unfold IBLOCK in E. change IPB with 8 in *.
    rewrite (Z.div_mod inum 8), (Z.div_mod (i_inum i) 8) by done. lia.
Qed.

(** ** Witnesses *)
Definition w_inode : inode := mkInode 1 9 1 false 0 1 2 0 0 1 700 (100 :: 101 :: replicate 11 0).
Definition w_core : core store :=
  mkCore (∅ : store) (mkSuperblock 1000 900 200 30 2 32 58)
    [mkInode 1 1 1 false 0 1 1 0 0 1 512 (replicate 13 0); w_inode] []
    (Kalloc.mkKmem 0 0 ∅) ∅ (mkInput [] 0 0 0) [] (mkProc 1 0 [] 0 [] 0) 0.

Lemma iget_correct_witness :
  match iget 1 9 w_core with
  | Ok ip c' => exists i i', c_icache w_core !! ip = Some i /\
      c' = set_icache (<[ip := i']> (c_icache w_core)) w_core /\
      is_entry 1 9 i' /\ icache_ok (c_icache c') /\
      (is_entry 1 9 i /\ i' = set_i_ref (i_ref i + 1) i \/
       i_ref i = 0 /\ i_ref i' = 1 /\ i_valid i' = 0 /\
       Forall (fun i => ~ is_entry 1 9 i) (c_icache w_core))
  | Panic _ => Forall (fun i => i_ref i <> 0 /\ ~ is_entry 1 9 i) (c_icache w_core)
  | _ => False
  end.
Proof.
  apply (iget_correct 1 9 w_core). split.
  - repeat (apply Forall_cons; split; [cbn; lia|]). constructor.
  - intros j k a b dev inum Hj Hk (_ & Ha1 & Ha2) (_ & Hb1 & Hb2).
    destruct j as [|[|[]]], k as [|[|[]]]; try discriminate; try reflexivity;
      injection Hj as <-; injection Hk as <-; cbn in *; congruence.
Defined.

Lemma iupdate_correct_witness : exists c', iupdate 1 w_core = Ok tt c' /\
  load_dinode (dinode_at c' 1 9) w_inode = w_inode /\
  (forall dev inum, 0 <= inum -> (dev, inum) <> (1, 9) -> dinode_at c' dev inum = dinode_at w_core dev inum) /\
  c' = set_blk (c_blk c') w_core.
Proof.
  apply (iupdate_correct 1 w_core w_inode); [reflexivity| |cbn; lia|reflexivity].
  split; [|split; [cbn; lia|split; [reflexivity|]]];
    repeat (apply Forall_cons; split; [cbn; lia|]); constructor.
Defined.

End FsInode.
