(* ===== verification/FsData.v ===== *)
(** * File content: bmap, readi and writei

    A file's blocks are found through the inode's addresses and its indirect
    block.  The invariant [imap_ok] says that these addresses are distinct
    blocks in use, apart from the blocks that hold metadata; bmap extends the
    map and keeps the content, writei changes exactly the bytes it is asked to,
    readi returns them.  Proved on the block store of [MemBlk]. *)
From S2P Require Import Prelude Words Params CString Kalloc Core Fs MemBlk FsAlloc FsInode.

Module FsData.
Import Fs FsAlloc FsInode.

#[local] Abbreviation C := (core store).

(** ** The map of a file's blocks *)

Definition ind (i : inode) : Z := default 0 (zget (i_addrs i) NDIRECT).

(** Slot [k < MAXFILE] is the address of block [k] of the file, 0 when there is
    none; slot [MAXFILE] is the address of the indirect block. *)
Definition slot (c : C) (i : inode) (k : Z) : Z :=
  if k <? NDIRECT then default 0 (zget (i_addrs i) k)
  else if k =? MAXFILE then ind i
  else if ind i =? 0 then 0
  else uint_at (Z.to_nat (4 * (k - NDIRECT))) (at_ c (i_dev i) (ind i)).

(** Block [k] of the file; a block without an address reads as zeroes. *)
Definition fblock (c : C) (i : inode) (k : Z) : list Z :=
  if slot c i k =? 0 then zero_block else at_ c (i_dev i) (slot c i k).

Definition fbyte (c : C) (i : inode) (o : Z) : option Z :=
  fblock c i (o / BSIZE) !! Z.to_nat (o mod BSIZE).

(** Blocks a file must not use: block 0, the block of its inode, the bitmap *)
Definition reserved (c : C) (i : inode) (x : Z) : Prop :=
  x = 0 \/ x = IBLOCK (i_inum i) (c_sb c) \/
  exists y, 0 <= y < sb_size (c_sb c) /\ x = BBLOCK y (c_sb c).

Definition in_use (c : C) (dev x : Z) : Prop :=
  0 <= x < sb_size (c_sb c) /\ used c dev x = true.

Record imap_ok (c : C) (i : inode) : Prop := {
  im_len : length (i_addrs i) = 13%nat;
  im_bitmap : bitmap_ok c (i_dev i);
  im_size : sb_size (c_sb c) <= 2 ^ 32;
  im_res x : reserved c i x -> in_use c (i_dev i) x;
  im_iblk : length (at_ c (i_dev i) (IBLOCK (i_inum i) (c_sb c))) = Z.to_nat BSIZE;
  im_idist y : 0 <= y < sb_size (c_sb c) -> IBLOCK (i_inum i) (c_sb c) <> BBLOCK y (c_sb c);
  im_slot k : 0 <= k <= MAXFILE -> slot c i k <> 0 ->
    in_use c (i_dev i) (slot c i k) /\ ~ reserved c i (slot c i k) /\
    length (at_ c (i_dev i) (slot c i k)) = Z.to_nat BSIZE;
  im_inj j k : 0 <= j <= MAXFILE -> 0 <= k <= MAXFILE ->
    slot c i j <> 0 -> slot c i j = slot c i k -> j = k
}.

(** The state may only differ in blocks and in the addresses of inode [ip]. *)
Definition frame (ip : nat) (c : C) (c' : C) (i' : inode) : Prop :=
  c' = set_icache (<[ip := i']> (c_icache c)) (set_blk (c_blk c') c).

Definition same_meta (i i' : inode) : Prop :=
  i' = mkInode (i_dev i) (i_inum i) (i_ref i) (i_locked i) (i_lkpid i) (i_valid i)
         (i_type i) (i_major i) (i_minor i) (i_nlink i) (i_size i) (i_addrs i').

(** [c', i'] has the blocks of [c, i], and possibly more. *)
Record extends (ip : nat) (c : C) (i : inode) (c' : C) (i' : inode) : Prop := {
  ex_ok : imap_ok c' i';
  ex_frame : frame ip c c' i';
  ex_meta : same_meta i i';
  ex_slot k : 0 <= k <= MAXFILE -> slot c i k <> 0 -> slot c' i' k = slot c i k
}.

(** ... with the same content. *)
Definition grows (ip : nat) (c : C) (i : inode) (c' : C) (i' : inode) : Prop :=
  extends ip c i c' i' /\ forall k, 0 <= k < MAXFILE -> fblock c' i' k = fblock c i k.

(** The routine returns with [Q], or panics because the disk is full. *)
Definition ran {A} (r : result C A) (Q : A -> C -> Prop) : Prop :=
  match r with
  | Ok a c' => Q a c'
  | Panic m => m = "balloc: out of blocks"%string
  | _ => False
  end.

Lemma ran_bind {A A'} (m : M C A) (k : A -> M C A') c (Q : A' -> C -> Prop) :
  ran (m c) (fun a c' => ran (k a c') Q) -> ran (bind m k c) Q.
Proof. unfold bind. by destruct (m c). Qed.

Lemma ran_mono {A} (r : result C A) (P Q : A -> C -> Prop) :
  ran r P -> (forall a c', P a c' -> Q a c') -> ran r Q.
Proof. destruct r; cbn; auto. Qed.

(** ** Frames *)

Lemma frame_refl ip (c : C) i : c_icache c !! ip = Some i -> frame ip c c i.
Proof. intros H. unfold frame. rewrite list_insert_id by done. by destruct c. Qed.

Lemma frame_trans ip (c1 c2 c3 : C) i2 i3 : frame ip c1 c2 i2 -> frame ip c2 c3 i3 -> frame ip c1 c3 i3.
Proof.
  unfold frame. intros -> ->. cbn. by rewrite list_insert_insert_eq.
Qed.

Lemma frame_inode ip (c c' : C) i i' : frame ip c c' i' -> c_icache c !! ip = Some i ->
  c_icache c' !! ip = Some i'.
Proof.
  intros -> H. cbn. apply list_lookup_insert_eq. by eapply lookup_lt_Some.
Qed.

Lemma same_meta_refl i : same_meta i i.
Proof. by destruct i. Qed.

Lemma same_meta_trans i1 i2 i3 : same_meta i1 i2 -> same_meta i2 i3 -> same_meta i1 i3.
Proof. unfold same_meta. intros -> ->. done. Qed.

Lemma extends_refl ip (c : C) i : imap_ok c i -> c_icache c !! ip = Some i -> extends ip c i c i.
Proof. intros. split; auto using frame_refl, same_meta_refl. Qed.

Lemma extends_trans ip (c1 c2 c3 : C) i1 i2 i3 :
  extends ip c1 i1 c2 i2 -> extends ip c2 i2 c3 i3 -> extends ip c1 i1 c3 i3.
Proof.
  intros [H1 H2 H3 H4] [H5 H6 H7 H8]. split; eauto using frame_trans, same_meta_trans.
  intros k Hk Hne. rewrite H8, H4; auto. by rewrite H4.
Qed.

Lemma grows_refl ip (c : C) i : imap_ok c i -> c_icache c !! ip = Some i -> grows ip c i c i.
Proof. split; auto using extends_refl. Qed.

Lemma grows_trans ip (c1 c2 c3 : C) i1 i2 i3 :
  grows ip c1 i1 c2 i2 -> grows ip c2 i2 c3 i3 -> grows ip c1 i1 c3 i3.
Proof.
  intros [H1 H2] [H3 H4]. split; [eauto using extends_trans|]. intros k Hk. by rewrite H4, H2.
Qed.

(** ** Adding a block to the map *)

(** Facts about a block [x] that balloc has just returned *)
Record fresh (c : C) (dev x : Z) (c' : C) : Prop := {
  fr_range : 0 <= x < sb_size (c_sb c);
  fr_free : used c dev x = false;
  fr_used : used c' dev x = true;
  fr_zero : at_ c' dev x = zero_block;
  fr_others y : 0 <= y < sb_size (c_sb c) -> y <> x -> used c' dev y = used c dev y;
  fr_at b : b <> x -> b <> BBLOCK x (c_sb c) -> at_ c' dev b = at_ c dev b;
  fr_frame : c' = set_blk (c_blk c') c;
  fr_bitmap : bitmap_ok c' dev
}.

Lemma balloc_fresh dev (c : C) : bitmap_ok c dev -> ran (balloc dev c) (fun x c' => fresh c dev x c').
Proof.
  intros Hok. pose proof (balloc_spec dev c Hok) as H. pose proof (balloc_run dev c Hok) as Hr.
  destruct (balloc dev c) as [x c'|m| |]; cbn; try done.
  - destruct H as (? & ? & ? & ? & ? & Hat & ? & ?). split; auto.
    intros b Hx Hb. apply Hat; congruence.
  - by destruct Hr as [(x & _ & _ & _ & [=])|[_ [= ->]]].
Qed.

(** A block in use keeps its content, unless it is a bitmap block. *)
Lemma fresh_at c dev x c' b : fresh c dev x c' -> in_use c dev b ->
  (forall y, 0 <= y < sb_size (c_sb c) -> b <> BBLOCK y (c_sb c)) -> at_ c' dev b = at_ c dev b.
Proof.
  intros Hf [Hb Hu] Hn. apply (fr_at _ _ _ _ Hf); [|apply Hn, Hf].
  intros ->. rewrite (fr_free _ _ _ _ Hf) in Hu. done.
Qed.

Lemma imap_ok_add (c c' : C) i i' k x :
  imap_ok c i -> fresh c (i_dev i) x c' \/
    (exists c0, fresh c (i_dev i) x c0 /\ c_sb c' = c_sb c0 /\ bitmap_ok c' (i_dev i) /\
       forall y, 0 <= y < sb_size (c_sb c) -> used c' (i_dev i) y = used c0 (i_dev i) y) ->
  0 <= k <= MAXFILE -> slot c i k = 0 ->
  i_dev i' = i_dev i -> i_inum i' = i_inum i -> length (i_addrs i') = 13%nat ->
  slot c' i' k = x -> length (at_ c' (i_dev i) x) = Z.to_nat BSIZE ->
  (forall j, 0 <= j <= MAXFILE -> j <> k -> slot c' i' j = slot c i j) ->
  (forall j, 0 <= j <= MAXFILE -> j <> k -> slot c i j <> 0 ->
     length (at_ c' (i_dev i) (slot c i j)) = Z.to_nat BSIZE) ->
  length (at_ c' (i_dev i) (IBLOCK (i_inum i) (c_sb c))) = Z.to_nat BSIZE ->
  imap_ok c' i'.
Proof.
  intros Hok Hc' Hk Hk0 Hd Hn Hlen Hsk Hlx Hsj Hlj Hib.
  assert (exists c0, fresh c (i_dev i) x c0 /\ c_sb c' = c_sb c /\ bitmap_ok c' (i_dev i) /\
    forall y, 0 <= y < sb_size (c_sb c) -> used c' (i_dev i) y = used c0 (i_dev i) y)
    as (c0 & Hf & Hsb & Hbm & Hu).
  { destruct Hc' as [Hf|(c0 & Hf & E & Hbm & Hu)].
    - exists c'. split_and!; auto; [by rewrite (fr_frame _ _ _ _ Hf)|apply Hf].
    - exists c0. split_and!; auto. rewrite E. by rewrite (fr_frame _ _ _ _ Hf). }
  pose proof (fr_range _ _ _ _ Hf) as Hxr.
  assert (Huse : forall b, in_use c (i_dev i) b -> in_use c' (i_dev i) b /\ b <> x).
  { intros b [Hb Hub]. assert (b <> x) by (intros ->; rewrite (fr_free _ _ _ _ Hf) in Hub; done).
    split; [|done]. split; [by rewrite Hsb|]. rewrite Hu by done. by rewrite (fr_others _ _ _ _ Hf). }
  assert (Hres : forall b, reserved c' i' b <-> reserved c i b)
    by (intros b; unfold reserved; by rewrite Hsb, Hn).
  assert (Hx : in_use c' (i_dev i) x /\ ~ reserved c' i' x).
  { split; [split; [by rewrite Hsb|rewrite Hu by done; apply Hf]|].
    rewrite Hres. intros Hr. by destruct (Huse x (im_res _ _ Hok x Hr)). }
  split; rewrite ?Hd, ?Hn, ?Hsb; auto.
  - apply Hok.
  - intros b Hb. apply Huse, (im_res _ _ Hok). by apply Hres.
  - apply Hok.
  - intros j Hj Hne. destruct (decide (j = k)) as [->|Hjk].
    + rewrite Hsk in *. tauto.
    + rewrite Hsj in * by done. destruct (im_slot _ _ Hok j Hj Hne) as (H1 & H2 & H3).
      rewrite Hres. split_and!; [by apply Huse|done|auto].
  - assert (Hfx : forall j, 0 <= j <= MAXFILE -> j <> k -> slot c i j <> 0 -> slot c i j <> x).
    { intros j Hj _ Hne. apply Huse. by apply (im_slot _ _ Hok). }
    assert (Hx0 : x <> 0) by (intros ->; apply Hx; by left).
    intros j1 j2 H1 H2 Hne E. destruct (decide (j1 = k)) as [->|N1], (decide (j2 = k)) as [->|N2]; auto;
      rewrite ?Hsk, ?Hsj in * by done.
    + exfalso. apply (Hfx j2); auto; congruence.
    + exfalso. by apply (Hfx j1).
    + by apply (im_inj _ _ Hok).
Qed.

(** The slot whose address is entry [pos] of [i_addrs] *)
Definition key_of (pos : Z) : Z := if pos =? NDIRECT then MAXFILE else pos.

Lemma slot_key (c : C) i pos : 0 <= pos <= NDIRECT ->
  slot c i (key_of pos) = default 0 (zget (i_addrs i) pos).
Proof.
  intros Hp. unfold slot, key_of, ind. change NDIRECT with 12 in *. change MAXFILE with 140.
  destruct (Z.eqb_spec pos 12) as [->|Hne]; [done|]. by rewrite (proj2 (Z.ltb_lt pos 12)) by lia.
Qed.

Lemma uint_at_zero off : uint_at off zero_block = 0.
Proof.
  unfold uint_at, zero_block, slice. rewrite drop_replicate, take_replicate.
  generalize (Nat.min 4 (Z.to_nat BSIZE - off)). intros n. induction n as [|n IH]; [done|].
  change (le_val (replicate (S n) 0)) with (0 + 256 * le_val (replicate n 0)). lia.
Qed.

Lemma set_i_addr_slot (c c' : C) i pos x j :
  length (i_addrs i) = 13%nat -> 0 <= pos <= NDIRECT -> slot c i (key_of pos) = 0 ->
  (ind i <> 0 -> at_ c' (i_dev i) (ind i) = at_ c (i_dev i) (ind i)) ->
  at_ c' (i_dev i) x = zero_block -> 0 <= j <= MAXFILE -> j <> key_of pos ->
  slot c' (set_i_addr pos x i) j = slot c i j.
Proof.
  intros Hl Hp H0 Hat Hx Hj Hne. rewrite slot_key in H0 by done. unfold slot, key_of, ind in *.
  cbn [set_i_addr i_addrs i_dev] in *. change NDIRECT with 12 in *. change MAXFILE with 140 in *.
  assert (Hlen : zlen (i_addrs i) = 13) by (unfold zlen; lia).
  destruct (Z.ltb_spec j 12) as [Hj12|Hj12].
  - rewrite zget_zset_ne; [done|lia|]. destruct (Z.eqb_spec pos 12) in Hne; lia.
  - destruct (Z.eqb_spec pos 12) as [->|Hp12].
    + cbn [Z.eqb Pos.eqb] in Hne. rewrite (proj2 (Z.eqb_neq j 140)) by done. rewrite zget_zset_eq by lia.
      change (default 0 (Some x)) with x.
      rewrite H0. cbn [Z.eqb]. destruct (x =? 0); [done|]. by rewrite Hx, uint_at_zero.
    + rewrite zget_zset_ne by lia. destruct (j =? 140); [done|].
      destruct (Z.eqb_spec (default 0 (zget (i_addrs i) 12)) 0) as [|Hi]; [done|]. by rewrite Hat.
Qed.

Lemma ind_slot (c : C) i : slot c i MAXFILE = ind i.
Proof. done. Qed.

(** Blocks of the map are not touched by balloc. *)
Lemma fresh_slot (c c' : C) i x k : imap_ok c i -> fresh c (i_dev i) x c' -> 0 <= k <= MAXFILE ->
  slot c i k <> 0 -> at_ c' (i_dev i) (slot c i k) = at_ c (i_dev i) (slot c i k).
Proof.
  intros Hok Hf Hk Hne. destruct (im_slot _ _ Hok k Hk Hne) as (Hu & Hr & _).
  eapply fresh_at; [done|done|]. intros y Hy E. apply Hr. unfold reserved. eauto.
Qed.

Lemma fresh_iblk (c c' : C) i x : imap_ok c i -> fresh c (i_dev i) x c' ->
  length (at_ c' (i_dev i) (IBLOCK (i_inum i) (c_sb c))) = Z.to_nat BSIZE.
Proof.
  intros Hok Hf. rewrite (fresh_at c _ x c'); [apply Hok|done| |apply Hok].
  apply (im_res _ _ Hok). right. by left.
Qed.

(** ** bmap *)

Lemma key_of_range pos : 0 <= pos <= NDIRECT -> 0 <= key_of pos <= MAXFILE.
Proof.
  unfold key_of. change NDIRECT with 12. change MAXFILE with 140. destruct (pos =? 12); lia.
Qed.

(** The fresh block becomes entry [pos] of the inode. *)
Lemma grow_direct ip (c : C) i pos :
  imap_ok c i -> c_icache c !! ip = Some i -> 0 <= pos <= NDIRECT -> slot c i (key_of pos) = 0 ->
  ran ((x <- balloc (i_dev i) ;; upd_inode ip (set_i_addr pos x) ;; ret x) c)
    (fun x c' => exists i', grows ip c i c' i' /\ slot c' i' (key_of pos) = x /\ x <> 0).
Proof.
  intros Hok Hip Hp H0. apply ran_bind.
  eapply ran_mono; [apply balloc_fresh, Hok|]. intros x c1 Hf. cbn beta.
  assert (Hic : c_icache c1 !! ip = Some i) by (by rewrite (fr_frame _ _ _ _ Hf)).
  rewrite (bind_run _ _ _ _ _ (upd_inode_run ip _ c1 i Hic)). cbn [ran ret].
  set (i' := set_i_addr pos x i). set (c' := set_icache _ c1).
  pose proof (key_of_range pos Hp) as Hk.
  assert (Hslot : forall j, 0 <= j <= MAXFILE -> j <> key_of pos -> slot c' i' j = slot c i j).
  { intros j Hj Hne. apply (set_i_addr_slot c c1); auto; [apply Hok| |apply Hf].
    intros Hi. rewrite <- (ind_slot c i) in *. apply (fresh_slot c c1 i x); done. }
  assert (Hx : slot c' i' (key_of pos) = x).
  { rewrite slot_key by done. cbn [i' set_i_addr i_addrs]. rewrite zget_zset_eq; [done|].
    unfold zlen. rewrite (im_len _ _ Hok). change NDIRECT with 12 in Hp. lia. }
  assert (Hok' : imap_ok c' i').
  { apply (imap_ok_add c c' i i' (key_of pos) x); auto.
    - right. exists c1. split_and!; [done|done|apply Hf|done].
    - cbn [i' set_i_addr i_addrs]. rewrite length_zset. apply Hok.
    - change (at_ c' (i_dev i) x) with (at_ c1 (i_dev i) x). by rewrite (fr_zero _ _ _ _ Hf).
    - intros j Hj _ Hne. change (at_ c' (i_dev i)) with (at_ c1 (i_dev i)).
      rewrite (fresh_slot c c1 i x) by done. by apply (im_slot _ _ Hok).
    - apply (fresh_iblk c c1 i x Hok Hf). }
  assert (Hx0 : x <> 0).
  { intros ->. destruct (im_res _ _ Hok 0) as [_ Hu]; [by left|].
    rewrite (fr_free _ _ _ _ Hf) in Hu. done. }
  exists i'. split; [|done]. split; [split|].
  - done.
  - unfold frame, c'. rewrite (fr_frame _ _ _ _ Hf) at 1. by rewrite (fr_frame _ _ _ _ Hf).
  - by destruct i.
  - intros k Hk' Hne. apply Hslot; [done|]. intros ->. done.
  - intros k Hk'. unfold fblock. change (i_dev i') with (i_dev i).
    change (at_ c' (i_dev i)) with (at_ c1 (i_dev i)).
    destruct (decide (k = key_of pos)) as [->|Hne].
    + rewrite Hx, H0, (proj2 (Z.eqb_neq x 0)) by done. cbn [Z.eqb]. apply Hf.
    + rewrite Hslot by (done || lia). destruct (Z.eqb_spec (slot c i k) 0); [done|].
      apply (fresh_slot c c1 i x); [done|done|lia|done].
Qed.

(** Writing a block that is no bitmap block leaves the bitmap as it is. *)
Lemma put_bitmap (c : C) dev b d :
  (forall y, 0 <= y < sb_size (c_sb c) -> b <> BBLOCK y (c_sb c)) ->
  (forall y, 0 <= y < sb_size (c_sb c) -> used (put dev b d c) dev y = used c dev y) /\
  (bitmap_ok c dev -> bitmap_ok (put dev b d c) dev).
Proof.
  intros Hn.
  assert (Hat : forall y, 0 <= y < sb_size (c_sb c) ->
    at_ (put dev b d c) dev (BBLOCK y (c_sb c)) = at_ c dev (BBLOCK y (c_sb c))).
  { intros y Hy. rewrite at_put, decide_False; [done|]. intros [= E]. by apply (Hn y Hy). }
  assert (Hu : forall y, 0 <= y < sb_size (c_sb c) -> used (put dev b d c) dev y = used c dev y).
  { intros y Hy. unfold used. rewrite put_sb. by rewrite Hat. }
  split; [done|]. intros [Hs Hb]. split; [done|]. rewrite put_sb. intros y Hy.
  destruct (Hb y Hy) as (H1 & H2 & H3). rewrite Hat, Hu by done. done.
Qed.

Lemma entry_splice d k j x : length d = Z.to_nat BSIZE -> 0 <= k < NINDIRECT -> 0 <= j < NINDIRECT ->
  0 <= x < 2 ^ 32 ->
  uint_at (Z.to_nat (4 * j)) (splice (Z.to_nat (4 * k)) (le_bytes 4 x) d) =
  if j =? k then x else uint_at (Z.to_nat (4 * j)) d.
Proof.
  change NINDIRECT with 128. intros Hd Hk Hj Hx. change (Z.to_nat BSIZE) with 512%nat in Hd.
  unfold uint_at. destruct (Z.eqb_spec j k) as [->|Hne].
  - rewrite slice_splice by (rewrite ?length_le_bytes; lia). by apply u32_le_val.
  - f_equal. destruct (decide (j < k)).
    + apply slice_splice_before; lia.
    + apply slice_splice_after; rewrite length_le_bytes; lia.
Qed.

(** The fresh block becomes entry [k] of the indirect block. *)
Lemma grow_entry ip (c : C) i k :
  imap_ok c i -> c_icache c !! ip = Some i -> ind i <> 0 -> NDIRECT <= k < MAXFILE -> slot c i k = 0 ->
  ran ((x <- balloc (i_dev i) ;;
        blk (log_write (i_dev i) (ind i)
               (splice (Z.to_nat (4 * (k - NDIRECT))) (le_bytes 4 x) (at_ c (i_dev i) (ind i)))) ;;
        ret x) c)
    (fun x c' => grows ip c i c' i /\ slot c' i k = x /\ x <> 0).
Proof.
  intros Hok Hip Hi Hk H0. apply ran_bind.
  eapply ran_mono; [apply balloc_fresh, Hok|]. intros x c1 Hf. cbn beta.
  rewrite (bind_run _ _ _ _ _ (blk_log_write_run _ _ _ c1)). cbn [ran ret].
  set (d' := splice _ _ _). set (c' := put (i_dev i) (ind i) d' c1).
  change NDIRECT with 12 in *. change MAXFILE with 140 in *.
  destruct (im_slot _ _ Hok MAXFILE) as (Hiu & Hir & Hil); [change MAXFILE with 140; lia|done|].
  rewrite ind_slot in Hiu, Hir, Hil.
  assert (Hx0 : x <> 0).
  { intros ->. destruct (im_res _ _ Hok 0) as [_ Hu]; [by left|].
    rewrite (fr_free _ _ _ _ Hf) in Hu. done. }
  pose proof (fr_range _ _ _ _ Hf) as Hxr. pose proof (im_size _ _ Hok) as Hsz.
  assert (Hsb : c_sb c1 = c_sb c) by (by rewrite (fr_frame _ _ _ _ Hf)).
  assert (Hnb : forall y, 0 <= y < sb_size (c_sb c) -> ind i <> BBLOCK y (c_sb c))
    by (intros y Hy E; apply Hir; unfold reserved; eauto).
  assert (Hix : ind i <> x) by (intros E; destruct Hiu as [_ Hu]; rewrite E, (fr_free _ _ _ _ Hf) in Hu; done).
  assert (Hd' : length d' = Z.to_nat BSIZE).
  { unfold d'. change (Z.to_nat BSIZE) with 512%nat in *. rewrite length_splice; rewrite ?length_le_bytes; lia. }
  assert (Hat : forall b, b <> ind i -> at_ c' (i_dev i) b = at_ c1 (i_dev i) b)
    by (intros b Hb; unfold c'; rewrite at_put, decide_False by congruence; done).
  assert (Hati : at_ c' (i_dev i) (ind i) = d') by (unfold c'; by rewrite at_put, decide_True).
  assert (Hent : forall j, 12 <= j < 140 -> slot c' i j = if j =? k then x else slot c i j).
  { intros j Hj. unfold slot. change NDIRECT with 12. change MAXFILE with 140.
    rewrite (proj2 (Z.ltb_ge j 12)), (proj2 (Z.eqb_neq j 140)), (proj2 (Z.eqb_neq (ind i) 0)) by lia.
    rewrite Hati. unfold d'. rewrite entry_splice by (done || change NINDIRECT with 128; lia).
    replace (j - 12 =? k - 12) with (j =? k); [done|].
    destruct (Z.eqb_spec j k), (Z.eqb_spec (j - 12) (k - 12)); lia || done. }
  assert (Hslot : forall j, 0 <= j <= 140 -> j <> k -> slot c' i j = slot c i j).
  { intros j Hj Hne. destruct (decide (12 <= j < 140)).
    - rewrite Hent by done. by rewrite (proj2 (Z.eqb_neq j k)).
    - unfold slot. change NDIRECT with 12. change MAXFILE with 140.
      destruct (Z.ltb_spec j 12); [done|]. by rewrite (proj2 (Z.eqb_eq j 140)) by lia. }
  assert (Hsk : slot c' i k = x) by (rewrite Hent, Z.eqb_refl by done; done).
  destruct (put_bitmap c1 (i_dev i) (ind i) d') as [Hu Hb]; [by rewrite Hsb|].
  split; [|done]. split; [split|].
  - apply (imap_ok_add c c' i i k x); auto; change MAXFILE with 140; try lia.
    + right. exists c1. rewrite Hsb in Hu. split_and!; [done|done|apply Hb, Hf|done].
    + apply Hok.
    + rewrite Hat by done. by rewrite (fr_zero _ _ _ _ Hf).
    + intros j Hj Hne Hs. destruct (decide (slot c i j = ind i)) as [->|Hn]; [by rewrite Hati|].
      rewrite Hat by done. rewrite (fresh_slot c c1 i x) by done. by apply (im_slot _ _ Hok).
    + rewrite Hat by (intros E; apply Hir; right; by left). by apply (fresh_iblk c c1 i x).
  - unfold frame. rewrite list_insert_id by done. unfold c', put. by rewrite (fr_frame _ _ _ _ Hf).
  - apply same_meta_refl.
  - change MAXFILE with 140. intros j Hj Hne. apply Hslot; [done|]. intros ->. done.
  - change MAXFILE with 140. intros j Hj. unfold fblock. destruct (decide (j = k)) as [->|Hne].
    + rewrite Hsk, H0, (proj2 (Z.eqb_neq x 0)) by done. cbn [Z.eqb]. rewrite Hat by done. apply Hf.
    + rewrite Hslot by (done || lia). destruct (Z.eqb_spec (slot c i j) 0) as [|Hs]; [done|].
      rewrite Hat; [apply (fresh_slot c c1 i x); done || (change MAXFILE with 140; lia)|].
      intros E. rewrite <- (ind_slot c i) in E.
      pose proof (im_inj _ _ Hok j MAXFILE) as Hinj. change MAXFILE with 140 in *.
      specialize (Hinj ltac:(lia) ltac:(lia) Hs E). lia.
Qed.

Lemma addr_get i k : length (i_addrs i) = 13%nat -> 0 <= k <= NDIRECT ->
  zget (i_addrs i) k = Some (default 0 (zget (i_addrs i) k)).
Proof.
  intros Hl Hk. destruct (zget_lt (i_addrs i) k) as [x ->]; [|done].
  unfold zlen. change NDIRECT with 12 in Hk. lia.
Qed.

(** The block is mapped: bmap only reads. *)
Lemma bmap_mapped ip (c : C) i bn :
  imap_ok c i -> c_icache c !! ip = Some i -> 0 <= bn < MAXFILE -> slot c i bn <> 0 ->
  bmap ip bn c = Ok (slot c i bn) c.
Proof.
  intros Hok Hip Hbn Hs. unfold bmap. rewrite (bind_run _ _ _ _ _ (inode_at_run ip c i Hip)).
  unfold slot in *. destruct (Z.ltb_spec bn NDIRECT) as [Hlt|Hge].
  - rewrite (bind_run _ _ _ _ _ (aget_run _ _ _ _ (addr_get i bn (im_len _ _ Hok) ltac:(lia)))).
    by rewrite (proj2 (Z.eqb_neq _ 0)).
  - rewrite (proj2 (Z.eqb_neq bn MAXFILE)) in * by lia.
    rewrite (proj2 (Z.ltb_lt (bn - NDIRECT) NINDIRECT))
      by (change MAXFILE with 140 in *; change NDIRECT with 12; change NINDIRECT with 128; lia).
    rewrite (bind_run _ _ _ _ _ (aget_run _ _ _ _ (addr_get i NDIRECT (im_len _ _ Hok) ltac:(done)))).
    fold (ind i). destruct (Z.eqb_spec (ind i) 0) as [|Hi]; [done|].
    rewrite (bind_run _ _ c (ind i) c) by done.
    rewrite (bind_run _ _ _ _ _ (blk_bread_run _ _ c)).
    rewrite (proj2 (Z.eqb_neq _ 0)) by done.
    erewrite bind_run by done. by rewrite (bind_run _ _ _ _ _ (blk_brelse_run _ _ c)).
Qed.

(** bmap maps the block, keeping the content of the file. *)
Lemma bmap_spec ip (c : C) i bn :
  imap_ok c i -> c_icache c !! ip = Some i -> 0 <= bn < MAXFILE ->
  ran (bmap ip bn c) (fun a c' => exists i', grows ip c i c' i' /\ slot c' i' bn = a /\ a <> 0).
Proof.
  intros Hok Hip Hbn. destruct (decide (slot c i bn = 0)) as [H0|Hne].
  2:{ rewrite (bmap_mapped ip c i) by done. exists i. split; [by apply grows_refl|done]. }
  unfold bmap. rewrite (bind_run _ _ _ _ _ (inode_at_run ip c i Hip)).
  destruct (Z.ltb_spec bn NDIRECT) as [Hlt|Hge].
  - rewrite (bind_run _ _ _ _ _ (aget_run _ _ _ _ (addr_get i bn (im_len _ _ Hok) ltac:(lia)))).
    assert (Hkey : key_of bn = bn) by (unfold key_of; by rewrite (proj2 (Z.eqb_neq bn NDIRECT)) by lia).
    pose proof (slot_key c i bn ltac:(lia)) as Hk. rewrite Hkey, H0 in Hk. rewrite <- Hk. cbn [Z.eqb].
    pose proof (grow_direct ip c i bn Hok Hip ltac:(lia)) as Hg. rewrite Hkey in Hg. exact (Hg H0).
  - rewrite (proj2 (Z.ltb_lt (bn - NDIRECT) NINDIRECT))
      by (change MAXFILE with 140 in *; change NDIRECT with 12; change NINDIRECT with 128; lia).
    rewrite (bind_run _ _ _ _ _ (aget_run _ _ _ _ (addr_get i NDIRECT (im_len _ _ Hok) ltac:(done)))).
    fold (ind i). apply ran_bind.
    assert (Hind : ran ((if ind i =? 0 then x <- balloc (i_dev i) ;; upd_inode ip (set_i_addr NDIRECT x) ;; ret x
                         else ret (ind i)) c)
      (fun x c' => exists i', grows ip c i c' i' /\ ind i' = x /\ x <> 0)).
    { destruct (Z.eqb_spec (ind i) 0) as [Hi|Hi].
      - apply (grow_direct ip c i NDIRECT); done.
      - exists i. split; [by apply grows_refl|done]. }
    eapply ran_mono; [exact Hind|]. intros x c1 (i1 & Hg1 & Hi1 & Hx0). cbn beta.
    destruct Hg1 as [[Hok1 Hfr1 Hme1 Hsl1] Hfb1].
    assert (Hdev : i_dev i1 = i_dev i) by (by rewrite Hme1).
    assert (Hip1 : c_icache c1 !! ip = Some i1) by (by eapply frame_inode).
    rewrite (bind_run _ _ _ _ _ (blk_bread_run _ _ c1)).
    assert (Hslot1 : slot c1 i1 bn = uint_at (Z.to_nat (4 * (bn - NDIRECT))) (at_ c1 (i_dev i) x)).
    { unfold slot. rewrite (proj2 (Z.ltb_ge bn NDIRECT)), (proj2 (Z.eqb_neq bn MAXFILE)) by lia.
      rewrite Hi1, (proj2 (Z.eqb_neq x 0)), Hdev by done. done. }
    rewrite <- Hslot1. apply ran_bind.
    assert (Hg1 : grows ip c i c1 i1) by (split; [by split|done]).
    destruct (Z.eqb_spec (slot c1 i1 bn) 0) as [E|E].
    + pose proof (grow_entry ip c1 i1 bn Hok1 Hip1) as Hge1. rewrite Hi1, Hdev in Hge1.
      eapply ran_mono; [apply Hge1; done || lia|]. intros a c2 (Hg2 & Ha & Ha0). cbn beta.
      rewrite (bind_run _ _ _ _ _ (blk_brelse_run _ _ c2)). exists i1. split; [|done]. by eapply grows_trans.
    + cbn [ran ret]. rewrite (bind_run _ _ _ _ _ (blk_brelse_run _ _ c1)). by exists i1.
Qed.

(** ** Storing a block of the file *)

(** Writing a block that is no bitmap block, keeping its size, and leaving the
    indirect block alone, changes no slot. *)
Lemma put_extends ip (c : C) i b d :
  imap_ok c i -> c_icache c !! ip = Some i -> length d = Z.to_nat BSIZE -> (ind i <> 0 -> b <> ind i) ->
  (forall y, 0 <= y < sb_size (c_sb c) -> b <> BBLOCK y (c_sb c)) ->
  extends ip c i (put (i_dev i) b d c) i /\
  forall k, slot (put (i_dev i) b d c) i k = slot c i k.
Proof.
  intros Hok Hip Hd Hb Hn. set (c' := put (i_dev i) b d c).
  assert (Hslot : forall k, slot c' i k = slot c i k).
  { intros k. unfold slot. destruct (k <? NDIRECT); [done|]. destruct (k =? MAXFILE); [done|].
    destruct (Z.eqb_spec (ind i) 0) as [|Hi]; [done|]. unfold c'. rewrite at_put, decide_False; [done|].
    intros [= E]. by apply (Hb Hi). }
  destruct (put_bitmap c (i_dev i) b d Hn) as [Hu Hbm].
  assert (Huse : forall x, in_use c (i_dev i) x -> in_use c' (i_dev i) x).
  { intros x [Hx Hux]. split; [done|]. unfold c'. by rewrite Hu. }
  assert (Hlen : forall x, length (at_ c (i_dev i) x) = Z.to_nat BSIZE ->
    length (at_ c' (i_dev i) x) = Z.to_nat BSIZE).
  { intros x Hx. unfold c'. rewrite at_put. by case_decide. }
  split; [|done]. split.
  - split; try apply Hok; auto.
    + apply Hbm, Hok.
    + intros x Hx. by apply Huse, Hok.
    + apply Hlen, Hok.
    + intros k Hk Hne. rewrite Hslot in *. destruct (im_slot _ _ Hok k Hk Hne) as (H1 & H2 & H3). auto.
    + intros j k Hj Hk. rewrite !Hslot. by apply Hok.
  - unfold frame. by rewrite list_insert_id by done.
  - apply same_meta_refl.
  - auto.
Qed.

Lemma put_data ip (c : C) i k d :
  imap_ok c i -> c_icache c !! ip = Some i -> length d = Z.to_nat BSIZE ->
  0 <= k < MAXFILE -> slot c i k <> 0 ->
  extends ip c i (put (i_dev i) (slot c i k) d c) i /\
  (forall j, slot (put (i_dev i) (slot c i k) d c) i j = slot c i j) /\
  forall j, 0 <= j < MAXFILE ->
    fblock (put (i_dev i) (slot c i k) d c) i j = if j =? k then d else fblock c i j.
Proof.
  intros Hok Hip Hd Hk Hs. destruct (im_slot _ _ Hok k ltac:(lia) Hs) as (_ & Hr & _).
  destruct (put_extends ip c i (slot c i k) d) as [He Hsl]; auto.
  - intros _ E. rewrite <- (ind_slot c i) in E.
    pose proof (im_inj _ _ Hok k MAXFILE ltac:(lia) ltac:(change MAXFILE with 140; lia) Hs E). lia.
  - intros y Hy E. apply Hr. unfold reserved. eauto.
  - split; [done|]. split; [done|]. intros j Hj. unfold fblock. rewrite Hsl, at_put.
    destruct (Z.eqb_spec j k) as [->|Hne].
    + by rewrite (proj2 (Z.eqb_neq _ 0)), decide_True by done.
    + destruct (Z.eqb_spec (slot c i j) 0) as [|Hsj]; [done|]. rewrite decide_False; [done|].
      intros [= E]. apply Hne. apply (im_inj _ _ Hok); lia || done.
Qed.

Lemma fblock_length (c : C) i k : imap_ok c i -> 0 <= k < MAXFILE -> length (fblock c i k) = Z.to_nat BSIZE.
Proof.
  intros Hok Hk. unfold fblock. destruct (Z.eqb_spec (slot c i k) 0) as [|Hne]; [done|].
  apply (im_slot _ _ Hok); lia || done.
Qed.

(** ** Bytes written *)

Record wrote (ip : nat) (c : C) (i : inode) (c' : C) (i' : inode) (off : Z) (bs : list Z) : Prop := {
  wr_ext : extends ip c i c' i';
  wr_map o : off <= o < off + zlen bs -> slot c' i' (o / BSIZE) <> 0;
  wr_byte o : 0 <= o < MAXFILE * BSIZE ->
    fbyte c' i' o = if (off <=? o) && (o <? off + zlen bs) then bs !! Z.to_nat (o - off) else fbyte c i o
}.

Lemma block_range o : 0 <= o < MAXFILE * BSIZE -> 0 <= o / BSIZE < MAXFILE.
Proof. change MAXFILE with 140. change BSIZE with 512. intros. Z.to_euclidean_division_equations; lia. Qed.

Lemma wrote_nil ip (c : C) i off : imap_ok c i -> c_icache c !! ip = Some i -> wrote ip c i c i off [].
Proof.
  intros Hok Hip. split; [by apply extends_refl| |].
  - intros o Ho. change (zlen []) with 0 in Ho. lia.
  - intros o Ho. change (zlen []) with 0. destruct (Z.leb_spec off o), (Z.ltb_spec o (off + 0)); done || lia.
Qed.

Lemma wrote_app ip (c1 c2 c3 : C) i1 i2 i3 off bs1 bs2 : 0 <= off ->
  off + zlen bs1 + zlen bs2 <= MAXFILE * BSIZE ->
  wrote ip c1 i1 c2 i2 off bs1 -> wrote ip c2 i2 c3 i3 (off + zlen bs1) bs2 ->
  wrote ip c1 i1 c3 i3 off (bs1 ++ bs2).
Proof.
  intros Hoff Hmax [E1 M1 B1] [E2 M2 B2]. pose proof (zlen_nonneg bs1). pose proof (zlen_nonneg bs2).
  split; [by eapply extends_trans| |].
  - intros o Ho. rewrite zlen_app in Ho. destruct (decide (o < off + zlen bs1)).
    + rewrite (ex_slot _ _ _ _ _ E2); [apply M1; lia| |apply M1; lia].
      pose proof (block_range o). lia.
    + apply M2. lia.
  - intros o Ho. rewrite B2, B1, zlen_app by done.
    destruct (Z.leb_spec off o), (Z.leb_spec (off + zlen bs1) o), (Z.ltb_spec o (off + zlen bs1)),
      (Z.ltb_spec o (off + zlen bs1 + zlen bs2)), (Z.ltb_spec o (off + (zlen bs1 + zlen bs2)));
      cbn [andb]; try done; try lia.
    + rewrite lookup_app_r by (unfold zlen in *; lia). f_equal. unfold zlen. lia.
    + rewrite lookup_app_l by (unfold zlen in *; lia). done.
Qed.

(** One round of the loop of writei: the part of [src] that falls in one block *)
Lemma write_block ip (c : C) i off part :
  imap_ok c i -> c_icache c !! ip = Some i -> 0 <= off -> off + zlen part <= MAXFILE * BSIZE ->
  part <> [] -> off mod BSIZE + zlen part <= BSIZE ->
  ran ((bno <- bmap ip (off / BSIZE) ;;
        d <- blk (bread (i_dev i) bno) ;;
        blk (log_write (i_dev i) bno (splice (Z.to_nat (off mod BSIZE)) part d)) ;;
        blk (brelse (i_dev i) bno)) c)
    (fun _ c' => exists i', wrote ip c i c' i' off part).
Proof.
  intros Hok Hip Hoff Hmax Hne Hfit.
  assert (Hpos : 0 < zlen part) by (unfold zlen; destruct part; [done|cbn; lia]).
  pose proof (block_range off ltac:(lia)) as Hbn.
  apply ran_bind. eapply ran_mono; [by apply (bmap_spec ip c i)|].
  intros a c1 (i1 & [He Hfb] & Ha & Ha0). cbn beta.
  assert (Hdev : i_dev i1 = i_dev i) by (by rewrite (ex_meta _ _ _ _ _ He)).
  assert (Hip1 : c_icache c1 !! ip = Some i1) by (eapply frame_inode; [apply He|done]).
  rewrite <- Hdev. rewrite (bind_run _ _ _ _ _ (blk_bread_run _ _ c1)).
  rewrite (bind_run _ _ _ _ _ (blk_log_write_run _ _ _ c1)), blk_brelse_run. cbn [ran].
  set (d := at_ c1 (i_dev i1) a). set (d' := splice _ part d).
  assert (Hd : d = fblock c1 i1 (off / BSIZE)).
  { unfold fblock. rewrite Ha, (proj2 (Z.eqb_neq a 0)) by done. done. }
  assert (Hmod : 0 <= off mod BSIZE < BSIZE) by (apply Z.mod_pos_bound; done).
  assert (Hdl : length d = Z.to_nat BSIZE) by (rewrite Hd; apply fblock_length; [apply He|done]).
  unfold zlen in Hpos, Hfit. change BSIZE with 512 in *. change (Z.to_nat 512) with 512%nat in *.
  assert (Hd' : length d' = 512%nat) by (unfold d'; rewrite length_splice; lia).
  rewrite <- Ha in Ha0 |- *.
  destruct (put_data ip c1 i1 (off / 512) d') as (He' & Hsl & Hfb'); [apply He|done|done|done|done|].
  exists i1. split; [by eapply extends_trans| |].
  - intros o Ho. rewrite Hsl. replace (o / BSIZE) with (off / 512); [done|].
    change BSIZE with 512. unfold zlen in Ho. Z.to_euclidean_division_equations. lia.
  - intros o Ho. pose proof (block_range o Ho) as Hob. change BSIZE with 512 in *.
    unfold fbyte. change BSIZE with 512. rewrite Hfb' by done. unfold zlen.
    destruct (Z.eqb_spec (o / 512) (off / 512)) as [E|E].
    + unfold d'. rewrite CString.splice_lookup by lia. rewrite E, <- Hfb, <- Hd by done.
      assert (Hsame : o - off = o mod 512 - off mod 512) by (Z.to_euclidean_division_equations; lia).
      assert (0 <= o mod 512 < 512) by (apply Z.mod_pos_bound; done).
      destruct (Z.leb_spec off o), (Z.ltb_spec o (off + Z.of_nat (length part))); cbn [andb];
        case_decide; try lia; try done. f_equal. lia.
    + rewrite Hfb by done.
      destruct (Z.leb_spec off o), (Z.ltb_spec o (off + Z.of_nat (length part))); cbn [andb]; try done.
      exfalso. apply E. Z.to_euclidean_division_equations. lia.
Qed.

Lemma mod_block_end off m : 0 <= off -> m = BSIZE - off mod BSIZE -> (off + m) mod BSIZE = 0.
Proof. change BSIZE with 512. intros. subst m. Z.to_euclidean_division_equations. lia. Qed.

Lemma writei_loop_spec ip src fuel : forall (c : C) i off tot,
  imap_ok c i -> c_icache c !! ip = Some i -> 0 <= tot <= zlen src -> 0 <= off ->
  off + (zlen src - tot) <= MAXFILE * BSIZE ->
  (tot < zlen src -> off mod BSIZE + (zlen src - tot) <= Z.of_nat fuel * BSIZE) ->
  ran (writei_loop fuel ip src off tot (zlen src) c)
    (fun off' c' => off' = off + (zlen src - tot) /\
       exists i', wrote ip c i c' i' off (drop (Z.to_nat tot) src)).
Proof.
  induction fuel as [|fuel IH]; intros c i off tot Hok Hip Ht Hoff Hmax Hf; cbn [writei_loop];
    destruct (Z.ltb_spec tot (zlen src)) as [Hlt|Hge].
  - specialize (Hf Hlt). assert (0 <= off mod BSIZE) by (apply Z.mod_pos_bound; done). lia.
  - cbn. split; [lia|]. exists i. rewrite drop_ge by (unfold zlen in *; lia). by apply wrote_nil.
  - specialize (Hf Hlt). rewrite (bind_run _ _ _ _ _ (inode_at_run ip c i Hip)).
    assert (Hmod : 0 <= off mod BSIZE < BSIZE) by (apply Z.mod_pos_bound; done).
    set (m := Z.min (zlen src - tot) (BSIZE - off mod BSIZE)).
    set (part := slice (Z.to_nat tot) (Z.to_nat m) src).
    assert (Hpl : zlen part = m).
    { unfold part, zlen in *. rewrite length_slice. unfold m. lia. }
    assert (Hsplit : drop (Z.to_nat tot) src = part ++ drop (Z.to_nat (tot + m)) src).
    { unfold part, slice. rewrite Z2Nat.inj_add by lia. rewrite <- drop_drop. symmetry. apply take_drop. }
    pose proof (write_block ip c i off part Hok Hip Hoff) as Hw.
    assert (Hne : part <> []) by (intros E; rewrite E in Hpl; change (zlen []) with 0 in Hpl; lia).
    specialize (Hw ltac:(lia) Hne ltac:(lia)).
    assert (Hassoc : forall k : M C Z,
      ((bno <- bmap ip (off / BSIZE) ;; d <- blk (bread (i_dev i) bno) ;;
        blk (log_write (i_dev i) bno (splice (Z.to_nat (off mod BSIZE)) part d)) ;;
        blk (brelse (i_dev i) bno) ;; k) c) =
      bind (bno <- bmap ip (off / BSIZE) ;; d <- blk (bread (i_dev i) bno) ;;
        blk (log_write (i_dev i) bno (splice (Z.to_nat (off mod BSIZE)) part d)) ;;
        blk (brelse (i_dev i) bno)) (fun _ => k) c).
    { intros k. rewrite bind_assoc. apply bind_ext. intros a s. rewrite bind_assoc. apply bind_ext.
      intros d s'. by rewrite bind_assoc. }
    rewrite Hassoc. apply ran_bind. eapply ran_mono; [exact Hw|]. intros _ c1 (i1 & Hw1). cbn beta.
    assert (Hip1 : c_icache c1 !! ip = Some i1) by (eapply frame_inode; [apply Hw1|done]).
    eapply ran_mono; [apply (IH c1 i1 (off + m) (tot + m)); [apply Hw1|done|lia|lia|lia|]|].
    + intros Hlt'. assert (Hm : m = BSIZE - off mod BSIZE) by lia.
      rewrite (mod_block_end off m) by done. lia.
    + intros off' c2 [-> (i2 & Hw2)]. split; [lia|]. exists i2. rewrite Hsplit.
      rewrite <- Hpl in Hw2 at 1. eapply wrote_app; [done| |done|done].
      unfold zlen in *. rewrite length_drop. lia.
  - cbn. split; [lia|]. exists i. rewrite drop_ge by (unfold zlen in *; lia). by apply wrote_nil.
Qed.

(** The loop of readi, when every block it meets is mapped *)
Lemma readi_loop_spec ip fuel (c : C) i n : forall off tot acc,
  imap_ok c i -> c_icache c !! ip = Some i -> 0 <= tot <= n -> 0 <= off ->
  off + (n - tot) <= MAXFILE * BSIZE ->
  (forall o, off <= o < off + (n - tot) -> slot c i (o / BSIZE) <> 0) ->
  (tot < n -> off mod BSIZE + (n - tot) <= Z.of_nat fuel * BSIZE) ->
  exists bs, readi_loop fuel ip off tot n acc c = Ok (acc ++ bs) c /\ zlen bs = n - tot /\
    forall j, 0 <= j < n - tot -> bs !! Z.to_nat j = fbyte c i (off + j).
Proof.
  induction fuel as [|fuel IH]; intros off tot acc Hok Hip Ht Hoff Hmax Hmap Hf; cbn [readi_loop];
    destruct (Z.ltb_spec tot n) as [Hlt|Hge].
  - specialize (Hf Hlt). assert (0 <= off mod BSIZE) by (apply Z.mod_pos_bound; done). lia.
  - exists []. rewrite app_nil_r. split; [done|]. split; [unfold zlen; cbn; lia|lia].
  - specialize (Hf Hlt). rewrite (bind_run _ _ _ _ _ (inode_at_run ip c i Hip)).
    assert (Hmod : 0 <= off mod BSIZE < BSIZE) by (apply Z.mod_pos_bound; done).
    pose proof (block_range off ltac:(lia)) as Hbn. pose proof (Hmap off ltac:(lia)) as Hs.
    rewrite (bind_run _ _ _ _ _ (bmap_mapped ip c i _ Hok Hip Hbn Hs)).
    rewrite (bind_run _ _ _ _ _ (blk_bread_run _ _ c)), (bind_run _ _ _ _ _ (blk_brelse_run _ _ c)).
    set (m := Z.min (n - tot) (BSIZE - off mod BSIZE)).
    set (part := slice _ (Z.to_nat m) _).
    destruct (IH (off + m) (tot + m) (acc ++ part)) as (bs & E & Hl & Hb); try done; try lia.
    + intros o Ho. apply Hmap. lia.
    + intros Hlt'. assert (Hm : m = BSIZE - off mod BSIZE) by lia.
      rewrite (mod_block_end off m) by done. lia.
    + assert (Hd : at_ c (i_dev i) (slot c i (off / BSIZE)) = fblock c i (off / BSIZE))
        by (unfold fblock; by rewrite (proj2 (Z.eqb_neq _ 0))).
      assert (Hpl : zlen part = m).
      { unfold part, zlen. rewrite Hd, length_slice, fblock_length by done.
        change BSIZE with 512 in *. lia. }
      exists (part ++ bs). rewrite app_assoc. split; [done|]. split; [rewrite zlen_app; lia|].
      intros j Hj. destruct (decide (j < m)).
      * rewrite lookup_app_l by (unfold zlen in Hpl; lia). unfold part, fbyte, slice.
        rewrite Hd, lookup_take_lt, lookup_drop by lia. change BSIZE with 512 in *.
        replace ((off + j) / 512) with (off / 512) by (Z.to_euclidean_division_equations; lia).
        f_equal. Z.to_euclidean_division_equations. lia.
      * rewrite lookup_app_r by (unfold zlen in Hpl; lia).
        replace (Z.to_nat j - length part)%nat with (Z.to_nat (j - m)) by (unfold zlen in Hpl; lia).
        rewrite Hb by lia. f_equal. lia.
  - exists []. rewrite app_nil_r. split; [done|]. split; [unfold zlen; cbn; lia|lia].
Qed.

(** ** Whole files *)

(** A file in good order: it is no device and every block below its size is
    mapped. *)
Record file_ok (c : C) (i : inode) : Prop := {
  fo_map : imap_ok c i;
  fo_type : i_type i <> T_DEV;
  fo_size : 0 <= i_size i <= MAXFILE * BSIZE;
  fo_full o : 0 <= o < i_size i -> slot c i (o / BSIZE) <> 0
}.

Lemma loop_fuel off n : 0 <= n -> off mod BSIZE + (n - 0) <= Z.of_nat (Z.to_nat (n / BSIZE + 2)) * BSIZE.
Proof.
  change BSIZE with 512. intros Hn. assert (0 <= n / 512) by (apply Z.div_pos; lia).
  rewrite Z2Nat.id by lia. Z.to_euclidean_division_equations. lia.
Qed.

Lemma readi_spec ip (c : C) i off n :
  file_ok c i -> c_icache c !! ip = Some i -> 0 <= off < 2 ^ 32 -> 0 <= n < 2 ^ 31 ->
  if (off >? i_size i) || (2 ^ 32 <=? off + n) then readi ip off n c = Ok (-1, []) c
  else exists bs, readi ip off n c = Ok (zlen bs, bs) c /\ zlen bs = Z.min n (i_size i - off) /\
    forall j, 0 <= j < zlen bs -> bs !! Z.to_nat j = fbyte c i (off + j).
Proof.
  intros Hok Hip Hoff Hn. pose proof (fo_size _ _ Hok) as Hsz.
  assert (Hmax : MAXFILE * BSIZE = 71680) by done.
  unfold readi. rewrite (bind_run _ _ _ _ _ (inode_at_run ip c i Hip)).
  rewrite (proj2 (Z.eqb_neq _ _) (fo_type _ _ Hok)).
  destruct (Z.gtb_spec off (i_size i)) as [Hgt|Hle]; [done|]. cbn [orb].
  destruct (Z.leb_spec (2 ^ 32) (off + n)) as [Hov|Hov].
  - rewrite (proj2 (Z.ltb_lt _ _)); [done|]. word_lia.
  - rewrite (u32_small (off + n)) by lia. rewrite (proj2 (Z.ltb_ge _ _)) by lia.
    set (n' := if off + n >? i_size i then i_size i - off else n).
    assert (Hn' : n' = Z.min n (i_size i - off)).
    { unfold n'. destruct (Z.gtb_spec (off + n) (i_size i)); lia. }
    destruct (readi_loop_spec ip (Z.to_nat (n' / BSIZE + 2)) c i n' off 0 []) as (bs & E & Hl & Hb);
      [apply Hok|done|lia|lia|lia|intros o Ho; apply (fo_full _ _ Hok); lia|intros _; apply loop_fuel; lia|].
    rewrite (bind_run _ _ _ _ _ E). cbn [app ret]. exists bs.
    rewrite s32_id by lia. replace n' with (zlen bs) by lia.
    split; [done|]. split; [lia|]. intros j Hj. apply Hb. lia.
Qed.

(** Changing the size, then writing the inode back, leaves the map alone. *)
Lemma iupdate_extends ip (c : C) i v :
  imap_ok c i -> c_icache c !! ip = Some i -> 0 <= i_inum i ->
  exists c', (upd_inode ip (set_i_size v) ;; iupdate ip) c = Ok tt c' /\
    c_icache c' = <[ip := set_i_size v i]> (c_icache c) /\
    imap_ok c' (set_i_size v i) /\
    (forall k, slot c' (set_i_size v i) k = slot c i k) /\
    (forall k, 0 <= k < MAXFILE -> fblock c' (set_i_size v i) k = fblock c i k).
Proof.
  intros Hok Hip Hin. rewrite (bind_run _ _ _ _ _ (upd_inode_run ip _ c i Hip)).
  set (i1 := set_i_size v i). set (c1 := set_icache _ c).
  assert (Hok1 : imap_ok c1 i1) by (destruct Hok; by split).
  assert (Hip1 : c_icache c1 !! ip = Some i1) by (apply list_lookup_insert_eq; by eapply lookup_lt_Some).
  unfold iupdate. rewrite (bind_run _ _ _ _ _ (sb_get_run c1)), (bind_run _ _ _ _ _ (inode_at_run ip c1 i1 Hip1)).
  rewrite (bind_run _ _ _ _ _ (blk_bread_run _ _ c1)).
  rewrite (bind_run _ _ _ _ _ (blk_log_write_run _ _ _ c1)), blk_brelse_run.
  set (b := IBLOCK (i_inum i1) (c_sb c1)). set (d := splice _ _ _).
  assert (Hres : reserved c1 i1 b) by (right; by left).
  assert (Hb : forall k, 0 <= k <= MAXFILE -> slot c1 i1 k <> 0 -> slot c1 i1 k <> b).
  { intros k Hk Hne E. destruct (im_slot _ _ Hok1 k Hk Hne) as (_ & Hr & _). by rewrite E in Hr. }
  destruct (put_extends ip c1 i1 b d) as [He Hsl]; auto.
  - pose proof (im_iblk _ _ Hok1) as Hib. fold b in Hib. unfold d.
    rewrite length_splice; [exact Hib|]. rewrite Hib.
    rewrite length_dinode_bytes by apply Hok. pose proof (mod_IPB (i_inum i1)) as Hm.
    unfold sizeof_dinode. change (Z.to_nat BSIZE) with 512%nat. lia.
  - intros Hi E. rewrite <- (ind_slot c1 i1) in Hi, E. by apply (Hb MAXFILE).
  - apply Hok1.
  - eexists. split; [done|]. split; [done|]. split; [apply He|]. split; [exact Hsl|].
    intros k Hk. unfold fblock. rewrite Hsl. change (slot c1 i1 k) with (slot c i k).
    destruct (Z.eqb_spec (slot c i k) 0) as [|Hne]; [done|].
    rewrite at_put, decide_False; [done|]. intros [= E]. by apply (Hb k); [lia|..].
Qed.

(** Where a byte of the file comes from after a write *)
Definition spliced (c : C) (i : inode) (off : Z) (src : list Z) (o : Z) : option Z :=
  if (off <=? o) && (o <? off + zlen src) then src !! Z.to_nat (o - off) else fbyte c i o.

Lemma writei_spec ip (c : C) i src off :
  file_ok c i -> c_icache c !! ip = Some i -> 0 <= i_inum i ->
  0 <= off <= i_size i -> off + zlen src <= MAXFILE * BSIZE ->
  ran (writei ip src off c) (fun r c' => r = zlen src /\ exists i',
    c_icache c' = <[ip := i']> (c_icache c) /\ file_ok c' i' /\ i_inum i' = i_inum i /\
    i_type i' = i_type i /\ i_size i' = Z.max (i_size i) (off + zlen src) /\
    forall o, 0 <= o < MAXFILE * BSIZE -> fbyte c' i' o = spliced c i off src o).
Proof.
  intros Hok Hip Hin Hoff Hmax. pose proof (fo_size _ _ Hok) as Hsz. pose proof (zlen_nonneg src) as Hn.
  assert (Hm : MAXFILE * BSIZE = 71680) by done.
  unfold writei. rewrite (bind_run _ _ _ _ _ (inode_at_run ip c i Hip)).
  rewrite (proj2 (Z.eqb_neq _ _) (fo_type _ _ Hok)).
  rewrite (u32_small (off + zlen src)) by lia.
  destruct (Z.gtb_spec off (i_size i)), (Z.ltb_spec (off + zlen src) off),
    (Z.gtb_spec (off + zlen src) (MAXFILE * BSIZE)); try lia. cbn [orb].
  apply ran_bind. eapply ran_mono;
    [apply (writei_loop_spec ip src _ c i off 0); [apply Hok|done|lia|lia|lia|intros _; apply loop_fuel; lia]|].
  intros off' c1 [-> (i1 & [He Hmap Hby])]. cbn beta. rewrite Z.sub_0_r. rewrite drop_0 in *.
  assert (Hip1 : c_icache c1 !! ip = Some i1) by (eapply frame_inode; [apply He|done]).
  rewrite (bind_run _ _ _ _ _ (inode_at_run ip c1 i1 Hip1)).
  assert (Hsz1 : i_size i1 = i_size i) by (by rewrite (ex_meta _ _ _ _ _ He)).
  assert (Hfull : forall o, 0 <= o < Z.max (i_size i) (off + zlen src) -> slot c1 i1 (o / BSIZE) <> 0).
  { intros o Ho. destruct (decide (o < i_size i)).
    - rewrite (ex_slot _ _ _ _ _ He); [apply (fo_full _ _ Hok); lia| |apply (fo_full _ _ Hok); lia].
      pose proof (block_range o ltac:(lia)). lia.
    - apply Hmap. lia. }
  assert (Hty : i_type i1 = i_type i) by (by rewrite (ex_meta _ _ _ _ _ He)).
  assert (Hty1 : i_type i1 <> T_DEV) by (rewrite Hty; apply Hok).
  assert (Hin1 : i_inum i1 = i_inum i) by (by rewrite (ex_meta _ _ _ _ _ He)).
  assert (Hic1 : c_icache c1 = <[ip := i1]> (c_icache c)) by (by rewrite (ex_frame _ _ _ _ _ He)).
  destruct ((zlen src >? 0) && (off + zlen src >? i_size i1)) eqn:Eb; cbn [whenM].
  - apply andb_true_iff in Eb as [_ Hgt%Z.gtb_lt].
    destruct (iupdate_extends ip c1 i1 (off + zlen src)) as (c2 & E2 & Hic2 & Hok2 & Hsl2 & Hfb2);
      [apply He|done|by rewrite Hin1|].
    apply ran_bind. rewrite E2. cbn [ran ret]. split; [done|]. exists (set_i_size (off + zlen src) i1).
    split; [by rewrite Hic2, Hic1, list_insert_insert_eq|]. split; [|split; [done|split; [done|split; [cbn; lia|]]]].
    + split; [done|done|cbn; lia|]. cbn [set_i_size i_size]. intros o Ho. rewrite Hsl2. apply Hfull. lia.
    + intros o Ho. unfold spliced. rewrite <- Hby by done. unfold fbyte. by rewrite Hfb2 by (by apply block_range).
  - rewrite (bind_run _ _ c1 tt c1) by done. cbn [ran ret]. split; [done|]. exists i1.
    assert (Hle : off + zlen src <= i_size i).
    { apply andb_false_iff in Eb as [E|E]; revert E.
      - destruct (Z.gtb_spec (zlen src) 0); [done|]. lia.
      - destruct (Z.gtb_spec (off + zlen src) (i_size i1)); [done|]. lia. }
    split; [done|]. split; [|split; [done|split; [done|split; [lia|done]]]].
    split; [apply He|done|lia|]. intros o Ho. apply Hfull. lia.
Qed.

(** C34: what writei writes, readi reads.  On a file in good order, a write at an
    offset up to its size either finds the disk full (and panics) or returns
    the number of bytes; the file then is in good order again, has grown to
    the end of the write if that was beyond its size, every byte of it outside
    the write is what it was, and reading the same range returns the bytes
    written. *)
Theorem writei_readi ip (c : C) i src off :
  file_ok c i -> c_icache c !! ip = Some i -> 0 <= i_inum i ->
  0 <= off <= i_size i -> off + zlen src <= MAXFILE * BSIZE ->
  ran (writei ip src off c) (fun r c' => r = zlen src /\ exists i',
    c_icache c' !! ip = Some i' /\ file_ok c' i' /\
    i_size i' = Z.max (i_size i) (off + zlen src) /\
    (forall o, 0 <= o < off \/ off + zlen src <= o < MAXFILE * BSIZE -> fbyte c' i' o = fbyte c i o) /\
    readi ip off (zlen src) c' = Ok (zlen src, src) c').
Proof.
  intros Hok Hip Hin Hoff Hmax. pose proof (zlen_nonneg src) as Hn.
  eapply ran_mono; [by apply writei_spec|]. intros r c' (-> & i' & Hic & Hok' & _ & _ & Hsz & Hby).
  assert (Hm : MAXFILE * BSIZE = 71680) by done. pose proof (fo_size _ _ Hok) as Hs0.
  split; [done|]. exists i'.
  assert (Hip' : c_icache c' !! ip = Some i')
    by (rewrite Hic; apply list_lookup_insert_eq; by eapply lookup_lt_Some).
  split; [done|]. split; [done|]. split; [done|]. split.
  - intros o Ho. rewrite Hby by lia. unfold spliced.
    destruct (Z.leb_spec off o), (Z.ltb_spec o (off + zlen src)); done || lia.
  - pose proof (readi_spec ip c' i' off (zlen src) Hok' Hip' ltac:(lia) ltac:(lia)) as Hr.
    destruct (Z.gtb_spec off (i_size i')), (Z.leb_spec (2 ^ 32) (off + zlen src)); try lia. cbn [orb] in Hr.
    destruct Hr as (bs & -> & Hl & Hb). replace bs with src; [done|].
    rewrite Hsz in Hl. apply list_eq_same_length with (length src); [unfold zlen in *; lia|done|].
    intros j x y Hj Hx Hy. specialize (Hb (Z.of_nat j)). rewrite Nat2Z.id in Hb.
    rewrite Hb, Hby in Hy by (unfold zlen in *; lia). unfold spliced in Hy.
    rewrite (proj2 (Z.leb_le _ _)), (proj2 (Z.ltb_lt _ _)) in Hy by (unfold zlen; lia). cbn [andb] in Hy.
    replace (Z.to_nat (off + Z.of_nat j - off)) with j in Hy by lia. congruence.
Qed.

(** Readi returns the bytes of the file.  Beyond the end, or when the range
    wraps around, it fails; otherwise it returns the bytes from the offset on,
    as many as asked for or as there are, and changes nothing. *)
Theorem readi_correct ip (c : C) i off n :
  file_ok c i -> c_icache c !! ip = Some i -> 0 <= off < 2 ^ 32 -> 0 <= n < 2 ^ 31 ->
  if (off >? i_size i) || (2 ^ 32 <=? off + n) then readi ip off n c = Ok (-1, []) c
  else exists bs, readi ip off n c = Ok (zlen bs, bs) c /\ zlen bs = Z.min n (i_size i - off) /\
    forall j, 0 <= j < zlen bs -> bs !! Z.to_nat j = fbyte c i (off + j).
Proof. apply readi_spec. Qed.

(** ** Witnesses: a three-byte file in block 60 of a disk of 100 blocks whose
    bitmap, in block 58, marks the first 61 blocks *)
Definition w_inode : inode := mkInode 1 9 1 false 0 1 T_FILE 0 0 1 3 (60 :: replicate 12 0).
Definition w_core : C :=
  mkCore (<[(1, 58) := replicate 7 255 ++ [31] ++ replicate 504 0]>
            (<[(1, 60) := [104; 105; 10] ++ replicate 509 0]> ∅))
    (mkSuperblock 100 41 200 30 2 32 58) [w_inode] []
    (Kalloc.mkKmem 0 0 ∅) ∅ (mkInput [] 0 0 0) [] (mkProc 1 0 [] 0 [] 0) 0.

Lemma w_BBLOCK y : 0 <= y < 100 -> BBLOCK y (c_sb w_core) = 58.
Proof. intros Hy. unfold BBLOCK, BPB, BSIZE. cbn. rewrite Z.div_small by lia. done. Qed.

Lemma w_slot k : 0 <= k <= MAXFILE -> slot w_core w_inode k <> 0 -> k = 0.
Proof.
  change MAXFILE with 140. intros Hk Hs. destruct (decide (k = 0)) as [|Hne]; [done|]. exfalso. apply Hs.
  unfold slot. change NDIRECT with 12. change MAXFILE with 140. change (ind w_inode) with 0.
  destruct (Z.ltb_spec k 12); [|by destruct (k =? 140)].
  replace k with (Z.of_nat (S (Z.to_nat (k - 1)))) by lia. rewrite zget_nat.
  change (i_addrs w_inode) with (60 :: replicate 12 0).
  change (default 0 (replicate 12 0 !! Z.to_nat (k - 1)) = 0).
  rewrite (lookup_replicate_2 12 0 (Z.to_nat (k - 1))) by lia. done.
Qed.

Lemma w_file_ok : file_ok w_core w_inode.
Proof.
  assert (Hres : forall x, reserved w_core w_inode x -> x = 0 \/ x = 33 \/ x = 58).
  { intros x [-> | [-> | (y & Hy & ->)]]; [by left|by right; left|right; right; by apply w_BBLOCK]. }
  assert (Hbm : bitmap_ok w_core 1).
  { split; [done|]. intros b Hb. rewrite w_BBLOCK by done. by vm_compute. }
  split; [|done|cbn; change (MAXFILE * BSIZE) with 71680; lia|].
  - split; try done.
    + intros x [-> | [-> | ->]]%Hres; by vm_compute.
    + intros y Hy. by rewrite w_BBLOCK.
    + intros k Hk ->%w_slot; [|done]. change (slot w_core w_inode 0) with 60.
      split; [by vm_compute|]. split; [|done]. intros H%Hres. lia.
    + intros j k Hj Hk Hs E. rewrite (w_slot j Hj Hs). symmetry. apply w_slot; [done|congruence].
  - intros o Ho. change (i_size w_inode) with 3 in Ho. change BSIZE with 512.
    by rewrite Z.div_small by lia.
Qed.

Lemma writei_readi_witness :
  ran (writei 0 [1; 2; 3; 4] 2 w_core) (fun r c' => r = 4 /\ exists i',
    c_icache c' !! 0%nat = Some i' /\ file_ok c' i' /\ i_size i' = Z.max 3 6 /\
    (forall o, 0 <= o < 2 \/ 6 <= o < MAXFILE * BSIZE -> fbyte c' i' o = fbyte w_core w_inode o) /\
    readi 0 2 4 c' = Ok (4, [1; 2; 3; 4]) c').
Proof.
  apply (writei_readi 0 w_core w_inode [1; 2; 3; 4] 2);
    [exact w_file_ok|reflexivity|vm_compute; discriminate|split; vm_compute; discriminate|].
  vm_compute. discriminate.
Defined.

Lemma readi_correct_witness :
  exists bs, readi 0 1 512 w_core = Ok (zlen bs, bs) w_core /\ zlen bs = Z.min 512 2 /\
    forall j, 0 <= j < zlen bs -> bs !! Z.to_nat j = fbyte w_core w_inode (1 + j).
Proof. apply (readi_correct 0 w_core w_inode 1 512); [exact w_file_ok|reflexivity|lia|lia]. Defined.

End FsData.
