(* ===== verification/FsDir.v ===== *)
(** * Directories: dirlookup and dirlink as a map from names to inode numbers *)
From S2P Require Import Prelude Words Params CString Kalloc Core Fs MemBlk FsAlloc FsInode FsData.

Module FsDir.
Import Fs FsAlloc FsInode FsData.

#[local] Abbreviation C := (core store).

(** ** Entries *)

(** The directory entry at byte [off] of the directory's content *)
Definition dent (c : C) (i : inode) (off : Z) : list Z :=
  (fun j => default 0 (fbyte c i (off + Z.of_nat j))) <$> seq 0 16.

(** The names compared by namecmp: at most 14 characters, up to a NUL *)
Definition same_name (s t : list Z) : bool :=
  bool_decide (CString.cstr (Z.to_nat DIRSIZ) s = CString.cstr (Z.to_nat DIRSIZ) t).

Definition hit (name de : list Z) : bool := negb (de_inum de =? 0) && same_name name (de_name de).

(** The specification: the first entry in use with that name *)
Fixpoint find_entry (c : C) (i : inode) (name : list Z) (offs : list Z) : option (Z * Z) :=
  match offs with
  | [] => None
  | off :: offs' =>
      if hit name (dent c i off) then Some (off, de_inum (dent c i off))
      else find_entry c i name offs'
  end.

Definition offsets (from size : Z) : list Z :=
  (fun k => from + sizeof_dirent * Z.of_nat k) <$> seq 0 (Z.to_nat ((size - from) / sizeof_dirent)).

(** What a directory maps a name to: the offset of its entry and the inode *)
Definition dir_map (c : C) (i : inode) (name : list Z) : option (Z * Z) :=
  find_entry c i name (offsets 0 (i_size i)).

(** A directory in good order: a file of whole entries *)
Record dir_ok (c : C) (i : inode) : Prop := {
  do_file : file_ok c i;
  do_type : i_type i = T_DIR;
  do_size : i_size i mod sizeof_dirent = 0
}.

Lemma namecmp_run (c : C) s t : length s = Z.to_nat DIRSIZ -> length t = Z.to_nat DIRSIZ ->
  exists r, namecmp s t c = Ok r c /\ (r =? 0) = same_name s t.
Proof.
  intros Hs Ht. destruct (CString.strncmp_cstr (Z.to_nat DIRSIZ) s t) as (r & E & Hr); [lia|lia|].
  exists r. unfold namecmp. rewrite E. split; [done|]. unfold same_name.
  destruct (Z.eqb_spec r 0) as [H|H]; symmetry; [by apply bool_decide_eq_true, Hr|].
  apply bool_decide_eq_false. by rewrite <- Hr.
Qed.

Lemma length_dent c i off : length (dent c i off) = 16%nat.
Proof. unfold dent. by rewrite length_fmap, length_seq. Qed.

Lemma length_de_name c i off : length (de_name (dent c i off)) = Z.to_nat DIRSIZ.
Proof. unfold de_name. rewrite length_slice, length_dent. done. Qed.

Lemma readi_dent ip (c : C) i off : file_ok c i -> c_icache c !! ip = Some i ->
  0 <= off -> off + sizeof_dirent <= i_size i ->
  readi ip off sizeof_dirent c = Ok (sizeof_dirent, dent c i off) c.
Proof.
  unfold sizeof_dirent. intros Hok Hip Hoff Hsz. pose proof (fo_size _ _ Hok) as Hs.
  assert (Hm : MAXFILE * BSIZE = 71680) by done.
  pose proof (readi_spec ip c i off 16 Hok Hip ltac:(lia) ltac:(lia)) as Hr.
  destruct (Z.gtb_spec off (i_size i)), (Z.leb_spec (2 ^ 32) (off + 16)); try lia. cbn [orb] in Hr.
  destruct Hr as (bs & -> & Hl & Hb). replace (dent c i off) with bs; [f_equal; f_equal; lia|].
  apply list_eq_same_length with 16%nat; [apply length_dent|unfold zlen in Hl; lia|].
  intros j x y Hj Hx Hy. unfold dent in Hy. rewrite list_lookup_fmap, lookup_seq_lt in Hy by done.
  injection Hy as <-. specialize (Hb (Z.of_nat j) ltac:(lia)). rewrite Nat2Z.id in Hb.
  by rewrite <- Hb, Hx.
Qed.

Lemma offsets_cons from size : 0 <= from -> from < size -> (size - from) mod sizeof_dirent = 0 ->
  offsets from size = from :: offsets (from + sizeof_dirent) size.
Proof.
  unfold sizeof_dirent. intros Hf Hlt Hm. unfold offsets, sizeof_dirent.
  replace (Z.to_nat ((size - from) / 16)) with (S (Z.to_nat ((size - (from + 16)) / 16)))
    by (Z.to_euclidean_division_equations; lia).
  cbn [seq fmap list_fmap]. f_equal; [lia|]. rewrite <- fmap_S_seq, <- list_fmap_compose.
  apply list_fmap_ext. intros k x _. cbn. lia.
Qed.

Lemma offsets_nil from size : size <= from -> offsets from size = [].
Proof.
  intros H. unfold offsets. replace (Z.to_nat _) with 0%nat; [done|].
  unfold sizeof_dirent. Z.to_euclidean_division_equations. lia.
Qed.

(** ** dirlookup *)

Lemma dirlookup_loop_run dp (c : C) i name fuel : forall off,
  dir_ok c i -> c_icache c !! dp = Some i -> length name = Z.to_nat DIRSIZ ->
  0 <= off -> off mod sizeof_dirent = 0 -> i_size i - off <= Z.of_nat fuel * sizeof_dirent ->
  dirlookup_loop fuel dp name off c =
    match find_entry c i name (offsets off (i_size i)) with
    | Some (o, inum) => (ip <- iget (i_dev i) inum ;; ret (Some (ip, o))) c
    | None => Ok None c
    end.
Proof.
  induction fuel as [|fuel IH]; intros off Hok Hip Hn Hoff Hm Hf; cbn [dirlookup_loop];
    rewrite (bind_run _ _ _ _ _ (inode_at_run dp c i Hip));
    destruct (Z.ltb_spec off (i_size i)) as [Hlt|Hge]; try lia;
    try (rewrite offsets_nil by lia; done).
  pose proof (do_size _ _ Hok) as Hsm. unfold sizeof_dirent in *.
  rewrite (bind_run _ _ _ _ _ (readi_dent dp c i off (do_file _ _ Hok) Hip Hoff
    ltac:(unfold sizeof_dirent; Z.to_euclidean_division_equations; lia))).
  change (sizeof_dirent =? 16) with true. cbn [negb].
  rewrite offsets_cons by (unfold sizeof_dirent; done || (Z.to_euclidean_division_equations; lia)).
  cbn [find_entry]. unfold hit.
  assert (Hrec : dirlookup_loop fuel dp name (off + 16) c =
    match find_entry c i name (offsets (off + 16) (i_size i)) with
    | Some (o, inum) => (ip <- iget (i_dev i) inum ;; ret (Some (ip, o))) c
    | None => Ok None c
    end).
  { apply IH; try done; try lia. Z.to_euclidean_division_equations. lia. }
  destruct (de_inum (dent c i off) =? 0) eqn:E0; cbn [negb andb]; [exact Hrec|].
  destruct (namecmp_run c name (de_name (dent c i off)) Hn (length_de_name c i off)) as (r & Er & Hr).
  rewrite (bind_run _ _ _ _ _ Er), Hr. destruct (same_name _ _); [done|exact Hrec].
Qed.

Lemma dirlookup_run dp (c : C) i name :
  dir_ok c i -> c_icache c !! dp = Some i -> length name = Z.to_nat DIRSIZ ->
  dirlookup dp name c =
    match dir_map c i name with
    | Some (o, inum) => (ip <- iget (i_dev i) inum ;; ret (Some (ip, o))) c
    | None => Ok None c
    end.
Proof.
  intros Hok Hip Hn. unfold dirlookup. rewrite (bind_run _ _ _ _ _ (inode_at_run dp c i Hip)).
  rewrite (do_type _ _ Hok). cbn [negb Z.eqb Pos.eqb T_DIR].
  apply dirlookup_loop_run; try done. pose proof (fo_size _ _ (do_file _ _ Hok)) as Hs.
  unfold sizeof_dirent. rewrite Z2Nat.id by (Z.to_euclidean_division_equations; lia).
  Z.to_euclidean_division_equations. lia.
Qed.

(** Dirlookup is lookup in the directory's map.  It finds the first entry in
    use whose name agrees with the given one in the first 14 characters (up to
    a NUL), and returns the cached inode of its number; it returns 0 exactly
    when no entry has that name, and reads without changing anything. *)
Theorem dirlookup_correct dp (c : C) i name :
  dir_ok c i -> c_icache c !! dp = Some i -> length name = Z.to_nat DIRSIZ ->
  dirlookup dp name c =
    match dir_map c i name with
    | Some (o, inum) => (ip <- iget (i_dev i) inum ;; ret (Some (ip, o))) c
    | None => Ok None c
    end.
Proof. apply dirlookup_run. Qed.

(** ** dirlink *)

(** The offset of the first free entry, or the end of the directory *)
Lemma dirlink_scan_run dp (c : C) i fuel : forall off,
  dir_ok c i -> c_icache c !! dp = Some i ->
  0 <= off <= i_size i -> off mod sizeof_dirent = 0 -> i_size i - off <= Z.of_nat fuel * sizeof_dirent ->
  exists o, dirlink_scan fuel dp off c = Ok o c /\ off <= o <= i_size i /\ o mod sizeof_dirent = 0 /\
    (o < i_size i -> de_inum (dent c i o) = 0).
Proof.
  induction fuel as [|fuel IH]; intros off Hok Hip Hoff Hm Hf; cbn [dirlink_scan];
    rewrite (bind_run _ _ _ _ _ (inode_at_run dp c i Hip));
    destruct (Z.ltb_spec off (i_size i)) as [Hlt|Hge]; try lia;
    try (exists off; split; [done|]; split; [lia|]; split; [done|lia]).
  pose proof (do_size _ _ Hok) as Hsm. unfold sizeof_dirent in *.
  rewrite (bind_run _ _ _ _ _ (readi_dent dp c i off (do_file _ _ Hok) Hip ltac:(lia)
    ltac:(unfold sizeof_dirent; Z.to_euclidean_division_equations; lia))).
  change (sizeof_dirent =? 16) with true. cbn [negb].
  destruct (Z.eqb_spec (de_inum (dent c i off)) 0) as [E|E].
  - exists off. split; [done|]. split; [lia|]. done.
  - destruct (IH (off + 16)) as (o & Eo & H1 & H2 & H3); try done.
    + Z.to_euclidean_division_equations. lia.
    + Z.to_euclidean_division_equations. lia.
    + lia.
    + exists o. split; [done|]. split; [lia|]. done.
Qed.

Lemma strncpy_full name n : length name = n ->
  exists nm, CString.strncpy name n = Some nm /\ length nm = n /\ CString.cstr n nm = CString.cstr n name.
Proof.
  intros Hn. assert (exists nm, CString.strncpy name n = Some nm) as (nm & E).
  { revert n Hn. induction name as [|x name IH]; intros n <-; cbn [length CString.strncpy]; [by eexists|].
    destruct (x =? 0); [by eexists|]. destruct (IH _ eq_refl) as (nm & ->). by eexists. }
  exists nm. split; [done|]. by apply CString.strncpy_cstr.
Qed.

Lemma dent_spliced (c c' : C) i i' o ent off :
  length ent = 16%nat -> 0 <= o -> 0 <= off -> off mod sizeof_dirent = 0 -> o mod sizeof_dirent = 0 ->
  off + 16 <= MAXFILE * BSIZE ->
  (forall x, 0 <= x < MAXFILE * BSIZE -> fbyte c' i' x = spliced c i o ent x) ->
  dent c' i' off = if off =? o then ent else dent c i off.
Proof.
  unfold sizeof_dirent. intros Hl Ho Hoff Hm1 Hm2 Hmax Hb.
  assert (Hz : zlen ent = 16) by (unfold zlen; lia).
  destruct (Z.eqb_spec off o) as [->|Hne].
  - apply list_eq_same_length with 16%nat; [done|apply length_dent|].
    intros j x y Hj Hx Hy. unfold dent in Hx. rewrite list_lookup_fmap, lookup_seq_lt in Hx by done.
    injection Hx as <-. cbn [Nat.add]. rewrite Hb by lia. unfold spliced.
    rewrite (proj2 (Z.leb_le _ _)), (proj2 (Z.ltb_lt _ _)) by lia. cbn [andb].
    replace (Z.to_nat (o + Z.of_nat j - o)) with j by lia. by rewrite Hy.
  - unfold dent. apply list_fmap_ext. intros j x Hx. apply lookup_seq in Hx as [-> Hj].
    cbn [Nat.add]. rewrite Hb by lia. unfold spliced.
    destruct (Z.leb_spec o (off + Z.of_nat j)), (Z.ltb_spec (off + Z.of_nat j) (o + zlen ent)); try done.
    exfalso. Z.to_euclidean_division_equations. lia.
Qed.

Lemma find_entry_app c i name l1 l2 :
  find_entry c i name (l1 ++ l2) =
  match find_entry c i name l1 with Some r => Some r | None => find_entry c i name l2 end.
Proof.
  induction l1 as [|o l1 IH]; cbn [app find_entry]; [done|]. destruct (hit _ _); [done|exact IH].
Qed.

Lemma same_name_trans s t u : same_name s t = true -> same_name u t = same_name u s.
Proof. unfold same_name. intros H%bool_decide_eq_true. by rewrite H. Qed.

Lemma entry_fields inum nm : 0 <= inum < 2 ^ 16 -> length nm = Z.to_nat DIRSIZ ->
  de_inum (le_bytes 2 inum ++ nm) = inum /\ de_name (le_bytes 2 inum ++ nm) = nm.
Proof.
  intros Hi Hl. unfold de_inum, de_name. split.
  - rewrite slice_app_l by len. rewrite slice_all by len. rewrite le_val_bytes. apply Z.mod_small. done.
  - rewrite slice_app_r by len. rewrite length_le_bytes. by apply slice_all.
Qed.

Lemma find_entry_same c i s t l : same_name s t = true -> find_entry c i s l = find_entry c i t l.
Proof.
  intros H%bool_decide_eq_true. induction l as [|off l IH]; [done|]. cbn [find_entry].
  unfold hit, same_name in *. by rewrite H, IH.
Qed.

(** Filling a free entry, with a name that was absent *)
Lemma find_entry_link c c' i i' name name' nm o inum l :
  (forall off, off ∈ l -> dent c' i' off = if off =? o then le_bytes 2 inum ++ nm else dent c i off) ->
  1 <= inum < 2 ^ 16 -> length nm = Z.to_nat DIRSIZ -> same_name name nm = true ->
  (o ∈ l -> de_inum (dent c i o) = 0) ->
  find_entry c i name l = None ->
  find_entry c' i' name' l =
    if same_name name' name && bool_decide (o ∈ l) then Some (o, inum) else find_entry c i name' l.
Proof.
  intros Hd Hi Hl Hs Hf. destruct (entry_fields inum nm ltac:(lia) Hl) as [Ei En].
  induction l as [|off l IH]; intros Hnone.
  { rewrite bool_decide_false, andb_false_r by set_solver. done. }
  cbn [find_entry] in Hnone |- *. destruct (hit name (dent c i off)) eqn:Eh; [done|].
  specialize (IH ltac:(set_solver) ltac:(set_solver) Hnone).
  rewrite Hd by set_solver. destruct (Z.eqb_spec off o) as [->|Hne].
  - unfold hit. rewrite Ei, En, (Hf ltac:(set_solver)), (proj2 (Z.eqb_neq inum 0)) by lia.
    cbn [negb andb Z.eqb]. rewrite (same_name_trans name nm name') by done.
    rewrite bool_decide_true, andb_true_r by set_solver. destruct (same_name name' name) eqn:E; [done|].
    rewrite IH, ?E. done.
  - destruct (hit name' (dent c i off)) eqn:Eh'.
    + destruct (same_name name' name) eqn:E; [|done]. exfalso. revert Eh Eh'. unfold hit, same_name in *.
      apply bool_decide_eq_true in E. rewrite E. congruence.
    + rewrite IH, (bool_decide_ext (o ∈ off :: l) (o ∈ l)) by set_solver. done.
Qed.

Lemma offsets_elem size off : 0 <= size -> size mod sizeof_dirent = 0 ->
  off ∈ offsets 0 size <-> 0 <= off < size /\ off mod sizeof_dirent = 0.
Proof.
  unfold offsets, sizeof_dirent. intros Hs Hm. rewrite list_elem_of_fmap. split.
  - intros (k & -> & Hk%elem_of_seq). Z.to_euclidean_division_equations. lia.
  - intros [Ho Hom]. exists (Z.to_nat (off / 16)). rewrite elem_of_seq.
    Z.to_euclidean_division_equations. lia.
Qed.

Lemma offsets_snoc size : 0 <= size -> size mod sizeof_dirent = 0 ->
  offsets 0 (size + sizeof_dirent) = offsets 0 size ++ [size].
Proof.
  unfold offsets, sizeof_dirent. intros Hs Hm.
  replace (Z.to_nat ((size + 16 - 0) / 16)) with (Z.to_nat ((size - 0) / 16) + 1)%nat
    by (Z.to_euclidean_division_equations; lia).
  rewrite seq_app, fmap_app. f_equal. cbn. f_equal. Z.to_euclidean_division_equations. lia.
Qed.

Lemma find_entry_ext c c' i i' name l :
  (forall off, off ∈ l -> dent c' i' off = dent c i off) -> find_entry c' i' name l = find_entry c i name l.
Proof.
  intros H. induction l as [|off l IH]; [done|]. cbn [find_entry]. rewrite H by set_solver.
  destruct (hit _ _); [done|]. apply IH. set_solver.
Qed.

(** The map of a directory after an entry is written *)
Lemma dir_map_link c c' i i' name name' nm o inum :
  dir_ok c i -> i_size i + sizeof_dirent <= MAXFILE * BSIZE ->
  1 <= inum < 2 ^ 16 -> length nm = Z.to_nat DIRSIZ -> same_name name nm = true ->
  0 <= o <= i_size i -> o mod sizeof_dirent = 0 -> (o < i_size i -> de_inum (dent c i o) = 0) ->
  i_size i' = Z.max (i_size i) (o + sizeof_dirent) ->
  (forall x, 0 <= x < MAXFILE * BSIZE -> fbyte c' i' x = spliced c i o (le_bytes 2 inum ++ nm) x) ->
  dir_map c i name = None ->
  dir_map c' i' name' = if same_name name' name then Some (o, inum) else dir_map c i name'.
Proof.
  intros Hok Hmax Hi Hl Hs Ho Hom Hfree Hsz Hby. pose proof (do_size _ _ Hok) as Hm.
  pose proof (fo_size _ _ (do_file _ _ Hok)) as Hs0.
  assert (Hel : length (le_bytes 2 inum ++ nm) = 16%nat) by (rewrite length_app, length_le_bytes, Hl; done).
  assert (Hd : forall off, 0 <= off <= i_size i -> off mod sizeof_dirent = 0 ->
    dent c' i' off = if off =? o then le_bytes 2 inum ++ nm else dent c i off).
  { intros off Hoff Hoffm. apply dent_spliced; try done; try lia. unfold sizeof_dirent in *. lia. }
  unfold dir_map. intros Hnone.
  pose proof (fun off => proj1 (offsets_elem (i_size i) off ltac:(lia) Hm)) as Hin.
  assert (Hlink := find_entry_link c c' i i' name name' nm o inum (offsets 0 (i_size i))
    ltac:(intros off [??]%Hin; apply Hd; [lia|done]) Hi Hl Hs ltac:(intros [??]%Hin; apply Hfree; lia) Hnone).
  rewrite Hsz. destruct (decide (o < i_size i)) as [Hlt|Hge].
  - rewrite Z.max_l by (unfold sizeof_dirent in *; Z.to_euclidean_division_equations; lia).
    rewrite Hlink, bool_decide_true, andb_true_r by (by apply offsets_elem; lia || done). done.
  - assert (o = i_size i) as -> by lia. rewrite Z.max_r by (unfold sizeof_dirent; lia).
    rewrite offsets_snoc, find_entry_app by (done || lia). rewrite Hlink.
    rewrite bool_decide_false, andb_false_r by (intros [??]%Hin; lia).
    cbn [find_entry]. rewrite Hd, Z.eqb_refl by (done || lia).
    destruct (entry_fields inum nm ltac:(lia) Hl) as [Ei En].
    unfold hit. rewrite Ei, En, (proj2 (Z.eqb_neq inum 0)) by lia. cbn [negb andb].
    rewrite (same_name_trans name nm name') by done.
    destruct (same_name name' name) eqn:E.
    + replace (find_entry c i name' _) with (@None (Z * Z)); [done|]. rewrite <- Hnone. symmetry.
      by apply find_entry_same.
    + by destruct (find_entry c i name' _).
Qed.

(** C35: dirlink inserts into the directory's map.  Linking a name the directory
    does not have either finds the disk full or returns 0; the directory is
    then in good order, looks the new name up to the new inode number, and
    looks every other name up to what it did before. *)
Theorem dirlink_correct dp (c : C) i name inum :
  dir_ok c i -> c_icache c !! dp = Some i -> 0 <= i_inum i -> length name = Z.to_nat DIRSIZ ->
  1 <= inum < 2 ^ 16 -> i_size i + sizeof_dirent <= MAXFILE * BSIZE -> dir_map c i name = None ->
  ran (dirlink dp name inum c) (fun r c' => r = 0 /\ exists i' o,
    c_icache c' = <[dp := i']> (c_icache c) /\ dir_ok c' i' /\
    forall name', dir_map c' i' name' = if same_name name' name then Some (o, inum) else dir_map c i name').
Proof.
  intros Hok Hip Hin Hn Hi Hmax Hnone. pose proof (fo_size _ _ (do_file _ _ Hok)) as Hs0.
  unfold dirlink. rewrite (bind_run _ _ c None c) by (rewrite (dirlookup_run dp c i), Hnone; done).
  rewrite (bind_run _ _ _ _ _ (inode_at_run dp c i Hip)).
  destruct (dirlink_scan_run dp c i (Z.to_nat (i_size i / sizeof_dirent + 1)) 0) as (o & Eo & Ho & Hom & Hfree);
    [done|done|lia|done|unfold sizeof_dirent; Z.to_euclidean_division_equations; lia|].
  rewrite (bind_run _ _ _ _ _ Eo).
  destruct (strncpy_full name (Z.to_nat DIRSIZ) Hn) as (nm & -> & Hl & Hc).
  rewrite (bind_run _ _ c nm c) by done.
  assert (Hz : zlen (le_bytes 2 inum ++ nm) = sizeof_dirent)
    by (unfold zlen; rewrite length_app, length_le_bytes, Hl; done).
  apply ran_bind. eapply ran_mono; [apply (writei_spec dp c i); try done; [apply Hok|]|].
  - rewrite Hz. lia.
  - intros r c' (-> & i' & Hic & Hok' & _ & Hty & Hsz & Hby). rewrite Hz. cbn [ran ret negb Z.eqb].
    change (sizeof_dirent =? sizeof_dirent) with true. cbn [negb ran ret]. split; [done|]. exists i', o.
    rewrite Hz in Hsz. pose proof (do_size _ _ Hok). split; [done|]. split.
    + split; [done|rewrite Hty; apply (do_type _ _ Hok)|]. rewrite Hsz. unfold sizeof_dirent in *.
      destruct (Z.max_spec (i_size i) (o + 16)) as [[_ ->]|[_ ->]]; [|done].
      Z.to_euclidean_division_equations. lia.
    + intros name'. eapply dir_map_link; try done. unfold same_name. by apply bool_decide_eq_true.
Qed.

(** ** Witnesses: a directory of one entry, "a" with inode 7, and a free entry,
    in block 60 of the disk of [w_core] *)
Definition w_dir : inode := mkInode 1 9 1 false 0 1 T_DIR 0 0 1 32 (60 :: replicate 12 0).
Definition w_name (ch : Z) : list Z := ch :: replicate 13 0.
Definition w_dcore : C :=
  mkCore (<[(1, 60) := ([7; 0] ++ w_name 97) ++ replicate 496 0]> (c_blk w_core))
    (c_sb w_core) [w_dir] [] (c_kmem w_core) (c_pipes w_core) (c_input w_core) [] (c_proc w_core) 0.

Lemma w_dir_ok : dir_ok w_dcore w_dir.
Proof.
  split; [|done|done].
  assert (Hres : forall x, reserved w_dcore w_dir x -> x = 0 \/ x = 33 \/ x = 58).
  { intros x [-> | [-> | (y & Hy & ->)]]; [by left|by right; left|right; right; by apply w_BBLOCK]. }
  assert (Hsl : forall k, 0 <= k <= MAXFILE -> slot w_dcore w_dir k <> 0 -> k = 0) by (apply w_slot).
  assert (Hbm : bitmap_ok w_dcore 1).
  { split; [done|]. intros b Hb. change (c_sb w_dcore) with (c_sb w_core). rewrite w_BBLOCK by done.
    by vm_compute. }
  split; [|done|cbn; change (MAXFILE * BSIZE) with 71680; lia|].
  - split; try done.
    + intros x [-> | [-> | ->]]%Hres; by vm_compute.
    + intros y Hy. change (c_sb w_dcore) with (c_sb w_core). by rewrite w_BBLOCK.
    + intros k Hk ->%Hsl; [|done]. change (slot w_dcore w_dir 0) with 60.
      split; [by vm_compute|]. split; [|done]. intros H%Hres. lia.
    + intros j k Hj Hk Hs E. rewrite (Hsl j Hj Hs). symmetry. apply Hsl; [done|congruence].
  - intros o Ho. change (i_size w_dir) with 32 in Ho. change BSIZE with 512.
    by rewrite Z.div_small by lia.
Qed.

Lemma dirlookup_correct_witness :
  dirlookup 0 (w_name 97) w_dcore = (ip <- iget 1 7 ;; ret (Some (ip, 0))) w_dcore /\
  dirlookup 0 (w_name 98) w_dcore = Ok None w_dcore.
Proof.
  split.
  - apply (dirlookup_correct 0 w_dcore w_dir (w_name 97) w_dir_ok); reflexivity.
  - apply (dirlookup_correct 0 w_dcore w_dir (w_name 98) w_dir_ok); reflexivity.
Defined.

Lemma dirlink_correct_witness :
  ran (dirlink 0 (w_name 98) 9 w_dcore) (fun r c' => r = 0 /\ exists i' o,
    c_icache c' = <[0%nat := i']> (c_icache w_dcore) /\ dir_ok c' i' /\
    forall name', dir_map c' i' name' = if same_name name' (w_name 98) then Some (o, 9) else dir_map w_dcore w_dir name').
Proof.
  apply (dirlink_correct 0 w_dcore w_dir (w_name 98) 9);
    [exact w_dir_ok|reflexivity|vm_compute; discriminate|reflexivity|lia|vm_compute; discriminate|reflexivity].
Defined.

End FsDir.
