(* ===== verification/Vm.v ===== *)
(** * Virtual memory: vm.c

    Physical memory is a map from page addresses, in the kernel's mapping at
    KERNBASE, to the 4096 bytes of the page; a page directory or page table is
    such a page, read and written a word at a time.  A pointer is an address; 0
    is the null pointer.  An access to an address without memory is undefined.
    [end_] and [data_] are the symbols of the linker script. *)
From S2P Require Import Prelude Words Params Kalloc.

Module Vm.
Import Kalloc.

(** ** mmu.h and memlayout.h *)

Definition PTE_P : Z := 1.
Definition PTE_W : Z := 2.
Definition PTE_U : Z := 4.
Definition NPDENTRIES : Z := 1024.
Definition PTXSHIFT : Z := 12.
Definition PDXSHIFT : Z := 22.
Definition KERNLINK : Z := KERNBASE + EXTMEM.

Definition PDX (va : Z) : Z := Z.land (Z.shiftr (u32 va) PDXSHIFT) 1023.
Definition PTX (va : Z) : Z := Z.land (Z.shiftr (u32 va) PTXSHIFT) 1023.
Definition PGADDR (d t o : Z) : Z := u32 (Z.lor (Z.lor (Z.shiftl d PDXSHIFT) (Z.shiftl t PTXSHIFT)) o).
Definition PGROUNDDOWN (a : Z) : Z := Z.land (u32 a) (u32 (Z.lnot (PGSIZE - 1))).
Definition PTE_ADDR (pte : Z) : Z := Z.land pte (u32 (Z.lnot 4095)).
Definition PTE_FLAGS (pte : Z) : Z := Z.land pte 4095.

(** memlayout.h:P2V *)
Definition P2V {S} (a : Z) : M S Z :=
  if a >? KERNBASE then panic "P2V on address > KERNBASE" else ret (u32 (a + KERNBASE)).

(** ** Memory *)

(** The allocator, the pages of physical memory, [kpgdir] and the page-table
    register *)
Record vm := mkVm { v_kmem : kmem; v_mem : gmap Z (list Z); v_kpgdir : Z; v_cr3 : Z }.

Definition set_kmem (k : kmem) (s : vm) : vm := mkVm k (v_mem s) (v_kpgdir s) (v_cr3 s).
Definition set_mem (m : gmap Z (list Z)) (s : vm) : vm := mkVm (v_kmem s) m (v_kpgdir s) (v_cr3 s).
Definition set_kpgdir (p : Z) (s : vm) : vm := mkVm (v_kmem s) (v_mem s) p (v_cr3 s).
Definition lcr3 (v : Z) : M vm unit := modify (fun s => mkVm (v_kmem s) (v_mem s) (v_kpgdir s) v).

Definition word_at (off : nat) (pg : list Z) : Z := le_val (slice off 4 pg).
Definition base (a : Z) : Z := a - a mod PGSIZE.
Definition offset (a : Z) : nat := Z.to_nat (a mod PGSIZE).

Definition page (p : Z) : M vm (list Z) :=
  m <- gets v_mem ;; from_option_undef (m !! p).
Definition put_page (p : Z) (pg : list Z) : M vm unit := modify (fun s => set_mem (<[p := pg]> (v_mem s)) s).

(** [*a] for a word pointer, and [*a = w] *)
Definition rd (a : Z) : M vm Z := pg <- page (base a) ;; ret (word_at (offset a) pg).
Definition wr (a w : Z) : M vm unit :=
  pg <- page (base a) ;; put_page (base a) (splice (offset a) (le_bytes 4 w) pg).

(** [memset(p, c, PGSIZE)] *)
Definition memset_page (p c : Z) : M vm unit := page p ;; put_page p (replicate (Z.to_nat PGSIZE) c).

(** [memmove(p, src, n)] inside the page of [p], [src] being [n] bytes *)
Definition copy_to (p : Z) (src : list Z) : M vm unit :=
  pg <- page (base p) ;; put_page (base p) (splice (offset p) src pg).

Section vm.
Context (end_ data_ : Z).

(** kalloc.c:kfree on the memory: the page is filled with 1, and its first word
    becomes the link of the free list. *)
Definition kfree (v : Z) : M vm unit :=
  r <- gets (fun s => freelist (v_kmem s)) ;;
  zoom v_kmem set_kmem (Kalloc.kfree end_ v) ;;
  put_page v (splice 0 (le_bytes 4 r) (replicate (Z.to_nat PGSIZE) 1)).

Definition kalloc : M vm Z := zoom v_kmem set_kmem Kalloc.kalloc.

(** ** Page tables *)

(** vm.c:walkpgdir *)
Definition walkpgdir (pgdir va : Z) (alloc : bool) : M vm Z :=
  let pde := pgdir + 4 * PDX va in
  e <- rd pde ;;
  if negb (Z.land e PTE_P =? 0) then
    pgtab <- P2V (PTE_ADDR e) ;;
    ret (pgtab + 4 * PTX va)
  else if negb alloc then ret 0
  else
    pgtab <- kalloc ;;
    if pgtab =? 0 then ret 0
    else
      memset_page pgtab 0 ;;
      pa <- V2P pgtab ;;
      wr pde (Z.lor (Z.lor (Z.lor pa PTE_P) PTE_W) PTE_U) ;;
      ret (pgtab + 4 * PTX va).

(** The loop of mappages; it runs until [a == last]. *)
Fixpoint mappages_loop (fuel : nat) (pgdir a last pa perm : Z) : M vm Z :=
  match fuel with
  | O => undef
  | S fuel' =>
      pte <- walkpgdir pgdir a true ;;
      if pte =? 0 then ret (-1)
      else
        e <- rd pte ;;
        if negb (Z.land e PTE_P =? 0) then panic "remap"
        else
          wr pte (Z.lor (Z.lor pa perm) PTE_P) ;;
          if a =? last then ret 0
          else mappages_loop fuel' pgdir (u32 (a + PGSIZE)) last (u32 (pa + PGSIZE)) perm
  end.

(** vm.c:mappages *)
Definition mappages (pgdir va size pa perm : Z) : M vm Z :=
  let a := PGROUNDDOWN va in
  let last := PGROUNDDOWN (u32 (va + size - 1)) in
  mappages_loop (S (Z.to_nat (u32 (last - a) / PGSIZE))) pgdir a last pa perm.

(** The loop of deallocuvm over [a] *)
Fixpoint deallocuvm_loop (fuel : nat) (pgdir a oldsz : Z) : M vm unit :=
  if a <? oldsz then
    match fuel with
    | O => undef
    | S fuel' =>
        pte <- walkpgdir pgdir a false ;;
        if pte =? 0 then deallocuvm_loop fuel' pgdir (u32 (u32 (PGADDR (PDX a + 1) 0 0 - PGSIZE) + PGSIZE)) oldsz
        else
          e <- rd pte ;;
          whenM (negb (Z.land e PTE_P =? 0))
            (if PTE_ADDR e =? 0 then panic "kfree"
             else v <- P2V (PTE_ADDR e) ;; kfree v ;; wr pte 0) ;;
          deallocuvm_loop fuel' pgdir (u32 (a + PGSIZE)) oldsz
    end
  else ret tt.

(** vm.c:deallocuvm *)
Definition deallocuvm (pgdir oldsz newsz : Z) : M vm Z :=
  if newsz >=? oldsz then ret oldsz
  else
    let a := PGROUNDUP newsz in
    deallocuvm_loop (Z.to_nat (oldsz / PGSIZE + 1)) pgdir a oldsz ;;
    ret newsz.

(** The loop of freevm over the page directory *)
Fixpoint free_tables (n : nat) (pgdir i : Z) : M vm unit :=
  match n with
  | O => ret tt
  | S n' =>
      e <- rd (pgdir + 4 * i) ;;
      whenM (negb (Z.land e PTE_P =? 0)) (v <- P2V (PTE_ADDR e) ;; kfree v) ;;
      free_tables n' pgdir (i + 1)
  end.

(** vm.c:freevm *)
Definition freevm (pgdir : Z) : M vm unit :=
  if pgdir =? 0 then panic "freevm: no pgdir"
  else
    deallocuvm pgdir KERNBASE 0 ;;
    free_tables (Z.to_nat NPDENTRIES) pgdir 0 ;;
    kfree pgdir.

(** vm.c:struct kmap and the table kmap *)
Record kmap_entry := mkKmap { k_virt : Z; k_phys_start : Z; k_phys_end : Z; k_perm : Z }.
Definition kmap : list kmap_entry :=
  [mkKmap KERNBASE 0 EXTMEM PTE_W;
   mkKmap KERNLINK (KERNLINK - KERNBASE) (data_ - KERNBASE) 0;
   mkKmap data_ (data_ - KERNBASE) PHYSTOP PTE_W;
   mkKmap DEVSPACE DEVSPACE 0 PTE_W].

(** The loop of setupkvm *)
Fixpoint map_kernel (pgdir : Z) (ks : list kmap_entry) : M vm Z :=
  match ks with
  | [] => ret pgdir
  | k :: ks' =>
      r <- mappages pgdir (k_virt k) (u32 (k_phys_end k - k_phys_start k)) (k_phys_start k) (k_perm k) ;;
      if r <? 0 then freevm pgdir ;; ret 0
      else map_kernel pgdir ks'
  end.

(** vm.c:setupkvm *)
Definition setupkvm : M vm Z :=
  pgdir <- kalloc ;;
  if pgdir =? 0 then ret 0
  else
    memset_page pgdir 0 ;;
    top <- P2V PHYSTOP ;;
    if top >? DEVSPACE then panic "PHYSTOP too high"
    else map_kernel pgdir kmap.

(** vm.c:switchkvm *)
Definition switchkvm : M vm unit :=
  p <- gets v_kpgdir ;; pa <- V2P p ;; lcr3 pa.

(** vm.c:kvmalloc *)
Definition kvmalloc : M vm unit :=
  p <- setupkvm ;; modify (set_kpgdir p) ;; switchkvm.

(** ** User memory *)

(** vm.c:inituvm; [init] are the [sz] bytes of the program. *)
Definition inituvm (pgdir : Z) (init : list Z) : M vm unit :=
  if zlen init >=? PGSIZE then panic "inituvm: more than a page"
  else
    mem <- kalloc ;;
    memset_page mem 0 ;;
    pa <- V2P mem ;;
    mappages pgdir 0 PGSIZE pa (Z.lor PTE_W PTE_U) ;;
    copy_to mem init.

(** The loop of allocuvm over [a] *)
Fixpoint allocuvm_loop (fuel : nat) (pgdir a oldsz newsz : Z) : M vm Z :=
  if a <? newsz then
    match fuel with
    | O => undef
    | S fuel' =>
        mem <- kalloc ;;
        if mem =? 0 then deallocuvm pgdir newsz oldsz ;; ret 0
        else
          memset_page mem 0 ;;
          pa <- V2P mem ;;
          r <- mappages pgdir a PGSIZE pa (Z.lor PTE_W PTE_U) ;;
          if r <? 0 then deallocuvm pgdir newsz oldsz ;; kfree mem ;; ret 0
          else allocuvm_loop fuel' pgdir (u32 (a + PGSIZE)) oldsz newsz
    end
  else ret newsz.

(** vm.c:allocuvm *)
Definition allocuvm (pgdir oldsz newsz : Z) : M vm Z :=
  if newsz >=? KERNBASE then ret 0
  else if newsz <? oldsz then ret oldsz
  else allocuvm_loop (Z.to_nat (newsz / PGSIZE + 1)) pgdir (PGROUNDUP oldsz) oldsz newsz.

(** vm.c:clearpteu *)
Definition clearpteu (pgdir uva : Z) : M vm unit :=
  pte <- walkpgdir pgdir uva false ;;
  if pte =? 0 then panic "clearpteu"
  else e <- rd pte ;; wr pte (Z.land e (u32 (Z.lnot PTE_U))).

(** The loop of copyuvm over [i]; [false] is the jump to [bad]. *)
Fixpoint copyuvm_loop (fuel : nat) (pgdir d i sz : Z) : M vm bool :=
  if i <? sz then
    match fuel with
    | O => undef
    | S fuel' =>
        pte <- walkpgdir pgdir i false ;;
        if pte =? 0 then panic "copyuvm: pte should exist"
        else
          e <- rd pte ;;
          if Z.land e PTE_P =? 0 then panic "copyuvm: page not present"
          else
            mem <- kalloc ;;
            if mem =? 0 then ret false
            else
              src <- P2V (PTE_ADDR e) ;;
              pg <- page src ;;
              copy_to mem pg ;;
              pa <- V2P mem ;;
              r <- mappages d i PGSIZE pa (PTE_FLAGS e) ;;
              if r <? 0 then kfree mem ;; ret false
              else copyuvm_loop fuel' pgdir d (u32 (i + PGSIZE)) sz
    end
  else ret true.

(** vm.c:copyuvm *)
Definition copyuvm (pgdir sz : Z) : M vm Z :=
  d <- setupkvm ;;
  if d =? 0 then ret 0
  else
    b <- copyuvm_loop (Z.to_nat (sz / PGSIZE + 1)) pgdir d 0 sz ;;
    if b : bool then ret d
    else freevm d ;; ret 0.

(** vm.c:uva2ka; reading through a null [pte] is undefined. *)
Definition uva2ka (pgdir uva : Z) : M vm Z :=
  pte <- walkpgdir pgdir uva false ;;
  if pte =? 0 then undef
  else
    e <- rd pte ;;
    if Z.land e PTE_P =? 0 then ret 0
    else if Z.land e PTE_U =? 0 then ret 0
    else P2V (PTE_ADDR e).

(** vm.c:copyout; [src] are the [len] bytes at [p].  Every round copies at least
    one byte. *)
Fixpoint copyout_loop (fuel : nat) (pgdir va : Z) (src : list Z) : M vm Z :=
  if 0 <? zlen src then
    match fuel with
    | O => undef
    | S fuel' =>
        let va0 := PGROUNDDOWN va in
        pa0 <- uva2ka pgdir va0 ;;
        if pa0 =? 0 then ret (-1)
        else
          let n := Z.min (PGSIZE - (va - va0)) (zlen src) in
          copy_to (pa0 + (va - va0)) (take (Z.to_nat n) src) ;;
          copyout_loop fuel' pgdir (u32 (va0 + PGSIZE)) (drop (Z.to_nat n) src)
    end
  else ret 0.
Definition copyout (pgdir va : Z) (src : list Z) : M vm Z := copyout_loop (length src) pgdir va src.

End vm.

End Vm.
