(* ===== verification/VmRep.v ===== *)
(** * Address spaces as maps

    A page directory with its page tables represents an address space: a map
    from page numbers to page-table entries.  [own] says which pages the free
    list and the address spaces hold, [rep] that the words of the tables spell
    the map; the routines of vm.c on one page are lemmas about these. *)
From S2P Require Import Prelude Words Params Kalloc Vm.

Module VmRep.
Import Kalloc Vm.

(** ** Arithmetic of addresses and entries *)

(** The number of the first kernel page, and the number of pages *)
Definition KPN : Z := 2 ^ 19.
Definition NPN : Z := 2 ^ 20.

Ltac consts := unfold KPN, NPN, KERNLINK, KERNBASE, PGSIZE, PHYSTOP, EXTMEM, DEVSPACE, PTE_P, PTE_W, PTE_U,
  NPDENTRIES, PTXSHIFT, PDXSHIFT in *.

(** Membership in concatenations *)
Ltac memb := intros;
  repeat match goal with H : _ ∈ _ ++ _ |- _ => rewrite ?elem_of_app, ?elem_of_cons, ?elem_of_app in H | H : _ ∈ _ :: _ |- _ => rewrite ?elem_of_cons in H end;
  rewrite ?elem_of_app, ?elem_of_cons, ?elem_of_app; first [tauto | match goal with H : forall p, p ∈ _ -> p ∈ _ |- ?q ∈ _ \/ _ => specialize (H q); tauto end].

Lemma PDX_pn pn : 0 <= pn < NPN -> PDX (pn * PGSIZE) = pn / 1024.
Proof.
  intros H. unfold PDX. consts. rewrite u32_small by lia. change 1023 with (Z.ones 10).
  rewrite Z.land_ones, Z.shiftr_div_pow2 by lia. rewrite Z.mod_small; [|split; [apply Z.div_pos; lia|apply Z.div_lt_upper_bound; lia]].
  change (2 ^ 22) with (4096 * 1024). rewrite <- Z.div_div by lia. by rewrite Z.div_mul.
Qed.

Lemma PTX_pn pn : 0 <= pn < NPN -> PTX (pn * PGSIZE) = pn mod 1024.
Proof.
  intros H. unfold PTX. consts. rewrite u32_small by lia. change 1023 with (Z.ones 10).
  rewrite Z.land_ones, Z.shiftr_div_pow2 by lia. by rewrite Z.div_mul.
Qed.

Lemma PGROUNDDOWN_round a : 0 <= a < 2 ^ 32 -> PGROUNDDOWN a = a / PGSIZE * PGSIZE.
Proof. intros H. unfold PGROUNDDOWN. rewrite u32_small by done. apply (land_mask_round a 12); lia. Qed.

Lemma PTE_ADDR_round w : 0 <= w < 2 ^ 32 -> PTE_ADDR w = w / PGSIZE * PGSIZE.
Proof. intros H. unfold PTE_ADDR. by apply (land_mask_round w 12). Qed.

Lemma PTE_FLAGS_mod w : PTE_FLAGS w = w mod PGSIZE.
Proof. unfold PTE_FLAGS. change 4095 with (Z.ones 12). by rewrite Z.land_ones. Qed.

Lemma PTE_P_mod w : Z.land w PTE_P = w mod 2.
Proof. unfold PTE_P. change 1 with (Z.ones 1). by rewrite Z.land_ones. Qed.

Lemma aligned_div a : a mod PGSIZE = 0 -> a / PGSIZE * PGSIZE = a.
Proof. intros H. pose proof (Z.div_mod a PGSIZE ltac:(done)). lia. Qed.

(** Flags are or-ed into the low bits of a page address. *)
Lemma lor_flags pa f : pa mod PGSIZE = 0 -> 0 <= f < PGSIZE -> Z.lor pa f = pa + f.
Proof.
  intros Hpa Hf. rewrite <- Z.add_lor_land. enough (Z.land pa f = 0) by lia. apply Z.bits_inj'. intros i Hi.
  rewrite Z.land_spec, Z.bits_0. destruct (Z.ltb_spec i 12).
  - rewrite <- (aligned_div pa Hpa). change PGSIZE with (2 ^ 12). by rewrite Z.mul_pow2_bits_low by lia.
  - rewrite (testbit_above f 12) by (consts; lia). by rewrite andb_false_r.
Qed.

(** An entry with its present bit; [perm] may have it already. *)
Definition entry (pa perm : Z) : Z := pa + Z.lor perm PTE_P.

Lemma lor_P_range f : 0 <= f < PGSIZE -> 0 <= Z.lor f PTE_P < PGSIZE.
Proof.
  intros Hf. split; [apply Z.lor_nonneg; consts; lia|]. destruct (Z.eq_dec f 0) as [->|]; [done|].
  assert (Hp : 0 < Z.lor f PTE_P). { assert (0 <= Z.lor f PTE_P) by (apply Z.lor_nonneg; consts; lia).
    assert (Z.lor f PTE_P <> 0); [|lia]. intros E. apply Z.lor_eq_0_iff in E as [_ E]. done. }
  apply Z.log2_lt_cancel. rewrite Z.log2_lor by (consts; lia). change (Z.log2 PGSIZE) with 12.
  apply Z.max_lub_lt; [|done]. apply Z.log2_lt_pow2; [lia|]. consts. lia.
Qed.

Lemma lor_P_odd f : (Z.lor f PTE_P) mod 2 = 1.
Proof.
  rewrite <- Z.bit0_mod. rewrite Z.lor_spec. unfold PTE_P. change (Z.testbit 1 0) with true. by rewrite orb_true_r.
Qed.

Lemma entry_lor pa perm : pa mod PGSIZE = 0 -> 0 <= perm < PGSIZE ->
  Z.lor (Z.lor pa perm) PTE_P = entry pa perm.
Proof. intros Hpa Hf. rewrite <- Z.lor_assoc. apply lor_flags; [done|by apply lor_P_range]. Qed.

Lemma entry_props pa perm : pa mod PGSIZE = 0 -> 0 <= pa < 2 ^ 32 -> 0 <= perm < PGSIZE ->
  0 <= entry pa perm < 2 ^ 32 /\ entry pa perm mod 2 = 1 /\ PTE_ADDR (entry pa perm) = pa /\
  PTE_FLAGS (entry pa perm) = Z.lor perm PTE_P.
Proof.
  intros Hpa Hr Hf. pose proof (lor_P_range perm Hf) as Hl. unfold entry.
  assert (Hdiv : pa = pa / PGSIZE * PGSIZE) by (by rewrite aligned_div).
  assert (Hb : 0 <= pa + Z.lor perm PTE_P < 2 ^ 32).
  { consts. assert (pa / 4096 < 2 ^ 20) by (apply Z.div_lt_upper_bound; lia). lia. }
  split; [done|]. split; [|split].
  - rewrite Hdiv, <- lor_P_odd with (f := perm). unfold PGSIZE. replace (pa / 4096 * 4096) with (pa / 4096 * 2048 * 2) by lia.
    rewrite Z.add_comm. by rewrite Z.mod_add.
  - rewrite PTE_ADDR_round by done. rewrite Hdiv at 1. rewrite Z.div_add_l by done. rewrite (Z.div_small (Z.lor _ _)) by done. lia.
  - rewrite PTE_FLAGS_mod. rewrite Hdiv at 1. rewrite Z.add_comm, Z.mod_add by done. by apply Z.mod_small.
Qed.

(** The page an entry refers to, as the kernel addresses it *)
Definition frame (w : Z) : Z := PTE_ADDR w + KERNBASE.

(** ** Words of memory *)

Definition word (m : gmap Z (list Z)) (a : Z) : option Z := word_at (offset a) <$> m !! base a.

Lemma base_at p j : p mod PGSIZE = 0 -> 0 <= j < 1024 -> base (p + 4 * j) = p.
Proof.
  intros Hp Hj. unfold base. rewrite <- Z.add_mod_idemp_l, Hp by done. rewrite Z.add_0_l, Z.mod_small by (consts; lia). lia.
Qed.
Lemma offset_at p j : p mod PGSIZE = 0 -> 0 <= j < 1024 -> offset (p + 4 * j) = Z.to_nat (4 * j).
Proof.
  intros Hp Hj. unfold offset. rewrite <- Z.add_mod_idemp_l, Hp by done. by rewrite Z.add_0_l, Z.mod_small by (consts; lia).
Qed.

Lemma word_put_eq m p pg j w : p mod PGSIZE = 0 -> 0 <= j < 1024 -> length pg = Z.to_nat PGSIZE -> 0 <= w < 2 ^ 32 ->
  word (<[p := splice (offset (p + 4 * j)) (le_bytes 4 w) pg]> m) (p + 4 * j) = Some w.
Proof.
  intros Hp Hj Hl Hw. unfold word. rewrite base_at, offset_at by done. rewrite lookup_insert_eq. cbn. unfold word_at.
  rewrite slice_splice by (rewrite ?length_le_bytes; consts; lia). f_equal. by apply u32_le_val.
Qed.

Lemma word_put_ne m p pg j k w : p mod PGSIZE = 0 -> 0 <= j < 1024 -> 0 <= k < 1024 -> j <> k ->
  m !! p = Some pg -> length pg = Z.to_nat PGSIZE ->
  word (<[p := splice (offset (p + 4 * j)) (le_bytes 4 w) pg]> m) (p + 4 * k) = word m (p + 4 * k).
Proof.
  intros Hp Hj Hk Hne Hpg Hl. unfold word. rewrite !base_at, !offset_at by done. rewrite lookup_insert_eq, Hpg. cbn.
  unfold word_at. f_equal. f_equal. destruct (Z.lt_ge_cases j k).
  - apply slice_splice_after; rewrite length_le_bytes; consts; lia.
  - apply slice_splice_before; consts; lia.
Qed.

Lemma word_frame m m' p j : p mod PGSIZE = 0 -> 0 <= j < 1024 -> m' !! p = m !! p -> word m' (p + 4 * j) = word m (p + 4 * j).
Proof. intros Hp Hj E. unfold word. by rewrite base_at, E by done. Qed.

Lemma word_zero m p j c : p mod PGSIZE = 0 -> 0 <= j < 1024 -> c = 0 ->
  word (<[p := replicate (Z.to_nat PGSIZE) c]> m) (p + 4 * j) = Some 0.
Proof.
  intros Hp Hj ->. unfold word. rewrite base_at, offset_at by done. rewrite lookup_insert_eq. cbn. unfold word_at, slice.
  rewrite drop_replicate, take_replicate. replace (_ `min` _)%nat with 4%nat by (consts; lia). done.
Qed.

Lemma rd_run s a w : word (v_mem s) a = Some w -> rd a s = Ok w s.
Proof.
  unfold word, rd, page, bind, gets. destruct (v_mem s !! base a); [|done]. cbn. by intros [= ->].
Qed.

(** ** Address spaces *)

(** The page directory, the page tables by directory index, and the entries by
    page number *)
Record space := mkSpace { sp_dir : Z; sp_tabs : gmap Z Z; sp_ptes : gmap Z Z }.

Definition add_tab (i t : Z) (sp : space) : space := mkSpace (sp_dir sp) (<[i := t]> (sp_tabs sp)) (sp_ptes sp).
Definition set_ptes (f : gmap Z Z) (sp : space) : space := mkSpace (sp_dir sp) (sp_tabs sp) f.

(** The pages of the tables, and the pages of user memory *)
Definition tables (sp : space) : list Z := sp_dir sp :: (map_to_list (sp_tabs sp)).*2.
Definition user_ptes (f : gmap Z Z) : gmap Z Z := filter (fun e => e.1 < KPN) f.
Definition upages (sp : space) : list Z := frame <$> (map_to_list (user_ptes (sp_ptes sp))).*2.

(** The pages an entry adds to user memory *)
Definition claim (pn w : Z) : list Z := if decide (pn < KPN) then [frame w] else [].

Record rep (m : gmap Z (list Z)) (sp : space) : Prop := mkRep {
  r_dir : forall i, 0 <= i < 1024 -> word m (sp_dir sp + 4 * i) =
    Some (match sp_tabs sp !! i with Some t => entry (t - KERNBASE) (Z.lor PTE_W PTE_U) | None => 0 end);
  r_tab : forall i t j, sp_tabs sp !! i = Some t -> 0 <= j < 1024 ->
    word m (t + 4 * j) = Some (default 0 (sp_ptes sp !! (1024 * i + j)));
  r_idx : forall i t, sp_tabs sp !! i = Some t -> 0 <= i < 1024;
  r_pte : forall pn w, sp_ptes sp !! pn = Some w -> is_Some (sp_tabs sp !! (pn / 1024)) /\ 0 <= w < 2 ^ 32 /\ w mod 2 = 1
}.

Section own.
Context (end_ : Z).
#[local] Abbreviation page_ok := (Kalloc.page_ok end_).

(** The free list and the pages that are held *)
Record own (s : vm) (l held : list Z) : Prop := mkOwn {
  o_free : free_pages (v_kmem s) l;
  o_nodup : NoDup (l ++ held);
  o_page : forall p, p ∈ l ++ held -> page_ok p /\ exists pg, v_mem s !! p = Some pg /\ length pg = Z.to_nat PGSIZE
}.

Definition keeps (s s' : vm) (ps : list Z) : Prop := forall p, p ∈ ps -> v_mem s' !! p = v_mem s !! p.

(** An address space, beside other pages [oth] that are in use *)
Definition St (s : vm) (l : list Z) (sp : space) (oth : list Z) : Prop :=
  own s l (tables sp ++ upages sp ++ oth) /\ rep (v_mem s) sp.

Lemma keeps_refl s ps : keeps s s ps.
Proof. done. Qed.
Lemma keeps_trans s1 s2 s3 ps : keeps s1 s2 ps -> keeps s2 s3 ps -> keeps s1 s3 ps.
Proof. intros H1 H2 p Hp. by rewrite H2, H1. Qed.
Lemma keeps_sub s s' ps qs : keeps s s' ps -> (forall p, p ∈ qs -> p ∈ ps) -> keeps s s' qs.
Proof. intros H Hs p Hp. by apply H, Hs. Qed.

Lemma own_perm s l held held' : held ≡ₚ held' -> own s l held -> own s l held'.
Proof.
  intros Hp [Hf Hn Ho]. split; [done| |].
  - by rewrite <- Hp.
  - intros p. rewrite <- Hp. apply Ho.
Qed.

Lemma own_free_perm s l l' held : l ≡ₚ l' -> free_pages (v_kmem s) l' -> own s l held -> own s l' held.
Proof.
  intros Hp Hf' [Hf Hn Ho]. split; [done| |].
  - by rewrite <- Hp.
  - intros p. rewrite <- Hp. apply Ho.
Qed.

Lemma own_held s l held p : own s l held -> p ∈ held -> page_ok p /\ exists pg, v_mem s !! p = Some pg /\ length pg = Z.to_nat PGSIZE.
Proof. intros H Hp. apply (o_page _ _ _ H). set_solver. Qed.

(** Writing a page that is in use *)
Lemma own_put s l held p pg : own s l held -> p ∈ held -> length pg = Z.to_nat PGSIZE ->
  own (set_mem (<[p := pg]> (v_mem s)) s) l held.
Proof.
  intros [Hf Hn Ho] Hp Hl. split; [done|done|]. intros q Hq. destruct (Ho q Hq) as [Hk Hm]. split; [done|]. cbn.
  destruct (decide (q = p)) as [->|Hne]; [rewrite lookup_insert_eq; eauto|by rewrite lookup_insert_ne].
Qed.

Lemma put_keeps s p pg ps : p ∉ ps -> keeps s (set_mem (<[p := pg]> (v_mem s)) s) ps.
Proof. intros Hn q Hq. cbn. apply lookup_insert_ne. set_solver. Qed.

Lemma kalloc_none s held : own s [] held -> kalloc s = Ok 0 s.
Proof.
  intros [Hf _ _]. unfold kalloc, zoom. rewrite (kalloc_run_empty _ Hf). by destruct s.
Qed.

Lemma kalloc_own s p l held : own s (p :: l) held ->
  exists s', kalloc s = Ok p s' /\ own s' l (p :: held) /\ v_mem s' = v_mem s /\ p <> 0.
Proof.
  intros H. destruct (o_page _ _ _ H p) as [Hk _]; [set_solver|]. destruct H as [Hf Hn Ho].
  destruct (kalloc_run _ _ _ Hf) as (k' & E & Hf' & _). exists (set_kmem k' s). split; [|split; [|split; [done|]]].
  - unfold kalloc, zoom. by rewrite E.
  - split; [done| |].
    + by rewrite <- Permutation_middle.
    + intros q Hq. apply Ho. set_solver.
  - destruct Hk as (_ & _ & Hk). consts. lia.
Qed.

Lemma kfree_own s l p held : own s l (p :: held) ->
  exists s', kfree end_ p s = Ok tt s' /\ own s' (p :: l) held /\ keeps s s' held.
Proof.
  intros H. destruct (o_page _ _ _ H p) as [Hk _]; [set_solver|]. destruct H as [Hf Hn Ho].
  rewrite <- Permutation_middle in Hn. apply NoDup_cons in Hn as [Hnp Hn].
  eexists. split; [|split; [split|]].
  - unfold kfree. rewrite gets_bind. erewrite bind_run by (unfold zoom; rewrite kfree_run by done; reflexivity).
    unfold put_page, modify. reflexivity.
  - apply (kfree_free_pages end_); [done| |done]. set_solver.
  - cbn. by constructor.
  - intros q Hq. cbn in *. destruct (decide (q = p)) as [->|Hne].
    + split; [done|]. rewrite lookup_insert_eq. eexists. split; [done|]. rewrite length_splice; rewrite ?length_le_bytes, length_replicate; consts; lia.
    + rewrite lookup_insert_ne by done. apply Ho. set_solver.
  - intros q Hq. cbn. apply lookup_insert_ne. set_solver.
Qed.

(** ** The pages of an address space *)

Lemma tab_in sp i t : sp_tabs sp !! i = Some t -> t ∈ tables sp.
Proof.
  intros H. right. apply list_elem_of_fmap. exists (i, t). split; [done|]. by apply elem_of_map_to_list.
Qed.

Lemma tables_in sp p : p ∈ tables sp <-> p = sp_dir sp \/ exists i, sp_tabs sp !! i = Some p.
Proof.
  unfold tables. rewrite elem_of_cons, list_elem_of_fmap. split.
  - intros [->|([i t] & -> & Hi)]; [by left|]. right. exists i. by apply elem_of_map_to_list.
  - intros [->|[i Hi]]; [by left|]. right. exists (i, p). split; [done|]. by apply elem_of_map_to_list.
Qed.

Lemma user_lookup f pn : pn < KPN -> user_ptes f !! pn = f !! pn.
Proof.
  intros H. unfold user_ptes. apply option_eq. intros w. rewrite map_lookup_filter_Some. cbn. naive_solver.
Qed.

Lemma upage_in sp pn w : sp_ptes sp !! pn = Some w -> pn < KPN -> frame w ∈ upages sp.
Proof.
  intros H Hk. apply list_elem_of_fmap_2. apply list_elem_of_fmap. exists (pn, w). split; [done|].
  apply elem_of_map_to_list. by rewrite user_lookup.
Qed.

Lemma tables_add sp i p : sp_tabs sp !! i = None -> tables (add_tab i p sp) ≡ₚ p :: tables sp.
Proof.
  intros H. unfold tables. cbn. rewrite (map_to_list_insert _ _ _ H). cbn. apply perm_swap.
Qed.

Lemma upages_insert sp pn w : sp_ptes sp !! pn = None ->
  upages (set_ptes (<[pn := w]> (sp_ptes sp)) sp) ≡ₚ claim pn w ++ upages sp.
Proof.
  intros H. unfold upages, claim, user_ptes. cbn. destruct (decide (pn < KPN)) as [Hk|Hk].
  - rewrite map_filter_insert_True by done. rewrite map_to_list_insert; [done|].
    apply map_lookup_filter_None. by left.
  - rewrite map_filter_insert_not by naive_solver. done.
Qed.

Lemma upages_delete sp pn w : sp_ptes sp !! pn = Some w ->
  upages sp ≡ₚ claim pn w ++ upages (set_ptes (delete pn (sp_ptes sp)) sp).
Proof.
  intros H. rewrite <- (upages_insert (set_ptes (delete pn (sp_ptes sp)) sp) pn w) by (cbn; apply lookup_delete_eq).
  cbn. rewrite insert_delete_id by done. by destruct sp.
Qed.

(** ** The words of an address space *)

Lemma rep_frame m m' sp : rep m sp -> (forall p, p ∈ tables sp -> p mod PGSIZE = 0 /\ m' !! p = m !! p) -> rep m' sp.
Proof.
  intros [Hd Ht Hi Hp] Hf. split; [| |done|done].
  - intros i Hr. rewrite <- Hd by done. apply word_frame; [|done|]; apply Hf; by left.
  - intros i t j Hit Hj. rewrite <- (Ht i t j) by done. apply tab_in in Hit. apply word_frame; [|done|]; by apply Hf.
Qed.

Lemma pn_split pn : 1024 * (pn / 1024) + pn mod 1024 = pn.
Proof. symmetry. by apply Z.div_mod. Qed.

Lemma tabs_inj sp i j t : NoDup (tables sp) -> sp_tabs sp !! i = Some t -> sp_tabs sp !! j = Some t -> i = j.
Proof.
  intros Hn Hi Hj. destruct (decide (i = j)) as [|Hne]; [done|]. exfalso. apply NoDup_cons in Hn as [_ Hn].
  rewrite <- (insert_delete_id (sp_tabs sp) i t Hi) in Hn. rewrite map_to_list_insert in Hn by apply lookup_delete_eq.
  apply NoDup_cons in Hn as [Hn _]. apply Hn. cbn. apply list_elem_of_fmap. exists (j, t). split; [done|].
  apply elem_of_map_to_list. by rewrite lookup_delete_ne.
Qed.

Lemma tab_ne_dir sp i t : NoDup (tables sp) -> sp_tabs sp !! i = Some t -> t <> sp_dir sp.
Proof.
  intros Hn Ht ->. apply NoDup_cons in Hn as [Hn _]. apply Hn. apply list_elem_of_fmap. exists (i, sp_dir sp).
  split; [done|]. by apply elem_of_map_to_list.
Qed.

(** Writing an entry of a table *)
Lemma rep_put m sp f pn t pg w : rep m sp -> NoDup (tables sp) -> (forall p, p ∈ tables sp -> p mod PGSIZE = 0) ->
  sp_tabs sp !! (pn / 1024) = Some t -> m !! t = Some pg -> length pg = Z.to_nat PGSIZE -> 0 <= w < 2 ^ 32 ->
  (forall q, q <> pn -> f !! q = sp_ptes sp !! q) -> default 0 (f !! pn) = w -> (is_Some (f !! pn) -> w mod 2 = 1) ->
  rep (<[t := splice (offset (t + 4 * (pn mod 1024))) (le_bytes 4 w) pg]> m) (set_ptes f sp).
Proof.
  intros Hr Hn Hal Ht Hpg Hlen Hw Hne Hd Hodd. pose proof (Z.mod_pos_bound pn 1024 ltac:(done)) as Hj.
  assert (Htd : t <> sp_dir sp) by (by eapply tab_ne_dir).
  assert (Hta : t mod PGSIZE = 0) by (by apply Hal, (tab_in sp (pn / 1024))).
  split; cbn.
  - intros i Hi. rewrite <- (r_dir _ _ Hr) by done. apply word_frame; [apply Hal; by left|done|by rewrite lookup_insert_ne].
  - intros i t' j Hit Hj'. destruct (decide (t' = t)) as [->|Htt].
    + pose proof (tabs_inj _ _ _ _ Hn Hit Ht) as ->. destruct (decide (j = pn mod 1024)) as [->|Hjj].
      * rewrite word_put_eq by done. rewrite pn_split. by rewrite Hd.
      * rewrite word_put_ne by done. rewrite (r_tab _ _ Hr _ _ _ Hit Hj'). rewrite Hne; [done|]. rewrite <- (pn_split pn). lia.
    + rewrite (word_frame m) by (try apply Hal, (tab_in sp i); try done; by rewrite lookup_insert_ne).
      rewrite (r_tab _ _ Hr _ _ _ Hit Hj'). rewrite Hne; [done|]. intros <-. apply Htt.
      rewrite Z.mul_comm, Z.div_add_l, Z.div_small, Z.add_0_r in Ht by lia. congruence.
  - apply (r_idx _ _ Hr).
  - intros q v Hq. destruct (decide (q = pn)) as [->|Hqn].
    + rewrite Hq in *. cbn in Hd. subst v. split; [by eexists|]. split; [done|]. by apply Hodd.
    + apply (r_pte _ _ Hr). by rewrite <- Hne.
Qed.

(** A new table, cleared and entered in the directory *)
Lemma rep_add_tab m sp i p pg : rep m sp -> NoDup (tables sp) -> (forall q, q ∈ tables sp -> q mod PGSIZE = 0) ->
  page_ok p -> p ∉ tables sp -> sp_tabs sp !! i = None -> 0 <= i < 1024 ->
  m !! sp_dir sp = Some pg -> length pg = Z.to_nat PGSIZE ->
  rep (<[sp_dir sp := splice (offset (sp_dir sp + 4 * i)) (le_bytes 4 (entry (p - KERNBASE) (Z.lor PTE_W PTE_U))) pg]>
    (<[p := replicate (Z.to_nat PGSIZE) 0]> m)) (add_tab i p sp).
Proof.
  intros Hr Hn Hal Hp Hnin Hi Hir Hpg Hlen. assert (Hpd : p <> sp_dir sp) by (intros ->; apply Hnin; by left).
  assert (Hda : sp_dir sp mod PGSIZE = 0) by (apply Hal; by left). pose proof Hp as (Hpa & _ & Hpk).
  destruct (entry_props (p - KERNBASE) (Z.lor PTE_W PTE_U)) as (Hew & _ & _ & _); [|consts; lia|done|].
  { rewrite Zminus_mod, Hpa. done. }
  assert (Hm1 : <[p:=replicate (Z.to_nat PGSIZE) 0]> m !! sp_dir sp = Some pg) by (by rewrite lookup_insert_ne).
  split; cbn.
  - intros k Hk. destruct (decide (k = i)) as [->|Hki].
    + rewrite word_put_eq by done. by rewrite lookup_insert_eq.
    + rewrite word_put_ne by done. rewrite lookup_insert_ne by done. rewrite <- (r_dir _ _ Hr) by done.
      apply word_frame; [done|done|by rewrite lookup_insert_ne].
  - intros k t j Hk Hj. destruct (decide (k = i)) as [->|Hki].
    + rewrite lookup_insert_eq in Hk. injection Hk as <-.
      rewrite (word_frame (<[p:=replicate (Z.to_nat PGSIZE) 0]> m)) by (try done; by rewrite lookup_insert_ne).
      rewrite word_zero by done. destruct (sp_ptes sp !! (1024 * i + j)) as [w|] eqn:E; [|done].
      destruct (r_pte _ _ Hr _ _ E) as [[t Ht] _]. rewrite Z.mul_comm, Z.div_add_l, Z.div_small, Z.add_0_r in Ht by lia. congruence.
    + rewrite lookup_insert_ne in Hk by done. rewrite <- (r_tab _ _ Hr _ _ _ Hk Hj). pose proof (tab_in _ _ _ Hk) as Hin.
      assert (t <> p) by (intros ->; done). apply word_frame; [by apply Hal|done|].
      by rewrite !lookup_insert_ne by (done || (symmetry; by eapply tab_ne_dir)).
  - intros k t Hk. destruct (decide (k = i)) as [->|Hki]; [done|]. rewrite lookup_insert_ne in Hk by done. by apply (r_idx _ _ Hr _ _ Hk).
  - intros q w Hq. destruct (r_pte _ _ Hr _ _ Hq) as [Hs Hw]. split; [|done].
    destruct (decide (q / 1024 = i)) as [<-|Hki]; [by rewrite lookup_insert_eq|by rewrite lookup_insert_ne].
Qed.

(** ** walkpgdir *)

Lemma own_aligned s l held p : own s l held -> p ∈ held -> p mod PGSIZE = 0.
Proof. intros H Hp. by destruct (own_held _ _ _ _ H Hp) as [(Ha & _) _]. Qed.

Lemma own_disjoint s l held p : own s l held -> p ∈ l -> p ∉ held.
Proof. intros [_ Hn _] Hp Hh. apply NoDup_app in Hn as (_ & Hn & _). by apply (Hn p). Qed.

Lemma St_nodup s l sp oth : St s l sp oth -> NoDup (tables sp ++ upages sp ++ oth).
Proof. intros [[_ Hn _] _]. by apply NoDup_app in Hn as (_ & _ & Hn). Qed.

Lemma St_tables s l sp oth : St s l sp oth -> NoDup (tables sp) /\ forall p, p ∈ tables sp -> p mod PGSIZE = 0 /\ p ∉ upages sp ++ oth.
Proof.
  intros Hst. pose proof (St_nodup _ _ _ _ Hst) as H. apply NoDup_app in H as (Hn & Hd & _). split; [done|].
  intros p Hp. split; [|by apply Hd]. eapply own_aligned; [apply Hst|set_solver].
Qed.

Lemma P2V_frame {S} (s : S) p : page_ok p -> P2V (p - KERNBASE) s = Ok p s.
Proof.
  intros (_ & _ & Hk). unfold P2V. destruct (Z.gtb_spec (p - KERNBASE) KERNBASE); [consts; lia|].
  unfold ret. f_equal. replace (p - KERNBASE + KERNBASE) with p by lia. apply u32_small. consts. lia.
Qed.

Lemma V2P_frame {S} (s : S) p : page_ok p -> V2P p s = Ok (p - KERNBASE) s.
Proof. intros (_ & _ & Hk). unfold V2P. by rewrite (proj2 (Z.ltb_ge p KERNBASE)) by lia. Qed.

Lemma page_pa p : page_ok p -> (p - KERNBASE) mod PGSIZE = 0 /\ 0 <= p - KERNBASE < PHYSTOP.
Proof. intros (Ha & _ & Hk). split; [by rewrite Zminus_mod, Ha|lia]. Qed.

Lemma pn_idx pn : 0 <= pn < NPN -> 0 <= pn / 1024 < 1024.
Proof. intros H. split; [apply Z.div_pos; lia|apply Z.div_lt_upper_bound; consts; lia]. Qed.

Lemma walk_present s l sp oth pn alloc t : St s l sp oth -> 0 <= pn < NPN -> sp_tabs sp !! (pn / 1024) = Some t ->
  walkpgdir (sp_dir sp) (pn * PGSIZE) alloc s = Ok (t + 4 * (pn mod 1024)) s.
Proof.
  intros [Ho Hr] Hpn Ht. pose proof (tab_in _ _ _ Ht) as Hin.
  assert (Hok : page_ok t) by (eapply own_held; [exact Ho|set_solver]).
  unfold walkpgdir. rewrite PDX_pn, PTX_pn by done. cbn zeta.
  erewrite bind_run by (apply rd_run, (r_dir _ _ Hr), pn_idx; done). rewrite Ht.
  destruct (page_pa t Hok) as [Ha Hpa].
  destruct (entry_props (t - KERNBASE) (Z.lor PTE_W PTE_U)) as (_ & Hodd & Hadr & _); [done|consts; lia|done|].
  rewrite PTE_P_mod, Hodd, Hadr. cbn [negb Z.eqb]. by rewrite (bind_run _ _ _ _ _ (P2V_frame _ _ Hok)).
Qed.

Lemma walk_absent s l sp oth pn : St s l sp oth -> 0 <= pn < NPN -> sp_tabs sp !! (pn / 1024) = None ->
  walkpgdir (sp_dir sp) (pn * PGSIZE) false s = Ok 0 s.
Proof.
  intros [Ho Hr] Hpn Ht. unfold walkpgdir. rewrite PDX_pn by done. cbn zeta.
  erewrite bind_run by (apply rd_run, (r_dir _ _ Hr), pn_idx; done). by rewrite Ht.
Qed.

Lemma walk_full s sp oth pn : St s [] sp oth -> 0 <= pn < NPN -> sp_tabs sp !! (pn / 1024) = None ->
  walkpgdir (sp_dir sp) (pn * PGSIZE) true s = Ok 0 s.
Proof.
  intros [Ho Hr] Hpn Ht. unfold walkpgdir. rewrite PDX_pn by done. cbn zeta.
  erewrite bind_run by (apply rd_run, (r_dir _ _ Hr), pn_idx; done). rewrite Ht. change (negb (Z.land 0 PTE_P =? 0)) with false. cbn [negb].
  by rewrite (bind_run _ _ _ _ _ (kalloc_none _ _ Ho)).
Qed.

Lemma page_run s p pg : v_mem s !! p = Some pg -> page p s = Ok pg s.
Proof. intros H. unfold page. rewrite gets_bind. by rewrite H. Qed.

Lemma wr_run s p j w pg : p mod PGSIZE = 0 -> 0 <= j < 1024 -> v_mem s !! p = Some pg ->
  wr (p + 4 * j) w s = Ok tt (set_mem (<[p := splice (offset (p + 4 * j)) (le_bytes 4 w) pg]> (v_mem s)) s).
Proof.
  intros Hp Hj Hpg. unfold wr. rewrite base_at by done. by rewrite (bind_run _ _ _ _ _ (page_run _ _ _ Hpg)).
Qed.

Lemma length_put_word p j w pg : p mod PGSIZE = 0 -> 0 <= j < 1024 -> length pg = Z.to_nat PGSIZE ->
  length (splice (offset (p + 4 * j)) (le_bytes 4 w) pg) = Z.to_nat PGSIZE.
Proof. intros Hp Hj Hl. rewrite length_splice; [done|]. rewrite offset_at, length_le_bytes, Hl by done. consts. lia. Qed.

Lemma memset_run s p c pg : v_mem s !! p = Some pg ->
  memset_page p c s = Ok tt (set_mem (<[p := replicate (Z.to_nat PGSIZE) c]> (v_mem s)) s).
Proof. intros H. unfold memset_page. by rewrite (bind_run _ _ _ _ _ (page_run _ _ _ H)). Qed.

Lemma walk_alloc s p l sp oth pn : St s (p :: l) sp oth -> 0 <= pn < NPN -> sp_tabs sp !! (pn / 1024) = None ->
  exists s', walkpgdir (sp_dir sp) (pn * PGSIZE) true s = Ok (p + 4 * (pn mod 1024)) s' /\
    St s' l (add_tab (pn / 1024) p sp) oth /\ keeps s s' (upages sp ++ oth).
Proof.
  intros Hst Hpn Ht. pose proof (St_tables _ _ _ _ Hst) as [Hnd Htabs]. destruct Hst as [Ho Hr].
  pose proof (own_disjoint _ _ _ p Ho ltac:(by left)) as Hdis.
  destruct (kalloc_own _ _ _ _ Ho) as (s1 & Ek & Ho1 & Em & Hp0).
  destruct (own_held _ _ _ p Ho1 ltac:(by left)) as [Hok (pg & Hpg & _)].
  set (s2 := set_mem (<[p := replicate (Z.to_nat PGSIZE) 0]> (v_mem s1)) s1).
  assert (Ho2 : own s2 l (p :: tables sp ++ upages sp ++ oth)) by (apply own_put; [done|by left|by rewrite length_replicate]).
  destruct (own_held _ _ _ (sp_dir sp) Ho2 ltac:(right; by left)) as [Hdok (pd & Hpd & Hld)].
  set (w := entry (p - KERNBASE) (Z.lor PTE_W PTE_U)). pose proof (pn_idx _ Hpn) as Hix.
  exists (set_mem (<[sp_dir sp := splice (offset (sp_dir sp + 4 * (pn / 1024))) (le_bytes 4 w) pd]> (v_mem s2)) s2).
  assert (Hpd0 : v_mem s !! sp_dir sp = Some pd).
  { rewrite <- Em. cbn in Hpd. rewrite lookup_insert_ne in Hpd; [done|]. intros ->. apply Hdis. by left. }
  split; [|split; [split|]].
  - unfold walkpgdir. rewrite PDX_pn, PTX_pn by done. cbn zeta.
    erewrite bind_run by (apply rd_run, (r_dir _ _ Hr); done). rewrite Ht. change (negb (Z.land 0 PTE_P =? 0)) with false. cbn [negb].
    rewrite (bind_run _ _ _ _ _ Ek). rewrite (proj2 (Z.eqb_neq p 0) Hp0).
    rewrite (bind_run _ _ _ _ _ (memset_run _ _ _ _ Hpg)). rewrite (bind_run _ _ _ _ _ (V2P_frame _ _ Hok)).
    replace (Z.lor (Z.lor (Z.lor (p - KERNBASE) PTE_P) PTE_W) PTE_U) with w.
    + by rewrite (bind_run _ _ _ _ _ (wr_run s2 _ _ _ _ (proj1 Hdok) Hix Hpd)).
    + destruct (page_pa p Hok) as [Ha Hpa]. unfold w. rewrite <- entry_lor by done.
      rewrite <- !Z.lor_assoc. by rewrite (Z.lor_comm PTE_P).
  - apply own_put; [|apply elem_of_app; left; by left|apply length_put_word; [apply Hdok|done|done]].
    eapply own_perm; [|exact Ho2]. rewrite tables_add by done. done.
  - cbn. rewrite Em. apply rep_add_tab; [done|done|intros q Hq; by apply Htabs|done| |done|done|done|done].
    intros Hin. apply Hdis. memb.
  - intros q Hq. cbn. rewrite Em. rewrite !lookup_insert_ne; [done| |].
    + intros ->. apply Hdis. memb.
    + intros <-. destruct (Htabs (sp_dir sp)) as [_ Hn]; [by left|]. done.
Qed.

End own.

End VmRep.
