(* ===== verification/VmSpace.v ===== *)
(** * The routines of vm.c on address spaces

    mappages adds entries to the map of an address space, deallocuvm removes
    them and frees their pages, freevm frees the address space, setupkvm makes
    one with the kernel's mappings. *)
From S2P Require Import Prelude Words Params Kalloc Vm VmRep.

Module VmSpace.
Import Kalloc Vm VmRep.

Set Default Proof Using "Type".

Section space.
Context (end_ data_ : Z).
#[local] Abbreviation page_ok := (Kalloc.page_ok end_).
#[local] Abbreviation St := (VmRep.St end_).
#[local] Abbreviation own := (VmRep.own end_).

(** ** Entries *)

Lemma rd_entry s l sp oth pn t : St s l sp oth -> sp_tabs sp !! (pn / 1024) = Some t ->
  rd (t + 4 * (pn mod 1024)) s = Ok (default 0 (sp_ptes sp !! pn)) s.
Proof.
  intros [_ Hr] Ht. apply rd_run. rewrite (r_tab _ _ Hr _ _ _ Ht) by (by apply Z.mod_pos_bound). by rewrite pn_split.
Qed.

Lemma wr_rep s l held sp f pn t w : own s l (tables sp ++ held) -> rep (v_mem s) sp -> sp_tabs sp !! (pn / 1024) = Some t ->
  0 <= w < 2 ^ 32 -> (forall q, q <> pn -> f !! q = sp_ptes sp !! q) -> default 0 (f !! pn) = w -> (is_Some (f !! pn) -> w mod 2 = 1) ->
  exists s', wr (t + 4 * (pn mod 1024)) w s = Ok tt s' /\ own s' l (tables sp ++ held) /\ rep (v_mem s') (set_ptes f sp) /\
    keeps s s' held.
Proof.
  intros Ho Hr Ht Hw Hf Hd Hodd. pose proof (o_nodup _ _ _ _ Ho) as Hnd.
  apply NoDup_app in Hnd as (_ & _ & Hnd). apply NoDup_app in Hnd as (Hnd & Hdis & _).
  pose proof (tab_in _ _ _ Ht) as Hin. destruct (own_held _ _ _ _ t Ho ltac:(set_solver)) as [Hok (pg & Hpg & Hl)].
  assert (Hj := Z.mod_pos_bound pn 1024 ltac:(done)).
  eexists. split; [apply wr_run; [apply Hok|done|exact Hpg]|]. split; [|split].
  - apply own_put; [done|set_solver|apply length_put_word; [apply Hok|done|done]].
  - cbn. eapply rep_put; [done|done| |done..]. intros p Hp. eapply own_aligned; [exact Ho|set_solver].
  - apply put_keeps. by apply Hdis.
Qed.

Lemma St_set s l sp oth pn t w : St s l sp (claim pn w ++ oth) -> sp_tabs sp !! (pn / 1024) = Some t ->
  sp_ptes sp !! pn = None -> 0 <= w < 2 ^ 32 -> w mod 2 = 1 ->
  exists s', wr (t + 4 * (pn mod 1024)) w s = Ok tt s' /\ St s' l (set_ptes (<[pn := w]> (sp_ptes sp)) sp) oth /\
    keeps s s' (upages sp ++ claim pn w ++ oth).
Proof.
  intros [Ho Hr] Ht Hn Hw Hodd.
  destruct (wr_rep s l _ sp (<[pn := w]> (sp_ptes sp)) pn t w Ho Hr Ht Hw) as (s' & E & Ho' & Hr' & Hk);
    [intros q Hq; by apply lookup_insert_ne|by rewrite lookup_insert_eq|done|].
  exists s'. split; [done|]. split; [split; [|done]|done]. eapply own_perm; [|exact Ho'].
  change (tables (set_ptes _ sp)) with (tables sp). rewrite upages_insert by done.
  by rewrite (Permutation_app_comm (claim pn w) (upages sp)), <- app_assoc.
Qed.

Lemma St_perm s l sp oth oth' : oth ≡ₚ oth' -> St s l sp oth -> St s l sp oth'.
Proof. intros Hp [Ho Hr]. split; [|done]. eapply own_perm; [|exact Ho]. by rewrite Hp. Qed.

(** ** Mapping one page *)

(** What a routine that maps pages does to an address space: the entries become
    [f], and the new tables [ts] come from the free list. *)
Definition grows (sp sp' : space) (f : gmap Z Z) (ts : list Z) : Prop :=
  sp_dir sp' = sp_dir sp /\ sp_ptes sp' = f /\ tables sp' ≡ₚ ts ++ tables sp.

Lemma walk_grow s l sp oth pn : St s l sp oth -> 0 <= pn < NPN ->
  (l = [] /\ walkpgdir (sp_dir sp) (pn * PGSIZE) true s = Ok 0 s) \/
  exists s' l' ts sp' t, walkpgdir (sp_dir sp) (pn * PGSIZE) true s = Ok (t + 4 * (pn mod 1024)) s' /\
    sp_tabs sp' !! (pn / 1024) = Some t /\ St s' l' sp' oth /\ keeps s s' (upages sp ++ oth) /\
    l = ts ++ l' /\ grows sp sp' (sp_ptes sp) ts.
Proof.
  intros Hst Hpn. destruct (sp_tabs sp !! (pn / 1024)) as [t|] eqn:Ht.
  - right. exists s, l, [], sp, t. split; [by eapply walk_present|]. by repeat (split; [done|]).
  - destruct l as [|p l]; [left; split; [done|by eapply walk_full]|]. right.
    destruct (walk_alloc _ _ _ _ _ _ _ Hst Hpn Ht) as (s' & E & Hst' & Hk).
    exists s', l, [p], (add_tab (pn / 1024) p sp), p. split; [done|]. split; [apply lookup_insert_eq|].
    split; [done|]. split; [done|]. split; [done|]. split; [done|]. split; [done|]. by apply tables_add.
Qed.

Lemma map1 s l sp oth pn pa perm (K : M vm Z) : St s l sp (claim pn (entry pa perm) ++ oth) -> 0 <= pn < NPN ->
  sp_ptes sp !! pn = None -> pa mod PGSIZE = 0 -> 0 <= pa < 2 ^ 32 -> 0 <= perm < PGSIZE ->
  let prog := (pte <- walkpgdir (sp_dir sp) (pn * PGSIZE) true ;;
    if pte =? 0 then ret (-1)
    else e <- rd pte ;;
      if negb (Z.land e PTE_P =? 0) then panic "remap"
      else wr pte (Z.lor (Z.lor pa perm) PTE_P) ;; K) in
  (l = [] /\ prog s = Ok (-1) s) \/
  exists s' l' ts sp', prog s = K s' /\ St s' l' sp' oth /\ keeps s s' (upages sp ++ claim pn (entry pa perm) ++ oth) /\
    l = ts ++ l' /\ grows sp sp' (<[pn := entry pa perm]> (sp_ptes sp)) ts.
Proof.
  intros Hst Hpn Hno Hpa Hr Hperm prog. destruct (entry_props pa perm Hpa Hr Hperm) as (Hw & Hodd & _).
  destruct (walk_grow _ _ _ _ _ Hst Hpn) as [[-> E]|(s1 & l1 & ts & sp1 & t & E & Ht & Hst1 & Hk & -> & Hd & Hf & Htb)].
  - left. split; [done|]. unfold prog. by rewrite (bind_run _ _ _ _ _ E).
  - right. destruct (St_set s1 l1 sp1 oth pn t (entry pa perm)) as (s2 & Ew & Hst2 & Hk2); [done|done|by rewrite Hf|done|done|].
    exists s2, l1, ts, (set_ptes (<[pn := entry pa perm]> (sp_ptes sp1)) sp1). split; [|split; [done|split; [|split; [done|]]]].
    + unfold prog. rewrite (bind_run _ _ _ _ _ E). assert (Hok : page_ok t) by (eapply own_held; [apply Hst1|pose proof (tab_in _ _ _ Ht); set_solver]).
      assert (0 <= pn mod 1024) by (by apply Z.mod_pos_bound). destruct Hok as (_ & _ & Hok).
      rewrite (proj2 (Z.eqb_neq (t + _) 0)) by (consts; lia). rewrite (bind_run _ _ _ _ _ (rd_entry _ _ _ _ _ _ Hst1 Ht)).
      rewrite Hf, Hno. change (negb (Z.land (default 0 None) PTE_P =? 0)) with false. cbn iota. rewrite entry_lor by done.
      by rewrite (bind_run _ _ _ _ _ Ew).
    + eapply keeps_trans; [exact Hk|]. unfold upages. rewrite <- Hf. exact Hk2.
    + split; [done|]. split; [cbn; by rewrite Hf|done].
Qed.

Lemma page_span pn : 0 <= pn < NPN -> PGROUNDDOWN (pn * PGSIZE) = pn * PGSIZE /\
  PGROUNDDOWN (u32 (pn * PGSIZE + PGSIZE - 1)) = pn * PGSIZE.
Proof.
  intros H. consts. rewrite u32_small by lia. split; rewrite PGROUNDDOWN_round by lia; unfold PGSIZE.
  - by rewrite Z.div_mul.
  - replace (pn * 4096 + 4096 - 1) with (pn * 4096 + 4095) by lia. by rewrite Z.div_add_l, (Z.div_small 4095), Z.add_0_r.
Qed.

(** mappages for one page of user memory *)
Lemma mappages_user s l sp oth p pn perm : St s l sp (p :: oth) -> 0 <= pn < KPN -> sp_ptes sp !! pn = None ->
  0 <= perm < PGSIZE ->
  (l = [] /\ mappages (sp_dir sp) (pn * PGSIZE) PGSIZE (p - KERNBASE) perm s = Ok (-1) s) \/
  exists s' l' ts sp', mappages (sp_dir sp) (pn * PGSIZE) PGSIZE (p - KERNBASE) perm s = Ok 0 s' /\ St s' l' sp' oth /\
    keeps s s' (upages sp ++ p :: oth) /\ l = ts ++ l' /\ grows sp sp' (<[pn := entry (p - KERNBASE) perm]> (sp_ptes sp)) ts.
Proof.
  intros Hst Hpn Hno Hperm. assert (Hok : page_ok p) by (eapply own_held; [apply Hst|set_solver]).
  destruct (page_pa _ p Hok) as [Ha Hpa]. assert (Hpa' : 0 <= p - KERNBASE < 2 ^ 32) by (consts; lia).
  destruct (page_span pn ltac:(consts; lia)) as [E1 E2].
  assert (Hcl : claim pn (entry (p - KERNBASE) perm) = [p]).
  { unfold claim, frame. rewrite decide_True by lia. destruct (entry_props _ perm Ha Hpa' Hperm) as (_ & _ & -> & _). f_equal. lia. }
  unfold mappages. rewrite E1, E2. cbn zeta. rewrite Z.sub_diag. cbn [Z.to_nat mappages_loop]. rewrite Z.eqb_refl.
  destruct (map1 s l sp oth pn (p - KERNBASE) perm (ret 0)) as [H|(s' & l' & ts & sp' & H)];
    [by rewrite Hcl|consts; lia|done..|by left|]. right. exists s', l', ts, sp'. by rewrite Hcl in H.
Qed.

(** ** Mapping a range of kernel pages *)

Fixpoint map_range (n : nat) (pn pa perm : Z) (f : gmap Z Z) : gmap Z Z :=
  match n with
  | O => f
  | S n' => map_range n' (pn + 1) (pa + PGSIZE) perm (<[pn := entry pa perm]> f)
  end.

Lemma map_range_lookup n : forall pn pa perm f q, map_range n pn pa perm f !! q =
  if decide (pn <= q < pn + Z.of_nat n) then Some (entry (pa + (q - pn) * PGSIZE) perm) else f !! q.
Proof.
  induction n as [|n IH]; intros pn pa perm f q; cbn [map_range]; [by rewrite decide_False by lia|]. rewrite IH.
  destruct (decide (q = pn)) as [->|Hne].
  - rewrite decide_False, decide_True by lia. rewrite lookup_insert_eq. do 2 f_equal. lia.
  - rewrite lookup_insert_ne by done. destruct (decide (pn + 1 <= q < pn + 1 + Z.of_nat n)).
    + rewrite decide_True by lia. do 2 f_equal. lia.
    + by rewrite decide_False by lia.
Qed.

Lemma user_insert_kernel pn w f : KPN <= pn -> user_ptes (<[pn := w]> f) = user_ptes f.
Proof. intros H. unfold user_ptes. apply map_filter_insert_not. cbn. intros _. lia. Qed.

Lemma grows_kernel_upages sp sp' pn w ts : KPN <= pn -> grows sp sp' (<[pn := w]> (sp_ptes sp)) ts -> upages sp' = upages sp.
Proof. intros H (_ & Hf & _). unfold upages. by rewrite Hf, user_insert_kernel. Qed.

Lemma claim_kernel pn w : KPN <= pn -> claim pn w = [].
Proof. intros H. unfold claim. by rewrite decide_False by lia. Qed.

Lemma mappages_kernel n : forall fuel s l sp oth pn pa perm, St s l sp oth -> KPN <= pn -> pn + Z.of_nat (S n) <= NPN ->
  (forall q, pn <= q < pn + Z.of_nat (S n) -> sp_ptes sp !! q = None) ->
  pa mod PGSIZE = 0 -> 0 <= pa -> pa + Z.of_nat (S n) * PGSIZE <= 2 ^ 32 -> 0 <= perm < PGSIZE -> (n < fuel)%nat ->
  exists r s' l' ts sp' k, mappages_loop fuel (sp_dir sp) (pn * PGSIZE) ((pn + Z.of_nat n) * PGSIZE) pa perm s = Ok r s' /\
    St s' l' sp' oth /\ keeps s s' (upages sp ++ oth) /\ l = ts ++ l' /\ upages sp' = upages sp /\
    grows sp sp' (map_range k pn pa perm (sp_ptes sp)) ts /\ (r = 0 /\ k = S n \/ r = -1).
Proof.
  induction n as [|n IH]; intros fuel s l sp oth pn pa perm Hst Hk Hn Hno Ha Hpa Hpa' Hperm Hf;
    (destruct fuel as [|fuel]; [lia|]); cbn [mappages_loop];
    (edestruct (map1 s l sp oth pn pa perm) as [[Hl E]|(s1 & l1 & ts & sp1 & E & Hst1 & Hk1 & Hl & Hg)];
      [by rewrite claim_kernel|consts; lia|apply Hno; lia|done|consts; lia|done|
       exists (-1), s, l, [], sp, 0%nat; split; [exact E|]; split; [exact Hst|]; do 4 (split; [done|]); by right|]);
    rewrite E; rewrite claim_kernel in Hk1 by done; pose proof (grows_kernel_upages _ _ _ _ _ Hk Hg) as Hu.
  - replace (pn + Z.of_nat 0) with pn by lia. rewrite Z.eqb_refl.
    exists 0, s1, l1, ts, sp1, 1%nat. do 6 (split; [done|]). by left.
  - rewrite (proj2 (Z.eqb_neq (pn * PGSIZE) _)) by (consts; lia).
    replace (u32 (pn * PGSIZE + PGSIZE)) with ((pn + 1) * PGSIZE) by (rewrite u32_small; consts; lia).
    rewrite (u32_small (pa + PGSIZE)) by (consts; lia). destruct Hg as (Hd & Hpt & Htb).
    replace (pn + Z.of_nat (S n)) with (pn + 1 + Z.of_nat n) by lia. rewrite <- Hd.
    destruct (IH fuel s1 l1 sp1 oth (pn + 1) (pa + PGSIZE) perm) as (r & s2 & l2 & ts2 & sp2 & k & E2 & Hst2 & Hk2 & Hl2 & Hu2 & Hg2 & Hr);
      [done|lia|lia| |by rewrite <- Z.add_mod_idemp_l, Ha|consts; lia|lia|done|lia|].
    { intros q Hq. rewrite Hpt, lookup_insert_ne by lia. apply Hno. lia. }
    exists r, s2, l2, (ts ++ ts2), sp2, (S k). split; [done|]. split; [done|]. split; [|split; [|split; [by rewrite Hu2|split; [|naive_solver]]]].
    + eapply keeps_trans; [exact Hk1|]. by rewrite <- Hu.
    + by rewrite Hl, Hl2, app_assoc.
    + destruct Hg2 as (Hd2 & Hpt2 & Htb2). split; [by rewrite Hd2|]. split; [by rewrite Hpt2, Hpt|].
      rewrite Htb2, Htb. by rewrite !app_assoc, (Permutation_app_comm ts2).
Qed.

(** ** Unmapping *)

(** The kernel image lies above KERNBASE. *)
Hypothesis Hend : KERNBASE < end_.

Lemma frame_P2V {S} (s : S) w : page_ok (frame w) -> P2V (PTE_ADDR w) s = Ok (frame w) s.
Proof. intros H. replace (PTE_ADDR w) with (frame w - KERNBASE) by (unfold frame; lia). by eapply P2V_frame. Qed.

Lemma frame_nonzero w : page_ok (frame w) -> PTE_ADDR w <> 0.
Proof using Hend. intros (_ & H & _) E. unfold frame in H. lia. Qed.

(** Freeing a page of user memory and clearing its entry *)
Lemma unmap1 s l sp oth pn t w : St s l sp oth -> sp_tabs sp !! (pn / 1024) = Some t -> sp_ptes sp !! pn = Some w -> pn < KPN ->
  let sp' := set_ptes (delete pn (sp_ptes sp)) sp in
  exists s', (v <- P2V (PTE_ADDR w) ;; kfree end_ v ;; wr (t + 4 * (pn mod 1024)) 0) s = Ok tt s' /\
    St s' (frame w :: l) sp' oth /\ keeps s s' (upages sp' ++ oth) /\ upages sp ≡ₚ frame w :: upages sp'.
Proof using Hend.
  intros [Ho Hr] Ht Hw Hk sp'. assert (Hu : upages sp ≡ₚ frame w :: upages sp').
  { rewrite (upages_delete _ _ _ Hw). unfold claim. by rewrite decide_True. }
  assert (Ho0 : own s l (frame w :: tables sp ++ upages sp' ++ oth)).
  { eapply own_perm; [|exact Ho]. rewrite Hu. cbn [app]. by rewrite <- Permutation_middle. }
  assert (Hok : page_ok (frame w)) by (eapply own_held; [exact Ho0|by left]).
  destruct (kfree_own _ _ _ _ _ Ho0) as (s1 & E1 & Ho1 & Hk1).
  assert (Hr1 : rep (v_mem s1) sp).
  { eapply rep_frame; [exact Hr|]. intros p Hp. split; [eapply own_aligned; [exact Ho1|set_solver]|]. apply Hk1. set_solver. }
  destruct (wr_rep s1 _ _ sp (delete pn (sp_ptes sp)) pn t 0 Ho1 Hr1 Ht ltac:(lia)) as (s2 & E2 & Ho2 & Hr2 & Hk2);
    [intros q Hq; by apply lookup_delete_ne|by rewrite lookup_delete_eq|by rewrite lookup_delete_eq; intros []|].
  exists s2. split; [|split; [by split|split; [|done]]].
  - by rewrite (bind_run _ _ _ _ _ (frame_P2V _ _ Hok)), (bind_run _ _ _ _ _ E1), E2.
  - eapply keeps_trans; [|exact Hk2]. eapply keeps_sub; [exact Hk1|]. set_solver.
Qed.

Lemma next_dir pn : 0 <= pn < KPN ->
  u32 (u32 (PGADDR (PDX (pn * PGSIZE) + 1) 0 0 - PGSIZE) + PGSIZE) = (pn / 1024 + 1) * 1024 * PGSIZE.
Proof.
  intros H. rewrite PDX_pn by (consts; lia). assert (0 <= pn / 1024 < 512) by (split; [apply Z.div_pos; lia|apply Z.div_lt_upper_bound; consts; lia]).
  unfold PGADDR. rewrite Z.shiftl_0_l, !Z.lor_0_r, Z.shiftl_mul_pow2 by (consts; lia). consts. change (2 ^ 22) with 4194304.
  rewrite (u32_small ((pn / 1024 + 1) * 4194304)) by lia. rewrite (u32_small (_ - 4096)) by lia. rewrite u32_small; lia.
Qed.

(** The entries that deallocuvm removes *)
Definition unmapped (pn oldsz : Z) (f f' : gmap Z Z) : Prop :=
  forall q, f' !! q = if decide (pn <= q /\ q * PGSIZE < oldsz) then None else f !! q.

Lemma unmapped_from pn pn' oldsz f f' : pn <= pn' -> (forall q, pn <= q < pn' -> f !! q = None) ->
  unmapped pn' oldsz f f' -> unmapped pn oldsz f f'.
Proof.
  intros Hle Hno H q. rewrite H. repeat case_decide; try done; try lia. apply Hno. lia.
Qed.

Lemma dealloc_loop fuel : forall s l sp oth pn oldsz, St s l sp oth -> 0 <= pn -> oldsz <= KERNBASE ->
  oldsz <= (pn + Z.of_nat fuel) * PGSIZE ->
  exists s' l' fr sp', deallocuvm_loop end_ fuel (sp_dir sp) (pn * PGSIZE) oldsz s = Ok tt s' /\ St s' l' sp' oth /\
    keeps s s' (upages sp' ++ oth) /\ l' ≡ₚ fr ++ l /\ upages sp ≡ₚ fr ++ upages sp' /\
    sp_dir sp' = sp_dir sp /\ sp_tabs sp' = sp_tabs sp /\ unmapped pn oldsz (sp_ptes sp) (sp_ptes sp').
Proof using Hend.
  assert (Hdone : forall s l sp oth pn oldsz (r : result vm unit), St s l sp oth -> oldsz <= pn * PGSIZE -> r = Ok tt s ->
    exists s' l' fr sp', r = Ok tt s' /\ St s' l' sp' oth /\ keeps s s' (upages sp' ++ oth) /\ l' ≡ₚ fr ++ l /\
      upages sp ≡ₚ fr ++ upages sp' /\ sp_dir sp' = sp_dir sp /\ sp_tabs sp' = sp_tabs sp /\ unmapped pn oldsz (sp_ptes sp) (sp_ptes sp')).
  { intros s l sp oth pn oldsz r Hst Hle ->. exists s, l, [], sp. do 7 (split; [done|]).
    intros q. rewrite decide_False; [done|]. consts. lia. }
  induction fuel as [|fuel IH]; intros s l sp oth pn oldsz Hst Hpn Hold Hf; cbn [deallocuvm_loop];
    (destruct (Z.ltb_spec (pn * PGSIZE) oldsz) as [Hlt|Hge]; [|by eapply Hdone]); [consts; lia|].
  assert (Hk : 0 <= pn < KPN) by (consts; lia).
  destruct (sp_tabs sp !! (pn / 1024)) as [t|] eqn:Ht.
  - rewrite (bind_run _ _ _ _ _ (walk_present _ _ _ _ _ pn false t Hst ltac:(consts; lia) Ht)).
    assert (Hok : page_ok t) by (eapply own_held; [apply Hst|pose proof (tab_in _ _ _ Ht); set_solver]). destruct Hok as (_ & _ & Hok).
    assert (0 <= pn mod 1024) by (by apply Z.mod_pos_bound).
    rewrite (proj2 (Z.eqb_neq (t + _) 0)) by (consts; lia). rewrite (bind_run _ _ _ _ _ (rd_entry _ _ _ _ _ _ Hst Ht)).
    replace (u32 (pn * PGSIZE + PGSIZE)) with ((pn + 1) * PGSIZE) by (rewrite u32_small; consts; lia).
    destruct (sp_ptes sp !! pn) as [w|] eqn:Hw; cbn [default]; unfold id.
    + destruct (unmap1 _ _ _ _ _ _ _ Hst Ht Hw ltac:(lia)) as (s1 & E1 & Hst1 & Hk1 & Hu1).
      assert (Hokw : page_ok (frame w)) by (eapply own_held; [apply Hst|pose proof (upage_in _ _ _ Hw ltac:(lia)); set_solver]).
      destruct (r_pte _ _ (proj2 Hst) _ _ Hw) as (_ & _ & Hodd). rewrite (PTE_P_mod w), Hodd. change (negb (1 =? 0)) with true. cbn [whenM].
      rewrite (proj2 (Z.eqb_neq _ 0) (frame_nonzero _ Hokw)). rewrite (bind_run _ _ _ _ _ E1).
      destruct (IH s1 _ _ oth (pn + 1) oldsz Hst1) as (s' & l' & fr & sp' & E & H1 & H2 & H3 & H4 & H5 & H6 & H7);
        [lia|done|consts; lia|]. exists s', l', (frame w :: fr), sp'. split; [done|]. split; [done|].
      split; [|split; [|split; [|split; [done|split; [done|]]]]].
      * eapply keeps_trans; [|exact H2]. eapply keeps_sub; [exact Hk1|]. intros p Hp. rewrite H4. set_solver.
      * rewrite H3. cbn. by rewrite <- Permutation_middle.
      * rewrite Hu1, H4. done.
      * intros q. rewrite H7. cbn. destruct (decide (q = pn)) as [->|Hne].
        -- rewrite decide_False, decide_True by lia. apply lookup_delete_eq.
        -- rewrite lookup_delete_ne by done. repeat case_decide; try done; lia.
    + change (whenM _ _) with (ret tt : M vm unit). rewrite bind_ret_l.
      destruct (IH s l sp oth (pn + 1) oldsz) as (s' & l' & fr & sp' & E & H1 & H2 & H3 & H4 & H5 & H6 & H7);
        [done|lia|done|consts; lia|]. exists s', l', fr, sp'. do 7 (split; [done|]).
      eapply unmapped_from; [| |exact H7]; [lia|]. intros q Hq. by replace q with pn by lia.
  - rewrite (bind_run _ _ _ _ _ (walk_absent _ _ _ _ _ pn Hst ltac:(consts; lia) Ht)). cbn [Z.eqb]. rewrite next_dir by done.
    pose proof (Z.div_mod pn 1024 ltac:(done)). pose proof (Z.mod_pos_bound pn 1024 ltac:(done)).
    destruct (IH s l sp oth ((pn / 1024 + 1) * 1024) oldsz) as (s' & l' & fr & sp' & E & H1 & H2 & H3 & H4 & H5 & H6 & H7);
      [done|lia|done|consts; lia|]. exists s', l', fr, sp'. do 7 (split; [done|]).
    eapply unmapped_from; [|  |exact H7]; [lia|]. intros q Hq. destruct (sp_ptes sp !! q) as [w|] eqn:Eq; [|done].
    destruct (r_pte _ _ (proj2 Hst) _ _ Eq) as [[t' Ht'] _]. replace (q / 1024) with (pn / 1024) in Ht'; [congruence|].
    apply Z.div_unique with (q - pn / 1024 * 1024); lia.
Qed.

(** ** deallocuvm and freevm *)

(** The number of pages that hold [sz] bytes *)
Definition npages (sz : Z) : Z := (sz + PGSIZE - 1) / PGSIZE.

Lemma PGROUNDUP_npages sz : 0 <= sz -> sz + PGSIZE <= 2 ^ 32 -> PGROUNDUP sz = npages sz * PGSIZE.
Proof.
  intros H0 H. unfold PGROUNDUP, npages. rewrite u32_small by (consts; lia). apply (land_mask_round _ 12); consts; lia.
Qed.

Lemma npages_spec sz : npages sz * PGSIZE - PGSIZE < sz <= npages sz * PGSIZE.
Proof.
  unfold npages. pose proof (Z.div_mod (sz + PGSIZE - 1) PGSIZE ltac:(done)). pose proof (Z.mod_pos_bound (sz + PGSIZE - 1) PGSIZE ltac:(done)).
  consts. lia.
Qed.

Lemma npages_nonneg sz : 0 <= sz -> 0 <= npages sz.
Proof. pose proof (npages_spec sz). consts. lia. Qed.

Lemma npages_lt pn sz : pn < npages sz <-> pn * PGSIZE < sz.
Proof. pose proof (npages_spec sz). consts. lia. Qed.

Lemma pte_range m sp pn w : rep m sp -> sp_ptes sp !! pn = Some w -> 0 <= pn < NPN.
Proof.
  intros Hr Hw. destruct (r_pte _ _ Hr _ _ Hw) as [[t Ht] _]. apply (r_idx _ _ Hr) in Ht.
  pose proof (Z.div_mod pn 1024 ltac:(done)). pose proof (Z.mod_pos_bound pn 1024 ltac:(done)). consts. lia.
Qed.

Lemma deallocuvm_spec s l sp oth oldsz newsz : St s l sp oth -> 0 <= newsz < oldsz -> oldsz <= KERNBASE ->
  exists s' l' fr sp', deallocuvm end_ (sp_dir sp) oldsz newsz s = Ok newsz s' /\ St s' l' sp' oth /\
    keeps s s' (upages sp' ++ oth) /\ l' ≡ₚ fr ++ l /\ upages sp ≡ₚ fr ++ upages sp' /\
    sp_dir sp' = sp_dir sp /\ sp_tabs sp' = sp_tabs sp /\ unmapped (npages newsz) oldsz (sp_ptes sp) (sp_ptes sp').
Proof using Hend.
  intros Hst Hn Ho. unfold deallocuvm. destruct (Z.geb_spec newsz oldsz); [lia|].
  rewrite PGROUNDUP_npages by (consts; lia). pose proof (npages_nonneg newsz ltac:(lia)).
  pose proof (Z.div_mod oldsz PGSIZE ltac:(done)). pose proof (Z.mod_pos_bound oldsz PGSIZE ltac:(done)).
  assert (0 <= oldsz / PGSIZE) by (apply Z.div_pos; consts; lia).
  destruct (dealloc_loop (Z.to_nat (oldsz / PGSIZE + 1)) s l sp oth (npages newsz) oldsz) as (s' & l' & fr & sp' & E & H');
    [done|done|done|rewrite Z2Nat.id by lia; consts; lia|].
  exists s', l', fr, sp'. split; [|done]. cbn zeta. by rewrite (bind_run _ _ _ _ _ E).
Qed.

Lemma free_tables_spec n : forall s l dir (T : gmap Z Z) oth i, own s l (dir :: (map_to_list T).*2 ++ oth) -> i + Z.of_nat n = 1024 -> 0 <= i ->
  (forall k t, T !! k = Some t -> i <= k < 1024) ->
  (forall k, i <= k < 1024 -> word (v_mem s) (dir + 4 * k) =
    Some (match T !! k with Some t => entry (t - KERNBASE) (Z.lor PTE_W PTE_U) | None => 0 end)) ->
  exists s' l', free_tables end_ n dir i s = Ok tt s' /\ own s' l' (dir :: oth) /\ l' ≡ₚ (map_to_list T).*2 ++ l /\ keeps s s' oth.
Proof using Hend.
  induction n as [|n IH]; intros s l dir T oth i Ho Hi Hi0 Hdom Hw; cbn [free_tables].
  - assert (T = ∅) as ->. { apply map_empty. intros k. destruct (T !! k) as [t|] eqn:E; [|done]. apply Hdom in E. lia. }
    exists s, l. by rewrite map_to_list_empty in *.
  - rewrite (bind_run _ _ _ _ _ (rd_run _ _ _ (Hw i ltac:(lia)))). destruct (T !! i) as [t|] eqn:Ht.
    + assert (HT : (map_to_list T).*2 ≡ₚ t :: (map_to_list (delete i T)).*2).
      { rewrite <- (insert_delete_id T i t Ht) at 1. by rewrite map_to_list_insert by apply lookup_delete_eq. }
      assert (Ho1 : own s l (t :: dir :: (map_to_list (delete i T)).*2 ++ oth)).
      { eapply own_perm; [|exact Ho]. rewrite HT. cbn. apply perm_swap. }
      destruct (own_held _ _ _ _ t Ho1 ltac:(by left)) as [Hok _]. destruct (page_pa _ t Hok) as [Ha Hpa].
      destruct (entry_props (t - KERNBASE) (Z.lor PTE_W PTE_U)) as (_ & Hodd & Hadr & _); [done|consts; lia|done|].
      rewrite (PTE_P_mod (entry _ _)), Hodd, Hadr. change (negb (1 =? 0)) with true. cbn [whenM]. rewrite bind_assoc.
      rewrite (bind_run _ _ _ _ _ (P2V_frame _ _ _ Hok)).
      destruct (kfree_own _ _ _ _ _ Ho1) as (s1 & E1 & Ho2 & Hk1). rewrite (bind_run _ _ _ _ _ E1).
      destruct (IH s1 (t :: l) dir (delete i T) oth (i + 1)) as (s' & l' & E & Ho' & Hl' & Hk'); [done|lia|lia| | |].
      * intros k t' Hk. apply lookup_delete_Some in Hk as [Hne Hk]. apply Hdom in Hk. lia.
      * intros k Hk. rewrite lookup_delete_ne by lia. rewrite <- Hw by lia.
        apply word_frame; [eapply own_aligned; [exact Ho|by left]|lia|]. apply Hk1. by left.
      * exists s', l'. split; [done|]. split; [done|]. split; [|eapply keeps_trans; [|exact Hk']; eapply keeps_sub; [exact Hk1|set_solver]].
        rewrite Hl', HT. cbn. by rewrite <- Permutation_middle.
    + change (whenM _ _) with (ret tt : M vm unit). rewrite bind_ret_l. apply IH; [done|lia|lia| |intros k Hk; apply Hw; lia].
      intros k t Hk. assert (k <> i) by congruence. apply Hdom in Hk. lia.
Qed.

Lemma freevm_spec s l sp oth : St s l sp oth ->
  exists s' l', freevm end_ (sp_dir sp) s = Ok tt s' /\ own s' l' oth /\ l' ≡ₚ tables sp ++ upages sp ++ l /\ keeps s s' oth.
Proof using Hend.
  intros Hst. assert (Hok : page_ok (sp_dir sp)) by (eapply own_held; [apply Hst|apply elem_of_app; left; by left]).
  unfold freevm. rewrite (proj2 (Z.eqb_neq (sp_dir sp) 0)) by (destruct Hok as (_ & _ & Hok); consts; lia).
  destruct (deallocuvm_spec _ _ _ _ KERNBASE 0 Hst) as (s1 & l1 & fr & sp1 & E1 & Hst1 & Hk1 & Hl1 & Hu1 & Hd1 & Ht1 & Hf1); [consts; lia|done|].
  rewrite (bind_run _ _ _ _ _ E1). assert (Hu0 : upages sp1 = []).
  { unfold upages. replace (user_ptes (sp_ptes sp1)) with (∅ : gmap Z Z); [by rewrite map_to_list_empty|]. symmetry.
    apply map_empty. intros q. unfold user_ptes. apply map_lookup_filter_None. destruct (sp_ptes sp1 !! q) as [w|] eqn:Eq; [|by left].
    right. intros w' _ Hlt. cbn in Hlt. pose proof (pte_range _ _ _ _ (proj2 Hst1) Eq). rewrite Hf1 in Eq.
    rewrite decide_True in Eq; [done|]. change (npages 0) with 0. consts. lia. }
  destruct Hst1 as [Ho1 Hr1]. rewrite Hu0 in *. unfold tables in Ho1. rewrite Hd1, Ht1 in Ho1. cbn [app] in Ho1.
  destruct (free_tables_spec (Z.to_nat NPDENTRIES) s1 l1 (sp_dir sp) (sp_tabs sp) oth 0 Ho1) as (s2 & l2 & E2 & Ho2 & Hl2 & Hk2);
    [done|done|intros k t Hk; rewrite <- Ht1 in Hk; by apply (r_idx _ _ Hr1) in Hk| |].
  { intros k Hk. rewrite <- Hd1, <- Ht1. by apply (r_dir _ _ Hr1). }
  rewrite (bind_run _ _ _ _ _ E2). destruct (kfree_own _ _ _ _ _ Ho2) as (s3 & E3 & Ho3 & Hk3).
  exists s3, (sp_dir sp :: l2). split; [done|]. split; [done|]. split.
  - rewrite Hl2, Hl1, Hu1, app_nil_r. unfold tables. cbn. by rewrite !app_assoc.
  - eapply keeps_trans; [exact Hk1|]. eapply keeps_trans; [exact Hk2|exact Hk3].
Qed.

(** ** The kernel's mappings *)

Lemma mappages_range dir pn n pa perm s : 0 <= pn -> pn + Z.of_nat (S n) <= NPN ->
  mappages dir (pn * PGSIZE) (Z.of_nat (S n) * PGSIZE) pa perm s =
  mappages_loop (S n) dir (pn * PGSIZE) ((pn + Z.of_nat n) * PGSIZE) pa perm s.
Proof.
  intros Hpn Hn. unfold mappages. rewrite (proj1 (page_span pn ltac:(lia))). cbn zeta.
  replace (pn * PGSIZE + Z.of_nat (S n) * PGSIZE - 1) with ((pn + Z.of_nat n) * PGSIZE + PGSIZE - 1) by (consts; lia).
  rewrite (proj2 (page_span (pn + Z.of_nat n) ltac:(lia))).
  replace ((pn + Z.of_nat n) * PGSIZE - pn * PGSIZE) with (Z.of_nat n * PGSIZE) by (consts; lia).
  rewrite u32_small by (consts; lia). by rewrite Z.div_mul, Nat2Z.id.
Qed.

(** The pages of an entry of kmap: the first, and the number less one *)
Definition k_pn (k : kmap_entry) : Z := k_virt k / PGSIZE.
Definition k_n (k : kmap_entry) : nat := Z.to_nat (u32 (k_phys_end k - k_phys_start k) / PGSIZE - 1).

Record k_ok (k : kmap_entry) : Prop := mkKok {
  k_virt_eq : k_virt k = k_pn k * PGSIZE;
  k_size_eq : u32 (k_phys_end k - k_phys_start k) = Z.of_nat (S (k_n k)) * PGSIZE;
  k_kernel : KPN <= k_pn k;
  k_end : k_pn k + Z.of_nat (S (k_n k)) <= NPN;
  k_aligned : k_phys_start k mod PGSIZE = 0;
  k_start : 0 <= k_phys_start k;
  k_stop : k_phys_start k + Z.of_nat (S (k_n k)) * PGSIZE <= 2 ^ 32;
  k_perm_range : 0 <= k_perm k < PGSIZE
}.

Definition k_map (f : gmap Z Z) (k : kmap_entry) : gmap Z Z := map_range (S (k_n k)) (k_pn k) (k_phys_start k) (k_perm k) f.

Fixpoint fits (f : gmap Z Z) (ks : list kmap_entry) : Prop :=
  match ks with
  | [] => True
  | k :: ks' => k_ok k /\ (forall q, k_pn k <= q < k_pn k + Z.of_nat (S (k_n k)) -> f !! q = None) /\ fits (k_map f k) ks'
  end.

(** Either an address space with the entries [f], or none and no page lost *)
Definition made (s s' : vm) (l held : list Z) (f : gmap Z Z) (r : Z) : Prop :=
  (r = 0 /\ exists l', own s' l' held /\ l' ≡ₚ l /\ keeps s s' held) \/
  (r <> 0 /\ exists l' sp, r = sp_dir sp /\ St s' l' sp held /\ l ≡ₚ tables sp ++ upages sp ++ l' /\ keeps s s' held /\ sp_ptes sp = f).

Lemma map_kernel_spec ks : forall s l sp oth l0, St s l sp oth -> fits (sp_ptes sp) ks -> upages sp = [] -> l0 ≡ₚ tables sp ++ l ->
  exists r s', map_kernel end_ (sp_dir sp) ks s = Ok r s' /\ made s s' l0 oth (foldl k_map (sp_ptes sp) ks) r.
Proof using Hend.
  induction ks as [|k ks IH]; intros s l sp oth l0 Hst Hfit Hu Hl0; cbn [map_kernel].
  - exists (sp_dir sp), s. split; [done|]. right. assert (Hok : page_ok (sp_dir sp)) by (eapply own_held; [apply Hst|apply elem_of_app; left; by left]).
    split; [destruct Hok as (_ & _ & Hok); consts; lia|]. exists l, sp. rewrite Hu. done.
  - destruct Hfit as ([] & Hno & Hfit). rewrite k_virt_eq0, k_size_eq0.
    destruct (mappages_kernel (k_n k) (S (k_n k)) s l sp oth (k_pn k) (k_phys_start k) (k_perm k))
      as (r & s1 & l1 & ts & sp1 & n & E & Hst1 & Hk1 & Hl1 & Hu1 & (Hd1 & Hf1 & Ht1) & Hr); [done..|lia|].
    rewrite (bind_run _ _ _ _ _ (eq_trans (mappages_range (sp_dir sp) (k_pn k) (k_n k) _ _ _ ltac:(consts; lia) k_end0) E)).
    assert (Hl01 : l0 ≡ₚ tables sp1 ++ l1). { rewrite Hl0, Ht1, Hl1. by rewrite !app_assoc, (Permutation_app_comm ts). }
    assert (Hk1' : keeps s s1 oth) by (eapply keeps_sub; [exact Hk1|set_solver]). rewrite <- Hd1.
    destruct Hr as [[-> ->]|Hr].
    + cbn [Z.ltb Z.compare]. destruct (IH s1 l1 sp1 oth l0) as (r & s' & E' & Hm); [done|by rewrite Hf1|by rewrite Hu1|done|].
      exists r, s'. split; [done|]. cbn [foldl]. rewrite Hf1 in Hm. destruct Hm as [(-> & l' & H1 & H2 & H3)|(Hr & l' & sp' & -> & H1 & H2 & H3 & H4)].
      * left. split; [done|]. exists l'. split; [done|]. split; [done|]. by eapply keeps_trans.
      * right. split; [done|]. exists l', sp'. split; [done|]. split; [done|]. split; [done|]. split; [by eapply keeps_trans|done].
    + subst r. cbn [Z.ltb Z.compare]. destruct (freevm_spec _ _ _ _ Hst1) as (s' & l' & E' & Ho' & Hl' & Hk').
      exists 0, s'. split; [by rewrite (bind_run _ _ _ _ _ E')|]. left. split; [done|]. exists l'. split; [done|].
      split; [|by eapply keeps_trans]. rewrite Hl', Hl01, Hu1, Hu. done.
Qed.

(** The data of the kernel starts on a page between its text and its end
    (kernel.ld). *)
Hypothesis Hdata : data_ mod PGSIZE = 0.
Hypothesis Hlink : KERNLINK < data_.
Hypothesis Htop : data_ < KERNBASE + PHYSTOP.

Definition kernel_map : gmap Z Z := foldl k_map ∅ (kmap data_).

(** The kernel's mapping of a page *)
Definition kpte (q : Z) : option Z :=
  let va := q * PGSIZE in
  if decide (KERNBASE <= va < KERNLINK) then Some (entry (va - KERNBASE) PTE_W)
  else if decide (KERNLINK <= va < data_) then Some (entry (va - KERNBASE) 0)
  else if decide (data_ <= va < KERNBASE + PHYSTOP) then Some (entry (va - KERNBASE) PTE_W)
  else if decide (DEVSPACE <= va < 2 ^ 32) then Some (entry va PTE_W)
  else None.

Lemma k_ok_intro k pn n : k_virt k = pn * PGSIZE -> u32 (k_phys_end k - k_phys_start k) = n * PGSIZE -> 0 < n -> KPN <= pn ->
  pn + n <= NPN -> k_phys_start k mod PGSIZE = 0 -> 0 <= k_phys_start k -> k_phys_start k + n * PGSIZE <= 2 ^ 32 ->
  0 <= k_perm k < PGSIZE -> k_pn k = pn /\ Z.of_nat (S (k_n k)) = n /\ k_ok k.
Proof.
  intros Hv Hs Hn Hk He Ha H0 Hst Hp. assert (Epn : k_pn k = pn) by (unfold k_pn; by rewrite Hv, Z.div_mul).
  assert (En : Z.of_nat (S (k_n k)) = n) by (unfold k_n; rewrite Hs, Z.div_mul by done; lia).
  split; [done|]. split; [done|]. split; rewrite ?Epn, ?En; done.
Qed.

(** The entries of kmap, with their pages *)
Lemma kmap_ok : exists dn k1 k2 k3 k4, kmap data_ = [k1; k2; k3; k4] /\ data_ = dn * PGSIZE /\
  (k_pn k1 = KPN /\ Z.of_nat (S (k_n k1)) = 256 /\ k_ok k1) /\
  (k_pn k2 = KPN + 256 /\ Z.of_nat (S (k_n k2)) = dn - (KPN + 256) /\ k_ok k2) /\
  (k_pn k3 = dn /\ Z.of_nat (S (k_n k3)) = KPN + PHYSTOP / PGSIZE - dn /\ k_ok k3) /\
  (k_pn k4 = DEVSPACE / PGSIZE /\ Z.of_nat (S (k_n k4)) = NPN - DEVSPACE / PGSIZE /\ k_ok k4) /\
  k_phys_start k1 = 0 /\ k_phys_start k2 = 256 * PGSIZE /\ k_phys_start k3 = (dn - KPN) * PGSIZE /\
  k_phys_start k4 = DEVSPACE /\ k_perm k1 = PTE_W /\ k_perm k2 = 0 /\ k_perm k3 = PTE_W /\ k_perm k4 = PTE_W /\
  KPN + 256 < dn < KPN + PHYSTOP / PGSIZE.
Proof using Hdata Hlink Htop.
  assert (Hd : data_ = data_ / PGSIZE * PGSIZE) by (by rewrite aligned_div). set (dn := data_ / PGSIZE) in *.
  change (PHYSTOP / PGSIZE) with 57344. change (DEVSPACE / PGSIZE) with 1040384.
  assert (Hdn : KPN + 256 < dn < KPN + 57344) by (consts; lia).
  eexists dn, _, _, _, _. split; [reflexivity|]. split; [done|].
  split; [apply k_ok_intro; cbn; try done; consts; lia|].
  split; [apply k_ok_intro; cbn; try done; rewrite ?u32_small; consts; lia|].
  split; [apply k_ok_intro; cbn; try done; rewrite ?u32_small; try (consts; lia); rewrite Zminus_mod, Hdata; done|].
  split; [apply k_ok_intro; cbn; try done; consts; lia|]. cbn. repeat (split; [consts; lia|]). consts. lia.
Qed.

Lemma k_map_lookup f k q : k_map f k !! q =
  if decide (k_pn k <= q < k_pn k + Z.of_nat (S (k_n k))) then Some (entry (k_phys_start k + (q - k_pn k) * PGSIZE) (k_perm k)) else f !! q.
Proof. apply map_range_lookup. Qed.

Lemma kmap_fits : fits ∅ (kmap data_).
Proof using Hdata Hlink Htop.
  destruct kmap_ok as (dn & k1 & k2 & k3 & k4 & -> & _ & (P1 & N1 & O1) & (P2 & N2 & O2) & (P3 & N3 & O3) & (P4 & N4 & O4) & _ & _ & _ & _ & _ & _ & _ & _ & Hdn).
  change (PHYSTOP / PGSIZE) with 57344 in *. change (DEVSPACE / PGSIZE) with 1040384 in *.
  cbn [fits]. split; [done|]. split; [done|]. split; [done|]. split; [|split; [done|split; [|split; [done|split; [|done]]]]];
    intros q Hq; rewrite !k_map_lookup, ?P1, ?N1, ?P2, ?N2, ?P3, ?N3, ?P4, ?N4 in *; rewrite !decide_False by (consts; lia); done.
Qed.

Lemma kernel_map_lookup q : kernel_map !! q = kpte q.
Proof using Hdata Hlink Htop.
  unfold kernel_map. destruct kmap_ok as (dn & k1 & k2 & k3 & k4 & -> & Hd & (P1 & N1 & _) & (P2 & N2 & _) & (P3 & N3 & _) & (P4 & N4 & _)
    & S1 & S2 & S3 & S4 & M1 & M2 & M3 & M4 & Hdn). cbn [foldl]. rewrite !k_map_lookup.
  rewrite P1, N1, P2, N2, P3, N3, P4, N4, S1, S2, S3, S4, M1, M2, M3, M4. rewrite lookup_empty. unfold kpte. rewrite Hd.
  change (PHYSTOP / PGSIZE) with 57344 in *. change (DEVSPACE / PGSIZE) with 1040384 in *. clear - Hdn.
  repeat case_decide; try (exfalso; consts; lia); try done; do 2 f_equal; consts; lia.
Qed.

Lemma rep_empty m dir : dir mod PGSIZE = 0 -> rep (<[dir := replicate (Z.to_nat PGSIZE) 0]> m) (mkSpace dir ∅ ∅).
Proof. intros Hd. split; cbn; try done. intros i Hi. rewrite lookup_empty. by apply word_zero. Qed.

Lemma setupkvm_spec s l held : own s l held ->
  exists r s', setupkvm end_ data_ s = Ok r s' /\ made s s' l held kernel_map r.
Proof using Hend Hdata Hlink Htop.
  intros Ho. unfold setupkvm. destruct l as [|p l].
  - rewrite (bind_run _ _ _ _ _ (kalloc_none _ _ _ Ho)). exists 0, s. split; [done|]. left. split; [done|]. by exists [].
  - destruct (kalloc_own _ _ _ _ _ Ho) as (s1 & E1 & Ho1 & Em & Hp0). rewrite (bind_run _ _ _ _ _ E1).
    rewrite (proj2 (Z.eqb_neq p 0) Hp0). destruct (own_held _ _ _ _ p Ho1 ltac:(by left)) as [Hok (pg & Hpg & _)].
    rewrite (bind_run _ _ _ _ _ (memset_run _ _ _ _ Hpg)). set (s2 := set_mem _ s1).
    change (P2V PHYSTOP) with (ret (KERNBASE + PHYSTOP) : M vm Z). rewrite bind_ret_l.
    change (KERNBASE + PHYSTOP >? DEVSPACE) with false. cbn iota.
    assert (Hst : St s2 l (mkSpace p ∅ ∅) held).
    { split; [|apply rep_empty, Hok]. unfold tables, upages. cbn. rewrite map_to_list_empty. cbn.
      apply own_put; [done|by left|by rewrite length_replicate]. }
    destruct (map_kernel_spec (kmap data_) s2 l (mkSpace p ∅ ∅) held (p :: l) Hst) as (r & s' & E & Hm);
      [apply kmap_fits|done|done|]. exists r, s'. split; [done|].
    assert (Hk2 : keeps s s2 held).
    { intros q Hq. cbn. rewrite Em. apply lookup_insert_ne. intros <-. eapply own_disjoint; [exact Ho|by left|done]. }
    destruct Hm as [(-> & l' & H1 & H2 & H3)|(Hr & l' & sp' & -> & H1 & H2 & H3 & H4)].
    + left. split; [done|]. exists l'. split; [done|]. split; [done|]. by eapply keeps_trans.
    + right. split; [done|]. exists l', sp'. do 3 (split; [done|]). split; [by eapply keeps_trans|done].
Qed.

End space.

End VmSpace.
