(* ===== verification/VmProps.v ===== *)
(** * Properties of virtual memory

    Growing, copying and freeing user memory: the address space that results,
    what becomes of every page, and that nothing else changes. *)
From S2P Require Import Prelude Words Params CString Kalloc Vm VmRep VmSpace.

Module VmProps.
Import Kalloc Vm VmRep VmSpace.

(** The byte a user program finds at an address *)
Definition ubyte (m : gmap Z (list Z)) (sp : space) (va : Z) : option Z :=
  w ← sp_ptes sp !! (va / PGSIZE);
  pg ← m !! frame w;
  pg !! Z.to_nat (va mod PGSIZE).

(** The pages an address space and the free list hold together *)
Definition pages (sp : space) (l : list Z) : list Z := tables sp ++ upages sp ++ l.

Set Default Proof Using "Type".

Section props.
Context (end_ data_ : Z).
#[local] Abbreviation page_ok := (Kalloc.page_ok end_).
#[local] Abbreviation St := (VmRep.St end_).
#[local] Abbreviation own := (VmRep.own end_).
Hypothesis Hend : KERNBASE < end_.

Lemma perm_mid {A} (p : A) a b c : a ++ b ++ p :: c ≡ₚ p :: a ++ b ++ c.
Proof. rewrite !app_assoc. symmetry. apply Permutation_middle. Qed.

(** ** Growing *)

(** The pages [a, b) are new, user-writable and zero; the rest is as in [f]. *)
Definition fresh (m : gmap Z (list Z)) (a b : Z) (f f' : gmap Z Z) : Prop :=
  forall q, if decide (a <= q < b)
    then exists w, f' !! q = Some w /\ PTE_FLAGS w = Z.lor (Z.lor PTE_W PTE_U) PTE_P /\
      m !! frame w = Some (replicate (Z.to_nat PGSIZE) 0)
    else f' !! q = f !! q.

Lemma fresh_refl m a f : fresh m a a f f.
Proof. intros q. by rewrite decide_False by lia. Qed.

Lemma frame_entry p perm : page_ok p -> 0 <= perm < PGSIZE -> frame (entry (p - KERNBASE) perm) = p.
Proof.
  intros Hok Hp. destruct (page_pa _ p Hok) as [Ha Hpa]. unfold frame.
  destruct (entry_props (p - KERNBASE) perm) as (_ & _ & -> & _); [done|consts; lia|done|lia].
Qed.

Lemma fresh_step m m' a b f f' p : fresh m a b f f' -> a <= b -> page_ok p ->
  (forall q w, a <= q < b -> f' !! q = Some w -> m' !! frame w = m !! frame w) ->
  m' !! p = Some (replicate (Z.to_nat PGSIZE) 0) ->
  fresh m' a (b + 1) f (<[b := entry (p - KERNBASE) (Z.lor PTE_W PTE_U)]> f').
Proof.
  intros Hf Hab Hok Hm Hp q. specialize (Hf q). destruct (decide (q = b)) as [->|Hne].
  - rewrite decide_True by lia. rewrite lookup_insert_eq. eexists. split; [done|]. split.
    + destruct (page_pa _ p Hok) as [Ha Hpa]. destruct (entry_props (p - KERNBASE) (Z.lor PTE_W PTE_U)) as (_ & _ & _ & ->); [done|consts; lia|done|done].
    + by rewrite frame_entry.
  - rewrite lookup_insert_ne by done. destruct (decide (a <= q < b)) as [Hq|Hq].
    + rewrite decide_True by lia. destruct Hf as (w & Hw & Hfl & Hz). exists w. split; [done|]. split; [done|]. by rewrite (Hm q w).
    + by rewrite decide_False by lia.
Qed.

Lemma undo_fresh m a sz f f' f'' b : fresh m a b f f' -> unmapped a sz f' f'' -> b * PGSIZE <= sz + PGSIZE - 1 ->
  (forall q, a <= q -> q * PGSIZE < sz -> f !! q = None) -> f'' = f.
Proof.
  intros Hf Hu Hb Hno. apply map_eq. intros q. rewrite Hu. specialize (Hf q). destruct (decide (a <= q /\ q * PGSIZE < sz)) as [H1|H1].
  - symmetry. apply Hno; tauto.
  - destruct (decide (a <= q < b)) as [Hq|]; [|done]. exfalso. consts. lia.
Qed.

Lemma pages_grow sp sp' f ts l l' p : grows sp sp' f ts -> l = ts ++ l' -> upages sp' ≡ₚ p :: upages sp -> pages sp' l' ≡ₚ pages sp (p :: l).
Proof.
  intros (_ & _ & Ht) -> Hu. unfold pages. rewrite Ht, Hu. cbn [app]. rewrite <- !app_assoc, <- !Permutation_middle.
  constructor. rewrite !(app_assoc (tables sp)). apply Permutation_app_swap_app.
Qed.

(** What allocuvm leaves: the new pages, or what was there before *)
Definition grown (s s' : vm) (l : list Z) (sp : space) (oth : list Z) (oldsz newsz r : Z) : Prop :=
  exists l' sp', St s' l' sp' oth /\ sp_dir sp' = sp_dir sp /\ keeps s s' (upages sp ++ oth) /\ pages sp' l' ≡ₚ pages sp l /\
    (r = newsz /\ fresh (v_mem s') (npages oldsz) (npages newsz) (sp_ptes sp) (sp_ptes sp') \/
     r = 0 /\ sp_ptes sp' = sp_ptes sp).

(** A fresh page, cleared *)
Lemma zero_page s1 p l1 sp1 oth1 : St s1 (p :: l1) sp1 oth1 ->
  exists s2 s3, kalloc s1 = Ok p s2 /\ p <> 0 /\ page_ok p /\ memset_page p 0 s2 = Ok tt s3 /\
    St s3 l1 sp1 (p :: oth1) /\ keeps s1 s3 (tables sp1 ++ upages sp1 ++ oth1) /\ v_mem s3 !! p = Some (replicate (Z.to_nat PGSIZE) 0).
Proof.
  intros [Ho Hr]. destruct (kalloc_own _ _ _ _ _ Ho) as (s2 & E & Ho2 & Em & Hp0).
  destruct (own_held _ _ _ _ p Ho2 ltac:(by left)) as [Hok (pg & Hpg & _)].
  assert (Hk : keeps s1 (set_mem (<[p := replicate (Z.to_nat PGSIZE) 0]> (v_mem s2)) s2) (tables sp1 ++ upages sp1 ++ oth1)).
  { intros q Hq. cbn. rewrite Em. apply lookup_insert_ne. intros <-. eapply own_disjoint; [exact Ho|by left|done]. }
  eexists s2, _. split; [done|]. split; [done|]. split; [done|]. split; [by eapply memset_run|]. split; [split|split; [done|]].
  - eapply own_perm; [|apply own_put; [exact Ho2|by left|by rewrite length_replicate]].
    symmetry. apply perm_mid.
  - eapply rep_frame; [exact Hr|]. intros q Hq. split; [eapply own_aligned; [exact Ho|memb]|apply Hk; memb].
  - apply lookup_insert_eq.
Qed.

Section alloc.
Context (s : vm) (l : list Z) (sp : space) (oth : list Z) (oldsz newsz : Z).
Hypothesis Hsz : 0 <= oldsz <= newsz.
Hypothesis Hnew : newsz < KERNBASE.
Hypothesis Hno : forall q, npages oldsz <= q < npages newsz -> sp_ptes sp !! q = None.

(** Removing the new pages again *)
Lemma undo s1 l1 sp1 oth1 pn : St s1 l1 sp1 oth1 -> sp_dir sp1 = sp_dir sp -> keeps s s1 (upages sp ++ oth) ->
  (forall p, p ∈ oth -> p ∈ oth1) -> oldsz < newsz -> npages oldsz <= pn <= npages newsz ->
  fresh (v_mem s1) (npages oldsz) pn (sp_ptes sp) (sp_ptes sp1) ->
  exists s' l' sp', deallocuvm end_ (sp_dir sp) newsz oldsz s1 = Ok oldsz s' /\ St s' l' sp' oth1 /\ sp_dir sp' = sp_dir sp /\
    keeps s s' (upages sp ++ oth) /\ pages sp' l' ≡ₚ pages sp1 l1 /\ sp_ptes sp' = sp_ptes sp.
Proof using Hend Hsz Hnew Hno.
  intros Hst Hd Hk Hoth Hlt Hpn Hf. rewrite <- Hd.
  destruct (deallocuvm_spec _ Hend _ _ _ _ newsz oldsz Hst ltac:(lia) ltac:(lia)) as (s' & l' & fr & sp' & E & Hst' & Hk' & Hl & Hu & Hd' & Ht' & Hun).
  assert (Hp : sp_ptes sp' = sp_ptes sp).
  { eapply undo_fresh; [exact Hf|exact Hun| |]; [pose proof (npages_spec newsz); consts; lia|].
    intros q H1 H2. apply Hno. split; [done|by apply npages_lt]. }
  assert (Hup : upages sp' = upages sp) by (unfold upages; by rewrite Hp). rewrite Hup in *.
  exists s', l', sp'. split; [done|]. split; [done|]. split; [by rewrite Hd'|].
  split; [eapply keeps_trans; [exact Hk|]; eapply keeps_sub; [exact Hk'|]; intros q; rewrite !elem_of_app; naive_solver|]. split; [|done].
  unfold pages, tables. rewrite Hd', Ht', Hup, Hl, Hu. cbn. by rewrite <- !app_assoc, (Permutation_app_swap_app fr).
Qed.

Lemma alloc_loop fuel : forall s1 l1 sp1 pn, St s1 l1 sp1 oth -> sp_dir sp1 = sp_dir sp -> keeps s s1 (upages sp ++ oth) ->
  pages sp1 l1 ≡ₚ pages sp l -> (forall p, p ∈ upages sp -> p ∈ upages sp1) -> npages oldsz <= pn <= npages newsz ->
  fresh (v_mem s1) (npages oldsz) pn (sp_ptes sp) (sp_ptes sp1) -> newsz <= (pn + Z.of_nat fuel) * PGSIZE ->
  exists r s', allocuvm_loop end_ fuel (sp_dir sp) (pn * PGSIZE) oldsz newsz s1 = Ok r s' /\ grown s s' l sp oth oldsz newsz r.
Proof using Hend Hsz Hnew Hno.
  induction fuel as [|fuel IH]; intros s1 l1 sp1 pn Hst Hd Hk Hpg Hsub Hpn Hf Hfu; cbn [allocuvm_loop];
    (destruct (Z.ltb_spec (pn * PGSIZE) newsz) as [Hlt|Hge];
      [|exists newsz, s1; split; [done|]; exists l1, sp1; do 4 (split; [done|]); left; split; [done|];
        by replace (npages newsz) with pn by (pose proof (npages_spec newsz); consts; lia)]); [consts; lia|].
  assert (Hold : oldsz < newsz) by (pose proof (npages_spec oldsz); consts; lia).
  pose proof (npages_nonneg oldsz ltac:(lia)) as Hn0. assert (Hpn' : pn < npages newsz) by (by apply npages_lt).
  assert (Hnk : pn < KPN) by (consts; lia). destruct l1 as [|p l1].
  - rewrite (bind_run _ _ _ _ _ (kalloc_none _ _ _ (proj1 Hst))). cbn [Z.eqb].
    destruct (undo s1 [] sp1 oth pn) as (s' & l' & sp' & E & H1 & H2 & H3 & H4 & H5); [done..|].
    exists 0, s'. split; [by rewrite (bind_run _ _ _ _ _ E)|]. exists l', sp'. do 3 (split; [done|]). split; [by rewrite H4|by right].
  - destruct (zero_page _ _ _ _ _ Hst) as (s2 & s3 & E2 & Hp0 & Hok & E3 & Hst3 & Hk3 & Hz).
    rewrite (bind_run _ _ _ _ _ E2), (proj2 (Z.eqb_neq p 0) Hp0), (bind_run _ _ _ _ _ E3), (bind_run _ _ _ _ _ (V2P_frame _ _ _ Hok)).
    assert (Hks3 : keeps s s3 (upages sp ++ oth)) by (eapply keeps_trans; [exact Hk|]; eapply keeps_sub; [exact Hk3|memb]).
    assert (Hfr3 : fresh (v_mem s3) (npages oldsz) pn (sp_ptes sp) (sp_ptes sp1)).
    { intros q. specialize (Hf q). destruct (decide _) as [Hq|]; [|done]. destruct Hf as (w & Hw & Hfl & Hzw). exists w. do 2 (split; [done|]).
      rewrite Hk3; [done|]. pose proof (upage_in _ _ _ Hw ltac:(lia)). memb. }
    assert (Hnone : sp_ptes sp1 !! pn = None). { specialize (Hf pn). rewrite decide_False in Hf by lia. rewrite Hf. apply Hno. lia. }
    rewrite <- Hd. destruct (mappages_user _ _ _ _ _ _ pn (Z.lor PTE_W PTE_U) Hst3 ltac:(lia) Hnone ltac:(done))
      as [[-> E4]|(s4 & l4 & ts & sp4 & E4 & Hst4 & Hk4 & Hl4 & Hg)]; rewrite (bind_run _ _ _ _ _ E4).
    + cbn [Z.ltb Z.compare]. rewrite Hd. destruct (undo s3 [] sp1 (p :: oth) pn) as (s' & l' & sp' & E & H1 & H2 & H3 & H4 & H5);
        [done|done|done|by right|done|done|done|].
      rewrite (bind_run _ _ _ _ _ E). destruct H1 as [Ho1 Hr1].
      destruct (kfree_own end_ s' l' p (tables sp' ++ upages sp' ++ oth)) as (s5 & E5 & Ho5 & Hk5).
      { eapply own_perm; [|exact Ho1]. apply perm_mid. }
      exists 0, s5. split; [by rewrite (bind_run _ _ _ _ _ E5)|]. exists (p :: l'), sp'. split; [split; [done|]|].
      { eapply rep_frame; [exact Hr1|]. intros q Hq. split; [eapply own_aligned; [exact Ho5|memb]|apply Hk5; memb]. }
      split; [done|]. split; [|split; [|by right]].
      * eapply keeps_trans; [exact H3|]. eapply keeps_sub; [exact Hk5|]. intros q. unfold upages. rewrite H5. memb.
      * rewrite <- Hpg. transitivity (p :: pages sp' l'); [apply perm_mid|]. rewrite H4. symmetry. apply perm_mid.
    + cbn [Z.ltb Z.compare]. destruct Hg as (Hd4 & Hf4 & Ht4). rewrite Hd.
      replace (u32 (pn * PGSIZE + PGSIZE)) with ((pn + 1) * PGSIZE) by (rewrite u32_small; consts; lia).
      assert (Hu4 : upages sp4 ≡ₚ p :: upages sp1).
      { unfold upages at 1. rewrite Hf4. change (upages (set_ptes (<[pn:=entry (p - KERNBASE) (Z.lor PTE_W PTE_U)]> (sp_ptes sp1)) sp1) ≡ₚ p :: upages sp1).
        rewrite upages_insert by done. unfold claim. rewrite decide_True by lia. by rewrite frame_entry. }
      apply (IH s4 l4 sp4 (pn + 1)); [done|by rewrite Hd4| | |intros q Hq; rewrite Hu4; right; by apply Hsub|lia| |consts; lia].
      * eapply keeps_trans; [exact Hks3|]. eapply keeps_sub; [exact Hk4|memb].
      * rewrite <- Hpg. by eapply pages_grow.
      * rewrite Hf4. eapply fresh_step; [exact Hfr3|lia|done| |by rewrite Hk4 by memb].
        intros q w Hq Hw. apply Hk4. pose proof (upage_in _ _ _ Hw ltac:(lia)). memb.
Qed.

End alloc.

(** ** Copying *)

(** The pages below [b] are copies of those of [sp], in [m]; the rest is as in [f]. *)
Definition copied (m : gmap Z (list Z)) (b : Z) (sp : space) (f f' : gmap Z Z) : Prop :=
  forall q, if decide (0 <= q < b)
    then exists w w', sp_ptes sp !! q = Some w /\ f' !! q = Some w' /\ PTE_FLAGS w' = PTE_FLAGS w /\ m !! frame w' = m !! frame w
    else f' !! q = f !! q.

Lemma odd_flags w : w mod 2 = 1 -> Z.lor (PTE_FLAGS w) PTE_P = PTE_FLAGS w.
Proof.
  intros Hw. apply Z.bits_inj'. intros i Hi. rewrite Z.lor_spec. unfold PTE_P. destruct (Z.eq_dec i 0) as [->|Hne].
  - rewrite <- Z.bit0_mod in Hw. unfold PTE_FLAGS. rewrite Z.land_spec. change (Z.testbit 4095 0) with true.
    destruct (Z.testbit w 0); [done|]. cbn in Hw. lia.
  - rewrite (testbit_above 1 1 i) by lia. by rewrite orb_false_r.
Qed.

Lemma flags_range w : 0 <= PTE_FLAGS w < PGSIZE.
Proof. rewrite PTE_FLAGS_mod. by apply Z.mod_pos_bound. Qed.

Lemma copied_step m m' b sp f f' w p : copied m b sp f f' -> 0 <= b -> page_ok p -> sp_ptes sp !! b = Some w -> w mod 2 = 1 ->
  (forall q w, 0 <= q < b -> f' !! q = Some w -> m' !! frame w = m !! frame w) ->
  (forall q w, 0 <= q < b -> sp_ptes sp !! q = Some w -> m' !! frame w = m !! frame w) ->
  m' !! p = m' !! frame w -> copied m' (b + 1) sp f (<[b := entry (p - KERNBASE) (PTE_FLAGS w)]> f').
Proof.
  intros Hc Hb Hok Hw Hodd Hm Hm' Hp q. specialize (Hc q). destruct (decide (q = b)) as [->|Hne].
  - rewrite decide_True by lia. rewrite lookup_insert_eq. eexists w, _. split; [done|]. split; [done|].
    destruct (page_pa _ p Hok) as [Ha Hpa]. split; [|by rewrite frame_entry by (done || apply flags_range)].
    destruct (entry_props (p - KERNBASE) (PTE_FLAGS w)) as (_ & _ & _ & ->); [done|consts; lia|apply flags_range|by apply odd_flags].
  - rewrite lookup_insert_ne by done. destruct (decide (0 <= q < b)) as [Hq|Hq].
    + rewrite decide_True by lia. destruct Hc as (w1 & w2 & H1 & H2 & H3 & H4). exists w1, w2. do 3 (split; [done|]).
      by rewrite (Hm q w2), (Hm' q w1).
    + by rewrite decide_False by lia.
Qed.

(** Two address spaces side by side *)
Lemma St_swap s l d sp oth : St s l d (tables sp ++ upages sp ++ oth) -> rep (v_mem s) sp -> St s l sp (tables d ++ upages d ++ oth).
Proof.
  intros [Ho Hr] Hr'. split; [|done]. eapply own_perm; [|exact Ho]. rewrite !app_assoc. f_equiv. rewrite <- !app_assoc.
  rewrite (app_assoc (tables d)), (app_assoc (tables sp)). rewrite Permutation_app_comm. by rewrite <- !app_assoc.
Qed.

Section copy.
Context (s : vm) (l : list Z) (sp : space) (oth : list Z) (sz : Z).
Hypothesis Hst0 : St s l sp oth.
Hypothesis Hsz : 0 <= sz <= KERNBASE.
Hypothesis Hpres : forall q, 0 <= q < npages sz -> is_Some (sp_ptes sp !! q).

#[local] Abbreviation held := (tables sp ++ upages sp ++ oth).

(** The parent, beside the child *)
Lemma parent_St s1 l1 d : St s1 l1 d held -> keeps s s1 held -> St s1 l1 sp (tables d ++ upages d ++ oth).
Proof using Hst0 sz Hsz.
  intros Hst Hk. apply St_swap; [done|]. eapply rep_frame; [apply Hst0|]. intros p Hp.
  split; [eapply own_aligned; [apply Hst|memb]|apply Hk; memb].
Qed.

(** kalloc and the copy of a page *)
Lemma copy_page s1 p l1 d oth1 src pg : St s1 (p :: l1) d oth1 -> v_mem s1 !! src = Some pg -> length pg = Z.to_nat PGSIZE ->
  src ∈ oth1 -> exists s2 s3, kalloc s1 = Ok p s2 /\ p <> 0 /\ page_ok p /\ page src s2 = Ok pg s2 /\ copy_to p pg s2 = Ok tt s3 /\
    St s3 l1 d (p :: oth1) /\ keeps s1 s3 (tables d ++ upages d ++ oth1) /\ v_mem s3 !! p = Some pg.
Proof using sz Hsz.
  intros [Ho Hr] Hsrc Hl Hin. destruct (kalloc_own _ _ _ _ _ Ho) as (s2 & E & Ho2 & Em & Hp0).
  destruct (own_held _ _ _ _ p Ho2 ltac:(by left)) as [Hok (pg0 & Hpg0 & Hl0)].
  assert (Hb : base p = p /\ offset p = 0%nat). { unfold base, offset. destruct Hok as (-> & _). split; [lia|done]. }
  assert (Hk : keeps s1 (set_mem (<[p := pg]> (v_mem s2)) s2) (tables d ++ upages d ++ oth1)).
  { intros q Hq. cbn. rewrite Em. apply lookup_insert_ne. intros <-. eapply own_disjoint; [exact Ho|by left|done]. }
  eexists s2, (set_mem (<[p := pg]> (v_mem s2)) s2). do 3 (split; [done|]). split; [apply page_run; by rewrite Em|]. split; [|split; [split|split; [done|]]].
  - unfold copy_to. destruct Hb as [-> ->]. rewrite (bind_run _ _ _ _ _ (page_run _ _ _ Hpg0)).
    unfold put_page, modify. by rewrite splice_0_all by (by rewrite Hl).
  - eapply own_perm; [|apply own_put; [exact Ho2|by left|done]]. symmetry. apply perm_mid.
  - eapply rep_frame; [exact Hr|]. intros q Hq. split; [eapply own_aligned; [exact Ho|memb]|apply Hk; memb].
  - apply lookup_insert_eq.
Qed.

Lemma copy_loop fuel f0 : forall s1 l1 d pn, St s1 l1 d held -> keeps s s1 held -> pages d l1 ≡ₚ l -> 0 <= pn <= npages sz ->
  (forall q, 0 <= q < KPN -> f0 !! q = None) ->
  copied (v_mem s1) pn sp f0 (sp_ptes d) -> sz <= (pn + Z.of_nat fuel) * PGSIZE ->
  exists b s' l' d', copyuvm_loop end_ fuel (sp_dir sp) (sp_dir d) (pn * PGSIZE) sz s1 = Ok b s' /\ St s' l' d' held /\
    sp_dir d' = sp_dir d /\ keeps s s' held /\ pages d' l' ≡ₚ l /\ (b = true -> copied (v_mem s') (npages sz) sp f0 (sp_ptes d')).
Proof using Hst0 Hsz Hpres.
  induction fuel as [|fuel IH]; intros s1 l1 d pn Hst Hk Hpg Hpn Hf0 Hc Hfu; cbn [copyuvm_loop];
    (destruct (Z.ltb_spec (pn * PGSIZE) sz) as [Hlt|Hge];
      [|exists true, s1, l1, d; do 5 (split; [done|]); intros _; by replace (npages sz) with pn by (pose proof (npages_spec sz); consts; lia)]);
    [consts; lia|].
  assert (Hpn' : pn < npages sz) by (by apply npages_lt). assert (Hkpn : pn < KPN) by (consts; lia).
  destruct (Hpres pn ltac:(lia)) as [w Hw]. destruct (r_pte _ _ (proj2 Hst0) _ _ Hw) as ([t Ht] & Hwr & Hodd).
  pose proof (parent_St _ _ _ Hst Hk) as Hpar. pose proof (upage_in _ _ _ Hw Hkpn) as Hfw.
  destruct (own_held _ _ _ _ (frame w) (proj1 Hst) ltac:(memb)) as [Hokw (pg & Hpgw & Hlw)].
  destruct (own_held _ _ _ _ t (proj1 Hpar) ltac:(pose proof (tab_in _ _ _ Ht); memb)) as [(_ & _ & Hokt) _].
  assert (0 <= pn mod 1024) by (by apply Z.mod_pos_bound).
  rewrite (bind_run _ _ _ _ _ (walk_present _ _ _ _ _ pn false t Hpar ltac:(consts; lia) Ht)).
  rewrite (proj2 (Z.eqb_neq (t + _) 0)) by (consts; lia). rewrite (bind_run _ _ _ _ _ (rd_entry _ _ _ _ _ _ _ Hpar Ht)).
  rewrite Hw. cbn [default]. unfold id. rewrite (PTE_P_mod w), Hodd. cbn [Z.eqb].
  assert (Hnone : sp_ptes d !! pn = None). { specialize (Hc pn). rewrite decide_False in Hc by lia. rewrite Hc. apply Hf0. lia. }
  destruct l1 as [|p l1].
  - rewrite (bind_run _ _ _ _ _ (kalloc_none _ _ _ (proj1 Hst))). exists false, s1, [], d. by do 5 (split; [done|]).
  - destruct (copy_page _ _ _ _ _ _ _ Hst Hpgw Hlw ltac:(memb)) as (s2 & s3 & E2 & Hp0 & Hok & Er & E3 & Hst3 & Hk3 & Hz).
    rewrite (bind_run _ _ _ _ _ E2), (proj2 (Z.eqb_neq p 0) Hp0), (bind_run _ _ _ _ _ (frame_P2V _ _ _ Hokw)).
    rewrite (bind_run _ _ _ _ _ Er), (bind_run _ _ _ _ _ E3), (bind_run _ _ _ _ _ (V2P_frame _ _ _ Hok)).
    assert (Hks3 : keeps s s3 held) by (eapply keeps_trans; [exact Hk|]; eapply keeps_sub; [exact Hk3|memb]).
    destruct (mappages_user _ _ _ _ _ _ pn (PTE_FLAGS w) Hst3 ltac:(lia) Hnone (flags_range w))
      as [[-> E4]|(s4 & l4 & ts & d4 & E4 & Hst4 & Hk4 & Hl4 & Hg)]; rewrite (bind_run _ _ _ _ _ E4); cbn [Z.ltb Z.compare].
    + destruct Hst3 as [Ho3 Hr3]. destruct (kfree_own end_ s3 [] p (tables d ++ upages d ++ held)) as (s5 & E5 & Ho5 & Hk5).
      { eapply own_perm; [|exact Ho3]. apply perm_mid. }
      exists false, s5, [p], d. split; [by rewrite (bind_run _ _ _ _ _ E5)|]. split; [split; [done|]|].
      { eapply rep_frame; [exact Hr3|]. intros q Hq. split; [eapply own_aligned; [exact Ho5|memb]|apply Hk5; memb]. }
      split; [done|]. split; [eapply keeps_trans; [exact Hks3|]; eapply keeps_sub; [exact Hk5|memb]|done].
    + pose proof Hg as (Hd4 & Hf4 & Ht4). rewrite <- Hd4.
      replace (u32 (pn * PGSIZE + PGSIZE)) with ((pn + 1) * PGSIZE) by (rewrite u32_small; consts; lia).
      assert (Hu4 : upages d4 ≡ₚ p :: upages d).
      { unfold upages at 1. rewrite Hf4. change (upages (set_ptes (<[pn:=entry (p - KERNBASE) (PTE_FLAGS w)]> (sp_ptes d)) d) ≡ₚ p :: upages d).
        rewrite upages_insert by done. unfold claim. rewrite decide_True by lia. by rewrite frame_entry by (done || apply flags_range). }
      assert (Hk14 : forall q, q ∈ upages d ++ held -> v_mem s4 !! q = v_mem s1 !! q).
      { intros q Hq. rewrite Hk4 by memb. apply Hk3. memb. }
      apply (IH s4 l4 d4 (pn + 1)); [done| | |lia|done| |consts; lia].
      * eapply keeps_trans; [exact Hks3|]. eapply keeps_sub; [exact Hk4|memb].
      * rewrite <- Hpg. by eapply pages_grow.
      * rewrite Hf4. eapply copied_step; [exact Hc|lia|done|done|done| | |].
        -- intros q w' Hq Hw'. apply Hk14. pose proof (upage_in _ _ _ Hw' ltac:(lia)). memb.
        -- intros q w' Hq Hw'. apply Hk14. pose proof (upage_in _ _ _ Hw' ltac:(lia)). memb.
        -- rewrite Hk4 by memb. rewrite Hk14 by memb. by rewrite Hz, Hpgw.
Qed.

End copy.

End props.

Lemma allocuvm_spec end_ s l sp oth oldsz newsz : KERNBASE < end_ -> St end_ s l sp oth ->
  0 <= oldsz <= newsz -> newsz < KERNBASE -> (forall q, npages oldsz <= q < npages newsz -> sp_ptes sp !! q = None) ->
  exists r s', allocuvm end_ (sp_dir sp) oldsz newsz s = Ok r s' /\ grown end_ s s' l sp oth oldsz newsz r.
Proof.
  intros Hend Hst Hsz Hnew Hno. unfold allocuvm. destruct (Z.geb_spec newsz KERNBASE); [lia|].
  rewrite (proj2 (Z.ltb_ge newsz oldsz)) by lia. rewrite PGROUNDUP_npages by (consts; lia).
  pose proof (npages_spec oldsz). pose proof (npages_spec newsz). pose proof (npages_nonneg oldsz ltac:(lia)).
  pose proof (Z.div_mod newsz PGSIZE ltac:(done)). pose proof (Z.mod_pos_bound newsz PGSIZE ltac:(done)).
  assert (0 <= newsz / PGSIZE) by (apply Z.div_pos; consts; lia).
  eapply alloc_loop; try done; [consts; lia|apply fresh_refl|]. rewrite Z2Nat.id by lia. consts. lia.
Qed.

(** ** The theorems *)

(** C23: growing user memory is all or nothing.  allocuvm either returns the new
    size, and the pages between the old and the new size are new pages of
    zeroes that the user can read and write, or it returns 0 and leaves exactly
    the mappings there were.  In both cases every page it took from the free
    list is in the page table or back on the list, and the contents of all
    other pages are unchanged. *)
Theorem allocuvm_correct end_ s l sp oth oldsz newsz : KERNBASE < end_ -> St end_ s l sp oth ->
  0 <= oldsz <= newsz -> newsz < KERNBASE -> (forall q, npages oldsz <= q < npages newsz -> sp_ptes sp !! q = None) ->
  exists r s', allocuvm end_ (sp_dir sp) oldsz newsz s = Ok r s' /\
    exists l' sp', St end_ s' l' sp' oth /\ sp_dir sp' = sp_dir sp /\ keeps s s' (upages sp ++ oth) /\ pages sp' l' ≡ₚ pages sp l /\
      (r = newsz /\ fresh (v_mem s') (npages oldsz) (npages newsz) (sp_ptes sp) (sp_ptes sp') \/
       r = 0 /\ sp_ptes sp' = sp_ptes sp).
Proof. apply allocuvm_spec. Qed.

(** Freeing an address space gives every page of it, tables and user memory,
    back to the free list, once, and changes no other page. *)
Theorem freevm_correct end_ s l sp oth : KERNBASE < end_ -> St end_ s l sp oth ->
  exists s' l', freevm end_ (sp_dir sp) s = Ok tt s' /\ own end_ s' l' oth /\ l' ≡ₚ pages sp l /\ keeps s s' oth.
Proof. intros Hend Hst. by apply freevm_spec. Qed.

Lemma copied_ubyte m m0 sp d f sz va : copied m (npages sz) sp f (sp_ptes d) -> 0 <= va < sz ->
  (forall w, sp_ptes sp !! (va / PGSIZE) = Some w -> m !! frame w = m0 !! frame w) -> ubyte m d va = ubyte m0 sp va.
Proof.
  intros Hc Hva Hm. specialize (Hc (va / PGSIZE)). assert (Hq : 0 <= va / PGSIZE < npages sz).
  { split; [apply Z.div_pos; consts; lia|]. apply npages_lt. pose proof (Z.div_mod va PGSIZE ltac:(done)).
    pose proof (Z.mod_pos_bound va PGSIZE ltac:(done)). consts. lia. }
  rewrite decide_True in Hc by done. destruct Hc as (w & w' & Hw & Hw' & _ & E). unfold ubyte. rewrite Hw, Hw'. cbn.
  by rewrite E, Hm.
Qed.

(** C22: copying the memory of a process is all or nothing.  copyuvm either makes
    a new address space, in which the user finds at every address below [sz]
    the byte and at every page the permissions of the original, above it
    nothing, and from KERNBASE on the kernel's mappings; or it returns 0 and
    every page it took is back on the free list.  The original, and all other
    pages in use, are unchanged, and the new address space shares no page with
    them. *)
Theorem copyuvm_correct end_ data_ s l sp oth sz : KERNBASE < end_ ->
  data_ mod PGSIZE = 0 -> KERNLINK < data_ -> data_ < KERNBASE + PHYSTOP ->
  St end_ s l sp oth -> 0 <= sz <= KERNBASE -> (forall q, 0 <= q < npages sz -> is_Some (sp_ptes sp !! q)) ->
  let held := tables sp ++ upages sp ++ oth in
  exists r s', copyuvm end_ data_ (sp_dir sp) sz s = Ok r s' /\ keeps s s' held /\
    (r = 0 /\ (exists l', own end_ s' l' held /\ l' ≡ₚ l) \/
     r <> 0 /\ exists l' d, r = sp_dir d /\ St end_ s' l' d held /\ pages d l' ≡ₚ l /\
       (forall va, 0 <= va < sz -> ubyte (v_mem s') d va = ubyte (v_mem s) sp va) /\
       (forall q, if decide (0 <= q < npages sz) then PTE_FLAGS <$> sp_ptes d !! q = PTE_FLAGS <$> sp_ptes sp !! q
                  else sp_ptes d !! q = kpte data_ q)).
Proof.
  intros Hend Hd1 Hd2 Hd3 Hst Hsz Hpres held. unfold copyuvm.
  destruct (setupkvm_spec end_ data_ Hend Hd1 Hd2 Hd3 s l held (proj1 Hst))
    as (r & s1 & E & [(-> & l1 & Ho1 & Hl1 & Hk1)|(Hr & l1 & d & -> & Hst1 & Hl1 & Hk1 & Hf1)]); rewrite (bind_run _ _ _ _ _ E).
  { exists 0, s1. split; [done|]. split; [done|]. left. split; [done|]. by exists l1. }
  rewrite (proj2 (Z.eqb_neq _ 0) Hr). pose proof (npages_nonneg sz ltac:(lia)).
  pose proof (Z.div_mod sz PGSIZE ltac:(done)). pose proof (Z.mod_pos_bound sz PGSIZE ltac:(done)).
  assert (0 <= sz / PGSIZE) by (apply Z.div_pos; consts; lia).
  destruct (copy_loop end_ s l sp oth sz Hst Hsz Hpres (Z.to_nat (sz / PGSIZE + 1)) (kernel_map data_) s1 l1 d 0)
    as (b & s2 & l2 & d2 & E2 & Hst2 & Hd & Hk2 & Hl2 & Hc); [done|done|done|lia| | |rewrite Z2Nat.id by lia; consts; lia|].
  { intros q Hq. rewrite kernel_map_lookup by done. unfold kpte. by rewrite !decide_False by (consts; lia). }
  { intros q. rewrite decide_False by lia. rewrite Hf1. reflexivity. }
  rewrite (bind_run _ _ _ _ _ E2). destruct b.
  - exists (sp_dir d), s2. split; [done|]. split; [done|]. right. split; [done|]. exists l2, d2. do 3 (split; [done|]).
    specialize (Hc eq_refl). split.
    + intros va Hva. eapply copied_ubyte; [done|done|]. intros w Hw. apply Hk2.
      assert (frame w ∈ upages sp); [|unfold held; memb]. eapply upage_in; [done|]. apply Z.div_lt_upper_bound; consts; lia.
    + intros q. specialize (Hc q). case_decide; [|by rewrite Hc, kernel_map_lookup].
      destruct Hc as (w & w' & -> & -> & Hfl & _). cbn. by rewrite Hfl.
  - rewrite <- Hd. destruct (freevm_spec _ Hend _ _ _ _ Hst2) as (s3 & l3 & E3 & Ho3 & Hl3 & Hk3).
    exists 0, s3. split; [by rewrite (bind_run _ _ _ _ _ E3)|]. split; [by eapply keeps_trans|]. left. split; [done|].
    exists l3. split; [done|]. rewrite Hl3. done.
Qed.

(** ** Writing into user memory *)

(** The bytes from [va] on become [src]; the others are kept. *)
Definition written (m m' : gmap Z (list Z)) (sp : space) (va : Z) (src : list Z) : Prop :=
  forall a, 0 <= a < KERNBASE -> ubyte m' sp a = if decide (va <= a < va + zlen src) then src !! Z.to_nat (a - va) else ubyte m sp a.

(** The page can be written from user space. *)
Definition user_page (sp : space) (q : Z) : Prop := exists w, sp_ptes sp !! q = Some w /\ Z.land w PTE_U <> 0.

Section copyout.
Context (end_ : Z).
#[local] Abbreviation St := (VmRep.St end_).

Lemma frame_inj sp q1 q2 w1 w2 : NoDup (upages sp) -> sp_ptes sp !! q1 = Some w1 -> sp_ptes sp !! q2 = Some w2 ->
  q1 < KPN -> q2 < KPN -> frame w1 = frame w2 -> q1 = q2.
Proof.
  intros Hn H1 H2 Hk1 Hk2 E. destruct (decide (q1 = q2)) as [|Hne]; [done|]. exfalso.
  rewrite (upages_delete _ _ _ H1) in Hn. unfold claim in Hn. rewrite decide_True in Hn by done. apply NoDup_cons in Hn as [Hn _].
  apply Hn. rewrite E. apply (upage_in _ q2); [|done]. cbn. by rewrite lookup_delete_ne.
Qed.

Lemma uva2ka_run s l sp oth q w : St s l sp oth -> 0 <= q < KPN -> sp_ptes sp !! q = Some w -> Z.land w PTE_U <> 0 ->
  uva2ka (sp_dir sp) (q * PGSIZE) s = Ok (frame w) s /\ Kalloc.page_ok end_ (frame w).
Proof.
  intros Hst Hq Hw Hu. destruct (r_pte _ _ (proj2 Hst) _ _ Hw) as ([t Ht] & _ & Hodd).
  destruct (own_held _ _ _ _ (frame w) (proj1 Hst)) as [Hok _]; [pose proof (upage_in _ _ _ Hw ltac:(lia)); memb|]. split; [|done].
  destruct (own_held _ _ _ _ t (proj1 Hst)) as [(_ & _ & Hokt) _]; [pose proof (tab_in _ _ _ Ht); memb|].
  assert (0 <= q mod 1024) by (by apply Z.mod_pos_bound).
  unfold uva2ka. rewrite (bind_run _ _ _ _ _ (walk_present _ _ _ _ _ q false t Hst ltac:(consts; lia) Ht)).
  rewrite (proj2 (Z.eqb_neq (t + _) 0)) by (consts; lia). rewrite (bind_run _ _ _ _ _ (rd_entry _ _ _ _ _ _ _ Hst Ht)).
  rewrite Hw. cbn [default]. unfold id. rewrite (PTE_P_mod w), Hodd. cbn [Z.eqb]. rewrite (proj2 (Z.eqb_neq _ 0) Hu).
  by eapply frame_P2V.
Qed.

(** One round: [src] goes into the page of [va]. *)
Lemma copy_round s l sp oth q w o src : St s l sp oth -> 0 <= q < KPN -> sp_ptes sp !! q = Some w -> 0 <= o < PGSIZE -> o + zlen src <= PGSIZE ->
  exists s', copy_to (frame w + o) src s = Ok tt s' /\ St s' l sp oth /\ keeps s s' oth /\
    written (v_mem s) (v_mem s') sp (q * PGSIZE + o) src.
Proof.
  intros Hst Hq Hw Ho Hlen. pose proof (St_nodup _ _ _ _ _ Hst) as Hnd. apply NoDup_app in Hnd as (_ & Hd1 & Hnd).
  apply NoDup_app in Hnd as (Hnu & Hd2 & _). pose proof (upage_in _ _ _ Hw ltac:(lia)) as Hin.
  destruct (own_held _ _ _ _ (frame w) (proj1 Hst) ltac:(memb)) as [(Hal & _ & _) (pg & Hpg & Hl)]. unfold zlen in Hlen.
  assert (Hmod : (frame w + o) mod PGSIZE = o) by (rewrite <- Z.add_mod_idemp_l, Hal by done; by rewrite Z.add_0_l, Z.mod_small).
  assert (Hb : base (frame w + o) = frame w) by (unfold base; lia).
  assert (Hlen' : length (splice (Z.to_nat o) src pg) = Z.to_nat PGSIZE) by (rewrite length_splice by lia; done).
  eexists. split; [unfold copy_to, offset; rewrite Hb, Hmod, (bind_run _ _ _ _ _ (page_run _ _ _ Hpg)); reflexivity|].
  split; [split; [apply own_put; [apply Hst|memb|done]|]|split].
  - eapply rep_frame; [apply Hst|]. intros p Hp. split; [eapply own_aligned; [apply Hst|memb]|]. cbn. apply lookup_insert_ne.
    intros <-. by apply (Hd1 (frame w) Hp); memb.
  - apply put_keeps. intros Hx. by apply (Hd2 (frame w)).
  - intros a Ha. cbn. unfold ubyte. pose proof (Z.div_mod a PGSIZE ltac:(done)) as Hdm. pose proof (Z.mod_pos_bound a PGSIZE ltac:(done)) as Hmb.
    assert (Hak : a / PGSIZE < KPN) by (apply Z.div_lt_upper_bound; consts; lia).
    destruct (decide (a / PGSIZE = q)) as [Eq|Hqa].
    + rewrite Eq, Hw. cbn. rewrite lookup_insert_eq, Hpg. cbn. rewrite CString.splice_lookup by lia.
      assert (Ea : a - (q * PGSIZE + o) = a mod PGSIZE - o) by (rewrite <- Eq; lia). unfold zlen.
      repeat case_decide; try lia; [f_equal; lia|done].
    + rewrite decide_False by (unfold zlen; consts; lia). destruct (sp_ptes sp !! (a / PGSIZE)) as [w'|] eqn:Ew; [|done]. cbn.
      rewrite lookup_insert_ne; [done|]. intros E. apply Hqa. symmetry. by apply (frame_inj sp q _ w w' Hnu Hw Ew (proj2 Hq)).
Qed.

Lemma written_nil m sp va : written m m sp va [].
Proof. intros a Ha. by rewrite decide_False by (unfold zlen; cbn; lia). Qed.

Lemma written_app m1 m2 m3 sp va va' src1 src2 : written m1 m2 sp va src1 -> written m2 m3 sp va' src2 ->
  (src2 = [] \/ va' = va + zlen src1) -> written m1 m3 sp va (src1 ++ src2).
Proof.
  intros H1 H2 Hva a Ha. rewrite (H2 a Ha), (H1 a Ha). unfold zlen in *. rewrite length_app. destruct Hva as [-> | ->].
  - rewrite app_nil_r. cbn. rewrite decide_False by lia. by rewrite Nat.add_0_r.
  - destruct (decide (va <= a < va + Z.of_nat (length src1))).
    + rewrite decide_False, decide_True by lia. by rewrite lookup_app_l by lia.
    + destruct (decide (_ <= a < _)).
      * rewrite decide_True by lia. rewrite lookup_app_r by lia. f_equal. lia.
      * by rewrite decide_False by lia.
Qed.

Lemma copyout_loop_spec fuel : forall s l sp oth va src, St s l sp oth -> 0 <= va -> va + zlen src <= KERNBASE ->
  (forall q, va < (q + 1) * PGSIZE -> q * PGSIZE < va + zlen src -> user_page sp q) -> (length src <= fuel)%nat ->
  exists s', copyout_loop fuel (sp_dir sp) va src s = Ok 0 s' /\ St s' l sp oth /\ keeps s s' oth /\ written (v_mem s) (v_mem s') sp va src.
Proof.
  induction fuel as [|fuel IH]; intros s l sp oth va src Hst Hva Hend Hup Hf; cbn [copyout_loop];
    (destruct (Z.ltb_spec 0 (zlen src)) as [Hlt|Hge];
      [|destruct src; [|unfold zlen in *; cbn in *; lia]; exists s; do 3 (split; [done|]); apply written_nil]); [unfold zlen in *; lia|].
  pose proof (Z.div_mod va PGSIZE ltac:(done)) as Hdm. pose proof (Z.mod_pos_bound va PGSIZE ltac:(done)) as Hmb.
  set (q := va / PGSIZE) in *. assert (Hq : 0 <= q < KPN) by (split; [apply Z.div_pos|apply Z.div_lt_upper_bound]; consts; lia).
  destruct (Hup q ltac:(consts; lia) ltac:(consts; lia)) as (w & Hw & Hu). destruct (uva2ka_run _ _ _ _ _ _ Hst Hq Hw Hu) as [E Hok].
  rewrite PGROUNDDOWN_round by (consts; lia). fold q. cbn zeta. rewrite (bind_run _ _ _ _ _ E).
  rewrite (proj2 (Z.eqb_neq (frame w) 0)) by (destruct Hok as (_ & _ & Hok); consts; lia).
  set (n := Z.min (PGSIZE - (va - q * PGSIZE)) (zlen src)). assert (Hn : 0 < n <= zlen src) by (unfold n; lia).
  assert (Hl1 : zlen (take (Z.to_nat n) src) = n) by (unfold zlen in *; rewrite length_take; lia).
  assert (Hl2 : zlen (drop (Z.to_nat n) src) = zlen src - n) by (unfold zlen in *; rewrite length_drop; lia).
  destruct (copy_round s l sp oth q w (va - q * PGSIZE) (take (Z.to_nat n) src) Hst Hq Hw) as (s1 & E1 & Hst1 & Hk1 & Hw1); [lia|lia|].
  rewrite (bind_run _ _ _ _ _ E1). replace (q * PGSIZE + (va - q * PGSIZE)) with va in Hw1 by lia.
  rewrite (u32_small (q * PGSIZE + PGSIZE)) by (consts; lia).
  destruct (decide (n = zlen src)) as [En|Hnn].
  - replace (drop (Z.to_nat n) src) with (@nil Z) by (rewrite drop_ge; [done|unfold zlen in *; lia]).
    replace (take (Z.to_nat n) src) with src in Hw1 by (rewrite take_ge; [done|unfold zlen in *; lia]).
    exists s1. split; [by destruct fuel|done].
  - destruct (IH s1 l sp oth (q * PGSIZE + PGSIZE) (drop (Z.to_nat n) src) Hst1) as (s2 & E2 & Hst2 & Hk2 & Hw2);
      [lia|lia|intros q' H1 H2; apply Hup; lia|unfold zlen in *; lia|].
    exists s2. split; [done|]. split; [done|]. split; [by eapply keeps_trans|].
    rewrite <- (take_drop (Z.to_nat n) src). eapply written_app; [exact Hw1|exact Hw2|]. right. rewrite Hl1. lia.
Qed.

End copyout.

(** Copyout writes what it is given.  When the pages of the range are user
    pages, copyout returns 0, the user finds the bytes of [src] from [va] on
    and every other byte as it was, and pages outside the address space are
    not touched. *)
Theorem copyout_correct end_ s l sp oth va src : St end_ s l sp oth -> 0 <= va -> va + zlen src <= KERNBASE ->
  (forall q, va < (q + 1) * PGSIZE -> q * PGSIZE < va + zlen src -> user_page sp q) ->
  exists s', copyout (sp_dir sp) va src s = Ok 0 s' /\ St end_ s' l sp oth /\ keeps s s' oth /\
    forall a, 0 <= a < KERNBASE ->
      ubyte (v_mem s') sp a = if decide (va <= a < va + zlen src) then src !! Z.to_nat (a - va) else ubyte (v_mem s) sp a.
Proof. intros. by apply copyout_loop_spec. Qed.

(** uva2ka does not test the result of walkpgdir: for an address whose page
    table does not exist it reads through a null pointer. *)
Lemma uva2ka_no_table end_ s l sp oth q : St end_ s l sp oth -> 0 <= q < NPN -> sp_tabs sp !! (q / 1024) = None ->
  uva2ka (sp_dir sp) (q * PGSIZE) s = Undef.
Proof. intros Hst Hq Ht. unfold uva2ka. by rewrite (bind_run _ _ _ _ _ (walk_absent _ _ _ _ _ _ Hst Hq Ht)). Qed.

(** ** A machine with six pages

    A page directory, a page of user memory and four free pages; mappages maps
    the user page at address 0. *)
Definition w_end : Z := KERNBASE + 4194304.
Definition w_page (k : Z) : Z := w_end + k * PGSIZE.
Definition w_free : list Z := [w_page 2; w_page 3; w_page 4; w_page 5].
Definition w_vm : vm :=
  mkVm (mkKmem 1 (w_page 2) (<[w_page 2 := w_page 3]> (<[w_page 3 := w_page 4]> (<[w_page 4 := w_page 5]> {[w_page 5 := 0]}))))
    (list_to_map ((fun k => (w_page k, replicate (Z.to_nat PGSIZE) (if k =? 1 then 97 else 0))) <$> [0; 1; 2; 3; 4; 5])) 0 0.
Definition w_map : M vm Z := mappages (w_page 0) (0 * PGSIZE) PGSIZE (w_page 1 - KERNBASE) (Z.lor PTE_W PTE_U).
Definition w_vm1 : vm := run_state w_map w_vm.

Lemma w_own : own w_end w_vm w_free ([w_page 0] ++ [] ++ [w_page 1]).
Proof.
  split.
  - unfold free_pages, w_free. cbn [chain]. do 4 (split; [by vm_compute|]; split; [by vm_compute|]; eexists; split; [by vm_compute|]). by vm_compute.
  - apply (bool_decide_unpack _). by vm_compute.
  - intros p Hp. split; [|exists (replicate (Z.to_nat PGSIZE) (if p =? w_page 1 then 97 else 0)); split; [|by rewrite length_replicate]].
    + assert (Hf : Forall (Kalloc.page_ok w_end) (w_free ++ [w_page 0] ++ [] ++ [w_page 1])).
      { unfold w_free, w_page, w_end. repeat constructor; consts; lia. }
      by eapply Forall_forall in Hf.
    + assert (Hf : Forall (fun p => v_mem w_vm !! p = Some (replicate (Z.to_nat PGSIZE) (if p =? w_page 1 then 97 else 0)))
        (w_free ++ [w_page 0] ++ [] ++ [w_page 1])) by (repeat constructor; by vm_compute).
      by eapply Forall_forall in Hf.
Qed.

Lemma w_St : St w_end w_vm w_free (mkSpace (w_page 0) ∅ ∅) [w_page 1].
Proof.
  split; [exact w_own|]. replace (v_mem w_vm) with (<[w_page 0 := replicate (Z.to_nat PGSIZE) 0]> (v_mem w_vm)).
  - by apply rep_empty.
  - apply insert_id. by vm_compute.
Qed.

(** The address space with the page mapped *)
Lemma w_St1 : exists l sp, St w_end w_vm1 l sp [] /\ sp_dir sp = w_page 0 /\
  sp_ptes sp = {[0 := entry (w_page 1 - KERNBASE) (Z.lor PTE_W PTE_U)]}.
Proof.
  destruct (mappages_user w_end w_vm w_free (mkSpace (w_page 0) ∅ ∅) [] (w_page 1) 0 (Z.lor PTE_W PTE_U) w_St ltac:(by vm_compute)
    eq_refl ltac:(by vm_compute)) as [[E _]|(s' & l' & ts & sp' & E & Hst & _ & _ & Hd & Hf & _)]; [done|].
  exists l', sp'. split; [|split; [done|by rewrite Hf]].
  replace w_vm1 with s'; [done|]. unfold w_vm1, run_state, w_map. cbn [sp_dir] in E. by rewrite E.
Qed.

Lemma allocuvm_correct_witness : exists l sp, KERNBASE < w_end /\ St w_end w_vm1 l sp [] /\
  exists r s', allocuvm w_end (sp_dir sp) 5 9000 w_vm1 = Ok r s' /\
    exists l' sp', St w_end s' l' sp' [] /\ sp_dir sp' = sp_dir sp /\ keeps w_vm1 s' (upages sp ++ []) /\ pages sp' l' ≡ₚ pages sp l /\
      (r = 9000 /\ fresh (v_mem s') (npages 5) (npages 9000) (sp_ptes sp) (sp_ptes sp') \/ r = 0 /\ sp_ptes sp' = sp_ptes sp).
Proof.
  destruct w_St1 as (l & sp & Hst & Hd & Hf). exists l, sp. split; [done|]. split; [done|].
  apply (allocuvm_correct w_end w_vm1 l sp [] 5 9000); [done|done|lia|done|].
  intros q Hq. rewrite Hf. apply lookup_singleton_ne. change (npages 5) with 1 in Hq. lia.
Defined.

Lemma freevm_correct_witness : exists l sp, KERNBASE < w_end /\ St w_end w_vm1 l sp [] /\
  exists s' l', freevm w_end (sp_dir sp) w_vm1 = Ok tt s' /\ own w_end s' l' [] /\ l' ≡ₚ pages sp l /\ keeps w_vm1 s' [].
Proof.
  destruct w_St1 as (l & sp & Hst & Hd & Hf). exists l, sp. split; [done|]. split; [done|].
  by apply (freevm_correct w_end w_vm1 l sp []).
Defined.

Lemma copyuvm_correct_witness : exists l sp, St w_end w_vm1 l sp [] /\ (forall q, 0 <= q < npages 5 -> is_Some (sp_ptes sp !! q)) /\
  let held := tables sp ++ upages sp ++ [] in
  exists r s', copyuvm w_end (KERNBASE + 2097152) (sp_dir sp) 5 w_vm1 = Ok r s' /\ keeps w_vm1 s' held /\
    (r = 0 /\ (exists l', own w_end s' l' held /\ l' ≡ₚ l) \/
     r <> 0 /\ exists l' d, r = sp_dir d /\ St w_end s' l' d held /\ pages d l' ≡ₚ l /\
       (forall va, 0 <= va < 5 -> ubyte (v_mem s') d va = ubyte (v_mem w_vm1) sp va) /\
       (forall q, if decide (0 <= q < npages 5) then PTE_FLAGS <$> sp_ptes d !! q = PTE_FLAGS <$> sp_ptes sp !! q
                  else sp_ptes d !! q = kpte (KERNBASE + 2097152) q)).
Proof.
  destruct w_St1 as (l & sp & Hst & Hd & Hf). exists l, sp. split; [done|].
  assert (Hp : forall q, 0 <= q < npages 5 -> is_Some (sp_ptes sp !! q)).
  { intros q Hq. change (npages 5) with 1 in Hq. replace q with 0 by lia. rewrite Hf, lookup_singleton_eq. by eexists. }
  split; [done|]. by apply (copyuvm_correct w_end (KERNBASE + 2097152) w_vm1 l sp [] 5).
Defined.

Lemma copyout_correct_witness : exists l sp, St w_end w_vm1 l sp [] /\ sp_dir sp = w_page 0 /\
  exists s', copyout (sp_dir sp) 4094 [1; 2] w_vm1 = Ok 0 s' /\ St w_end s' l sp [] /\ keeps w_vm1 s' [] /\
    forall a, 0 <= a < KERNBASE ->
      ubyte (v_mem s') sp a = if decide (4094 <= a < 4094 + zlen [1; 2]) then [1; 2] !! Z.to_nat (a - 4094) else ubyte (v_mem w_vm1) sp a.
Proof.
  destruct w_St1 as (l & sp & Hst & Hd & Hf). exists l, sp. split; [done|]. split; [done|].
  apply (copyout_correct w_end w_vm1 l sp [] 4094 [1; 2]); [done|done|done|]. intros q H1 H2.
  change (zlen [1; 2]) with 2 in H2. unfold PGSIZE in *. replace q with 0 by lia. unfold user_page. rewrite Hf. eexists.
  split; [apply lookup_singleton_eq|by vm_compute].
Defined.

(** Running it: the two new pages fit, five do not. *)
Example allocuvm_runs : returns 9000 (allocuvm w_end (w_page 0) 5 9000 w_vm1) = true /\
  returns 0 (allocuvm w_end (w_page 0) 5 20000 w_vm1) = true.
Proof. by vm_compute. Qed.

End VmProps.
