(* ===== verification/Exec.v ===== *)
(** * Program loading: exec.c, vm.c:loaduvm and switchuvm, and sysfile.c:sys_exec

    exec reads a program through the file system and builds an address space
    for it.  What it uses of the file system is the interface [ExecFs], which
    fs.c implements; its state is a file system, the memory of vm.c and the
    current process.  The calls of [ExecFs] allocate no pages, so that the
    allocator is the one of vm.c. *)
From S2P Require Import Prelude Words Params CString Kalloc Pipe Core Fs Syscall Vm.

Module Exec.
Import Kalloc Vm.

Definition KSTACKSIZE : Z := 4096.
Definition ELF_MAGIC : Z := 1179403647.
Definition ELF_PROG_LOAD : Z := 1.

(** The file-system calls of exec: readi returns the C result and the bytes
    stored at the destination. *)
Class ExecFs (F : Type) := {
  x_begin_op : M F unit;
  x_end_op : M F unit;
  x_namei : list Z -> M F (option nat);
  x_ilock : nat -> M F unit;
  x_iunlockput : nat -> M F unit;
  x_readi : nat -> Z -> Z -> M F (Z * list Z)
}.

(** readi stores no more than it is asked to. *)
Class ExecFsLaws (F : Type) `{!ExecFs F} : Prop :=
  x_readi_len : forall ip off n s r bs s', 0 <= off < 2 ^ 32 -> 0 <= n < 2 ^ 32 -> x_readi ip off n s = Ok (r, bs) s' -> zlen bs <= n.

(** The order of the calls: a file is found in a transaction, locked, read and
    released.  Called in this order the file system answers. *)
Class ExecFsProtocol (F : Type) `{!ExecFs F} := {
  x_idle : F -> Prop;
  x_in_op : F -> Prop;
  x_found : nat -> F -> Prop;
  x_locked : nat -> F -> Prop;
  x_begin_op_ok : forall f, x_idle f -> exists f', x_begin_op f = Ok tt f' /\ x_in_op f';
  x_namei_ok : forall path f, x_in_op f -> exists r f', x_namei path f = Ok r f' /\
    match r with Some ip => x_found ip f' | None => x_in_op f' end;
  x_ilock_ok : forall ip f, x_found ip f -> exists f', x_ilock ip f = Ok tt f' /\ x_locked ip f';
  x_readi_ok : forall ip off n f, x_locked ip f -> 0 <= off < 2 ^ 32 -> 0 <= n < 2 ^ 32 ->
    exists r f', x_readi ip off n f = Ok r f' /\ x_locked ip f';
  x_iunlockput_ok : forall ip f, x_locked ip f -> exists f', x_iunlockput ip f = Ok tt f' /\ x_in_op f';
  x_end_op_ok : forall f, x_in_op f -> exists f', x_end_op f = Ok tt f' /\ x_idle f'
}.

#[export] Instance core_fs {B} `{!BlockLayer B} : ExecFs (core B) := {|
  x_begin_op := blk begin_op; x_end_op := blk end_op; x_namei := Fs.namei; x_ilock := Fs.ilock;
  x_iunlockput := Fs.iunlockput; x_readi := Fs.readi |}.

(** ** elf.h *)

Definition uint_at (off : nat) (d : list Z) : Z := u32 (le_val (slice off 4 d)).
Definition ushort_at (off : nat) (d : list Z) : Z := u16 (le_val (slice off 2 d)).

Record elfhdr := mkElf { e_magic : Z; e_entry : Z; e_phoff : Z; e_phnum : Z }.
Definition sizeof_elfhdr : Z := 52.
Definition elf_read (d : list Z) : elfhdr := mkElf (uint_at 0 d) (uint_at 24 d) (uint_at 28 d) (ushort_at 44 d).

Record proghdr := mkPh { ph_type : Z; ph_off : Z; ph_vaddr : Z; ph_filesz : Z; ph_memsz : Z }.
Definition sizeof_proghdr : Z := 32.
Definition ph_read (d : list Z) : proghdr := mkPh (uint_at 0 d) (uint_at 4 d) (uint_at 8 d) (uint_at 16 d) (uint_at 20 d).

(** ** State *)

(** The fields of the current process that exec uses *)
Record xproc := mkXproc { x_pgdir : Z; x_sz : Z; x_eip : Z; x_esp : Z; x_name : list Z; x_kstack : Z }.

(** [x_esp0] is the kernel stack pointer of the task state. *)
Record xstate (F : Type) := mkX { x_fs : F; x_vm : vm; x_proc : xproc; x_esp0 : Z }.
Arguments mkX {F}.
Arguments x_fs {F}.
Arguments x_vm {F}.
Arguments x_proc {F}.
Arguments x_esp0 {F}.

Section exec.
Context {F : Type} `{EF : !ExecFs F} (end_ data_ : Z).

Definition set_fs (f : F) (s : xstate F) : xstate F := mkX f (x_vm s) (x_proc s) (x_esp0 s).
Definition set_vm (v : vm) (s : xstate F) : xstate F := mkX (x_fs s) v (x_proc s) (x_esp0 s).
Definition set_proc (p : xproc) (s : xstate F) : xstate F := mkX (x_fs s) (x_vm s) p (x_esp0 s).
Definition set_esp0 (v : Z) (s : xstate F) : xstate F := mkX (x_fs s) (x_vm s) (x_proc s) v.

Definition fs {A} (m : M F A) : M (xstate F) A := zoom x_fs set_fs m.
Definition mm {A} (m : M vm A) : M (xstate F) A := zoom x_vm set_vm m.

(** The bytes that readi has stored *)
Definition store (p : Z) (bs : list Z) : M vm unit :=
  match bs with [] => ret tt | _ => copy_to p bs end.

(** The loop of loaduvm over [i] *)
Fixpoint loaduvm_loop (fuel : nat) (pgdir addr : Z) (ip : nat) (off i sz : Z) : M (xstate F) Z :=
  if i <? sz then
    match fuel with
    | O => undef
    | S fuel' =>
        pte <- mm (walkpgdir pgdir (u32 (addr + i)) false) ;;
        if pte =? 0 then panic "loaduvm: address should exist"
        else
          e <- mm (rd pte) ;;
          let n := if sz - i <? PGSIZE then sz - i else PGSIZE in
          v <- mm (P2V (PTE_ADDR e)) ;;
          let* (r, bs) := fs (x_readi ip (u32 (off + i)) n) in
          mm (store v bs) ;;
          if negb (u32 r =? n) then ret (-1)
          else loaduvm_loop fuel' pgdir addr ip off (i + PGSIZE) sz
    end
  else ret 0.

(** vm.c:loaduvm *)
Definition loaduvm (pgdir addr : Z) (ip : nat) (off sz : Z) : M (xstate F) Z :=
  if negb (addr mod PGSIZE =? 0) then panic "loaduvm: addr must be page aligned"
  else loaduvm_loop (Z.to_nat (sz / PGSIZE + 1)) pgdir addr ip off 0 sz.

(** vm.c:switchuvm; the segment descriptors it sets are the same each time. *)
Definition switchuvm : M (xstate F) unit :=
  p <- gets x_proc ;;
  if x_kstack p =? 0 then panic "switchuvm: no kstack"
  else if x_pgdir p =? 0 then panic "switchuvm: no pgdir"
  else
    modify (set_esp0 (x_kstack p + KSTACKSIZE)) ;;
    pa <- mm (V2P (x_pgdir p)) ;;
    mm (lcr3 pa).

(** The loop of exec over the program headers: [None] is the jump to [bad]. *)
Fixpoint load_segments (n : nat) (pgdir : Z) (ip : nat) (off sz : Z) : M (xstate F) (option Z) :=
  match n with
  | O => ret (Some sz)
  | S n' =>
      let* (r, bs) := fs (x_readi ip off sizeof_proghdr) in
      if negb (r =? sizeof_proghdr) then ret None
      else
        let ph := ph_read bs in
        let next := u32 (off + sizeof_proghdr) in
        if negb (ph_type ph =? ELF_PROG_LOAD) then load_segments n' pgdir ip next sz
        else if ph_memsz ph <? ph_filesz ph then ret None
        else if u32 (ph_vaddr ph + ph_memsz ph) <? ph_vaddr ph then ret None
        else
          sz' <- mm (allocuvm end_ pgdir sz (u32 (ph_vaddr ph + ph_memsz ph))) ;;
          if sz' =? 0 then ret None
          else if negb (ph_vaddr ph mod PGSIZE =? 0) then ret None
          else
            r <- loaduvm pgdir (ph_vaddr ph) ip (ph_off ph) (ph_filesz ph) ;;
            if r <? 0 then ret None
            else load_segments n' pgdir ip next sz'
  end.

(** The loop of exec over [argv]: the stack pointer and the addresses of the
    strings *)
Fixpoint push_args (pgdir : Z) (argv : list (list Z)) (argc sp : Z) (ustack : list Z) : M (xstate F) (option (Z * list Z)) :=
  match argv with
  | [] => ret (Some (sp, ustack))
  | a :: argv' =>
      if argc >=? MAXARG then ret None
      else
        let sp' := Z.land (u32 (sp - (zlen a + 1))) (u32 (Z.lnot 3)) in
        r <- mm (copyout pgdir sp' (a ++ [0])) ;;
        if r <? 0 then ret None
        else push_args pgdir argv' (argc + 1) sp' (ustack ++ [sp'])
  end.

(** The part of a path after its last slash *)
Fixpoint last_elem (path last : list Z) : list Z :=
  match path with
  | [] => last
  | c :: path' => last_elem path' (if c =? 47 then path' else last)
  end.

(** The label [bad] *)
Definition bad (pgdir : Z) (ip : option nat) : M (xstate F) Z :=
  whenM (negb (pgdir =? 0)) (mm (freevm end_ pgdir)) ;;
  match ip with
  | Some ip => fs (x_iunlockput ip) ;; fs x_end_op
  | None => ret tt
  end ;;
  ret (-1).

(** exec after the program is loaded: the stack and the new image *)
Definition exec_stack (path : list Z) (argv : list (list Z)) (entry pgdir sz0 : Z) : M (xstate F) Z :=
  let sz1 := PGROUNDUP sz0 in
  sz <- mm (allocuvm end_ pgdir sz1 (u32 (sz1 + 2 * PGSIZE))) ;;
  if sz =? 0 then bad pgdir None
  else
    mm (clearpteu pgdir (u32 (sz - 2 * PGSIZE))) ;;
    args <- push_args pgdir argv 0 sz [] ;;
    match args with
    | None => bad pgdir None
    | Some (sp, addrs) =>
        let argc := zlen argv in
        let ustack := [4294967295; argc; u32 (sp - (argc + 1) * 4)] ++ addrs ++ [0] in
        let sp' := u32 (sp - (3 + argc + 1) * 4) in
        r <- mm (copyout pgdir sp' (concat (le_bytes 4 <$> ustack))) ;;
        if r <? 0 then bad pgdir None
        else
          name <- from_option_undef (CString.safestrcpy (last_elem path path ++ [0]) 16) ;;
          p <- gets x_proc ;;
          modify (set_proc (mkXproc pgdir sz entry sp' (splice 0 name (x_name p)) (x_kstack p))) ;;
          switchuvm ;;
          mm (freevm end_ (x_pgdir p)) ;;
          ret 0
    end.

(** exec.c:exec; [path] and the strings of [argv] are without their NUL. *)
Definition exec (path : list Z) (argv : list (list Z)) : M (xstate F) Z :=
  fs x_begin_op ;;
  oip <- fs (x_namei path) ;;
  match oip with
  | None => fs x_end_op ;; ret (-1)
  | Some ip =>
      fs (x_ilock ip) ;;
      let* (r, bs) := fs (x_readi ip 0 sizeof_elfhdr) in
      if negb (r =? sizeof_elfhdr) then bad 0 (Some ip)
      else
        let elf := elf_read bs in
        if negb (e_magic elf =? ELF_MAGIC) then bad 0 (Some ip)
        else
          pgdir <- mm (setupkvm end_ data_) ;;
          if pgdir =? 0 then bad 0 (Some ip)
          else
            osz <- load_segments (Z.to_nat (e_phnum elf)) pgdir ip (e_phoff elf) 0 ;;
            match osz with
            | None => bad pgdir (Some ip)
            | Some sz =>
                fs (x_iunlockput ip) ;;
                fs x_end_op ;;
                exec_stack path argv (e_entry elf) pgdir sz
            end
  end.

End exec.

(** ** sys_exec *)

(** The loop of sys_exec over [i]: [None] is a return of -1. *)
Fixpoint fetch_argv {B} (fuel : nat) (uargv i : Z) (argv : list (list Z)) : M (core B) (option (list (list Z))) :=
  if i >=? MAXARG then ret None
  else
    match fuel with
    | O => undef
    | S fuel' =>
        ou <- Syscall.fetchint (u32 (uargv + 4 * i)) ;;
        match ou with
        | None => ret None
        | Some uarg =>
            if uarg =? 0 then ret (Some argv)
            else
              oa <- Syscall.fetchstr (u32 uarg) ;;
              match oa with
              | None => ret None
              | Some a => fetch_argv fuel' uargv (i + 1) (argv ++ [a])
              end
        end
    end.

(** sysfile.c:sys_exec *)
Definition sys_exec {B} `{!BlockLayer B} (end_ data_ : Z) : M (xstate (core B)) Z :=
  opath <- fs (Syscall.argstr 0) ;;
  match opath with
  | None => ret (-1)
  | Some path =>
      ou <- fs (Syscall.argint 1) ;;
      match ou with
      | None => ret (-1)
      | Some uargv =>
          oargv <- fs (fetch_argv (Z.to_nat MAXARG) (u32 uargv) 0 []) ;;
          match oargv with
          | None => ret (-1)
          | Some argv => exec end_ data_ path argv
          end
      end
  end.

End Exec.
