(* ===== verification/ExecMem.v ===== *)
(** * Memory while exec builds a program

    [building]: an address space under construction touches no page of the old
    one and of anybody else.  The stack of the new program is a user page over a
    guard page; [copyout_stack] says what copyout does there. *)
From S2P Require Import Prelude Words Params CString Kalloc Pipe Core Frame Vm VmRep VmSpace VmProps.

Module ExecMem.
Import Kalloc Vm VmRep VmSpace VmProps.

Set Default Proof Using "Type".

(** ** freevm does not change the page-table register *)

Definition same_cr3 (s s' : vm) : Prop := v_cr3 s' = v_cr3 s.
#[export] Instance same_cr3_refl : Reflexive same_cr3.
Proof. done. Qed.
#[export] Instance same_cr3_trans : Transitive same_cr3.
Proof. unfold same_cr3. intros ? ? ? -> ->. done. Qed.

#[local] Abbreviation KC := (Keeps same_cr3).

Lemma kc_kmem {A} (m : M kmem A) : KC (zoom v_kmem set_kmem m).
Proof. intros s a s' E. by apply zoom_Ok_inv in E as (k & _ & ->). Qed.
#[local] Hint Resolve kc_kmem : keeps.
Lemma kc_P2V a : KC (P2V a).
Proof. unfold P2V. keeps. Qed.
Lemma kc_rd a : KC (rd a).
Proof. unfold rd, page. keeps. Qed.
Lemma kc_wr a w : KC (wr a w).
Proof. unfold wr, page, put_page. keeps. Qed.
Lemma kc_kfree end_ v : KC (kfree end_ v).
Proof. unfold kfree, put_page. keeps. Qed.
#[local] Hint Resolve kc_P2V kc_rd kc_wr kc_kfree : keeps.
Lemma kc_walk pgdir va : KC (walkpgdir pgdir va false).
Proof. unfold walkpgdir. cbn [negb]. keeps. Qed.
#[local] Hint Resolve kc_walk : keeps.
Lemma kc_dealloc_loop end_ fuel : forall pgdir a oldsz, KC (deallocuvm_loop end_ fuel pgdir a oldsz).
Proof. induction fuel as [|fuel IH]; intros; cbn [deallocuvm_loop]; keeps. Qed.
Lemma kc_free_tables end_ n : forall pgdir i, KC (free_tables end_ n pgdir i).
Proof. induction n as [|n IH]; intros; cbn [free_tables]; keeps. Qed.
#[local] Hint Resolve kc_dealloc_loop kc_free_tables : keeps.
Lemma kc_freevm end_ pgdir : KC (freevm end_ pgdir).
Proof. unfold freevm, deallocuvm. keeps. Qed.

Section memory.
Context (end_ data_ : Z).
#[local] Abbreviation St := (VmRep.St end_).
#[local] Abbreviation own := (VmRep.own end_).
#[local] Abbreviation page_ok := (Kalloc.page_ok end_).
Hypothesis Hend : KERNBASE < end_.
Hypothesis Hdata : data_ mod PGSIZE = 0.
Hypothesis Hlink : KERNLINK < data_.
Hypothesis Htop : data_ < KERNBASE + PHYSTOP.

(** User memory of [sz] bytes below the kernel's mappings *)
Definition img (d : space) (sz : Z) : Prop :=
  0 <= sz <= KERNBASE /\ (forall q, KPN <= q -> sp_ptes d !! q = kpte data_ q) /\
  (forall q, 0 <= q < KPN -> is_Some (sp_ptes d !! q) <-> q < npages sz).

(** An address space under construction, from the free pages [l0], beside the
    pages [held] of the state [s0] *)
Record building (s0 : vm) (l0 held : list Z) (s : vm) (l : list Z) (d : space) (sz : Z) : Prop := mkBuilding {
  b_St : St s l d held;
  b_keeps : keeps s0 s held;
  b_pages : pages d l ≡ₚ l0;
  b_img : img d sz
}.

Lemma npages_KPN sz : sz <= KERNBASE -> npages sz <= KPN.
Proof. intros H. pose proof (npages_spec sz). consts. lia. Qed.

Lemma npages_mono a b : a <= b -> npages a <= npages b.
Proof. intros H. pose proof (npages_spec a). pose proof (npages_spec b). consts. lia. Qed.

Lemma fresh_img m d d' sz sz' : img d sz -> sz <= sz' < KERNBASE -> fresh m (npages sz) (npages sz') (sp_ptes d) (sp_ptes d') -> img d' sz'.
Proof.
  intros (H0 & Hk & Hu) Hsz Hf. pose proof (npages_KPN sz' ltac:(lia)) as Hn. split; [lia|]. split; intros q Hq; specialize (Hf q).
  - rewrite decide_False in Hf by lia. by rewrite Hf, Hk.
  - pose proof (npages_mono sz sz' ltac:(lia)). destruct (decide (npages sz <= q < npages sz')) as [Hr|Hr].
    + destruct Hf as (w & -> & _). split; [lia|by eexists].
    + rewrite Hf, Hu by done. lia.
Qed.

Lemma land_U_flags w : Z.land w PTE_U = Z.land (PTE_FLAGS w) PTE_U.
Proof. unfold PTE_FLAGS, PTE_U. rewrite <- Z.land_assoc. done. Qed.

Lemma alloc_building s0 l0 held s l d sz newsz : building s0 l0 held s l d sz -> 0 <= newsz < 2 ^ 32 ->
  exists r s' l' d' sz', allocuvm end_ (sp_dir d) sz newsz s = Ok r s' /\ sp_dir d' = sp_dir d /\ building s0 l0 held s' l' d' sz' /\
    (r = 0 \/ r = sz' /\ sz' = Z.max sz newsz /\ newsz < KERNBASE /\ forall q, npages sz <= q < npages newsz -> user_page d' q).
Proof using Hend.
  intros [Hst Hk Hp Hi] Hn. pose proof Hi as (H0 & _ & Hu).
  destruct (Z.ltb_spec newsz KERNBASE) as [Hlt|Hge].
  - destruct (Z.ltb_spec newsz sz) as [Hls|Hgs].
    + exists sz, s, l, d, sz. split; [|split; [done|split; [done|right; do 3 (split; [lia|]); intros q Hq; pose proof (npages_mono newsz sz ltac:(lia)); lia]]]. unfold allocuvm.
      destruct (Z.geb_spec newsz KERNBASE); [lia|]. by rewrite (proj2 (Z.ltb_lt newsz sz)).
    + destruct (allocuvm_spec end_ s l d held sz newsz Hend Hst ltac:(lia) Hlt) as (r & s' & E & l' & d' & Hst' & Hd & Hk' & Hp' & Hr).
      { intros q Hq. pose proof (npages_KPN newsz ltac:(lia)). pose proof (npages_nonneg sz ltac:(lia)).
        specialize (Hu q ltac:(lia)). destruct (sp_ptes d !! q); [|done]. exfalso. destruct Hu as [Hu _]. specialize (Hu ltac:(by eexists)). lia. }
      assert (Hk0 : keeps s0 s' held) by (eapply keeps_trans; [exact Hk|]; eapply keeps_sub; [exact Hk'|memb]).
      destruct Hr as [[-> Hf]|[-> Hf]].
      * exists newsz, s', l', d', newsz. split; [done|]. split; [done|]. split; [split; [done|done|by rewrite Hp'|]|].
        { eapply fresh_img; [exact Hi|lia|exact Hf]. }
        right. do 3 (split; [lia|]). intros q Hq. specialize (Hf q). rewrite decide_True in Hf by done. destruct Hf as (w & Hw & Hfl & _).
        exists w. split; [done|]. by rewrite land_U_flags, Hfl.
      * exists 0, s', l', d', sz. split; [done|]. split; [done|]. split; [split; [done|done|by rewrite Hp'|]|by left].
        unfold img. by rewrite Hf.
  - exists 0, s, l, d, sz. split; [|split; [done|split; [done|by left]]]. unfold allocuvm. by destruct (Z.geb_spec newsz KERNBASE); [|lia].
Qed.

(** Writing into a page of the new address space *)
Lemma write_building s0 l0 held s l d sz q w o bs : building s0 l0 held s l d sz -> 0 <= q < KPN -> sp_ptes d !! q = Some w ->
  0 <= o < PGSIZE -> o + zlen bs <= PGSIZE ->
  exists s', copy_to (frame w + o) bs s = Ok tt s' /\ building s0 l0 held s' l d sz.
Proof.
  intros [Hst Hk Hp Hi] Hq Hw Ho Hl. destruct (copy_round _ _ _ _ _ _ _ _ _ Hst Hq Hw Ho Hl) as (s' & E & Hst' & Hk' & _).
  exists s'. split; [done|]. split; [done|by eapply keeps_trans|done|done].
Qed.

Lemma clear_U w : 0 <= w < 2 ^ 32 -> w mod 2 = 1 ->
  let w' := Z.land w (u32 (Z.lnot PTE_U)) in 0 <= w' < 2 ^ 32 /\ w' mod 2 = 1 /\ frame w' = frame w /\ Z.land w' PTE_U = 0.
Proof.
  intros Hw Hodd w'. assert (Hm : forall m, Z.land w' m = Z.land w (Z.land (u32 (Z.lnot PTE_U)) m)) by (intros m; unfold w'; by rewrite Z.land_assoc).
  split; [|split; [|split]].
  - assert (E : w' = w' mod 2 ^ 32); [|rewrite E; by apply Z.mod_pos_bound]. rewrite <- Z.land_ones by done. by rewrite Hm.
  - rewrite <- PTE_P_mod, Hm. change (Z.land (u32 (Z.lnot PTE_U)) PTE_P) with PTE_P. by rewrite PTE_P_mod.
  - unfold frame, PTE_ADDR. rewrite Hm. done.
  - rewrite Hm. change (Z.land (u32 (Z.lnot PTE_U)) PTE_U) with 0. apply Z.land_0_r.
Qed.

(** A page the user cannot reach *)
Definition guard_page (sp : space) (q : Z) : Prop := exists w, sp_ptes sp !! q = Some w /\ Z.land w PTE_U = 0.

Lemma clearpteu_building s0 l0 held s l d sz pn : building s0 l0 held s l d sz -> 0 <= pn < npages sz ->
  exists s' d', clearpteu (sp_dir d) (pn * PGSIZE) s = Ok tt s' /\ sp_dir d' = sp_dir d /\ building s0 l0 held s' l d' sz /\
    guard_page d' pn /\ forall q, q <> pn -> sp_ptes d' !! q = sp_ptes d !! q.
Proof.
  intros [Hst Hk Hp (H0 & Hkp & Hu)] Hpn. pose proof (npages_KPN sz ltac:(lia)) as Hn.
  destruct (proj2 (Hu pn ltac:(lia)) ltac:(lia)) as [w Hw]. destruct (r_pte _ _ (proj2 Hst) _ _ Hw) as ([t Ht] & Hwr & Hodd).
  destruct (clear_U w Hwr Hodd) as (Hwr' & Hodd' & Hfr & Hcu). set (w' := Z.land w (u32 (Z.lnot PTE_U))) in *.
  set (f := <[pn := w']> (sp_ptes d)). assert (Hup : upages (set_ptes f d) ≡ₚ upages d).
  { rewrite (upages_delete _ _ _ Hw). rewrite (upages_delete (set_ptes f d) pn w') by apply lookup_insert_eq.
    cbn. unfold f. rewrite delete_insert_eq. unfold claim. by rewrite Hfr. }
  destruct (wr_rep end_ s l (upages d ++ held) d f pn t w' (proj1 Hst) (proj2 Hst) Ht Hwr') as (s' & E & Ho & Hr & Hk');
    [intros q Hq; by apply lookup_insert_ne|unfold f; by rewrite lookup_insert_eq|done|].
  destruct (own_held _ _ _ _ t (proj1 Hst)) as [(_ & _ & Hokt) _]; [pose proof (tab_in _ _ _ Ht); memb|].
  assert (0 <= pn mod 1024) by (by apply Z.mod_pos_bound).
  exists s', (set_ptes f d). split; [|split; [done|split; [split|split]]].
  - unfold clearpteu. rewrite (bind_run _ _ _ _ _ (walk_present _ _ _ _ _ pn false t Hst ltac:(consts; lia) Ht)).
    rewrite (proj2 (Z.eqb_neq (t + _) 0)) by (consts; lia). rewrite (bind_run _ _ _ _ _ (rd_entry _ _ _ _ _ _ _ Hst Ht)).
    rewrite Hw. exact E.
  - split; [|done]. eapply own_perm; [|exact Ho]. change (tables (set_ptes f d)) with (tables d). by rewrite Hup.
  - eapply keeps_trans; [exact Hk|]. eapply keeps_sub; [exact Hk'|memb].
  - rewrite <- Hp. unfold pages. change (tables (set_ptes f d)) with (tables d). by rewrite Hup.
  - split; [done|]. unfold f. split; intros q Hq; cbn.
    + rewrite lookup_insert_ne by lia. by apply Hkp.
    + destruct (decide (q = pn)) as [->|Hne]; [rewrite lookup_insert_eq; split; [lia|by eexists]|]. rewrite lookup_insert_ne by done. by apply Hu.
  - exists w'. split; [apply lookup_insert_eq|done].
  - intros q Hq. by apply lookup_insert_ne.
Qed.

Lemma uva2ka_guard s l sp oth q : St s l sp oth -> 0 <= q < KPN -> guard_page sp q -> uva2ka (sp_dir sp) (q * PGSIZE) s = Ok 0 s.
Proof.
  intros Hst Hq (w & Hw & Hu). destruct (r_pte _ _ (proj2 Hst) _ _ Hw) as ([t Ht] & _ & Hodd).
  destruct (own_held _ _ _ _ t (proj1 Hst)) as [(_ & _ & Hokt) _]; [pose proof (tab_in _ _ _ Ht); memb|].
  assert (0 <= q mod 1024) by (by apply Z.mod_pos_bound).
  unfold uva2ka. rewrite (bind_run _ _ _ _ _ (walk_present _ _ _ _ _ q false t Hst ltac:(consts; lia) Ht)).
  rewrite (proj2 (Z.eqb_neq (t + _) 0)) by (consts; lia). rewrite (bind_run _ _ _ _ _ (rd_entry _ _ _ _ _ _ _ Hst Ht)).
  rewrite Hw. cbn [default]. unfold id. rewrite (PTE_P_mod w), Hodd. cbn [Z.eqb]. by rewrite (proj2 (Z.eqb_eq _ 0) Hu).
Qed.

(** ** The stack *)

(** The last page is the stack and the one under it cannot be reached. *)
Definition stacked (d : space) (sz : Z) : Prop :=
  exists q, sz = (q + 2) * PGSIZE /\ 0 <= q /\ q + 2 <= KPN /\ guard_page d q /\ user_page d (q + 1).

(** A write that starts in the stack or in the guard page either is refused or
    is in the stack. *)
Lemma copyout_stack s0 l0 held s l d sz va src : building s0 l0 held s l d sz -> stacked d sz ->
  sz - 2 * PGSIZE <= va -> 0 < zlen src -> va + zlen src <= sz ->
  exists r s', copyout (sp_dir d) va src s = Ok r s' /\ building s0 l0 held s' l d sz /\
    (r = -1 \/ r = 0 /\ sz - PGSIZE <= va /\ written (v_mem s) (v_mem s') d va src).
Proof.
  intros [Hst Hk Hp Hi] (q & Hsz & Hq & Hqk & Hg & Hu) Hlo Hlen Hhi. destruct (Z.lt_ge_cases va (sz - PGSIZE)) as [Hlt|Hge].
  - exists (-1), s. split; [|split; [done|by left]]. unfold copyout. destruct src as [|b src]; [done|]. cbn [length copyout_loop].
    rewrite (proj2 (Z.ltb_lt 0 _) Hlen). rewrite PGROUNDDOWN_round by (consts; lia). cbn zeta.
    assert (va / PGSIZE = q) as -> by (symmetry; apply (Z.div_unique va PGSIZE q (va - q * PGSIZE)); consts; lia).
    by rewrite (bind_run _ _ _ _ _ (uva2ka_guard s l d held q Hst ltac:(lia) Hg)).
  - destruct (copyout_loop_spec end_ (length src) s l d held va src Hst) as (s' & E & Hst' & Hk' & Hw); [consts; lia|consts; lia| |lia|].
    { intros q' H1 H2. assert (q' = q + 1) as -> by (consts; lia). done. }
    exists 0, s'. split; [done|]. split; [split; [done|by eapply keeps_trans|done|done]|]. right. done.
Qed.

(** [bs] is what the user finds at [p]. *)
Definition has (m : gmap Z (list Z)) (d : space) (p : Z) (bs : list Z) : Prop :=
  forall k b, bs !! k = Some b -> ubyte m d (p + Z.of_nat k) = Some b.

Lemma written_has m m' d va src : written m m' d va src -> 0 <= va -> va + zlen src <= KERNBASE -> has m' d va src.
Proof.
  intros Hw Hva Hle k b Hk. pose proof (lookup_lt_Some _ _ _ Hk). unfold zlen in *. rewrite (Hw (va + Z.of_nat k) ltac:(lia)), decide_True by (unfold zlen; lia).
  rewrite <- Hk. f_equal. lia.
Qed.

Lemma written_keeps m m' d va src p bs : written m m' d va src -> has m d p bs -> 0 <= p -> p + zlen bs <= KERNBASE -> va + zlen src <= p -> has m' d p bs.
Proof.
  intros Hw Hh Hp Hle Hd k b Hk. pose proof (lookup_lt_Some _ _ _ Hk). unfold zlen in *.
  rewrite (Hw (p + Z.of_nat k) ltac:(lia)), decide_False by (unfold zlen; lia). by apply Hh.
Qed.

(** What the user finds depends on the pages of the address space only. *)
Lemma has_frame s s' d p bs : has (v_mem s) d p bs -> 0 <= p -> p + zlen bs <= KERNBASE -> keeps s s' (upages d) -> has (v_mem s') d p bs.
Proof.
  intros Hh Hp Hle Hk k b Hb. pose proof (lookup_lt_Some _ _ _ Hb). specialize (Hh k b Hb). unfold zlen in *. revert Hh. unfold ubyte.
  assert ((p + Z.of_nat k) / PGSIZE < KPN) by (apply Z.div_lt_upper_bound; consts; lia).
  destruct (sp_ptes d !! _) as [w|] eqn:Ew; [|done]. cbn. by rewrite (Hk (frame w)) by (by eapply upage_in).
Qed.

End memory.

End ExecMem.
