(* ===== verification/ExecProps.v ===== *)
(** * exec is all or nothing

    While exec builds the new address space it touches no page of the old one
    and of anybody else; [building] is that invariant. *)
From S2P Require Import Prelude Words Params CString Kalloc Pipe Core Fs Syscall Frame Vm VmRep VmSpace VmProps Exec ExecMem.

Module ExecProps.
Import Kalloc Vm VmRep VmSpace VmProps Exec ExecMem.

Set Default Proof Using "Type".

(** ** fs.c as the file system of exec *)

Section core_fs.
Context {B : Type} `{!BlockLayer B}.

Lemma readi_loop_most fuel : forall ip off tot n acc (c : core B) bs c', Fs.readi_loop fuel ip off tot n acc c = Ok bs c' ->
  zlen acc <= tot <= n -> zlen bs <= n.
Proof.
  induction fuel as [|fuel IH]; intros ip off tot n acc c bs c' E Ha; cbn [Fs.readi_loop] in E;
    (destruct (Z.ltb_spec tot n) as [Hlt|]; [|injection E as <- _; lia]); [done|].
  apply bind_Ok_inv in E as (i & c1 & _ & E). apply bind_Ok_inv in E as (bno & c2 & _ & E). apply bind_Ok_inv in E as (d & c3 & _ & E).
  cbn zeta in E. apply bind_Ok_inv in E as ([] & c4 & _ & E). apply IH in E; [done|].
  pose proof (Z.mod_pos_bound off BSIZE ltac:(done)). unfold zlen in *. rewrite length_app, length_slice. lia.
Qed.

Lemma consoleread_len n : forall target acc (c : core B) ok bs c', Fs.consoleread_loop n target acc c = Ok (ok, bs) c' ->
  (length bs <= length acc + n)%nat.
Proof.
  induction n as [|n IH]; intros target acc c ok bs c' E; cbn [Fs.consoleread_loop] in E; [injection E as _ <- _; lia|].
  apply bind_Ok_inv in E as (i & c1 & _ & E). destruct (in_r i =? in_w i).
  - apply bind_Ok_inv in E as (p & c2 & _ & E). destruct (negb _); [injection E as _ <- _; lia|done].
  - apply bind_Ok_inv in E as (x & c2 & _ & E). apply bind_Ok_inv in E as ([] & c3 & _ & E). destruct (x =? 4).
    + apply bind_Ok_inv in E as ([] & c4 & _ & E). injection E as _ <- _. lia.
    + destruct (x =? 10); [injection E as _ <- _; rewrite length_app; cbn; lia|]. apply IH in E. rewrite length_app in E. cbn in E. lia.
Qed.

#[export] Instance core_fs_laws : ExecFsLaws (core B).
Proof.
  intros ip off n c r bs c' Hoff Hn E. cbn in E. unfold Fs.readi in E. apply bind_Ok_inv in E as (i & c1 & _ & E).
  destruct (i_type i =? T_DEV).
  - destruct (_ || _ || _); [injection E as _ <- _; unfold zlen; cbn; lia|]. unfold Fs.consoleread in E. apply bind_Ok_inv in E as ([] & c2 & _ & E).
    apply bind_Ok_inv in E as ([ok bs'] & c3 & E1 & E). apply bind_Ok_inv in E as ([] & c4 & _ & E). injection E as _ <- _.
    apply consoleread_len in E1. unfold zlen. cbn in E1. assert (s32 n <= n); [|lia].
    destruct (Z.lt_ge_cases n (2 ^ 31)); [rewrite s32_id; lia|]. pose proof (s32_range n). lia.
  - destruct (Z.gtb_spec off (i_size i)); [injection E as _ <- _; unfold zlen; cbn; lia|].
    destruct (Z.ltb_spec (u32 (off + n)) off) as [|Hw]; [injection E as _ <- _; unfold zlen; cbn; lia|]. cbn [orb] in E. cbn zeta in E.
    apply bind_Ok_inv in E as (bs' & c2 & E1 & E). injection E as _ <- _. apply readi_loop_most in E1; [|unfold zlen; cbn; destruct (Z.gtb_spec (u32 (off + n)) (i_size i)); lia].
    destruct (Z.gtb_spec (u32 (off + n)) (i_size i)); [|done]. assert (u32 (off + n) <= off + n); [|lia]. apply Z.mod_le; lia.
Qed.

End core_fs.

Section exec.
Context {F : Type} `{EF : !ExecFs F} `{!ExecFsLaws F} (end_ data_ : Z).
#[local] Abbreviation St := (VmRep.St end_).
#[local] Abbreviation own := (VmRep.own end_).
#[local] Abbreviation building := (building end_ data_).
#[local] Abbreviation X := (xstate F).
Hypothesis Hend : KERNBASE < end_.
Hypothesis Hdata : data_ mod PGSIZE = 0.
Hypothesis Hlink : KERNLINK < data_.
Hypothesis Htop : data_ < KERNBASE + PHYSTOP.

(** The process is not touched while the new address space is built. *)
Definition same_proc (s s' : X) : Prop := x_proc s' = x_proc s.

Lemma fs_inv {A} (m : M F A) (s : X) a s' : fs m s = Ok a s' -> x_vm s' = x_vm s /\ same_proc s s' /\ exists f, m (x_fs s) = Ok a f.
Proof. intros E. apply zoom_Ok_inv in E as (f & Ef & ->). split; [done|]. split; [done|]. by exists f. Qed.

Lemma mm_inv {A} (m : M vm A) (s : X) a s' : mm m s = Ok a s' -> m (x_vm s) = Ok a (x_vm s') /\ same_proc s s'.
Proof. intros E. apply zoom_Ok_inv in E as (v & Ev & ->). done. Qed.

Lemma mm_run {A} (m : M vm A) (s : X) a v : m (x_vm s) = Ok a v -> mm m s = Ok a (set_vm v s).
Proof. intros E. unfold mm, zoom. by rewrite E. Qed.

Lemma fs_run {A} (m : M F A) (s : X) a f : m (x_fs s) = Ok a f -> fs m s = Ok a (set_fs f s).
Proof. intros E. unfold fs, zoom. by rewrite E. Qed.

Lemma loaduvm_building fuel : forall s0 l0 held (s : X) l d sz addr ip off i fsz r s', building s0 l0 held (x_vm s) l d sz ->
  addr mod PGSIZE = 0 -> 0 <= addr -> i mod PGSIZE = 0 -> 0 <= i -> addr + fsz <= sz ->
  loaduvm_loop fuel (sp_dir d) addr ip off i fsz s = Ok r s' -> building s0 l0 held (x_vm s') l d sz /\ same_proc s s'.
Proof using ExecFsLaws0.
  induction fuel as [|fuel IH]; intros s0 l0 held s l d sz addr ip off i fsz r s' Hb Ha Ha0 Hi Hi0 Hsz E; cbn [loaduvm_loop] in E;
    (destruct (Z.ltb_spec i fsz) as [Hlt|Hge]; [|by injection E as _ <-]); [done|].
  pose proof (b_img _ _ _ _ _ _ _ _ _ Hb) as (H0 & _ & Hu). pose proof (npages_KPN sz ltac:(lia)) as Hnk.
  set (q := (addr + i) / PGSIZE). assert (Hq : q * PGSIZE = addr + i). { apply aligned_div. by rewrite Z.add_mod, Ha, Hi. }
  assert (Hqr : 0 <= q < npages sz) by (rewrite npages_lt; consts; lia).
  destruct (proj2 (Hu q ltac:(lia)) ltac:(lia)) as [w Hw]. pose proof (b_St _ _ _ _ _ _ _ _ _ Hb) as Hst.
  destruct (r_pte _ _ (proj2 Hst) _ _ Hw) as ([t Ht] & _ & _).
  destruct (own_held _ _ _ _ (frame w) (proj1 Hst)) as [Hokw _]; [pose proof (upage_in _ _ _ Hw ltac:(lia)); memb|].
  rewrite (u32_small (addr + i)) in E by (consts; lia). rewrite <- Hq in E.
  apply bind_Ok_inv in E as (pte & s1 & E1 & E). apply mm_inv in E1 as [E1 P1].
  rewrite (walk_present _ _ _ _ _ q false t Hst ltac:(consts; lia) Ht) in E1. injection E1 as <- V1.
  destruct (t + 4 * (q mod 1024) =? 0); [done|]. apply bind_Ok_inv in E as (e & s2 & E2 & E). apply mm_inv in E2 as [E2 P2].
  rewrite <- V1 in E2. rewrite (rd_entry _ _ _ _ _ _ _ Hst Ht), Hw in E2. injection E2 as <- V2. cbn zeta in E.
  apply bind_Ok_inv in E as (v & s3 & E3 & E). apply mm_inv in E3 as [E3 P3]. change (default 0 (Some w)) with w in E3.
  rewrite (frame_P2V _ _ _ Hokw) in E3. injection E3 as <- V3. apply bind_Ok_inv in E as ([r0 bs] & s4 & E4 & E).
  apply fs_inv in E4 as (V4 & P4 & f & E4). set (n := if fsz - i <? PGSIZE then fsz - i else PGSIZE) in *.
  assert (Hn : 0 <= n <= PGSIZE) by (unfold n; destruct (Z.ltb_spec (fsz - i) PGSIZE); consts; lia).
  assert (Hn' : 0 <= n < 2 ^ 32) by (unfold PGSIZE in Hn; lia).
  pose proof (x_readi_len _ _ _ _ _ _ _ (u32_range _) Hn' E4) as Hlen.
  apply bind_Ok_inv in E as ([] & s5 & E5 & E). apply mm_inv in E5 as [E5 P5]. rewrite V4, <- V3, <- V2 in E5.
  assert (Hb5 : building s0 l0 held (x_vm s5) l d sz).
  { destruct bs as [|b bs]; [injection E5 as <-; done|]. cbn [store] in E5. rewrite <- (Z.add_0_r (frame w)) in E5.
    destruct (write_building end_ data_ s0 l0 held (x_vm s) l d sz q w 0 (b :: bs)) as (s6 & E6 & Hb6); [done|lia|done|done|lia|]. congruence. }
  assert (Hp5 : same_proc s s5) by (unfold same_proc in *; congruence).
  destruct (negb (u32 r0 =? n)); [by injection E as _ <-|].
  destruct (IH s0 l0 held s5 l d sz addr ip off (i + PGSIZE) fsz r s') as [H1 H2]; [done..| |lia|done|done|].
  { by rewrite <- Z.add_mod_idemp_l, Hi. }
  split; [done|]. unfold same_proc in *. congruence.
Qed.

Lemma same_proc_trans (s1 s2 s3 : X) : same_proc s1 s2 -> same_proc s2 s3 -> same_proc s1 s3.
Proof. unfold same_proc. congruence. Qed.

(** The test for overflow of exec *)
Lemma no_wrap bs (ph := ph_read bs) : ph_vaddr ph <= u32 (ph_vaddr ph + ph_memsz ph) ->
  u32 (ph_vaddr ph + ph_memsz ph) = ph_vaddr ph + ph_memsz ph.
Proof.
  intros H. assert (0 <= ph_vaddr ph < 2 ^ 32) by apply u32_range. assert (0 <= ph_memsz ph < 2 ^ 32) by apply u32_range.
  apply u32_small. split; [lia|]. apply Z.nle_gt. intros Hge. unfold u32 in H.
  rewrite <- (Z.mod_add _ (-1)) in H by done. rewrite Z.mod_small in H; lia.
Qed.

Lemma load_building n : forall s0 l0 held (s : X) l d sz ip off r s', building s0 l0 held (x_vm s) l d sz ->
  load_segments end_ n (sp_dir d) ip off sz s = Ok r s' ->
  exists l' d' sz', building s0 l0 held (x_vm s') l' d' sz' /\ sp_dir d' = sp_dir d /\ same_proc s s' /\
    match r with Some sz'' => sz'' = sz' | None => True end.
Proof using ExecFsLaws0 Hend.
  induction n as [|n IH]; intros s0 l0 held s l d sz ip off r s' Hb E; cbn [load_segments] in E.
  { injection E as <- <-. exists l, d, sz. done. }
  apply bind_Ok_inv in E as ([r1 bs] & s1 & E1 & E). apply fs_inv in E1 as (V1 & P1 & _). rewrite <- V1 in Hb.
  assert (Hnone : forall s2 l2 d2 sz2, building s0 l0 held (x_vm s2) l2 d2 sz2 -> sp_dir d2 = sp_dir d -> same_proc s s2 ->
    ret None s2 = Ok r s' -> exists l' d' sz', building s0 l0 held (x_vm s') l' d' sz' /\ sp_dir d' = sp_dir d /\ same_proc s s' /\
    match r with Some sz'' => sz'' = sz' | None => True end).
  { intros s2 l2 d2 sz2 Hb2 Hd2 P2 [= <- <-]. by exists l2, d2, sz2. }
  destruct (negb (r1 =? sizeof_proghdr)); [by eapply Hnone|]. cbn zeta in E.
  destruct (negb (ph_type (ph_read bs) =? ELF_PROG_LOAD)).
  { destruct (IH _ _ _ _ _ _ _ _ _ _ _ Hb E) as (l' & d' & sz' & H1 & H2 & H3 & H4). exists l', d', sz'. by eauto using same_proc_trans. }
  destruct (Z.ltb_spec (ph_memsz (ph_read bs)) (ph_filesz (ph_read bs))) as [|Hfm]; [by eapply Hnone|].
  destruct (Z.ltb_spec (u32 (ph_vaddr (ph_read bs) + ph_memsz (ph_read bs))) (ph_vaddr (ph_read bs))) as [|Hov]; [by eapply Hnone|].
  apply bind_Ok_inv in E as (sz1 & s2 & E2 & E). apply mm_inv in E2 as [E2 P2].
  destruct (alloc_building end_ data_ Hend s0 l0 held (x_vm s1) l d sz (u32 (ph_vaddr (ph_read bs) + ph_memsz (ph_read bs))) Hb (u32_range _)) as (r2 & v2 & l2 & d2 & sz2 & E2' & Hd2 & Hb2 & Hr2).
  rewrite E2' in E2. injection E2 as <- V2. rewrite V2 in Hb2. pose proof (same_proc_trans _ _ _ P1 P2) as P12.
  destruct (Z.eqb_spec r2 0) as [|Hr20]; [by eapply Hnone|]. destruct Hr2 as [|(-> & Hsz2 & Hlt)]; [done|].
  destruct (Z.eqb_spec (ph_vaddr (ph_read bs) mod PGSIZE) 0) as [Hal|]; cbn [negb] in E; [|by eapply Hnone].
  apply bind_Ok_inv in E as (r3 & s3 & E3 & E). unfold loaduvm in E3. rewrite (proj2 (Z.eqb_eq _ 0) Hal) in E3. cbn [negb] in E3.
  rewrite <- Hd2 in E3, E. assert (building s0 l0 held (x_vm s3) l2 d2 sz2 /\ same_proc s2 s3) as [Hb3 P3].
  { eapply (loaduvm_building _ _ _ _ _ _ _ _ _ _ _ 0); [exact Hb2|exact Hal|apply u32_range|done|done| |exact E3].
    pose proof (no_wrap _ Hov). lia. }
  pose proof (same_proc_trans _ _ _ P12 P3) as P13.
  destruct (r3 <? 0); [by eapply Hnone|].
  destruct (IH _ _ _ _ _ _ _ _ _ _ _ Hb3 E) as (l' & d' & sz' & H1 & H2 & H3 & H4). exists l', d', sz'. rewrite H2. by eauto using same_proc_trans.
Qed.

(** ** The arguments *)

(** The strings [argv] at the addresses [addrs], between [lo] and [hi] *)
Definition strings (m : gmap Z (list Z)) (d : space) (lo hi : Z) (argv : list (list Z)) (addrs : list Z) : Prop :=
  Forall2 (fun p a => lo <= p /\ p mod 4 = 0 /\ p + zlen a + 1 <= hi /\ has m d p (a ++ [0])) addrs argv.

(** Strings that cannot reach below the guard page *)
Definition short (a : list Z) : Prop := zlen a < PGSIZE - 3.

Lemma align4 x : 0 <= x < 2 ^ 32 -> let y := Z.land (u32 x) (u32 (Z.lnot 3)) in x - 3 <= y <= x /\ y mod 4 = 0 /\ 0 <= y.
Proof.
  intros Hx. cbn zeta. rewrite (u32_small x) by done. change (Z.lnot 3) with (Z.lnot (2 ^ 2 - 1)). rewrite (land_mask_round x 2) by lia. change (2 ^ 2) with 4.
  pose proof (Z.div_mod x 4 ltac:(done)). pose proof (Z.mod_pos_bound x 4 ltac:(done)). split; [lia|]. split; [by apply Z.mod_mul|lia].
Qed.

Lemma zlen_snoc {A} (a : list A) x : zlen (a ++ [x]) = zlen a + 1.
Proof. unfold zlen. rewrite length_app. cbn. lia. Qed.

Lemma strings_written m m' d lo hi lo' argv addrs va src : written m m' d va src -> strings m d lo hi argv addrs -> 0 <= lo' <= lo -> va + zlen src <= lo -> hi <= KERNBASE ->
  strings m' d lo' hi argv addrs.
Proof.
  intros Hw Hs Hlo Hva Hhi. eapply Forall2_impl; [exact Hs|]. cbn. intros p a (H1 & H2 & H3 & H4). split; [lia|]. split; [done|]. split; [done|].
  eapply written_keeps; [exact Hw|exact H4|lia|rewrite zlen_snoc; lia|lia].
Qed.

Lemma push_spec argv : forall s0 l0 held (s : X) l d sz done argc sp us, building s0 l0 held (x_vm s) l d sz -> stacked d sz -> Forall short argv ->
  sz - PGSIZE <= sp <= sz -> strings (v_mem (x_vm s)) d sp sz done us ->
  exists r s', push_args (sp_dir d) argv argc sp us s = Ok r s' /\ building s0 l0 held (x_vm s') l d sz /\ same_proc s s' /\ x_fs s' = x_fs s /\
    match r with
    | None => True
    | Some (sp', us') => argc + zlen argv <= Z.max argc MAXARG /\ sz - PGSIZE <= sp' <= sp /\ strings (v_mem (x_vm s')) d sp' sz (done ++ argv) us'
    end.
Proof.
  induction argv as [|a argv IH]; intros s0 l0 held s l d sz dn argc sp us Hb Hs Hf Hsp Hus; cbn [push_args].
  { exists (Some (sp, us)), s. do 4 (split; [done|]). rewrite app_nil_r. split; [unfold zlen; cbn; lia|]. split; [lia|done]. }
  destruct (Z.geb_spec argc MAXARG) as [|Hargc]; [by exists None, s|]. apply Forall_cons in Hf as [Ha Hf]. unfold short in Ha. cbn zeta.
  assert (Hr : 2 * PGSIZE <= sz <= KERNBASE) by (destruct Hs as (q & -> & ? & ? & _); consts; lia).
  assert (Hz : 0 <= zlen a) by (unfold zlen; lia).
  destruct (align4 (sp - (zlen a + 1)) ltac:(consts; lia)) as (H1 & H2 & H3). set (sp' := Z.land _ _) in *.
  destruct (copyout_stack end_ data_ s0 l0 held (x_vm s) l d sz sp' (a ++ [0]) Hb Hs) as (r & v & E & Hb' & Hr'); [consts; lia|rewrite zlen_snoc; lia|rewrite zlen_snoc; lia|].
  rewrite (bind_run _ _ _ _ _ (mm_run _ s _ _ E)). destruct Hr' as [->|(-> & Hlo & Hw)]; [by exists None, (set_vm v s)|].
  assert (Hus' : strings (v_mem v) d sp' sz (dn ++ [a]) (us ++ [sp'])).
  { apply Forall2_app.
    - eapply strings_written; [exact Hw|exact Hus|lia|rewrite zlen_snoc; lia|lia].
    - constructor; [|done]. split; [lia|]. split; [done|]. split; [lia|]. eapply written_has; [exact Hw|done|rewrite zlen_snoc; lia]. }
  destruct (IH s0 l0 held (set_vm v s) l d sz (dn ++ [a]) (argc + 1) sp' (us ++ [sp']) Hb' Hs Hf ltac:(lia) Hus') as (r & s' & E2 & Hb2 & P2 & F2 & Hr2).
  exists r, s'. do 4 (split; [done|]). destruct r as [[sp2 us2]|]; [|done]. destruct Hr2 as (A1 & A2 & A3).
  rewrite <- app_assoc in A3. split; [|split; [lia|done]]. unfold zlen in *. cbn [length]. lia.
Qed.

(** What is left of a failed exec: nothing *)
Definition failed (s0 : vm) (l0 held : list Z) (s s' : X) (r : Z) : Prop :=
  r = -1 /\ same_proc s s' /\ exists l', own (x_vm s') l' held /\ l' ≡ₚ l0 /\ keeps s0 (x_vm s') held.

Lemma bad_none s0 l0 held (s : X) ip r s' : own (x_vm s) l0 held -> keeps s0 (x_vm s) held -> bad end_ 0 ip s = Ok r s' ->
  failed s0 l0 held s s' r.
Proof.
  intros Ho Hk E. unfold bad in E. cbn [Z.eqb negb whenM] in E. rewrite bind_ret_l in E.
  apply bind_Ok_inv in E as ([] & s1 & E1 & E). injection E as <- <-. assert (x_vm s1 = x_vm s /\ same_proc s s1) as [V P].
  { destruct ip as [ip|]; [|by injection E1 as <-]. apply bind_Ok_inv in E1 as ([] & s2 & E2 & E1).
    apply fs_inv in E2 as (V2 & P2 & _). apply fs_inv in E1 as (V1 & P1 & _). split; [congruence|by eapply same_proc_trans]. }
  split; [done|]. split; [done|]. rewrite V. by exists l0.
Qed.

Lemma bad_building s0 l0 held (s : X) l d sz ip r s' : building s0 l0 held (x_vm s) l d sz -> bad end_ (sp_dir d) ip s = Ok r s' ->
  failed s0 l0 held s s' r.
Proof using Hend.
  intros [Hst Hk Hp _] E. unfold bad in E. destruct (own_held _ _ _ _ (sp_dir d) (proj1 Hst)) as [(_ & _ & Hok) _]; [apply elem_of_app; left; by left|].
  rewrite (proj2 (Z.eqb_neq (sp_dir d) 0)) in E by (consts; lia). cbn [negb whenM] in E.
  apply bind_Ok_inv in E as ([] & s1 & E1 & E). apply mm_inv in E1 as [E1 P1].
  destruct (freevm_spec end_ Hend _ _ _ _ Hst) as (v & l' & Ev & Ho & Hl & Hk'). rewrite Ev in E1. injection E1 as ->.
  destruct (bad_none s0 l' held s1 ip r s') as (-> & P & l2 & H1 & H2 & H3); [done|by eapply keeps_trans| |].
  { unfold bad. cbn [Z.eqb negb whenM]. by rewrite bind_ret_l. }
  split; [done|]. split; [by eapply same_proc_trans|]. exists l2. split; [done|]. split; [|done]. by rewrite H2, Hl.
Qed.

(** What main finds on its stack: a return address, argc, and argv, an array of
    the addresses of the strings that ends with 0 *)
Definition args_at (m : gmap Z (list Z)) (d : space) (esp sz : Z) (argv : list (list Z)) : Prop :=
  exists addrs, sz - PGSIZE <= esp /\ esp + 4 * (zlen argv + 4) <= sz /\
    has m d esp (concat (le_bytes 4 <$> [4294967295; zlen argv; esp + 12] ++ addrs ++ [0])) /\
    strings m d (esp + 4 * (zlen argv + 4)) sz argv addrs.

(** The new image in place of the old one *)
Definition replaced (s0 : vm) (l0 : list Z) (sp : space) (oth : list Z) (argv : list (list Z)) (s' : X) (entry : Z) : Prop :=
  exists l' d, x_pgdir (x_proc s') = sp_dir d /\ St (x_vm s') l' d oth /\ img data_ d (x_sz (x_proc s')) /\
    pages d l' ≡ₚ pages sp l0 /\ keeps s0 (x_vm s') oth /\ x_eip (x_proc s') = entry /\ v_cr3 (x_vm s') = sp_dir d - KERNBASE /\
    args_at (v_mem (x_vm s')) d (x_esp (x_proc s')) (x_sz (x_proc s')) argv.

Lemma img_round d sz : img data_ d sz -> img data_ d (npages sz * PGSIZE) /\ 0 <= npages sz * PGSIZE <= KERNBASE.
Proof.
  intros (H0 & H1 & H2). pose proof (npages_spec sz). pose proof (npages_nonneg sz ltac:(lia)). pose proof (npages_KPN sz ltac:(lia)).
  assert (Hr : 0 <= npages sz * PGSIZE <= KERNBASE) by (consts; lia). split; [|done]. split; [done|]. split; [done|].
  intros q Hq. rewrite H2 by done. rewrite npages_lt, npages_lt. consts. lia.
Qed.

Lemma perm_swap4 {A} (a b c d l : list A) : a ++ b ++ c ++ d ++ l ≡ₚ c ++ d ++ a ++ b ++ l.
Proof. rewrite (app_assoc a), (app_assoc c). rewrite (Permutation_app_swap_app (a ++ b)). by rewrite <- !app_assoc. Qed.

Lemma freevm_old s0 l0 sp oth v l d sz : building s0 l0 (tables sp ++ upages sp ++ oth) v l d sz -> rep (v_mem s0) sp ->
  exists v' l', freevm end_ (sp_dir sp) v = Ok tt v' /\ St v' l' d oth /\ pages d l' ≡ₚ pages sp l0 /\ keeps s0 v' oth /\ v_cr3 v' = v_cr3 v /\ keeps v v' (upages d).
Proof using Hend.
  intros [Hst Hk Hp Hi] Hr. assert (Hr' : rep (v_mem v) sp).
  { eapply rep_frame; [exact Hr|]. intros p Hin. split; [eapply own_aligned; [apply Hst|memb]|apply Hk; memb]. }
  destruct (freevm_spec end_ Hend _ _ _ _ (St_swap _ _ _ _ _ _ Hst Hr')) as (v' & l' & E & Ho & Hl & Hk').
  exists v', l'. split; [done|]. split; [split; [done|]|split; [|split]].
  - eapply rep_frame; [apply Hst|]. intros p Hin. split; [eapply own_aligned; [exact Ho|memb]|apply Hk'; memb].
  - unfold pages. rewrite Hl, <- Hp. apply perm_swap4.
  - eapply keeps_trans; eapply keeps_sub; [exact Hk|memb|exact Hk'|memb].
  - split; [by apply (kc_freevm end_ (sp_dir sp) v tt v')|]. eapply keeps_sub; [exact Hk'|memb].
Qed.

Lemma switchuvm_inv (s s' : X) : switchuvm s = Ok tt s' -> x_proc s' = x_proc s /\
  v_kmem (x_vm s') = v_kmem (x_vm s) /\ v_mem (x_vm s') = v_mem (x_vm s) /\ v_cr3 (x_vm s') = x_pgdir (x_proc s) - KERNBASE.
Proof.
  unfold switchuvm. rewrite gets_bind. destruct (x_kstack _ =? 0); [done|]. destruct (x_pgdir _ =? 0); [done|]. intros E.
  apply bind_Ok_inv in E as ([] & s1 & E1 & E). injection E1 as <-. apply bind_Ok_inv in E as (pa & s2 & E2 & E).
  apply zoom_Ok_inv in E2 as (v2 & E2 & ->). unfold V2P in E2. destruct (_ <? _); [done|]. injection E2 as <- <-.
  apply zoom_Ok_inv in E as (v3 & E3 & ->). by injection E3 as <-.
Qed.

Lemma bad_run s0 l0 held (s : X) l d sz : building s0 l0 held (x_vm s) l d sz ->
  exists s', bad end_ (sp_dir d) None s = Ok (-1) s' /\ failed s0 l0 held s s' (-1) /\ x_fs s' = x_fs s.
Proof using Hend.
  intros Hb. destruct (own_held _ _ _ _ (sp_dir d) (proj1 (b_St _ _ _ _ _ _ _ _ _ Hb))) as [(_ & _ & Hok) _]; [apply elem_of_app; left; by left|].
  destruct (freevm_spec end_ Hend _ _ _ _ (b_St _ _ _ _ _ _ _ _ _ Hb)) as (v & l' & Ev & _).
  assert (E : bad end_ (sp_dir d) None s = Ok (-1) (set_vm v s)).
  { unfold bad. rewrite (proj2 (Z.eqb_neq (sp_dir d) 0)) by (consts; lia). cbn [negb whenM]. by rewrite (bind_run _ _ _ _ _ (mm_run _ s _ _ Ev)). }
  exists (set_vm v s). split; [done|]. split; [|done]. by eapply bad_building.
Qed.

Lemma safestrcpy_total t n : is_Some (CString.safestrcpy_loop (t ++ [0]) n).
Proof.
  revert t. induction n as [|n IH]; intros [|c t]; cbn; [by eexists..|]. destruct (c =? 0); [by eexists|]. destruct (IH t) as [l ->]. by eexists.
Qed.

(** switchuvm on a process with a kernel stack *)
Lemma switchuvm_run (s : X) : x_kstack (x_proc s) <> 0 -> KERNBASE <= x_pgdir (x_proc s) ->
  exists s', switchuvm s = Ok tt s' /\ x_fs s' = x_fs s.
Proof.
  intros Hk Hp. unfold switchuvm. rewrite gets_bind. rewrite (proj2 (Z.eqb_neq _ 0) Hk), (proj2 (Z.eqb_neq (x_pgdir _) 0)) by (consts; lia).
  unfold bind, modify, mm, zoom, V2P. cbn. destruct (Z.ltb_spec (x_pgdir (x_proc s)) KERNBASE); [lia|]. cbn. by eexists.
Qed.

Lemma has_strings s s' d lo hi argv addrs : strings (v_mem s) d lo hi argv addrs -> 0 <= lo -> hi <= KERNBASE -> keeps s s' (upages d) ->
  strings (v_mem s') d lo hi argv addrs.
Proof.
  intros Hs Hlo Hhi Hk. eapply Forall2_impl; [exact Hs|]. cbn. intros p a (H1 & H2 & H3 & H4). split; [done|]. split; [done|]. split; [done|].
  eapply has_frame; [exact H4|lia|rewrite zlen_snoc; lia|done].
Qed.

Lemma zlen_words l : zlen (concat (le_bytes 4 <$> l)) = 4 * zlen l.
Proof. induction l as [|w l IH]; [done|]. unfold zlen in *. cbn [fmap list_fmap concat]. rewrite length_app. cbn [length]. rewrite length_le_bytes. lia. Qed.

Lemma args_frame s s' d esp sz argv : args_at (v_mem s) d esp sz argv -> PGSIZE <= sz <= KERNBASE -> keeps s s' (upages d) -> args_at (v_mem s') d esp sz argv.
Proof.
  intros (addrs & H1 & H2 & H3 & H4) Hsz Hk. assert (0 <= zlen argv) by (unfold zlen; lia). exists addrs. split; [done|]. split; [done|]. split.
  - eapply has_frame; [exact H3|lia| |done]. rewrite zlen_words. pose proof (Forall2_length _ _ _ H4) as Hl.
    unfold zlen in *. rewrite !length_app, Hl. cbn [length]. lia.
  - eapply has_strings; [exact H4|lia|lia|done].
Qed.

(** The end of exec: the new image replaces the old one. *)
Lemma install s0 l0 sp oth (s : X) l d sz name esp entry argv :
  building s0 l0 (tables sp ++ upages sp ++ oth) (x_vm s) l d sz -> rep (v_mem s0) sp -> x_pgdir (x_proc s) = sp_dir sp -> x_kstack (x_proc s) <> 0 ->
  args_at (v_mem (x_vm s)) d esp sz argv -> PGSIZE <= sz ->
  exists s', (p <- gets x_proc ;; modify (set_proc (mkXproc (sp_dir d) sz entry esp (splice 0 name (x_name p)) (x_kstack p))) ;; switchuvm ;;
    mm (freevm end_ (x_pgdir p)) ;; ret 0) s = Ok 0 s' /\ x_fs s' = x_fs s /\ replaced s0 l0 sp oth argv s' entry.
Proof using Hend.
  intros Hb Hr Hpg Hks Ha Hsz. rewrite gets_bind. set (f := set_proc _). set (s1 := f s). assert (E1 : modify f s = Ok tt s1) by done. rewrite (bind_run _ _ _ _ _ E1).
  destruct (own_held _ _ _ _ (sp_dir d) (proj1 (b_St _ _ _ _ _ _ _ _ _ Hb))) as [(_ & _ & Hok) _]; [apply elem_of_app; left; by left|].
  destruct (switchuvm_run s1) as (s2 & E2 & F2); [done|cbn; consts; lia|]. rewrite (bind_run _ _ _ _ _ E2). apply switchuvm_inv in E2 as (P2 & K2 & M2 & C2).
  assert (Hb2 : building s0 l0 (tables sp ++ upages sp ++ oth) (x_vm s2) l d sz).
  { destruct Hb as [[[H1 H2 H3] H4] H5 H6 H7]. split; [split; [split|]|intros q Hq; rewrite M2; by apply H5|done|done]; rewrite ?K2, ?M2; done. }
  rewrite Hpg. destruct (freevm_old _ _ _ _ _ _ _ _ Hb2 Hr) as (v3 & l3 & E3 & Hst3 & Hp3 & Hk3 & C3 & Hu3).
  rewrite (bind_run _ _ _ _ _ (mm_run _ s2 _ _ E3)). exists (set_vm v3 s2). split; [done|]. split; [done|]. exists l3, d. cbn. rewrite P2. cbn.
  split; [done|]. split; [done|]. split; [apply Hb|]. split; [done|]. split; [done|]. split; [done|]. split; [by rewrite C3, C2|].
  eapply args_frame; [|pose proof (proj1 (b_img _ _ _ _ _ _ _ _ _ Hb)); lia|exact Hu3]. by rewrite M2.
Qed.

Lemma exec_stack_spec s0 l0 sp oth (s : X) l d sz path argv entry (held := tables sp ++ upages sp ++ oth) :
  building s0 l0 held (x_vm s) l d sz -> rep (v_mem s0) sp -> x_pgdir (x_proc s) = sp_dir sp -> x_kstack (x_proc s) <> 0 -> Forall short argv ->
  exists r s', exec_stack end_ path argv entry (sp_dir d) sz s = Ok r s' /\ x_fs s' = x_fs s /\
    (failed s0 l0 held s s' r \/ r = 0 /\ replaced s0 l0 sp oth argv s' entry).
Proof using Hend.
  intros [Hst Hk Hp Hi] Hr Hpg Hks Hf. destruct (img_round _ _ Hi) as [Hi1 Hrng].
  assert (Hbad : forall s2 l2 d2 sz2, building s0 l0 held (x_vm s2) l2 d2 sz2 -> same_proc s s2 -> x_fs s2 = x_fs s ->
    exists r s', bad end_ (sp_dir d2) None s2 = Ok r s' /\ x_fs s' = x_fs s /\ (failed s0 l0 held s s' r \/ r = 0 /\ replaced s0 l0 sp oth argv s' entry)).
  { intros s2 l2 d2 sz2 Hb2 P2 F2. destruct (bad_run _ _ _ _ _ _ _ Hb2) as (s' & E & (_ & P & H') & Hfs). exists (-1), s'. split; [done|]. split; [congruence|].
    left. split; [done|]. split; [by eapply same_proc_trans|done]. }
  unfold exec_stack. pose proof (proj1 Hi). rewrite PGROUNDUP_npages by (consts; lia). set (sz1 := npages sz * PGSIZE) in *. cbn zeta.
  destruct (alloc_building end_ data_ Hend s0 l0 held (x_vm s) l d sz1 (u32 (sz1 + 2 * PGSIZE)) (mkBuilding _ _ _ _ _ _ _ _ _ Hst Hk Hp Hi1) (u32_range _))
    as (r1 & v1 & l1 & d1 & sz3 & E1 & Hd1 & Hb1 & Hr1). rewrite (bind_run _ _ _ _ _ (mm_run _ s _ _ E1)).
  rewrite (u32_small (sz1 + 2 * PGSIZE)) in Hr1 by (consts; lia). rewrite <- Hd1.
  destruct (Z.eqb_spec r1 0) as [|Hr0]; [by eapply (Hbad (set_vm v1 s))|]. destruct Hr1 as [|(-> & Hsz3 & Hlt & Hnew)]; [done|].
  rewrite Z.max_r in Hsz3 by (consts; lia).
  replace (u32 (sz3 - 2 * PGSIZE)) with (npages sz * PGSIZE) by (rewrite u32_small; unfold sz1 in *; consts; lia).
  assert (Hn0 : 0 <= npages sz) by (apply npages_nonneg; lia).
  destruct (clearpteu_building end_ data_ s0 l0 held v1 l1 d1 sz3 (npages sz) Hb1) as (v2 & d2 & E2 & Hd2 & Hb2 & Hg & Hsame).
  { rewrite npages_lt. unfold sz1 in *. consts. lia. }
  rewrite (bind_run _ _ _ _ _ (mm_run _ (set_vm v1 s) _ _ E2)), <- Hd2.
  assert (Hs2 : stacked d2 sz3).
  { exists (npages sz). split; [unfold sz1 in *; consts; lia|]. split; [done|]. split; [unfold sz1 in *; consts; lia|]. split; [done|].
    destruct (Hnew (npages sz + 1)) as (w & Hw & Hu); [|exists w; rewrite Hsame by lia; done].
    unfold sz1. rewrite npages_lt. split; [|consts; lia]. rewrite Z.le_ngt, npages_lt. consts. lia. }
  destruct (push_spec argv s0 l0 held (set_vm v2 (set_vm v1 s)) l1 d2 sz3 [] 0 sz3 [] Hb2 Hs2 Hf ltac:(consts; lia) ltac:(by constructor))
    as (args & s3 & E3 & Hb3 & P3 & F3 & Hargs). rewrite (bind_run _ _ _ _ _ E3).
  destruct args as [[p addrs]|]; [|by eapply Hbad]. destruct Hargs as (Hmax & Hpr & Hstr). cbn [app] in Hstr. cbn zeta.
  assert (Hz : 0 <= zlen argv <= 32) by (unfold MAXARG, zlen in *; lia). pose proof (Forall2_length _ _ _ Hstr) as Hlen.
  assert (Hsz2 : 2 * PGSIZE <= sz3 < KERNBASE) by (consts; lia).
  rewrite (u32_small (p - (zlen argv + 1) * 4)), (u32_small (p - (3 + zlen argv + 1) * 4)) by (consts; lia).
  set (words := [4294967295; zlen argv; p - (zlen argv + 1) * 4] ++ addrs ++ [0]). set (esp := p - (3 + zlen argv + 1) * 4).
  assert (Hwl : zlen (concat (le_bytes 4 <$> words)) = 4 * (zlen argv + 4)).
  { rewrite zlen_words. unfold words, zlen in *. rewrite !length_app, Hlen. cbn [length]. lia. }
  destruct (copyout_stack end_ data_ s0 l0 held (x_vm s3) l1 d2 sz3 esp (concat (le_bytes 4 <$> words)) Hb3 Hs2) as (r4 & v4 & E4 & Hb4 & Hr4);
    [unfold esp; consts; lia|lia|unfold esp; lia|].
  rewrite (bind_run _ _ _ _ _ (mm_run _ s3 _ _ E4)). destruct Hr4 as [->|(-> & Hlo & Hw)]; [by eapply (Hbad (set_vm v4 s3))|].
  change (0 <? 0) with false. cbv iota. unfold CString.safestrcpy. cbn [Z.leb Z.compare].
  destruct (safestrcpy_total (last_elem path path) (Z.to_nat (16 - 1))) as [name ->]. cbn [from_option_undef]. rewrite bind_ret_l.
  assert (Ha4 : args_at (v_mem v4) d2 esp sz3 argv).
  { exists addrs. split; [done|]. split; [unfold esp; lia|]. split.
    - replace (esp + 12) with (p - (zlen argv + 1) * 4) by (unfold esp; lia). apply (written_has (v_mem (x_vm s3)) _ _ esp (concat (le_bytes 4 <$> words))); [exact Hw|unfold esp; consts; lia|rewrite Hwl; unfold esp; lia].
    - eapply strings_written; [exact Hw|exact Hstr|unfold esp; consts; lia|rewrite Hwl; unfold esp; lia|lia]. }
  destruct (install s0 l0 sp oth (set_vm v4 s3) l1 d2 sz3 name esp entry argv Hb4 Hr) as (s5 & E5 & F5 & Hrep); [cbn; rewrite P3; exact Hpg|cbn; rewrite P3; exact Hks|done|lia|].
  exists 0, s5. split; [exact E5|]. split; [by rewrite F5|]. by right.
Qed.

(** The header exec has accepted *)
Definition header (entry : Z) : Prop :=
  exists ip (f f' : F) bs, x_readi ip 0 sizeof_elfhdr f = Ok (sizeof_elfhdr, bs) f' /\ e_magic (elf_read bs) = ELF_MAGIC /\ e_entry (elf_read bs) = entry.

Lemma setup_img d : sp_ptes d = kernel_map data_ -> img data_ d 0.
Proof using Hdata Hlink Htop.
  intros Hf. assert (Hq : forall q, sp_ptes d !! q = kpte data_ q) by (intros q; rewrite Hf; by apply kernel_map_lookup). clear Hf.
  split; [consts; lia|]. split; intros q Hr; rewrite Hq; [done|].
  unfold kpte. rewrite !decide_False by (consts; lia). change (npages 0) with 0. split; [by intros []|lia].
Qed.

Lemma exec_spec (s : X) l sp oth path argv r s' : St (x_vm s) l sp oth -> x_pgdir (x_proc s) = sp_dir sp -> x_kstack (x_proc s) <> 0 ->
  Forall short argv -> exec end_ data_ path argv s = Ok r s' ->
  failed (x_vm s) l (tables sp ++ upages sp ++ oth) s s' r \/
  r = 0 /\ exists entry, header entry /\ replaced (x_vm s) l sp oth argv s' entry.
Proof using ExecFsLaws0 Hend Hdata Hlink Htop.
  intros Hst Hpg Hks Hsh E. set (held := tables sp ++ upages sp ++ oth). unfold exec in E.
  apply bind_Ok_inv in E as ([] & s1 & E1 & E). apply fs_inv in E1 as (V1 & P1 & _).
  apply bind_Ok_inv in E as (oip & s2 & E2 & E). apply fs_inv in E2 as (V2 & P2 & _). rewrite V1 in V2. pose proof (same_proc_trans _ _ _ P1 P2) as P12.
  assert (Hfail : forall s2 l2 r2 s3, same_proc s s2 -> failed (x_vm s) l2 held s2 s3 r2 -> l2 ≡ₚ l -> failed (x_vm s) l held s s3 r2).
  { intros s3 l2 r2 s4 P3 (-> & P4 & l4 & H1 & H2 & H3) Hl. split; [done|]. split; [by eapply same_proc_trans|]. exists l4. by rewrite <- Hl. }
  destruct oip as [ip|].
  2:{ apply bind_Ok_inv in E as ([] & s3 & E3 & E). apply fs_inv in E3 as (V3 & P3 & _). injection E as <- <-. left. split; [done|].
      split; [by eapply same_proc_trans|]. exists l. rewrite V3, V2. split; [apply Hst|done]. }
  apply bind_Ok_inv in E as ([] & s3 & E3 & E). apply fs_inv in E3 as (V3 & P3 & _). rewrite V2 in V3. pose proof (same_proc_trans _ _ _ P12 P3) as P13.
  apply bind_Ok_inv in E as ([r4 bs] & s4 & E4 & E). apply fs_inv in E4 as (V4 & P4 & f' & E4). rewrite V3 in V4. pose proof (same_proc_trans _ _ _ P13 P4) as P14.
  assert (Hbad : forall s5 l5 ip r s', own (x_vm s5) l5 held -> keeps (x_vm s) (x_vm s5) held -> l5 ≡ₚ l -> same_proc s s5 -> bad end_ 0 ip s5 = Ok r s' ->
    failed (x_vm s) l held s s' r) by (intros; eapply Hfail; [|by eapply bad_none|]; done).
  destruct (Z.eqb_spec r4 sizeof_elfhdr) as [->|]; cbn [negb] in E; [|left; eapply Hbad; [..|exact E]; rewrite ?V4; done || apply Hst].
  cbn zeta in E. destruct (Z.eqb_spec (e_magic (elf_read bs)) ELF_MAGIC) as [Hm|]; cbn [negb] in E;
    [|left; eapply Hbad; [..|exact E]; rewrite ?V4; done || apply Hst].
  apply bind_Ok_inv in E as (pgdir & s5 & E5 & E). apply mm_inv in E5 as [E5 P5]. rewrite V4 in E5. pose proof (same_proc_trans _ _ _ P14 P5) as P15.
  destruct (setupkvm_spec end_ data_ Hend Hdata Hlink Htop (x_vm s) l held (proj1 Hst))
    as (r5 & v5 & E5' & [(-> & l5 & Ho5 & Hl5 & Hk5)|(Hr & l5 & d & -> & Hst5 & Hl5 & Hk5 & Hf5)]); rewrite E5' in E5; injection E5 as <- ->.
  { left. cbn [Z.eqb] in E. eapply (Hbad s5 l5); [done|done|done|done|exact E]. }
  rewrite (proj2 (Z.eqb_neq _ 0) Hr) in E. apply bind_Ok_inv in E as (osz & s6 & E6 & E).
  assert (Hb5 : building (x_vm s) l held (x_vm s5) l5 d 0) by (split; [done|done|done|by apply setup_img]). clear Hf5.
  destruct (load_building _ _ _ _ _ _ _ _ _ _ _ _ Hb5 E6) as (l6 & d6 & sz6 & Hb6 & Hd6 & P6 & Hr6). rewrite <- Hd6 in E.
  pose proof (same_proc_trans _ _ _ P15 P6) as P16. destruct osz as [sz|].
  - subst sz. apply bind_Ok_inv in E as ([] & s7 & E7 & E). apply fs_inv in E7 as (V7 & P7 & _).
    apply bind_Ok_inv in E as ([] & s8 & E8 & E). apply fs_inv in E8 as (V8 & P8 & _). rewrite V7 in V8. rewrite <- V8 in Hb6.
    pose proof (same_proc_trans _ _ _ P16 (same_proc_trans _ _ _ P7 P8)) as P18.
    destruct (exec_stack_spec _ _ _ _ _ _ _ _ path argv (e_entry (elf_read bs)) Hb6 (proj2 Hst)) as (r9 & s9 & E9 & _ & Hr9); [by rewrite P18|by rewrite P18|done|].
    rewrite E9 in E. injection E as <- <-. destruct Hr9 as [Hf|[-> Hrep]].
    + left. by eapply Hfail.
    + right. split; [done|]. exists (e_entry (elf_read bs)). split; [|done]. by exists ip, (x_fs s3), f', bs.
  - left. eapply Hfail; [exact P16| |reflexivity]. by eapply bad_building.
Qed.

(** ** exec returns *)

Context `{!ExecFsProtocol F}.

Lemma loaduvm_returns fuel : forall s0 l0 held (s : X) l d sz addr ip off i fsz, building s0 l0 held (x_vm s) l d sz ->
  addr mod PGSIZE = 0 -> 0 <= addr -> i mod PGSIZE = 0 -> 0 <= i -> addr + fsz <= sz -> fsz - i <= Z.of_nat fuel * PGSIZE -> x_locked ip (x_fs s) ->
  exists r s', loaduvm_loop fuel (sp_dir d) addr ip off i fsz s = Ok r s' /\ x_locked ip (x_fs s').
Proof using ExecFsLaws0.
  induction fuel as [|fuel IH]; intros s0 l0 held s l d sz addr ip off i fsz Hb Ha Ha0 Hi Hi0 Hsz Hfu Hlk; cbn [loaduvm_loop];
    (destruct (Z.ltb_spec i fsz) as [Hlt|Hge]; [|by exists 0, s]); [lia|].
  pose proof (b_img _ _ _ _ _ _ _ _ _ Hb) as (H0 & _ & Hu). pose proof (npages_KPN sz ltac:(lia)) as Hnk.
  set (q := (addr + i) / PGSIZE). assert (Hq : q * PGSIZE = addr + i). { apply aligned_div. by rewrite Z.add_mod, Ha, Hi. }
  assert (Hqr : 0 <= q < npages sz) by (rewrite npages_lt; consts; lia).
  destruct (proj2 (Hu q ltac:(lia)) ltac:(lia)) as [w Hw]. pose proof (b_St _ _ _ _ _ _ _ _ _ Hb) as Hst.
  destruct (r_pte _ _ (proj2 Hst) _ _ Hw) as ([t Ht] & _ & _).
  destruct (own_held _ _ _ _ (frame w) (proj1 Hst)) as [Hokw _]; [pose proof (upage_in _ _ _ Hw ltac:(lia)); memb|].
  destruct (own_held _ _ _ _ t (proj1 Hst)) as [(_ & _ & Hokt) _]; [pose proof (tab_in _ _ _ Ht); memb|].
  assert (0 <= q mod 1024) by (by apply Z.mod_pos_bound).
  rewrite (u32_small (addr + i)), <- Hq by (consts; lia).
  rewrite (bind_run _ _ _ _ _ (mm_run _ s _ _ (walk_present _ _ _ _ _ q false t Hst ltac:(consts; lia) Ht))).
  rewrite (proj2 (Z.eqb_neq (t + _) 0)) by (consts; lia).
  rewrite (bind_run _ _ _ _ _ (mm_run _ (set_vm (x_vm s) s) _ _ (rd_entry _ _ _ _ _ _ _ Hst Ht))), Hw. cbn [default]. unfold id at 1. cbn zeta.
  rewrite (bind_run _ _ _ _ _ (mm_run _ (set_vm (x_vm s) s) _ _ (frame_P2V _ _ _ Hokw))).
  set (n := if fsz - i <? PGSIZE then fsz - i else PGSIZE).
  assert (Hn : 0 <= n <= PGSIZE) by (unfold n; destruct (Z.ltb_spec (fsz - i) PGSIZE); consts; lia).
  assert (Hn' : 0 <= n < 2 ^ 32) by (unfold PGSIZE in Hn; lia).
  destruct (x_readi_ok ip (u32 (off + i)) n (x_fs s) Hlk (u32_range _) Hn') as ([r0 bs] & f & Er & Hlk').
  rewrite (bind_run _ _ _ _ _ (fs_run _ (set_vm (x_vm s) s) _ _ Er)). pose proof (x_readi_len _ _ _ _ _ _ _ (u32_range _) Hn' Er) as Hlen.
  assert (exists v, store (frame w) bs (x_vm s) = Ok tt v /\ building s0 l0 held v l d sz) as (v & Es & Hb').
  { destruct bs as [|b bs]; [by exists (x_vm s)|]. cbn [store]. rewrite <- (Z.add_0_r (frame w)).
    apply (write_building end_ data_ s0 l0 held (x_vm s) l d sz q w 0 (b :: bs)); [done|lia|done|done|lia]. }
  rewrite (bind_run _ _ _ _ _ (mm_run _ (set_fs f (set_vm (x_vm s) s)) _ _ Es)).
  destruct (negb (u32 r0 =? n)); [by exists (-1), (set_vm v (set_fs f (set_vm (x_vm s) s)))|].
  apply (IH s0 l0 held (set_vm v (set_fs f (set_vm (x_vm s) s))) l d sz addr ip off (i + PGSIZE) fsz Hb' Ha Ha0); [|lia|done|lia|done].
  by rewrite <- Z.add_mod_idemp_l, Hi.
Qed.

Lemma load_returns n : forall s0 l0 held (s : X) l d sz ip off, building s0 l0 held (x_vm s) l d sz -> x_locked ip (x_fs s) -> 0 <= off < 2 ^ 32 ->
  exists r s', load_segments end_ n (sp_dir d) ip off sz s = Ok r s' /\ x_locked ip (x_fs s').
Proof using ExecFsLaws0 Hend.
  induction n as [|n IH]; intros s0 l0 held s l d sz ip off Hb Hlk Hoff; cbn [load_segments]; [by exists (Some sz), s|].
  destruct (x_readi_ok ip off sizeof_proghdr (x_fs s) Hlk Hoff ltac:(done)) as ([r1 bs] & f & Er & Hlk').
  rewrite (bind_run _ _ _ _ _ (fs_run _ s _ _ Er)). set (s1 := set_fs f s). assert (Hb1 : building s0 l0 held (x_vm s1) l d sz) by done.
  assert (Hnone : forall s2 : X, x_locked ip (x_fs s2) -> exists r s', ret None s2 = Ok r s' /\ x_locked ip (x_fs s')) by (intros s2 ?; by exists (@None Z), s2).
  destruct (negb (r1 =? sizeof_proghdr)); [by apply Hnone|]. cbn zeta.
  destruct (negb (ph_type (ph_read bs) =? ELF_PROG_LOAD)); [by eapply IH; [exact Hb1|done|apply u32_range]|].
  destruct (Z.ltb_spec (ph_memsz (ph_read bs)) (ph_filesz (ph_read bs))) as [|Hfm]; [by apply Hnone|].
  destruct (Z.ltb_spec (u32 (ph_vaddr (ph_read bs) + ph_memsz (ph_read bs))) (ph_vaddr (ph_read bs))) as [|Hov]; [by apply Hnone|].
  destruct (alloc_building end_ data_ Hend s0 l0 held (x_vm s1) l d sz (u32 (ph_vaddr (ph_read bs) + ph_memsz (ph_read bs))) Hb1 (u32_range _)) as (r2 & v2 & l2 & d2 & sz2 & E2 & Hd2 & Hb2 & Hr2).
  rewrite (bind_run _ _ _ _ _ (mm_run _ s1 _ _ E2)).
  destruct (Z.eqb_spec r2 0) as [|Hr20]; [by apply Hnone|]. destruct Hr2 as [|(-> & Hsz2 & Hlt & _)]; [done|].
  destruct (Z.eqb_spec (ph_vaddr (ph_read bs) mod PGSIZE) 0) as [Hal|]; cbn [negb]; [|by apply Hnone].
  unfold loaduvm. rewrite (proj2 (Z.eqb_eq _ 0) Hal). cbn [negb]. pose proof (no_wrap _ Hov) as Hnw. assert (Hv0 : 0 <= ph_vaddr (ph_read bs)) by apply u32_range.
  assert (Hf0 : 0 <= ph_filesz (ph_read bs)) by apply u32_range. rewrite <- Hd2.
  set (fuel := Z.to_nat (ph_filesz (ph_read bs) / PGSIZE + 1)).
  assert (Hfu : ph_filesz (ph_read bs) - 0 <= Z.of_nat fuel * PGSIZE).
  { pose proof (Z.div_mod (ph_filesz (ph_read bs)) PGSIZE ltac:(done)). pose proof (Z.mod_pos_bound (ph_filesz (ph_read bs)) PGSIZE ltac:(done)).
    assert (0 <= ph_filesz (ph_read bs) / PGSIZE) by (by apply Z.div_pos). unfold fuel. consts. lia. }
  destruct (loaduvm_returns fuel s0 l0 held (set_vm v2 s1) l2 d2 sz2 (ph_vaddr (ph_read bs)) ip (ph_off (ph_read bs)) 0 (ph_filesz (ph_read bs)))
    as (r3 & s3 & E3 & Hlk3); [done|done|done|done|done|lia|done|done|].
  destruct (loaduvm_building fuel s0 l0 held (set_vm v2 s1) l2 d2 sz2 (ph_vaddr (ph_read bs)) ip (ph_off (ph_read bs)) 0 (ph_filesz (ph_read bs)) r3 s3 Hb2 Hal Hv0 eq_refl ltac:(done) ltac:(lia) E3) as [Hb3 _].
  rewrite (bind_run _ _ _ _ _ E3). destruct (r3 <? 0); [by apply Hnone|]. eapply IH; [exact Hb3|done|apply u32_range].
Qed.

Lemma bad_returns pgdir ip (s s1 : X) : whenM (negb (pgdir =? 0)) (mm (freevm end_ pgdir)) s = Ok tt s1 -> x_locked ip (x_fs s1) ->
  exists s', bad end_ pgdir (Some ip) s = Ok (-1) s' /\ x_idle (x_fs s').
Proof.
  intros E Hlk. unfold bad. rewrite (bind_run _ _ _ _ _ E). destruct (x_iunlockput_ok ip _ Hlk) as (f & E1 & Hf). destruct (x_end_op_ok _ Hf) as (f' & E2 & Hf').
  unfold bind at 1. rewrite (bind_run _ _ _ _ _ (fs_run _ s1 _ _ E1)), (fs_run _ (set_fs f s1) _ _ E2). by eexists.
Qed.

Lemma exec_returns (s : X) l sp oth path argv : St (x_vm s) l sp oth -> x_pgdir (x_proc s) = sp_dir sp -> x_kstack (x_proc s) <> 0 ->
  Forall short argv -> x_idle (x_fs s) -> exists r s', exec end_ data_ path argv s = Ok r s' /\ x_idle (x_fs s').
Proof using ExecFsLaws0 Hend Hdata Hlink Htop.
  intros Hst Hpg Hks Hsh Hid. set (held := tables sp ++ upages sp ++ oth). unfold exec.
  destruct (x_begin_op_ok _ Hid) as (f1 & E1 & H1). rewrite (bind_run _ _ _ _ _ (fs_run _ s _ _ E1)).
  destruct (x_namei_ok path _ H1) as (oip & f2 & E2 & H2). rewrite (bind_run _ _ _ _ _ (fs_run _ (set_fs f1 s) _ _ E2)).
  destruct oip as [ip|].
  2:{ destruct (x_end_op_ok _ H2) as (f3 & E3 & H3). rewrite (bind_run _ _ _ _ _ (fs_run _ (set_fs f2 (set_fs f1 s)) _ _ E3)). by eexists _, _. }
  destruct (x_ilock_ok ip _ H2) as (f3 & E3 & H3). rewrite (bind_run _ _ _ _ _ (fs_run _ (set_fs f2 (set_fs f1 s)) _ _ E3)).
  destruct (x_readi_ok ip 0 sizeof_elfhdr f3 H3 ltac:(done) ltac:(done)) as ([r bs] & f4 & E4 & H4).
  rewrite (bind_run _ _ _ _ _ (fs_run _ (set_fs f3 (set_fs f2 (set_fs f1 s))) _ _ E4)).
  set (s4 := set_fs f4 _). assert (Hbad : forall s5 : X, x_locked ip (x_fs s5) -> exists r s', bad end_ 0 (Some ip) s5 = Ok r s' /\ x_idle (x_fs s')).
  { intros s5 H5. destruct (bad_returns 0 ip s5 s5 eq_refl H5) as (s' & E & H). by eexists _, _. }
  destruct (negb (r =? sizeof_elfhdr)); [by apply Hbad|]. cbn zeta. destruct (negb (_ =? ELF_MAGIC)); [by apply Hbad|].
  destruct (setupkvm_spec end_ data_ Hend Hdata Hlink Htop (x_vm s) l held (proj1 Hst))
    as (r5 & v5 & E5 & [(-> & _)|(Hr & l5 & d & -> & Hst5 & Hl5 & Hk5 & Hf5)]); rewrite (bind_run _ _ _ _ _ (mm_run _ s4 _ _ E5)); [by apply Hbad|].
  rewrite (proj2 (Z.eqb_neq _ 0) Hr). set (s5 := set_vm v5 s4).
  assert (Hb5 : building (x_vm s) l held (x_vm s5) l5 d 0) by (split; [done|done|done|by apply setup_img]). clear Hf5.
  destruct (load_returns (Z.to_nat (e_phnum (elf_read bs))) _ _ _ s5 _ _ _ ip (e_phoff (elf_read bs)) Hb5 H4 (u32_range _)) as (osz & s6 & E6 & H6).
  destruct (load_building _ _ _ _ _ _ _ _ _ _ _ _ Hb5 E6) as (l6 & d6 & sz6 & Hb6 & Hd6 & P6 & Hr6).
  rewrite (bind_run _ _ _ _ _ E6), <- Hd6. destruct osz as [sz|].
  - subst sz. destruct (x_iunlockput_ok ip _ H6) as (f7 & E7 & H7). rewrite (bind_run _ _ _ _ _ (fs_run _ s6 _ _ E7)).
    destruct (x_end_op_ok _ H7) as (f8 & E8 & H8). rewrite (bind_run _ _ _ _ _ (fs_run _ (set_fs f7 s6) _ _ E8)).
    destruct (exec_stack_spec (x_vm s) l sp oth (set_fs f8 (set_fs f7 s6)) l6 d6 sz6 path argv (e_entry (elf_read bs)) Hb6 (proj2 Hst)) as (r9 & s9 & E9 & F9 & _);
      [cbn; by rewrite P6|cbn; by rewrite P6|done|]. exists r9, s9. split; [exact E9|]. by rewrite F9.
  - destruct (own_held _ _ _ _ (sp_dir d6) (proj1 (b_St _ _ _ _ _ _ _ _ _ Hb6))) as [(_ & _ & Hok) _]; [apply elem_of_app; left; by left|].
    destruct (freevm_spec end_ Hend _ _ _ _ (b_St _ _ _ _ _ _ _ _ _ Hb6)) as (v & l' & Ev & _).
    destruct (bad_returns (sp_dir d6) ip s6 (set_vm v s6)) as (s' & E & H); [|done|by eexists _, _].
    rewrite (proj2 (Z.eqb_neq (sp_dir d6) 0)) by (consts; lia). cbn [negb whenM]. by rewrite (mm_run _ s6 _ _ Ev).
Qed.

End exec.

(** On every file system that stores no more than it is asked to, fs.c among
    them: what exec has done when it returns *)
Lemma exec_outcome {F} `{!ExecFs F} `{!ExecFsLaws F} end_ data_ (s : xstate F) l sp oth path argv r s' :
  KERNBASE < end_ -> data_ mod PGSIZE = 0 -> KERNLINK < data_ -> data_ < KERNBASE + PHYSTOP ->
  VmRep.St end_ (x_vm s) l sp oth -> x_pgdir (x_proc s) = sp_dir sp -> x_kstack (x_proc s) <> 0 -> Forall short argv ->
  exec end_ data_ path argv s = Ok r s' ->
  (r = -1 /\ x_proc s' = x_proc s /\ exists l', VmRep.St end_ (x_vm s') l' sp oth /\ l' ≡ₚ l /\
     keeps (x_vm s) (x_vm s') (tables sp ++ upages sp ++ oth)) \/
  (r = 0 /\ exists l' d, x_pgdir (x_proc s') = sp_dir d /\ VmRep.St end_ (x_vm s') l' d oth /\ img data_ d (x_sz (x_proc s')) /\
     pages d l' ≡ₚ pages sp l /\ keeps (x_vm s) (x_vm s') oth /\ v_cr3 (x_vm s') = sp_dir d - KERNBASE /\
     header (F := F) (x_eip (x_proc s')) /\ args_at (v_mem (x_vm s')) d (x_esp (x_proc s')) (x_sz (x_proc s')) argv).
Proof.
  intros Hend Hd1 Hd2 Hd3 Hst Hpg Hks Hsh E.
  destruct (exec_spec end_ data_ Hend Hd1 Hd2 Hd3 s l sp oth path argv r s' Hst Hpg Hks Hsh E)
    as [(-> & P & l' & Ho & Hl & Hk)|(-> & entry & Hh & l' & d & H1 & H2 & H3 & H4 & H5 & H6 & H7 & H8)].
  - left. split; [done|]. split; [done|]. exists l'. split; [|done]. split; [done|]. eapply rep_frame; [apply Hst|].
    intros p Hp. split; [eapply own_aligned; [exact Ho|memb]|apply Hk; memb].
  - right. split; [done|]. exists l', d. rewrite H6. by repeat (split; [done|]).
Qed.


(** ** A file system of one file *)

#[local] Instance one_file : ExecFs (list Z) := {|
  x_begin_op := ret tt; x_end_op := ret tt; x_namei := fun _ => ret (Some 0%nat); x_ilock := fun _ => ret tt; x_iunlockput := fun _ => ret tt;
  x_readi := fun _ off n => f <- gets id ;; let bs := slice (Z.to_nat off) (Z.to_nat n) f in ret (zlen bs, bs) |}.

#[local] Instance one_file_laws : ExecFsLaws (list Z).
Proof. intros ip off n f r bs f' Hoff Hn E. injection E as _ <- _. unfold zlen. rewrite length_slice. lia. Qed.

#[local] Instance one_file_protocol : ExecFsProtocol (list Z).
Proof.
  refine {| x_idle := fun _ => True; x_in_op := fun _ => True; x_found := fun _ _ => True; x_locked := fun _ _ => True |};
    intros; try (by exists f).
  - by exists (Some 0%nat), f.
  - eexists _, f. by split.
Defined.

(** An executable without segments, on a machine with too little memory for a
    page table *)
Definition w_elf : list Z := le_bytes 4 ELF_MAGIC ++ replicate 48 0.
Definition w_x : xstate (list Z) := mkX w_elf w_vm1 (mkXproc (w_page 0) PGSIZE 0 0 (replicate 16 0) w_end) 0.


(** There exec reaches setupkvm, and returns -1. *)
Example exec_no_memory : returns (-1) (exec w_end (KERNBASE + 2097152) [47; 97] [[97]; [98; 99]] w_x) = true.
Proof. by vm_compute. Qed.

End ExecProps.
