(* ===== verification/Mp.v ===== *)
(** * Finding the processors: mp.c

    The BIOS describes the machine in tables that mp.c searches for in low
    memory.  Memory is a byte for every physical address, mapped at KERNBASE up
    to PHYSTOP; a read outside it is undefined.  The tables are read only, so
    the bytes never change. *)
From S2P Require Import Prelude Words Params CString Kalloc Vm Spinlock.

Module Mp.
Import Spinlock.

(** ** mp.h *)

(** param.h:NCPU *)
Definition NCPU : Z := 8.

Definition MPPROC : Z := 0.
Definition MPBUS : Z := 1.
Definition MPIOAPIC : Z := 2.
Definition MPIOINTR : Z := 3.
Definition MPLINTR : Z := 4.

(** The sizes of struct mp, mpconf, mpproc and mpioapic *)
Definition sizeof_mp : Z := 16.
Definition sizeof_mpconf : Z := 44.
Definition sizeof_mpproc : Z := 20.
Definition sizeof_mpioapic : Z := 8.

(** ** State

    The memory, the globals of mp.c, lapic of lapic.c, and the interrupt mode
    register behind ports 0x22 and 0x23: the register selected and the registers *)
Record mp := mkMp { y_mem : Z -> Z; y_cpus : list cpu; y_ncpu : Z; y_ioapicid : Z; y_lapic : Z; y_sel : Z; y_imcr : gmap Z Z }.

Definition set_apicid (a : Z) (c : cpu) : cpu := mkCpu a (c_ncli c) (c_intena c) (c_if c) (c_proc c) (c_scheduler c).

(** [cpus\[ncpu\].apicid = a; ncpu++] *)
Definition add_cpu (a : Z) (s : mp) : mp :=
  mkMp (y_mem s) (alter (set_apicid a) (Z.to_nat (y_ncpu s)) (y_cpus s)) (s32 (y_ncpu s + 1)) (y_ioapicid s) (y_lapic s) (y_sel s) (y_imcr s).
Definition set_ioapicid (a : Z) (s : mp) : mp := mkMp (y_mem s) (y_cpus s) (y_ncpu s) a (y_lapic s) (y_sel s) (y_imcr s).
Definition set_lapic (a : Z) (s : mp) : mp := mkMp (y_mem s) (y_cpus s) (y_ncpu s) (y_ioapicid s) a (y_sel s) (y_imcr s).

Definition outb (port v : Z) : M mp unit :=
  modify (fun s =>
    if port =? 34 then mkMp (y_mem s) (y_cpus s) (y_ncpu s) (y_ioapicid s) (y_lapic s) (u8 v) (y_imcr s)
    else mkMp (y_mem s) (y_cpus s) (y_ncpu s) (y_ioapicid s) (y_lapic s) (y_sel s) (<[y_sel s := u8 v]> (y_imcr s))).
Definition inb_imcr : M mp Z := gets (fun s => default 0 (y_imcr s !! y_sel s)).

(** ** Reading memory *)

Definition in_ram (v : Z) : bool := (KERNBASE <=? v) && (v <? KERNBASE + PHYSTOP).

Definition rdb (v : Z) : M mp Z := if in_ram v then gets (fun s => u8 (y_mem s (v - KERNBASE))) else undef.

Fixpoint rdn (n : nat) (v : Z) : M mp (list Z) :=
  match n with O => ret [] | S n' => b <- rdb v ;; bs <- rdn n' (v + 1) ;; ret (b :: bs) end.

Definition rd_ushort (v : Z) : M mp Z := bs <- rdn 2 v ;; ret (le_val bs).
Definition rd_uint (v : Z) : M mp Z := bs <- rdn 4 v ;; ret (le_val bs).

(** [memcmp(p, sig, n)] where the bytes of sig are given *)
Fixpoint memcmp_at (v : Z) (sig : list Z) : M mp Z :=
  match sig with
  | [] => ret 0
  | c :: sig' => b <- rdb v ;; if b =? c then memcmp_at (v + 1) sig' else ret (b - c)
  end.

(** "_MP_" and "PCMP" *)
Definition sig_MP : list Z := [95; 77; 80; 95].
Definition sig_PCMP : list Z := [80; 67; 77; 80].

(** ** mp.c *)

(** The loop of sum, and sum: the result is cut to a uchar. *)
Fixpoint sum_loop (n : nat) (v acc : Z) : M mp Z :=
  match n with O => ret acc | S n' => b <- rdb v ;; sum_loop n' (v + 1) (s32 (acc + b)) end.

Definition sum (addr len : Z) : M mp Z := r <- sum_loop (Z.to_nat len) addr 0 ;; ret (u8 r).

(** The loop of mpsearch1 runs [n] times; null is 0. *)
Fixpoint mpsearch1_loop (n : nat) (p : Z) : M mp Z :=
  match n with
  | O => ret 0
  | S n' =>
      c <- memcmp_at p sig_MP ;;
      (if c =? 0 then x <- sum p sizeof_mp ;; if x =? 0 then ret p else mpsearch1_loop n' (p + sizeof_mp)
       else mpsearch1_loop n' (p + sizeof_mp))
  end.

Definition mpsearch1 (a len : Z) : M mp Z :=
  addr <- Vm.P2V a ;; mpsearch1_loop (Z.to_nat ((len + sizeof_mp - 1) / sizeof_mp)) addr.

Definition mpsearch : M mp Z :=
  bda <- Vm.P2V 1024 ;;
  b15 <- rdb (bda + 15) ;; b14 <- rdb (bda + 14) ;;
  let p := Z.shiftl (Z.lor (Z.shiftl b15 8) b14) 4 in
  m <- (if negb (p =? 0) then mpsearch1 p 1024
        else b20 <- rdb (bda + 20) ;; b19 <- rdb (bda + 19) ;;
             let p := Z.lor (Z.shiftl b20 8) b19 * 1024 in mpsearch1 (u32 (p - 1024)) 1024) ;;
  if negb (m =? 0) then ret m else mpsearch1 983040 65536.

(** The configuration table and the floating pointer, or null *)
Definition mpconfig : M mp (option (Z * Z)) :=
  m <- mpsearch ;;
  if m =? 0 then ret None
  else
    phys <- rd_uint (m + 4) ;;
    if phys =? 0 then ret None
    else
      conf <- Vm.P2V phys ;;
      c <- memcmp_at conf sig_PCMP ;;
      if negb (c =? 0) then ret None
      else
        version <- rdb (conf + 6) ;;
        if negb (version =? 1) && negb (version =? 4) then ret None
        else
          len <- rd_ushort (conf + 4) ;;
          x <- sum conf len ;;
          if negb (x =? 0) then ret None else ret (Some (conf, m)).

(** The body of the loop of mpinit: the next value of [p], and [ismp].  The
    [break] of the last case leaves the switch and not the loop. *)
Definition mp_entry (p : Z) (ismp : bool) : M mp (Z * bool) :=
  t <- rdb p ;;
  if t =? MPPROC then
    n <- gets y_ncpu ;;
    whenM (n <? NCPU) (a <- rdb (p + 1) ;; modify (add_cpu a)) ;;
    ret (p + sizeof_mpproc, ismp)
  else if t =? MPIOAPIC then
    a <- rdb (p + 1) ;;
    modify (set_ioapicid a) ;;
    ret (p + sizeof_mpioapic, ismp)
  else if (t =? MPBUS) || (t =? MPIOINTR) || (t =? MPLINTR) then ret (p + 8, ismp)
  else ret (p, false).

(** At most [n] rounds of the loop *)
Fixpoint mp_rounds (n : nat) (p e : Z) (ismp : bool) : M mp (Z * bool) :=
  match n with
  | O => ret (p, ismp)
  | S n' => if p <? e then let* (p', ismp') := mp_entry p ismp in mp_rounds n' p' e ismp' else ret (p, ismp)
  end.

(** Every round that goes on to the next entry advances by 8 bytes at least; a
    loop that is not at the end after [e - p] rounds does not end. *)
Definition mpinit : M mp unit :=
  o <- mpconfig ;;
  match o with
  | None => panic "Expect to run on an SMP"
  | Some (conf, m) =>
      la <- rd_uint (conf + 36) ;;
      modify (set_lapic la) ;;
      len <- rd_ushort (conf + 4) ;;
      let p := conf + sizeof_mpconf in
      let e := conf + len in
      let* (q, ismp) := mp_rounds (Z.to_nat (e - p)) p e true in
      if q <? e then undef
      else if negb ismp then panic "Didn't find a suitable machine"
      else
        imcrp <- rdb (m + 12) ;;
        whenM (negb (imcrp =? 0)) (
          outb 34 112 ;;
          v <- inb_imcr ;;
          outb 35 (Z.lor v 1))
  end.

End Mp.
