(* ===== verification/MpProps.v ===== *)
(** * mp.c: the processors found are those of the table

    The search is compared with a plain scan of the candidate addresses, and
    mpinit with the entries that the bytes of the table spell. *)
From S2P Require Import Prelude Words Params CString Kalloc Vm Spinlock Mp.

Module MpProps.
Import Spinlock Mp.

(** ** Specifications on the bytes of memory *)

Definition mbyte (mem : Z -> Z) (p : Z) : Z := u8 (mem p).
Definition mbytes (mem : Z -> Z) (p : Z) (n : nat) : list Z := mbyte mem <$> seqZ p (Z.of_nat n).
Definition total (l : list Z) : Z := foldr Z.add 0 l.

(** A floating pointer: the signature, and bytes that add up to 0 *)
Definition is_mp (mem : Z -> Z) (p : Z) : bool :=
  bool_decide (mbytes mem p 4 = sig_MP) && (u8 (total (mbytes mem p 16)) =? 0).

(** The first floating pointer among [n] aligned addresses from [p] on *)
Fixpoint scan (mem : Z -> Z) (n : nat) (p : Z) : option Z :=
  match n with O => None | S n' => if is_mp mem p then Some p else scan mem n' (p + 16) end.

Definition ebda (mem : Z -> Z) : Z := (256 * mbyte mem 1039 + mbyte mem 1038) * 16.
Definition base_kb (mem : Z -> Z) : Z := 256 * mbyte mem 1044 + mbyte mem 1043.

Definition low_mp (mem : Z -> Z) : option Z :=
  if ebda mem =? 0 then scan mem 64 (base_kb mem * 1024 - 1024) else scan mem 64 (ebda mem).

(** What the comment above mpsearch says *)
Definition bios_mp (mem : Z -> Z) : option Z :=
  match low_mp mem with Some p => Some p | None => scan mem 4096 983040 end.

(** The entries of a table *)
Inductive entry := EProc (apicid : Z) | EIoapic (apicno : Z) | EOther (t : Z).

(** The bytes from [p] to [e] spell these entries. *)
Inductive table (mem : Z -> Z) (e : Z) : Z -> list entry -> Prop :=
| table_end : table mem e e []
| table_proc p es : p + sizeof_mpproc <= e -> mbyte mem p = MPPROC -> table mem e (p + sizeof_mpproc) es ->
    table mem e p (EProc (mbyte mem (p + 1)) :: es)
| table_ioapic p es : p + sizeof_mpioapic <= e -> mbyte mem p = MPIOAPIC -> table mem e (p + sizeof_mpioapic) es ->
    table mem e p (EIoapic (mbyte mem (p + 1)) :: es)
| table_other p t es : p + 8 <= e -> mbyte mem p = t -> t ∈ [MPBUS; MPIOINTR; MPLINTR] -> table mem e (p + 8) es ->
    table mem e p (EOther t :: es).

Definition procs (es : list entry) : list Z := omap (fun x => match x with EProc a => Some a | _ => None end) es.
Definition ioapics (es : list entry) : list Z := omap (fun x => match x with EIoapic a => Some a | _ => None end) es.

(** A machine that describes itself: the floating pointer [m] leads to a
    configuration table at [conf] with [len] bytes. *)
Record described (mem : Z -> Z) (m conf len : Z) : Prop := {
  g_low : ebda mem <> 0 \/ base_kb mem <> 0;
  g_mp : bios_mp mem = Some m;
  g_phys : le_val (mbytes mem (m + 4) 4) = conf;
  g_len : le_val (mbytes mem (conf + 4) 2) = len;
  g_range : 0 < conf /\ sizeof_mpconf <= len /\ conf + len <= PHYSTOP;
  g_sig : mbytes mem conf 4 = sig_PCMP;
  g_version : mbyte mem (conf + 6) = 1 \/ mbyte mem (conf + 6) = 4;
  g_sum : u8 (total (mbytes mem conf (Z.to_nat len))) = 0
}.

(** ** Reading *)

Lemma rdb_run s p : 0 <= p < PHYSTOP -> rdb (p + KERNBASE) s = Ok (mbyte (y_mem s) p) s.
Proof.
  intros Hp. unfold rdb, in_ram. rewrite (proj2 (Z.leb_le _ _)), (proj2 (Z.ltb_lt _ _)) by lia.
  cbn. unfold gets, mbyte. by rewrite Z.add_simpl_r.
Qed.

Lemma mbytes_S mem p n : mbytes mem p (S n) = mbyte mem p :: mbytes mem (p + 1) n.
Proof.
  unfold mbytes. rewrite seqZ_cons by lia. rewrite fmap_cons. do 3 f_equal; lia.
Qed.

Lemma rdn_run s n : forall p, 0 <= p -> p + Z.of_nat n <= PHYSTOP -> rdn n (p + KERNBASE) s = Ok (mbytes (y_mem s) p n) s.
Proof.
  induction n as [|n IH]; intros p Hp Hn; [done|]. cbn [rdn]. rewrite (bind_run _ _ _ _ _ (rdb_run s p ltac:(lia))).
  replace (p + KERNBASE + 1) with (p + 1 + KERNBASE) by lia. rewrite (bind_run _ _ _ _ _ (IH (p + 1) ltac:(lia) ltac:(lia))). by rewrite mbytes_S.
Qed.

Lemma rd_ushort_run s p : 0 <= p -> p + 2 <= PHYSTOP -> rd_ushort (p + KERNBASE) s = Ok (le_val (mbytes (y_mem s) p 2)) s.
Proof. intros. unfold rd_ushort. by rewrite (bind_run _ _ _ _ _ (rdn_run s 2 p ltac:(lia) ltac:(lia))). Qed.

Lemma rd_uint_run s p : 0 <= p -> p + 4 <= PHYSTOP -> rd_uint (p + KERNBASE) s = Ok (le_val (mbytes (y_mem s) p 4)) s.
Proof. intros. unfold rd_uint. by rewrite (bind_run _ _ _ _ _ (rdn_run s 4 p ltac:(lia) ltac:(lia))). Qed.

Lemma memcmp_at_run s sig : forall p, 0 <= p -> p + zlen sig <= PHYSTOP ->
  exists r, memcmp_at (p + KERNBASE) sig s = Ok r s /\ (r =? 0) = bool_decide (mbytes (y_mem s) p (length sig) = sig).
Proof.
  induction sig as [|c sig IH]; intros p Hp Hn; [exists 0; done|]. rewrite zlen_cons in Hn. pose proof (zlen_nonneg sig).
  cbn [memcmp_at length]. rewrite (bind_run _ _ _ _ _ (rdb_run s p ltac:(lia))), mbytes_S. destruct (Z.eqb_spec (mbyte (y_mem s) p) c) as [->|Hc].
  - replace (p + KERNBASE + 1) with (p + 1 + KERNBASE) by lia. destruct (IH (p + 1) ltac:(lia) ltac:(lia)) as (r & E & Hr). exists r. split; [done|].
    rewrite Hr. apply bool_decide_ext. split; [by intros ->|by intros [=]].
  - eexists. split; [done|]. rewrite bool_decide_eq_false_2 by congruence. apply Z.eqb_neq. lia.
Qed.

Lemma u8_s32 z : u8 (s32 z) = u8 z.
Proof.
  pose proof (u32_s32 z) as H. unfold u8, u32 in *. change (2 ^ 32) with (2 ^ 8 * 2 ^ 24) in H.
  rewrite <- (Z.mod_mod_divide (s32 z) (2 ^ 8 * 2 ^ 24)), <- (Z.mod_mod_divide z (2 ^ 8 * 2 ^ 24)) by (apply Z.divide_factor_l). by rewrite H.
Qed.

Lemma sum_loop_run s n : forall p acc, 0 <= p -> p + Z.of_nat n <= PHYSTOP ->
  exists r, sum_loop n (p + KERNBASE) acc s = Ok r s /\ u8 r = u8 (acc + total (mbytes (y_mem s) p n)).
Proof.
  induction n as [|n IH]; intros p acc Hp Hn; [exists acc; split; [done|]; cbn; by rewrite Z.add_0_r|]. cbn [sum_loop].
  rewrite (bind_run _ _ _ _ _ (rdb_run s p ltac:(lia))). replace (p + KERNBASE + 1) with (p + 1 + KERNBASE) by lia.
  destruct (IH (p + 1) (s32 (acc + mbyte (y_mem s) p)) ltac:(lia) ltac:(lia)) as (r & E & Hr). exists r. split; [done|].
  rewrite Hr, mbytes_S. cbn [total foldr]. fold (total (mbytes (y_mem s) (p + 1) n)). rewrite Z.add_assoc. pose proof (u8_s32 (acc + mbyte (y_mem s) p)) as H.
  unfold u8 in *. by rewrite <- Zplus_mod_idemp_l, H, Zplus_mod_idemp_l.
Qed.

Lemma sum_run s p len : 0 <= p -> 0 <= len -> p + len <= PHYSTOP ->
  sum (p + KERNBASE) len s = Ok (u8 (total (mbytes (y_mem s) p (Z.to_nat len)))) s.
Proof.
  intros. unfold sum. destruct (sum_loop_run s (Z.to_nat len) p 0 ltac:(lia) ltac:(lia)) as (r & E & Hr).
  rewrite (bind_run _ _ _ _ _ E). unfold ret. by rewrite Hr.
Qed.

(** ** The search *)

Definition ptr (o : option Z) : Z := match o with Some p => p + KERNBASE | None => 0 end.

Lemma mpsearch1_loop_run s n : forall p, 0 <= p -> p + 16 * Z.of_nat n <= PHYSTOP ->
  mpsearch1_loop n (p + KERNBASE) s = Ok (ptr (scan (y_mem s) n p)) s.
Proof.
  induction n as [|n IH]; intros p Hp Hn; [done|]. cbn [mpsearch1_loop scan]. unfold is_mp.
  destruct (memcmp_at_run s sig_MP p ltac:(lia) ltac:(change (zlen sig_MP) with 4; lia)) as (r & E & Hr). rewrite (bind_run _ _ _ _ _ E), Hr. cbn [length sig_MP].
  assert (Hnext : mpsearch1_loop n (p + KERNBASE + sizeof_mp) s = Ok (ptr (scan (y_mem s) n (p + 16))) s).
  { unfold sizeof_mp. replace (p + KERNBASE + 16) with (p + 16 + KERNBASE) by lia. apply IH; lia. }
  destruct (bool_decide _); cbn [andb]; [|done]. unfold sizeof_mp at 1. rewrite (bind_run _ _ _ _ _ (sum_run s p 16 ltac:(lia) ltac:(lia) ltac:(lia))).
  change (Z.to_nat 16) with 16%nat. destruct (u8 (total (mbytes (y_mem s) p 16)) =? 0); [done|exact Hnext].
Qed.

Lemma P2V_ok {S} (s : S) a : 0 <= a <= PHYSTOP -> Vm.P2V a s = Ok (a + KERNBASE) s.
Proof.
  intros Ha. unfold Vm.P2V, PHYSTOP, KERNBASE in *. rewrite Z.gtb_ltb, (proj2 (Z.ltb_ge _ _)) by lia. unfold ret. by rewrite u32_small by lia.
Qed.

Lemma mpsearch1_run s p len n : 0 <= p -> 0 <= len -> len = 16 * Z.of_nat n -> p + len <= PHYSTOP ->
  mpsearch1 p len s = Ok (ptr (scan (y_mem s) n p)) s.
Proof.
  intros Hp Hl -> Hn. unfold mpsearch1. rewrite (bind_run _ _ _ _ _ (P2V_ok s p ltac:(lia))). unfold sizeof_mp.
  replace (Z.to_nat ((16 * Z.of_nat n + 16 - 1) / 16)) with n by (Z.to_euclidean_division_equations; lia). apply mpsearch1_loop_run; lia.
Qed.

Lemma lor_byte a b : 0 <= b < 256 -> Z.lor (Z.shiftl a 8) b = 256 * a + b.
Proof. intros Hb. rewrite Z.lor_comm, lor_shiftl by lia. lia. Qed.

Lemma scan_range mem n : forall p q, scan mem n p = Some q -> p <= q /\ q + 16 <= p + 16 * Z.of_nat n.
Proof.
  induction n as [|n IH]; intros p q E; [done|]. cbn [scan] in E. destruct (is_mp mem p); [injection E as <-; lia|]. apply IH in E. lia.
Qed.

Lemma mbyte_range mem p : 0 <= mbyte mem p < 256.
Proof. apply u8_range. Qed.

Lemma low_mp_range mem p : low_mp mem = Some p -> ebda mem <> 0 \/ base_kb mem <> 0 -> 0 <= p /\ p + 16 <= 2 ^ 27.
Proof.
  unfold low_mp, ebda, base_kb. intros E H.
  pose proof (mbyte_range mem 1039). pose proof (mbyte_range mem 1038). pose proof (mbyte_range mem 1044). pose proof (mbyte_range mem 1043).
  destruct (Z.eqb_spec ((256 * mbyte mem 1039 + mbyte mem 1038) * 16) 0); apply scan_range in E; lia.
Qed.

Lemma bios_mp_range mem p : bios_mp mem = Some p -> ebda mem <> 0 \/ base_kb mem <> 0 -> 0 <= p /\ p + 16 <= PHYSTOP.
Proof.
  unfold bios_mp, PHYSTOP. intros E H. destruct (low_mp mem) as [q|] eqn:E1.
  - injection E as <-. pose proof (low_mp_range _ _ E1 H). lia.
  - apply scan_range in E. lia.
Qed.

Lemma mpsearch_low s : ebda (y_mem s) <> 0 \/ base_kb (y_mem s) <> 0 ->
  (if negb (ebda (y_mem s) =? 0) then mpsearch1 (ebda (y_mem s)) 1024 else mpsearch1 (u32 (base_kb (y_mem s) * 1024 - 1024)) 1024) s =
  Ok (ptr (low_mp (y_mem s))) s.
Proof.
  intros H. unfold low_mp. pose proof (mbyte_range (y_mem s)) as Hb. unfold PHYSTOP, ebda, base_kb in *.
  pose proof (Hb 1039). pose proof (Hb 1038). pose proof (Hb 1044). pose proof (Hb 1043).
  destruct (Z.eqb_spec ((256 * mbyte (y_mem s) 1039 + mbyte (y_mem s) 1038) * 16) 0); cbn [negb].
  - rewrite u32_small by lia. apply mpsearch1_run; unfold PHYSTOP; lia.
  - apply mpsearch1_run; unfold PHYSTOP; lia.
Qed.

Lemma mpsearch_run s : ebda (y_mem s) <> 0 \/ base_kb (y_mem s) <> 0 -> mpsearch s = Ok (ptr (bios_mp (y_mem s))) s.
Proof.
  intros H. unfold mpsearch. rewrite (bind_run _ _ _ _ _ (P2V_ok s 1024 ltac:(done))).
  replace (1024 + KERNBASE + 15) with (1039 + KERNBASE) by lia. replace (1024 + KERNBASE + 14) with (1038 + KERNBASE) by lia.
  replace (1024 + KERNBASE + 20) with (1044 + KERNBASE) by lia. replace (1024 + KERNBASE + 19) with (1043 + KERNBASE) by lia.
  rewrite (bind_run _ _ _ _ _ (rdb_run s 1039 ltac:(done))), (bind_run _ _ _ _ _ (rdb_run s 1038 ltac:(done))).
  rewrite lor_byte, Z.shiftl_mul_pow2 by (apply mbyte_range || done). change (2 ^ 4) with 16. fold (ebda (y_mem s)). cbn zeta.
  assert (E : (if negb (ebda (y_mem s) =? 0) then mpsearch1 (ebda (y_mem s)) 1024
    else b20 <- rdb (1044 + KERNBASE) ;; b19 <- rdb (1043 + KERNBASE) ;; mpsearch1 (u32 (Z.lor (Z.shiftl b20 8) b19 * 1024 - 1024)) 1024) s =
    Ok (ptr (low_mp (y_mem s))) s).
  { rewrite <- (mpsearch_low s H). destruct (negb _); [done|].
    rewrite (bind_run _ _ _ _ _ (rdb_run s 1044 ltac:(done))), (bind_run _ _ _ _ _ (rdb_run s 1043 ltac:(done))). by rewrite lor_byte by apply mbyte_range. }
  rewrite (bind_run _ _ _ _ _ E). pose proof (bios_mp_range (y_mem s)) as Hr. unfold bios_mp in *. destruct (low_mp (y_mem s)) as [q|].
  - specialize (Hr q eq_refl H). unfold ptr at 1. rewrite (proj2 (Z.eqb_neq (q + KERNBASE) 0)) by (unfold KERNBASE; lia). done.
  - cbn [ptr Z.eqb negb]. by apply mpsearch1_run.
Qed.

Lemma mpconfig_run s m conf len : described (y_mem s) m conf len -> mpconfig s = Ok (Some (conf + KERNBASE, m + KERNBASE)) s.
Proof.
  intros [H1 H2 H3 H4 (H5 & H6 & H7) H8 H9 H10]. pose proof (bios_mp_range _ _ H2 H1) as Hm. unfold sizeof_mpconf in *.
  unfold mpconfig. rewrite (bind_run _ _ _ _ _ (mpsearch_run s H1)), H2. cbn [ptr]. rewrite (proj2 (Z.eqb_neq (m + KERNBASE) 0)) by (unfold KERNBASE; lia).
  replace (m + KERNBASE + 4) with (m + 4 + KERNBASE) by lia. rewrite (bind_run _ _ _ _ _ (rd_uint_run s (m + 4) ltac:(lia) ltac:(lia))), H3.
  rewrite (proj2 (Z.eqb_neq conf 0)) by lia. rewrite (bind_run _ _ _ _ _ (P2V_ok s conf ltac:(lia))).
  destruct (memcmp_at_run s sig_PCMP conf ltac:(lia) ltac:(change (zlen sig_PCMP) with 4; lia)) as (r & E & Hr).
  rewrite (bind_run _ _ _ _ _ E), Hr. cbn [length sig_PCMP]. rewrite H8, bool_decide_eq_true_2 by done. cbn [negb].
  replace (conf + KERNBASE + 6) with (conf + 6 + KERNBASE) by lia. rewrite (bind_run _ _ _ _ _ (rdb_run s (conf + 6) ltac:(lia))).
  replace (negb (_ =? 1) && negb (_ =? 4)) with false by (destruct H9 as [-> | ->]; done).
  replace (conf + KERNBASE + 4) with (conf + 4 + KERNBASE) by lia. rewrite (bind_run _ _ _ _ _ (rd_ushort_run s (conf + 4) ltac:(lia) ltac:(lia))), H4.
  by rewrite (bind_run _ _ _ _ _ (sum_run s conf len ltac:(lia) ltac:(lia) ltac:(lia))), H10.
Qed.

(** ** The entries *)

(** What an entry does *)
Definition note (x : entry) (s : mp) : mp :=
  match x with EProc a => if y_ncpu s <? NCPU then add_cpu a s else s | EIoapic a => set_ioapicid a s | EOther _ => s end.

Definition notes (es : list entry) (s : mp) : mp := foldl (fun s x => note x s) s es.

Lemma note_mem x s : y_mem (note x s) = y_mem s.
Proof. destruct x; cbn; [by destruct (_ <? _)|done..]. Qed.

Lemma table_size mem e p es : table mem e p es -> p + 8 * zlen es <= e.
Proof. induction 1; rewrite ?zlen_cons; unfold sizeof_mpproc, sizeof_mpioapic, zlen in *; cbn [length] in *; lia. Qed.

(** The body of the loop on the entry at [p] *)
Lemma mp_entry_run s e p x es b : table (y_mem s) e p (x :: es) -> 0 <= p -> e <= PHYSTOP ->
  exists p', mp_entry (p + KERNBASE) b s = Ok (p' + KERNBASE, b) (note x s) /\ table (y_mem s) e p' es /\ p < p'.
Proof.
  intros H Hp He. unfold mp_entry, sizeof_mpproc, sizeof_mpioapic in *. pose proof (table_size _ _ _ _ H) as Hs. rewrite zlen_cons in Hs. pose proof (zlen_nonneg es).
  rewrite (bind_run _ _ _ _ _ (rdb_run s p ltac:(lia))). replace (p + KERNBASE + 1) with (p + 1 + KERNBASE) by lia.
  inversion H as [|? ? Hl Ht|? ? Hl Ht|? t ? Hl Ht Hin]; subst; unfold sizeof_mpproc, sizeof_mpioapic in *.
  - exists (p + 20). rewrite Ht. change (MPPROC =? MPPROC) with true. cbn match. rewrite gets_bind. split; [|split; [done|lia]]. unfold note.
    destruct (y_ncpu s <? NCPU); cbn [whenM]; rewrite ?bind_assoc, ?(bind_run _ _ _ _ _ (rdb_run s (p + 1) ltac:(lia))); unfold bind, modify, ret; do 2 f_equal; lia.
  - exists (p + 8). rewrite Ht. change (MPIOAPIC =? MPPROC) with false. change (MPIOAPIC =? MPIOAPIC) with true. cbn match. split; [|split; [done|lia]].
    rewrite (bind_run _ _ _ _ _ (rdb_run s (p + 1) ltac:(lia))). unfold bind, modify, ret. do 2 f_equal; lia.
  - exists (p + 8). split; [|split; [done|lia]]. unfold ret, note. replace (p + KERNBASE + 8) with (p + 8 + KERNBASE) by lia.
    set_unfold in Hin. destruct Hin as [-> | [-> | [-> | []]]]; done.
Qed.

(** The rounds over the entries *)
Lemma mp_rounds_app q e : forall es n s p b, table (y_mem s) q p es -> 0 <= p -> q <= e -> q <= PHYSTOP ->
  mp_rounds (length es + n) (p + KERNBASE) (e + KERNBASE) b s = mp_rounds n (q + KERNBASE) (e + KERNBASE) b (notes es s).
Proof.
  induction es as [|x es IH]; intros n s p b Ht Hp Hq He; [by inversion Ht|]. cbn [mp_rounds length Nat.add].
  pose proof (table_size _ _ _ _ Ht) as Hs. rewrite zlen_cons in Hs. pose proof (zlen_nonneg es). rewrite (proj2 (Z.ltb_lt _ _)) by lia.
  destruct (mp_entry_run s q p x es b Ht Hp He) as (p' & E & Ht' & Hp'). rewrite (bind_run _ _ _ _ _ E). apply IH; [by rewrite note_mem|lia..].
Qed.

Lemma mp_rounds_end n e b s : mp_rounds n e e b s = Ok (e, b) s.
Proof. destruct n; cbn [mp_rounds]; [done|]. by rewrite Z.ltb_irrefl. Qed.

(** At an unknown entry the loop stays where it is. *)
Lemma mp_entry_unknown s p b : 0 <= p < PHYSTOP -> mbyte (y_mem s) p ∉ [MPPROC; MPBUS; MPIOAPIC; MPIOINTR; MPLINTR] ->
  mp_entry (p + KERNBASE) b s = Ok (p + KERNBASE, false) s.
Proof.
  intros Hp Hn. unfold mp_entry. rewrite (bind_run _ _ _ _ _ (rdb_run s p Hp)). rewrite !not_elem_of_cons in Hn. destruct Hn as (H0 & H1 & H2 & H3 & H4 & _).
  by rewrite (proj2 (Z.eqb_neq _ _) H0), (proj2 (Z.eqb_neq _ _) H1), (proj2 (Z.eqb_neq _ _) H2), (proj2 (Z.eqb_neq _ _) H3), (proj2 (Z.eqb_neq _ _) H4).
Qed.

Lemma mp_rounds_unknown s p e n : forall b, 0 <= p < PHYSTOP -> p < e -> mbyte (y_mem s) p ∉ [MPPROC; MPBUS; MPIOAPIC; MPIOINTR; MPLINTR] ->
  mp_rounds (S n) (p + KERNBASE) (e + KERNBASE) b s = Ok (p + KERNBASE, false) s.
Proof.
  induction n as [|n IH]; intros b Hp He Hn; cbn [mp_rounds]; rewrite (proj2 (Z.ltb_lt _ _)) by lia;
    rewrite (bind_run _ _ _ _ _ (mp_entry_unknown s p b Hp Hn)); [done|]. by apply IH.
Qed.

(** The CPUs after entries whose processors, with those before, are [ids] *)
Record found (s0 s : mp) (ids ios : list Z) : Prop := {
  o_ncpu : y_ncpu s = Z.min NCPU (zlen ids);
  o_len : length (y_cpus s) = 8%nat;
  o_apic : take (Z.to_nat (y_ncpu s)) (c_apicid <$> y_cpus s) = take 8 ids;
  o_rest : drop (Z.to_nat (y_ncpu s)) (y_cpus s) = drop (Z.to_nat (y_ncpu s)) (y_cpus s0);
  o_other : set_apicid 0 <$> y_cpus s = set_apicid 0 <$> y_cpus s0;
  o_ioapic : y_ioapicid s = default (y_ioapicid s0) (last ios);
  o_same : y_mem s = y_mem s0 /\ y_lapic s = y_lapic s0 /\ y_sel s = y_sel s0 /\ y_imcr s = y_imcr s0
}.

Lemma found_proc s0 s ids ios a : found s0 s ids ios -> found s0 (note (EProc a) s) (ids ++ [a]) ios.
Proof.
  intros [H1 H2 H3 H4 H5 H6 H7]. cbn [note]. unfold NCPU in *. destruct (Z.ltb_spec (y_ncpu s) 8) as [Hlt|Hge].
  - assert (Hk : y_ncpu s = zlen ids) by lia. assert (Hn : Z.to_nat (y_ncpu s) = length ids) by (unfold zlen in Hk; lia).
    assert (Hl : (length ids < 8)%nat) by (unfold zlen in *; lia). rewrite Hn in H3, H4.
    destruct (lookup_lt_is_Some_2 (y_cpus s) (length ids) ltac:(lia)) as [c Hc].
    assert (Es : s32 (y_ncpu s + 1) = y_ncpu s + 1) by (apply s32_id; unfold zlen in *; lia).
    assert (En : Z.to_nat (y_ncpu s + 1) = S (length ids)) by (unfold zlen in *; lia).
    split; cbn; unfold NCPU; rewrite ?Es, ?En, ?Hn.
    + rewrite zlen_app. change (zlen [a]) with 1. lia.
    + by rewrite length_alter.
    + assert (Ea : (c_apicid <$> alter (set_apicid a) (length ids) (y_cpus s)) !! length ids = Some a) by (by rewrite list_lookup_fmap, list_lookup_alter_eq, Hc).
      rewrite (take_S_r _ _ _ Ea), (take_ge (ids ++ [a])) by (rewrite length_app; cbn; lia). f_equal.
      rewrite <- fmap_take, take_alter_ge by lia. rewrite fmap_take, H3. apply take_ge. lia.
    + rewrite drop_alter_lt by lia. replace (S (length ids)) with (length ids + 1)%nat by lia. by rewrite <- !drop_drop, H4.
    + rewrite <- H5. apply list_eq. intros i. rewrite !list_lookup_fmap. destruct (decide (i = length ids)) as [->|Hi];
        [by rewrite list_lookup_alter_eq, Hc|by rewrite list_lookup_alter_ne by done].
    + done.
    + done.
  - unfold zlen in *. split; try done.
    + unfold NCPU. rewrite H1, zlen_app. change (zlen [a]) with 1. unfold zlen. lia.
    + rewrite H3, take_app_le by lia. done.
Qed.

Lemma found_notes s0 es : forall s ids ios, found s0 s ids ios -> found s0 (notes es s) (ids ++ procs es) (ios ++ ioapics es).
Proof.
  induction es as [|x es IH]; intros s ids ios H; [by rewrite !app_nil_r|]. cbn [notes foldl]. fold (notes es (note x s)). destruct x as [a|a|t].
  - change (procs (EProc a :: es)) with ([a] ++ procs es). change (ioapics (EProc a :: es)) with (ioapics es). rewrite app_assoc. by apply IH, found_proc.
  - change (procs (EIoapic a :: es)) with (procs es). change (ioapics (EIoapic a :: es)) with ([a] ++ ioapics es). rewrite app_assoc. apply IH.
    destruct H as [H1 H2 H3 H4 H5 H6 H7]. split; try done. cbn. by rewrite last_snoc.
  - by apply IH.
Qed.

(** mycpu finds a CPU by its APIC id when the ids differ. *)
Lemma find_apic_nodup cs : forall i c, NoDup (c_apicid <$> cs) -> cs !! i = Some c -> find_apic cs (c_apicid c) = Some i.
Proof.
  induction cs as [|d cs IH]; intros i c Hn Hc; [done|]. cbn in Hn. apply NoDup_cons in Hn as [Hd Hn]. cbn [find_apic]. destruct i as [|i]; cbn in Hc.
  - injection Hc as ->. by rewrite Z.eqb_refl.
  - rewrite (proj2 (Z.eqb_neq _ _)), (IH i c Hn Hc); [done|]. intros E. apply Hd. rewrite E. apply list_elem_of_fmap_2, list_elem_of_lookup. by exists i.
Qed.

(** ** mpinit *)

(** The part of mpinit before the loop *)
Lemma mpinit_loop s m conf len : described (y_mem s) m conf len ->
  mpinit s = (let s1 := set_lapic (le_val (mbytes (y_mem s) (conf + 36) 4)) s in
    let* (q, ismp) := mp_rounds (Z.to_nat (len - 44)) (conf + 44 + KERNBASE) (conf + len + KERNBASE) true in
    if q <? conf + len + KERNBASE then undef
    else if negb ismp then panic "Didn't find a suitable machine"
    else imcrp <- rdb (m + 12 + KERNBASE) ;; whenM (negb (imcrp =? 0)) (outb 34 112 ;; v <- inb_imcr ;; outb 35 (Z.lor v 1))) (set_lapic (le_val (mbytes (y_mem s) (conf + 36) 4)) s).
Proof.
  intros H. unfold mpinit. rewrite (bind_run _ _ _ _ _ (mpconfig_run s m conf len H)). destruct H as [_ _ _ H4 (H5 & H6 & H7) _ _ _]. unfold sizeof_mpconf in *.
  replace (conf + KERNBASE + 36) with (conf + 36 + KERNBASE) by lia. rewrite (bind_run _ _ _ _ _ (rd_uint_run s (conf + 36) ltac:(lia) ltac:(lia))).
  set (s1 := set_lapic _ s). assert (E : modify (set_lapic (le_val (mbytes (y_mem s) (conf + 36) 4))) s = Ok tt s1) by done. rewrite (bind_run _ _ _ _ _ E).
  replace (conf + KERNBASE + 4) with (conf + 4 + KERNBASE) by lia. rewrite (bind_run _ _ _ _ _ (rd_ushort_run s1 (conf + 4) ltac:(lia) ltac:(lia))).
  change (y_mem s1) with (y_mem s). rewrite H4. cbn zeta. replace (conf + KERNBASE + len) with (conf + len + KERNBASE) by lia.
  replace (conf + KERNBASE + 44) with (conf + 44 + KERNBASE) by lia. replace (m + KERNBASE + 12) with (m + 12 + KERNBASE) by lia.
  by replace (conf + len + KERNBASE - (conf + 44 + KERNBASE)) with (len - 44) by lia.
Qed.


(** C20: After an entry of a type that mpinit does not know the loop stays at
    that entry for ever, with [ismp] already 0: it never gets past the table,
    so that the panic about an unsuitable machine is never reached. *)
Theorem mpinit_unknown_entry s m conf len es q : described (y_mem s) m conf len -> table (y_mem s) q (conf + sizeof_mpconf) es ->
  q < conf + len -> mbyte (y_mem s) q ∉ [MPPROC; MPBUS; MPIOAPIC; MPIOINTR; MPLINTR] ->
  mpinit s = Undef /\
  let s1 := set_lapic (le_val (mbytes (y_mem s) (conf + 36) 4)) s in
  forall n, (length es < n)%nat ->
    mp_rounds n (conf + sizeof_mpconf + KERNBASE) (conf + len + KERNBASE) true s1 = Ok (q + KERNBASE, false) (notes es s1).
Proof.
  intros H Ht Hq Hu. rewrite (mpinit_loop s m conf len H). cbn zeta. set (s1 := set_lapic _ s). destruct (g_range _ _ _ _ H) as (R1 & R2 & R3). unfold sizeof_mpconf in *.
  pose proof (table_size _ _ _ _ Ht) as Hs. unfold zlen in Hs. assert (Hm : y_mem (notes es s1) = y_mem s).
  { change (y_mem s) with (y_mem s1). clear. generalize s1. induction es as [|x es IH]; intros s0; [done|]. cbn [notes foldl]. fold (notes es (note x s0)). by rewrite IH, note_mem. }
  assert (E : forall n, (length es < n)%nat -> mp_rounds n (conf + 44 + KERNBASE) (conf + len + KERNBASE) true s1 = Ok (q + KERNBASE, false) (notes es s1)).
  { intros n Hn. replace n with (length es + S (n - length es - 1))%nat by lia. rewrite (mp_rounds_app q (conf + len) es _ s1) by (done || lia).
    apply mp_rounds_unknown; [lia|done|]. by rewrite Hm. }
  split; [|exact E]. rewrite (bind_run _ _ _ _ _ (E (Z.to_nat (len - 44)) ltac:(lia))). by rewrite (proj2 (Z.ltb_lt _ _)) by lia.
Qed.

(** ** A machine with two processors *)

(** Memory with some lists of bytes at some addresses *)
Fixpoint memory (l : list (Z * list Z)) (p : Z) : Z :=
  match l with
  | [] => 0
  | (a, bs) :: l' => if (a <=? p) && (p <? a + zlen bs) then default 0 (zget bs (p - a)) else memory l' p
  end.

(** [bs] with the checksum in its byte [i] *)
Definition checked (i : nat) (bs : list Z) : list Z := <[i := u8 (- total bs)]> bs.

Definition w_proc (a : Z) : list Z := [0; a; 20; 3] ++ replicate 16 0.
Definition w_entries (bad : list Z) : list Z := w_proc 0 ++ w_proc 5 ++ [1; 0; 73; 83; 65; 32; 32; 32] ++ [2; 2; 17; 1; 0; 0; 192; 254] ++ bad.
Definition w_conf (bad : list Z) : list Z :=
  let es := w_entries bad in
  checked 7 (sig_PCMP ++ le_bytes 2 (44 + zlen es) ++ [4; 0] ++ replicate 20 0 ++ le_bytes 4 0 ++ le_bytes 2 0 ++ le_bytes 2 4 ++ le_bytes 4 4276092928 ++ replicate 4 0 ++ es).
Definition w_mp : list Z := checked 10 (sig_MP ++ le_bytes 4 983808 ++ [1; 4; 0; 0; 128; 0; 0; 0]).
Definition w_mem (bad : list Z) : Z -> Z := memory [(1043, [127; 2]); (653328, w_mp); (983808, w_conf bad)].
Definition w_cpus : list cpu := replicate 8 (mkCpu 0 0 0 false None None).
Definition w_machine (bad : list Z) : mp := mkMp (w_mem bad) w_cpus 0 0 0 0 ∅.

Lemma w_described bad : bad = [] \/ bad = [9; 0] -> described (w_mem bad) 653328 983808 (zlen (w_conf bad)).
Proof. intros [-> | ->]; (split; try (by vm_compute); right; by vm_compute). Qed.

Definition w_list : list entry := [EProc 0; EProc 5; EOther 1; EIoapic 2].

Lemma w_table bad : bad = [] \/ bad = [9; 0] -> table (w_mem bad) (983808 + 44 + 56) (983808 + 44) w_list.
Proof.
  intros [-> | ->]; (apply table_proc; [done|by vm_compute|]; apply table_proc; [done|by vm_compute|];
    apply table_other; [done|by vm_compute|set_solver|]; apply table_ioapic; [done|by vm_compute|apply table_end]).
Qed.


Lemma mpinit_unknown_entry_witness : mpinit (w_machine [9; 0]) = Undef /\
  exists s', mp_rounds 1000 (983808 + 44 + KERNBASE) (983808 + zlen (w_conf [9; 0]) + KERNBASE) true (set_lapic 4276092928 (w_machine [9; 0])) = Ok (983808 + 100 + KERNBASE, false) s'.
Proof.
  destruct (mpinit_unknown_entry (w_machine [9; 0]) 653328 983808 (zlen (w_conf [9; 0])) w_list (983808 + 44 + 56)
    (w_described [9; 0] (or_intror eq_refl)) (w_table [9; 0] (or_intror eq_refl)) ltac:(by vm_compute)) as [E F]; [apply (bool_decide_unpack (9 ∉ [0; 1; 2; 3; 4])); by vm_compute|].
  split; [exact E|]. eexists. cbn zeta in F. assert (El : le_val (mbytes (y_mem (w_machine [9; 0])) (983808 + 36) 4) = 4276092928) by (by vm_compute).
  rewrite El in F. apply (F 1000%nat). cbn. lia.
Defined.

(** A machine whose BIOS data has no EBDA and no base memory: the search stops
    with a panic and does not get to the BIOS ROM. *)
Lemma no_low_memory s : ebda (y_mem s) = 0 -> base_kb (y_mem s) = 0 -> mpsearch s = Panic "P2V on address > KERNBASE".
Proof.
  intros He Hk. unfold mpsearch. rewrite (bind_run _ _ _ _ _ (P2V_ok s 1024 ltac:(done))).
  replace (1024 + KERNBASE + 15) with (1039 + KERNBASE) by lia. replace (1024 + KERNBASE + 14) with (1038 + KERNBASE) by lia.
  replace (1024 + KERNBASE + 20) with (1044 + KERNBASE) by lia. replace (1024 + KERNBASE + 19) with (1043 + KERNBASE) by lia.
  rewrite (bind_run _ _ _ _ _ (rdb_run s 1039 ltac:(done))), (bind_run _ _ _ _ _ (rdb_run s 1038 ltac:(done))).
  rewrite lor_byte, Z.shiftl_mul_pow2 by (apply mbyte_range || done). change (2 ^ 4) with 16. fold (ebda (y_mem s)). cbn zeta. rewrite He. cbn [Z.eqb negb].
  rewrite bind_assoc, (bind_run _ _ _ _ _ (rdb_run s 1044 ltac:(done))), bind_assoc, (bind_run _ _ _ _ _ (rdb_run s 1043 ltac:(done))).
  rewrite lor_byte by apply mbyte_range. fold (base_kb (y_mem s)). by rewrite Hk.
Qed.

End MpProps.
