(* ===== verification/Boot.v ===== *)
(** * The boot loader: bootmain.c

    bootmain reads the kernel, an ELF file that starts at sector 1 of the boot
    disk, into memory and jumps to it.  It runs without paging: memory is a byte
    for every physical address.  The drive is the one of Ide, of whose state
    only the drive is used. *)
From S2P Require Import Prelude Words Params Bio Ide.

Module Boot.
Import Ide.

Definition SECTSIZE : Z := 512.
Definition ELF_MAGIC : Z := 1179403647.

(** The address of the ELF header, and the sizes of struct elfhdr's page and of
    struct proghdr *)
Definition elf : Z := 65536.
Definition sizeof_proghdr : Z := 32.

Record boot := mkBoot { b_mem : Z -> Z; b_ide : ide }.

Definition set_mem (m : Z -> Z) (s : boot) : boot := mkBoot m (b_ide s).
Definition set_ide (d : ide) (s : boot) : boot := mkBoot (b_mem s) d.

(** ** Memory *)

(** [bs] stored from the address [a] on; addresses wrap at 32 bits. *)
Definition store (a : Z) (bs : list Z) (mem : Z -> Z) : Z -> Z :=
  fun x => match zget bs (u32 (x - a)) with Some b => b | None => mem x end.

Definition stosb (a c cnt : Z) : M boot unit := modify (fun s => set_mem (store a (replicate (Z.to_nat cnt) (u8 c)) (b_mem s)) s).

Definition bytes_at (n : nat) (a : Z) (mem : Z -> Z) : list Z := (fun k => u8 (mem (u32 (a + k)))) <$> seqZ 0 (Z.of_nat n).
Definition rd (n : nat) (a : Z) : M boot Z := gets (fun s => le_val (bytes_at n a (b_mem s))).

(** ** The disk *)

Definition io {A} (m : M ide A) : M boot A := zoom b_ide set_ide m.

(** The loop of waitdisk.  When the drive is ready it has carried out its
    command. *)
Fixpoint waitdisk_loop (fuel : nat) : M ide unit :=
  r <- inb_status ;;
  if negb (Z.land r 192 =? 64) then match fuel with O => undef | S fuel' => waitdisk_loop fuel' end else ret tt.

Definition waitdisk : M ide unit :=
  fuel <- gets (fun s => length (d_status (i_drv s))) ;;
  waitdisk_loop fuel ;;
  modify (fun s => set_drv (complete (i_drv s)) s).

Definition readsect (dst offset : Z) : M boot unit :=
  io (waitdisk ;;
      outb 498 1 ;;
      outb 499 offset ;;
      outb 500 (Z.shiftr offset 8) ;;
      outb 501 (Z.shiftr offset 16) ;;
      outb 502 (Z.lor (Z.shiftr offset 24) 224) ;;
      outb 503 32 ;;
      waitdisk) ;;
  bs <- io insl ;;
  modify (fun s => set_mem (store dst (take (Z.to_nat SECTSIZE) bs) (b_mem s)) s).

(** The loop of readseg, without wrapping at most [fuel] rounds *)
Fixpoint readseg_loop (fuel : nat) (pa offset epa : Z) : M boot unit :=
  if pa <? epa then
    match fuel with
    | O => undef
    | S fuel' => readsect pa offset ;; readseg_loop fuel' (u32 (pa + SECTSIZE)) (u32 (offset + 1)) epa
    end
  else ret tt.

Definition readseg (pa count offset : Z) : M boot unit :=
  let epa := u32 (pa + count) in
  let pa := u32 (pa - offset mod SECTSIZE) in
  let offset := offset / SECTSIZE + 1 in
  readseg_loop (Z.to_nat ((epa - pa + SECTSIZE - 1) / SECTSIZE)) pa offset epa.

(** The body and the loop over the program headers from [ph] to [eph] *)
Definition load_seg (ph : Z) : M boot unit :=
  pa <- rd 4 (ph + 12) ;;
  filesz <- rd 4 (ph + 16) ;;
  off <- rd 4 (ph + 4) ;;
  readseg pa filesz off ;;
  memsz <- rd 4 (ph + 20) ;;
  filesz <- rd 4 (ph + 16) ;;
  whenM (memsz >? filesz) (stosb (u32 (pa + filesz)) 0 (memsz - filesz)).

Fixpoint load_segs (fuel : nat) (ph eph : Z) : M boot unit :=
  if ph <? eph then
    match fuel with O => undef | S fuel' => load_seg ph ;; load_segs fuel' (u32 (ph + sizeof_proghdr)) eph end
  else ret tt.

(** The result is the entry point called, or [None] when bootmain returns. *)
Definition bootmain : M boot (option Z) :=
  readseg elf 4096 0 ;;
  magic <- rd 4 elf ;;
  if negb (magic =? ELF_MAGIC) then ret None
  else
    phoff <- rd 4 (elf + 28) ;;
    phnum <- rd 2 (elf + 44) ;;
    let ph := u32 (elf + phoff) in
    let eph := u32 (ph + sizeof_proghdr * phnum) in
    load_segs (Z.to_nat phnum) ph eph ;;
    entry <- rd 4 (elf + 24) ;;
    ret (Some entry).

End Boot.
