(* ===== verification/BootProps.v ===== *)
(** * The boot loader puts the kernel where its headers say

    The kernel image is the bytes of the boot disk from sector 1 on.  Loading
    rounds to sectors, so that more than a segment is written; what matters is
    the order of the segments. *)
From Stdlib Require Import Sorted.
From S2P Require Import Prelude Words Params Bio Ide Boot.

Module BootProps.
Import Ide Boot.

Section disk.
(** The boot disk *)
Context (dk : gmap key block).

(** Byte [i] of the kernel image *)
Definition img (i : Z) : Z := default 0 (zget (disk_at dk (0, i / 512 + 1)) (i mod 512)).
Definition word (n : nat) (i : Z) : Z := le_val ((fun k => u8 (img (i + k))) <$> seqZ 0 (Z.of_nat n)).

Definition disk_ok : Prop := forall o, 0 <= o -> length (disk_at dk (0, o)) = 512%nat.

(** The boot disk is in the drive, and the drive is idle. *)
Definition at_rest (s : boot) : Prop := d_disk (i_drv (b_ide s)) = dk /\ d_cmd (i_drv (b_ide s)) = None.

(** ** One sector *)

Lemma land_224 x : 0 <= x < 16 -> u8 (Z.lor x 224) = x + 224.
Proof.
  intros Hx. assert (H : forallb (fun x => u8 (Z.lor x 224) =? x + 224) (seqZ 0 16) = true) by (by vm_compute).
  rewrite forallb_forall in H. specialize (H x). rewrite <- list_elem_of_In, elem_of_seqZ, Z.eqb_eq in H. apply H. lia.
Qed.

Lemma land_low x k : 0 <= k -> Z.land x (2 ^ k - 1) = x mod 2 ^ k.
Proof. intros Hk. rewrite <- Z.land_ones by done. by rewrite Z.ones_equiv, Z.sub_1_r. Qed.

(** The registers readsect writes select sector [o] of the first drive. *)
Lemma target_lba d o : 0 <= o < 2 ^ 28 -> reg d 499 = u8 o -> reg d 500 = u8 (Z.shiftr o 8) -> reg d 501 = u8 (Z.shiftr o 16) ->
  reg d 502 = u8 (Z.lor (Z.shiftr o 24) 224) -> target d = (0, o).
Proof.
  intros Ho H0 H1 H2 H3. unfold target. rewrite H0, H1, H2, H3, !Z.shiftr_div_pow2 by lia.
  assert (Hq : 0 <= o / 2 ^ 24 < 16) by (Z.to_euclidean_division_equations; lia). rewrite land_224 by done.
  set (b0 := u8 o). set (b1 := u8 (o / 2 ^ 8)). set (b2 := u8 (o / 2 ^ 16)).
  pose proof (u8_range o). pose proof (u8_range (o / 2 ^ 8)). pose proof (u8_range (o / 2 ^ 16)).
  change (Z.land (o / 2 ^ 24 + 224) 15) with (Z.land (o / 2 ^ 24 + 224) (2 ^ 4 - 1)).
  change (Z.land ((o / 2 ^ 24 + 224) / 2 ^ 4) 1) with (Z.land ((o / 2 ^ 24 + 224) / 2 ^ 4) (2 ^ 1 - 1)). rewrite !land_low by done.
  set (b3 := (o / 2 ^ 24 + 224) mod 2 ^ 4). replace (Z.shiftl b3 24) with (Z.shiftl (Z.shiftl b3 8) 16) by (by rewrite Z.shiftl_shiftl).
  rewrite <- Z.shiftl_lor, (lor_shiftl b2) by done.
  replace (Z.shiftl (b2 + 2 ^ 8 * b3) 16) with (Z.shiftl (Z.shiftl (b2 + 2 ^ 8 * b3) 8) 8) by (by rewrite Z.shiftl_shiftl).
  rewrite <- Z.shiftl_lor, (lor_shiftl b1), (lor_shiftl b0) by done.
  unfold b0, b1, b2, b3, u8. f_equal; Z.to_euclidean_division_equations; lia.
Qed.

Lemma waitdisk_loop_run fuel : forall s, (length (d_status (i_drv s)) <= fuel)%nat ->
  exists d, waitdisk_loop fuel s = Ok tt (set_drv d s) /\ d_regs d = d_regs (i_drv s) /\ d_cmd d = d_cmd (i_drv s) /\ d_in d = d_in (i_drv s) /\ d_disk d = d_disk (i_drv s).
Proof.
  induction fuel as [|fuel IH]; intros s Hl; cbn [waitdisk_loop]; unfold bind, inb_status, gets, modify, ret; cbn.
  - destruct (d_status (i_drv s)); [|cbn in Hl; lia]. cbn. eexists. by split.
  - destruct (d_status (i_drv s)) as [|r st] eqn:E; cbn; [eexists; by split|]. destruct (negb _); [|eexists; by split].
    set (s1 := set_drv _ s). destruct (IH s1) as (d & E1 & H1); [cbn in *; lia|]. exists d. by split.
Qed.

(** After waitdisk a read command is carried out. *)
Lemma waitdisk_run s : d_cmd (i_drv s) = None \/ d_cmd (i_drv s) = Some 32 -> exists d, waitdisk s = Ok tt (set_drv d s) /\
  d_disk d = d_disk (i_drv s) /\ d_cmd d = None /\ (d_cmd (i_drv s) = Some 32 -> d_in d = disk_at (d_disk (i_drv s)) (target (i_drv s))).
Proof.
  intros Hc. unfold waitdisk. rewrite gets_bind. destruct (waitdisk_loop_run (length (d_status (i_drv s))) s ltac:(done)) as (d & E & R1 & R2 & R3 & R4).
  rewrite (bind_run _ _ _ _ _ E). exists (complete d). split; [done|]. unfold complete, target, reg. rewrite R2, R1.
  destruct Hc as [Hc|Hc]; rewrite Hc; cbn; rewrite ?R2, ?R4, ?Hc; done.
Qed.

Lemma store_out a bs mem x : 0 <= a -> a + zlen bs <= 2 ^ 32 -> 0 <= x < 2 ^ 32 -> ~ a <= x < a + zlen bs -> store a bs mem x = mem x.
Proof.
  intros Ha Hb Hx Hn. unfold store. destruct (zget bs (u32 (x - a))) as [b|] eqn:E; [|done]. exfalso. apply zget_Some in E. pose proof (zlen_nonneg bs).
  unfold u32 in E. destruct (Z.ltb_spec x a); [rewrite <- (Z_mod_plus_full _ 1), Z.mod_small in E by lia; lia|rewrite Z.mod_small in E by lia; lia].
Qed.

Lemma store_in a bs mem x : 0 <= a -> a + zlen bs <= 2 ^ 32 -> a <= x < a + zlen bs -> store a bs mem x = default 0 (zget bs (x - a)).
Proof. intros Ha Hb Hx. unfold store. rewrite u32_small by lia. by destruct (zget_lt bs (x - a) ltac:(lia)) as [b ->]. Qed.

Lemma readsect_run s dst o : disk_ok -> at_rest s -> 0 <= o < 2 ^ 28 ->
  exists s', readsect dst o s = Ok tt s' /\ at_rest s' /\ b_mem s' = store dst (disk_at dk (0, o)) (b_mem s).
Proof.
  intros Hd [Hk Hc] Ho. destruct (waitdisk_run (b_ide s) (or_introl Hc)) as (d & E & D1 & D2 & _). unfold readsect.
  set (r := <[502 := u8 (Z.lor (Z.shiftr o 24) 224)]> (<[501 := u8 (Z.shiftr o 16)]> (<[500 := u8 (Z.shiftr o 8)]> (<[499 := u8 o]> (<[498 := u8 1]> (d_regs d)))))).
  set (d1 := mkDrive r (Some 32) (d_out d) (d_in d) (d_status d) (d_disk d)). set (s1 := Ide.set_drv d1 (b_ide s)).
  destruct (waitdisk_run s1 (or_intror eq_refl)) as (d2 & E2 & F1 & F2 & F3).
  assert (El : (waitdisk ;; outb 498 1 ;; outb 499 o ;; outb 500 (Z.shiftr o 8) ;; outb 501 (Z.shiftr o 16) ;; outb 502 (Z.lor (Z.shiftr o 24) 224) ;; outb 503 32 ;; waitdisk) (b_ide s) = Ok tt (Ide.set_drv d2 s1)).
  { rewrite (bind_run _ _ _ _ _ E). unfold bind, outb, gets, modify, set_drv. cbn. rewrite D2. exact E2. }
  rewrite (bind_run _ _ s tt (set_ide (Ide.set_drv d2 s1) s)) by (unfold io, zoom; by rewrite El).
  assert (Hi : d_in d2 = disk_at dk (0, o)).
  { rewrite F3 by done. unfold s1, d1. cbn. rewrite D1, Hk. f_equal. apply target_lba; [done|..]; unfold reg, r; cbn; by simpl_map. }
  unfold bind at 1, io, zoom, insl, gets. cbn. eexists. split; [reflexivity|]. cbn. split; [split; cbn; [by rewrite F1; cbn; rewrite D1|done]|].
  rewrite Hi. f_equal. apply take_ge. rewrite (Hd o) by lia. done.
Qed.

(** ** Segments *)

(** [n] sectors from sector [o] on *)
Lemma readseg_loop_run n : forall s a o epa, disk_ok -> at_rest s -> 0 <= o -> o + Z.of_nat n <= 2 ^ 28 -> 0 <= a -> a + 512 * Z.of_nat n < 2 ^ 32 ->
  epa <= a + 512 * Z.of_nat n -> (0 < n)%nat \/ epa <= a -> a + 512 * (Z.of_nat n - 1) < epa \/ n = 0%nat ->
  exists s', readseg_loop n a o epa s = Ok tt s' /\ at_rest s' /\
    forall x, 0 <= x < 2 ^ 32 -> b_mem s' x = if decide (a <= x < a + 512 * Z.of_nat n) then img (512 * (o - 1) + (x - a)) else b_mem s x.
Proof.
  induction n as [|n IH]; intros s a o epa Hd Hs Ho Hon Ha Han He Hn0 Hn1; cbn [readseg_loop].
  - rewrite (proj2 (Z.ltb_ge _ _)) by lia. exists s. split; [done|]. split; [done|]. intros x Hx. by rewrite decide_False by lia.
  - rewrite (proj2 (Z.ltb_lt _ _)) by lia. destruct (readsect_run s a o Hd Hs ltac:(lia)) as (s1 & E & Hs1 & Hm). rewrite (bind_run _ _ _ _ _ E).
    unfold SECTSIZE. rewrite (u32_small (a + 512)), (u32_small (o + 1)) by lia.
    destruct (IH s1 (a + 512) (o + 1) epa) as (s2 & E2 & Hs2 & Hm2); [done|done|lia..|]. exists s2. split; [done|]. split; [done|]. intros x Hx. rewrite (Hm2 x Hx).
    assert (Hl : zlen (disk_at dk (0, o)) = 512) by (unfold zlen; by rewrite (Hd o Ho)).
    destruct (decide (a + 512 <= x < a + 512 + 512 * Z.of_nat n)); [rewrite decide_True by lia; f_equal; lia|]. rewrite Hm. destruct (decide _) as [Hi|Hi].
    + rewrite store_in by lia. unfold img. replace ((512 * (o - 1) + (x - a)) / 512) with (o - 1) by (Z.to_euclidean_division_equations; lia).
      replace ((512 * (o - 1) + (x - a)) mod 512) with (x - a) by (Z.to_euclidean_division_equations; lia). by replace (o - 1 + 1) with o by lia.
    + apply store_out; lia.
Qed.

(** A segment, the first address a load of it writes, the one after the last,
    and the end of the segment itself *)
Record seg := mkSeg { g_off : Z; g_pa : Z; g_filesz : Z; g_memsz : Z }.
Definition seg_at (k : Z) : seg := mkSeg (word 4 (k + 4)) (word 4 (k + 12)) (word 4 (k + 16)) (word 4 (k + 20)).
Definition seg_lo (g : seg) : Z := g_pa g - g_off g mod 512.
Definition read_end (g : seg) : Z := seg_lo g + 512 * ((g_off g mod 512 + g_filesz g + 511) / 512).
Definition seg_top (g : seg) : Z := g_pa g + Z.max (g_filesz g) (g_memsz g).
Definition seg_hi (g : seg) : Z := Z.max (read_end g) (seg_top g).

Lemma word_range n k : 0 <= word n k < 2 ^ (8 * Z.of_nat n).
Proof.
  unfold word. set (l := _ <$> _). assert (Hl : length l = n) by (unfold l; rewrite length_fmap, length_seqZ; lia).
  assert (Hb : bytes l) by (apply Forall_fmap, Forall_true; intros; apply u8_range). pose proof (le_val_range l Hb) as H. unfold zlen in H. by rewrite Hl in H.
Qed.

Lemma readseg_run s pa count off : disk_ok -> at_rest s -> 0 <= off -> 0 <= count -> off + count < 2 ^ 32 -> 0 <= pa - off mod 512 -> pa + count + 512 < 2 ^ 32 ->
  exists s', readseg pa count off s = Ok tt s' /\ at_rest s' /\
    forall x, 0 <= x < 2 ^ 32 -> b_mem s' x = if decide (pa - off mod 512 <= x < pa - off mod 512 + 512 * ((off mod 512 + count + 511) / 512)) then img (off + (x - pa)) else b_mem s x.
Proof.
  intros Hd Hs Ho Hc Hoc Hlo Hhi. pose proof (Z.mod_pos_bound off 512 ltac:(done)) as Hm. unfold readseg, SECTSIZE. rewrite (u32_small (pa + count)), (u32_small (pa - off mod 512)) by lia.
  set (lo := pa - off mod 512) in *. replace (pa + count - lo + 512 - 1) with (off mod 512 + count + 511) by (unfold lo; lia).
  set (n := (off mod 512 + count + 511) / 512). assert (Hn : 0 <= n /\ 512 * n <= off mod 512 + count + 511 /\ off mod 512 + count <= 512 * n) by (unfold n; Z.to_euclidean_division_equations; lia).
  assert (Hq : off = 512 * (off / 512) + off mod 512 /\ 0 <= off / 512) by (Z.to_euclidean_division_equations; lia).
  destruct (readseg_loop_run (Z.to_nat n) s lo (off / 512 + 1) (pa + count) Hd Hs) as (s' & E & Hs' & Hx); [unfold lo in *; lia..|].
  exists s'. split; [done|]. split; [done|]. intros x Hr. rewrite (Hx x Hr). rewrite Z2Nat.id by lia. destruct (decide _); [|done]. f_equal. unfold lo. lia.
Qed.

(** The first page of the image is in memory at [elf]. *)
Definition header_in (s : boot) : Prop := forall i, 0 <= i < 4096 -> b_mem s (elf + i) = img i.

Lemma rd_word s n k : header_in s -> 0 <= k -> k + Z.of_nat n <= 4096 -> rd n (elf + k) s = Ok (word n k) s.
Proof.
  intros Hh Hk Hn. unfold rd, gets, bytes_at, word. do 2 f_equal. apply list_fmap_ext. intros i x Hx. apply lookup_seqZ in Hx as [-> Hi].
  rewrite u32_small by (unfold elf; lia). rewrite <- Z.add_assoc, Hh by lia. done.
Qed.

(** What a load must not run into *)
Record seg_ok (g : seg) : Prop := { k_lo : elf + 4096 <= seg_lo g; k_hi : g_pa g + g_filesz g + 512 < 2 ^ 32; k_mem : g_pa g + g_memsz g <= 2 ^ 32; k_off : g_off g + g_filesz g < 2 ^ 32 }.

(** The segment is in memory. *)
Definition loaded (mem : Z -> Z) (g : seg) : Prop :=
  (forall i, 0 <= i < g_filesz g -> mem (g_pa g + i) = img (g_off g + i)) /\ (forall i, g_filesz g <= i < g_memsz g -> mem (g_pa g + i) = 0).

Lemma loaded_frame mem mem' g : 0 <= g_filesz g -> loaded mem g -> (forall x, g_pa g <= x < seg_top g -> mem' x = mem x) -> loaded mem' g.
Proof. unfold seg_top. intros H0 [H1 H2] H. split; intros i Hi; rewrite H by lia; [by apply H1|by apply H2]. Qed.

Lemma rd_field s n k j : header_in s -> 0 <= k + j -> k + j + Z.of_nat n <= 4096 -> rd n (elf + k + j) s = Ok (word n (k + j)) s.
Proof. intros. rewrite <- Z.add_assoc. by apply rd_word. Qed.

Lemma load_seg_run s k : disk_ok -> at_rest s -> header_in s -> 0 <= k -> k + 32 <= 4096 -> seg_ok (seg_at k) ->
  exists s', load_seg (elf + k) s = Ok tt s' /\ at_rest s' /\ loaded (b_mem s') (seg_at k) /\
    forall x, 0 <= x < 2 ^ 32 -> ~ seg_lo (seg_at k) <= x < seg_hi (seg_at k) -> b_mem s' x = b_mem s x.
Proof.
  intros Hd Hs Hh Hk Hk2 [Hlo Hhi Hmem Hoff]. unfold seg_lo, seg_hi, seg_top, read_end, seg_lo, loaded in *. cbn [g_off g_pa g_filesz g_memsz seg_at] in *. unfold elf in Hlo.
  set (off := word 4 (k + 4)) in *. set (pa := word 4 (k + 12)) in *. set (fs := word 4 (k + 16)) in *. set (ms := word 4 (k + 20)) in *.
  pose proof (word_range 4 (k + 4)) as H4. pose proof (word_range 4 (k + 16)) as H16. pose proof (word_range 4 (k + 20)) as H20. fold off in H4. fold fs in H16. fold ms in H20.
  pose proof (Z.mod_pos_bound off 512 ltac:(done)) as Hm.
  unfold load_seg. rewrite (bind_run _ _ _ _ _ (rd_field s 4 k 12 Hh ltac:(lia) ltac:(lia))), (bind_run _ _ _ _ _ (rd_field s 4 k 16 Hh ltac:(lia) ltac:(lia))).
  rewrite (bind_run _ _ _ _ _ (rd_field s 4 k 4 Hh ltac:(lia) ltac:(lia))). fold off pa fs.
  destruct (readseg_run s pa fs off Hd Hs) as (s1 & E & Hs1 & Hx); [lia..|]. rewrite (bind_run _ _ _ _ _ E).
  assert (Hh1 : header_in s1) by (intros i Hi; rewrite Hx, decide_False by (unfold elf; lia); by apply Hh).
  rewrite (bind_run _ _ _ _ _ (rd_field s1 4 k 20 Hh1 ltac:(lia) ltac:(lia))), (bind_run _ _ _ _ _ (rd_field s1 4 k 16 Hh1 ltac:(lia) ltac:(lia))). fold ms fs.
  set (e := (off mod 512 + fs + 511) / 512) in *. assert (He : off mod 512 + fs <= 512 * e /\ 512 * e <= off mod 512 + fs + 511) by (unfold e; Z.to_euclidean_division_equations; lia).
  assert (Hfile : forall i, 0 <= i < fs -> b_mem s1 (pa + i) = img (off + i)) by (intros i Hi; rewrite Hx, decide_True by lia; f_equal; lia).
  rewrite Z.gtb_ltb. destruct (Z.ltb_spec fs ms) as [Hf|Hf]; cbn [whenM].
  - rewrite (u32_small (pa + fs)) by lia. eexists. split; [reflexivity|]. split; [exact Hs1|]. cbn.
    assert (Hl : zlen (replicate (Z.to_nat (ms - fs)) (u8 0)) = ms - fs) by (unfold zlen; rewrite length_replicate; lia).
    split; [split|].
    + intros i Hi. rewrite store_out; [by apply Hfile|lia..].
    + intros i Hi. rewrite store_in by lia. destruct (zget _ _) as [b|] eqn:Eb; [|done]. cbn. unfold zget in Eb.
      destruct (_ <? 0); [done|]. by apply lookup_replicate in Eb as [-> _].
    + intros x Hr Hn. rewrite store_out by lia. by rewrite Hx, decide_False by lia.
  - exists s1. split; [done|]. split; [done|]. split; [split; [done|lia]|]. intros x Hr Hn. by rewrite Hx, decide_False by lia.
Qed.

(** The segments of the [n] program headers from [k] on *)
Fixpoint segs (n : nat) (k : Z) : list seg := match n with O => [] | S n' => seg_at k :: segs n' (k + 32) end.

(** A segment lies below everything the load of a later one writes. *)
Definition before (g h : seg) : Prop := seg_top g <= seg_lo h.

Lemma seg_sizes n : forall k g, g ∈ segs n k -> 0 <= g_filesz g.
Proof.
  induction n as [|n IH]; intros k g Hg; [set_solver|]. apply elem_of_cons in Hg as [->|Hg]; [|by eapply IH]. apply word_range.
Qed.

Lemma load_segs_run n : forall s k, disk_ok -> at_rest s -> header_in s -> 0 <= k -> k + 32 * Z.of_nat n <= 4096 -> Forall seg_ok (segs n k) -> StronglySorted before (segs n k) ->
  exists s', load_segs n (elf + k) (elf + k + 32 * Z.of_nat n) s = Ok tt s' /\ at_rest s' /\ Forall (loaded (b_mem s')) (segs n k) /\
    forall x, 0 <= x < 2 ^ 32 -> Forall (fun g => x < seg_lo g) (segs n k) -> b_mem s' x = b_mem s x.
Proof.
  induction n as [|n IH]; intros s k Hd Hs Hh Hk Hn Hok Hso; cbn [load_segs segs] in *.
  - rewrite (proj2 (Z.ltb_ge _ _)) by lia. by exists s.
  - rewrite (proj2 (Z.ltb_lt _ _)) by lia. apply Forall_cons in Hok as [Hg Hok]. apply StronglySorted_inv in Hso as [Hso Hb].
    destruct (load_seg_run s k Hd Hs Hh Hk ltac:(lia) Hg) as (s1 & E & Hs1 & Hl & Hx). rewrite (bind_run _ _ _ _ _ E).
    assert (Hh1 : header_in s1).
    { intros i Hi. rewrite Hx by (unfold elf; try lia; pose proof (k_lo _ Hg); unfold elf in *; lia). by apply Hh. }
    unfold sizeof_proghdr. rewrite (u32_small (elf + k + 32)) by (unfold elf; lia).
    destruct (IH s1 (k + 32)) as (s2 & E2 & Hs2 & Hl2 & Hx2); [done|done|done|lia|lia|done|done|]. exists s2.
    replace (elf + (k + 32)) with (elf + k + 32) in E2 by lia. replace (elf + k + 32 * Z.of_nat (S n)) with (elf + k + 32 + 32 * Z.of_nat n) by lia.
    split; [done|]. split; [done|]. split.
    + apply Forall_cons. split; [|done]. pose proof (word_range 4 (k + 16)) as Hf. destruct Hg as [K1 K2 K3 K4]. apply (loaded_frame (b_mem s1)); [cbn; lia|done|]. intros x Hr.
      pose proof (Z.mod_pos_bound (g_off (seg_at k)) 512 ltac:(done)) as Hm. apply Hx2; [unfold seg_lo, seg_top, elf in *; lia|]. eapply Forall_impl; [exact Hb|]. intros h Hh'. unfold before in Hh'. cbn beta in Hh'. lia.
    + intros x Hr Hlow. apply Forall_cons in Hlow as [Hl1 Hlow]. rewrite Hx2 by done. apply Hx; [done|]. lia.
Qed.

(** The kernel image can be loaded: an ELF header with all program headers in
    the first page, and segments in increasing order above that page. *)
Record loadable (phoff phnum : Z) : Prop := {
  l_magic : word 4 0 = ELF_MAGIC;
  l_phoff : word 4 28 = phoff;
  l_phnum : word 2 44 = phnum;
  l_page : phoff + 32 * phnum <= 4096;
  l_segs : Forall seg_ok (segs (Z.to_nat phnum) phoff);
  l_order : StronglySorted before (segs (Z.to_nat phnum) phoff)
}.

(** The first page *)
Lemma header_run s : disk_ok -> at_rest s -> exists s', readseg elf 4096 0 s = Ok tt s' /\ at_rest s' /\ header_in s' /\ (forall x, 0 <= x < elf -> b_mem s' x = b_mem s x).
Proof.
  intros Hd Hs. destruct (readseg_run s elf 4096 0 Hd Hs) as (s' & E & Hs' & Hx); [unfold elf; lia || done..|]. exists s'. split; [done|]. split; [done|].
  change (elf - 0 mod 512) with elf in Hx. change (512 * ((0 mod 512 + 4096 + 511) / 512)) with 4096 in Hx. split.
  - intros i Hi. rewrite Hx, decide_True by (unfold elf; lia). f_equal. lia.
  - intros x Hr. rewrite Hx, decide_False by (unfold elf in *; lia). done.
Qed.

(** C18: bootmain loads a kernel whose segments come in increasing order: it
    jumps to the entry point of the image, every segment is in memory at its
    address with the bytes of the file and zeros after them, although whole
    sectors are written, and nothing below the scratch page, where the loader
    itself is, has changed. *)
Theorem bootmain_loads s phoff phnum : disk_ok -> at_rest s -> loadable phoff phnum ->
  exists s', bootmain s = Ok (Some (word 4 24)) s' /\ Forall (loaded (b_mem s')) (segs (Z.to_nat phnum) phoff) /\
    (forall x, 0 <= x < elf -> b_mem s' x = b_mem s x) /\ d_disk (i_drv (b_ide s')) = dk.
Proof.
  intros Hd Hs [L1 L2 L3 L4 L5 L6]. pose proof (word_range 4 28) as Ho. pose proof (word_range 2 44) as Hn. rewrite L2 in Ho. rewrite L3 in Hn.
  unfold bootmain. destruct (header_run s Hd Hs) as (s1 & E & Hs1 & Hh & Hlow). rewrite (bind_run _ _ _ _ _ E).
  replace elf with (elf + 0) at 1 by lia. rewrite (bind_run _ _ _ _ _ (rd_word s1 4 0 Hh ltac:(lia) ltac:(lia))), L1. change (ELF_MAGIC =? ELF_MAGIC) with true. cbn [negb].
  rewrite (bind_run _ _ _ _ _ (rd_word s1 4 28 Hh ltac:(lia) ltac:(lia))), (bind_run _ _ _ _ _ (rd_word s1 2 44 Hh ltac:(lia) ltac:(lia))), L2, L3.
  cbn zeta. unfold sizeof_proghdr. rewrite (u32_small (elf + phoff)), (u32_small (elf + phoff + 32 * phnum)) by (unfold elf; lia).
  destruct (load_segs_run (Z.to_nat phnum) s1 phoff Hd Hs1 Hh ltac:(lia) ltac:(lia) L5 L6) as (s2 & E2 & [Hs2 _] & Hl & Hx). rewrite Z2Nat.id in E2 by lia.
  rewrite (bind_run _ _ _ _ _ E2). assert (Hb : forall x, 0 <= x < elf + 4096 -> b_mem s2 x = b_mem s1 x).
  { intros x Hr. apply Hx; [unfold elf in *; lia|]. eapply Forall_impl; [exact L5|]. intros g [K _ _ _]. cbn beta. lia. }
  assert (Hh2 : header_in s2) by (intros i Hi; rewrite Hb by (unfold elf; lia); by apply Hh).
  rewrite (bind_run _ _ _ _ _ (rd_word s2 4 24 Hh2 ltac:(lia) ltac:(lia))). exists s2. split; [done|]. split; [done|]. split; [|done].
  intros x Hr. rewrite Hb by lia. by apply Hlow.
Qed.

(** What is not an ELF file is not run. *)
Lemma bootmain_not_elf s : disk_ok -> at_rest s -> word 4 0 <> ELF_MAGIC -> exists s', bootmain s = Ok None s'.
Proof.
  intros Hd Hs Hm. unfold bootmain. destruct (header_run s Hd Hs) as (s1 & E & Hs1 & Hh & _). rewrite (bind_run _ _ _ _ _ E).
  replace elf with (elf + 0) at 1 by lia. rewrite (bind_run _ _ _ _ _ (rd_word s1 4 0 Hh ltac:(lia) ltac:(lia))), (proj2 (Z.eqb_neq _ _) Hm). by exists s1.
Qed.

End disk.

(** ** A kernel with two segments *)

(** Program headers at 52: 700 bytes of file and 900 of memory at 1 MB, with the
    file offset 4108, and 20 bytes at 1 MB + 4096, whose load starts 8 bytes
    below it. *)
Definition w_header : block :=
  le_bytes 4 ELF_MAGIC ++ replicate 20 0 ++ le_bytes 4 1048588 ++ le_bytes 4 52 ++ replicate 12 0 ++ le_bytes 2 2 ++ replicate 6 0 ++
  concat (le_bytes 4 <$> [1; 4108; 0; 1048588; 700; 900; 0; 0]) ++ concat (le_bytes 4 <$> [1; 5128; 0; 1052680; 20; 20; 0; 0]) ++ replicate 396 0.
Definition w_disk : gmap key block :=
  {[(0, 1) := w_header; (0, 9) := replicate 512 7; (0, 10) := replicate 512 8; (0, 11) := replicate 512 9]}.
Definition w_boot : boot := mkBoot (fun _ => 165) (mkIde [] None false (mkDrive ∅ None [] [] [128; 192; 64] w_disk) ∅).

Lemma w_disk_ok : disk_ok w_disk.
Proof.
  intros o _. unfold disk_at, w_disk. destruct (decide (o = 1)) as [->|H1]; [by vm_compute|]. destruct (decide (o = 9)) as [->|H2]; [by vm_compute|].
  destruct (decide (o = 10)) as [->|H3]; [by vm_compute|]. destruct (decide (o = 11)) as [->|H4]; [by vm_compute|].
  rewrite !lookup_insert_ne by congruence. rewrite lookup_singleton_ne by congruence. by vm_compute.
Qed.

Lemma w_loadable : loadable w_disk 52 2.
Proof.
  assert (Es : segs w_disk (Z.to_nat 2) 52 = [mkSeg 4108 1048588 700 900; mkSeg 5128 1052680 20 20]) by (by vm_compute).
  split; [by vm_compute..| |]; rewrite Es.
  - repeat constructor; by vm_compute.
  - repeat constructor; by vm_compute.
Qed.

Lemma bootmain_loads_witness : exists s', bootmain w_boot = Ok (Some 1048588) s' /\
  b_mem s' (1048588 + 699) = img w_disk (4108 + 699) /\ b_mem s' (1048588 + 700) = 0 /\ b_mem s' (1052680 + 19) = img w_disk (5128 + 19) /\ b_mem s' 31744 = 165.
Proof.
  destruct (bootmain_loads w_disk w_boot 52 2 w_disk_ok (conj eq_refl eq_refl) w_loadable) as (s' & E & Hl & Hlow & _).
  assert (Es : segs w_disk (Z.to_nat 2) 52 = [mkSeg 4108 1048588 700 900; mkSeg 5128 1052680 20 20]) by (by vm_compute). rewrite Es in Hl.
  assert (Ee : word w_disk 4 24 = 1048588) by (by vm_compute). rewrite Ee in E.
  apply Forall_cons in Hl as [[A1 A2] Hl]. apply Forall_cons in Hl as [[B1 _] _]. cbn [g_off g_pa g_filesz g_memsz] in *.
  exists s'. split; [exact E|]. split; [apply A1; lia|]. split; [apply A2; lia|]. split; [apply B1; lia|]. apply Hlow. unfold elf. lia.
Defined.

End BootProps.
