(* ===== verification/Apic.v ===== *)
(** * Interrupt controllers: lapic.c, ioapic.c and picirq.c

    The registers of the local APIC of the boot processor are those last
    written; a write to the low interrupt command register sends an interrupt to
    another processor, which [ap_step] carries out the way the multiprocessor
    specification says.  The I/O APIC is its registers behind the index
    register, the CMOS clock the readings it will give. *)
From S2P Require Import Prelude Words Params Kalloc Vm Trap Boot.

Module Apic.

(** ** traps.h and lapic.c: registers and bits *)

Definition IRQ_ERROR : Z := 19.

Definition ID : Z := 8.
Definition VER : Z := 12.
Definition TPR : Z := 32.
Definition EOI : Z := 44.
Definition SVR : Z := 60.
Definition ENABLE : Z := 256.
Definition ESR : Z := 160.
Definition ICRLO : Z := 192.
Definition INIT : Z := 1280.
Definition STARTUP : Z := 1536.
Definition DELIVS : Z := 4096.
Definition ASSERT : Z := 16384.
Definition LEVEL : Z := 32768.
Definition BCAST : Z := 524288.
Definition ICRHI : Z := 196.
Definition TIMER : Z := 200.
Definition X1 : Z := 11.
Definition PERIODIC : Z := 131072.
Definition PCINT : Z := 208.
Definition LINT0 : Z := 212.
Definition LINT1 : Z := 216.
Definition ERROR : Z := 220.
Definition MASKED : Z := 65536.
Definition TICR : Z := 224.
Definition TDCR : Z := 248.

Definition CMOS_PORT : Z := 112.

(** ** State

    lapic, its registers, how many reads of the command register still show the
    last command pending, and the commands sent (high and low word, oldest
    first); the index register and registers of the I/O APIC; the bytes written
    to I/O ports; the bytes of memory by kernel address *)
Record apic := mkApic { a_lapic : Z; a_regs : gmap Z Z; a_busy : nat; a_ipis : list (Z * Z); a_iosel : Z; a_io : gmap Z Z; a_ports : list (Z * Z); a_mem : Z -> Z }.

Definition set_regs (r : gmap Z Z) (s : apic) : apic := mkApic (a_lapic s) r (a_busy s) (a_ipis s) (a_iosel s) (a_io s) (a_ports s) (a_mem s).
Definition set_busy (n : nat) (s : apic) : apic := mkApic (a_lapic s) (a_regs s) n (a_ipis s) (a_iosel s) (a_io s) (a_ports s) (a_mem s).
Definition set_ipis (l : list (Z * Z)) (s : apic) : apic := mkApic (a_lapic s) (a_regs s) (a_busy s) l (a_iosel s) (a_io s) (a_ports s) (a_mem s).
Definition set_ioapic (sel : Z) (r : gmap Z Z) (s : apic) : apic := mkApic (a_lapic s) (a_regs s) (a_busy s) (a_ipis s) sel r (a_ports s) (a_mem s).
Definition set_ports (l : list (Z * Z)) (s : apic) : apic := mkApic (a_lapic s) (a_regs s) (a_busy s) (a_ipis s) (a_iosel s) (a_io s) l (a_mem s).
Definition set_amem (m : Z -> Z) (s : apic) : apic := mkApic (a_lapic s) (a_regs s) (a_busy s) (a_ipis s) (a_iosel s) (a_io s) (a_ports s) m.

Definition outb (port v : Z) : M apic unit := modify (fun s => set_ports (a_ports s ++ [(port, u8 v)]) s).

(** ** The local APIC *)

Definition reg (s : apic) (i : Z) : Z := default 0 (a_regs s !! i).

(** Reading a register; the command register shows a pending command. *)
Definition lapicr (i : Z) : M apic Z :=
  s <- gets (fun s => s) ;;
  if (i =? ICRLO) && (0 <? a_busy s)%nat then modify (set_busy (a_busy s - 1)) ;; ret (Z.lor (reg s i) DELIVS)
  else ret (reg s i).

Definition lapic_write (i v : Z) (s : apic) : apic :=
  let s := set_regs (<[i := u32 v]> (a_regs s)) s in
  if i =? ICRLO then set_ipis (a_ipis s ++ [(reg s ICRHI, u32 v)]) s else s.

Definition lapicw (index value : Z) : M apic unit := modify (lapic_write index value) ;; lapicr ID ;; ret tt.

(** The loop of lapicinit that waits for its command *)
Fixpoint delivs_loop (fuel : nat) : M apic unit :=
  v <- lapicr ICRLO ;;
  if negb (Z.land v DELIVS =? 0) then match fuel with O => undef | S fuel' => delivs_loop fuel' end else ret tt.

Definition lapicinit : M apic unit :=
  p <- gets a_lapic ;;
  if p =? 0 then ret tt
  else
    lapicw SVR (Z.lor ENABLE (Trap.T_IRQ0 + Trap.IRQ_SPURIOUS)) ;;
    lapicw TDCR X1 ;;
    lapicw TIMER (Z.lor PERIODIC (Trap.T_IRQ0 + Trap.IRQ_TIMER)) ;;
    lapicw TICR 10000000 ;;
    lapicw LINT0 MASKED ;;
    lapicw LINT1 MASKED ;;
    v <- lapicr VER ;;
    whenM (Z.land (Z.shiftr v 16) 255 >=? 4) (lapicw PCINT MASKED) ;;
    lapicw ERROR (Trap.T_IRQ0 + IRQ_ERROR) ;;
    lapicw ESR 0 ;;
    lapicw ESR 0 ;;
    lapicw EOI 0 ;;
    lapicw ICRHI 0 ;;
    lapicw ICRLO (Z.lor (Z.lor BCAST INIT) LEVEL) ;;
    n <- gets a_busy ;;
    delivs_loop n ;;
    lapicw TPR 0.

Definition lapicid : M apic Z :=
  p <- gets a_lapic ;;
  if p =? 0 then ret 0 else v <- lapicr ID ;; ret (Z.shiftr v 24).

Definition lapiceoi : M apic unit := p <- gets a_lapic ;; whenM (negb (p =? 0)) (lapicw EOI 0).

Definition microdelay {S} (us : Z) : M S unit := ret tt.

(** One round of the loop that sends STARTUP *)
Definition send_startup (apicid addr : Z) : M apic unit :=
  lapicw ICRHI (Z.shiftl apicid 24) ;;
  lapicw ICRLO (Z.lor STARTUP (Z.shiftr addr 12)) ;;
  microdelay 200.

Definition lapicstartap (apicid addr : Z) : M apic unit :=
  outb CMOS_PORT 15 ;;
  outb (CMOS_PORT + 1) 10 ;;
  wrv <- Vm.P2V (Z.lor (Z.shiftl 64 4) 103) ;;
  modify (fun s => set_amem (Boot.store wrv (le_bytes 2 0) (a_mem s)) s) ;;
  modify (fun s => set_amem (Boot.store (wrv + 2) (le_bytes 2 (Z.shiftr addr 4)) (a_mem s)) s) ;;
  lapicw ICRHI (Z.shiftl apicid 24) ;;
  lapicw ICRLO (Z.lor (Z.lor INIT LEVEL) ASSERT) ;;
  microdelay 200 ;;
  lapicw ICRLO (Z.lor INIT LEVEL) ;;
  microdelay 100 ;;
  send_startup apicid addr ;;
  send_startup apicid addr.

(** ** The other processors *)

(** A processor that was never reset or sits in its INIT state, or runs from a
    page *)
Inductive ap := Halted | WaitSipi | Running (vector : Z).

(** An interrupt command as the processor [id] sees it: INIT with the level
    asserted resets it, STARTUP starts one that was reset, and no other. *)
Definition ap_step (id : Z) (st : ap) (ipi : Z * Z) : ap :=
  let (hi, lo) := ipi in
  if Z.shiftr hi 24 =? id then
    if Z.land lo 1792 =? INIT then (if negb (Z.land lo ASSERT =? 0) then WaitSipi else st)
    else if Z.land lo 1792 =? STARTUP then match st with WaitSipi => Running (Z.land lo 255) | _ => st end
    else st
  else st.

Definition ap_state (id : Z) (ipis : list (Z * Z)) : ap := foldl (ap_step id) Halted ipis.

(** ** ioapic.c *)

Definition REG_ID : Z := 0.
Definition REG_VER : Z := 1.
Definition REG_TABLE : Z := 16.
Definition INT_DISABLED : Z := 65536.

Definition ioapicread (r : Z) : M apic Z :=
  modify (fun s => set_ioapic (u32 r) (a_io s) s) ;; gets (fun s => default 0 (a_io s !! a_iosel s)).

Definition ioapicwrite (r data : Z) : M apic unit :=
  modify (fun s => set_ioapic (u32 r) (a_io s) s) ;;
  modify (fun s => set_ioapic (a_iosel s) (<[a_iosel s := u32 data]> (a_io s)) s).

(** The loop of ioapicinit from [i] on, [n] rounds *)
Fixpoint ioapicinit_loop (n : nat) (i : Z) : M apic unit :=
  match n with
  | O => ret tt
  | S n' =>
      ioapicwrite (REG_TABLE + 2 * i) (Z.lor INT_DISABLED (Trap.T_IRQ0 + i)) ;;
      ioapicwrite (REG_TABLE + 2 * i + 1) 0 ;;
      ioapicinit_loop n' (i + 1)
  end.

(** The result is whether the message about the id is printed. *)
Definition ioapicinit (ioapicid : Z) : M apic bool :=
  v <- ioapicread REG_VER ;;
  let maxintr := Z.land (Z.shiftr v 16) 255 in
  d <- ioapicread REG_ID ;;
  let id := Z.shiftr d 24 in
  ioapicinit_loop (Z.to_nat (maxintr + 1)) 0 ;;
  ret (negb (id =? ioapicid)).

Definition ioapicenable (irq cpunum : Z) : M apic unit :=
  ioapicwrite (REG_TABLE + 2 * irq) (Trap.T_IRQ0 + irq) ;;
  ioapicwrite (REG_TABLE + 2 * irq + 1) (Z.shiftl cpunum 24).

(** ** picirq.c *)

Definition IO_PIC1 : Z := 32.
Definition IO_PIC2 : Z := 160.

Definition picinit : M apic unit := outb (IO_PIC1 + 1) 255 ;; outb (IO_PIC2 + 1) 255.

End Apic.
