(* ===== verification/Startup.v ===== *)
(** * Starting the other processors: main.c

    startothers puts the entry code for the other processors at 0x7000 and
    starts them one at a time; each takes its stack, page directory and first
    function from the three words before the code, the way entryother.S does.
    The code itself and the addresses of mpenter and entrypgdir are those of the
    linked kernel. *)
From S2P Require Import Prelude Words Params Kalloc Vm Spinlock Boot Apic.

Module Startup.
Import Spinlock Apic.

Definition KSTACKSIZE : Z := 4096.

(** The allocator, [cpus] up to [ncpu], their [started] flags, the interrupt
    controller with memory, and the processors that were started: their index,
    stack, page directory and first function *)
Record mstate := mkMstate { t_kmem : Kalloc.kmem; t_cpus : list cpu; t_started : gmap nat Z; t_apic : apic; t_aps : list (nat * (Z * Z * Z)) }.

Definition set_tkmem (k : Kalloc.kmem) (s : mstate) : mstate := mkMstate k (t_cpus s) (t_started s) (t_apic s) (t_aps s).
Definition set_tapic (a : apic) (s : mstate) : mstate := mkMstate (t_kmem s) (t_cpus s) (t_started s) a (t_aps s).

Definition alloc : M mstate Z := zoom t_kmem set_tkmem Kalloc.kalloc.
Definition onapic {A} (m : M apic A) : M mstate A := zoom t_apic set_tapic m.

(** Words of memory at a kernel address *)
Definition wr_word (a w : Z) : M mstate unit :=
  onapic (modify (fun s => set_amem (Boot.store a (le_bytes 4 (u32 w)) (a_mem s)) s)).
Definition rd_word (a : Z) (s : mstate) : Z := le_val (Boot.bytes_at 4 a (a_mem (t_apic s))).

Section kernel.
(** The image of entryother.S and the addresses of mpenter and entrypgdir *)
Context (entryother : list Z) (mpenter entrypgdir : Z).

(** A processor that was sent the interrupts goes through entryother.S to
    mpmain, which sets [started].  It finds the page of its vector at the same
    physical address, mapped at KERNBASE. *)
Definition ap_boot (i : nat) (s : mstate) : mstate :=
  match t_cpus s !! i with
  | Some c =>
      match ap_state (c_apicid c) (a_ipis (t_apic s)) with
      | Running v =>
          let start := KERNBASE + v * 4096 in
          mkMstate (t_kmem s) (t_cpus s) (<[i := 1]> (t_started s)) (t_apic s)
            (t_aps s ++ [(i, (rd_word (start - 4) s, rd_word (start - 12) s, rd_word (start - 8) s))])
      | _ => s
      end
  | None => s
  end.

(** The loop that waits for [started]: other processors go on meanwhile. *)
Definition wait_started (i : nat) : M mstate unit :=
  modify (ap_boot i) ;;
  st <- gets t_started ;;
  if default 0 (st !! i) =? 0 then sleep_forever else ret tt.

(** mycpu, with interrupts off *)
Definition mycpu : M mstate nat :=
  id <- onapic lapicid ;;
  cs <- gets t_cpus ;;
  match find_apic cs id with Some i => ret i | None => panic "unknown apicid" end.

(** The body of the loop of startothers *)
Definition startother (i : nat) (code : Z) : M mstate unit :=
  me <- mycpu ;;
  if (i =? me)%nat then ret tt
  else
    stack <- alloc ;;
    wr_word (code - 4) (stack + KSTACKSIZE) ;;
    wr_word (code - 8) mpenter ;;
    pg <- Kalloc.V2P entrypgdir ;;
    wr_word (code - 12) pg ;;
    cs <- gets t_cpus ;;
    c <- from_option_undef (cs !! i) ;;
    pa <- Kalloc.V2P code ;;
    onapic (lapicstartap (c_apicid c) pa) ;;
    wait_started i.

Fixpoint startothers_loop (n i : nat) (code : Z) : M mstate unit :=
  match n with O => ret tt | S n' => startother i code ;; startothers_loop n' (S i) code end.

Definition startothers : M mstate unit :=
  code <- Vm.P2V 28672 ;;
  onapic (modify (fun s => set_amem (Boot.store code entryother (a_mem s)) s)) ;;
  cs <- gets t_cpus ;;
  startothers_loop (length cs) 0 code.

End kernel.
End Startup.
