(* ===== verification/StartupProps.v ===== *)
(** * startothers starts every other processor once, on a stack of its own *)
From S2P Require Import Prelude Words Params Kalloc Vm Spinlock Boot BootProps Apic Startup.

Module StartupProps.
Import Spinlock Apic Startup BootProps.

(** ** Words of memory *)

Definition mem_word (mem : Z -> Z) (a : Z) : Z := le_val (Boot.bytes_at 4 a mem).

Lemma mem_word_ext mem mem' a : 0 <= a -> a + 4 <= 2 ^ 32 -> (forall x, a <= x < a + 4 -> mem' x = mem x) -> mem_word mem' a = mem_word mem a.
Proof.
  intros Ha Hb H. unfold mem_word, Boot.bytes_at. f_equal. apply list_fmap_ext. intros i x Hx. apply lookup_seqZ in Hx as [-> Hi].
  rewrite u32_small by lia. f_equal. apply H. lia.
Qed.

Lemma mem_word_store mem a w : 0 <= a -> a + 4 <= 2 ^ 32 -> 0 <= w < 2 ^ 32 -> mem_word (Boot.store a (le_bytes 4 (u32 w)) mem) a = w.
Proof.
  intros Ha Hb Hw. unfold mem_word. rewrite (u32_small w) by done. transitivity (le_val (le_bytes 4 w)); [|rewrite le_val_bytes; by apply Z.mod_small].
  f_equal. apply list_eq. intros i. unfold Boot.bytes_at. rewrite list_lookup_fmap. destruct (decide (i < 4)%nat) as [Hi|Hi].
  - rewrite (proj2 (lookup_seqZ 0 (Z.of_nat 4) i (0 + Z.of_nat i))) by lia. cbn [fmap option_fmap option_map]. rewrite u32_small by lia.
    rewrite store_in by (rewrite ?zlen_le_bytes; lia). replace (a + (0 + Z.of_nat i) - a) with (Z.of_nat i) by lia. rewrite zget_nat.
    pose proof (bytes_le_bytes 4 w) as Hl. destruct (le_bytes 4 w !! i) as [b|] eqn:Eb; cbn.
    + f_equal. apply Z.mod_small. exact (Forall_lookup_1 _ _ _ _ Hl Eb).
    + apply lookup_ge_None in Eb. rewrite length_le_bytes in Eb. lia.
  - rewrite (lookup_seqZ_ge 0 (Z.of_nat 4) i) by lia. symmetry. apply lookup_ge_None. rewrite length_le_bytes. lia.
Qed.

Lemma mem_word_other mem a b bs : 0 <= a -> a + 4 <= 2 ^ 32 -> 0 <= b -> b + zlen bs <= 2 ^ 32 -> a + 4 <= b \/ b + zlen bs <= a ->
  mem_word (Boot.store b bs mem) a = mem_word mem a.
Proof. intros. apply mem_word_ext; [done..|]. intros x Hx. apply store_out; lia. Qed.

(** ** Interrupts *)

Lemma lapicw_run i v s : lapicw i v s = Ok tt (lapic_write i v s).
Proof. done. Qed.

(** [l] was sent, with [hi] left in the high word, and nothing else changed. *)
Definition sent (hi : Z) (l : list (Z * Z)) (a a' : apic) : Prop :=
  a_lapic a' = a_lapic a /\ reg a' ID = reg a ID /\ reg a' ICRHI = hi /\ a_ipis a' = a_ipis a ++ l /\ a_mem a' = a_mem a.

Lemma sent_hi v a : sent (u32 v) [] a (lapic_write ICRHI v a).
Proof. unfold sent, lapic_write, reg. cbn. simpl_map. cbn. by rewrite app_nil_r. Qed.

Lemma sent_lo v hi l a a' : sent hi l a a' -> sent hi (l ++ [(hi, u32 v)]) a (lapic_write ICRLO v a').
Proof.
  intros (H1 & H2 & H3 & H4 & H5). unfold sent, lapic_write. change (ICRLO =? ICRLO) with true. cbv iota. split; [done|].
  split; [rewrite <- H2; unfold reg; cbn; by simpl_map|]. split; [rewrite <- H3; unfold reg; cbn; by simpl_map|]. split; [|done].
  change (a_ipis (set_ipis _ _)) with (a_ipis a' ++ [(reg (set_regs (<[ICRLO:=u32 v]> (a_regs a')) a') ICRHI, u32 v)]). rewrite H4, <- app_assoc. do 3 f_equal. rewrite <- H3. unfold reg. cbn. by simpl_map.
Qed.

Lemma sent_again v l a a' hi : sent hi l a a' -> sent (u32 v) l a (lapic_write ICRHI v a').
Proof.
  intros (H1 & H2 & H3 & H4 & H5). unfold sent, lapic_write. change (ICRHI =? ICRLO) with false. cbv iota. split; [done|].
  split; [rewrite <- H2; unfold reg; cbn; by simpl_map|]. split; [unfold reg; cbn; by simpl_map|done].
Qed.

Definition cmds (id : Z) : list (Z * Z) :=
  let hi := u32 (Z.shiftl id 24) in [(hi, 50432); (hi, 34048); (hi, 1543); (hi, 1543)].

Lemma lapicstartap_run id a : exists a', lapicstartap id 28672 a = Ok tt a' /\ a_lapic a' = a_lapic a /\ reg a' ID = reg a ID /\
  a_ipis a' = a_ipis a ++ cmds id /\ forall x, 0 <= x < 2 ^ 32 -> ~ KERNBASE + 1127 <= x < KERNBASE + 1131 -> a_mem a' x = a_mem a x.
Proof.
  set (m := Boot.store (KERNBASE + 1129) (le_bytes 2 1792) (Boot.store (KERNBASE + 1127) (le_bytes 2 0) (a_mem a))).
  set (a0 := set_amem m (set_ports ((a_ports a ++ [(112, 15)]) ++ [(113, 10)]) a)).
  set (hi := Z.shiftl id 24). set (a1 := lapic_write ICRHI hi a0). set (a2 := lapic_write ICRLO 50432 a1). set (a3 := lapic_write ICRLO 34048 a2).
  set (a4 := lapic_write ICRLO 1543 (lapic_write ICRHI hi a3)). set (a5 := lapic_write ICRLO 1543 (lapic_write ICRHI hi a4)).
  exists a5. split; [done|].
  assert (S5 : sent (u32 hi) (cmds id) a0 a5) by (apply (sent_lo 1543 _ [_; _; _]), (sent_again hi _ _ _ (u32 hi)), (sent_lo 1543 _ [_; _]), (sent_again hi _ _ _ (u32 hi)), (sent_lo 34048 _ [_]), (sent_lo 50432 _ []), sent_hi).
  destruct S5 as (H1 & H2 & _ & H4 & H5). split; [done|]. split; [exact H2|]. split; [exact H4|]. intros x Hx Hn. rewrite H5. change (a_mem a0) with m. unfold m.
  rewrite !store_out; unfold KERNBASE in *; rewrite ?zlen_le_bytes; lia || done.
Qed.

Lemma ap_state_app id l l' : ap_state id (l ++ l') = foldl (ap_step id) (ap_state id l) l'.
Proof. apply foldl_app. Qed.

Lemma hi_id id : 0 <= id < 256 -> Z.shiftr (u32 (Z.shiftl id 24)) 24 = id.
Proof. intros H. rewrite Z.shiftl_mul_pow2, Z.shiftr_div_pow2 by done. rewrite u32_small by lia. by rewrite Z.div_mul. Qed.

(** The four commands start their processor whatever its state, and no other. *)
Lemma ap_started id l : 0 <= id < 256 -> ap_state id (l ++ cmds id) = Running 7.
Proof.
  intros H. rewrite ap_state_app. unfold cmds. cbn zeta. cbn [foldl]. unfold ap_step. rewrite !(hi_id id H), Z.eqb_refl. by destruct (ap_state id l).
Qed.

Lemma ap_unmoved id id' l : 0 <= id < 256 -> id' <> id -> ap_state id' (l ++ cmds id) = ap_state id' l.
Proof.
  intros H Hne. rewrite ap_state_app. unfold cmds. cbn zeta. cbn [foldl]. unfold ap_step. by rewrite !(hi_id id H), (proj2 (Z.eqb_neq id id')).
Qed.

(** ** One processor *)

Section kernel.
Context (entryother : list Z) (mpenter entrypgdir : Z).
Hypothesis Henter : 0 <= mpenter < 2 ^ 32.
Hypothesis Hpg : KERNBASE <= entrypgdir < 2 ^ 32.

Definition code : Z := KERNBASE + 28672.

(** This processor is the entry [me] of [cpus]. *)
Definition self (me : nat) (s : mstate) : Prop :=
  a_lapic (t_apic s) <> 0 /\ find_apic (t_cpus s) (Z.shiftr (reg (t_apic s) ID) 24) = Some me.

Lemma self_run me s : self me s -> mycpu s = Ok me s.
Proof.
  intros [H1 H2]. unfold mycpu. assert (E : onapic lapicid s = Ok (Z.shiftr (reg (t_apic s) ID) 24) s).
  { unfold onapic, zoom, lapicid. rewrite gets_bind, (proj2 (Z.eqb_neq _ _) H1). by destruct s. }
  rewrite (bind_run _ _ _ _ _ E), gets_bind. by rewrite H2.
Qed.

(** What starting [l], pairs of an entry of [cpus] and the page of its stack,
    leaves *)
Record after (s s' : mstate) (l : list (nat * Z)) : Prop := {
  r_cpus : t_cpus s' = t_cpus s;
  r_lapic : a_lapic (t_apic s') = a_lapic (t_apic s) /\ reg (t_apic s') ID = reg (t_apic s) ID;
  r_aps : t_aps s' = t_aps s ++ ((fun ip => (ip.1, (ip.2 + KSTACKSIZE, entrypgdir - KERNBASE, mpenter))) <$> l);
  r_started : forall i, t_started s' !! i = if decide (i ∈ l.*1) then Some 1 else t_started s !! i;
  r_ipis : forall id, (forall i c, i ∈ l.*1 -> t_cpus s !! i = Some c -> c_apicid c <> id) -> ap_state id (a_ipis (t_apic s')) = ap_state id (a_ipis (t_apic s));
  r_code : forall k, 0 <= k < 4096 -> a_mem (t_apic s') (code + k) = a_mem (t_apic s) (code + k)
}.

Lemma after_nil s : after s s [].
Proof. split; try done; by rewrite app_nil_r. Qed.

Lemma after_app s s1 s2 l1 l2 : after s s1 l1 -> after s1 s2 l2 -> after s s2 (l1 ++ l2).
Proof.
  intros [A1 [A2 A3] A4 A5 A6 A7] [B1 [B2 B3] B4 B5 B6 B7]. split.
  - congruence.
  - split; congruence.
  - by rewrite B4, A4, fmap_app, app_assoc.
  - intros i. rewrite B5, A5, fmap_app. destruct (decide (i ∈ l2.*1)) as [H2|H2]; [by rewrite decide_True by (apply elem_of_app; by right)|].
    destruct (decide (i ∈ l1.*1)) as [H1|H1]; [by rewrite decide_True by (apply elem_of_app; by left)|by rewrite decide_False by (rewrite elem_of_app; tauto)].
  - intros id H. rewrite B6, A6; [done|..]; intros i c Hi Hc; rewrite ?A1 in Hc; apply (H i c); rewrite ?fmap_app, ?elem_of_app; tauto.
  - intros k Hk. by rewrite B7, A7.
Qed.

Lemma self_after me s s' l : self me s -> after s s' l -> self me s'.
Proof. intros [H1 H2] [A1 [A2 A3] _ _ _ _]. unfold self. by rewrite A1, A2, A3. Qed.

Lemma wr_word_run a w s : wr_word a w s = Ok tt (set_tapic (set_amem (Boot.store a (le_bytes 4 (u32 w)) (a_mem (t_apic s))) (t_apic s)) s).
Proof. done. Qed.

(** The words before the code, when they were written one after the other *)
Lemma three_words mem a b c : 0 <= a < 2 ^ 32 -> 0 <= b < 2 ^ 32 -> 0 <= c < 2 ^ 32 ->
  let mem' := Boot.store (code - 12) (le_bytes 4 (u32 c)) (Boot.store (code - 8) (le_bytes 4 (u32 b)) (Boot.store (code - 4) (le_bytes 4 (u32 a)) mem)) in
  mem_word mem' (code - 4) = a /\ mem_word mem' (code - 8) = b /\ mem_word mem' (code - 12) = c /\
  (forall x, code <= x < code + 4096 -> mem' x = mem x).
Proof.
  intros Ha Hb Hc mem'. unfold mem', code, KERNBASE. split; [|split; [|split]].
  - rewrite !mem_word_other by (rewrite ?zlen_le_bytes; lia). by apply mem_word_store.
  - rewrite mem_word_other by (rewrite ?zlen_le_bytes; lia). by apply mem_word_store.
  - by apply mem_word_store.
  - intros x Hx. rewrite !store_out; rewrite ?zlen_le_bytes; lia || done.
Qed.

Lemma startother_run me s i c p l : self me s -> t_cpus s !! i = Some c -> i <> me -> 0 <= c_apicid c < 256 -> Kalloc.free_pages (t_kmem s) (p :: l) -> 0 <= p < 2 ^ 31 + PHYSTOP ->
  exists s', startother mpenter entrypgdir i code s = Ok tt s' /\ after s s' [(i, p)] /\ Kalloc.free_pages (t_kmem s') l.
Proof using Henter Hpg.
  intros Hme Hc Hi Hid Hf Hp. unfold PHYSTOP in Hp. unfold startother. rewrite (bind_run _ _ _ _ _ (self_run _ _ Hme)), (proj2 (Nat.eqb_neq _ _) Hi).
  destruct (Kalloc.kalloc_run _ _ _ Hf) as (k' & Ek & Hf' & _).
  rewrite (bind_run _ _ s p (set_tkmem k' s)) by (unfold alloc, zoom; by rewrite Ek).
  assert (Hv : Kalloc.V2P entrypgdir = ret (S := mstate) (entrypgdir - KERNBASE)) by (unfold Kalloc.V2P; by rewrite (proj2 (Z.ltb_ge _ _)) by lia).
  assert (Hvc : Kalloc.V2P code = ret (S := mstate) 28672) by done.
  set (mem := a_mem (t_apic s)). destruct (three_words mem (p + KSTACKSIZE) mpenter (entrypgdir - KERNBASE)) as (W1 & W2 & W3 & W4); [unfold KSTACKSIZE, KERNBASE in *; lia..|].
  set (m3 := Boot.store (code - 12) _ _) in *. set (s3 := set_tapic (set_amem m3 (t_apic s)) (set_tkmem k' s)).
  assert (Ew : forall K : M mstate unit, (wr_word (code - 4) (p + KSTACKSIZE) ;; wr_word (code - 8) mpenter ;; pg <- Kalloc.V2P entrypgdir ;; wr_word (code - 12) pg ;; K) (set_tkmem k' s) = K s3).
  { intros K. rewrite Hv. reflexivity. }
  rewrite Ew, gets_bind. change (t_cpus s3) with (t_cpus s). rewrite Hc. cbn [from_option_undef]. rewrite bind_ret_l, Hvc, bind_ret_l.
  destruct (lapicstartap_run (c_apicid c) (t_apic s3)) as (a' & Ea & A1 & A2 & A3 & A4).
  rewrite (bind_run _ _ s3 tt (set_tapic a' s3)) by (unfold onapic, zoom; by rewrite Ea).
  assert (Hw : forall o, 0 < o <= 12 -> Startup.rd_word (code - o) (set_tapic a' s3) = mem_word m3 (code - o)).
  { intros o Ho. apply mem_word_ext; [unfold code, KERNBASE; lia..|]. intros x Hx. apply A4; unfold code, KERNBASE in *; lia. }
  assert (Eb : ap_boot i (set_tapic a' s3) = mkMstate k' (t_cpus s) (<[i := 1]> (t_started s)) a' (t_aps s ++ [(i, (p + KSTACKSIZE, entrypgdir - KERNBASE, mpenter))])).
  { unfold ap_boot. change (t_cpus (set_tapic a' s3)) with (t_cpus s). rewrite Hc. change (t_apic (set_tapic a' s3)) with a'. rewrite A3, ap_started by done.
    change (KERNBASE + 7 * 4096) with code. cbn zeta. rewrite !Hw by lia. by rewrite W1, W2, W3. }
  unfold wait_started. assert (Em : modify (ap_boot i) (set_tapic a' s3) = Ok tt (ap_boot i (set_tapic a' s3))) by done. rewrite (bind_run _ _ _ _ _ Em), Eb, gets_bind. cbn [t_started]. rewrite lookup_insert_eq. cbn.
  eexists. split; [reflexivity|]. split; [|done]. split; cbn; try done.
  - intros j. destruct (decide (i = j)) as [<-|Hne]; [by rewrite lookup_insert_eq, decide_True by set_solver|by rewrite lookup_insert_ne, decide_False by set_solver].
  - intros id H. rewrite A3. apply ap_unmoved; [done|]. intros ->. by apply (H i c); [set_solver| |].
  - intros k Hk. rewrite A4 by (unfold code, KERNBASE in *; lia). apply W4. lia.
Qed.

(** ** All of them *)

(** The entries of [cpus] from [i] on but this one *)
Definition others (me n i : nat) : list nat := filter (fun j => j <> me) (seq i n).

Lemma startothers_loop_run me n : forall s i ps rest, self me s -> (i + n <= length (t_cpus s))%nat -> Forall (fun c => 0 <= c_apicid c < 256) (t_cpus s) ->
  length ps = length (others me n i) -> Kalloc.free_pages (t_kmem s) (ps ++ rest) -> Forall (fun p => 0 <= p < 2 ^ 31 + PHYSTOP) ps ->
  exists s', startothers_loop mpenter entrypgdir n i code s = Ok tt s' /\ after s s' (zip (others me n i) ps) /\ Kalloc.free_pages (t_kmem s') rest.
Proof using Henter Hpg.
  induction n as [|n IH]; intros s i ps rest Hme Hn Hid Hl Hf Hp; cbn [startothers_loop].
  - destruct ps; [|done]. exists s. split; [done|]. split; [apply after_nil|done].
  - unfold others in *. cbn [seq] in *. destruct (lookup_lt_is_Some_2 (t_cpus s) i ltac:(lia)) as [c Hc]. destruct (decide (i <> me)) as [Hi|Hi].
    + rewrite filter_cons_True in * by done. destruct ps as [|p ps]; [done|]. injection Hl as Hl. apply Forall_cons in Hp as [Hp1 Hp].
      destruct (startother_run me s i c p (ps ++ rest) Hme Hc Hi) as (s1 & E & R & F); [by apply (Forall_lookup_1 _ _ _ _ Hid Hc)|done|done|]. rewrite (bind_run _ _ _ _ _ E).
      destruct (IH s1 (S i) ps rest) as (s2 & E2 & R2 & F2); [by eapply self_after|rewrite (r_cpus _ _ _ R); lia|by rewrite (r_cpus _ _ _ R)|done..|].
      exists s2. split; [done|]. split; [by apply (after_app s s1 s2 [(i, p)])|done].
    + rewrite filter_cons_False in * by done. assert (i = me) as -> by (destruct (decide (i = me)); tauto).
      assert (E : startother mpenter entrypgdir me code s = Ok tt s) by (unfold startother; by rewrite (bind_run _ _ _ _ _ (self_run _ _ Hme)), Nat.eqb_refl).
      rewrite (bind_run _ _ _ _ _ E). by apply IH; [|lia|..].
Qed.


End kernel.

(** ** A machine with three processors *)

Definition w_cpu (a : Z) : cpu := mkCpu a 0 0 false None None.
Definition w_start : mstate :=
  mkMstate (Kalloc.mkKmem 0 2147483648 {[2147483648 := 2147487744; 2147487744 := 2147491840; 2147491840 := 0]}) [w_cpu 0; w_cpu 4; w_cpu 9] ∅
    (mkApic 4276092928 {[ID := Z.shiftl 4 24]} 0 [] 0 ∅ [] (fun _ => 0)) [].


(** Without a free page the processor is started all the same, with a stack in
    the first page of the address space. *)
Definition w_no_page : mstate := mkMstate (Kalloc.mkKmem 0 0 ∅) [w_cpu 0; w_cpu 4] ∅ (mkApic 4276092928 {[ID := Z.shiftl 4 24]} 0 [] 0 ∅ [] (fun _ => 0)) [].
Example no_stack : match startothers [250; 49] 2148532224 2148536320 w_no_page with Ok _ s => t_aps s = [(0%nat, (4096, 1052672, 2148532224))] | _ => False end.
Proof. by vm_compute. Qed.

End StartupProps.
