(* ===== verification/Tools.v ===== *)
(** * ls.c, ln.c, rm.c, mkdir.c, kill.c, init.c and stat of ulib.c

    These programs are sequences of system calls.  [Calls] is what they use of
    the kernel, on a world of type [W]; a path is the bytes of a string, and
    exit is the end of the program.  exec returns only when it fails.  What printf is given to print is kept as
    the bytes it writes. *)
From S2P Require Import Prelude Words Params CString Fs Ulib.

Module Tools.

Class Calls (W : Type) := {
  u_open : list Z -> Z -> M W Z;
  u_fstat : Z -> M W (Z * Fs.stat);
  u_read : Z -> Z -> M W (Z * list Z);
  u_close : Z -> M W Z;
  u_link : list Z -> list Z -> M W Z;
  u_unlink : list Z -> M W Z;
  u_mkdir : list Z -> M W Z;
  u_kill : Z -> M W Z;
  u_mknod : list Z -> Z -> Z -> M W Z;
  u_dup : Z -> M W Z;
  u_fork : M W Z;
  u_wait : M W Z;
  u_exec : list Z -> list (list Z) -> M W Z;
  u_print : Z -> list Z -> M W unit
}.

(** The bytes of a string constant *)
Definition text (s : string) : list Z := (fun a => Z.of_nat (Ascii.nat_of_ascii a)) <$> String.list_ascii_of_string s.

Section programs.
Context {W : Type} `{!Calls W}.

(** ulib.c:stat; the second component is what fstat stored. *)
Definition stat (n : list Z) : M W (Z * option Fs.stat) :=
  fd <- u_open n O_RDONLY ;;
  if fd <? 0 then ret (-1, None)
  else let* (r, st) := u_fstat fd in u_close fd ;; ret (r, Some st).

(** ** ls.c *)

(** The first character after the last slash of the first [n] *)
Fixpoint after_slash (n : nat) (path : list Z) : nat :=
  match n with
  | O => O
  | S n' => if bool_decide (path !! n' = Some 47) then n else after_slash n' path
  end.

Definition fmtname (path : list Z) : list Z :=
  let p := drop (after_slash (length path) path) path in
  if zlen p >=? DIRSIZ then p else p ++ replicate (Z.to_nat (DIRSIZ - zlen p)) 32.

(** [printf(1, "%s %d %d %d\n", ...)] *)
Definition print_entry (path : list Z) (st : Fs.stat) : M W unit :=
  match Ulib.printint (Fs.st_type st) 10 true, Ulib.printint (s32 (Fs.st_ino st)) 10 true, Ulib.printint (s32 (Fs.st_size st)) 10 true with
  | Some t, Some i, Some z => u_print 1 (fmtname path ++ 32 :: t ++ 32 :: i ++ 32 :: z ++ [10])
  | _, _, _ => undef
  end.

(** The body of the loop of ls for an entry [de] of the directory [path] *)
Definition ls_entry (path de : list Z) : M W unit :=
  if Fs.de_inum de =? 0 then ret tt
  else
    let buf := path ++ 47 :: CString.cstr (Z.to_nat DIRSIZ) (Fs.de_name de) in
    let* (r, st) := stat buf in
    match st with
    | Some st => if r <? 0 then u_print 1 (text "ls: cannot stat " ++ buf ++ [10]) else print_entry buf st
    | None => u_print 1 (text "ls: cannot stat " ++ buf ++ [10])
    end.

(** The loop of ls on a directory that has at most [fuel] entries and does not
    grow meanwhile *)
Fixpoint ls_loop (fuel : nat) (fd : Z) (path : list Z) : M W unit :=
  let* (n, de) := u_read fd 16 in
  if n =? 16 then match fuel with O => undef | S fuel' => ls_entry path de ;; ls_loop fuel' fd path end else ret tt.

Definition ls (path : list Z) : M W unit :=
  fd <- u_open path 0 ;;
  if fd <? 0 then u_print 2 (text "ls: cannot open " ++ path ++ [10])
  else
    let* (r, st) := u_fstat fd in
    if r <? 0 then u_print 2 (text "ls: cannot stat " ++ path ++ [10]) ;; u_close fd ;; ret tt
    else
      (if Fs.st_type st =? T_FILE then print_entry path st
       else if Fs.st_type st =? T_DIR then
         if zlen path + 1 + DIRSIZ + 1 >? 512 then u_print 1 (text "ls: path too long" ++ [10])
         else ls_loop (Z.to_nat (Fs.st_size st / 16)) fd path
       else ret tt) ;;
      u_close fd ;;
      ret tt.

Fixpoint ls_all (args : list (list Z)) : M W unit :=
  match args with [] => ret tt | a :: args' => ls a ;; ls_all args' end.

(** ls.c:main; the arguments come without the name of the program. *)
Definition ls_main (args : list (list Z)) : M W unit := match args with [] => ls (text ".") | _ => ls_all args end.

(** ** ln.c, rm.c, mkdir.c and kill.c *)

Definition ln_main (args : list (list Z)) : M W unit :=
  match args with
  | [old; new] =>
      r <- u_link old new ;;
      if r <? 0 then u_print 2 (text "link " ++ old ++ 32 :: new ++ text ": failed" ++ [10]) else ret tt
  | _ => u_print 2 (text "Usage: ln old new" ++ [10])
  end.

(** The loops of rm and mkdir stop at the first failure. *)
Fixpoint each (f : list Z -> M W Z) (before after : list Z) (args : list (list Z)) : M W unit :=
  match args with
  | [] => ret tt
  | a :: args' => r <- f a ;; if r <? 0 then u_print 2 (before ++ a ++ after) else each f before after args'
  end.

Definition rm_main (args : list (list Z)) : M W unit :=
  match args with
  | [] => u_print 2 (text "Usage: rm files..." ++ [10])
  | _ => each u_unlink (text "rm: ") (text " failed to delete" ++ [10]) args
  end.

Definition mkdir_main (args : list (list Z)) : M W unit :=
  match args with
  | [] => u_print 2 (text "Usage: mkdir files..." ++ [10])
  | _ => each u_mkdir (text "mkdir: ") (text " failed to create" ++ [10]) args
  end.

Fixpoint kill_all (args : list (list Z)) : M W unit :=
  match args with
  | [] => ret tt
  | a :: args' => match Ulib.atoi (a ++ [0]) with Some pid => u_kill pid ;; kill_all args' | None => undef end
  end.

Definition kill_main (args : list (list Z)) : M W unit :=
  match args with [] => u_print 2 (text "usage: kill pid..." ++ [10]) | _ => kill_all args end.

(** ** init.c *)

Definition init_open : M W unit :=
  fd <- u_open (text "console") O_RDWR ;;
  (if fd <? 0 then u_mknod (text "console") 1 1 ;; u_open (text "console") O_RDWR ;; ret tt else ret tt) ;;
  u_dup 0 ;;
  u_dup 0 ;;
  ret tt.

(** The loop that waits for the shell [pid], at most [fuel] processes before it *)
Fixpoint init_wait (fuel : nat) (pid : Z) : M W unit :=
  wpid <- u_wait ;;
  if (wpid >=? 0) && negb (wpid =? pid) then
    match fuel with O => undef | S fuel' => u_print 1 (text "zombie!" ++ [10]) ;; init_wait fuel' pid end
  else ret tt.

(** A round of the loop of main; the result is whether it goes on. *)
Definition init_round (fuel : nat) : M W bool :=
  u_print 1 (text "init: starting sh" ++ [10]) ;;
  pid <- u_fork ;;
  if pid <? 0 then u_print 1 (text "init: fork failed" ++ [10]) ;; ret false
  else if pid =? 0 then u_exec (text "sh") [text "sh"] ;; u_print 1 (text "init: exec sh failed" ++ [10]) ;; ret false
  else init_wait fuel pid ;; ret true.

(** The first [n] rounds *)
Fixpoint init_rounds (fuel n : nat) : M W bool :=
  match n with O => ret true | S n' => go <- init_round fuel ;; if go : bool then init_rounds fuel n' else ret false end.

Definition init_main (fuel n : nat) : M W bool := init_open ;; init_rounds fuel n.

End programs.

(** ** Names *)

Lemma after_slash_app n : forall l name, 47 ∉ name -> n = length name -> (l = [] \/ last l = Some 47) -> after_slash (length l + n) (l ++ name) = length l.
Proof.
  induction n as [|n IH]; intros l name Hn Hl Hs.
  - rewrite Nat.add_0_r. destruct name; [|done]. rewrite app_nil_r. destruct Hs as [->|Hs]; [done|]. destruct l as [|x l] using rev_ind; [done|]. clear IHl.
    rewrite length_app, Nat.add_comm. cbn [length Nat.add after_slash]. rewrite last_snoc in Hs. injection Hs as ->.
    by rewrite bool_decide_eq_true_2 by (by rewrite list_lookup_middle).
  - destruct name as [|b name] using rev_ind; [done|]. clear IHname. rewrite length_app in Hl. cbn in Hl. rewrite Nat.add_succ_r. cbn [after_slash].
    rewrite bool_decide_eq_false_2; [|rewrite app_assoc, lookup_app_r, length_app by (rewrite length_app; lia); replace (length l + n - (length l + length name))%nat with 0%nat by lia; set_solver].
    rewrite app_assoc. rewrite <- (IH l name) at 2 by (set_solver || lia || done).
    assert (H : forall k, (k <= length (l ++ name))%nat -> after_slash k ((l ++ name) ++ [b]) = after_slash k (l ++ name)).
    { clear. intros k. induction k as [|k IH]; intros Hk; [done|]. cbn [after_slash]. rewrite lookup_app_l by lia. by rewrite IH by lia. }
    apply H. rewrite length_app. lia.
Qed.

(** fmtname is the part after the last slash, padded with blanks to DIRSIZ. *)
Lemma fmtname_last dir name : 47 ∉ name -> dir = [] \/ last dir = Some 47 -> fmtname (dir ++ name) = name ++ replicate (Z.to_nat (DIRSIZ - zlen name)) 32.
Proof.
  intros Hn Hd. unfold fmtname. rewrite length_app, (after_slash_app (length name)) by done. rewrite drop_app_length.
  destruct (Z.geb_spec (zlen name) DIRSIZ); [|done]. replace (Z.to_nat _) with 0%nat by lia. by rewrite app_nil_r.
Qed.

Example fmtname_dot : fmtname (text "./cat") = text "cat           ".
Proof. by vm_compute. Qed.

End Tools.
