(* ===== verification/Seg.v ===== *)
(** * Segments: SEG of mmu.h and seginit of vm.c

    Each CPU has a descriptor table in its entry of [cpus]; seginit fills four
    of its entries and loads the table register of the CPU it runs on. *)
From S2P Require Import Prelude Words Params Spinlock.

Module Seg.
Import Spinlock.

(** ** mmu.h *)

Definition SEG_KCODE : Z := 1.
Definition SEG_KDATA : Z := 2.
Definition SEG_UCODE : Z := 3.
Definition SEG_UDATA : Z := 4.
Definition NSEGS : Z := 6.
Definition DPL_USER : Z := 3.
Definition STA_X : Z := 8.
Definition STA_W : Z := 2.
Definition STA_R : Z := 2.

Record segdesc := mkSegdesc {
  lim_15_0 : Z; base_15_0 : Z; base_23_16 : Z; sd_type : Z; sd_s : Z; sd_dpl : Z; sd_p : Z;
  lim_19_16 : Z; sd_avl : Z; sd_rsv1 : Z; sd_db : Z; sd_g : Z; base_31_24 : Z
}.

(** The bit fields keep the low bits of what is stored in them. *)
Definition SEG (type base lim dpl : Z) : segdesc :=
  mkSegdesc (Z.land (Z.shiftr lim 12) 65535) (Z.land base 65535) (Z.land (Z.shiftr base 16) 255) (type mod 16) 1 (dpl mod 4) 1
    (Z.shiftr lim 28 mod 16) 0 0 1 1 (Z.shiftr base 24 mod 256).

(** ** vm.c:seginit *)

(** The locks and CPUs, the tables, and the table register of each CPU: whose
    table it holds, and the limit *)
Record segs := mkSegs { s_mach : mach; s_gdt : gmap nat (list segdesc); s_gdtr : gmap nat (nat * Z) }.

Definition set_desc (c : nat) (i : Z) (d : segdesc) : M segs unit :=
  modify (fun s => mkSegs (s_mach s) (alter (fun l => zset l i d) c (s_gdt s)) (s_gdtr s)).
Definition lgdt (me c : nat) (size : Z) : M segs unit :=
  modify (fun s => mkSegs (s_mach s) (s_gdt s) (<[me := (c, size - 1)]> (s_gdtr s))).

Definition seginit (me : nat) : M segs unit :=
  i <- zoom s_mach (fun m s => mkSegs m (s_gdt s) (s_gdtr s)) (cpuid me) ;;
  let c := Z.to_nat i in
  set_desc c SEG_KCODE (SEG (Z.lor STA_X STA_R) 0 4294967295 0) ;;
  set_desc c SEG_KDATA (SEG STA_W 0 4294967295 0) ;;
  set_desc c SEG_UCODE (SEG (Z.lor STA_X STA_R) 0 4294967295 DPL_USER) ;;
  set_desc c SEG_UDATA (SEG STA_W 0 4294967295 DPL_USER) ;;
  lgdt me c (NSEGS * 8).

(** ** What the processor makes of a descriptor *)

Definition seg_base (d : segdesc) : Z := base_15_0 d + 2 ^ 16 * base_23_16 d + 2 ^ 24 * base_31_24 d.
Definition seg_limit (d : segdesc) : Z :=
  let l := lim_15_0 d + 2 ^ 16 * lim_19_16 d in if sd_g d =? 1 then 4096 * l + 4095 else l.

(** A descriptor made by SEG has the base it was given, and the limit up to the
    end of its page. *)
Lemma SEG_spec type base lim dpl : 0 <= base < 2 ^ 32 -> 0 <= lim < 2 ^ 32 -> 0 <= type < 16 -> 0 <= dpl < 4 ->
  let d := SEG type base lim dpl in seg_base d = base /\ seg_limit d = lim / 4096 * 4096 + 4095 /\ sd_type d = type /\ sd_dpl d = dpl.
Proof.
  intros Hb Hl Ht Hd. unfold SEG, seg_base, seg_limit. cbn [base_15_0 base_23_16 base_31_24 lim_15_0 lim_19_16 sd_g sd_type sd_dpl]. change (1 =? 1) with true. cbv zeta iota.
  change 65535 with (Z.ones 16). change 255 with (Z.ones 8). rewrite !Z.land_ones, !Z.shiftr_div_pow2 by done.
  repeat split; Z.to_euclidean_division_equations; lia.
Qed.

(** seginit leaves a flat address space: four segments over all of it, two of
    them for the user. *)
Lemma seginit_flat s me i m g : cpuid me (s_mach s) = Ok i m -> s_gdt s !! Z.to_nat i = Some g -> length g = 6%nat ->
  exists s' g', seginit me s = Ok tt s' /\ s_mach s' = m /\ s_gdt s' !! Z.to_nat i = Some g' /\ s_gdtr s' !! me = Some (Z.to_nat i, 47) /\
    zget g' 0 = zget g 0 /\ zget g' 5 = zget g 5 /\
    forall k, 1 <= k <= 4 -> exists d, zget g' k = Some d /\ seg_base d = 0 /\ seg_limit d = 2 ^ 32 - 1 /\ sd_dpl d = (if k <=? 2 then 0 else 3).
Proof.
  intros E Hg Hl. do 6 (destruct g as [|? g]; [done|]). destruct g; [|done].
  eexists _, _. split; [unfold seginit, bind, zoom; rewrite E; reflexivity|]. cbn [s_mach s_gdt s_gdtr]. split; [done|].
  split; [by rewrite !lookup_alter_eq, Hg|]. split; [by rewrite lookup_insert_eq|]. split; [done|]. split; [done|].
  intros k Hk. assert (k = 1 \/ k = 2 \/ k = 3 \/ k = 4) as [-> | [-> | [-> | ->]]] by lia; eexists; (split; [reflexivity|by vm_compute]).
Qed.

End Seg.
