(* ===== verification/MemIde.v ===== *)
(** * memide.c: a disk in memory

    The driver that can be linked instead of ide.c keeps the disk in an array of
    bytes.  It is the same to the buffer cache as the driver of Bio with that
    disk in drive 1. *)
From S2P Require Import Prelude Words Params Bio.

Module MemIde.

(** The buffers (of whose state the disk is not used), memdisk, and disksize *)
Record memide := mkMemide { md_bio : bio; memdisk : list Z; disksize : Z }.

Definition set_bio (b : bio) (s : memide) : memide := mkMemide b (memdisk s) (disksize s).
Definition set_memdisk (l : list Z) (s : memide) : memide := mkMemide (md_bio s) l (disksize s).

Definition onbio {A} (m : M bio A) : M memide A := zoom md_bio set_bio m.

Section driver.
(** The running process, and the image linked into the kernel *)
Context (pid : Z) (fs_img : list Z).

Definition ideinit : M memide unit := modify (fun s => mkMemide (md_bio s) fs_img (zlen fs_img / BSIZE)).

Definition iderw (i : nat) : M memide unit :=
  h <- onbio (Bio.holdingsleep pid i) ;;
  b <- onbio (Bio.buf_at i) ;;
  size <- gets disksize ;;
  if negb h then panic "iderw: buf not locked"
  else if Z.land (b_flags b) (Z.lor B_VALID B_DIRTY) =? B_VALID then panic "iderw: nothing to do"
  else if negb (b_dev b =? 1) then panic "iderw: request not for disk 1"
  else if b_blockno b >=? size then panic "iderw: block out of range"
  else
    let p := Z.to_nat (b_blockno b * BSIZE) in
    (if has_flag b B_DIRTY then
       onbio (Bio.upd_buf i (fun b => set_b_flags (Z.land (b_flags b) (Z.lnot B_DIRTY)) b)) ;;
       modify (fun s => set_memdisk (splice p (b_data b) (memdisk s)) s)
     else
       d <- gets memdisk ;;
       onbio (Bio.upd_buf i (set_b_data (slice p (Z.to_nat BSIZE) d)))) ;;
    onbio (Bio.upd_buf i (fun b => set_b_flags (Z.lor (b_flags b) B_VALID) b)).

End driver.

(** ** The same disk *)

Definition block_bytes (l : list Z) (k : Z) : list Z := slice (Z.to_nat (k * BSIZE)) (Z.to_nat BSIZE) l.

(** The array is the blocks of drive 1. *)
Record same (m : memide) (s : bio) : Prop := {
  m_bufs : bufs (md_bio m) = bufs s /\ lru (md_bio m) = lru s;
  m_size : 0 <= disksize m <= FSSIZE /\ zlen (memdisk m) = disksize m * BSIZE;
  m_disk : forall k, 0 <= k < disksize m -> disk_at (disk s) (1, k) = block_bytes (memdisk m) k
}.

Lemma flags_clean f : Z.land (Z.lor f B_VALID) (Z.lnot B_DIRTY) = Z.lor (Z.land f (Z.lnot B_DIRTY)) B_VALID.
Proof.
  rewrite Z.land_lor_distr_l. f_equal.
Qed.

Lemma flags_keep f : Z.land f B_DIRTY = 0 -> Z.land f (Z.lnot B_DIRTY) = f.
Proof. intros H. rewrite <- Z.ldiff_land. pose proof (Z.lor_ldiff_and f B_DIRTY) as E. by rewrite H, Z.lor_0_r in E. Qed.

(** Where Bio's driver returns, so does this one, and the disks are the same. *)
Lemma iderw_same pid i b m s s' : same m s -> bufs s !! i = Some b -> b_dev b = 1 -> 0 <= b_blockno b < disksize m -> length (b_data b) = Z.to_nat BSIZE ->
  Bio.iderw pid true i s = Ok tt s' -> exists m', iderw pid i m = Ok tt m' /\ same m' s'.
Proof.
  intros [[M1 M2] [M3 M4] M5] Hb Hdev Hno Hlen E. pose proof (lookup_lt_Some _ _ _ Hb) as Hi.
  assert (Eb : Bio.buf_at i s = Ok b s) by (unfold Bio.buf_at; rewrite gets_bind; by rewrite Hb).
  assert (Ebm : onbio (Bio.buf_at i) m = Ok b m) by (unfold onbio, zoom, Bio.buf_at; rewrite gets_bind, M1, Hb; by destruct m).
  set (w := b_locked b && (b_lkpid b =? pid)).
  assert (Eh : Bio.holdingsleep pid i s = Ok w s) by (unfold Bio.holdingsleep; by rewrite (bind_run _ _ _ _ _ Eb)).
  assert (Ehm : onbio (Bio.holdingsleep pid i) m = Ok w m) by (unfold onbio, zoom, Bio.holdingsleep, Bio.buf_at; rewrite bind_assoc, gets_bind, M1, Hb; by destruct m).
  unfold Bio.iderw in E. rewrite (bind_run _ _ _ _ _ Eh), (bind_run _ _ _ _ _ Eb) in E.
  unfold iderw. rewrite (bind_run _ _ _ _ _ Ehm), (bind_run _ _ _ _ _ Ebm), gets_bind.
  destruct w; [|done]. cbn [negb] in *. destruct (_ =? B_VALID); [done|]. rewrite Hdev in *. change (1 =? 1) with true. change (negb (1 =? 0) && false) with false in E. cbn [negb].
  destruct (Z.geb_spec (b_blockno b) (disksize m)); [lia|]. unfold Bio.idestart_check in E. destruct (Z.geb_spec (b_blockno b) FSSIZE); [done|]. cbv iota in E. rewrite bind_ret_l in E.
  unfold Bio.ideintr in E. rewrite (bind_run _ _ _ _ _ Eb) in E. cbn zeta. destruct (has_flag b B_DIRTY) eqn:Hd.
  - unfold Bio.upd_buf, Bio.buf_at, bind, gets, modify, set_disk, from_option_undef in E. cbn in E. rewrite Hb in E. cbn in E. injection E as <-.
    unfold onbio, zoom, Bio.upd_buf, Bio.buf_at, bind, gets, modify, from_option_undef. rewrite M1, Hb. cbn. rewrite list_lookup_insert_eq by (rewrite ?M1; exact Hi). cbn.
    eexists. split; [reflexivity|]. split; cbn; [split; [|done]|split; [done|]|].
    + rewrite ?M1, list_insert_insert_eq. unfold set_b_flags. cbn. by rewrite flags_clean.
    + unfold zlen in *. rewrite length_splice; [done|]. unfold BSIZE in *. lia.
    + intros k Hk. unfold b_key. rewrite Hdev. unfold disk_at, block_bytes. unfold zlen, BSIZE in *. destruct (decide (k = b_blockno b)) as [->|Hne].
      * rewrite lookup_insert_eq. cbn. rewrite slice_splice; [done|lia|done].
      * rewrite lookup_insert_ne by congruence. destruct (Z.lt_ge_cases k (b_blockno b)); [rewrite slice_splice_before by lia|rewrite slice_splice_after by lia]; by apply M5.
  - unfold Bio.upd_buf, Bio.buf_at, bind, gets, modify, from_option_undef in E. cbn in E. rewrite Hb in E. cbn in E. rewrite list_lookup_insert_eq in E by exact Hi. cbn in E. injection E as <-.
    unfold onbio, zoom, Bio.upd_buf, Bio.buf_at, bind, gets, modify, from_option_undef. rewrite M1, Hb. cbn. rewrite list_lookup_insert_eq by (rewrite ?M1; exact Hi). cbn.
    eexists. split; [reflexivity|]. split; cbn; [split; [|done]|done|done].
    rewrite ?M1, !list_insert_insert_eq. unfold set_b_flags, set_b_data, b_key. cbn. rewrite Hdev, (M5 (b_blockno b) Hno), flags_clean, flags_keep; [done|]. unfold has_flag in Hd. by apply negb_false_iff, Z.eqb_eq in Hd.
Qed.

End MemIde.
